(* ===== verification/_CoqProject ===== *)
-Q . S2P
Prelude.v
Text.v
Redaction.v
Errors.v
StateMachine.v
Env.v
Types.v
CloudRecord.v
CloudMetadata.v
Storage.v
Conflict.v
Checkpoint.v
Retry.v
Lock.v
Pipeline.v
Push.v
SyncTask.v
Crypto.v
Keystore.v
Payload.v
Database.v
Queries.v
Vault.v
Logic.v
Records.v
Tags.v
Integrity.v
Password.v
Files.v
Formats.v
Backup.v
Foreign.v
ImportService.v
Listing.v
Executor.v
Opening.v
ImportExec.v
Generator.v
Rotation.v
VaultSync.v
VaultOps.v
Lifecycle.v
CloudTrip.v
ExecSync.v
Transfer.v
Health.v
HealthExec.v
AgentKeys.v
Agent.v
Demo.v
Clipboard.v
RecordExec.v
Config.v
Providers.v
OAuth.v
ConfigExec.v
CloudRestore.v
SyncActor.v
Recovery.v
VaultExec.v
Dispatch.v
RunLoop.v
Watcher.v
ListPanel.v
Sidebar.v
DetailPanel.v
Overlays.v
MainScreen.v
MainSafety.v
FormState.v
FormScreens.v
FormSafety.v
UnlockScreen.v
DemoVault.v
Witness.v
WitnessVault.v
WitnessImport.v
WitnessCloud.v
WitnessExec.v
WitnessUi.v
