(* ===== verification/Prelude.v ===== *)
(** * A verification library for oak-keyring

    oak-keyring is a password manager: an encrypted vault on each device, an interface
    in the terminal, and a sync engine that carries the records of the vault between
    devices through a passive file store (iCloud, a cloud drive).  This library models
    the vault with its keys, its database and its recovery words, the rotation of its
    keys, the generation and the analysis of passwords, the sync engine, import, export
    and backups, the settings with their providers and authorization, the clipboard, the
    SSH agent, the executor that runs every command of the interface, and of the interface
    the main screen, the forms for records and the screen that unlocks, and proves what
    makes them correct.

    ** The program and the files

    The key store keeps the secret key of a vault wrapped by the master password; the
    crypto manager derives from it the keys that encrypt records.  The vault service
    keeps encrypted records in a database with their tags, health, sync states and old
    passwords, and turns them into cloud records and back.  A handler of the executor
    takes a snapshot of the vault, hands it to the sync service, and stores what comes
    back; another rotates the key of the vault while the sync is paused; others fill a
    pending database from a backup or from the cloud and commit or remove it.  The loop
    of the executor takes commands, signals and ticks one at a time, refuses what a
    locked vault must refuse, and answers each command once.  A screen turns keys, clicks
    and these answers into its next state and the next commands.

    A sync cycle runs in the task actor.  The actor moves a state machine, asks the
    pipeline to run, and reports by events; the pipeline downloads the metadata of the
    vault, compares it with the local records, uploads, downloads and stores conflicts,
    and publishes new metadata after a check of its version.  All of it works on one store
    through the storage layer.  The files follow the modules of src/src:

    - [Prelude]: results with the [?] operator, state passing with errors, what a
      computation [keeps] and [preserves] and its triples, machine integers as [Z] with
      explicit wrap-around, record updates, shared tactics.
    - [Text]: UTF-8 as Rust's [str] sees it: validation with the text of the error,
      characters, bytes.
    - [Redaction]: security/redaction.rs, the replacement of secrets in messages.
    - [Errors]: errors/code.rs, context.rs, level.rs, service_error.rs and
      mapping/sync.rs; the [ServiceError] trait is a class.
    - [Env]: what the program calls and this repository does not contain, as classes:
      base64, sha2, hex, uuid and chrono ([Libs]), serde_json ([Serde]), clock,
      random generator and channel capacity ([System]), OpenDAL ([Operator]), each
      with the documented laws that proofs use.
    - [Types]: types/credential.rs, sync.rs, health.rs, record.rs.

    The sync engine:

    - [StateMachine]: sync/state_machine.rs.  The transition diagram is the relation
      [edge], the specification that [transition] refines.
    - [CloudRecord]: cloud/record.rs and cloud/validation.rs.
    - [CloudMetadata]: cloud/metadata.rs and cloud/schema.rs.
    - [Storage]: cloud/storage.rs, every operation over an [Operator].
    - [Conflict]: sync/conflict.rs and sync/nonce_validator.rs.
    - [Checkpoint]: sync/checkpoint.rs over a file system class.
    - [Retry]: sync/retry.rs, on binary64 numbers of the Standard Library's [SpecFloat].
    - [Lock]: sync/lock.rs.
    - [Pipeline] and [Push]: sync/pipeline.rs; the context and the stages that only
      read, then the push stage and the sequence of stages.
    - [SyncTask]: sync/task.rs, the handlers and the loop over a list of inputs.
    - [Watcher]: sync/watcher.rs, from file events to pulls, with the time.

    The vault:

    - [Crypto]: crypto/hkdf.rs, xchacha20.rs and argon2.rs over the crates
      ([CryptoLibs]), random bytes and locked memory ([Secure]).
    - [Keystore]: crypto/keystore.rs, crypto_manager.rs and the languages of bip39.rs;
      JSON documents; directories and permissions ([DirFs]).
    - [Payload]: types/record_limits.rs, crypto/payload.rs and the payload variants of
      types/credential.rs.
    - [Database]: the tables, db/models.rs and the shared queries; SQLite is the class
      [Sqlite], which runs a statement, a function of the tables, whole or not at all.
    - [Queries]: db/queries: the statements ([sql_...]) and the queries over them.
    - [Vault]: errors/mapping/vault.rs, services/vault/metadata.rs and
      record/migration.rs.
    - [Logic]: what the proofs about the vault share: which errors come from the
      environment, triples and frame facts of the queries.
    - [Records]: services/vault/record, history.rs and health_state.rs.
    - [Tags]: services/vault/tag and trash.rs.
    - [VaultSync]: the cloud side of record/crud.rs.
    - [VaultOps]: what the [Vault] trait writes, as one step of an operation.
    - [Integrity]: the invariant of the database, statement by statement and query by
      query.
    - [Lifecycle] and [CloudTrip]: the theorems about the life of a record on a device
      and its way to another device.
    - [Listing]: services/vault/record/list.rs, search.rs, audit.rs and their queries:
      filters, sorting, paging, counts and the audit log.
    - [Opening]: db/vault_db.rs, sqlcipher.rs, schema.rs and migrations/runner.rs over
      [Connections], and the guard of a pending database.
    - [Recovery]: types/recovery_words.rs and crypto/bip39.rs over the words of [Bip39].

    Files that come in and go out:

    - [Files]: paths and text over the file system.
    - [Formats] and [Foreign]: services/import_export: mapping, validation, duplicates,
      and the parsers of Bitwarden, KeePass, 1PUX and OPVault.
    - [Backup]: the encrypted backup and the CSV file.
    - [ImportService] and [ImportExec]: the sessions of the service and the handlers of
      executor/import_export.rs; [Transfer] has their theorems.

    The executor:

    - [Password]: crypto/password.rs and strength.rs over a random generator of bits
      ([Rng]); the tests on the binary64 entropy are the same tests on integers.
    - [Executor]: commands/result.rs, executor/runtime.rs and the trait of
      services/sync.rs as the class [SyncService].
    - [Generator]: config/password.rs, the dialog of tui/state/generator_state.rs and
      the generate handlers of executor/record.rs.
    - [Rotation]: types/rotation.rs, services/rotation.rs, executor/rotation.rs.
    - [ExecSync]: executor/sync.rs.
    - [Health]: services/health.rs over a leak database of the web, its errors, the
      report of commands/types.rs and config/security.rs.
    - [HealthExec]: executor/health.rs, the completion of a check in execute.rs, its
      schedule in executor/vault.rs and the health shown with a record.
    - [VaultExec]: executor/vault.rs: unlocking, locking, initialisation, recovery.
    - [RecordExec]: executor/record.rs and executor/clipboard.rs.
    - [Clipboard]: services/clipboard.rs, its backends and its timer.
    - [Config]: config/*.rs: the settings, their TOML and their validation; the syntax of
      TOML is the class [TomlLib].
    - [Providers] and [OAuth]: cloud/provider.rs, cloud/adapters, cloud/oauth2.
    - [ConfigExec]: executor/config.rs, config_impl/handler.rs and timer.rs.
    - [CloudRestore]: the pull of services/sync.rs and the restore of executor/sync.rs.
    - [SyncActor]: services/sync.rs: the requests, their answers and the time-outs; an
      instance of [SyncService].
    - [Dispatch]: commands/command.rs and executor/execute.rs.
    - [RunLoop]: executor/mod.rs and executor/builder.rs.

    The SSH agent:

    - [AgentKeys]: the encodings of agent/server.rs, agent/signer.rs, agent/identity.rs.
    - [Agent]: agent/server.rs, lock.rs, paths.rs and the commands of cli.rs.

    The screens, [tui] short for src/src/tui:

    - [ListPanel]: tui/state/list_state/state.rs, the layout of tui/terminal.rs and
      screens/main/layout.rs, and which records screens/main/list draws.
    - [Sidebar]: the sidebar of tui/state/main_state/state.rs, tui/state/tag_management.rs.
    - [DetailPanel]: tui/state/detail_state/state.rs.
    - [Overlays]: tui/screens/main/overlay: the dialogs, their keys and their manager.
    - [MainScreen]: tui/state/main_state/state.rs: the state and the results of commands,
      then its keys and its mouse, with screens/main/mod.rs and detail.rs; the queue of
      commands is the class [CommandQueue].
    - [MainSafety]: the theorems about all messages.
    - [FormState]: tui/state/form_state.rs, tui/components/textarea.rs and
      tui/screens/form/validation.rs; the text area, the calendar and the texts of
      messages are the classes [TextAreaLib], [Calendar] and [Messages].
    - [FormScreens]: tui/screens/create_record.rs and edit_record.rs with the rows and
      hints of screens/form; [RecordForm] has the handlers that both files repeat.
    - [FormSafety]: the theorems about the forms.
    - [UnlockScreen]: tui/screens/unlock.rs with the lockout, tui/state/notification.rs.

    The examples:

    - [Demo] and [DemoVault]: instances of every class, with proofs of the laws: a store,
      a disk, a database and a clock in memory, decidable codecs, a cipher that names its
      key, sample data.
    - [Witness], [WitnessVault], [WitnessImport] (with passwords and health),
      [WitnessCloud] (with the settings and the clipboard), [WitnessExec] (with the agent)
      and [WitnessUi]: the theorems with
      hypotheses at concrete runs.

    ** How code is modelled

    A struct is a record, an enum an inductive type with the source's variants, inside a
    module with the type's name.  A method is a definition with the method's name.  An
    [async fn] that touches the outside is a function of the world [W] that returns its
    result and the next world; every call to the store, the clock or the random
    generator is one step, in the source's order, so that a theorem about all worlds
    and all operators covers every failure of every request.  [HashMap] is [gmap], and
    where the code iterates over one the order is a parameter ([hash_order] of the class
    [Runtime]) that is only known to be a permutation; likewise the order in which the
    tasks of a batch download finish and which of them panic.  Logging is left out.
    Integers wrap as in a release build.  A panic that can happen is an explicit outcome:
    [None] of [delay_for_attempt], [tk_panicked] of a task.

    A string in locked memory ([SecureStr], a key) is its text; that locking can fail is
    modelled, erasing it is not.  A SQL statement is written out as a function of the
    tables with the constraints and cascades of the schema; what SQLite itself does, in
    which order a [SELECT] without [ORDER BY] returns rows included, is only known by the
    laws of [SqliteLaws].

    Loops over data are structural recursions.  [acquire_loop] takes fuel, since it waits
    for other devices; [acquire_terminates] shows how much is enough.  [F64.powi] takes
    32 rounds, one per bit of its 32-bit exponent, and the decoder of [Text] takes the
    length of its input.  The task of the sync and the loop of the executor run over the
    list of what they wake up for; a wait of the sync service runs over the turns that
    happen until its deadline, so that a theorem about all lists covers every schedule.

    ** What is proved

    - The keys: a vault unlocks with the password it was made with; changing the master
      password never loses the secret key, whatever fails; payloads decrypt to what was
      encrypted.
    - The vault: an invariant of the database that every operation preserves, failures
      half way included; a created record reads back; an update is all or nothing;
      the trash loses nothing; a destroyed record leaves no trace but in the audit log; a
      record keeps its content, tags and attributes on the way through the cloud, except
      for the time of its creation, which does not travel.
    - The rotation: no record is lost or made unreadable; an interrupted rotation leaves
      its checkpoint; a paused sync is resumed.  One theorem states that a rotation
      leaves every record under the old key, which is not what it means to do.
    - The passwords: a generated password has its length, its alphabet and its minimum
      counts for every behaviour of the random source; the dialog can always generate.
      Two theorems state that it overrates what it shows, and that a type the settings
      exclude is generated.
    - The health: duplicates are reported exactly, as groups; a stored report is read
      back, its groups merged; a verdict about an old password sticks, and a record
      whose check failed is stored as clean.
    - The executor's sync: a download that failed is marked as done, and a destroyed
      record comes back from the cloud; both are stated as theorems.
    - Backups and imports: a backup restores what it was made of; a restore from a backup
      or from the cloud is all or nothing, and what comes from the cloud is checked
      against its metadata; an import takes exactly the items no rule rejects.
    - Recovery and initialisation: recovery words and the password open the same keys; a
      failed initialisation leaves nothing behind.
    - Settings: what was saved is loaded again, without the tokens; what a change does to
      the services and the timers; an authorization is enough for a storage.
    - The clipboard: a copied secret is cleared when its time is over.
    - The agent: it offers and signs for the allowed records only, whatever a client
      sends, and removes its socket.
    - The sync service: a request is answered with the outcome of the work itself.  Lemmas
      show what happens otherwise: a late answer goes to the next request, and a failed
      resolution is a time-out.
    - The executor: a locked vault refuses all but eleven commands and changes nothing;
      every command is answered once; how the timer locks; how the loop ends.
    - The main screen: nothing is deleted that was not confirmed in a dialog for exactly
      that; secrets are masked unless they are marked as shown; the methods of the list
      keep the selection in sight, and a search is undone; the box for the name of a tag
      edits characters.  One lemma states which letters this box misses.
    - The forms: what is typed is what is saved, once; with the keyboard only records
      within the limits of the vault are saved.  The mouse can save what was not checked,
      a custom date that was corrected is lost, a note takes no tags, and editing clears
      the expiry and the favourite mark of a record; each is stated.
    - The unlock screen: from the fifth wrong password in a row on nothing is sent before
      the lockout is over, as long as the screen stays open.
    - The watcher: every change is followed by a pull, none within the interval.
    - The pipeline: a completed run has published every selected upload or reported it
      as failed; metadata advances only over uploads that read back; an unread newer
      version is never overwritten; downloads are checked and all accounted for; a
      published change is selected and accepted by another device that has not recorded
      this version of the metadata; detection partitions
      the records; runs without changes write nothing.
    - The storage: the push of the metadata compares versions first, and what another
      device writes between the check and the upload is replaced; atomic uploads on providers that
      rename, upload and download round trip, complete batch downloads.
    - The lock: exclusion until the expiry, termination of the acquisition, release of
      the own lock only.
    - The state machine and the task: refinement of the diagram, bounded failures, the
      states a task can rest in, the outcome of errors, shutdown, one report per cycle,
      conflict resolution that loses nothing.  Some of these theorems state behaviour
      that differs from the comments of the code: a task can be stuck after an error, a
      pull-only sync pushes, a pause does not stop a scheduled retry, and the command
      gate admits what the machine rejects.
    - The data: record and metadata validation against declarative specifications,
      round trips of health states, conflict payloads and checkpoints.
    - Retry delays and their bounds; redaction independent of the secret.

    ** What is not modelled

    The terminal interface but for the main screen, the forms and the unlock screen: the
    screens of the first start, of recovery, of changing the password, of the settings, of
    import and export, of the audit log, of conflicts and of the generator, the application
    loop and all drawing; process hardening and crash handling; what is specific to
    Windows; the adapters for S3 and SFTP, which no module includes.  Dropping a sync service, which aborts its task
    wherever it is, is not modelled, nor are tasks that run between two steps of a
    handler: the tasks of the executor run before or after it.  [cleanup_expired_trash]
    has no caller and is left out.
    The store has no conditional write.  The lock is modelled per device: two acquisitions
    that interleave their requests can both succeed, and the theorem of exclusion is about
    acquisitions that follow one another.  The runs of the pipeline are likewise those of
    one device at a time: only the push of the metadata has a theorem about what another
    device does between its two steps.

    The natural extensions, in order: the application loop with its stack of screens, and
    the screens of recovery and of the first start. *)

From stdpp Require Export base tactics list gmap strings fin_maps pretty.
From Stdlib Require Export ZArith Lia.

#[export] Set Default Goal Selector "!".

(** ** Results: Rust's [Result<A, E>] with the [?] operator. *)

Inductive result (A E : Type) : Type :=
| Ok (a : A)
| Err (e : E).
Arguments Ok {A E} _.
Arguments Err {A E} _.

Declare Scope rust_scope.
Delimit Scope rust_scope with rust.
Open Scope rust_scope.

Definition res_bind {A B E} (m : result A E) (k : A → result B E) : result B E :=
  match m with
  | Ok a => k a
  | Err e => Err e
  end.

Definition res_map {A B E} (f : A → B) (m : result A E) : result B E :=
  res_bind m (λ a, Ok (f a)).

Definition map_err {A E F} (f : E → F) (m : result A E) : result A F :=
  match m with
  | Ok a => Ok a
  | Err e => Err (f e)
  end.

Definition is_ok {A E} (m : result A E) : bool :=
  match m with Ok _ => true | Err _ => false end.

Definition ok {A E} (m : result A E) : option A :=
  match m with Ok a => Some a | Err _ => None end.

Definition ok_or {A E} (e : E) (o : option A) : result A E :=
  match o with Some a => Ok a | None => Err e end.

Notation "'let?' x := m 'in' k" := (res_bind m (λ x, k))
  (at level 10, x pattern, m at level 100, k at level 200) : rust_scope.
Notation "'guard!' b 'else' e ; k" := (if b : bool then k else Err e)
  (at level 10, b at level 100, e at level 100, k at level 200) : rust_scope.

(** ** Effects: a computation in the environment [W].

    Code that reads the clock, the random generator or a remote store is a
    function of the environment it runs in; [io W A] threads that environment
    explicitly, and [ior] adds the error channel of [Result]. *)

Definition io (W A : Type) : Type := W → A * W.
Definition ior (W A E : Type) : Type := io W (result A E).

Definition io_ret {W A} (a : A) : io W A := λ w, (a, w).
Definition io_bind {W A B} (m : io W A) (k : A → io W B) : io W B :=
  λ w, let '(a, w') := m w in k a w'.
Definition ior_bind {W A B E} (m : ior W A E) (k : A → ior W B E) : ior W B E :=
  io_bind m (λ r, match r with Ok a => k a | Err e => io_ret (Err e) end).
Definition io_map_err {W A E F} (f : E → F) (m : ior W A E) : ior W A F :=
  io_bind m (λ r, io_ret (map_err f r)).
Definition lift {W A E} (r : result A E) : ior W A E := io_ret r.

Notation "'let*' x := m 'in' k" := (io_bind m (λ x, k))
  (at level 10, x pattern, m at level 100, k at level 200) : rust_scope.
Notation "'let!' x := m 'in' k" := (ior_bind m (λ x, k))
  (at level 10, x pattern, m at level 100, k at level 200) : rust_scope.

(** ** Machine integers: [u32] and [u64] are [Z] with their wrap-around. *)

Definition u32_max : Z := 2 ^ 32 - 1.
Definition u64_max : Z := 2 ^ 64 - 1.
Definition wrap32 (z : Z) : Z := z mod 2 ^ 32.
Definition wrap64 (z : Z) : Z := z mod 2 ^ 64.
Definition is_u32 (z : Z) : Prop := (0 ≤ z < 2 ^ 32)%Z.
Definition is_u64 (z : Z) : Prop := (0 ≤ z < 2 ^ 64)%Z.


Lemma wrap32_small z : is_u32 z → wrap32 z = z.
Proof. intros H. apply Z.mod_small, H. Qed.

Lemma wrap64_small z : is_u64 z → wrap64 z = z.
Proof. intros H. apply Z.mod_small, H. Qed.

Lemma wrap32_range z : is_u32 (wrap32 z).
Proof. apply Z.mod_pos_bound. reflexivity. Qed.

Lemma wrap64_range z : is_u64 (wrap64 z).
Proof. apply Z.mod_pos_bound. reflexivity. Qed.

(** ** Functional record update: [r <| f := v |>].

    A record type declares its eta expansion once as an instance of [Eta]; the
    setter of each field is computed from it when it is needed. *)

Class Eta (R : Type) : Type := eta : R → R.
#[global] Hint Mode Eta ! : typeclass_instances.
Class Setter {R T} (f : R → T) : Type := update : (T → T) → R → R.

Ltac derive_setter f :=
  match goal with
  | |- Setter (R := ?R) (T := ?T) _ =>
      let inst := constr:(_ : Eta R) in
      let body := eval hnf in inst in
      let abs := eval pattern f in body in
      match abs with
      | ?F _ => exact (λ (g : T → T) (r : R), F (λ r', g (f r')) r)
      end
  end.

#[export] Hint Extern 1 (Setter ?f) => derive_setter f : typeclass_instances.

Notation "r <| f := v |>" := (update (f := f) (λ _, v) r)
  (at level 1, left associativity, f at level 0, v at level 200) : rust_scope.
Notation "r <| f ::= g |>" := (update (f := f) g r)
  (at level 1, left associativity, f at level 0, g at level 200) : rust_scope.

(** ** Hint databases of the development *)

(** [sync] closes the state-machine and task goals, [io] the monad unfoldings. *)
Create HintDb sync.

(** ** Tactics *)

(** Case analysis on the innermost boolean test of the goal or a hypothesis, each
    test turned into the proposition it decides. *)
Ltac case_test_on b :=
  lazymatch b with
  | bool_decide ?P => destruct (bool_decide_reflect P)
  | (?x <? ?y)%Z => destruct (Z.ltb_spec x y)
  | (?x <=? ?y)%Z => destruct (Z.leb_spec x y)
  | (?x =? ?y)%Z => destruct (Z.eqb_spec x y)
  | (?x <? ?y)%nat => destruct (Nat.ltb_spec x y)
  | (?x <=? ?y)%nat => destruct (Nat.leb_spec x y)
  | (?x =? ?y)%nat => destruct (Nat.eqb_spec x y)
  | negb ?c => case_test_on c
  | (?c && _)%bool => case_test_on c
  | (?c || _)%bool => case_test_on c
  | _ => destruct b eqn:?
  end.

Ltac case_test :=
  match goal with
  | |- context [if ?b then _ else _] =>
      lazymatch type of b with bool => case_test_on b end
  | H : context [if ?b then _ else _] |- _ =>
      lazymatch type of b with bool => case_test_on b end
  end; cbn [negb andb orb] in *.

(** ** Result lemmas *)

Lemma res_bind_ok {A B E} (m : result A E) (k : A → result B E) b :
  res_bind m k = Ok b ↔ ∃ a, m = Ok a ∧ k a = Ok b.
Proof. destruct m; cbn; naive_solver. Qed.

Lemma map_err_ok {A E F} (f : E → F) (m : result A E) a :
  map_err f m = Ok a ↔ m = Ok a.
Proof. destruct m; cbn; naive_solver. Qed.

Lemma is_ok_iff {A E} (m : result A E) : is_ok m = true ↔ ∃ a, m = Ok a.
Proof. destruct m; cbn; naive_solver. Qed.

Lemma map_err_err {A E F} (f : E → F) (m : result A E) x :
  map_err f m = Err x ↔ ∃ e, m = Err e ∧ x = f e.
Proof. destruct m; cbn; naive_solver. Qed.

Lemma res_bind_err {A B E} (m : result A E) (k : A → result B E) e :
  res_bind m k = Err e ↔ m = Err e ∨ ∃ a, m = Ok a ∧ k a = Err e.
Proof. destruct m; cbn; naive_solver. Qed.

(** Inverts a successful chain of [let?] in a hypothesis. *)
Ltac inv_ok H :=
  repeat first
    [ apply res_bind_ok in H as (? & ? & H)
    | apply map_err_ok in H ].

(** Adds a fact unless it is known already. *)
Ltac learn H :=
  let T := type of H in
  lazymatch goal with
  | _ : T |- _ => fail
  | _ => pose proof H
  end.

(** Identifies the two results of one computation. *)
Ltac merge_eqs :=
  repeat match goal with
  | E : ?t = Ok _, F : ?t = _ |- _ => rewrite E in F; simplify_eq
  | E : ?t = Some _, F : ?t = _ |- _ => rewrite E in F; simplify_eq
  end.

(** The propositions behind the boolean equations among the hypotheses. *)
Ltac reflect_bools :=
  repeat match goal with
  | H : bool_decide _ = true |- _ => apply bool_decide_eq_true in H
  | H : bool_decide _ = false |- _ => apply bool_decide_eq_false in H
  | H : (_ <=? _)%Z = true |- _ => apply Z.leb_le in H
  | H : (_ <=? _)%Z = false |- _ => apply Z.leb_gt in H
  | H : (_ <? _)%Z = true |- _ => apply Z.ltb_lt in H
  | H : (_ <? _)%Z = false |- _ => apply Z.ltb_ge in H
  | H : (_ =? _)%Z = true |- _ => apply Z.eqb_eq in H
  | H : (_ =? _)%Z = false |- _ => apply Z.eqb_neq in H
  | H : negb _ = true |- _ => apply negb_true_iff in H
  | H : negb _ = false |- _ => apply negb_false_iff in H
  | H : (_ && _)%bool = true |- _ => apply andb_true_iff in H as [? ?]
  | H : (_ || _)%bool = false |- _ => apply orb_false_iff in H as [? ?]
  end.

(** Runs the effectful code of the goal or a hypothesis: unfolds the monads and
    splits every call and every [Result] on the way, recording the equations. *)
Ltac simplify_res :=
  cbn [res_bind map_err res_map] in *; simplify_eq;
  repeat match goal with
  | H : map_err _ _ = Ok _ |- _ => apply map_err_ok in H
  | H : map_err _ _ = Err _ |- _ => apply map_err_err in H as (? & H & ?)
  | H : res_bind _ _ = Ok _ |- _ => apply res_bind_ok in H as (? & ? & H)
  | u : () |- _ => destruct u
  end; simplify_eq.

Ltac split_mapped :=
  match goal with
  | |- context [map_err _ ?r] => is_var r; destruct r; cbn [map_err]
  | _ : context [map_err _ ?r] |- _ => is_var r; destruct r; cbn [map_err] in *
  end.

Ltac run_io :=
  unfold ior_bind, io_map_err, lift, io_bind, io_ret in *;
  repeat (simplify_res; first [case_match | split_mapped]); simplify_res.

(** ** Runs of effectful code

    A successful run of [let!] is a run of the step and a run of the rest. *)

Lemma ior_bind_ok {W A B E} (m : ior W A E) (k : A → ior W B E) b w w' :
  ior_bind m k w = (Ok b, w') ↔ ∃ a w1, m w = (Ok a, w1) ∧ k a w1 = (Ok b, w').
Proof.
  unfold ior_bind, io_bind, io_ret. destruct (m w) as [[a|e] w1]; naive_solver.
Qed.

Lemma io_bind_eq {W A B} (m : io W A) (k : A → io W B) b w w' :
  io_bind m k w = (b, w') ↔ ∃ a w1, m w = (a, w1) ∧ k a w1 = (b, w').
Proof. unfold io_bind. destruct (m w) as [a w1]; naive_solver. Qed.

Lemma ior_bind_step {W A B E} (m : ior W A E) (k : A → ior W B E) w :
  ior_bind m k w =
    match m w with (Ok a, w1) => k a w1 | (Err e, w1) => (Err e, w1) end.
Proof. unfold ior_bind, io_bind, io_ret. by destruct (m w) as [[a|e] w1]. Qed.

(** Running a computation whose first step is known. *)
Lemma io_bind_run {W A B} (m : io W A) (k : A → io W B) a w w1 :
  m w = (a, w1) → io_bind m k w = k a w1.
Proof. intros E. unfold io_bind. by rewrite E. Qed.

Lemma ior_bind_run {W A B E} (m : ior W A E) (k : A → ior W B E) a w w1 :
  m w = (Ok a, w1) → ior_bind m k w = k a w1.
Proof. intros Em. unfold ior_bind. by rewrite (io_bind_run _ _ _ _ _ Em). Qed.

Lemma ior_bind_fail {W A B E} (m : ior W A E) (k : A → ior W B E) e w w1 :
  m w = (Err e, w1) → ior_bind m k w = (Err e, w1).
Proof. intros Em. unfold ior_bind. by rewrite (io_bind_run _ _ _ _ _ Em). Qed.

Lemma lift_ok {W A E} (r : result A E) a (w w' : W) :
  lift r w = (Ok a, w') ↔ r = Ok a ∧ w' = w.
Proof. unfold lift, io_ret. naive_solver. Qed.

Lemma io_map_err_ok {W A E F} (f : E → F) (m : ior W A E) a w w' :
  io_map_err f m w = (Ok a, w') ↔ m w = (Ok a, w').
Proof.
  unfold io_map_err, io_bind, io_ret. destruct (m w) as [[x|e] w1]; cbn; naive_solver.
Qed.

(** A property of the world that each step preserves is preserved by the sequence. *)
Lemma ior_bind_preserves {W A B E} (R : W → W → Prop) `{!PreOrder R} (m : ior W A E)
    (k : A → ior W B E) w r w' :
  ior_bind m k w = (r, w') →
  (∀ x w1, m w = (x, w1) → R w w1) → (∀ a w1, m w = (Ok a, w1) → k a w1 = (r, w') → R w1 w') →
  R w w'.
Proof.
  unfold ior_bind, io_bind, io_ret. destruct (m w) as [[a|e] w1]; intros Hk Hm Hr.
  - etrans; [by eapply Hm|by eapply Hr].
  - simplify_eq. by eapply Hm.
Qed.

(** ** Code that leaves something alone

    [keeps obs m]: whatever its outcome, [m] does not change what [obs] observes. *)

Definition keeps {W B A} (obs : W → B) (m : io W A) : Prop :=
  ∀ w r w', m w = (r, w') → obs w' = obs w.

Section keeps.
Context {W B : Type} (obs : W → B).

Lemma keeps_bind {A C} (m : io W A) (k : A → io W C) :
  keeps obs m → (∀ a, keeps obs (k a)) → keeps obs (io_bind m k).
Proof.
  intros Hm Hk w r w' (a & w1 & E1 & E2)%io_bind_eq.
  rewrite (Hk _ _ _ _ E2). by eapply Hm.
Qed.

Lemma keeps_ret {A} (a : A) : keeps obs (io_ret a).
Proof. by intros ??? [= <- <-]. Qed.

Lemma keeps_lift {A E} (r : result A E) : keeps obs (lift r).
Proof. apply keeps_ret. Qed.

Lemma keeps_ior_bind {A C E} (m : ior W A E) (k : A → ior W C E) :
  keeps obs m → (∀ a, keeps obs (k a)) → keeps obs (ior_bind m k).
Proof. intros Hm Hk. apply keeps_bind; [done|]. intros [a|e]; [done|apply keeps_ret]. Qed.

Lemma keeps_map_err {A E F} (f : E → F) (m : ior W A E) :
  keeps obs m → keeps obs (io_map_err f m).
Proof. intros Hm. apply keeps_bind; [done|]. intros a. apply keeps_ret. Qed.

End keeps.

Create HintDb keeps.

(** Follows the structure of the code; the calls it reaches are in the hint database. *)
Ltac solve_keeps :=
  repeat match goal with
  | |- ∀ x, _ => intros ?
  | |- keeps _ (ior_bind _ _) => apply keeps_ior_bind
  | |- keeps _ (io_bind _ _) => apply keeps_bind
  | |- keeps _ (io_map_err _ _) => apply keeps_map_err
  | |- keeps _ (lift _) => apply keeps_lift
  | |- keeps _ (io_ret _) => apply keeps_ret
  | |- keeps _ (let (_, _) := ?x in _) => destruct x
  | |- keeps _ (if ?b then _ else _) => destruct b
  | |- keeps _ (match ?x with _ => _ end) => destruct x
  | |- keeps _ _ => solve [auto with keeps]
  end.

(** ** Code that preserves a property of the world, whatever its outcome *)

Definition preserves {W A} (P : W → Prop) (m : io W A) : Prop :=
  ∀ w r w', m w = (r, w') → P w → P w'.

Section preserves.
Context {W : Type} (P : W → Prop).

Lemma preserves_bind {A C} (m : io W A) (k : A → io W C) :
  preserves P m → (∀ a, preserves P (k a)) → preserves P (io_bind m k).
Proof. intros Hm Hk w r w' (a & w1 & E1 & E2)%io_bind_eq Hw. eapply Hk; eauto. Qed.

Lemma preserves_ret {A} (a : A) : preserves P (io_ret a).
Proof. by intros ??? [= <- <-]. Qed.

Lemma preserves_lift {A E} (r : result A E) : preserves P (lift r).
Proof. apply preserves_ret. Qed.

Lemma preserves_ior_bind {A C E} (m : ior W A E) (k : A → ior W C E) :
  preserves P m → (∀ a, preserves P (k a)) → preserves P (ior_bind m k).
Proof.
  intros Hm Hk. apply preserves_bind; [done|]. intros [a|e]; [done|apply preserves_ret].
Qed.

Lemma preserves_map_err {A E F} (f : E → F) (m : ior W A E) :
  preserves P m → preserves P (io_map_err f m).
Proof. intros Hm. apply preserves_bind; [done|]. intros a. apply preserves_ret. Qed.

(** What an observation determines is preserved by code that keeps the observation. *)
Lemma keeps_preserves {B A} (obs : W → B) (m : io W A) :
  (∀ w w', obs w' = obs w → P w → P w') → keeps obs m → preserves P m.
Proof. intros HP Hm w r w' Hr Hw. eauto. Qed.

End preserves.

Create HintDb preserves.

(** As [solve_keeps]; it leaves the calls that the hint database does not know. *)
Ltac step_preserves :=
  match goal with
  | |- ∀ x, _ => intros ?
  | |- preserves _ (ior_bind _ _) => apply preserves_ior_bind
  | |- preserves _ (io_bind _ _) => apply preserves_bind
  | |- preserves _ (io_map_err _ _) => apply preserves_map_err
  | |- preserves _ (lift _) => apply preserves_lift
  | |- preserves _ (io_ret _) => apply preserves_ret
  | |- preserves _ (let (_, _) := ?x in _) => destruct x
  | |- preserves _ (if ?b then _ else _) => destruct b
  | |- preserves _ (match ?x with _ => _ end) => destruct x
  | |- preserves _ _ => solve [auto with preserves]
  end.
Ltac solve_preserves := repeat step_preserves.

(** ** Triples

    [triple P m Q F]: from a world with [P], [m] either succeeds with a result and a world
    in [Q] or fails with an error in [F]. *)

Definition triple {W A E} (P : W → Prop) (m : ior W A E) (Q : A → W → Prop) (F : E → Prop)
  : Prop :=
  ∀ w r w', P w → m w = (r, w') → match r with Ok a => Q a w' | Err e => F e end.

Section triple.
Context {W E : Type}.
Implicit Types (P : W → Prop) (F : E → Prop).

Lemma triple_bind {A B} P (m : ior W A E) (k : A → ior W B E) Q R F :
  triple P m Q F → (∀ a, triple (Q a) (k a) R F) → triple P (ior_bind m k) R F.
Proof.
  intros Hm Hk w r w' HP. rewrite ior_bind_step. destruct (m w) as [[a|e] w1] eqn:Em.
  - intros Hr. eapply Hk; [|done]. by apply (Hm _ _ _ HP Em).
  - intros [= <- <-]. by apply (Hm _ _ _ HP Em).
Qed.

Lemma triple_io_bind {A B} P (m : io W A) (k : A → ior W B E) (Q : A → W → Prop) R F :
  (∀ w a w', P w → m w = (a, w') → Q a w') → (∀ a, triple (Q a) (k a) R F) →
  triple P (io_bind m k) R F.
Proof. intros Hm Hk w r w' HP (a & w1 & Ea & Er)%io_bind_eq. eapply Hk; eauto. Qed.

Lemma triple_ok {A} P (a : A) (Q : A → W → Prop) F :
  (∀ w, P w → Q a w) → triple P (lift (Ok a)) Q F.
Proof. intros HQ w r w' HP [= <- <-]. eauto. Qed.

Lemma triple_err {A} P (e : E) (Q : A → W → Prop) F : F e → triple P (lift (Err e)) Q F.
Proof. by intros HF w r w' _ [= <- <-]. Qed.

Lemma triple_conseq {A} P P' (m : ior W A E) (Q Q' : A → W → Prop) F F' :
  triple P' m Q' F' → (∀ w, P w → P' w) → (∀ a w, Q' a w → Q a w) → (∀ e, F' e → F e) →
  triple P m Q F.
Proof. intros Hm HP HQ HF w r w' Hw Hr. specialize (Hm _ _ _ (HP _ Hw) Hr). destruct r; auto. Qed.

(** Facts that do not depend on the world move between the precondition and the context. *)
Lemma triple_pure {A} (p : Prop) P (m : ior W A E) Q F :
  (p → triple P m Q F) → triple (λ w, p ∧ P w) m Q F.
Proof. intros Hm w r w' [Hp HP] Hr. by apply (Hm Hp w). Qed.

Lemma triple_exists {A X} (P : X → W → Prop) (m : ior W A E) Q F :
  (∀ x, triple (P x) m Q F) → triple (λ w, ∃ x, P x w) m Q F.
Proof. intros Hm w r w' [x HP] Hr. by apply (Hm x w). Qed.

(** [fails m F]: the errors of [m] are in [F]. *)
Definition fails {A} (m : ior W A E) (F : E → Prop) : Prop :=
  triple (λ _, True) m (λ _ _, True) F.

(** A step that keeps an observation keeps every condition on it. *)
Lemma triple_keeps {A B} (obs : W → B) (m : ior W A E) (R : B → Prop) F :
  keeps obs m → fails m F → triple (λ w, R (obs w)) m (λ _ w, R (obs w)) F.
Proof.
  intros Hk Hf w r w' HR Hr. specialize (Hf _ _ _ I Hr). destruct r; [|done].
  by rewrite (Hk _ _ _ Hr).
Qed.

Lemma triple_run {A} P (m : ior W A E) Q F w a w' :
  triple P m Q F → P w → m w = (Ok a, w') → Q a w'.
Proof. intros Hm HP Hr. exact (Hm _ _ _ HP Hr). Qed.

End triple.

Lemma triple_map_err {W A E E'} P (f : E → E') (m : ior W A E) (Q : A → W → Prop)
    (F : E' → Prop) :
  triple P m Q (λ e, F (f e)) → triple P (io_map_err f m) Q F.
Proof.
  intros Hm w r w' HP (x & w1 & Ex & [= <- <-])%io_bind_eq. specialize (Hm _ _ _ HP Ex).
  by destruct x.
Qed.

(** Takes the successful runs among the hypotheses apart, naming nothing. *)
Ltac inv_runs :=
  repeat match goal with
  | H : ior_bind _ _ _ = (Ok _, _) |- _ => apply ior_bind_ok in H as (? & ? & ? & H)
  | H : io_bind _ _ _ = (_, _) |- _ => apply io_bind_eq in H as (? & ? & ? & H)
  | H : io_map_err _ _ _ = (Ok _, _) |- _ => apply io_map_err_ok in H
  | H : lift _ _ = (Ok _, _) |- _ => apply lift_ok in H as [? ->]
  | H : io_ret _ _ = (_, _) |- _ => unfold io_ret in H
  | H : (let (_, _) := ?x in _) _ = _ |- _ => is_var x; destruct x
  end; simplify_eq.

(** ** Option and list lemmas *)

Lemma ex_some {A} (x : A) (P : A → Prop) : (∃ y, Some x = Some y ∧ P y) ↔ P x.
Proof. naive_solver. Qed.

Lemma all_some {A} (x : A) (P : A → Prop) : (∀ y, Some x = Some y → P y) ↔ P x.
Proof. naive_solver. Qed.

(** Elements with distinct keys are determined by their key. *)
Lemma NoDup_fmap_unique {A B} (f : A → B) l x y :
  NoDup (f <$> l) → x ∈ l → y ∈ l → f x = f y → x = y.
Proof.
  induction l as [|z l IH]; [by intros _ ?%elem_of_nil|].
  rewrite fmap_cons, NoDup_cons. intros [Hz Hl] Hx Hy Hxy.
  apply elem_of_cons in Hx as [->|Hx], Hy as [->|Hy]; auto; destruct Hz.
  - rewrite Hxy. by apply list_elem_of_fmap_2.
  - rewrite <- Hxy. by apply list_elem_of_fmap_2.
Qed.

Lemma filter_Forall {A} (P : A → Prop) `{!∀ x, Decision (P x)} l :
  Forall P l → filter P l = l.
Proof. induction 1; [done|]. rewrite filter_cons_True by done. by f_equal. Qed.

Lemma NoDup_fmap_filter {A B} (f : A → B) (P : A → Prop) `{!∀ x, Decision (P x)} l :
  NoDup (f <$> l) → NoDup (f <$> filter P l).
Proof. intros Hl. eapply sublist_NoDup; [done|]. apply fmap_sublist, sublist_filter. Qed.
