(* ===== verification/Text.v ===== *)
(** * Rust strings

    A [String] is the byte string of its UTF-8 encoding.  This file gives the parts
    of the standard library's string API that the components use: validation
    ([String::from_utf8]), decoding into characters, and searching. *)

From Stdlib Require Import Ascii.
From S2P Require Import Prelude.

Definition byte_of (c : ascii) : Z := Z.of_N (N_of_ascii c).
Definition ascii_of_byte (z : Z) : ascii := ascii_of_N (Z.to_N z).

(** [lo <= z <= hi] *)
Definition within (lo hi z : Z) : bool := ((lo <=? z) && (z <=? hi))%Z.

(** ** Decoding one character

    The outcome of reading at the front of a byte string: the end, a scalar value
    with the rest, or an invalid sequence with [Utf8Error::error_len]. *)
Inductive utf8_next : Set :=
| Utf8End
| Utf8Char (cp : Z) (rest : string)
| Utf8Bad (error_len : option nat).

(** The admissible second bytes after the lead of a three- or four-byte sequence. *)
Definition second_range (b : Z) : Z * Z :=
  if Z.eqb b 224 then (160, 191)%Z
  else if Z.eqb b 237 then (128, 159)%Z
  else if Z.eqb b 240 then (144, 191)%Z
  else if Z.eqb b 244 then (128, 143)%Z
  else (128, 191)%Z.

Definition continuation (b : Z) : bool := within 128 191 b.

Definition next2 (b : Z) (s : string) : utf8_next :=
  match s with
  | String c1 rest =>
      if continuation (byte_of c1)
      then Utf8Char ((b - 192) * 64 + (byte_of c1 - 128)) rest
      else Utf8Bad (Some 1)
  | EmptyString => Utf8Bad None
  end.

Definition next3 (b : Z) (s : string) : utf8_next :=
  match s with
  | String c1 s1 =>
      if within (second_range b).1 (second_range b).2 (byte_of c1) then
        match s1 with
        | String c2 rest =>
            if continuation (byte_of c2)
            then Utf8Char ((b - 224) * 4096 + (byte_of c1 - 128) * 64 + (byte_of c2 - 128)) rest
            else Utf8Bad (Some 2)
        | EmptyString => Utf8Bad None
        end
      else Utf8Bad (Some 1)
  | EmptyString => Utf8Bad None
  end.

Definition next4 (b : Z) (s : string) : utf8_next :=
  match s with
  | String c1 s1 =>
      if within (second_range b).1 (second_range b).2 (byte_of c1) then
        match s1 with
        | String c2 s2 =>
            if continuation (byte_of c2) then
              match s2 with
              | String c3 rest =>
                  if continuation (byte_of c3)
                  then Utf8Char ((b - 240) * 262144 + (byte_of c1 - 128) * 4096
                         + (byte_of c2 - 128) * 64 + (byte_of c3 - 128)) rest
                  else Utf8Bad (Some 3)
              | EmptyString => Utf8Bad None
              end
            else Utf8Bad (Some 2)
        | EmptyString => Utf8Bad None
        end
      else Utf8Bad (Some 1)
  | EmptyString => Utf8Bad None
  end.

Definition next_char (s : string) : utf8_next :=
  match s with
  | EmptyString => Utf8End
  | String c rest =>
      let b := byte_of c in
      if (b <? 128)%Z then Utf8Char b rest
      else if within 194 223 b then next2 b rest
      else if within 224 239 b then next3 b rest
      else if within 240 244 b then next4 b rest
      else Utf8Bad (Some 1)
  end.

(** ** Validation: [String::from_utf8] *)

Fixpoint utf8_check (fuel index : nat) (s : string) : option (nat * option nat) :=
  match fuel with
  | O => None
  | S fuel =>
      match next_char s with
      | Utf8End => None
      | Utf8Char _ rest =>
          utf8_check fuel (index + (String.length s - String.length rest)) rest
      | Utf8Bad e => Some (index, e)
      end
  end.

(** The [Display] of [Utf8Error]. *)
Definition utf8_error_text (index : nat) (error_len : option nat) : string :=
  match error_len with
  | Some n => "invalid utf-8 sequence of " +:+ pretty n +:+ " bytes from index " +:+ pretty index
  | None => "incomplete utf-8 byte sequence from index " +:+ pretty index
  end.

(** Each character consumes a byte, so the length of the string is enough fuel. *)
Definition from_utf8 (s : string) : result string string :=
  match utf8_check (S (String.length s)) 0 s with
  | None => Ok s
  | Some (index, e) => Err (utf8_error_text index e)
  end.

(** ** Characters: [str::chars] *)

Fixpoint chars_fuel (fuel : nat) (s : string) : list Z :=
  match fuel with
  | O => []
  | S fuel =>
      match next_char s with
      | Utf8Char cp rest => cp :: chars_fuel fuel rest
      | _ => []
      end
  end.

Definition chars (s : string) : list Z := chars_fuel (S (String.length s)) s.

(** [char::encode_utf8] *)
Definition encode_char (cp : Z) : string :=
  let b z := ascii_of_byte z in
  if (cp <? 128)%Z then String (b cp) EmptyString
  else if (cp <? 2048)%Z then
    String (b (192 + cp / 64)%Z) (String (b (128 + cp mod 64)%Z) EmptyString)
  else if (cp <? 65536)%Z then
    String (b (224 + cp / 4096)%Z)
      (String (b (128 + cp / 64 mod 64)%Z) (String (b (128 + cp mod 64)%Z) EmptyString))
  else
    String (b (240 + cp / 262144)%Z)
      (String (b (128 + cp / 4096 mod 64)%Z)
        (String (b (128 + cp / 64 mod 64)%Z) (String (b (128 + cp mod 64)%Z) EmptyString))).

(** [String::from_iter] over characters. *)
Fixpoint of_chars (l : list Z) : string :=
  match l with
  | [] => EmptyString
  | c :: l => encode_char c +:+ of_chars l
  end.

(** A [char]: a Unicode scalar value. *)
Definition is_char (cp : Z) : Prop :=
  (0 ≤ cp < 55296)%Z ∨ (57344 ≤ cp < 1114112)%Z.

(** ** Properties *)

Lemma byte_of_ascii_of_byte z : (0 ≤ z < 256)%Z → byte_of (ascii_of_byte z) = z.
Proof.
  intros Hz. unfold byte_of, ascii_of_byte. rewrite N_ascii_embedding by lia. lia.
Qed.

Lemma within_true lo hi z : (lo ≤ z ≤ hi)%Z → within lo hi z = true.
Proof. intros [??]. unfold within. rewrite !(proj2 (Z.leb_le _ _)) by done. done. Qed.

Lemma within_false lo hi z : (z < lo ∨ hi < z)%Z → within lo hi z = false.
Proof.
  intros H. unfold within. destruct H.
  - by rewrite (proj2 (Z.leb_gt _ _)) by done.
  - rewrite (proj2 (Z.leb_gt z hi)) by done. by rewrite andb_false_r.
Qed.

Lemma within_spec lo hi z : within lo hi z = true ↔ (lo ≤ z ≤ hi)%Z.
Proof.
  split; [|apply within_true]. unfold within. intros [?%Z.leb_le ?%Z.leb_le]%andb_true_iff. lia.
Qed.

#[local] Ltac Zify.zify_post_hook ::= Z.to_euclidean_division_equations.

(** Decides the byte tests of the decoder from linear facts. *)
Ltac byte_tests :=
  repeat first
    [ rewrite byte_of_ascii_of_byte by lia
    | rewrite within_true by (cbn; lia)
    | rewrite within_false by (cbn; lia)
    | rewrite (proj2 (Z.ltb_lt _ _)) by lia
    | rewrite (proj2 (Z.ltb_ge _ _)) by lia ].

Lemma second_range_ok b lo hi c1 :
  second_range b = (lo, hi) → (lo ≤ c1 ≤ hi)%Z → within (second_range b).1 (second_range b).2 c1 = true.
Proof. intros -> ?. by apply within_true. Qed.

Lemma second_range_3 cp :
  (2048 ≤ cp < 65536)%Z → is_char cp →
  within (second_range (224 + cp / 4096)).1 (second_range (224 + cp / 4096)).2
    (128 + cp / 64 mod 64) = true.
Proof.
  intros Hr Hc. unfold second_range, is_char in *.
  destruct (Z.eqb_spec (224 + cp / 4096) 224); [apply within_true; cbn; lia|].
  destruct (Z.eqb_spec (224 + cp / 4096) 237); [apply within_true; cbn; lia|].
  destruct (Z.eqb_spec (224 + cp / 4096) 240); [lia|].
  destruct (Z.eqb_spec (224 + cp / 4096) 244); [lia|].
  apply within_true; cbn; lia.
Qed.

Lemma second_range_4 cp :
  (65536 ≤ cp < 1114112)%Z →
  within (second_range (240 + cp / 262144)).1 (second_range (240 + cp / 262144)).2
    (128 + cp / 4096 mod 64) = true.
Proof.
  intros Hr. unfold second_range.
  destruct (Z.eqb_spec (240 + cp / 262144) 224); [lia|].
  destruct (Z.eqb_spec (240 + cp / 262144) 237); [lia|].
  destruct (Z.eqb_spec (240 + cp / 262144) 240); [apply within_true; cbn; lia|].
  destruct (Z.eqb_spec (240 + cp / 262144) 244); [apply within_true; cbn; lia|].
  apply within_true; cbn; lia.
Qed.

Lemma string_app_cons c s t : String c s +:+ t = String c (s +:+ t).
Proof. reflexivity. Qed.

Lemma string_app_nil s : EmptyString +:+ s = s.
Proof. reflexivity. Qed.

(** Decoding inverts encoding, whatever follows. *)
Lemma next_char_encode cp s : is_char cp → next_char (encode_char cp +:+ s) = Utf8Char cp s.
Proof.
  intros Hc. pose proof Hc as Hc'. unfold is_char in Hc'. unfold encode_char.
  destruct (Z.ltb_spec cp 128); [|destruct (Z.ltb_spec cp 2048); [|destruct (Z.ltb_spec cp 65536)]];
    rewrite ?string_app_cons, string_app_nil; unfold next_char.
  - byte_tests. done.
  - unfold next2, continuation. byte_tests. f_equal. lia.
  - unfold next3, continuation. byte_tests. rewrite second_range_3 by (done || lia).
    byte_tests. f_equal. lia.
  - unfold next4, continuation. byte_tests. rewrite second_range_4 by lia.
    byte_tests. f_equal. lia.
Qed.

Lemma encode_char_length cp : (1 ≤ String.length (encode_char cp))%nat.
Proof. unfold encode_char. repeat case_match; cbn; lia. Qed.

Lemma string_length_append (s t : string) :
  String.length (s +:+ t) = (String.length s + String.length t)%nat.
Proof.
  induction s as [|c s IH]; [done|]. rewrite string_app_cons. cbn. by rewrite IH.
Qed.

Lemma chars_fuel_of_chars n l :
  Forall is_char l → (length l < n)%nat → chars_fuel n (of_chars l) = l.
Proof.
  revert n. induction l as [|c l IH]; intros [|n] Hl Hn; cbn in *; try lia; [done|].
  inversion Hl; subst. rewrite next_char_encode by done. f_equal. apply IH; [done|lia].
Qed.

Lemma utf8_check_of_chars n i l : Forall is_char l → utf8_check n i (of_chars l) = None.
Proof.
  revert n i. induction l as [|c l IH]; intros [|n] i Hl; cbn; try done.
  inversion Hl; subst. rewrite next_char_encode by done. by apply IH.
Qed.

Lemma of_chars_length l : (length l ≤ String.length (of_chars l))%nat.
Proof.
  induction l as [|c l IH]; cbn; [lia|]. rewrite string_length_append.
  pose proof (encode_char_length c). lia.
Qed.

(** The strings of the program: encodings of character sequences. *)
Definition utf8 (s : string) : Prop := ∃ l, Forall is_char l ∧ s = of_chars l.

Lemma chars_of_chars l : Forall is_char l → chars (of_chars l) = l.
Proof.
  intros Hl. apply chars_fuel_of_chars; [done|]. pose proof (of_chars_length l). lia.
Qed.

Lemma from_utf8_of_chars l : Forall is_char l → from_utf8 (of_chars l) = Ok (of_chars l).
Proof. intros Hl. unfold from_utf8. by rewrite utf8_check_of_chars. Qed.

(** ** Bytes: [str::as_bytes] and its inverse *)

Fixpoint as_bytes (s : string) : list Z :=
  match s with
  | EmptyString => []
  | String c s => byte_of c :: as_bytes s
  end.

Fixpoint of_bytes (l : list Z) : string :=
  match l with
  | [] => EmptyString
  | b :: l => String (ascii_of_byte b) (of_bytes l)
  end.

Lemma ascii_of_byte_of c : ascii_of_byte (byte_of c) = c.
Proof. unfold ascii_of_byte, byte_of. rewrite N2Z.id. apply ascii_N_embedding. Qed.

Lemma of_as_bytes s : of_bytes (as_bytes s) = s.
Proof. induction s as [|c s IH]; cbn; [done|]. by rewrite IH, ascii_of_byte_of. Qed.

Lemma as_bytes_app s t : as_bytes (s +:+ t) = as_bytes s ++ as_bytes t.
Proof. induction s as [|c s IH]; [done|]. rewrite string_app_cons. cbn. by rewrite IH. Qed.

Lemma string_app_inj (s t u : string) : s +:+ t = s +:+ u → t = u.
Proof. induction s as [|c s IH]; [done|]. rewrite !string_app_cons. intros [= E]. by apply IH. Qed.

Lemma string_app_assoc (s t u : string) : s +:+ (t +:+ u) = (s +:+ t) +:+ u.
Proof. induction s as [|c s IH]; [done|]. by rewrite !string_app_cons, IH. Qed.

Lemma of_chars_app l k : of_chars (l ++ k) = of_chars l +:+ of_chars k.
Proof. induction l as [|c l IH]; [done|]. cbn. by rewrite IH, string_app_assoc. Qed.

Lemma string_app_nil_r (s : string) : s +:+ "" = s.
Proof. induction s as [|c s IH]; [done|]. by rewrite string_app_cons, IH. Qed.

Lemma substring_all s : String.substring 0 (String.length s) s = s.
Proof. induction s as [|c s IH]; [done|]. cbn. by rewrite IH. Qed.

Lemma substring_app_l s t : String.substring 0 (String.length s) (s +:+ t) = s.
Proof.
  induction s as [|c s IH]; [by destruct t|]. rewrite string_app_cons. cbn. by rewrite IH.
Qed.

Lemma substring_app_r s t : String.substring (String.length s) (String.length t) (s +:+ t) = t.
Proof.
  induction s as [|c s IH]; [apply substring_all|]. rewrite string_app_cons. cbn. by rewrite IH.
Qed.

(** [char::is_whitespace] at the front of a UTF-8 byte string: the encodings of the
    Unicode [White_Space] characters. *)
Definition starts_with_whitespace (s : list Z) : bool :=
  match s with
  | b :: rest =>
      within 9 13 b || Z.eqb b 32 ||
      match rest with
      | c :: rest =>
          (Z.eqb b 194 && (Z.eqb c 133 || Z.eqb c 160)) ||
          match rest with
          | d :: _ =>
              (Z.eqb b 225 && Z.eqb c 154 && Z.eqb d 128) ||
              (Z.eqb b 226 && Z.eqb c 128 &&
                (within 128 138 d || Z.eqb d 168 || Z.eqb d 169 || Z.eqb d 175)) ||
              (Z.eqb b 226 && Z.eqb c 129 && Z.eqb d 159) ||
              (Z.eqb b 227 && Z.eqb c 128 && Z.eqb d 128)
          | [] => false
          end
      | [] => false
      end
  | [] => false
  end.
