(* ===== verification/Redaction.v ===== *)
(** * Redaction of secrets in messages (src/security/redaction.rs)

    [redact_sensitive_values] replaces every match of
    [(?i)(refresh_token|access_token|client_secret|client_id|code|id_token)=([^&\s,}\]]+)]
    by the matched name followed by [=[REDACTED]].  The model runs the expression
    the way a leftmost-first engine does, one byte at a time. *)

From S2P Require Import Prelude Text.

Definition REDACTED : string := "[REDACTED]".

(** The alternatives of the first group, in order. *)
Definition sensitive_names : list string :=
  ["refresh_token"; "access_token"; "client_secret"; "client_id"; "code"; "id_token"].

(** One letter of a name under [(?i)]: the letter in either case or, as simple case
    folding adds, U+017F for [s] and U+212A for [k].  Gives the matched text and the
    rest. *)
Definition match_letter (k : Z) (s : list Z) : option (list Z * list Z) :=
  match s with
  | b :: rest =>
      if Z.eqb b k || (within 65 90 b && Z.eqb (b + 32) k) then Some ([b], rest)
      else if Z.eqb k 115 && Z.eqb b 197 then
        match rest with
        | c :: rest => if Z.eqb c 191 then Some ([b; c], rest) else None
        | [] => None
        end
      else if Z.eqb k 107 && Z.eqb b 226 then
        match rest with
        | c :: d :: rest =>
            if Z.eqb c 132 && Z.eqb d 170 then Some ([b; c; d], rest) else None
        | _ => None
        end
      else None
  | [] => None
  end.

Fixpoint match_name (name s : list Z) : option (list Z * list Z) :=
  match name with
  | [] => Some ([], s)
  | k :: name =>
      match match_letter k s with
      | Some (m, rest) =>
          match match_name name rest with
          | Some (m', rest') => Some (m ++ m', rest')
          | None => None
          end
      | None => None
      end
  end.

(** [[^&\s,}\]]]: a character that a value may contain. *)
Definition value_char (s : list Z) : bool :=
  match s with
  | b :: _ =>
      negb (Z.eqb b 38 || Z.eqb b 44 || Z.eqb b 125 || Z.eqb b 93 || starts_with_whitespace s)
  | [] => false
  end.

(** A match of the whole expression at the front: the matched name, from the first
    alternative that is followed by an equals sign and a value. *)
Fixpoint match_names (names : list string) (s : list Z) : option (list Z) :=
  match names with
  | [] => None
  | name :: names =>
      match match_name (as_bytes name) s with
      | Some (m, b :: value) =>
          if Z.eqb b 61 && value_char value then Some m else match_names names s
      | _ => match_names names s
      end
  end.

Definition match_at (s : list Z) : option (list Z) := match_names sensitive_names s.

(** [replace_all]: [drop] bytes of the current match are still to be skipped, and
    [in_value] says that a value is being consumed. *)
Fixpoint replace_all (drop : nat) (in_value : bool) (s : list Z) : list Z :=
  match s with
  | [] => []
  | b :: rest =>
      match drop with
      | S drop => replace_all drop in_value rest
      | O =>
          if in_value && value_char s then replace_all 0 true rest
          else match match_at s with
               | Some m => m ++ as_bytes ("=" +:+ REDACTED) ++ replace_all (length m) true rest
               | None => b :: replace_all 0 false rest
               end
      end
  end.

Definition redact_sensitive_values (input : string) : string :=
  of_bytes (replace_all 0 false (as_bytes input)).

Example redact_query :
  redact_sensitive_values "grant?Code=abc&x=1 refresh_token=s3cr3t, ok" =
    "grant?Code=[REDACTED]&x=1 refresh_token=[REDACTED], ok".
Proof. vm_compute. reflexivity. Qed.

(** ** Properties *)

#[local] Arguments value_char : simpl never.
#[local] Arguments match_at : simpl never.

(** Bytes that are part of a value whatever follows them. *)
Definition plain (b : Z) : Prop :=
  (33 ≤ b < 128)%Z ∧ b ≠ 38%Z ∧ b ≠ 44%Z ∧ b ≠ 125%Z ∧ b ≠ 93%Z.

Lemma eqb_false a b : a ≠ b → Z.eqb a b = false.
Proof. apply Z.eqb_neq. Qed.

Lemma value_char_plain b s : plain b → value_char (b :: s) = true.
Proof.
  intros (Hr & ? & ? & ? & ?). unfold value_char, starts_with_whitespace.
  rewrite !within_false by lia. rewrite !(eqb_false b) by lia.
  by destruct s as [|? [|? ?]].
Qed.

(** What a decision at or before an equals sign can see of the text after it. *)
Lemma whitespace_before_eq a t u :
  starts_with_whitespace (a ++ 61%Z :: t) = starts_with_whitespace (a ++ 61%Z :: u).
Proof.
  destruct a as [|b [|c [|d a]]], t, u; cbn;
    rewrite ?andb_false_r, ?orb_false_r; repeat case_match; done.
Qed.

Lemma value_char_before_eq a t u :
  value_char (a ++ 61%Z :: t) = value_char (a ++ 61%Z :: u).
Proof.
  unfold value_char. pose proof (whitespace_before_eq a t u) as Hw.
  destruct a as [|b a]; cbn [app] in *; by rewrite Hw.
Qed.

Definition letter (k : Z) : Prop := k ≠ 61%Z ∧ k ≠ 93%Z.

Lemma match_letter_before_eq k a t :
  letter k →
  match match_letter k (a ++ 61%Z :: t) with
  | Some (m, rest) => ∃ a', rest = a' ++ 61%Z :: t ∧ a = m ++ a' ∧
      ∀ u, match_letter k (a ++ 61%Z :: u) = Some (m, a' ++ 61%Z :: u)
  | None => ∀ u, match_letter k (a ++ 61%Z :: u) = None
  end.
Proof.
  intros [Hk Hk']. destruct a as [|b a]; cbn [app match_letter].
  { rewrite (eqb_false 61 k) by done. cbn. by rewrite !andb_false_r. }
  destruct (_ || _) eqn:E1; [exists a; done|].
  destruct (Z.eqb k 115 && Z.eqb b 197) eqn:E2.
  { destruct a as [|c a]; cbn; [done|]. destruct (Z.eqb c 191); [by exists a|done]. }
  destruct (Z.eqb k 107 && Z.eqb b 226) eqn:E3; [|done].
  destruct a as [|c [|d a]]; cbn;
    [destruct t; by intros []|rewrite andb_false_r; by intros|].
  destruct (Z.eqb c 132 && Z.eqb d 170); [by exists a|done].
Qed.

Lemma match_name_before_eq name a t :
  Forall letter name →
  match match_name name (a ++ 61%Z :: t) with
  | Some (m, rest) => ∃ a', rest = a' ++ 61%Z :: t ∧ a = m ++ a' ∧
      ∀ u, match_name name (a ++ 61%Z :: u) = Some (m, a' ++ 61%Z :: u)
  | None => ∀ u, match_name name (a ++ 61%Z :: u) = None
  end.
Proof.
  intros Hn. revert a. induction Hn as [|k name Hk _ IH]; intros a; cbn; [by exists a|].
  pose proof (match_letter_before_eq k a t Hk) as Hl.
  destruct (match_letter k (a ++ 61%Z :: t)) as [[m rest]|].
  - destruct Hl as (a1 & -> & -> & Hl). specialize (IH a1).
    destruct (match_name name (a1 ++ 61%Z :: t)) as [[m' rest']|].
    + destruct IH as (a2 & -> & -> & IH). exists a2. split_and!; [done|by rewrite app_assoc|].
      intros u. by rewrite Hl, IH.
    + intros u. by rewrite Hl, IH.
  - intros u. by rewrite Hl.
Qed.

Lemma sensitive_names_letters name :
  name ∈ sensitive_names → Forall letter (as_bytes name) ∧ Forall plain (as_bytes name).
Proof.
  unfold sensitive_names. rewrite !elem_of_cons, elem_of_nil.
  intros Hn. destruct_or!; subst; try done;
    split; repeat constructor; done.
Qed.

(** Whether an expression match starts at a position, and its name, do not depend on
    the value text after a later equals sign. *)
Lemma match_at_before_eq a v w t u :
  plain v → plain w →
  match_at (a ++ 61%Z :: v :: t) = match_at (a ++ 61%Z :: w :: u) ∧
  ∀ m, match_at (a ++ 61%Z :: v :: t) = Some m → (S (length m) ≤ length a + 1)%nat.
Proof.
  intros Hv Hw. unfold match_at.
  assert (∀ names, names ⊆ sensitive_names → Forall (λ n, Forall letter (as_bytes n)) names) as Hl.
  { intros names Hs. apply Forall_forall. intros n Hn. by apply sensitive_names_letters, Hs. }
  specialize (Hl sensitive_names (reflexivity _)). revert Hl. generalize sensitive_names.
  induction 1 as [|name names Hn _ IH]; [done|]. cbn.
  pose proof (match_name_before_eq (as_bytes name) a (v :: t) Hn) as Hm.
  destruct (match_name (as_bytes name) (a ++ _)) as [[m rest]|]; [|by rewrite Hm].
  destruct Hm as (a' & -> & -> & Hm). rewrite Hm. rewrite length_app in *.
  destruct a' as [|b a']; cbn.
  - rewrite !value_char_plain by done. split; [done|]. intros ? [= <-]. lia.
  - rewrite (value_char_before_eq a' (v :: t) (w :: u)).
    destruct (Z.eqb b 61 && _); [|done]. split; [done|]. intros ? [= <-]. lia.
Qed.

(** Inside a value, plain bytes are dropped. *)
Lemma replace_all_plain d q t :
  Forall plain q → (d ≤ length q)%nat → replace_all d true (q ++ t) = replace_all 0 true t.
Proof.
  intros Hq. revert d. induction Hq as [|b q Hb Hq IH]; intros [|d] Hd; cbn in *; try done; try lia.
  - rewrite value_char_plain by done. cbn. apply IH. lia.
  - apply IH. lia.
Qed.

Lemma match_at_name name v t :
  name ∈ sensitive_names → plain v →
  match_at (as_bytes name ++ 61%Z :: v :: t) = Some (as_bytes name).
Proof.
  unfold match_at, sensitive_names. rewrite !elem_of_cons, elem_of_nil. intros Hn Hv.
  destruct_or!; subst; try done; cbv -[value_char]; by rewrite value_char_plain.
Qed.

Lemma replace_all_0_cons b c rest :
  replace_all 0 b (c :: rest) =
    if b && value_char (c :: rest) then replace_all 0 true rest
    else match match_at (c :: rest) with
         | Some m => m ++ as_bytes ("=" +:+ REDACTED) ++ replace_all (length m) true rest
         | None => c :: replace_all 0 false rest
         end.
Proof. reflexivity. Qed.

(** What is written before the value of a name does not depend on the value, and the
    scan reaches the value in consuming mode. *)
Lemma replace_all_up_to_value pre name d b :
  name ∈ sensitive_names → (d ≤ length pre + length (as_bytes name) + 1)%nat →
  (d ≠ 0 → b = true) →
  ∃ out, ∀ v t, plain v →
    replace_all d b (pre ++ as_bytes name ++ 61%Z :: v :: t) =
      out ++ replace_all 0 true (v :: t).
Proof.
  intros Hn. destruct (sensitive_names_letters _ Hn) as [_ Hp].
  assert (plain 61) as Heq by (unfold plain; lia).
  revert d b. induction pre as [|c pre IH]; intros d b Hd Hb.
  - destruct b.
    + exists []. intros v t _.
      rewrite app_nil_l, (cons_middle 61%Z), app_assoc.
      apply replace_all_plain; [apply Forall_app; auto|]. rewrite length_app. cbn in *. lia.
    + assert (d = 0) as -> by (destruct (decide (d = 0)); [done|by specialize (Hb n)]).
      exists (as_bytes name ++ as_bytes ("=" +:+ REDACTED)). intros v t Hv.
      pose proof (match_at_name name v t Hn Hv) as Hm. cbn [app].
      destruct (as_bytes name) as [|k rest] eqn:Ek.
      { exfalso. clear -Hn Ek. unfold sensitive_names in Hn.
        rewrite !elem_of_cons, elem_of_nil in Hn. by destruct_or!; subst. }
      cbn [app] in *. rewrite (replace_all_0_cons false), Hm. cbn [andb app].
      f_equal. rewrite <- app_assoc. do 2 f_equal.
      rewrite (cons_middle 61%Z), app_assoc.
      inversion Hp; subst. apply replace_all_plain; [apply Forall_app; auto|].
      rewrite length_app. cbn. lia.
  - destruct d as [|d].
    2: { cbn [app replace_all]. apply IH; [cbn in *; lia|]. intros _. by apply Hb. }
    cbn [app]. setoid_rewrite replace_all_0_cons.
    set (text v t := c :: pre ++ as_bytes name ++ 61%Z :: v :: t).
    assert (∀ v t, text v t = (c :: pre ++ as_bytes name) ++ 61%Z :: v :: t) as Ht.
    { intros. unfold text. cbn. by rewrite <- app_assoc. }
    assert (plain 65) as H65 by (unfold plain; lia).
    destruct (b && value_char (text 65 []))%Z eqn:Ev.
    { destruct (IH 0 true ltac:(lia) ltac:(done)) as [out Hout]. exists out. intros v t Hv.
      fold (text v t). rewrite Ht, (value_char_before_eq _ _ [65]%Z), <- Ht, Ev. by apply Hout. }
    destruct (match_at (text 65 []))%Z as [m|] eqn:Em.
    + pose proof Em as Hlen. rewrite Ht in Hlen.
      apply (match_at_before_eq _ 65 65 [] []) in Hlen; [|done..].
      rewrite length_cons, length_app in Hlen.
      destruct (IH (length m) true ltac:(lia) ltac:(done)) as [out Hout].
      eexists. intros v t Hv. fold (text v t).
      rewrite Ht, (value_char_before_eq _ _ [65]%Z),
        (proj1 (match_at_before_eq _ v 65 t [] Hv H65)), <- Ht, Ev, Em.
      rewrite Hout by done. by rewrite !app_assoc.
    + destruct (IH 0 false ltac:(lia) ltac:(done)) as [out Hout].
      exists (c :: out). intros v t Hv. fold (text v t).
      rewrite Ht, (value_char_before_eq _ _ [65]%Z),
        (proj1 (match_at_before_eq _ v 65 t [] Hv H65)), <- Ht, Ev, Em.
      by rewrite Hout.
Qed.

(** Redaction hides the value.  In a message that contains one of the sensitive
    names, an equals sign and a token, the redacted message is the same for every
    token of printable ASCII bytes, wherever the name occurs and whatever follows. *)
Lemma redaction_hides_value pre name s1 s2 post :
  name ∈ sensitive_names → s1 ≠ "" → s2 ≠ "" →
  Forall plain (as_bytes s1) → Forall plain (as_bytes s2) →
  redact_sensitive_values (pre +:+ name +:+ "=" +:+ s1 +:+ post) =
  redact_sensitive_values (pre +:+ name +:+ "=" +:+ s2 +:+ post).
Proof.
  intros Hn Hs1 Hs2 Hp1 Hp2. unfold redact_sensitive_values. rewrite !as_bytes_app. f_equal.
  destruct (replace_all_up_to_value (as_bytes pre) name 0 false Hn ltac:(lia) ltac:(done))
    as [out Hout].
  assert (∀ s, s ≠ "" → Forall plain (as_bytes s) →
    replace_all 0 false (as_bytes pre ++ as_bytes name ++ as_bytes "=" ++ as_bytes s ++ as_bytes post)
    = out ++ replace_all 0 true (as_bytes post)) as Hval.
  { intros [|c s] Hne Hp; [done|]. change (as_bytes "=") with [61%Z]. cbn [app as_bytes] in *.
    inversion Hp; subst. rewrite Hout by done. f_equal.
    apply (replace_all_plain 0 (byte_of c :: as_bytes s)); [done|lia]. }
  by rewrite !Hval.
Qed.

Lemma redaction_hides_value_witness :
  redact_sensitive_values "GET /cb?state=1&code=4/0AX4&x refused" =
  redact_sensitive_values "GET /cb?state=1&code=zzz&x refused".
Proof.
  apply (redaction_hides_value "GET /cb?state=1&" "code" "4/0AX4" "zzz" "&x refused");
    [set_solver|done|done|..]; repeat constructor; done.
Defined.
