(* ===== verification/Errors.v ===== *)
(** * Error codes and service errors

    [ErrorLevel] and [ErrorCode] model src/errors/level.rs and src/errors/code.rs,
    [ErrorContext] models src/errors/context.rs, the class [ServiceError] the trait
    of src/errors/service_error.rs, and [SyncError] its implementation for the
    sync engine in src/errors/mapping/sync.rs. *)

From S2P Require Import Prelude.

(** ** Severity levels *)

Module ErrorLevel.

Inductive t : Set := Fatal | Operation | Minor.

#[global] Instance t_eq_dec : EqDecision t.
Proof. solve_decision. Defined.

End ErrorLevel.

(** ** Error codes *)

Module ErrorCode.

Inductive t : Set :=
| VaultRecordNotFound
| VaultVersionConflict
| VaultTagAlreadyExists
| VaultTagNotFound
| VaultNotUnlocked
| VaultDatabaseCorrupted
| VaultDatabaseIoError
| VaultInvalidField
| DataInvalidCredentialType
| DataInvalidAuditOperation
| DataInvalidUuid
| DataMissingField
| DataFieldTooLong
| DataEmptyField
| CryptoDecryptionFailed
| CryptoEncryptionFailed
| CryptoKeyDerivationFailed
| CryptoInvalidNonce
| CryptoAadMismatch
| SyncConnectionTimeout
| SyncAuthenticationFailed
| SyncProviderError
| SyncConflictDetected
| SyncNetworkUnreachable
| SyncDiskFull
| SyncMetadataCorrupted
| SyncVaultIdentityMismatch
| SyncNotConfigured
| HealthCheckFailed
| HealthHibpApiError
| HealthHibpRateLimited
| ClipboardUnavailable
| ClipboardCopyFailed
| ClipboardClearFailed
| ImportFileUnreadable
| ImportFileFormatInvalid
| ImportPasswordRequired
| ImportPasswordIncorrect
| ImportColumnMappingInvalid
| ImportPartialFailure
| ExportWriteFailed
| ExportPathInvalid
| ExecutorVaultLocked
| ExecutorMasterPasswordRequired
| DekRotationFailed
| RotationConflictDetected
| ConfigLoadFailed
| ConfigSaveFailed
| ConfigValidationFailed.

#[global] Instance t_eq_dec : EqDecision t.
Proof. solve_decision. Defined.

Definition level (c : t) : ErrorLevel.t :=
  match c with
  | VaultDatabaseCorrupted | VaultDatabaseIoError | CryptoEncryptionFailed |
    CryptoAadMismatch | SyncVaultIdentityMismatch => ErrorLevel.Fatal
  | VaultRecordNotFound | VaultVersionConflict | VaultNotUnlocked | VaultInvalidField
    | CryptoDecryptionFailed | CryptoKeyDerivationFailed | CryptoInvalidNonce |
    SyncConflictDetected | SyncMetadataCorrupted | SyncNotConfigured |
    ImportFileFormatInvalid | ImportPasswordRequired | ImportPasswordIncorrect |
    ImportColumnMappingInvalid | ImportPartialFailure | ExportWriteFailed |
    ExportPathInvalid | ExecutorVaultLocked | ExecutorMasterPasswordRequired |
    DekRotationFailed | RotationConflictDetected => ErrorLevel.Operation
  | VaultTagAlreadyExists | VaultTagNotFound | DataInvalidCredentialType |
    DataInvalidAuditOperation | DataInvalidUuid | DataMissingField | DataFieldTooLong
    | DataEmptyField | SyncConnectionTimeout | SyncAuthenticationFailed |
    SyncProviderError | SyncNetworkUnreachable | SyncDiskFull | HealthCheckFailed |
    HealthHibpApiError | HealthHibpRateLimited | ClipboardUnavailable |
    ClipboardCopyFailed | ClipboardClearFailed | ImportFileUnreadable |
    ConfigLoadFailed | ConfigSaveFailed | ConfigValidationFailed => ErrorLevel.Minor
  end.

Definition message_key (c : t) : string :=
  match c with
  | VaultRecordNotFound => "tui.error.vault_record_not_found"
  | VaultVersionConflict => "tui.error.vault_version_conflict"
  | VaultTagAlreadyExists => "tui.error.vault_tag_already_exists"
  | VaultTagNotFound => "tui.error.vault_tag_not_found"
  | VaultNotUnlocked => "tui.error.vault_not_unlocked"
  | VaultDatabaseCorrupted => "tui.error.vault_database_corrupted"
  | VaultDatabaseIoError => "tui.error.vault_database_io_error"
  | VaultInvalidField => "tui.error.vault_invalid_field"
  | DataInvalidCredentialType => "tui.error.data_invalid_credential_type"
  | DataInvalidAuditOperation => "tui.error.data_invalid_audit_operation"
  | DataInvalidUuid => "tui.error.data_invalid_uuid"
  | DataMissingField => "tui.error.data_missing_field"
  | DataFieldTooLong => "tui.error.data_field_too_long"
  | DataEmptyField => "tui.error.data_empty_field"
  | CryptoDecryptionFailed => "tui.error.crypto_decryption_failed"
  | CryptoEncryptionFailed => "tui.error.crypto_encryption_failed"
  | CryptoKeyDerivationFailed => "tui.error.crypto_key_derivation_failed"
  | CryptoInvalidNonce => "tui.error.crypto_invalid_nonce"
  | CryptoAadMismatch => "tui.error.crypto_aad_mismatch"
  | SyncConnectionTimeout => "tui.error.sync_connection_timeout"
  | SyncAuthenticationFailed => "tui.error.sync_authentication_failed"
  | SyncProviderError => "tui.error.sync_provider_error"
  | SyncConflictDetected => "tui.error.sync_conflict_detected"
  | SyncNetworkUnreachable => "tui.error.sync_network_unreachable"
  | SyncDiskFull => "tui.error.sync_disk_full"
  | SyncMetadataCorrupted => "tui.error.sync_metadata_corrupted"
  | SyncVaultIdentityMismatch => "tui.error.sync_vault_identity_mismatch"
  | SyncNotConfigured => "tui.error.sync_not_configured"
  | HealthCheckFailed => "tui.error.health_check_failed"
  | HealthHibpApiError => "tui.error.health_hibp_api_error"
  | HealthHibpRateLimited => "tui.error.health_hibp_rate_limited"
  | ClipboardUnavailable => "tui.error.clipboard_unavailable"
  | ClipboardCopyFailed => "tui.error.clipboard_copy_failed"
  | ClipboardClearFailed => "tui.error.clipboard_clear_failed"
  | ImportFileUnreadable => "tui.error.import_file_unreadable"
  | ImportFileFormatInvalid => "tui.error.import_file_format_invalid"
  | ImportPasswordRequired => "tui.error.import_password_required"
  | ImportPasswordIncorrect => "tui.error.import_password_incorrect"
  | ImportColumnMappingInvalid => "tui.error.import_column_mapping_invalid"
  | ImportPartialFailure => "tui.error.import_partial_failure"
  | ExportWriteFailed => "tui.error.export_write_failed"
  | ExportPathInvalid => "tui.error.export_path_invalid"
  | ExecutorVaultLocked => "tui.error.executor_vault_locked"
  | ExecutorMasterPasswordRequired => "tui.error.executor_master_password_required"
  | DekRotationFailed => "tui.error.dek_rotation_failed"
  | RotationConflictDetected => "tui.error.rotation_conflict_detected"
  | ConfigLoadFailed => "tui.error.config_load_failed"
  | ConfigSaveFailed => "tui.error.config_save_failed"
  | ConfigValidationFailed => "tui.error.config_validation_failed"
  end.

Definition module_prefix (c : t) : string :=
  match c with
  | VaultRecordNotFound | VaultVersionConflict | VaultTagAlreadyExists |
    VaultTagNotFound | VaultNotUnlocked | VaultDatabaseCorrupted |
    VaultDatabaseIoError | VaultInvalidField => "vault"
  | DataInvalidCredentialType | DataInvalidAuditOperation | DataInvalidUuid |
    DataMissingField | DataFieldTooLong | DataEmptyField => "data"
  | CryptoDecryptionFailed | CryptoEncryptionFailed | CryptoKeyDerivationFailed |
    CryptoInvalidNonce | CryptoAadMismatch => "crypto"
  | SyncConnectionTimeout | SyncAuthenticationFailed | SyncProviderError |
    SyncConflictDetected | SyncNetworkUnreachable | SyncDiskFull |
    SyncMetadataCorrupted | SyncVaultIdentityMismatch | SyncNotConfigured => "sync"
  | HealthCheckFailed | HealthHibpApiError | HealthHibpRateLimited => "health"
  | ClipboardUnavailable | ClipboardCopyFailed | ClipboardClearFailed => "clipboard"
  | ImportFileUnreadable | ImportFileFormatInvalid | ImportPasswordRequired |
    ImportPasswordIncorrect | ImportColumnMappingInvalid | ImportPartialFailure |
    ExportWriteFailed | ExportPathInvalid => "import_export"
  | ExecutorVaultLocked | ExecutorMasterPasswordRequired => "executor"
  | DekRotationFailed | RotationConflictDetected => "rotation"
  | ConfigLoadFailed | ConfigSaveFailed | ConfigValidationFailed => "config"
  end.

(** [str::strip_prefix]: the rest of the string after a prefix, if it has it. *)
Definition strip_prefix (p s : string) : option string :=
  if String.prefix p s
  then Some (String.substring (String.length p) (String.length s - String.length p) s)
  else None.

(** The [Display] of a code: its message key without the [tui.error.] prefix. *)
Definition display (c : t) : string :=
  let key := message_key c in
  match strip_prefix "tui.error." key with
  | Some suffix => suffix
  | None => key
  end.

(** Every code, in the order of the enum. *)
Definition all : list t :=
  [VaultRecordNotFound; VaultVersionConflict; VaultTagAlreadyExists; VaultTagNotFound;
   VaultNotUnlocked; VaultDatabaseCorrupted; VaultDatabaseIoError;
   VaultInvalidField; DataInvalidCredentialType; DataInvalidAuditOperation;
   DataInvalidUuid; DataMissingField; DataFieldTooLong; DataEmptyField;
   CryptoDecryptionFailed; CryptoEncryptionFailed; CryptoKeyDerivationFailed;
   CryptoInvalidNonce; CryptoAadMismatch; SyncConnectionTimeout;
   SyncAuthenticationFailed; SyncProviderError; SyncConflictDetected;
   SyncNetworkUnreachable; SyncDiskFull; SyncMetadataCorrupted;
   SyncVaultIdentityMismatch; SyncNotConfigured; HealthCheckFailed;
   HealthHibpApiError; HealthHibpRateLimited; ClipboardUnavailable;
   ClipboardCopyFailed; ClipboardClearFailed; ImportFileUnreadable;
   ImportFileFormatInvalid; ImportPasswordRequired; ImportPasswordIncorrect;
   ImportColumnMappingInvalid; ImportPartialFailure; ExportWriteFailed;
   ExportPathInvalid; ExecutorVaultLocked; ExecutorMasterPasswordRequired;
   DekRotationFailed; RotationConflictDetected; ConfigLoadFailed; ConfigSaveFailed;
   ConfigValidationFailed].

Lemma all_complete c : c ∈ all.
Proof. destruct c; apply (bool_decide_unpack (_ ∈ all)); vm_compute; exact I. Qed.

End ErrorCode.

(** ** Error context *)

Record ErrorContext : Set := mkErrorContext {
  ctx_record_id : option N;
  ctx_record_name : option string;
  ctx_field_name : option string;
  ctx_provider_name : option string;
  ctx_file_path : option string;
  ctx_expected_version : option Z;
  ctx_actual_version : option Z;
  ctx_attempt_count : option Z;
}.

#[export] Instance eta_ErrorContext : Eta ErrorContext := λ c,
  mkErrorContext (ctx_record_id c) (ctx_record_name c) (ctx_field_name c)
    (ctx_provider_name c) (ctx_file_path c) (ctx_expected_version c)
    (ctx_actual_version c) (ctx_attempt_count c).

Module ErrorContext.

Definition new : ErrorContext := mkErrorContext None None None None None None None None.

Definition record_id (id : N) (c : ErrorContext) := c <| ctx_record_id := Some id |>.
Definition record_name (n : string) (c : ErrorContext) := c <| ctx_record_name := Some n |>.
Definition field_name (n : string) (c : ErrorContext) := c <| ctx_field_name := Some n |>.
Definition provider_name (n : string) (c : ErrorContext) :=
  c <| ctx_provider_name := Some n |>.
Definition file_path (p : string) (c : ErrorContext) := c <| ctx_file_path := Some p |>.
Definition expected_version (v : Z) (c : ErrorContext) :=
  c <| ctx_expected_version := Some v |>.
Definition actual_version (v : Z) (c : ErrorContext) :=
  c <| ctx_actual_version := Some v |>.
Definition attempt_count (n : Z) (c : ErrorContext) :=
  c <| ctx_attempt_count := Some n |>.

(** [if let Some(x) = field { map.insert(key, ...) }] *)
Definition insert_some (key : string) (v : option string) (m : gmap string string)
  : gmap string string :=
  match v with Some s => <[key := s]> m | None => m end.

Definition to_interpolation_map (c : ErrorContext) : gmap string string :=
  let m := insert_some "record_name" (ctx_record_name c) ∅ in
  let m := insert_some "field_name" (ctx_field_name c) m in
  let m := insert_some "provider_name" (ctx_provider_name c) m in
  let m := insert_some "file_path" (ctx_file_path c) m in
  let m := insert_some "expected_version" (pretty <$> ctx_expected_version c) m in
  let m := insert_some "actual_version" (pretty <$> ctx_actual_version c) m in
  insert_some "attempt_count" (pretty <$> ctx_attempt_count c) m.

End ErrorContext.

(** ** The [ServiceError] trait *)

Class ServiceError (E : Type) : Type := {
  to_error_code : E → ErrorCode.t;
  to_error_context : E → ErrorContext;
  to_fallback_message : E → string;
}.

(** The trait's default method. *)
Definition error_level {E} `{ServiceError E} (e : E) : ErrorLevel.t :=
  ErrorCode.level (to_error_code e).

(** ** Sync errors *)

Module SyncError.

Inductive t : Set :=
| NetworkTimeout (message : string)
| NetworkUnreachable (message : string)
| ConnectionRefused (endpoint : string)
| AuthenticationFailed (reason : string)
| TokenExpired
| ChecksumMismatch (expected actual record_id : string)
| AadInconsistent (field expected actual : string)
| SerializationFailed (message : string)
| DeserializationFailed (message : string)
| InvalidStateTransition (from to : string)
| LockAcquireFailed (reason : string)
| LockReleaseFailed (reason : string)
| ProviderNotSupported (provider : string)
| ProviderError (provider message : string)
| ConfigValidationFailed (field reason : string)
| VaultIdentityMismatch (local_token remote_token : string)
| MetadataVersionConflict (local remote : Z)
| RecordNotFound (record_id : string)
| PermissionDenied (path : string)
| QuotaExceeded (provider : string)
| Cancelled (operation : string).

#[global] Instance t_eq_dec : EqDecision t.
Proof. solve_decision. Defined.

(** The [Display] that [thiserror] derives from the format strings. *)
Definition display (e : t) : string :=
  match e with
  | NetworkTimeout message => "Network timeout: " +:+ message
  | NetworkUnreachable message => "Network unreachable: " +:+ message
  | ConnectionRefused endpoint => "Connection refused: " +:+ endpoint
  | AuthenticationFailed reason => "Authentication failed: " +:+ reason
  | TokenExpired => "OAuth token expired"
  | ChecksumMismatch expected actual record_id =>
      "Checksum mismatch: expected " +:+ expected +:+ ", actual " +:+ actual
        +:+ " for record " +:+ record_id
  | AadInconsistent field expected actual =>
      "AAD inconsistent for field '" +:+ field +:+ "': expected " +:+ expected
        +:+ ", actual " +:+ actual
  | SerializationFailed message => "Serialization failed: " +:+ message
  | DeserializationFailed message => "Deserialization failed: " +:+ message
  | InvalidStateTransition from to =>
      "Invalid state transition: " +:+ from +:+ " -> " +:+ to
  | LockAcquireFailed reason => "Lock acquire failed: " +:+ reason
  | LockReleaseFailed reason => "Lock release failed: " +:+ reason
  | ProviderNotSupported provider => "Provider not supported: " +:+ provider
  | ProviderError provider message =>
      "Provider error [" +:+ provider +:+ "]: " +:+ message
  | ConfigValidationFailed field reason =>
      "Config validation failed for '" +:+ field +:+ "': " +:+ reason
  | VaultIdentityMismatch local_token remote_token =>
      "Vault identity mismatch: local=" +:+ local_token +:+ ", remote=" +:+ remote_token
  | MetadataVersionConflict local remote =>
      "Metadata version conflict: local=" +:+ pretty local +:+ ", remote=" +:+ pretty remote
  | RecordNotFound record_id => "Record not found: " +:+ record_id
  | PermissionDenied path => "Permission denied: " +:+ path
  | QuotaExceeded provider => "Quota exceeded: " +:+ provider
  | Cancelled operation => "Cancelled: " +:+ operation
  end.

Definition error_code (e : t) : ErrorCode.t :=
  match e with
  | NetworkTimeout _ | ConnectionRefused _ => ErrorCode.SyncConnectionTimeout
  | NetworkUnreachable _ => ErrorCode.SyncNetworkUnreachable
  | AuthenticationFailed _ | TokenExpired => ErrorCode.SyncAuthenticationFailed
  | ChecksumMismatch _ _ _ | AadInconsistent _ _ _ | SerializationFailed _
  | DeserializationFailed _ => ErrorCode.SyncMetadataCorrupted
  | InvalidStateTransition _ _ | LockAcquireFailed _ | LockReleaseFailed _
  | ProviderNotSupported _ | ProviderError _ _ | ConfigValidationFailed _ _
  | Cancelled _ | PermissionDenied _ => ErrorCode.SyncProviderError
  | VaultIdentityMismatch _ _ => ErrorCode.SyncVaultIdentityMismatch
  | MetadataVersionConflict _ _ => ErrorCode.SyncConflictDetected
  | RecordNotFound _ => ErrorCode.VaultRecordNotFound
  | QuotaExceeded _ => ErrorCode.SyncDiskFull
  end.

Definition error_context (e : t) : ErrorContext :=
  match e with
  | ProviderNotSupported provider | ProviderError provider _ | QuotaExceeded provider =>
      ErrorContext.provider_name provider ErrorContext.new
  | AadInconsistent field _ _ => ErrorContext.field_name field ErrorContext.new
  | ConfigValidationFailed field _ => ErrorContext.field_name field ErrorContext.new
  | MetadataVersionConflict local remote =>
      ErrorContext.actual_version remote
        (ErrorContext.expected_version local ErrorContext.new)
  | ChecksumMismatch _ _ record_id => ErrorContext.record_name record_id ErrorContext.new
  | RecordNotFound record_id => ErrorContext.record_name record_id ErrorContext.new
  | PermissionDenied path => ErrorContext.file_path path ErrorContext.new
  | _ => ErrorContext.new
  end.

End SyncError.

#[export] Instance SyncError_service : ServiceError SyncError.t := {
  to_error_code := SyncError.error_code;
  to_error_context := SyncError.error_context;
  to_fallback_message := SyncError.display;
}.

(** ** Properties *)

(** No two codes share a message key. *)
Lemma message_key_injective c1 c2 :
  ErrorCode.message_key c1 = ErrorCode.message_key c2 → c1 = c2.
Proof.
  assert (NoDup (ErrorCode.message_key <$> ErrorCode.all)) as Hnd.
  { apply (bool_decide_unpack (NoDup _)). vm_compute. exact I. }
  pose proof (ErrorCode.all_complete c1) as H1.
  pose proof (ErrorCode.all_complete c2) as H2.
  apply list_elem_of_lookup in H1 as [i Hi], H2 as [j Hj].
  intros Heq. assert (i = j) as ->; [|congruence].
  eapply (NoDup_lookup _ i j (ErrorCode.message_key c1) Hnd).
  - by rewrite list_lookup_fmap, Hi.
  - by rewrite list_lookup_fmap, Hj, Heq.
Qed.
