(* ===== verification/StateMachine.v ===== *)
(** * The sync state machine (src/sync/state_machine.rs)

    [SyncTrigger], [SyncState] and [SyncStateMachine] are the types of the file and
    [transition] its single mutating entry point; it returns the [Result] of the
    code and the machine after the call.  [edge] is the abstract transition
    diagram, stated as a relation, which [transition] is proved to implement. *)

From stdpp Require Import relations.
From S2P Require Import Prelude Errors.

Module SyncTrigger.

Inductive t : Set :=
| TriggerSync
| PullOnly
| PullCompleted
| DetectCompleted (has_conflicts has_changes : bool)
| PushCompleted (has_conflicts : bool)
| AllConflictsResolved
| ConflictResolutionFailed
| NetworkError
| OtherError
| BackoffExpired
| MaxRetriesExceeded
| Shutdown
| ReportCompleted.

#[global] Instance t_eq_dec : EqDecision t.
Proof. solve_decision. Defined.

End SyncTrigger.

Module SyncState.

Inductive t : Set :=
| Idle
| Pulling
| Detecting
| Pushing
| Resolving
| Synced
| Error
| Offline
| ShuttingDown.

#[global] Instance t_eq_dec : EqDecision t.
Proof. solve_decision. Defined.

Definition display (s : t) : string :=
  match s with
  | Idle => "Idle"
  | Pulling => "Pulling"
  | Detecting => "Detecting"
  | Pushing => "Pushing"
  | Resolving => "Resolving"
  | Synced => "Synced"
  | Error => "Error"
  | Offline => "Offline"
  | ShuttingDown => "ShuttingDown"
  end.

End SyncState.

Record SyncStateMachine : Set := mkSyncStateMachine {
  sm_state : SyncState.t;
  sm_attempt : Z;
  sm_max_retries : Z;
  sm_last_error : option string;
}.

#[export] Instance eta_SyncStateMachine : Eta SyncStateMachine := λ m,
  mkSyncStateMachine (sm_state m) (sm_attempt m) (sm_max_retries m) (sm_last_error m).

Module SyncStateMachine.

Definition new (max_retries : Z) : SyncStateMachine :=
  mkSyncStateMachine SyncState.Idle 0 max_retries None.

Definition reset (m : SyncStateMachine) : SyncStateMachine :=
  m <| sm_state := SyncState.Idle |> <| sm_attempt := 0%Z |> <| sm_last_error := None |>.

Definition can_accept_commands (m : SyncStateMachine) : bool :=
  match sm_state m with
  | SyncState.Idle | SyncState.Error | SyncState.Offline => true
  | _ => false
  end.

Definition compute_next_state (m : SyncStateMachine) (trigger : SyncTrigger.t)
  : result SyncState.t SyncError.t :=
  match sm_state m, trigger with
  | _, SyncTrigger.Shutdown => Ok SyncState.ShuttingDown
  | SyncState.Idle, SyncTrigger.TriggerSync => Ok SyncState.Pulling
  | SyncState.Idle, SyncTrigger.PullOnly => Ok SyncState.Pulling
  | SyncState.Pulling, SyncTrigger.PullCompleted => Ok SyncState.Detecting
  | SyncState.Pulling, SyncTrigger.NetworkError => Ok SyncState.Offline
  | SyncState.Pulling, SyncTrigger.OtherError => Ok SyncState.Error
  | SyncState.Detecting, SyncTrigger.DetectCompleted false false => Ok SyncState.Synced
  | SyncState.Detecting, SyncTrigger.DetectCompleted _ true => Ok SyncState.Pushing
  | SyncState.Detecting, SyncTrigger.DetectCompleted true _ => Ok SyncState.Pushing
  | SyncState.Pushing, SyncTrigger.PushCompleted false => Ok SyncState.Synced
  | SyncState.Pushing, SyncTrigger.PushCompleted true => Ok SyncState.Resolving
  | SyncState.Pushing, SyncTrigger.NetworkError => Ok SyncState.Offline
  | SyncState.Pushing, SyncTrigger.OtherError => Ok SyncState.Error
  | SyncState.Resolving, SyncTrigger.AllConflictsResolved => Ok SyncState.Synced
  | SyncState.Resolving, SyncTrigger.ConflictResolutionFailed => Ok SyncState.Resolving
  | SyncState.Resolving, SyncTrigger.NetworkError => Ok SyncState.Offline
  | SyncState.Synced, SyncTrigger.ReportCompleted => Ok SyncState.Idle
  | SyncState.Error, SyncTrigger.BackoffExpired =>
      if (sm_attempt m <=? sm_max_retries m)%Z then Ok SyncState.Pulling
      else Err (SyncError.InvalidStateTransition (SyncState.display (sm_state m)) "unknown")
  | SyncState.Error, SyncTrigger.MaxRetriesExceeded => Ok SyncState.Idle
  | SyncState.Offline, SyncTrigger.BackoffExpired => Ok SyncState.Pulling
  | _, _ =>
      Err (SyncError.InvalidStateTransition (SyncState.display (sm_state m)) "unknown")
  end.

Definition apply_side_effects (trigger : SyncTrigger.t) (to : SyncState.t)
    (m : SyncStateMachine) : SyncStateMachine :=
  match sm_state m, trigger, to with
  | SyncState.Idle, _, SyncState.Pulling => m <| sm_attempt := 0%Z |>
  | SyncState.Pulling, SyncTrigger.OtherError, SyncState.Error
  | SyncState.Pushing, SyncTrigger.OtherError, SyncState.Error =>
      m <| sm_attempt := wrap32 (sm_attempt m + 1) |>
        <| sm_last_error := Some "Sync failed due to error" |>
  | SyncState.Error, SyncTrigger.MaxRetriesExceeded, SyncState.Idle =>
      m <| sm_last_error := None |>
  | _, _, _ => m
  end.

Definition transition (trigger : SyncTrigger.t) (m : SyncStateMachine)
  : result SyncState.t SyncError.t * SyncStateMachine :=
  match compute_next_state m trigger with
  | Ok to => (Ok to, (apply_side_effects trigger to m) <| sm_state := to |>)
  | Err e => (Err e, m)
  end.

(** A sequence of calls, ignoring the rejected ones. *)
Definition run (m : SyncStateMachine) (ts : list SyncTrigger.t) : SyncStateMachine :=
  foldl (λ m t, (transition t m).2) m ts.

End SyncStateMachine.

Import SyncStateMachine.

(** ** The transition diagram

    Which state follows which, with no counters: the guard of the retry edge is
    the only condition on data. *)

Inductive edge (retry_allowed : bool) : SyncState.t → SyncTrigger.t → SyncState.t → Prop :=
| edge_shutdown s : edge retry_allowed s SyncTrigger.Shutdown SyncState.ShuttingDown
| edge_start t : t = SyncTrigger.TriggerSync ∨ t = SyncTrigger.PullOnly →
    edge retry_allowed SyncState.Idle t SyncState.Pulling
| edge_pulled : edge retry_allowed SyncState.Pulling SyncTrigger.PullCompleted
    SyncState.Detecting
| edge_offline s : s ∈ [SyncState.Pulling; SyncState.Pushing; SyncState.Resolving] →
    edge retry_allowed s SyncTrigger.NetworkError SyncState.Offline
| edge_error s : s ∈ [SyncState.Pulling; SyncState.Pushing] →
    edge retry_allowed s SyncTrigger.OtherError SyncState.Error
| edge_detected (cf ch : bool) :
    edge retry_allowed SyncState.Detecting (SyncTrigger.DetectCompleted cf ch)
      (if cf || ch then SyncState.Pushing else SyncState.Synced)
| edge_pushed (cf : bool) :
    edge retry_allowed SyncState.Pushing (SyncTrigger.PushCompleted cf)
      (if cf then SyncState.Resolving else SyncState.Synced)
| edge_resolved : edge retry_allowed SyncState.Resolving SyncTrigger.AllConflictsResolved
    SyncState.Synced
| edge_unresolved : edge retry_allowed SyncState.Resolving
    SyncTrigger.ConflictResolutionFailed SyncState.Resolving
| edge_reported : edge retry_allowed SyncState.Synced SyncTrigger.ReportCompleted
    SyncState.Idle
| edge_retry : retry_allowed = true →
    edge retry_allowed SyncState.Error SyncTrigger.BackoffExpired SyncState.Pulling
| edge_give_up : edge retry_allowed SyncState.Error SyncTrigger.MaxRetriesExceeded
    SyncState.Idle
| edge_online : edge retry_allowed SyncState.Offline SyncTrigger.BackoffExpired
    SyncState.Pulling.

#[export] Hint Constructors edge : sync.

(** Splits the memberships, disjunctions and booleans an edge leaves behind. *)
Ltac sync_inv :=
  repeat match goal with
  | H : _ ∨ _ |- _ => destruct H; subst
  | H : _ ∈ _ :: _ |- _ => apply elem_of_cons in H
  | H : _ ∈ [] |- _ => by apply elem_of_nil in H
  | H : (_ <=? _)%Z = true |- _ => apply Z.leb_le in H
  | b : bool |- _ => destruct b
  end.

Definition retry_allowed (m : SyncStateMachine) : bool :=
  (sm_attempt m <=? sm_max_retries m)%Z.

Lemma compute_next_state_edge m t s :
  compute_next_state m t = Ok s → edge (retry_allowed m) (sm_state m) t s.
Proof.
  unfold compute_next_state, retry_allowed.
  destruct (sm_state m), t; intros H; simplify_eq; eauto with sync;
    repeat case_match; simplify_eq; eauto with sync;
    try (constructor; set_solver);
    try (destruct has_conflicts); try (destruct has_changes); simplify_eq;
    try (apply (edge_detected _ _ _)); try (apply (edge_pushed _ _)).
Qed.

Lemma edge_compute_next_state m t s :
  edge (retry_allowed m) (sm_state m) t s → compute_next_state m t = Ok s.
Proof.
  unfold compute_next_state, retry_allowed.
  inversion 1; subst; repeat match goal with
    | H : _ ∨ _ |- _ => destruct H; subst
    | H : _ ∈ _ :: _ |- _ => apply elem_of_cons in H
    | H : _ ∈ [] |- _ => by apply elem_of_nil in H
    | H : (_ <=? _)%Z = true |- _ => rewrite H
    | H : ?s = sm_state _ |- _ => rewrite <- H
    | H : sm_state _ = ?s |- _ => rewrite H
    | b : bool |- _ => destruct b
    end; try done; by destruct (sm_state m).
Qed.

(** ** The counter invariant *)

Definition slack (s : SyncState.t) : Z :=
  match s with
  | SyncState.Idle | SyncState.Error | SyncState.ShuttingDown => 1
  | _ => 0
  end.

(** What every reachable machine satisfies: the attempt counter never exceeds the
    retry budget by more than the failure that exhausted it, and a machine in the
    error state has counted that failure and recorded its text. *)
Record sm_inv (m : SyncStateMachine) : Prop := {
  inv_budget : (0 ≤ sm_max_retries m < u32_max)%Z;
  inv_attempt : (0 ≤ sm_attempt m ≤ sm_max_retries m + slack (sm_state m))%Z;
  inv_error : sm_state m = SyncState.Error →
    (0 < sm_attempt m)%Z ∧ is_Some (sm_last_error m);
}.

Lemma sm_inv_new n : (0 ≤ n < u32_max)%Z → sm_inv (new n).
Proof. intros ?. split; cbn; [done|lia|done]. Qed.

Lemma sm_inv_reset m : sm_inv m → sm_inv (reset m).
Proof. intros [? ? ?]. split; cbn; [done|lia|done]. Qed.

Lemma transition_ok t m s m' :
  transition t m = (Ok s, m') →
  compute_next_state m t = Ok s ∧ sm_state m' = s ∧
  m' = (apply_side_effects t s m) <| sm_state := s |>.
Proof.
  unfold transition. destruct (compute_next_state m t); intros; simplify_eq/=.
  by split_and!.
Qed.

Lemma transition_err t m e m' : transition t m = (Err e, m') → m' = m.
Proof. unfold transition. destruct (compute_next_state m t); intros; by simplify_eq. Qed.

(** The effect of an accepted transition on the counter. *)
Definition next_attempt (from to : SyncState.t) (attempt : Z) : Z :=
  match from, to with
  | SyncState.Idle, SyncState.Pulling => 0
  | _, SyncState.Error => attempt + 1
  | _, _ => attempt
  end.

Lemma transition_counter t m s m' :
  sm_inv m → transition t m = (Ok s, m') →
  sm_max_retries m' = sm_max_retries m ∧
  sm_attempt m' = next_attempt (sm_state m) s (sm_attempt m) ∧
  (s = SyncState.Error → is_Some (sm_last_error m')).
Proof.
  intros [Hb Ha _] (Hs & _ & ->)%transition_ok. apply compute_next_state_edge in Hs.
  assert (slack (sm_state m) = 0%Z → wrap32 (sm_attempt m + 1) = (sm_attempt m + 1)%Z) as Hw.
  { intros H0. rewrite H0 in Ha. apply wrap32_small. unfold is_u32, u32_max in *. lia. }
  destruct m as [st att mx le]; cbn in *.
  unfold apply_side_effects; destruct st; inversion Hs; subst; sync_inv; simplify_eq/=;
    try (rewrite Hw by done); split_and!; done.
Qed.

Lemma sm_inv_transition t m : sm_inv m → sm_inv (transition t m).2.
Proof.
  intros Hinv. destruct (transition t m) as [[s|e] m'] eqn:E; cbn;
    [|by apply transition_err in E as ->].
  destruct (transition_counter _ _ _ _ Hinv E) as (Hmx & Hat & Hle).
  apply transition_ok in E as (Hs & <- & _). apply compute_next_state_edge in Hs.
  destruct Hinv as [Hb Ha He]. unfold retry_allowed in Hs.
  destruct m' as [st' att' mx' le']; cbn in *; subst.
  destruct (sm_state m); inversion Hs; subst; sync_inv; simplify_eq/=;
    split; cbn in *; try lia; naive_solver lia.
Qed.

Lemma sm_inv_run ts m : sm_inv m → sm_inv (run m ts).
Proof.
  revert m. induction ts as [|t ts IH]; intros m H; [done|]. by apply IH, sm_inv_transition.
Qed.

(** ** Properties *)

(** [transition] implements the transition diagram.  It accepts a trigger
    exactly when the diagram has an edge for it whose retry guard holds, it then
    moves to the state of that edge, and it leaves a machine that rejects the
    trigger unchanged. *)
Theorem transition_refines_diagram t m :
  (∀ s, (transition t m).1 = Ok s ↔ edge (retry_allowed m) (sm_state m) t s) ∧
  match transition t m with
  | (Ok s, m') => sm_state m' = s
  | (Err _, m') => m' = m ∧ ∀ s, ¬ edge (retry_allowed m) (sm_state m) t s
  end.
Proof.
  assert (∀ s, (transition t m).1 = Ok s ↔ edge (retry_allowed m) (sm_state m) t s) as Hiff.
  { intros s. transitivity (compute_next_state m t = Ok s).
    - unfold transition. destruct (compute_next_state m t); naive_solver.
    - split; [apply compute_next_state_edge|apply edge_compute_next_state]. }
  split; [done|]. destruct (transition t m) as [[s|e] m'] eqn:E.
  - by apply transition_ok in E as (_ & ? & _).
  - apply transition_err in E as ->. split; [done|]. intros s Hs. apply Hiff in Hs. done.
Qed.

(** The accepted failures of a run. *)
Fixpoint failures (m : SyncStateMachine) (ts : list SyncTrigger.t) : Z :=
  match ts with
  | [] => 0
  | t :: ts =>
      let '(r, m') := transition t m in
      (match r with Ok SyncState.Error => 1 | _ => 0 end + failures m' ts)%Z
  end.

(** Whether a run passes through the idle state after its first step. *)
Fixpoint never_idle (m : SyncStateMachine) (ts : list SyncTrigger.t) : Prop :=
  match ts with
  | [] => True
  | t :: ts => sm_state (transition t m).2 ≠ SyncState.Idle ∧ never_idle (transition t m).2 ts
  end.

Lemma failures_bounded_aux ts m :
  sm_inv m → sm_state m ≠ SyncState.Idle → never_idle m ts →
  (failures m ts + sm_attempt m ≤ sm_max_retries m + 1)%Z.
Proof.
  revert m. induction ts as [|t ts IH]; intros m Hinv Hni Hn; cbn in *.
  { destruct Hinv as [_ Ha _]. destruct (sm_state m); cbn in *; lia. }
  pose proof (sm_inv_transition t m Hinv) as Hinv'.
  destruct (transition t m) as [[s|e] m'] eqn:E; cbn in *; destruct Hn as [Hn1 Hn2].
  - specialize (IH m' Hinv' Hn1 Hn2).
    destruct (transition_counter _ _ _ _ Hinv E) as (Hmx & Hat & _).
    rewrite Hmx, Hat in IH. destruct (sm_state m), s; cbn in *; try lia; done.
  - apply transition_err in E as ->. apply IH; done.
Qed.

(** C39: retries are bounded.  In any sequence of triggers that does not return to
    the idle state, a reachable machine enters the error state at most
    [max_retries + 1] times, counting the failures already on its counter, and
    its 32-bit attempt counter never wraps. *)
Theorem failures_bounded n ts us m :
  (0 ≤ n < u32_max)%Z → m = run (new n) ts → sm_state m ≠ SyncState.Idle →
  never_idle m us →
  (failures m us + sm_attempt m ≤ n + 1)%Z ∧ is_u32 (sm_attempt (run m us)).
Proof.
  intros Hn -> Hni Hus. pose proof (sm_inv_run ts (new n) (sm_inv_new n Hn)) as Hinv.
  assert (∀ ts m, sm_max_retries (run m ts) = sm_max_retries m) as Hmx.
  { clear. induction ts as [|t ts IH]; intros m; cbn; [done|]. fold (run (transition t m).2 ts).
    rewrite IH. unfold transition. destruct (compute_next_state m t); [|done]. cbn.
    unfold apply_side_effects. by repeat case_match. }
  split.
  - pose proof (failures_bounded_aux us _ Hinv Hni Hus) as Hf. by rewrite Hmx in Hf.
  - destruct (sm_inv_run us _ Hinv) as [Hb Ha _]. unfold is_u32, u32_max in *.
    destruct (sm_state (run _ us)); cbn in *; lia.
Qed.

Lemma failures_bounded_witness :
  let m := run (new 1) [SyncTrigger.TriggerSync; SyncTrigger.OtherError] in
  let us := [SyncTrigger.BackoffExpired; SyncTrigger.OtherError; SyncTrigger.BackoffExpired] in
  (failures m us + sm_attempt m ≤ 1 + 1)%Z ∧ is_u32 (sm_attempt (run m us)).
Proof.
  intros m us.
  apply (failures_bounded 1 [SyncTrigger.TriggerSync; SyncTrigger.OtherError] us m);
    [vm_compute; intuition congruence|reflexivity|vm_compute; discriminate|].
  vm_compute. repeat split; discriminate.
Defined.

(** Shutdown is accepted in every state and is final: no later trigger leaves
    the shutting-down state or changes the counters. *)
Lemma shutdown_is_final m ts :
  sm_state (run m (SyncTrigger.Shutdown :: ts)) = SyncState.ShuttingDown ∧
  run m (SyncTrigger.Shutdown :: ts) = m <| sm_state := SyncState.ShuttingDown |>.
Proof.
  assert (∀ m, sm_state m = SyncState.ShuttingDown → run m ts = m) as Hstay.
  { induction ts as [|t ts IH]; intros m' Hm'; [done|]. cbn. fold (run (transition t m').2 ts).
    assert ((transition t m').2 = m') as ->; [|by apply IH].
    destruct m' as [st att mx le]. cbn in Hm'. subst. by destruct t. }
  assert ((transition SyncTrigger.Shutdown m).2 = m <| sm_state := SyncState.ShuttingDown |>) as Hs.
  { destruct m as [st att mx le]. by destruct st. }
  cbn. fold (run (transition SyncTrigger.Shutdown m).2 ts). rewrite Hs, Hstay by done. done.
Qed.

(** The gate that admits sync commands is wider than the diagram.  In the
    error and offline states [can_accept_commands] holds, yet both commands that
    start a cycle are rejected there and leave the machine as it was; only an
    idle machine starts one. *)
Lemma accepted_command_rejected m t :
  t = SyncTrigger.TriggerSync ∨ t = SyncTrigger.PullOnly →
  (is_ok (transition t m).1 = true ↔ sm_state m = SyncState.Idle) ∧
  (can_accept_commands m = true → sm_state m ≠ SyncState.Idle →
   (transition t m).2 = m ∧
   (transition t m).1 =
     Err (SyncError.InvalidStateTransition (SyncState.display (sm_state m)) "unknown")).
Proof. destruct m as [st att mx le]. intros [-> | ->]; by destruct st. Qed.

Lemma accepted_command_rejected_witness :
  let m := run (new 3) [SyncTrigger.TriggerSync; SyncTrigger.OtherError] in
  can_accept_commands m = true ∧
  (transition SyncTrigger.TriggerSync m).1 =
    Err (SyncError.InvalidStateTransition "Error" "unknown").
Proof.
  split; [reflexivity|].
  apply (accepted_command_rejected (run (new 3) [SyncTrigger.TriggerSync; SyncTrigger.OtherError])
    SyncTrigger.TriggerSync); [by left|reflexivity|vm_compute; discriminate].
Defined.
