(* ===== verification/Env.v ===== *)
(** * The environment of the program

    Everything the sync engine calls that is not part of this repository, as
    interfaces: the codec crates ([Libs]), [serde_json] ([Serde]), the clock and
    the random generator ([System]) and OpenDAL's [Operator] ([Operator]).  The
    laws that the theorems rely on are the documented behaviour of those
    libraries, stated as separate classes ([LibLaws], [SerdeLaws],
    [OperatorLaws]); the file [Demo] instantiates all of them. *)

From S2P Require Import Prelude.

(** Byte strings: [Vec<u8>] and the UTF-8 contents of [String] alike. *)
Abbreviation bytes := string (only parsing).

(** [Uuid] is its 128-bit value, [Uuid::nil()] is zero. *)
Abbreviation Uuid := N (only parsing).

(** [DateTime<Utc>] and [chrono::Duration], in nanoseconds. *)
Abbreviation Instant := Z (only parsing).
Abbreviation Duration := Z (only parsing).

Definition nanos_per_sec : Z := 10 ^ 9.
Definition nanos_per_milli : Z := 10 ^ 6.
Definition seconds (n : Z) : Duration := n * nanos_per_sec.

(** ** base64, sha2, hex, uuid and chrono *)

Class Libs : Type := {
  base64_decode : string → result bytes string;
  base64_encode : bytes → string;
  sha256 : bytes → bytes;
  hex_encode : bytes → string;
  uuid_parse : string → option Uuid;
  uuid_to_string : Uuid → string;
  rfc3339_parse : string → option Instant;
  rfc3339_print : Instant → string;
  duration_debug : Duration → string;
}.

(** The instants [to_rfc3339] prints with a four-digit year. *)
Definition printable_instant (t : Instant) : Prop :=
  (0 ≤ t < 253402300800 * nanos_per_sec)%Z.

Class LibLaws `{Libs} : Prop := {
  base64_roundtrip b : base64_decode (base64_encode b) = Ok b;
  uuid_roundtrip u : (u < 2 ^ 128)%N → uuid_parse (uuid_to_string u) = Some u;
  uuid_empty : uuid_parse "" = None;
  uuid_length u : String.length (uuid_to_string u) = 36;
  uuid_no_extension u s : uuid_to_string u ≠ s +:+ ".json";
  rfc3339_empty : rfc3339_parse "" = None;
  rfc3339_roundtrip t : printable_instant t → rfc3339_parse (rfc3339_print t) = Some t;
}.

(** ** serde_json

    The serializer and parser that [#[derive(Serialize, Deserialize)]] generates
    for a type, with the text of the error. *)

Class Serde (A : Type) : Type := {
  to_json : A → result string string;
  from_json : bytes → result A string;
}.

Class SerdeLaws (A : Type) `{Serde A} : Prop :=
  serde_roundtrip a s : to_json a = Ok s → from_json s = Ok a.

(** ** Clock and randomness

    [now] is [Utc::now], [monotonic_now] is [Instant::now] and [random_range] the
    generator's [random_range(lo..=hi)]; [try_send] tells whether a bounded channel
    takes a message without waiting. *)

Class System (W : Type) : Type := {
  now : io W Instant;
  new_v4 : io W Uuid;
  sleep : Duration → io W ();
  monotonic_now : io W Instant;
  random_range : Z → Z → io W Z;
  try_send : io W bool;
}.

(** ** OpenDAL *)

Module OpErrorKind.
Inductive t : Set := NotFound | PermissionDenied | RateLimited | Other.
End OpErrorKind.

Record OpError : Set := mkOpError {
  op_kind : OpErrorKind.t;
  op_text : string;
}.

Class Operator (W : Type) : Type := {
  op_read : string → ior W bytes OpError;
  op_write : string → bytes → ior W () OpError;
  op_rename : string → string → ior W () OpError;
  op_delete : string → ior W () OpError;
  op_stat : string → ior W () OpError;
  op_list : string → ior W (list string) OpError;
}.

(** What a store keeps, and what each call may do to it.  A failed write or rename
    may have reached the store or not, so its effect is bounded rather than fixed;
    reads, stats and listings change nothing. *)
Class OperatorLaws (W : Type) `{Operator W} : Type := {
  files : W → gmap string bytes;
  read_files p w r w' : op_read p w = (r, w') → files w' = files w;
  read_ok p w b w' : op_read p w = (Ok b, w') → files w !! p = Some b;
  read_not_found p w e w' :
    op_read p w = (Err e, w') → op_kind e = OpErrorKind.NotFound → files w !! p = None;
  write_ok p b w u w' : op_write p b w = (Ok u, w') → files w' = <[p := b]> (files w);
  write_other p q b w r w' :
    op_write p b w = (r, w') → p ≠ q → files w' !! q = files w !! q;
  rename_ok p q w u w' b :
    op_rename p q w = (Ok u, w') → files w !! p = Some b →
    files w' = <[q := b]> (delete p (files w));
  rename_err p q w e w' :
    op_rename p q w = (Err e, w') →
    files w' = files w ∨
    ∃ b, files w !! p = Some b ∧ files w' = <[q := b]> (delete p (files w));
  delete_ok p w u w' : op_delete p w = (Ok u, w') → files w' = delete p (files w);
  delete_not_found p w e w' :
    op_delete p w = (Err e, w') → op_kind e = OpErrorKind.NotFound → files w' !! p = None;
  delete_other p q w r w' :
    op_delete p w = (r, w') → p ≠ q → files w' !! q = files w !! q;
  stat_files p w r w' : op_stat p w = (r, w') → files w' = files w;
  list_files p w r w' : op_list p w = (r, w') → files w' = files w;
}.

(** The clock and the generator leave the store alone. *)
Class SystemLaws (W : Type) `{System W} `{OperatorLaws W} : Prop := {
  now_files w t w' : now w = (t, w') → files w' = files w;
  new_v4_files w u w' : new_v4 w = (u, w') → files w' = files w;
  sleep_files d w u w' : sleep d w = (u, w') → files w' = files w;
  monotonic_now_files w t w' : monotonic_now w = (t, w') → files w' = files w;
  random_range_files lo hi w n w' : random_range lo hi w = (n, w') → files w' = files w;
  random_range_in lo hi w n w' :
    (lo ≤ hi)%Z → random_range lo hi w = (n, w') → (lo ≤ n ≤ hi)%Z;
  try_send_files w b w' : try_send w = (b, w') → files w' = files w;
}.

(** A clock that does not run backwards; a sleep lasts at least as long as asked, and
    a request to the store takes some time, at least [latency]. *)
Class ClockLaws (W : Type) `{System W} `{Operator W} : Type := {
  clock : W → Instant;
  latency : Duration;
  latency_positive : (0 < latency)%Z;
  now_clock w t w' : now w = (t, w') → t = clock w ∧ (clock w ≤ clock w')%Z;
  sleep_clock d w u w' : sleep d w = (u, w') → (clock w + Z.max 0 d ≤ clock w')%Z;
  read_clock p w r w' : op_read p w = (r, w') → (clock w + latency ≤ clock w')%Z;
  write_clock p b w r w' : op_write p b w = (r, w') → (clock w + latency ≤ clock w')%Z;
  delete_clock p w r w' : op_delete p w = (r, w') → (clock w + latency ≤ clock w')%Z;
}.
