(* ===== verification/Types.v ===== *)
(** * Shared data types (src/types)

    The types that several components exchange: credential types, sync status,
    persisted health states and stored records. *)

From S2P Require Import Prelude Env.

(** ** Credential types (src/types/credential.rs) *)

Module DataError.

Inductive t : Set :=
| InvalidCredentialType (s : string)
| InvalidAuditOperation (s : string)
| InvalidSyncStatus (n : Z)
| InvalidUuid (s : string)
| InvalidTimestamp (n : Z)
| MissingField (s : string)
| FieldTooLong (field : string) (max actual : N)
| EmptyField (s : string).

Definition display (e : t) : string :=
  match e with
  | InvalidCredentialType s => "Invalid credential type: " +:+ s
  | InvalidAuditOperation s => "Invalid audit operation: " +:+ s
  | InvalidSyncStatus n => "Invalid sync status value: " +:+ pretty n
  | InvalidUuid s => "Invalid UUID: " +:+ s
  | InvalidTimestamp n => "Invalid timestamp: " +:+ pretty n
  | MissingField s => "Missing field: " +:+ s
  | FieldTooLong field max actual =>
      "Field too long: " +:+ field +:+ ", max " +:+ pretty max +:+ ", actual " +:+ pretty actual
  | EmptyField s => "Empty field: " +:+ s
  end.

End DataError.

Module CredentialType.

Inductive t : Set := Login | Api | Ssh | SecureNote.

#[global] Instance t_eq_dec : EqDecision t.
Proof. solve_decision. Defined.

Definition to_db_str (c : t) : string :=
  match c with
  | Login => "login"
  | Api => "api"
  | Ssh => "ssh"
  | SecureNote => "secure_note"
  end.

Definition from_db_str (s : string) : result t DataError.t :=
  if bool_decide (s = "login") then Ok Login
  else if bool_decide (s = "api") then Ok Api
  else if bool_decide (s = "ssh") then Ok Ssh
  else if bool_decide (s = "secure_note") then Ok SecureNote
  else Err (DataError.InvalidCredentialType s).

Definition list_prefix (c : t) : string :=
  match c with
  | Login => "[L]"
  | Api => "[A]"
  | Ssh => "[S]"
  | SecureNote => "[N]"
  end.

End CredentialType.

(** ** Sync status (src/types/sync.rs) *)

Module SyncStatus.

Inductive t : Set := Pending | Synced | Conflict.

#[global] Instance t_eq_dec : EqDecision t.
Proof. solve_decision. Defined.

(** The discriminants of the enum. *)
Definition discriminant (s : t) : Z :=
  match s with Pending => 0 | Synced => 1 | Conflict => 2 end.

End SyncStatus.

Record SyncStats : Set := mkSyncStats {
  stat_total : Z;
  stat_pending : Z;
  stat_synced : Z;
  stat_conflicts : Z;
}.

(** ** Persisted health state (src/types/health.rs) *)

Record RecordHealthState : Set := mkRecordHealthState {
  hs_record_id : Uuid;
  hs_record_version : Z;
  hs_evaluated_at : option Instant;
  hs_weak_password : option bool;
  hs_duplicate_group_size : option Z;
  hs_compromised : option bool;
  hs_expired : option bool;
}.

(** The report that the interface shows (src/commands/types.rs). *)
Record HealthReport : Set := mkHealthReport {
  hp_weak_passwords : list Uuid;
  hp_duplicate_passwords : list (list Uuid);
  hp_compromised : list Uuid;
  hp_expired : list Uuid;
  hp_total_checked : nat;
}.

Module HealthIssue.
Inductive t : Set := Compromised | Weak | Duplicate (group_size : nat) | Expired.
End HealthIssue.

(** ** Stored records (src/types/record.rs) *)

Record StoredRecord : Set := mkStoredRecord {
  st_id : Uuid;
  st_credential_type : CredentialType.t;
  st_encrypted_data : bytes;
  st_nonce : bytes;
  st_dek_version : Z;
  st_aad : bytes;
  st_is_favorite : bool;
  st_expires_at : option Instant;
  st_created_at : Instant;
  st_updated_at : Instant;
  st_updated_by : string;
  st_version : Z;
  st_deleted : bool;
  st_deleted_at : option Instant;
  st_tags : list string;
}.

Lemma from_to_db_str c : CredentialType.from_db_str (CredentialType.to_db_str c) = Ok c.
Proof. by destruct c. Qed.

Lemma to_from_db_str s c :
  CredentialType.from_db_str s = Ok c → CredentialType.to_db_str c = s.
Proof.
  unfold CredentialType.from_db_str. intros H.
  repeat case_bool_decide; by simplify_eq.
Qed.
