(* ===== verification/CloudRecord.v ===== *)
(** * Cloud records (src/cloud/record.rs, src/cloud/validation.rs)

    The records the engine stores in the cloud, their validation and checksums,
    and the payload that keeps the remote side of a conflict. *)

From S2P Require Import Prelude Errors Env Types.

Definition XCHACHA20_POLY1305_NONCE_LEN : nat := 24.

Record AadFields : Set := mkAadFields {
  aad_record_id : string;
  aad_dek_version : Z;
}.

Record RecordHealthMetadata : Set := mkRecordHealthMetadata {
  hm_evaluated_at : option string;
  hm_weak_password : option bool;
  hm_duplicate_group_size : option Z;
  hm_compromised : option bool;
  hm_expired : option bool;
}.

Record EncryptedRecordMetadata : Set := mkEncryptedRecordMetadata {
  em_encrypted_data : string;
  em_nonce : string;
  em_dek_version : Z;
}.

Record RecordMetadata : Set := mkRecordMetadata {
  rm_name : string;
  rm_tags : list string;
  rm_updated_at : string;
  rm_credential_type : option CredentialType.t;
  rm_is_favorite : option bool;
  rm_expires_at : option string;
  rm_updated_by : option string;
  rm_health : option RecordHealthMetadata;
  rm_encrypted_metadata : option EncryptedRecordMetadata;
}.

Record CloudRecord : Set := mkCloudRecord {
  cr_id : string;
  cr_version : Z;
  cr_encrypted_data : string;
  cr_nonce : string;
  cr_dek_version : Z;
  cr_aad : AadFields;
  cr_metadata : RecordMetadata;
  cr_deleted : option bool;
  cr_deleted_at : option string;
}.

#[export] Instance eta_CloudRecord : Eta CloudRecord := λ r,
  mkCloudRecord (cr_id r) (cr_version r) (cr_encrypted_data r) (cr_nonce r)
    (cr_dek_version r) (cr_aad r) (cr_metadata r) (cr_deleted r) (cr_deleted_at r).

Record ConflictPayload : Set := mkConflictPayload {
  cp_cloud_record : CloudRecord;
  cp_checksum : string;
}.

(** ** Checksums and identifiers (src/cloud/validation.rs) *)

Section Validation.
Context `{Libs}.

Definition compute_checksum (encrypted_data_base64 : string) : result string SyncError.t :=
  let? decoded :=
    map_err (λ e, SyncError.DeserializationFailed
      ("failed to decode encrypted_data as base64: " +:+ e))
      (base64_decode encrypted_data_base64) in
  let hash := sha256 decoded in
  Ok (hex_encode hash).

Definition validate_aad (record_id : string) (dek_version : Z) (aad : AadFields)
  : result () SyncError.t :=
  if negb (bool_decide (aad_record_id aad = record_id)) then
    Err (SyncError.AadInconsistent "record_id" record_id (aad_record_id aad))
  else if negb (bool_decide (aad_dek_version aad = dek_version)) then
    Err (SyncError.AadInconsistent "dek_version" (pretty dek_version)
      (pretty (aad_dek_version aad)))
  else Ok ().

Definition validate_uuid (id : string) : bool :=
  match uuid_parse id with Some _ => true | None => false end.

End Validation.

(** ** Health metadata *)

Module RecordHealthMetadata.
Section s.
Context `{Libs}.

Definition from_state (state : RecordHealthState) : RecordHealthMetadata :=
  mkRecordHealthMetadata
    (rfc3339_print <$> hs_evaluated_at state)
    (hs_weak_password state)
    (wrap32 <$> hs_duplicate_group_size state)
    (hs_compromised state)
    (hs_expired state).

Definition to_state (m : RecordHealthMetadata) (record_id : Uuid) (record_version : Z)
  : RecordHealthState :=
  mkRecordHealthState record_id record_version
    (hm_evaluated_at m ≫= rfc3339_parse)
    (hm_weak_password m)
    (hm_duplicate_group_size m)
    (hm_compromised m)
    (hm_expired m).

End s.
End RecordHealthMetadata.

(** ** Records *)

Module CloudRecord.
Section s.
Context `{Libs} `{Serde EncryptedRecordMetadata}.

Definition validate (r : CloudRecord) : result () SyncError.t :=
  if bool_decide (cr_id r = "") then
    Err (SyncError.DeserializationFailed "id must be non-empty")
  else if negb (validate_uuid (cr_id r)) then
    Err (SyncError.DeserializationFailed ("id must be a valid UUID: " +:+ cr_id r))
  else if (cr_version r <? 1)%Z then
    Err (SyncError.DeserializationFailed
      ("version must be >= 1, got " +:+ pretty (cr_version r)))
  else if bool_decide (cr_encrypted_data r = "") then
    Err (SyncError.DeserializationFailed "encrypted_data must be non-empty")
  else if bool_decide (cr_nonce r = "") then
    Err (SyncError.DeserializationFailed "nonce must be non-empty")
  else
    let? nonce :=
      map_err (λ e, SyncError.DeserializationFailed ("nonce must be valid base64: " +:+ e))
        (base64_decode (cr_nonce r)) in
    if negb (String.length nonce =? XCHACHA20_POLY1305_NONCE_LEN) then
      Err (SyncError.DeserializationFailed
        ("nonce must decode to " +:+ pretty XCHACHA20_POLY1305_NONCE_LEN +:+ " bytes, got "
          +:+ pretty (String.length nonce)))
    else if (cr_dek_version r <? 1)%Z then
      Err (SyncError.DeserializationFailed
        ("dek_version must be >= 1, got " +:+ pretty (cr_dek_version r)))
    else if negb (bool_decide (aad_record_id (cr_aad r) = cr_id r)) then
      Err (SyncError.AadInconsistent "record_id" (cr_id r) (aad_record_id (cr_aad r)))
    else if negb (bool_decide (aad_dek_version (cr_aad r) = cr_dek_version r)) then
      Err (SyncError.AadInconsistent "dek_version" (pretty (cr_dek_version r))
        (pretty (aad_dek_version (cr_aad r))))
    else if bool_decide (rm_name (cr_metadata r) = "") then
      Err (SyncError.DeserializationFailed "metadata.name must be non-empty")
    else if bool_decide (rm_updated_at (cr_metadata r) = "") then
      Err (SyncError.DeserializationFailed "metadata.updated_at must be non-empty")
    else Ok ().

Definition checksum (r : CloudRecord) : result string SyncError.t :=
  compute_checksum (cr_encrypted_data r).

Definition compute_private_metadata_checksum (r : CloudRecord)
  : result (option string) SyncError.t :=
  match rm_encrypted_metadata (cr_metadata r) with
  | None => Ok None
  | Some encrypted_metadata =>
      let? b := map_err (λ e, SyncError.SerializationFailed
          ("failed to serialize encrypted private metadata: " +:+ e))
        (to_json encrypted_metadata) in
      Ok (Some (hex_encode (sha256 b)))
  end.

Definition health_metadata (r : CloudRecord) : option RecordHealthMetadata :=
  rm_health (cr_metadata r).

(** [Uuid::parse_str(&self.id).unwrap_or_default()] *)
Definition uuid_or_default (s : string) : Uuid :=
  match uuid_parse s with Some u => u | None => 0%N end.

Definition to_health_state (r : CloudRecord) : option RecordHealthState :=
  (λ h, RecordHealthMetadata.to_state h (uuid_or_default (cr_id r)) (cr_version r))
    <$> rm_health (cr_metadata r).

Definition has_encrypted_private_metadata (r : CloudRecord) : bool :=
  match rm_encrypted_metadata (cr_metadata r) with Some _ => true | None => false end.

Definition build_cloud_record (record : StoredRecord)
    (name encrypted_data_base64 nonce_base64 : string) (aad : AadFields)
    (health : option RecordHealthState) : CloudRecord :=
  mkCloudRecord (uuid_to_string (st_id record)) (st_version record)
    encrypted_data_base64 nonce_base64 (st_dek_version record) aad
    (mkRecordMetadata name (st_tags record) (rfc3339_print (st_updated_at record))
      (Some (st_credential_type record)) (Some (st_is_favorite record))
      (rfc3339_print <$> st_expires_at record) (Some (st_updated_by record))
      (RecordHealthMetadata.from_state <$> health) None)
    (if st_deleted record then Some true else None)
    (rfc3339_print <$> st_deleted_at record).

End s.
End CloudRecord.

(** ** Conflict payloads *)

Module ConflictPayload.
Section s.
Context `{Libs} `{Serde ConflictPayload}.

Definition serialize (p : ConflictPayload) : result bytes SyncError.t :=
  map_err SyncError.SerializationFailed (to_json p).

Definition deserialize (data : bytes) : result ConflictPayload SyncError.t :=
  map_err SyncError.DeserializationFailed (from_json data).

Definition validate (p : ConflictPayload) : result () SyncError.t :=
  let? _ := CloudRecord.validate (cp_cloud_record p) in
  let? computed := CloudRecord.checksum (cp_cloud_record p) in
  if negb (bool_decide (computed = cp_checksum p)) then
    Err (SyncError.ChecksumMismatch (cp_checksum p) computed (cr_id (cp_cloud_record p)))
  else Ok ().

End s.
End ConflictPayload.

(** ** Properties *)

Section properties.
Context `{L : Libs} `{!LibLaws} `{Serde EncryptedRecordMetadata}.

(** The records the engine accepts, as one condition. *)
Record valid_record (r : CloudRecord) : Prop := {
  valid_uuid : is_Some (uuid_parse (cr_id r));
  valid_version : (1 ≤ cr_version r)%Z;
  valid_data : cr_encrypted_data r ≠ "";
  valid_nonce : ∃ n, base64_decode (cr_nonce r) = Ok n ∧ String.length n = 24 ∧ cr_nonce r ≠ "";
  valid_dek : (1 ≤ cr_dek_version r)%Z;
  valid_aad : cr_aad r = mkAadFields (cr_id r) (cr_dek_version r);
  valid_name : rm_name (cr_metadata r) ≠ "";
  valid_updated : rm_updated_at (cr_metadata r) ≠ "";
}.

Lemma validate_valid r : CloudRecord.validate r = Ok () → valid_record r.
Proof.
  unfold CloudRecord.validate, validate_uuid. intros Hv.
  destruct (uuid_parse (cr_id r)) eqn:Hu, (base64_decode (cr_nonce r)) eqn:Hn; cbn in Hv;
    repeat (case_test; try done).
  destruct (cr_aad r) as [i d] eqn:Ha; cbn in *; subst.
  split; rewrite ?Hu; cbn; eauto.
Qed.

Lemma valid_validate r : valid_record r → CloudRecord.validate r = Ok ().
Proof.
  intros [[u Hu] Hv Hd (n & Hn & Hl & Hne) Hk Ha Hnm Hup].
  unfold CloudRecord.validate, validate_uuid. rewrite Hu, Ha.
  assert (cr_id r ≠ "") by (intros E; by rewrite E, uuid_empty in Hu).
  rewrite Hn. cbn. rewrite Hl. repeat (case_test; cbn in *; try (done || lia)).
Qed.

(** [CloudRecord::validate] accepts exactly the well-formed records: a UUID
    identifier, versions of at least one, a ciphertext, a base64 nonce of 24 bytes,
    associated data that repeats the identifier and the key version, and a name
    and time stamp. *)
Lemma validate_iff_valid r : is_ok (CloudRecord.validate r) = true ↔ valid_record r.
Proof.
  rewrite is_ok_iff. split.
  - intros [[] Hv]. by apply validate_valid.
  - intros Hv. exists (). by apply valid_validate.
Qed.

(** A record the vault uploads is one every other device accepts: the cloud
    record built from a stored record with its own identifier as associated data
    passes validation. *)
Lemma built_record_valid record name data nonce health :
  (st_id record < 2 ^ 128)%N → (1 ≤ st_version record)%Z → (1 ≤ st_dek_version record)%Z →
  printable_instant (st_updated_at record) →
  name ≠ "" → data ≠ "" → String.length nonce = 24 → base64_encode nonce ≠ "" →
  CloudRecord.validate
    (CloudRecord.build_cloud_record record name data (base64_encode nonce)
       (mkAadFields (uuid_to_string (st_id record)) (st_dek_version record)) health) = Ok ().
Proof.
  intros Hid Hv Hk Ht Hn Hd Hl Hne. apply valid_validate. split; cbn; try done.
  - rewrite uuid_roundtrip by done. eauto.
  - exists nonce. by rewrite base64_roundtrip.
  - intros E. pose proof (rfc3339_roundtrip _ Ht) as R. by rewrite E, rfc3339_empty in R.
Qed.

(** Health states survive the trip through the cloud: converting a local state
    to its cloud form and back gives the same state. *)
Lemma health_state_roundtrip s :
  (∀ t, hs_evaluated_at s = Some t → printable_instant t) →
  (∀ n, hs_duplicate_group_size s = Some n → is_u32 n) →
  RecordHealthMetadata.to_state (RecordHealthMetadata.from_state s)
    (hs_record_id s) (hs_record_version s) = s.
Proof.
  intros Ht Hn. unfold RecordHealthMetadata.to_state. destruct s as [i v e w d c x]; cbn in *.
  f_equal.
  - destruct e as [t|]; [|done]. cbn. apply rfc3339_roundtrip. by apply Ht.
  - destruct d as [n|]; [|done]. cbn. rewrite wrap32_small; [done|]. by apply Hn.
Qed.

End properties.
