(* ===== verification/CloudMetadata.v ===== *)
(** * Cloud metadata (src/cloud/metadata.rs, src/cloud/schema.rs)

    The index file that every device reads first: format versions, the vault
    identity token, a version counter, the known devices and one entry per record. *)

From S2P Require Import Prelude Errors Env.

Definition FORMAT_VERSION : Z := 1.
Definition SCHEMA_VERSION : string := "open-keyring-v1".
Definition METADATA_FILENAME : string := ".metadata.json".
Definition RECORDS_DIR : string := "records".
Definition LOCK_FILENAME : string := ".sync.lock".

Record DeviceInfo : Set := mkDeviceInfo {
  dev_device_id : string;
  dev_platform : string;
  dev_device_name : string;
  dev_last_seen : string;
  dev_sync_count : Z;
}.

Record RecordVersionInfo : Set := mkRecordVersionInfo {
  ri_version : Z;
  ri_updated_at : string;
  ri_updated_by : string;
  ri_checksum : string;
  ri_private_metadata_checksum : option string;
  ri_deleted : bool;
}.

Record CloudMetadata : Set := mkCloudMetadata {
  cm_version : Z;
  cm_schema_version : string;
  cm_current_dek_version : Z;
  cm_min_supported_dek_version : Z;
  cm_vault_identity_token : string;
  cm_metadata_version : Z;
  cm_created_at : string;
  cm_updated_at : string;
  cm_devices : list DeviceInfo;
  cm_records : gmap string RecordVersionInfo;
}.

#[export] Instance eta_CloudMetadata : Eta CloudMetadata := λ m,
  mkCloudMetadata (cm_version m) (cm_schema_version m) (cm_current_dek_version m)
    (cm_min_supported_dek_version m) (cm_vault_identity_token m) (cm_metadata_version m)
    (cm_created_at m) (cm_updated_at m) (cm_devices m) (cm_records m).

Module CloudMetadata.
Section s.
Context `{Libs} {W : Type} `{System W}.

Definition new (vault_identity_token : string) : io W CloudMetadata :=
  let* t := now in
  let now := rfc3339_print t in
  io_ret (mkCloudMetadata FORMAT_VERSION SCHEMA_VERSION 1 1 vault_identity_token 1 now now [] ∅).

Definition validate (m : CloudMetadata) : result () SyncError.t :=
  if negb (cm_version m =? FORMAT_VERSION)%Z then
    Err (SyncError.DeserializationFailed
      ("version mismatch: expected " +:+ pretty FORMAT_VERSION +:+ ", got "
        +:+ pretty (cm_version m)))
  else if negb (bool_decide (cm_schema_version m = SCHEMA_VERSION)) then
    Err (SyncError.DeserializationFailed
      ("schema_version mismatch: expected " +:+ SCHEMA_VERSION +:+ ", got "
        +:+ cm_schema_version m))
  else if (cm_current_dek_version m <? 1)%Z then
    Err (SyncError.DeserializationFailed "current_dek_version must be >= 1")
  else if (cm_min_supported_dek_version m <? 1)%Z then
    Err (SyncError.DeserializationFailed "min_supported_dek_version must be >= 1")
  else if (cm_current_dek_version m <? cm_min_supported_dek_version m)%Z then
    Err (SyncError.DeserializationFailed
      ("current_dek_version (" +:+ pretty (cm_current_dek_version m)
        +:+ ") must be >= min_supported_dek_version ("
        +:+ pretty (cm_min_supported_dek_version m) +:+ ")"))
  else if (cm_metadata_version m <? 1)%Z then
    Err (SyncError.DeserializationFailed "metadata_version must be >= 1")
  else if bool_decide (cm_vault_identity_token m = "") then
    Err (SyncError.DeserializationFailed "vault_identity_token must be non-empty")
  else if negb (bool_decide (is_Some (rfc3339_parse (cm_created_at m)))) then
    Err (SyncError.DeserializationFailed ("invalid created_at ISO 8601: " +:+ cm_created_at m))
  else if negb (bool_decide (is_Some (rfc3339_parse (cm_updated_at m)))) then
    Err (SyncError.DeserializationFailed ("invalid updated_at ISO 8601: " +:+ cm_updated_at m))
  else Ok ().

Definition increment_version (m : CloudMetadata) : io W CloudMetadata :=
  let* t := now in
  io_ret (m <| cm_metadata_version ::= λ v, wrap64 (v + 1) |>
            <| cm_updated_at := rfc3339_print t |>).

Definition has_remote_changes (local_version : Z) (m : CloudMetadata) : bool :=
  (local_version <? cm_metadata_version m)%Z.

Definition add_device (device : DeviceInfo) (m : CloudMetadata) : CloudMetadata :=
  if existsb (λ d, bool_decide (dev_device_id d = dev_device_id device)) (cm_devices m)
  then m
  else m <| cm_devices ::= λ l, l ++ [device] |>.

(** [iter_mut().find(..)]: replaces the first device with the identifier. *)
Fixpoint replace_device (device : DeviceInfo) (l : list DeviceInfo) : list DeviceInfo :=
  match l with
  | [] => []
  | d :: l =>
      if bool_decide (dev_device_id d = dev_device_id device) then device :: l
      else d :: replace_device device l
  end.

Definition update_device (device : DeviceInfo) (m : CloudMetadata) : CloudMetadata :=
  m <| cm_devices ::= replace_device device |>.

Definition upsert_record (record_id : string) (info : RecordVersionInfo) (m : CloudMetadata)
  : CloudMetadata :=
  m <| cm_records ::= insert record_id info |>.

End s.

Section codec.
Context `{Serde CloudMetadata}.

Definition serialize_metadata (m : CloudMetadata) : result string SyncError.t :=
  map_err SyncError.SerializationFailed (to_json m).

Definition deserialize_metadata (json : string) : result CloudMetadata SyncError.t :=
  map_err SyncError.DeserializationFailed (from_json json).

End codec.
End CloudMetadata.

(** ** Properties *)

Section properties.
Context `{L : Libs} `{!LibLaws} {W : Type} `{System W}.
Import CloudMetadata.

Record valid_metadata (m : CloudMetadata) : Prop := {
  vm_format : cm_version m = FORMAT_VERSION ∧ cm_schema_version m = SCHEMA_VERSION;
  vm_dek : (1 ≤ cm_min_supported_dek_version m ≤ cm_current_dek_version m)%Z;
  vm_counter : (1 ≤ cm_metadata_version m)%Z;
  vm_token : cm_vault_identity_token m ≠ "";
  vm_times : is_Some (rfc3339_parse (cm_created_at m)) ∧ is_Some (rfc3339_parse (cm_updated_at m));
}.

Lemma metadata_validate_valid m : validate m = Ok () ↔ valid_metadata m.
Proof.
  unfold validate. split.
  - intros Hv. repeat (case_test; try done).
  - intros [[? ?] ? ? ? [? ?]]. repeat (case_test; try (done || lia)).
Qed.

(** Every device identifier occurs once. *)
Definition devices_unique (m : CloudMetadata) : Prop := NoDup (dev_device_id <$> cm_devices m).

Lemma add_device_unique d m : devices_unique m → devices_unique (add_device d m).
Proof.
  unfold devices_unique, add_device. intros Hu. destruct (existsb _ _) eqn:E; [done|]. cbn.
  rewrite fmap_app, NoDup_app. split_and!; [done| |apply NoDup_singleton].
  intros i Hi ->%list_elem_of_singleton. apply list_elem_of_fmap in Hi as (d' & Heq & Hin).
  assert (existsb (λ d0, bool_decide (dev_device_id d0 = dev_device_id d)) (cm_devices m) = true);
    [|congruence].
  apply existsb_exists. exists d'. split; [by apply list_elem_of_In|].
  by apply bool_decide_eq_true_2.
Qed.

Lemma update_device_ids d m :
  dev_device_id <$> cm_devices (update_device d m) = dev_device_id <$> cm_devices m.
Proof.
  cbn. induction (cm_devices m) as [|d' l IH]; [done|]. cbn. case_bool_decide as Hd; cbn.
  - by rewrite Hd.
  - by rewrite IH.
Qed.

(** C40: the metadata a device writes is metadata every device accepts.  Fresh
    metadata validates, and validity and the uniqueness of device identifiers are
    preserved by every update, up to the end of the 64-bit version counter. *)
Theorem metadata_operations_valid token (m : CloudMetadata) d id info w w' m' :
  (token ≠ "" → printable_instant (now w).1 → new token w = (m', w') →
     valid_metadata m' ∧ devices_unique m') ∧
  (valid_metadata m → devices_unique m →
     (valid_metadata (add_device d m) ∧ devices_unique (add_device d m)) ∧
     (valid_metadata (update_device d m) ∧ devices_unique (update_device d m)) ∧
     (valid_metadata (upsert_record id info m) ∧ devices_unique (upsert_record id info m)) ∧
     (printable_instant (now w).1 → (cm_metadata_version m < u64_max)%Z →
      increment_version m w = (m', w') →
      valid_metadata m' ∧ devices_unique m' ∧
      cm_metadata_version m' = (cm_metadata_version m + 1)%Z ∧
      has_remote_changes (cm_metadata_version m) m' = true)).
Proof.
  split.
  - unfold new, io_bind, io_ret. intros Ht Hp. destruct (now w) as [t w1]. intros [= <- <-].
    cbn in *. split; [|by apply NoDup_nil]. split; cbn; try done; rewrite rfc3339_roundtrip; eauto.
  - intros Hv Hu. split_and!.
    + destruct Hv. unfold add_device. by destruct (existsb _ _).
    + by apply add_device_unique.
    + by destruct Hv.
    + unfold devices_unique. by rewrite update_device_ids.
    + by destruct Hv.
    + done.
    + unfold increment_version, io_bind, io_ret. intros Hp Hc. destruct (now w) as [t w1].
      intros [= <- <-]. destruct Hv. cbn in *. unfold has_remote_changes. cbn.
      assert (wrap64 (cm_metadata_version m + 1) = (cm_metadata_version m + 1)%Z) as Hw.
      { apply wrap64_small. unfold is_u64, u64_max in *. lia. }
      split_and!; [|done|done|rewrite Hw; apply Z.ltb_lt; lia].
      split; cbn; rewrite ?Hw; try done; [lia|]. rewrite rfc3339_roundtrip by done. naive_solver.
Qed.

End properties.
