(* ===== verification/Storage.v ===== *)
(** * Cloud storage (src/cloud/storage.rs)

    [CloudStorage] wraps an OpenDAL operator: JSON codecs, error mapping, the
    temporary-file-and-rename protocol of the writes, the compare-and-swap of the
    metadata file and the concurrent batch download. *)

From Stdlib Require Import Ascii.
From S2P Require Import Prelude Text Redaction Errors Env CloudRecord CloudMetadata.

(** The operator is the environment's; the wrapper adds the provider's name. *)
Record CloudStorage : Set := mkCloudStorage { provider_name : string }.

Definition prefers_direct_overwrite (st : CloudStorage) : bool :=
  bool_decide (provider_name st = "google_drive") || bool_decide (provider_name st = "gdrive").

Definition map_opendal_error (err : OpError) (provider context : string) : SyncError.t :=
  match op_kind err with
  | OpErrorKind.NotFound => SyncError.RecordNotFound context
  | OpErrorKind.PermissionDenied => SyncError.PermissionDenied context
  | OpErrorKind.RateLimited => SyncError.NetworkTimeout context
  | OpErrorKind.Other =>
      SyncError.ProviderError provider
        (redact_sensitive_values (context +:+ ": " +:+ op_text err))
  end.

(** ** Record identifiers from paths *)

(** [str::trim_end_matches('/')], on bytes. *)
Fixpoint trim_end_slash (s : string) : string :=
  match s with
  | EmptyString => EmptyString
  | String c s =>
      match trim_end_slash s with
      | EmptyString => if bool_decide (c = "/"%char) then EmptyString else String c EmptyString
      | t => String c t
      end
  end.

(** [str::ends_with] and the removal of the suffix. *)
Definition strip_suffix (suffix s : string) : option string :=
  let n := (String.length s - String.length suffix)%nat in
  if (String.length suffix <=? String.length s)%nat &&
     bool_decide (String.substring n (String.length suffix) s = suffix)
  then Some (String.substring 0 n s) else None.

Definition extract_record_id (path : string) : option string :=
  let path := trim_end_slash path in
  let prefix := RECORDS_DIR +:+ "/" in
  match ErrorCode.strip_prefix prefix path with
  | None => None
  | Some filename =>
      match strip_suffix ".json" filename with
      | None => None
      | Some id => if bool_decide (id = "") then None else Some id
      end
  end.

Section storage.
Context {W : Type} `{Libs} `{Operator W} `{System W}.
Context `{Serde CloudMetadata} `{Serde CloudRecord}.

(** [self.operator.op(..).await.map_err(|e| map_opendal_error(e, provider, context))] *)
Definition mapped {A} (st : CloudStorage) (context : string) (m : ior W A OpError)
  : ior W A SyncError.t :=
  io_map_err (λ e, map_opendal_error e (provider_name st) context) m.

(** [Err(SyncError::RecordNotFound { .. }) => Ok(d)] *)
Definition not_found_as {A} (d : A) (m : ior W A SyncError.t) : ior W A SyncError.t :=
  let* r := m in
  io_ret match r with
         | Err (SyncError.RecordNotFound _) => Ok d
         | r => r
         end.

Definition ior_map {A B E} (f : A → B) (m : ior W A E) : ior W B E :=
  let! a := m in io_ret (Ok (f a)).

(** ** Atomic writes *)

Definition temp_name (final uuid : string) : string := final +:+ ".tmp." +:+ uuid.

(** The body shared by [upload_metadata] and [upload_record]. *)
Definition write_file (st : CloudStorage) (final : string) (b : bytes)
  : ior W () SyncError.t :=
  if prefers_direct_overwrite st then mapped st final (op_write final b)
  else
    let* u := new_v4 in
    let temp := temp_name final (uuid_to_string u) in
    let! _ := mapped st temp (op_write temp b) in
    mapped st final (op_rename temp final).

Definition upload_metadata (st : CloudStorage) (m : CloudMetadata) : ior W () SyncError.t :=
  let! json := lift (map_err (λ e, SyncError.SerializationFailed (SyncError.display e))
                       (CloudMetadata.serialize_metadata m)) in
  write_file st METADATA_FILENAME json.

Definition record_path (record_id : string) : string :=
  RECORDS_DIR +:+ "/" +:+ record_id +:+ ".json".

Definition upload_record (st : CloudStorage) (record_id : string) (r : CloudRecord)
  : ior W () SyncError.t :=
  let! json := lift (map_err SyncError.SerializationFailed (to_json r)) in
  write_file st (record_path record_id) json.

(** ** Reads *)

Definition download_metadata (st : CloudStorage)
  : ior W (option CloudMetadata) SyncError.t :=
  let* r := mapped st METADATA_FILENAME (op_read METADATA_FILENAME) in
  match r with
  | Ok b =>
      io_ret
        (let? json := map_err (λ e, SyncError.DeserializationFailed ("invalid UTF-8: " +:+ e))
           (from_utf8 b) in
         let? m := map_err (λ e, SyncError.DeserializationFailed (SyncError.display e))
           (CloudMetadata.deserialize_metadata json) in
         let? _ := CloudMetadata.validate m in
         Ok (Some m))
  | Err (SyncError.RecordNotFound _) => io_ret (Ok None)
  | Err e => io_ret (Err e)
  end.

Definition metadata_exists (st : CloudStorage) : ior W bool SyncError.t :=
  not_found_as false
    (ior_map (λ _, true) (mapped st METADATA_FILENAME (op_stat METADATA_FILENAME))).

Definition get_metadata_version (st : CloudStorage) : ior W (option Z) SyncError.t :=
  let! m := download_metadata st in
  io_ret (Ok (cm_metadata_version <$> m)).

(** Step 1 of the push: the version is read and compared. *)
Definition check_metadata_version (st : CloudStorage) (expected_version : Z)
  : ior W () SyncError.t :=
  let! remote := download_metadata st in
  match remote with
  | Some remote =>
      if negb (cm_metadata_version remote =? expected_version)%Z then
        io_ret (Err (SyncError.LockAcquireFailed
          ("metadata version mismatch: expected " +:+ pretty expected_version +:+ ", found "
            +:+ pretty (cm_metadata_version remote))))
      else io_ret (Ok ())
  | None =>
      if negb (expected_version =? 0)%Z then
        io_ret (Err (SyncError.RecordNotFound METADATA_FILENAME))
      else io_ret (Ok ())
  end.

(** Step 2 is an ordinary upload: nothing keeps another device from pushing in between. *)
Definition push_metadata_atomic (st : CloudStorage) (m : CloudMetadata)
    (expected_version : Z) : ior W () SyncError.t :=
  let! _ := check_metadata_version st expected_version in
  upload_metadata st m.

(** The outcome of one read as [download_record] and the batch tasks report it. *)
Definition decode_record (record_id : string) (r : result bytes SyncError.t)
  : result (option CloudRecord) SyncError.t :=
  match r with
  | Ok b =>
      let? record := map_err (λ e, SyncError.DeserializationFailed
          ("record " +:+ record_id +:+ ": " +:+ e)) (from_json b) in
      Ok (Some record)
  | Err (SyncError.RecordNotFound _) => Ok None
  | Err e => Err e
  end.

Definition download_record (st : CloudStorage) (record_id : string)
  : ior W (option CloudRecord) SyncError.t :=
  let path := record_path record_id in
  let* r := mapped st path (op_read path) in
  io_ret (decode_record record_id r).

Definition list_records (st : CloudStorage) : ior W (list string) SyncError.t :=
  let records_path := RECORDS_DIR +:+ "/" in
  let! entries := mapped st records_path (op_list records_path) in
  io_ret (Ok (omap extract_record_id entries)).

(** ** Batch download

    One task per identifier; [join_next] yields the tasks in any order, and a task
    that panicked yields a join error instead of its result. *)

Abbreviation Downloaded := (string * result (option CloudRecord) SyncError.t)%type
  (only parsing).

(** What a completed task hands back, [None] standing for a join error. *)
Definition collect_joined (joined : list (option Downloaded)) (join_error : string)
  : list Downloaded :=
  (λ o, match o with
        | Some r => r
        | None => ("", Err (SyncError.ProviderError "" ("join error: " +:+ join_error)))
        end) <$> joined.

(** [results.iter().position(|(id, _)| id == record_id)] and [results.remove(pos)] *)
Fixpoint take_result (record_id : string) (results : list Downloaded)
  : option (Downloaded * list Downloaded) :=
  match results with
  | [] => None
  | r :: results =>
      if bool_decide (r.1 = record_id) then Some (r, results)
      else match take_result record_id results with
           | Some (found, rest) => Some (found, r :: rest)
           | None => None
           end
  end.

Fixpoint order_results (record_ids : list string) (results : list Downloaded)
  : list Downloaded :=
  match record_ids with
  | [] => []
  | id :: record_ids =>
      match take_result id results with
      | Some (found, rest) => found :: order_results record_ids rest
      | None => (id, Err (SyncError.RecordNotFound id)) :: order_results record_ids results
      end
  end.

(** The reads of the spawned tasks, in the order the environment runs them. *)
Fixpoint run_downloads (st : CloudStorage) (record_ids : list string)
  : io W (list Downloaded) :=
  match record_ids with
  | [] => io_ret []
  | id :: record_ids =>
      let* r := download_record st id in
      let* rest := run_downloads st record_ids in
      io_ret ((id, r) :: rest)
  end.

(** [schedule] permutes the identifiers into the order in which the tasks complete;
    [panics] picks the tasks that end in a join error with the text [join_error]. *)
Definition batch_download_records (schedule : list string → list string)
    (panics : string → bool) (join_error : string)
    (st : CloudStorage) (record_ids : list string) : io W (list Downloaded) :=
  let* joined := run_downloads st (schedule record_ids) in
  io_ret (order_results record_ids
    (collect_joined ((λ d, if panics d.1 then None else Some d) <$> joined) join_error)).

(** ** Deletion, connectivity and raw files *)

Definition delete_raw (st : CloudStorage) (path : string) : ior W () SyncError.t :=
  not_found_as () (mapped st path (op_delete path)).

Definition delete_record (st : CloudStorage) (record_id : string) : ior W () SyncError.t :=
  let path := record_path record_id in
  not_found_as () (mapped st path (op_delete path)).

Definition check_connectivity (st : CloudStorage) : ior W () SyncError.t :=
  let records_path := RECORDS_DIR +:+ "/" in
  ior_map (λ _, ()) (mapped st "connectivity check" (op_list records_path)).

Definition upload_raw (st : CloudStorage) (path : string) (data : bytes)
  : ior W () SyncError.t :=
  mapped st path (op_write path data).

Definition download_raw (st : CloudStorage) (path : string)
  : ior W (option bytes) SyncError.t :=
  not_found_as None (ior_map Some (mapped st path (op_read path))).

End storage.

(** ** Properties *)

(** serde_json prints text, that is, valid UTF-8. *)
Class JsonText (A : Type) `{Serde A} : Prop :=
  json_utf8 a s : to_json a = Ok s → from_utf8 s = Ok s.

Lemma temp_name_ne final u : temp_name final u ≠ final.
Proof.
  unfold temp_name. intros E%(f_equal String.length). rewrite !string_length_append in E.
  cbn in E. lia.
Qed.

Lemma string_prefix_app p s : String.prefix p (p +:+ s) = true.
Proof.
  induction p as [|c p IH]; [by destruct s|]. rewrite string_app_cons. cbn.
  by destruct (ascii_dec c c).
Qed.

Lemma strip_prefix_app p s : ErrorCode.strip_prefix p (p +:+ s) = Some s.
Proof.
  unfold ErrorCode.strip_prefix. rewrite string_prefix_app, string_length_append.
  replace (String.length p + String.length s - String.length p)%nat
    with (String.length s) by lia. by rewrite substring_app_r.
Qed.

Lemma strip_suffix_app p s : strip_suffix s (p +:+ s) = Some p.
Proof.
  unfold strip_suffix. rewrite string_length_append.
  replace (String.length p + String.length s - String.length s)%nat
    with (String.length p) by lia.
  rewrite (proj2 (Nat.leb_le _ _)) by lia. rewrite substring_app_r, bool_decide_eq_true_2 by done.
  cbn. by rewrite substring_app_l.
Qed.

Lemma trim_end_slash_app s c : c ≠ "/"%char → trim_end_slash (s +:+ String c "") = s +:+ String c "".
Proof.
  intros Hc. induction s as [|d s IH]; [by rewrite string_app_nil; cbn; rewrite bool_decide_eq_false_2|].
  rewrite string_app_cons. cbn. rewrite IH. by destruct (s +:+ String c "") eqn:E; [destruct s|].
Qed.

Lemma strip_suffix_inj s p q : p +:+ s = q +:+ s → p = q.
Proof. intros E. pose proof (strip_suffix_app p s) as Hp. rewrite E, strip_suffix_app in Hp. congruence. Qed.

Lemma record_path_inj a b : record_path a = record_path b → a = b.
Proof. unfold record_path. intros E%string_app_inj%string_app_inj. by apply strip_suffix_inj in E. Qed.

Lemma record_path_not_metadata id : record_path id ≠ METADATA_FILENAME.
Proof. done. Qed.

(** The listing recovers the identifiers the uploads used, whatever they contain. *)
Lemma extract_record_id_roundtrip id :
  extract_record_id (record_path id) = if bool_decide (id = "") then None else Some id.
Proof.
  unfold extract_record_id.
  assert (trim_end_slash (record_path id) = record_path id) as ->.
  { unfold record_path. change ".json" with (".jso" +:+ "n").
    rewrite !string_app_assoc. by apply trim_end_slash_app. }
  unfold record_path. rewrite string_app_assoc, strip_prefix_app, strip_suffix_app.
  by repeat case_bool_decide.
Qed.

(** Two ways to split a string overlap. *)
Lemma string_app_split a b u v :
  a +:+ u = b +:+ v → (String.length v ≤ String.length u)%nat → ∃ s, u = s +:+ v.
Proof.
  revert b. induction a as [|c a IH]; intros b; rewrite ?string_app_nil, ?string_app_cons.
  - intros ->. eauto.
  - destruct b as [|d b]; rewrite ?string_app_nil, ?string_app_cons.
    + intros <- Hl. cbn in Hl. rewrite string_length_append in Hl. lia.
    + intros [= _ E]. eauto.
Qed.

Section temp_names.
Context `{L : Libs} `{!LibLaws}.

(** The names that the writes use on the way. *)
Definition is_temp (p : string) : Prop := ∃ final u, p = temp_name final (uuid_to_string u).

Lemma json_not_temp p : ¬ is_temp (p +:+ ".json").
Proof.
  intros (f & u & E). unfold temp_name in E. rewrite string_app_assoc in E. symmetry in E.
  apply string_app_split in E as [s E]; [by eapply uuid_no_extension|].
  rewrite uuid_length. cbn. lia.
Qed.

Lemma record_path_not_temp id : ¬ is_temp (record_path id).
Proof. unfold record_path. rewrite !string_app_assoc. apply json_not_temp. Qed.

Lemma metadata_not_temp : ¬ is_temp METADATA_FILENAME.
Proof. apply (json_not_temp ".metadata"). Qed.

End temp_names.

(** Replaces the outcome of each store call by what the laws say of it. *)
Ltac op_facts :=
  repeat match goal with
  | E : new_v4 _ = (_, _) |- _ => pose proof (new_v4_files _ _ _ E); clear E
  | E : now _ = (_, _) |- _ => pose proof (now_files _ _ _ E); clear E
  | E : op_write _ _ _ = (Ok _, _) |- _ => pose proof (write_ok _ _ _ _ _ E); clear E
  | E : op_write ?p _ _ = (Err _, _) |- _ =>
      pose proof (λ q, write_other p q _ _ _ _ E); clear E
  | E : op_rename _ _ _ = (Ok _, _) |- _ =>
      pose proof (λ b, rename_ok _ _ _ _ _ b E); clear E
  | E : op_rename _ _ _ = (Err _, _) |- _ =>
      pose proof (rename_err _ _ _ _ _ E); clear E
  | E : op_read _ _ = (Ok _, _) |- _ =>
      pose proof (read_ok _ _ _ _ E); pose proof (read_files _ _ _ _ E); clear E
  | E : op_read _ _ = (Err _, _) |- _ =>
      pose proof (read_not_found _ _ _ _ E); pose proof (read_files _ _ _ _ E); clear E
  | E : op_read _ _ = (?r, _) |- _ => is_var r; pose proof (read_files _ _ _ _ E); clear E
  | E : op_delete _ _ = (Ok _, _) |- _ => pose proof (delete_ok _ _ _ _ E); clear E
  | E : op_delete ?p _ = (Err _, _) |- _ =>
      pose proof (λ q, delete_other p q _ _ _ E); clear E
  | E : op_stat _ _ = _ |- _ => pose proof (stat_files _ _ _ _ E); clear E
  | E : op_list _ _ = _ |- _ => pose proof (list_files _ _ _ _ E); clear E
  end.

Ltac rewrite_store :=
  repeat match goal with
  | E : files ?w = _ |- context [files ?w] => rewrite E
  end.

(** Rewrites with the successful decodings among the hypotheses. *)
Ltac rewrite_ok :=
  match goal with
  | E : ?t = Ok _ |- context [?t] => rewrite E
  | E : ?t = Some _ |- context [?t] => rewrite E
  | E : ?t = None |- context [?t] => rewrite E
  end.

Ltac rewrite_in_files Hb :=
  repeat match goal with
  | E : files ?w = _ |- _ => lazymatch type of Hb with context [files w] => rewrite E in Hb end
  end.

Section properties.
Context {W : Type} `{L : Libs} `{SystemLaws W}.
Context `{Serde CloudMetadata} `{Serde CloudRecord}.

(** A write leaves the file with its old contents or all of the new ones, unless the
    provider is written to directly; success means the new ones; and only this file and
    temporary names of it change. *)
Lemma write_file_effect st final b w r w' :
  write_file st final b w = (r, w') →
  (prefers_direct_overwrite st = false →
     files w' !! final = files w !! final ∨ files w' !! final = Some b) ∧
  (r = Ok () → files w' !! final = Some b) ∧
  (∀ p, p ≠ final → (∀ u, p ≠ temp_name final (uuid_to_string u)) →
     files w' !! p = files w !! p).
Proof.
  unfold write_file, mapped. intros Hw. destruct (prefers_direct_overwrite st); run_io; op_facts.
  all: pose proof (temp_name_ne final) as Hne; try (match goal with
    | Hn : ∀ b, _ → files ?w' = _, F : files _ = <[_ := ?b]> _ |- _ =>
        specialize (Hn b); rewrite F in Hn; specialize (Hn (lookup_insert_eq _ _ _)) end).
  all: try (match goal with Hn : _ ∨ ∃ b, _ |- _ =>
    destruct Hn as [Hn|(? & Hb & Hn)]; [|rewrite_in_files Hb] end).
  all: rewrite_store.
  all: split_and!; intros; simplify_map_eq; auto.
  all: match goal with Hq : ∀ q, _ → _ !! q = _ |- _ => rewrite Hq by auto end.
  all: rewrite_store; auto.
Qed.

(** A write in terms of its effect on what a later read may see. *)
Lemma write_file_stored st final b w u w' :
  write_file st final b w = (Ok u, w') → files w' !! final = Some b.
Proof. destruct u. intros Hw. by apply write_file_effect in Hw as (_ & Hok & _); auto. Qed.

(** Uploads are atomic.  On a provider that renames, the record's file afterwards
    holds either its old contents or all of the new record, whatever failed on the way;
    an upload that reports success has stored the new record; and no file changes but
    this one and temporary names. *)
Lemma upload_record_atomic `{!LibLaws} st id record w r w' :
  upload_record st id record w = (r, w') →
  (prefers_direct_overwrite st = false →
     files w' !! record_path id = files w !! record_path id ∨
     ∃ json, to_json record = Ok json ∧ files w' !! record_path id = Some json) ∧
  (r = Ok () → ∃ json, to_json record = Ok json ∧ files w' !! record_path id = Some json) ∧
  (∀ p, ¬ is_temp p → p ≠ record_path id → files w' !! p = files w !! p).
Proof.
  unfold upload_record. intros Hu. run_io; [|by split_and!; [left|..]].
  match goal with E : write_file _ _ _ _ = _ |- _ =>
    apply write_file_effect in E as (Ha & Hok & Ho) end.
  split_and!.
  - intros Hd. destruct (Ha Hd); eauto.
  - eauto.
  - intros p Ht Hp. apply Ho; [done|]. intros n ->. destruct Ht. by eexists _, _.
Qed.

Lemma download_metadata_files st w r w' :
  download_metadata st w = (r, w') → files w' = files w.
Proof. unfold download_metadata, mapped. intros. run_io; by op_facts. Qed.

Lemma download_record_files st id w r w' :
  download_record st id w = (r, w') → files w' = files w.
Proof. unfold download_record, mapped. intros. run_io; by op_facts. Qed. 

(** What the contents of the store mean for a download of a record. *)
Definition download_outcome (fs : gmap string bytes) (id : string)
    (r : result (option CloudRecord) SyncError.t) : Prop :=
  match r with
  | Ok (Some record) => ∃ b, fs !! record_path id = Some b ∧ from_json b = Ok record
  | Ok None => fs !! record_path id = None
  | Err _ => True
  end.

Lemma map_opendal_not_found e p c x :
  map_opendal_error e p c = SyncError.RecordNotFound x → op_kind e = OpErrorKind.NotFound.
Proof. unfold map_opendal_error. by destruct (op_kind e). Qed.

Lemma download_record_outcome st id w r w' :
  download_record st id w = (r, w') → download_outcome (files w) id r.
Proof.
  unfold download_record, decode_record, mapped. intros. run_io; op_facts; cbn; try done.
  { destruct (from_json _) eqn:E; cbn; eauto. }
  match goal with E : map_opendal_error _ _ _ = _ |- _ =>
    apply map_opendal_not_found in E; auto end.
Qed.

(** What was uploaded is what is downloaded.  After an upload that reports
    success, a download of the same identifier returns the same record or an error;
    it never returns another record and never reports the record as missing. *)
Lemma upload_download_roundtrip `{!SerdeLaws CloudRecord} st id record w u w1 r w2 :
  upload_record st id record w = (Ok u, w1) → download_record st id w1 = (r, w2) →
  r = Ok (Some record) ∨ ∃ e, r = Err e.
Proof.
  unfold upload_record. intros Hu Hd%download_record_outcome. run_io.
  match goal with E : to_json _ = _, F : write_file _ _ _ _ = _ |- _ =>
    apply serde_roundtrip in E; apply write_file_stored in F; rename E into Hj, F into Hf end.
  destruct r as [[record'|]|e]; cbn in Hd; [|congruence|eauto].
  destruct Hd as (b & Hb & Hr). left. simplify_map_eq. congruence.
Qed.

(** The metadata that the file of the store decodes to. *)
Definition stored_metadata (fs : gmap string bytes) : option CloudMetadata :=
  b ← fs !! METADATA_FILENAME;
  s ← ok (from_utf8 b);
  m ← ok (from_json s);
  if is_ok (CloudMetadata.validate m) then Some m else None.

Lemma download_metadata_outcome st w r w' :
  download_metadata st w = (Ok r, w') →
  match r with
  | Some m => stored_metadata (files w) = Some m
  | None => files w !! METADATA_FILENAME = None
  end.
Proof.
  unfold download_metadata, CloudMetadata.deserialize_metadata, mapped. intros Hd.
  run_io; op_facts; simplify_eq.
  - unfold stored_metadata. by do 4 (rewrite_ok; cbn).
  - by eauto using map_opendal_not_found.
Qed.

Lemma upload_metadata_stored st m w u w' :
  upload_metadata st m w = (Ok u, w') →
  ∃ json, to_json m = Ok json ∧ files w' !! METADATA_FILENAME = Some json.
Proof.
  unfold upload_metadata, CloudMetadata.serialize_metadata. intros. run_io.
  eauto using write_file_stored.
Qed.

(** The push as a case analysis on the download it starts with. *)
Lemma push_metadata_inv st m expected w r w' :
  push_metadata_atomic st m expected w = (r, w') →
  ∃ d w1, download_metadata st w = (d, w1) ∧
    match d with
    | Ok remote =>
        if decide (default 0%Z (cm_metadata_version <$> remote) = expected)
        then upload_metadata st m w1 = (r, w')
        else is_ok r = false ∧ w' = w1
    | Err e => r = Err e ∧ w' = w1
    end.
Proof.
  unfold push_metadata_atomic, check_metadata_version. intros Hp.
  unfold ior_bind, io_bind, io_ret in Hp.
  destruct (download_metadata st w) as [[[c|]|e] w1]; eexists _, _; (split; [done|]); cbn;
    [case_decide as Hd; case_test..|]; naive_solver lia.
Qed.

Lemma upload_metadata_frame st m w r w' p :
  upload_metadata st m w = (r, w') → ¬ is_temp p → p ≠ METADATA_FILENAME →
  files w' !! p = files w !! p.
Proof.
  unfold upload_metadata. intros Hu Ht Hp. run_io; [|done].
  match goal with E : write_file _ _ _ _ = _ |- _ =>
    apply write_file_effect in E as (_ & _ & Ho) end.
  apply Ho; [done|]. intros n ->. destruct Ht. by eexists _, _.
Qed.

Lemma push_metadata_frame st m expected w r w' p :
  push_metadata_atomic st m expected w = (r, w') → ¬ is_temp p → p ≠ METADATA_FILENAME →
  files w' !! p = files w !! p.
Proof.
  intros (d & w1 & Hd & Hr)%push_metadata_inv Ht Hp.
  rewrite <- (download_metadata_files _ _ _ _ Hd).
  destruct d as [remote|e]; [|by destruct Hr as [_ ->]].
  case_decide; [by eapply upload_metadata_frame|by destruct Hr as [_ ->]].
Qed.

(** A push that succeeded found the expected version and left the pushed metadata. *)
Lemma push_metadata_ok st m expected w w' :
  push_metadata_atomic st m expected w = (Ok (), w') →
  match stored_metadata (files w) with
  | Some remote => cm_metadata_version remote = expected
  | None => expected = 0%Z ∧ files w !! METADATA_FILENAME = None
  end ∧ ∃ json, to_json m = Ok json ∧ files w' !! METADATA_FILENAME = Some json.
Proof.
  intros (d & w1 & Hd & Hr)%push_metadata_inv. destruct d as [remote|e]; [|by destruct Hr].
  apply download_metadata_outcome in Hd. case_decide as Hv; [|by destruct Hr].
  split; [|by eapply upload_metadata_stored].
  destruct remote as [c|]; [by rewrite Hd|]. unfold stored_metadata. by rewrite Hd.
Qed.

(** The version that a push expects: the one of the stored metadata, or zero where there is
    no file. *)
Definition finds_version (expected : Z) (fs : gmap string bytes) : Prop :=
  match stored_metadata fs with
  | Some remote => cm_metadata_version remote = expected
  | None => expected = 0%Z ∧ fs !! METADATA_FILENAME = None
  end.

(** A push during which another device does [other] between the two steps. *)
Definition push_around (other : io W ()) (st : CloudStorage) (m : CloudMetadata)
    (expected : Z) : ior W () SyncError.t :=
  let! _ := check_metadata_version st expected in
  let* _ := other in
  upload_metadata st m.

Lemma check_version_run st expected w c w1 :
  check_metadata_version st expected w = (c, w1) →
  files w1 = files w ∧ (c = Ok () → finds_version expected (files w)).
Proof.
  unfold check_metadata_version, ior_bind, io_bind, io_ret, finds_version.
  destruct (download_metadata st w) as [d w2] eqn:Hd. intros Hc.
  pose proof (download_metadata_files _ _ _ _ Hd) as Hf.
  destruct d as [[m|]|e]; [apply download_metadata_outcome in Hd..|by simplify_eq].
  - rewrite Hd. destruct (Z.eqb_spec (cm_metadata_version m) expected); by simplify_eq/=.
  - unfold stored_metadata. rewrite Hd. cbn.
    destruct (Z.eqb_spec expected 0); by simplify_eq/=.
Qed.

(** C16: the metadata push compares versions, and swaps only as long as no other device
    writes in between.  Over another version than the expected one (zero standing for no
    file) it fails and the store is as it was; a read that fails does nothing either.
    Otherwise, whatever another device does to the store after the check, a push that
    succeeds leaves exactly its own metadata, so that a version pushed in the meantime is
    replaced unseen, and no other file is touched.  Without another device the push is the
    two steps with nothing in between. *)
Theorem push_metadata_cas `{!LibLaws} other st m expected :
  push_metadata_atomic st m expected = push_around (io_ret ()) st m expected ∧
  ∀ w r w', push_around other st m expected w = (r, w') →
    (is_ok r = false ∧ files w' = files w) ∨
    finds_version expected (files w) ∧
    ∃ w1 w2, files w1 = files w ∧ other w1 = ((), w2) ∧
      (r = Ok () → ∃ json, to_json m = Ok json ∧ files w' !! METADATA_FILENAME = Some json) ∧
      (∀ p, ¬ is_temp p → p ≠ METADATA_FILENAME → files w' !! p = files w2 !! p).
Proof.
  split; [done|]. unfold push_around. intros w r w'. rewrite ior_bind_step.
  destruct (check_metadata_version st expected w) as [c w1] eqn:E.
  apply check_version_run in E as [Hf Hv]. destruct c as [[]|e]; [|by intros [= <- <-]; left].
  intros ([] & w2 & Ho & Hr)%io_bind_eq. right. split; [by apply Hv|]. exists w1, w2.
  split; [done|]. split; [done|]. split; [intros ->; by eapply upload_metadata_stored|].
  intros p Ht Hp. by eapply upload_metadata_frame.
Qed.

(** ** Batch download *)

Lemma run_downloads_ids st ids w res w' :
  run_downloads st ids w = (res, w') → res.*1 = ids.
Proof.
  revert w res w'. induction ids as [|id ids IH]; intros w res w' Hr; cbn in Hr; run_io; [done|].
  cbn. f_equal. eauto.
Qed.

Lemma run_downloads_outcomes st ids w res w' :
  run_downloads st ids w = (res, w') →
  files w' = files w ∧ Forall (λ d, download_outcome (files w) d.1 d.2) res.
Proof.
  revert w res w'. induction ids as [|id ids IH]; intros w res w' Hr; cbn in Hr; run_io; [done|].
  match goal with E : download_record _ _ _ = _ |- _ =>
    pose proof (download_record_files _ _ _ _ _ E) as Hf; apply download_record_outcome in E end.
  match goal with E : run_downloads _ _ _ = _ |- _ => apply IH in E as [Hf' Ho] end.
  rewrite Hf in Hf', Ho. auto.
Qed.

Lemma take_result_spec id res d rest :
  take_result id res = Some (d, rest) → d.1 = id ∧ res ≡ₚ d :: rest.
Proof.
  revert rest. induction res as [|d' res IH]; intros rest; cbn; [done|].
  case_bool_decide; [naive_solver|]. destruct (take_result id res) as [[??]|]; [|done].
  intros [= -> <-]. destruct (IH _ eq_refl) as [? ->]. split; [done|]. apply Permutation_swap.
Qed.

Lemma take_result_some id res d : d ∈ res → d.1 = id → is_Some (take_result id res).
Proof.
  induction res as [|d' res IH]; cbn; [by intros ?%elem_of_nil|].
  intros [->|Hin]%elem_of_cons Hd; case_bool_decide; [eauto|done|eauto|].
  destruct (IH Hin Hd) as [[??] ->]. eauto.
Qed.

Lemma order_results_ids ids res : (order_results ids res).*1 = ids.
Proof.
  revert res. induction ids as [|id ids IH]; intros res; cbn; [done|].
  destruct (take_result id res) as [[d rest]|] eqn:E; cbn; rewrite IH; [|done].
  by apply take_result_spec in E as [-> _].
Qed.

Lemma order_results_in ids res d :
  d ∈ order_results ids res →
  d ∈ res ∨ d.2 = Err (SyncError.RecordNotFound d.1).
Proof.
  revert res. induction ids as [|id ids IH]; intros res; cbn; [by intros ?%elem_of_nil|].
  destruct (take_result id res) as [[d' rest]|] eqn:E; intros [->|Hin]%elem_of_cons.
  - apply take_result_spec in E as [_ ->]. left. apply elem_of_cons. auto.
  - apply take_result_spec in E as [_ ->]. rewrite elem_of_cons. naive_solver.
  - by right.
  - eauto.
Qed.

(** Matching the results with the identifiers loses none when each identifier has
    one. *)
Lemma order_results_perm ids res : res.*1 ≡ₚ ids → order_results ids res ≡ₚ res.
Proof.
  revert res. induction ids as [|id ids IH]; intros res Hp; cbn.
  { by apply Permutation_nil_r, fmap_nil_inv in Hp as ->. }
  assert (id ∈ res.*1) as (d & Hd & Hin)%list_elem_of_fmap by (rewrite Hp; apply elem_of_cons; auto).
  destruct (take_result_some id res d Hin (eq_sym Hd)) as [[d' rest] E]. rewrite E.
  apply take_result_spec in E as [Hid Hr]. rewrite Hr in Hp |- *. constructor. apply IH.
  cbn in Hp. rewrite Hid in Hp. by apply (inj (cons id)) in Hp.
Qed.

Lemma collect_joined_in joined err d :
  d ∈ collect_joined joined err → Some d ∈ joined ∨ is_ok d.2 = false.
Proof.
  unfold collect_joined. intros ([d'|] & -> & Hin)%list_elem_of_fmap; auto.
Qed.

Lemma batch_download_effect schedule panics err st ids w res w' :
  batch_download_records schedule panics err st ids w = (res, w') → files w' = files w.
Proof.
  unfold batch_download_records, io_bind, io_ret. destruct (run_downloads _ _ w) as [l w1] eqn:E.
  intros [= _ <-]. exact (proj1 (run_downloads_outcomes _ _ _ _ _ E)).
Qed.

Lemma batch_download_spec schedule panics err st ids w res w' :
  batch_download_records schedule panics err st ids w = (res, w') →
  res.*1 = ids ∧ Forall (λ d, download_outcome (files w) d.1 d.2) res.
Proof.
  unfold batch_download_records. intros Hb. run_io.
  match goal with E : run_downloads _ _ _ = _ |- _ =>
    apply run_downloads_outcomes in E as [_ Ho] end.
  split; [apply order_results_ids|].
  apply Forall_forall. intros d [Hin|Hd]%order_results_in; [|by rewrite Hd].
  apply collect_joined_in in Hin as [(d' & Hp & Hin)%list_elem_of_fmap|Hd].
  - case_match; simplify_eq. by rewrite Forall_forall in Ho; apply Ho.
  - by destruct d as [? [?|?]].
Qed.

(** The batch download answers every request in the order of the requests,
    whatever order the tasks finish in and whichever of them panic: one entry per
    identifier, and an entry that claims a record, or claims there is none, says
    what the store holds for that identifier. *)
Lemma batch_download_complete schedule panics err st ids w res w' :
  batch_download_records schedule panics err st ids w = (res, w') →
  res.*1 = ids ∧ Forall (λ d, download_outcome (files w) d.1 d.2) res ∧ files w' = files w.
Proof.
  intros Hb. apply batch_download_spec in Hb as Hs. destruct Hs.
  split_and!; [done..|]. by eapply batch_download_effect.
Qed.

(** When no task panics the schedule is unobservable: the results are, in some
    order, those of downloading the identifiers in the order the tasks ran. *)
Lemma batch_download_schedule schedule panics err st ids w res w' :
  (∀ l, schedule l ≡ₚ l) → (∀ id, panics id = false) →
  batch_download_records schedule panics err st ids w = (res, w') →
  ∃ joined, run_downloads st (schedule ids) w = (joined, w') ∧ res ≡ₚ joined.
Proof.
  unfold batch_download_records. intros Hs Hp Hb. run_io. eexists. split; [done|].
  match goal with E : run_downloads _ _ _ = _ |- _ => apply run_downloads_ids in E as Hi end.
  assert (∀ l, collect_joined ((λ d, if panics d.1 then None else Some d) <$> l) err = l) as ->.
  { unfold collect_joined. intros js. induction js as [|d js IH]; [done|].
    rewrite !fmap_cons, Hp. exact (f_equal (cons d) IH). }
  apply order_results_perm. by rewrite Hi, Hs.
Qed.

End properties.
