(* ===== verification/Conflict.v ===== *)
(** * Conflicts and vault identity (src/sync/conflict.rs, src/sync/nonce_validator.rs)

    [ConflictManager] detects, stores and resolves conflicts and keeps no state;
    [NonceValidator] compares vault identity tokens. *)

From S2P Require Import Prelude Errors Env Types CloudRecord.

Module ConflictAction.
Inductive t : Set :=
| Conflict (local_version remote_version : Z)
| DownloadOnly
| UploadOnly
| NoAction.

#[global] Instance t_eq_dec : EqDecision t.
Proof. solve_decision. Defined.
End ConflictAction.

Module ResolutionAction.
Inductive t : Set := KeepLocal | KeepRemote.
End ResolutionAction.

Record ResolvedConflict : Set := mkResolvedConflict {
  rc_new_version : Z;
  rc_action : ResolutionAction.t;
}.

Record KeepRemoteData : Set := mkKeepRemoteData {
  kr_cloud_record : CloudRecord;
  kr_encrypted_data_base64 : string;
  kr_nonce_base64 : string;
  kr_dek_version : Z;
  kr_aad_json : string;
  kr_version : Z;
  kr_updated_at : string;
}.

Record ConflictItem : Set := mkConflictItem {
  ci_record_id : Uuid;
  ci_conflict_data : bytes;
  ci_current_version : Z;
}.

Module ResolutionStrategy.
Inductive t : Set := KeepLocal | KeepRemote.

#[global] Instance t_eq_dec : EqDecision t.
Proof. solve_decision. Defined.
End ResolutionStrategy.

Record ResolveOutcome : Set := mkResolveOutcome {
  ro_record_id : Uuid;
  ro_result : result ResolvedConflict SyncError.t;
}.

Module ConflictManager.

Definition detect_conflicts (local_sync_status : SyncStatus.t)
    (local_version remote_version : Z) : ConflictAction.t :=
  match local_sync_status, (remote_version ?= local_version)%Z with
  | SyncStatus.Pending, Gt => ConflictAction.Conflict local_version remote_version
  | SyncStatus.Synced, Gt => ConflictAction.DownloadOnly
  | SyncStatus.Pending, (Eq | Lt) => ConflictAction.UploadOnly
  | _, _ => ConflictAction.NoAction
  end.

Section s.
Context `{Libs} `{Serde ConflictPayload} `{Serde AadFields}.

Definition store_conflict (cloud_record : CloudRecord) (checksum : string)
  : result bytes SyncError.t :=
  let payload := mkConflictPayload cloud_record checksum in
  let? _ := ConflictPayload.validate payload in
  ConflictPayload.serialize payload.

Definition resolve_keep_local (current_version : Z) : ResolvedConflict :=
  mkResolvedConflict (wrap64 (current_version + 1)) ResolutionAction.KeepLocal.

Definition resolve_keep_remote (conflict_data : bytes)
  : result KeepRemoteData SyncError.t :=
  let? payload := ConflictPayload.deserialize conflict_data in
  let? _ := ConflictPayload.validate payload in
  let r := cp_cloud_record payload in
  let? aad_json :=
    map_err (λ e, SyncError.SerializationFailed ("failed to serialize AAD: " +:+ e))
      (to_json (cr_aad r)) in
  Ok (mkKeepRemoteData r (cr_encrypted_data r) (cr_nonce r) (cr_dek_version r) aad_json
        (cr_version r) (rm_updated_at (cr_metadata r))).

Definition resolve_one (strategy : ResolutionStrategy.t) (item : ConflictItem)
  : ResolveOutcome :=
  mkResolveOutcome (ci_record_id item)
    match strategy with
    | ResolutionStrategy.KeepLocal => Ok (resolve_keep_local (ci_current_version item))
    | ResolutionStrategy.KeepRemote =>
        res_map (λ kr, mkResolvedConflict (kr_version kr) ResolutionAction.KeepRemote)
          (resolve_keep_remote (ci_conflict_data item))
    end.

Definition resolve_all_batch (items : list ConflictItem) (strategy : ResolutionStrategy.t)
  : list ResolveOutcome :=
  resolve_one strategy <$> items.

End s.
End ConflictManager.

(** ** Vault identity *)

Module IdentityAction.
Inductive t : Set :=
| AllowSync
| AdoptRemoteToken (token : string)
| GenerateNewToken.
End IdentityAction.

Module NonceValidator.

Definition validate_identity (local_token remote_token : option string)
  : result IdentityAction.t SyncError.t :=
  match local_token, remote_token with
  | Some local, Some remote =>
      if bool_decide (local = remote) then Ok IdentityAction.AllowSync
      else Err (SyncError.VaultIdentityMismatch local remote)
  | None, Some remote => Ok (IdentityAction.AdoptRemoteToken remote)
  | Some _, None => Ok IdentityAction.GenerateNewToken
  | None, None => Ok IdentityAction.GenerateNewToken
  end.

(** [generate_token]: 24 bytes from the operating system's generator, in hex. *)
Definition generate_token {W} `{Libs} (try_fill_bytes : nat → ior W bytes string)
  : ior W string SyncError.t :=
  let! b := io_map_err (SyncError.ProviderError "rng") (try_fill_bytes 24) in
  io_ret (Ok (hex_encode b)).

End NonceValidator.

(** ** Properties *)

Section properties.
Context `{L : Libs} `{Serde ConflictPayload} `{Serde AadFields}.
Import ConflictManager.

(** Detection never loses a change.  A pending local change is overwritten by
    nothing: it is uploaded unless the remote is strictly newer, and then it is a
    conflict; only a synced record is replaced by a newer remote. *)
Lemma detect_conflicts_safe status l r :
  (status = SyncStatus.Pending →
     detect_conflicts status l r =
       if (l <? r)%Z then ConflictAction.Conflict l r else ConflictAction.UploadOnly) ∧
  (detect_conflicts status l r = ConflictAction.DownloadOnly ↔
     status = SyncStatus.Synced ∧ (l < r)%Z) ∧
  (status = SyncStatus.Conflict → detect_conflicts status l r = ConflictAction.NoAction).
Proof.
  unfold detect_conflicts. destruct status, (Z.compare_spec r l), (Z.ltb_spec l r); cbn;
    try lia; (split; [|split]); try done; split; intros; destruct_and?; done || lia.
Qed.

Lemma conflict_payload_validate p :
  ConflictPayload.validate p = Ok () ↔
  CloudRecord.validate (cp_cloud_record p) = Ok () ∧
  CloudRecord.checksum (cp_cloud_record p) = Ok (cp_checksum p).
Proof.
  unfold ConflictPayload.validate. split.
  - intros Hv. inv_ok Hv. case_test; [|done].
    by repeat match goal with u : () |- _ => destruct u | _ => subst end.
  - intros [-> Hc]. cbn. rewrite Hc. cbn. by rewrite bool_decide_eq_true_2.
Qed.

(** A stored conflict can be resolved in favour of the remote, and resolution
    gives back the record that was stored: the payload written by [store_conflict]
    passes the checks of [resolve_keep_remote], which returns its fields. *)
Lemma stored_conflict_resolves `{!SerdeLaws ConflictPayload} r checksum data aad_json :
  store_conflict r checksum = Ok data → to_json (cr_aad r) = Ok aad_json →
  resolve_keep_remote data =
    Ok (mkKeepRemoteData r (cr_encrypted_data r) (cr_nonce r) (cr_dek_version r) aad_json
          (cr_version r) (rm_updated_at (cr_metadata r))).
Proof.
  unfold store_conflict, resolve_keep_remote, ConflictPayload.serialize,
    ConflictPayload.deserialize. intros Hs Ha.
  inv_ok Hs. apply serde_roundtrip in Hs as ->. cbn.
  match goal with H : ConflictPayload.validate _ = Ok ?u |- _ => destruct u; rewrite H end.
  cbn. by rewrite Ha.
Qed.

(** Data that was tampered with is refused.  Whatever [resolve_keep_remote]
    returns is a valid record whose ciphertext has the checksum recorded with it. *)
Lemma keep_remote_checked data kr :
  resolve_keep_remote data = Ok kr →
  CloudRecord.validate (kr_cloud_record kr) = Ok () ∧
  ∃ p, ConflictPayload.deserialize data = Ok p ∧
    CloudRecord.checksum (kr_cloud_record kr) = Ok (cp_checksum p).
Proof.
  unfold resolve_keep_remote. intros Hr. inv_ok Hr. simplify_eq. cbn.
  match goal with H : ConflictPayload.validate _ = Ok ?u |- _ =>
    destruct u; apply conflict_payload_validate in H as [??] end. eauto.
Qed.

(** Batch resolution is independent per item: the outcomes correspond to the
    items one by one, keeping the local side always succeeds and bumps the version
    that item had, and one failing item changes no other outcome. *)
Lemma resolve_all_batch_pointwise items strategy i :
  length (resolve_all_batch items strategy) = length items ∧
  resolve_all_batch items strategy !! i = resolve_one strategy <$> items !! i ∧
  (strategy = ResolutionStrategy.KeepLocal →
   ∀ o, resolve_all_batch items strategy !! i = Some o →
   ∃ item, items !! i = Some item ∧ ro_record_id o = ci_record_id item ∧
     ro_result o = Ok (mkResolvedConflict (wrap64 (ci_current_version item + 1))
                         ResolutionAction.KeepLocal)).
Proof.
  unfold resolve_all_batch. rewrite length_fmap, list_lookup_fmap. split_and!; [done..|].
  intros -> o. destruct (items !! i) as [item|]; [|done]. cbn. intros [= <-]. by exists item.
Qed.

End properties.

(** Identity validation admits a sync only between equal tokens, and refuses
    two different ones. *)
Lemma validate_identity_sound l r :
  (NonceValidator.validate_identity l r = Ok IdentityAction.AllowSync ↔
     ∃ t, l = Some t ∧ r = Some t) ∧
  (is_ok (NonceValidator.validate_identity l r) = false ↔
     ∃ a b, l = Some a ∧ r = Some b ∧ a ≠ b).
Proof.
  unfold NonceValidator.validate_identity. destruct l as [a|], r as [b|];
    try case_bool_decide; cbn; split; split; try done; naive_solver.
Qed.
