(* ===== verification/Checkpoint.v ===== *)
(** * Sync checkpoints (src/sync/checkpoint.rs)

    The progress record of a sync run and its atomic persistence in the vault
    directory. *)

From S2P Require Import Prelude Text Errors Env.

Definition CHECKPOINT_FILENAME : string := ".sync_checkpoint.json".
Definition TEMP_SUFFIX : string := ".tmp".

Record PendingConflict : Set := mkPendingConflict {
  pc_record_id : Uuid;
  pc_local_version : Z;
  pc_remote_version : Z;
}.

#[export] Instance PendingConflict_eq_dec : EqDecision PendingConflict.
Proof. solve_decision. Defined.

Record SyncCheckpoint : Set := mkSyncCheckpoint {
  ck_vault_dir : string;
  ck_push_completed_ids : gset Uuid;
  ck_pull_completed_ids : gset Uuid;
  ck_detect_completed : bool;
  ck_pending_conflicts : list PendingConflict;
}.

#[export] Instance eta_SyncCheckpoint : Eta SyncCheckpoint := λ c,
  mkSyncCheckpoint (ck_vault_dir c) (ck_push_completed_ids c) (ck_pull_completed_ids c)
    (ck_detect_completed c) (ck_pending_conflicts c).

(** ** The local file system

    [std::fs] as the module uses it.  A failed write may leave anything in the file
    it wrote to; a rename either happened or did not. *)

Class Fs (W : Type) : Type := {
  fs_write : string → bytes → ior W () string;
  fs_rename : string → string → ior W () string;
  fs_read_to_string : string → ior W string string;
  fs_exists : string → io W bool;
  fs_remove_file : string → ior W () string;
}.

Class FsLaws (W : Type) `{Fs W} : Type := {
  fs_files : W → gmap string bytes;
  fs_write_ok p b w u w' :
    fs_write p b w = (Ok u, w') → fs_files w' = <[p := b]> (fs_files w);
  fs_write_other p q b w r w' :
    fs_write p b w = (r, w') → p ≠ q → fs_files w' !! q = fs_files w !! q;
  fs_rename_ok p q w u w' b :
    fs_rename p q w = (Ok u, w') → fs_files w !! p = Some b →
    fs_files w' = <[q := b]> (delete p (fs_files w));
  fs_rename_err p q w e w' : fs_rename p q w = (Err e, w') → fs_files w' = fs_files w;
  fs_read_files p w r w' : fs_read_to_string p w = (r, w') → fs_files w' = fs_files w;
  fs_read_ok p w b w' : fs_read_to_string p w = (Ok b, w') → fs_files w !! p = Some b;
  fs_exists_files p w b w' : fs_exists p w = (b, w') → fs_files w' = fs_files w;
  fs_exists_false p w w' : fs_exists p w = (false, w') → fs_files w !! p = None;
  fs_remove_ok p w u w' :
    fs_remove_file p w = (Ok u, w') → fs_files w' = delete p (fs_files w);
  fs_remove_other p q w r w' :
    fs_remove_file p w = (r, w') → p ≠ q → fs_files w' !! q = fs_files w !! q;
}.

(** [Path::join] of a directory and a file name. *)
Definition path_join (dir file : string) : string := dir +:+ "/" +:+ file.

Module SyncCheckpoint.

Definition checkpoint_path (vault_dir : string) : string :=
  path_join vault_dir CHECKPOINT_FILENAME.

Definition temp_path (vault_dir : string) : string :=
  path_join vault_dir (CHECKPOINT_FILENAME +:+ TEMP_SUFFIX).

Definition new (vault_dir : string) : SyncCheckpoint :=
  mkSyncCheckpoint vault_dir ∅ ∅ false [].

Definition is_complete (c : SyncCheckpoint) : bool :=
  ck_detect_completed c && bool_decide (ck_pending_conflicts c = []).

Definition record_push_done (id : Uuid) (c : SyncCheckpoint) : SyncCheckpoint :=
  c <| ck_push_completed_ids ::= λ s, {[id]} ∪ s |>.

Definition record_pull_done (id : Uuid) (c : SyncCheckpoint) : SyncCheckpoint :=
  c <| ck_pull_completed_ids ::= λ s, {[id]} ∪ s |>.

Definition add_pending_conflict (conflict : PendingConflict) (c : SyncCheckpoint)
  : SyncCheckpoint :=
  c <| ck_pending_conflicts ::= λ l, l ++ [conflict] |>.

Definition resolve_conflict (record_id : Uuid) (c : SyncCheckpoint)
  : bool * SyncCheckpoint :=
  let initial_len := length (ck_pending_conflicts c) in
  let c' := c <| ck_pending_conflicts ::= filter (λ p, pc_record_id p ≠ record_id) |> in
  ((length (ck_pending_conflicts c') <? initial_len)%nat, c').

Section io.
Context {W : Type} `{Fs W} `{Serde SyncCheckpoint}.

Definition save (c : SyncCheckpoint) : ior W () SyncError.t :=
  let temp := temp_path (ck_vault_dir c) in
  let final := checkpoint_path (ck_vault_dir c) in
  let! json := lift (map_err SyncError.SerializationFailed (to_json c)) in
  let! _ := io_map_err (λ e, SyncError.SerializationFailed
      ("failed to write temp checkpoint: " +:+ e)) (fs_write temp json) in
  let! _ := io_map_err (λ e, SyncError.SerializationFailed
      ("failed to rename temp to final checkpoint: " +:+ e)) (fs_rename temp final) in
  lift (Ok ()).

Definition load (vault_dir : string) : ior W SyncCheckpoint SyncError.t :=
  let path := checkpoint_path vault_dir in
  let! json := io_map_err (λ e, SyncError.SerializationFailed
      ("failed to read checkpoint: " +:+ e)) (fs_read_to_string path) in
  let! checkpoint := lift (map_err (λ e, SyncError.DeserializationFailed
      ("checkpoint corrupted: " +:+ e)) (from_json json)) in
  lift (Ok (checkpoint <| ck_vault_dir := vault_dir |>)).

(** [if path.exists() { std::fs::remove_file(path).map_err(..)?; }] *)
Definition remove_if_exists (path what : string) : ior W () SyncError.t :=
  let* b := fs_exists path in
  if b : bool then io_map_err (λ e, SyncError.SerializationFailed (what +:+ e))
                     (fs_remove_file path)
  else lift (Ok ()).

Definition cleanup (vault_dir : string) : ior W () SyncError.t :=
  let! _ := remove_if_exists (checkpoint_path vault_dir) "failed to remove checkpoint: " in
  let! _ := remove_if_exists (temp_path vault_dir) "failed to remove temp checkpoint: " in
  lift (Ok ()).

Definition from_corrupted_or_none (vault_dir : string) : io W SyncCheckpoint :=
  let path := checkpoint_path vault_dir in
  let* b := fs_exists path in
  if b : bool then
    let* r := load vault_dir in
    match r with
    | Ok checkpoint => io_ret checkpoint
    | Err _ => io_ret (new vault_dir)
    end
  else io_ret (new vault_dir).

End io.
End SyncCheckpoint.

(** ** Properties *)

Lemma checkpoint_paths_differ dir :
  SyncCheckpoint.temp_path dir ≠ SyncCheckpoint.checkpoint_path dir.
Proof.
  unfold SyncCheckpoint.temp_path, SyncCheckpoint.checkpoint_path, path_join.
  by intros E%string_app_inj%string_app_inj.
Qed.

(** [#[serde(skip)]] on the directory: it is not written and comes back empty. *)
Class CheckpointSerdeLaws `{Serde SyncCheckpoint} : Prop :=
  checkpoint_serde c s : to_json c = Ok s → from_json s = Ok (c <| ck_vault_dir := "" |>).

(** Replaces the outcome of each file-system call by what the laws say of it. *)
Ltac fs_facts :=
  repeat match goal with
  | E : fs_write ?p ?b ?w = (Ok _, _) |- _ =>
      pose proof (fs_write_ok _ _ _ _ _ E); clear E
  | E : fs_write ?p ?b ?w = (Err _, _) |- _ =>
      pose proof (λ q, fs_write_other p q _ _ _ _ E); clear E
  | E : fs_rename _ _ _ = (Err _, _) |- _ =>
      pose proof (fs_rename_err _ _ _ _ _ E); clear E
  | E : fs_read_to_string _ _ = (Ok _, _) |- _ =>
      pose proof (fs_read_ok _ _ _ _ E); pose proof (fs_read_files _ _ _ _ E); clear E
  | E : fs_read_to_string _ _ = (Err _, _) |- _ =>
      pose proof (fs_read_files _ _ _ _ E); clear E
  | E : fs_exists _ _ = (false, _) |- _ =>
      pose proof (fs_exists_false _ _ _ E); pose proof (fs_exists_files _ _ _ _ E); clear E
  | E : fs_exists _ _ = (true, _) |- _ => pose proof (fs_exists_files _ _ _ _ E); clear E
  | E : fs_remove_file ?p _ = (Ok _, _) |- _ =>
      pose proof (fs_remove_ok _ _ _ _ E); clear E
  end.

Ltac rewrite_files :=
  repeat match goal with
  | E : fs_files ?w = _ |- context [fs_files ?w] => rewrite E
  end.

Section io_properties.
Context {W : Type} `{FsLaws W} `{Serde SyncCheckpoint}.
Import SyncCheckpoint.

(** Saving a checkpoint is atomic.  Whatever fails on the way, the checkpoint
    file afterwards is either untouched or the complete new checkpoint; it is the
    new one when the save succeeds, and no other file than the temporary one
    changes. *)
Lemma checkpoint_save_atomic c w r w' :
  save c w = (r, w') →
  let final := checkpoint_path (ck_vault_dir c) in
  let temp := temp_path (ck_vault_dir c) in
  (fs_files w' !! final = fs_files w !! final ∨
     ∃ json, to_json c = Ok json ∧ fs_files w' !! final = Some json) ∧
  (r = Ok () → ∃ json, to_json c = Ok json ∧ fs_files w' !! final = Some json ∧
     fs_files w' !! temp = None) ∧
  (∀ p, p ≠ final → p ≠ temp → fs_files w' !! p = fs_files w !! p).
Proof.
  intros Hs final temp. pose proof (checkpoint_paths_differ (ck_vault_dir c)) as Hne.
  fold final in Hne. fold temp in Hne. unfold save in Hs. fold temp final in Hs. run_io; fs_facts.
  - match goal with E : fs_rename _ _ ?w1 = (Ok _, _), F : fs_files ?w1 = <[_ := ?b]> _ |- _ =>
      pose proof (fs_rename_ok _ _ _ _ _ b E) as Hr; rewrite F in Hr end.
    rewrite Hr by (by simplify_map_eq).
    split_and!; [right|intros _|]; intros; simplify_map_eq; eauto.
  - split_and!; [left|done|]; intros; rewrite_files; by simplify_map_eq.
  - split_and!; [left|done|intros]; by auto.
  - by split_and!; [left|..].
Qed.

Lemma checkpoint_dir_roundtrip c : (c <| ck_vault_dir := "" |>) <| ck_vault_dir := ck_vault_dir c |> = c.
Proof. by destruct c. Qed.

Lemma checkpoint_save_ok c w u w' :
  save c w = (Ok u, w') →
  ∃ json, to_json c = Ok json ∧ fs_files w' !! checkpoint_path (ck_vault_dir c) = Some json.
Proof.
  intros Hs. unfold save in Hs. run_io; fs_facts.
  match goal with E : fs_rename _ _ ?w1 = (Ok _, _), F : fs_files ?w1 = <[_ := ?b]> _ |- _ =>
    pose proof (fs_rename_ok _ _ _ _ _ b E) as Hr; rewrite F in Hr end.
  rewrite Hr by (by simplify_map_eq). simplify_map_eq. eauto.
Qed.

(** What was saved is what is loaded.  After a successful save, loading from the
    same directory returns the checkpoint itself or reports that the file could not
    be read; it never reports it as corrupt. *)
Lemma checkpoint_save_load `{!CheckpointSerdeLaws} c w w1 r w2 :
  save c w = (Ok (), w1) → load (ck_vault_dir c) w1 = (r, w2) →
  r = Ok c ∨ ∃ e, r = Err (SyncError.SerializationFailed ("failed to read checkpoint: " +:+ e)).
Proof.
  intros Hs Hl. apply checkpoint_save_ok in Hs as (json & Hj & Hf). apply checkpoint_serde in Hj.
  unfold load in Hl. run_io; fs_facts; simplify_map_eq; eauto;
    match goal with E : from_json ?j = _, F : from_json ?j = Ok _ |- _ =>
      rewrite F in E; simplify_eq end.
  left. f_equal. apply checkpoint_dir_roundtrip.
Qed.

End io_properties.

(** Resolving a conflict removes every pending entry of that record and no
    other, keeps the order of the rest, and reports whether there was one. *)
Lemma resolve_conflict_spec id c b c' :
  SyncCheckpoint.resolve_conflict id c = (b, c') →
  (∀ p, p ∈ ck_pending_conflicts c' ↔ p ∈ ck_pending_conflicts c ∧ pc_record_id p ≠ id) ∧
  ck_pending_conflicts c' `sublist_of` ck_pending_conflicts c ∧
  (b = true ↔ ∃ p, p ∈ ck_pending_conflicts c ∧ pc_record_id p = id).
Proof.
  unfold SyncCheckpoint.resolve_conflict. intros [= <- <-]. cbn -[Nat.ltb]. split_and!.
  - intros p. rewrite list_elem_of_filter. tauto.
  - apply sublist_filter.
  - rewrite Nat.ltb_lt. induction (ck_pending_conflicts c) as [|p l IH].
    + split; [cbn; lia|]. by intros (p & ?%elem_of_nil & _).
    + rewrite filter_cons. case_decide as Hp; rewrite ?length_cons.
      * rewrite <- Nat.succ_lt_mono, IH. setoid_rewrite elem_of_cons. naive_solver.
      * pose proof (length_filter (λ p, pc_record_id p ≠ id) l).
        split; [|lia]. intros _. exists p. split; [by apply elem_of_cons; left|].
        destruct (decide (pc_record_id p = id)); [done|by destruct Hp].
Qed.
