(* ===== verification/Retry.v ===== *)
(** * Retry policy (src/sync/retry.rs)

    Which errors are retried, and the exponential back-off with jitter, computed as
    the code does in [f64]: IEEE 754 binary64 in the Standard Library's [SpecFloat]. *)

From Stdlib Require Import Floats.SpecFloat.
From S2P Require Import Prelude Errors Env.

(** ** binary64 *)

Module F64.

Definition t : Set := spec_float.
Definition prec : Z := 53.
Definition emax : Z := 1024.

(** [z as f64], rounded to nearest even. *)
Definition of_int (z : Z) : t := binary_normalize prec emax z 0 false.
Definition mul : t → t → t := SFmul prec emax.
Definition add : t → t → t := SFadd prec emax.
Definition div : t → t → t := SFdiv prec emax.
Definition gt (x y : t) : bool := SFltb y x.

(** [f64::MAX] *)
Definition max : t := S754_finite false 9007199254740991 971.

Definition is_infinite (x : t) : bool :=
  match x with S754_infinity _ => true | _ => false end.

(** The truncation of a finite value. *)
Definition trunc (s : bool) (m : positive) (e : Z) : Z :=
  let n := if (0 <=? e)%Z then (Z.pos m * 2 ^ e)%Z else (Z.pos m / 2 ^ (- e))%Z in
  if s then (- n)%Z else n.

Definition i128_max : Z := 2 ^ 127 - 1.
Definition i128_min : Z := - 2 ^ 127.

(** [x as i128]: truncates, saturates, and sends NaN to zero. *)
Definition to_i128 (x : t) : Z :=
  match x with
  | S754_zero _ | S754_nan => 0
  | S754_infinity s => if s then i128_min else i128_max
  | S754_finite s m e => Z.max i128_min (Z.min i128_max (trunc s m e))
  end.

(** [f64::powi] by repeated squaring, as the compiler's run-time library has it. *)
Fixpoint powi_loop (fuel : nat) (r a : t) (b : Z) : t :=
  match fuel with
  | O => r
  | S fuel =>
      let r := if Z.odd b then mul r a else r in
      let b := Z.quot b 2 in
      if (b =? 0)%Z then r else powi_loop fuel r (mul a a) b
  end.

(** An [i32] exponent halves to zero in at most 32 steps. *)
Definition powi (a : t) (b : Z) : t :=
  let r := powi_loop 32 (of_int 1) a b in
  if (b <? 0)%Z then div (of_int 1) r else r.

End F64.

(** [n as i32] of a [u32] *)
Definition as_i32 (n : Z) : Z := if (n <? 2 ^ 31)%Z then n else (n - 2 ^ 32)%Z.

(** [Duration::as_secs_f64] of a duration in nanoseconds *)
Definition as_secs_f64 (d : Duration) : F64.t :=
  F64.add (F64.of_int (d / nanos_per_sec))
    (F64.div (F64.of_int (d mod nanos_per_sec)) (F64.of_int nanos_per_sec)).

(** ** Policies *)

Record RetryPolicy : Set := mkRetryPolicy {
  rp_max_retries : Z;
  rp_base_delay : Duration;
  rp_max_delay : Duration;
  rp_multiplier : F64.t;
  rp_jitter_fraction : F64.t;
}.

Module RetryPolicy.

(** [0.2] is the double nearest to a fifth. *)
Definition default : RetryPolicy :=
  mkRetryPolicy 5 (seconds 5) (seconds 300) (F64.of_int 2)
    (F64.div (F64.of_int 1) (F64.of_int 5)).

Definition should_retry (p : RetryPolicy) (error : SyncError.t) (attempt : Z) : bool :=
  match error with
  | SyncError.NetworkUnreachable _ => true
  | SyncError.NetworkTimeout _
  | SyncError.ConnectionRefused _
  | SyncError.LockAcquireFailed _
  | SyncError.ProviderError _ _ => (attempt <? rp_max_retries p)%Z
  | SyncError.AuthenticationFailed _
  | SyncError.TokenExpired
  | SyncError.ChecksumMismatch _ _ _
  | SyncError.AadInconsistent _ _ _
  | SyncError.SerializationFailed _
  | SyncError.DeserializationFailed _
  | SyncError.InvalidStateTransition _ _
  | SyncError.LockReleaseFailed _
  | SyncError.ProviderNotSupported _
  | SyncError.ConfigValidationFailed _ _
  | SyncError.VaultIdentityMismatch _ _
  | SyncError.MetadataVersionConflict _ _
  | SyncError.RecordNotFound _
  | SyncError.PermissionDenied _
  | SyncError.QuotaExceeded _
  | SyncError.Cancelled _ => false
  end.

(** What the delay depends on before the random offset is drawn: the capped delay,
    or the base and the half-width of the jitter in nanoseconds. *)
Inductive plan : Set :=
| Capped
| Jittered (base_ns jitter_ns : Z).

Definition delay_plan (p : RetryPolicy) (attempt : Z) : plan :=
  let multiplier_pow := F64.powi (rp_multiplier p) (as_i32 attempt) in
  let base_secs := as_secs_f64 (rp_base_delay p) in
  let max_delay_secs := as_secs_f64 (rp_max_delay p) in
  let raw_delay_secs :=
    if F64.is_infinite multiplier_pow || F64.gt multiplier_pow (F64.div F64.max base_secs)
    then F64.max else F64.mul base_secs multiplier_pow in
  if F64.is_infinite raw_delay_secs || F64.gt raw_delay_secs max_delay_secs then Capped
  else
    let jitter_range := F64.mul raw_delay_secs (rp_jitter_fraction p) in
    let jitter_ns := F64.to_i128 (F64.mul jitter_range (F64.of_int (10 ^ 9))) in
    let base_ns := F64.to_i128 (F64.mul raw_delay_secs (F64.of_int (10 ^ 9))) in
    if ((F64.i128_max / 2 <? jitter_ns) || (F64.i128_max / 2 <? base_ns))%Z then Capped
    else Jittered base_ns jitter_ns.

(** The random offset applied and the result capped. *)
Definition jittered_delay (p : RetryPolicy) (base_ns jitter_offset_ns : Z) : Duration :=
  let final_duration := wrap64 (Z.max 0 (base_ns + jitter_offset_ns)) in
  if (rp_max_delay p <? final_duration)%Z then rp_max_delay p else final_duration.

Section s.
Context {W : Type} `{System W}.

(** [None] is the panic of [random_range] on the empty range of a negative jitter. *)
Definition delay_for_attempt (p : RetryPolicy) (attempt : Z) : io W (option Duration) :=
  match delay_plan p attempt with
  | Capped => io_ret (Some (rp_max_delay p))
  | Jittered base_ns jitter_ns =>
      if (jitter_ns <? - jitter_ns)%Z then io_ret None
      else
        let* jitter_offset_ns := random_range (- jitter_ns)%Z jitter_ns in
        io_ret (Some (jittered_delay p base_ns jitter_offset_ns))
  end.

End s.

Definition reset (p : RetryPolicy) : Z := 0.

End RetryPolicy.

(** ** Timers *)

Record BackoffTimer : Set := mkBackoffTimer {
  bt_policy : RetryPolicy;
  bt_attempt : Z;
}.

#[export] Instance eta_BackoffTimer : Eta BackoffTimer := λ t,
  mkBackoffTimer (bt_policy t) (bt_attempt t).

Module BackoffTimer.

Definition new (policy : RetryPolicy) : BackoffTimer := mkBackoffTimer policy 0.

Definition next_delay {W} `{System W} (t : BackoffTimer)
  : io W (option (Duration * BackoffTimer)) :=
  let* delay := RetryPolicy.delay_for_attempt (bt_policy t) (bt_attempt t) in
  io_ret ((λ d, (d, t <| bt_attempt ::= λ n, wrap32 (n + 1) |>)) <$> delay).

Definition should_retry (t : BackoffTimer) (error : SyncError.t) : bool :=
  RetryPolicy.should_retry (bt_policy t) error (bt_attempt t).

Definition reset (t : BackoffTimer) : BackoffTimer := t <| bt_attempt := 0%Z |>.

End BackoffTimer.

(** ** Properties *)

(** The errors of a passing condition, retried a bounded number of times. *)
Definition transient (e : SyncError.t) : bool :=
  match e with
  | SyncError.NetworkTimeout _ | SyncError.ConnectionRefused _
  | SyncError.LockAcquireFailed _ | SyncError.ProviderError _ _ => true
  | _ => false
  end.

(** Exactly the network and lock errors are retried, and all but an unreachable
    network only while the attempt is below the limit. *)
Lemma should_retry_spec p e attempt :
  RetryPolicy.should_retry p e attempt = true ↔
  (∃ d, e = SyncError.NetworkUnreachable d) ∨
  transient e = true ∧ (attempt < rp_max_retries p)%Z.
Proof. destruct e; cbn; rewrite ?Z.ltb_lt; naive_solver lia. Qed.

(** ** Non-negative floats *)

Definition nonneg (x : F64.t) : Prop :=
  match x with
  | S754_zero s | S754_infinity s => s = false
  | S754_nan => True
  | S754_finite s _ _ => s = false
  end.

Lemma binary_round_aux_nonneg p e m ex l : nonneg (binary_round_aux p e false m ex l).
Proof.
  unfold binary_round_aux. destruct (shr_fexp _ _ _ _ _) as [m1 e1].
  destruct (shr_fexp _ _ _ _ _) as [m2 e2]. destruct (shr_m m2); cbn; [done| |done].
  by destruct (_ <=? _)%Z.
Qed.

Lemma mul_nonneg x y : nonneg x → nonneg y → nonneg (F64.mul x y).
Proof.
  destruct x as [?|?| |???], y as [?|?| |???]; cbn; intros; subst; try done.
  apply binary_round_aux_nonneg.
Qed.

Lemma of_int_nonneg z : (0 ≤ z)%Z → nonneg (F64.of_int z).
Proof.
  unfold F64.of_int, binary_normalize. destruct z as [|p|p]; cbn; [done| |lia].
  intros _. unfold binary_round. destruct (shl_align _ _ _). apply binary_round_aux_nonneg.
Qed.

Lemma div_nonneg x y : nonneg x → nonneg y → nonneg (F64.div x y).
Proof.
  destruct x as [?|?| |???], y as [?|?| |???]; cbn; intros; subst; try done.
  unfold F64.div. cbn. destruct (SFdiv_core_binary _ _ _ _ _ _) as [[??]?]. 
  apply binary_round_aux_nonneg.
Qed.

Lemma powi_nonneg a b : nonneg a → nonneg (F64.powi a b).
Proof.
  intros Ha. assert (∀ n r a b, nonneg r → nonneg a → nonneg (F64.powi_loop n r a b)) as Hl.
  { clear. induction n as [|n IH]; intros r a b Hr Ha; [done|]. cbn [F64.powi_loop].
    assert (nonneg (if Z.odd b then F64.mul r a else r)) as Hr'
      by (destruct (Z.odd b); auto using mul_nonneg).
    destruct (_ =? 0)%Z; [done|]. apply IH; [done|by apply mul_nonneg]. }
  assert (nonneg (F64.of_int 1)) by (by apply of_int_nonneg).
  unfold F64.powi. case_match; auto using div_nonneg.
Qed.

Lemma to_i128_nonneg x : nonneg x → (0 ≤ F64.to_i128 x)%Z.
Proof.
  destruct x as [?|?| |s m e]; cbn; intros; subst; [done|done|done|]. unfold F64.trunc, F64.i128_max.
  assert (0 ≤ if (0 <=? e)%Z then Z.pos m * 2 ^ e else Z.pos m / 2 ^ (- e))%Z; [|lia].
  case_match; [lia|]. apply Z.div_pos; [lia|]. apply Z.pow_pos_nonneg; lia.
Qed.

Section properties.
Context {W : Type} `{SystemLaws W}.

Lemma jittered_delay_max p base offset :
  (RetryPolicy.jittered_delay p base offset ≤ rp_max_delay p)%Z.
Proof. unfold RetryPolicy.jittered_delay. case_test; lia. Qed.

(** Whatever the policy, the attempt and the random draw, a delay is in range. *)
Lemma delay_range p attempt w d w' :
  (0 ≤ rp_max_delay p)%Z →
  RetryPolicy.delay_for_attempt p attempt w = (Some d, w') →
  (0 ≤ d ≤ rp_max_delay p)%Z.
Proof.
  unfold RetryPolicy.delay_for_attempt. intros Hmax Hd. run_io; [lia|].
  split; [|apply jittered_delay_max]. unfold RetryPolicy.jittered_delay.
  pose proof (wrap64_range (Z.max 0 (base_ns + z))) as Hw. unfold is_u64 in Hw.
  case_test; lia.
Qed.

(** The plan of the default policy, computed in binary64: five seconds doubled at each
    attempt with a fifth of jitter, and the cap from the sixth attempt on. *)
Lemma default_plan attempt :
  (0 ≤ attempt < 64)%Z →
  RetryPolicy.delay_plan RetryPolicy.default attempt =
    if (attempt <? 6)%Z
    then RetryPolicy.Jittered (seconds 5 * 2 ^ attempt) (seconds 1 * 2 ^ attempt)
    else RetryPolicy.Capped.
Proof.
  intros Ha.
  assert (∀ n, (n < 64)%nat →
    RetryPolicy.delay_plan RetryPolicy.default (Z.of_nat n) =
    if (Z.of_nat n <? 6)%Z
    then RetryPolicy.Jittered (seconds 5 * 2 ^ Z.of_nat n) (seconds 1 * 2 ^ Z.of_nat n)
    else RetryPolicy.Capped) as Hn.
  { intros n Hn. do 64 (destruct n as [|n]; [vm_compute; reflexivity|]). lia. }
  specialize (Hn (Z.to_nat attempt)). rewrite Z2Nat.id in Hn by lia. apply Hn. lia.
Qed.

(** The default policy backs off exponentially: it never panics, the delay of
    attempt [n] is within a fifth of [5 * 2^n] seconds, and from the sixth attempt on
    it is the maximum of 300 seconds. *)
Lemma default_delay attempt w r w' :
  (0 ≤ attempt < 64)%Z →
  RetryPolicy.delay_for_attempt RetryPolicy.default attempt w = (r, w') →
  ∃ d, r = Some d ∧
    if (attempt <? 6)%Z
    then (4 * 2 ^ attempt * nanos_per_sec ≤ d ≤ 6 * 2 ^ attempt * nanos_per_sec)%Z
    else d = seconds 300.
Proof.
  intros Ha. unfold RetryPolicy.delay_for_attempt. rewrite default_plan by done.
  destruct (Z.ltb_spec attempt 6) as [Hlt|]; [|unfold io_ret; intros [= <- <-]; eauto].
  assert (1 ≤ 2 ^ attempt ≤ 2 ^ 5)%Z as Hp.
  { split; [apply (Z.pow_le_mono_r 2 0)|apply Z.pow_le_mono_r]; lia. }
  generalize dependent (2 ^ attempt)%Z. intros x Hp. change (2 ^ 5)%Z with 32%Z in Hp.
  unfold seconds, nanos_per_sec in *. rewrite (proj2 (Z.ltb_ge _ _)) by lia. cbn.
  unfold io_bind, io_ret. destruct (random_range _ _ w) as [n w1] eqn:E. intros [= <- <-].
  apply random_range_in in E; [|lia]. eexists. split; [done|].
    unfold RetryPolicy.jittered_delay. rewrite wrap64_small; [|unfold is_u64; lia].
    cbn [rp_max_delay RetryPolicy.default]. unfold seconds, nanos_per_sec.
    case_test; lia.
Qed.

(** A policy whose parameters are not negative draws from a range that is not empty. *)
Lemma delay_never_panics p attempt w :
  nonneg (as_secs_f64 (rp_base_delay p)) → nonneg (rp_multiplier p) →
  nonneg (rp_jitter_fraction p) →
  (RetryPolicy.delay_for_attempt p attempt w).1 ≠ None.
Proof.
  intros Hb Hm Hj. unfold RetryPolicy.delay_for_attempt.
  destruct (RetryPolicy.delay_plan p attempt) as [|base jitter] eqn:E; [done|].
  assert (0 ≤ jitter)%Z as Hjn.
  { unfold RetryPolicy.delay_plan in E. cbv zeta in E.
    set (raw := if _ || _ then F64.max else _) in E.
    assert (nonneg raw) by (subst raw;
      match goal with |- nonneg (if ?b then _ else _) => destruct b end;
      [done|auto using mul_nonneg, powi_nonneg]).
    clearbody raw. case_match; [done|]. case_match; [done|]. simplify_eq.
    apply to_i128_nonneg. by repeat apply mul_nonneg. }
  case_test; [lia|]. unfold io_bind, io_ret. by destruct (random_range _ _ w).
Qed.

(** A timer counts its delays and keeps them in range: its attempt is the number of
    delays drawn since the last reset, modulo [2^32], and whatever the policy, the attempt
    and the random draw, a delay is neither negative nor above the maximum. *)
Lemma backoff_timer_counts t w d t' w' :
  (0 ≤ rp_max_delay (bt_policy t))%Z →
  BackoffTimer.next_delay t w = (Some (d, t'), w') →
  (0 ≤ d ≤ rp_max_delay (bt_policy t))%Z ∧ bt_policy t' = bt_policy t ∧
  bt_attempt t' = wrap32 (bt_attempt t + 1) ∧
  BackoffTimer.reset t' = BackoffTimer.new (bt_policy t).
Proof.
  unfold BackoffTimer.next_delay. intros Hmax Hn. unfold io_bind, io_ret in Hn.
  destruct (RetryPolicy.delay_for_attempt _ _ w) as [[d'|] w1] eqn:E; [|done].
  cbn in Hn. simplify_eq. apply delay_range in E; [|done].
  split; [done|]. by split_and!.
Qed.

End properties.
