(* ===== verification/Lock.v ===== *)
(** * The distributed lock (src/sync/lock.rs)

    One lock file per vault, with the holder's device and an expiry; [SyncLock]
    acquires, renews and releases it through the cloud storage. *)

From S2P Require Import Prelude Errors Env CloudMetadata Storage.

Definition LOCK_TTL_SECONDS : Z := 300.
Definition LOCK_ACQUIRE_TIMEOUT_SECONDS : Z := 30.
Definition LOCK_ACQUIRE_RETRY_INTERVAL_SECONDS : Z := 5.

Record LockFileData : Set := mkLockFileData {
  lf_device_id : string;
  lf_acquired_at : string;
  lf_expires_at : string;
}.

Record SyncLock : Set := mkSyncLock {
  sl_storage : CloudStorage;
  sl_device_id : string;
  sl_lock_ttl : Duration;
  sl_acquire_timeout : Duration;
  sl_retry_interval : Duration;
}.

(** [Duration::num_seconds] and [num_milliseconds] truncate towards zero. *)
Definition num_seconds (d : Duration) : Z := Z.quot d nanos_per_sec.
Definition num_milliseconds (d : Duration) : Z := Z.quot d nanos_per_milli.

Module SyncLock.

Definition new (storage : CloudStorage) (device_id : string) : SyncLock :=
  mkSyncLock storage device_id (seconds LOCK_TTL_SECONDS)
    (seconds LOCK_ACQUIRE_TIMEOUT_SECONDS) (seconds LOCK_ACQUIRE_RETRY_INTERVAL_SECONDS).

Definition with_timeouts (l : SyncLock) (lock_ttl acquire_timeout retry_interval : Duration)
  : SyncLock :=
  mkSyncLock (sl_storage l) (sl_device_id l) lock_ttl acquire_timeout retry_interval.

Section s.
Context {W : Type} `{Libs} `{Operator W} `{System W}.
Context `{Serde LockFileData}.

(** The lock file read as [SyncLock] reads it everywhere. *)
Definition parse_lock (data : bytes) : result LockFileData SyncError.t :=
  map_err (λ e, SyncError.DeserializationFailed ("lock file: " +:+ e)) (from_json data).

Definition create_lock_data (l : SyncLock) : io W LockFileData :=
  let* now := now in
  let expires := (now + sl_lock_ttl l)%Z in
  io_ret (mkLockFileData (sl_device_id l) (rfc3339_print now) (rfc3339_print expires)).

Definition is_expired (lock : LockFileData) : io W bool :=
  match rfc3339_parse (lf_expires_at lock) with
  | Some expires_utc =>
      let* now := now in
      io_ret (expires_utc <=? now)%Z
  | None => io_ret true
  end.

Definition upload_lock (l : SyncLock) (lock_data : LockFileData) : ior W () SyncError.t :=
  let! json := lift (map_err SyncError.SerializationFailed (to_json lock_data)) in
  let! _ := upload_raw (sl_storage l) LOCK_FILENAME json in
  io_ret (Ok ()).

(** [self.upload_lock(&self.create_lock_data()).await?; Ok(())] *)
Definition take_lock (l : SyncLock) : ior W () SyncError.t :=
  let* lock_data := create_lock_data l in
  let! _ := upload_lock l lock_data in
  io_ret (Ok ()).

(** What [try_acquire] does with the lock file it read. *)
Definition try_acquire_existing (l : SyncLock) (existing : option bytes)
  : ior W () SyncError.t :=
  match existing with
  | None => take_lock l
  | Some data =>
      let! lock_data := lift (parse_lock data) in
      let* expired := is_expired lock_data in
      if expired : bool then take_lock l
      else if bool_decide (lf_device_id lock_data = sl_device_id l) then take_lock l
      else io_ret (Err (SyncError.LockAcquireFailed
             ("lock held by device '" +:+ lf_device_id lock_data +:+ "' until "
               +:+ lf_expires_at lock_data)))
  end.

Definition try_acquire (l : SyncLock) : ior W () SyncError.t :=
  let! existing := download_raw (sl_storage l) LOCK_FILENAME in
  try_acquire_existing l existing.

(** The loop of [acquire]; [None] when the fuel runs out. *)
Fixpoint acquire_loop (fuel : nat) (l : SyncLock) (start : Instant)
  : io W (option (result () SyncError.t)) :=
  match fuel with
  | O => io_ret None
  | S fuel =>
      let* now := now in
      let elapsed := (now - start)%Z in
      if (num_seconds (sl_acquire_timeout l) <=? num_seconds elapsed)%Z then
        io_ret (Some (Err (SyncError.LockAcquireFailed
          ("timeout after " +:+ duration_debug (sl_acquire_timeout l)
            +:+ " waiting for lock"))))
      else
        let* r := try_acquire l in
        match r with
        | Ok _ => io_ret (Some (Ok ()))
        | Err (SyncError.LockAcquireFailed _) =>
            let remaining := (sl_acquire_timeout l - elapsed)%Z in
            let sleep_duration :=
              if (remaining <? sl_retry_interval l)%Z then remaining
              else sl_retry_interval l in
            if (0 <? num_milliseconds sleep_duration)%Z then
              let* _ := sleep (num_milliseconds sleep_duration * nanos_per_milli)%Z in
              acquire_loop fuel l start
            else acquire_loop fuel l start
        | Err e => io_ret (Some (Err e))
        end
  end.

Definition acquire (fuel : nat) (l : SyncLock) : io W (option (result () SyncError.t)) :=
  let* start := now in
  acquire_loop fuel l start.

Definition release (l : SyncLock) : ior W () SyncError.t :=
  let! existing := download_raw (sl_storage l) LOCK_FILENAME in
  match existing with
  | None => io_ret (Ok ())
  | Some data =>
      let! lock_data := lift (parse_lock data) in
      if bool_decide (lf_device_id lock_data = sl_device_id l) then
        let! _ := delete_raw (sl_storage l) LOCK_FILENAME in
        io_ret (Ok ())
      else io_ret (Ok ())
  end.

Definition is_locked (l : SyncLock) : ior W bool SyncError.t :=
  let! existing := download_raw (sl_storage l) LOCK_FILENAME in
  match existing with
  | None => io_ret (Ok false)
  | Some data =>
      let! lock_data := lift (parse_lock data) in
      let* expired := is_expired lock_data in
      io_ret (Ok (negb expired))
  end.

Definition is_locked_by_self (l : SyncLock) : ior W bool SyncError.t :=
  let! existing := download_raw (sl_storage l) LOCK_FILENAME in
  match existing with
  | None => io_ret (Ok false)
  | Some data =>
      let! lock_data := lift (parse_lock data) in
      let* expired := is_expired lock_data in
      if expired : bool then io_ret (Ok false)
      else io_ret (Ok (bool_decide (lf_device_id lock_data = sl_device_id l)))
  end.

End s.
End SyncLock.

(** ** Properties *)

(** What the laws of the clock say of each call. *)
Ltac clock_facts :=
  repeat match goal with
  | E : now _ = (_, _) |- _ => learn (now_clock _ _ _ E)
  | E : sleep _ _ = (_, _) |- _ => learn (sleep_clock _ _ _ _ E)
  | E : op_read _ _ = (_, _) |- _ => learn (read_clock _ _ _ _ E)
  | E : op_write _ _ _ = (_, _) |- _ => learn (write_clock _ _ _ _ _ E)
  | E : op_delete _ _ = (_, _) |- _ => learn (delete_clock _ _ _ _ E)
  end; destruct_and?; simplify_eq; pose proof latency_positive.

Section properties.
Context {W : Type} `{L : Libs} `{!LibLaws} `{HSys : System W} `{HOp : Operator W}.
Context `{!OperatorLaws W} `{!SystemLaws W} `{!ClockLaws W}.
Context `{HS : Serde LockFileData} `{!SerdeLaws LockFileData}.
Import SyncLock.

(** The lock file names [device] as the holder until the instant [until]. *)
Definition held_by (fs : gmap string bytes) (device : string) (until : Instant) : Prop :=
  ∃ b lock, fs !! LOCK_FILENAME = Some b ∧ from_json b = Ok lock ∧
    lf_device_id lock = device ∧ rfc3339_parse (lf_expires_at lock) = Some until.

Lemma download_raw_outcome st p w r w' :
  download_raw st p w = (r, w') →
  files w' = files w ∧ (clock w + latency ≤ clock w')%Z ∧
  match r with
  | Ok c => files w !! p = c
  | Err _ => True
  end.
Proof.
  unfold download_raw, not_found_as, ior_map, mapped. intros.
  run_io; clock_facts; op_facts; try done; split_and!; eauto using map_opendal_not_found.
Qed.

Lemma take_lock_spec l w r w' :
  take_lock l w = (r, w') →
  (clock w ≤ clock w')%Z ∧
  (r = Ok () → printable_instant (clock w + sl_lock_ttl l) →
     held_by (files w') (sl_device_id l) (clock w + sl_lock_ttl l)).
Proof.
  unfold take_lock, create_lock_data, upload_lock, upload_raw, mapped. intros.
  run_io; clock_facts; op_facts; (split; [lia|intros; simplify_eq]).
  match goal with E : to_json _ = Ok _ |- _ => apply serde_roundtrip in E as Hj end.
  eexists _, _. rewrite_store. rewrite lookup_insert_eq. split_and!; [done|exact Hj|done|].
  by apply rfc3339_roundtrip.
Qed.

(** The facts of the lemmas above for the calls of a run. *)
Ltac lock_facts :=
  repeat match goal with
  | E : download_raw _ _ _ = (_, _) |- _ =>
      let Hf := fresh "Hf" in let Hc := fresh "Hc" in let Hr := fresh "Hr" in
      apply download_raw_outcome in E as (Hf & Hc & Hr)
  | E : take_lock _ _ = (_, _) |- _ => learn (proj1 (take_lock_spec _ _ _ _ E))
  end; clock_facts; cbn beta iota in *.

Lemma try_acquire_clock l w r w' :
  try_acquire l w = (r, w') → (clock w + latency ≤ clock w')%Z.
Proof.
  unfold try_acquire, try_acquire_existing, is_expired. intros.
  run_io; lock_facts; lia.
Qed.

(** A successful attempt leaves the lock with this device, from an instant within the
    attempt. *)
Lemma try_acquire_ok l w w' :
  try_acquire l w = (Ok (), w') →
  ∃ t, (clock w ≤ t ≤ clock w')%Z ∧
    (printable_instant (t + sl_lock_ttl l) →
     held_by (files w') (sl_device_id l) (t + sl_lock_ttl l)).
Proof.
  unfold try_acquire, try_acquire_existing, is_expired. intros.
  run_io; lock_facts; match goal with E : take_lock _ ?w1 = _ |- _ =>
    exists (clock w1); split; [lia|]; by apply take_lock_spec in E as [_ ?]; auto end.
Qed.

Lemma try_acquire_refused l w r w' device until :
  held_by (files w) device until → device ≠ sl_device_id l → (clock w' < until)%Z →
  try_acquire l w = (r, w') → is_ok r = false ∧ files w' = files w.
Proof.
  intros (b & lock & Hb & Hj & Hd & Hu) Hne Hlt.
  unfold try_acquire, try_acquire_existing, is_expired, parse_lock. intros Ht.
  run_io; lock_facts; simplify_map_eq; merge_eqs; op_facts; rewrite_store;
    reflect_bools;
    first [done | lia].
Qed.

Lemma acquire_loop_clock fuel l start w r w' :
  acquire_loop fuel l start w = (r, w') → (clock w ≤ clock w')%Z.
Proof.
  revert w. induction fuel as [|fuel IH]; intros w Ha; cbn in Ha; run_io; clock_facts;
    repeat match goal with
    | E : try_acquire _ _ = _ |- _ => apply try_acquire_clock in E
    | E : acquire_loop _ _ _ _ = _ |- _ => apply IH in E
    end; lia.
Qed.

(** One round of the loop. *)
Lemma acquire_loop_step fuel l start w r w' :
  acquire_loop (S fuel) l start w = (r, w') →
  ∃ w1, files w1 = files w ∧ (clock w ≤ clock w1)%Z ∧
    ((∃ e, r = Some (Err e)) ∧ w' = w1 ∨
     (clock w < start + sl_acquire_timeout l)%Z ∧
     ∃ ra w2, try_acquire l w1 = (ra, w2) ∧
       (r = Some ra ∧ w' = w2 ∨
        is_ok ra = false ∧
        ∃ w3, files w3 = files w2 ∧ (clock w2 ≤ clock w3)%Z ∧
          acquire_loop fuel l start w3 = (r, w'))).
Proof.
  cbn [acquire_loop]. unfold io_bind, io_ret. intros Ha.
  destruct (now w) as [t w1] eqn:En. clock_facts. exists w1.
  split; [by eapply now_files|]. split; [lia|].
  destruct (Z.leb_spec (num_seconds (sl_acquire_timeout l)) (num_seconds (clock w - start)));
    [left; naive_solver|]. right.
  split. { unfold num_seconds in *. apply Z.nle_gt. intros Hle.
    pose proof (Z.quot_le_mono (sl_acquire_timeout l) (clock w - start) nanos_per_sec).
    unfold nanos_per_sec in *. lia. }
  destruct (try_acquire l w1) as [ra w2]. exists ra, w2. split; [done|].
  destruct ra as [[]|e]; [naive_solver|]. destruct e; try naive_solver. right. split; [done|].
  case_match; [|by eauto with lia].
  destruct (sleep _ w2) as [u w3] eqn:Es. exists w3. clock_facts.
  split_and!; [by eapply sleep_files|lia|done].
Qed.

Lemma acquire_loop_refused fuel l start w r w' device until :
  held_by (files w) device until → device ≠ sl_device_id l → (clock w' < until)%Z →
  acquire_loop fuel l start w = (r, w') → r ≠ Some (Ok ()) ∧ files w' = files w.
Proof.
  intros Hh Hne. revert w Hh. induction fuel as [|fuel IH]; intros w Hh Hlt Ha;
    [by cbn in Ha; run_io|].
  apply acquire_loop_step in Ha as (w1 & Hf & Hc & [[[e ->] ->]|(_ & ra & w2 & Ht & Hr)]);
    [done|]. rewrite <- Hf in Hh |- *.
  destruct Hr as [[-> ->]|(_ & w3 & Hf3 & Hc3 & Ha)].
  - destruct (try_acquire_refused _ _ _ _ _ _ Hh Hne Hlt Ht) as [? ?]. by destruct ra.
  - assert (clock w2 < until)%Z as Hlt2 by (apply acquire_loop_clock in Ha; lia).
    destruct (try_acquire_refused _ _ _ _ _ _ Hh Hne Hlt2 Ht) as [_ Hf2].
    rewrite <- Hf2, <- Hf3 in Hh |- *. eauto.
Qed.

Lemma acquire_loop_ok fuel l start w w' :
  acquire_loop fuel l start w = (Some (Ok ()), w') →
  ∃ t, (clock w ≤ t ≤ clock w')%Z ∧
    (printable_instant (t + sl_lock_ttl l) →
     held_by (files w') (sl_device_id l) (t + sl_lock_ttl l)).
Proof.
  revert w. induction fuel as [|fuel IH]; intros w Ha; [by cbn in Ha; run_io|].
  apply acquire_loop_step in Ha as (w1 & Hf & Hc & [[[e ?] _]|(_ & ra & w2 & Ht & Hr)]); [done|].
  destruct Hr as [[? ->]|(_ & w3 & Hf3 & Hc3 & Ha)]; simplify_eq.
  - apply try_acquire_ok in Ht as (t & ? & ?). exists t. split; [lia|done].
  - apply IH in Ha as (t & ? & ?). apply try_acquire_clock in Ht.
    pose proof latency_positive. exists t. split; [lia|done].
Qed.

(** C17: the lock excludes.  Once a device has acquired it, no acquisition by another
    device that finishes before the expiry succeeds, however often it retries, and
    none of them changes the store. *)
Theorem lock_mutual_exclusion a b fuel fuel' w w1 r w2 :
  acquire fuel a w = (Some (Ok ()), w1) → acquire fuel' b w1 = (r, w2) →
  sl_device_id a ≠ sl_device_id b →
  printable_instant (clock w1 + sl_lock_ttl a) → (0 ≤ clock w + sl_lock_ttl a)%Z →
  (clock w2 < clock w + sl_lock_ttl a)%Z →
  r ≠ Some (Ok ()) ∧ files w2 = files w1.
Proof.
  unfold acquire, io_bind. intros Ha Hb Hne Hp Hp0 Hlt.
  destruct (now w) as [s0 w0] eqn:E0, (now w1) as [s1 w1'] eqn:E1. clock_facts.
  apply acquire_loop_ok in Ha as (t & Ht & Hh).
  rewrite <- (now_files _ _ _ E1) in Hh |- *.
  eapply (acquire_loop_refused _ _ _ _ _ _ _ (t + sl_lock_ttl a)); [apply Hh| | |done].
  - unfold printable_instant in *. lia.
  - done.
  - lia.
Qed.

Lemma acquire_loop_total fuel l start w :
  (start + sl_acquire_timeout l ≤ clock w + latency * Z.of_nat fuel)%Z →
  ∃ r w', acquire_loop (S fuel) l start w = (Some r, w').
Proof.
  revert w. induction fuel as [|fuel IH]; intros w Hf;
    destruct (acquire_loop (S _) l start w) as [r w'] eqn:Ha;
    pose proof Ha as (w1 & _ & Hc & [[[e ->] ->]|(Hlt & ra & w2 & Ht & Hr)])%acquire_loop_step;
    eauto; pose proof latency_positive; [lia|].
  destruct Hr as [[-> ->]|(_ & w3 & _ & Hc3 & Ha3)]; [eauto|].
  apply try_acquire_clock in Ht. destruct (IH w3) as (r3 & w3' & E); [lia|].
  rewrite E in Ha3. simplify_eq. eauto.
Qed.

(** C38: acquisition terminates.  With requests that take at least [latency], as many
    rounds as fit into the timeout, and one more, are enough for an answer. *)
Theorem acquire_terminates l fuel w :
  (sl_acquire_timeout l ≤ latency * Z.of_nat fuel)%Z →
  ∃ r w', acquire (S fuel) l w = (Some r, w').
Proof.
  unfold acquire, io_bind. intros Hf. destruct (now w) as [t w1] eqn:E. clock_facts.
  apply acquire_loop_total. lia.
Qed.

(** The lock file parses and names this device. *)
Definition owns (l : SyncLock) (fs : gmap string bytes) : Prop :=
  ∃ b lock, fs !! LOCK_FILENAME = Some b ∧ from_json b = Ok lock ∧
    lf_device_id lock = sl_device_id l.

Lemma delete_raw_spec st p w r w' :
  delete_raw st p w = (r, w') →
  (r = Ok () → files w' !! p = None) ∧ (∀ q, q ≠ p → files w' !! q = files w !! q).
Proof.
  unfold delete_raw, not_found_as, mapped. intros.
  destruct (op_delete p w) as [[u|e] w1] eqn:E; run_io;
    (split; [try done; intros _|by intros; eapply delete_other]).
  - erewrite delete_ok by done. apply lookup_delete_eq.
  - by eauto using delete_not_found, map_opendal_not_found.
Qed.

Lemma release_cases l w r w' :
  release l w = (r, w') →
  (files w' = files w ∧ (r = Ok () → ¬ owns l (files w))) ∨
  (owns l (files w) ∧ (r = Ok () → files w' !! LOCK_FILENAME = None) ∧
     ∀ p, p ≠ LOCK_FILENAME → files w' !! p = files w !! p).
Proof.
  unfold release, parse_lock, owns. intros.
  run_io; repeat match goal with
  | E : download_raw _ _ _ = _ |- _ => apply download_raw_outcome in E as (Hf & _ & ?)
  | E : delete_raw _ _ _ = _ |- _ => apply delete_raw_spec in E as [??]
  end; reflect_bools; rewrite ?Hf in *; try naive_solver.
  left. split; [done|]. intros _ (b & lock & ? & ? & ?). simplify_eq. by merge_eqs.
Qed.

(** A device releases its own lock only.  A release that reports success leaves
    no lock of this device; the lock of another device is never touched; and a second
    release changes nothing. *)
Lemma release_own_lock l w r w' :
  release l w = (r, w') →
  (r = Ok () → ¬ owns l (files w')) ∧
  (∀ device until, held_by (files w) device until → device ≠ sl_device_id l →
     files w' = files w) ∧
  (∀ p, p ≠ LOCK_FILENAME → files w' !! p = files w !! p) ∧
  (∀ r2 w2, r = Ok () → release l w' = (r2, w2) → files w2 = files w').
Proof.
  intros Hr. assert (r = Ok () → ¬ owns l (files w')) as Hno.
  { destruct (release_cases _ _ _ _ Hr) as [[-> Hn]|(_ & Hn & _)]; [done|].
    intros Hok (b & lock & Hb & _). rewrite Hn in Hb; done. }
  split_and!; [done| | |].
  - intros device until (b & lock & Hb & Hj & Hd & _) Hne.
    destruct (release_cases _ _ _ _ Hr) as [[-> _]|((b' & lock' & ? & ? & ?) & _)]; [done|].
    simplify_map_eq. by merge_eqs.
  - intros p Hp. destruct (release_cases _ _ _ _ Hr) as [[-> _]|(_ & _ & Ho)]; auto.
  - intros r2 w2 Hok Hr2. destruct (release_cases _ _ _ _ Hr2) as [[-> _]|(Ho & _)]; [done|].
    by destruct (Hno Hok).
Qed.
End properties.
