(* ===== verification/Pipeline.v ===== *)
(** * The sync pipeline: context, pull and detect (src/sync/pipeline.rs)

    The context that the stages thread through a run, the stage that downloads and
    checks the remote metadata, and the stage that classifies the records. *)

From S2P Require Import Prelude Errors Env Types CloudRecord CloudMetadata Storage.
From S2P Require Import Conflict Checkpoint.

Module StageOutcome.
Inductive t : Type :=
| Continue
| ConflictDetected (conflict_ids : list string)
| Error (e : SyncError.t)
| NoChanges.
End StageOutcome.

Record LocalRecordInfo : Set := mkLocalRecordInfo {
  lr_record_id : string;
  lr_sync_status : SyncStatus.t;
  lr_version : Z;
}.

(** [conflict_manager] is a field without state and is left out. *)
Record PipelineContext : Type := mkPipelineContext {
  pl_storage : CloudStorage;
  pl_checkpoint : SyncCheckpoint;
  pl_remote_metadata : option CloudMetadata;
  pl_last_remote_metadata : option CloudMetadata;
  pl_local_metadata_version : Z;
  pl_local_vault_token : string;
  pl_to_upload : list string;
  pl_to_download : list string;
  pl_conflicts : list string;
  pl_failed_ids : list string;
  pl_uploads : list CloudRecord;
  pl_downloads : gmap string CloudRecord;
  pl_uploaded_ids : list string;
  pl_final_metadata : option CloudMetadata;
  pl_conflict_data_map : gmap string bytes;
  pl_local_records : list LocalRecordInfo;
  pl_downloaded_health_states : list RecordHealthState;
  pl_downloaded_health_deleted : list Uuid;
}.

#[export] Instance eta_PipelineContext : Eta PipelineContext := λ c,
  mkPipelineContext (pl_storage c) (pl_checkpoint c) (pl_remote_metadata c)
    (pl_last_remote_metadata c) (pl_local_metadata_version c) (pl_local_vault_token c)
    (pl_to_upload c) (pl_to_download c) (pl_conflicts c) (pl_failed_ids c) (pl_uploads c)
    (pl_downloads c) (pl_uploaded_ids c) (pl_final_metadata c) (pl_conflict_data_map c)
    (pl_local_records c) (pl_downloaded_health_states c) (pl_downloaded_health_deleted c).

(** ** The runtime

    What the standard library and tokio leave open: the iteration order of a
    [HashMap], and the order, panics and join errors of the tasks of a [JoinSet]; and the
    directory [std::env::temp_dir] names. *)

Class Runtime : Type := {
  hash_order {A} : gmap string A → list (string * A);
  task_schedule : list string → list string;
  task_panics : string → bool;
  join_error : string;
  temp_dir : string;
}.

Class RuntimeLaws `{Runtime} : Prop := {
  hash_order_perm {A} (m : gmap string A) : hash_order m ≡ₚ map_to_list m;
  task_schedule_perm l : task_schedule l ≡ₚ l;
}.

Module PipelineContext.

Definition new (storage : CloudStorage) (checkpoint : SyncCheckpoint)
    (local_metadata_version : Z) (local_vault_token : string) : PipelineContext :=
  mkPipelineContext storage checkpoint None None local_metadata_version local_vault_token
    [] [] [] [] [] ∅ [] None ∅ [] [] [].

Definition set_local_records (records : list LocalRecordInfo) (c : PipelineContext)
  : PipelineContext := c <| pl_local_records := records |>.

Definition set_uploads (records : list CloudRecord) (c : PipelineContext)
  : PipelineContext := c <| pl_uploads := records |>.

Definition set_last_remote_metadata (metadata : option CloudMetadata) (c : PipelineContext)
  : PipelineContext := c <| pl_last_remote_metadata := metadata |>.

Definition private_metadata_changed_since_last_snapshot (c : PipelineContext)
    (record_id : string) (remote : RecordVersionInfo) : bool :=
  match ri_private_metadata_checksum remote with
  | None => false
  | Some remote_checksum =>
      let previous_checksum :=
        metadata ← pl_last_remote_metadata c;
        info ← cm_records metadata !! record_id;
        ri_private_metadata_checksum info in
      match previous_checksum with
      | Some previous => negb (bool_decide (previous = remote_checksum))
      | None =>
          match pl_remote_metadata c with
          | Some metadata => (pl_local_metadata_version c <? cm_metadata_version metadata)%Z
          | None => false
          end
      end
  end.

End PipelineContext.

Section stages.
Context {W : Type} `{Libs} `{Operator W} `{System W} `{Runtime}.
Context `{Serde CloudMetadata} `{Serde CloudRecord}.

(** ** Stage 1: pull *)

Definition has_pending_uploads (c : PipelineContext) : bool :=
  existsb (λ r, bool_decide (lr_sync_status r = SyncStatus.Pending)) (pl_local_records c).

Definition local_record_ids (c : PipelineContext) : list string :=
  lr_record_id <$> pl_local_records c.

Definition has_missing_remote_records (c : PipelineContext) (m : CloudMetadata) : bool :=
  existsb (λ '(id, info), negb (ri_deleted info) && negb (bool_decide (id ∈ local_record_ids c)))
    (hash_order (cm_records m)).

Definition pull_metadata (c : PipelineContext) : io W (StageOutcome.t * PipelineContext) :=
  let* r := download_metadata (pl_storage c) in
  io_ret
    match r with
    | Ok (Some remote) =>
        if (cm_metadata_version remote =? pl_local_metadata_version c)%Z
           && negb (has_pending_uploads c) && negb (has_missing_remote_records c remote)
        then (StageOutcome.NoChanges, c)
        else if negb (bool_decide (cm_vault_identity_token remote = pl_local_vault_token c))
        then (StageOutcome.Error (SyncError.VaultIdentityMismatch (pl_local_vault_token c)
                (cm_vault_identity_token remote)), c)
        else (StageOutcome.Continue,
              c <| pl_final_metadata := Some remote |> <| pl_remote_metadata := Some remote |>)
    | Ok None => (StageOutcome.Continue, c <| pl_remote_metadata := None |>)
    | Err e => (StageOutcome.Error e, c)
    end.

(** ** Stage 2: detect *)

(** The remote entries without a local record, deletions apart. *)
Definition missing_remote (c : PipelineContext) (m : CloudMetadata)
  : list (string * RecordVersionInfo) :=
  filter (λ e, ri_deleted e.2 = false ∧ e.1 ∉ local_record_ids c) (hash_order (cm_records m)).

(** The action for one local record, given its remote entry. *)
Definition local_action (c : PipelineContext) (remote_records : gmap string RecordVersionInfo)
    (local : LocalRecordInfo) : ConflictAction.t :=
  match remote_records !! lr_record_id local with
  | Some remote =>
      if bool_decide (lr_sync_status local = SyncStatus.Synced)
         && (ri_version remote =? lr_version local)%Z
         && PipelineContext.private_metadata_changed_since_last_snapshot c
              (lr_record_id local) remote
      then ConflictAction.DownloadOnly
      else ConflictManager.detect_conflicts (lr_sync_status local) (lr_version local)
             (ri_version remote)
  | None =>
      if bool_decide (lr_sync_status local = SyncStatus.Pending) then ConflictAction.UploadOnly
      else ConflictAction.NoAction
  end.

Definition classify (c : PipelineContext) (id : string) (a : ConflictAction.t)
  : PipelineContext :=
  match a with
  | ConflictAction.UploadOnly => c <| pl_to_upload ::= λ l, l ++ [id] |>
  | ConflictAction.DownloadOnly => c <| pl_to_download ::= λ l, l ++ [id] |>
  | ConflictAction.Conflict _ _ => c <| pl_conflicts ::= λ l, l ++ [id] |>
  | ConflictAction.NoAction => c
  end.

Definition detect (c : PipelineContext) : StageOutcome.t * PipelineContext :=
  match pl_remote_metadata c with
  | None =>
      (StageOutcome.Continue,
       c <| pl_to_upload ::= λ l, l ++
         (lr_record_id <$> filter (λ r, lr_sync_status r = SyncStatus.Pending)
            (pl_local_records c)) |>)
  | Some remote =>
      let c1 := foldl (λ c' local,
          classify c' (lr_record_id local) (local_action c (cm_records remote) local))
        c (pl_local_records c) in
      let c2 := c1 <| pl_to_download ::= λ l, l ++ (missing_remote c remote).*1 |> in
      if bool_decide (pl_to_upload c2 = []) && bool_decide (pl_to_download c2 = [])
         && bool_decide (pl_conflicts c2 = [])
      then (StageOutcome.NoChanges, c2)
      else (StageOutcome.Continue, c2)
  end.

(** ** Stage 4: resolve *)

Definition resolve (c : PipelineContext) : StageOutcome.t * PipelineContext :=
  if negb (bool_decide (pl_conflicts c = [])) then
    (StageOutcome.ConflictDetected (pl_conflicts c), c)
  else (StageOutcome.Continue, c).

End stages.

(** ** Properties *)

(** The actions of each class. *)
Definition is_upload (a : ConflictAction.t) : bool :=
  match a with ConflictAction.UploadOnly => true | _ => false end.
Definition is_download (a : ConflictAction.t) : bool :=
  match a with ConflictAction.DownloadOnly => true | _ => false end.
Definition is_conflict (a : ConflictAction.t) : bool :=
  match a with ConflictAction.Conflict _ _ => true | _ => false end.

(** The local records whose action is in a class. *)
Definition in_class (c : PipelineContext) (remote : CloudMetadata)
    (k : ConflictAction.t → bool) : list string :=
  lr_record_id <$> filter (λ l, k (local_action c (cm_records remote) l) = true)
    (pl_local_records c).

(** Detection as three filters of the local records. *)
Lemma classify_fold c c0 (R : gmap string RecordVersionInfo) ls :
  let c' := foldl (λ c' l, classify c' (lr_record_id l) (local_action c R l)) c0 ls in
  let class k := lr_record_id <$> filter (λ l, k (local_action c R l) = true) ls in
  c' = c0 <| pl_to_upload ::= λ l, l ++ class is_upload |>
          <| pl_to_download ::= λ l, l ++ class is_download |>
          <| pl_conflicts ::= λ l, l ++ class is_conflict |>.
Proof.
  revert c0. induction ls as [|l ls IH]; intros c0; cbn zeta in *; cbn [foldl].
  { destruct c0. unfold update, eta, eta_PipelineContext. cbn. by rewrite !app_nil_r. }
  rewrite IH, !filter_cons. destruct c0, (local_action c R l);
    unfold update, eta, eta_PipelineContext; cbn; by rewrite <- ?(assoc_L (++)).
Qed.

Section properties.
Context {W : Type} `{Libs} `{SystemLaws W} `{HRt : Runtime} `{!RuntimeLaws}.
Context `{Serde CloudMetadata} `{Serde CloudRecord}.

Lemma detect_lists c remote o c' :
  pl_remote_metadata c = Some remote → detect c = (o, c') →
  c' = c <| pl_to_upload ::= λ l, l ++ in_class c remote is_upload |>
         <| pl_to_download ::= λ l, l ++ in_class c remote is_download
              ++ (missing_remote c remote).*1 |>
         <| pl_conflicts ::= λ l, l ++ in_class c remote is_conflict |>.
Proof.
  unfold detect. intros ->. cbn zeta. rewrite classify_fold.
  intros Hd. assert (c' = snd (o, c')) as -> by done. rewrite <- Hd. unfold in_class.
  case_match; unfold update, eta, eta_PipelineContext; cbn; by rewrite <- (assoc_L (++)).
Qed.

Lemma elem_of_in_class c remote k id :
  id ∈ in_class c remote k ↔
  ∃ l, l ∈ pl_local_records c ∧ lr_record_id l = id ∧
    k (local_action c (cm_records remote) l) = true.
Proof.
  unfold in_class. rewrite list_elem_of_fmap. setoid_rewrite list_elem_of_filter. naive_solver.
Qed.

Lemma elem_of_missing c remote id :
  id ∈ (missing_remote c remote).*1 ↔
  (id ∉ local_record_ids c) ∧
  ∃ info, cm_records remote !! id = Some info ∧ ri_deleted info = false.
Proof.
  unfold missing_remote. rewrite list_elem_of_fmap. setoid_rewrite list_elem_of_filter.
  setoid_rewrite hash_order_perm. split.
  - intros ([i info] & -> & (Hd & Hi) & Hin%elem_of_map_to_list). naive_solver.
  - intros (Hi & info & Hin%elem_of_map_to_list & Hd). by exists (id, info).
Qed.

(** The action of a record, by its status and the two versions. *)
Lemma local_action_spec c R l :
  (is_upload (local_action c R l) = true ↔
     lr_sync_status l = SyncStatus.Pending ∧
     ∀ info, R !! lr_record_id l = Some info → (ri_version info ≤ lr_version l)%Z) ∧
  (is_conflict (local_action c R l) = true ↔
     lr_sync_status l = SyncStatus.Pending ∧
     ∃ info, R !! lr_record_id l = Some info ∧ (lr_version l < ri_version info)%Z) ∧
  (is_download (local_action c R l) = true ↔
     lr_sync_status l = SyncStatus.Synced ∧
     ∃ info, R !! lr_record_id l = Some info ∧
       ((lr_version l < ri_version info)%Z ∨
        ri_version info = lr_version l ∧
        PipelineContext.private_metadata_changed_since_last_snapshot c (lr_record_id l) info
          = true)).
Proof.
  unfold local_action. destruct (R !! lr_record_id l) as [info|] eqn:E.
  - rewrite !ex_some, all_some. unfold ConflictManager.detect_conflicts.
    destruct (lr_sync_status l) eqn:Es, (Z.compare_spec (ri_version info) (lr_version l)),
      (PipelineContext.private_metadata_changed_since_last_snapshot c (lr_record_id l) info)
      eqn:Ep; cbn; repeat case_test; cbn; split_and!; intuition (congruence || lia).
  - case_bool_decide; cbn; naive_solver.
Qed.

(** The lists that detection fills start empty. *)
Definition undetected (c : PipelineContext) : Prop :=
  pl_to_upload c = [] ∧ pl_to_download c = [] ∧ pl_conflicts c = [].

Lemma in_class_disjoint c remote k k' id :
  NoDup (local_record_ids c) → (∀ a, k a = true → k' a = true → False) →
  id ∈ in_class c remote k → id ∈ in_class c remote k' → False.
Proof.
  rewrite !elem_of_in_class. intros Hnd Hk (l & Hl & <- & Ha) (l' & Hl' & Heq & Ha').
  rewrite (NoDup_fmap_unique lr_record_id (pl_local_records c) l' l) in Ha' by done. eauto.
Qed.

Lemma in_class_local c remote k id : id ∈ in_class c remote k → id ∈ local_record_ids c.
Proof. intros (l & Hl & <- & _)%elem_of_in_class. by apply list_elem_of_fmap_2. Qed.

Lemma missing_remote_NoDup c remote : NoDup (missing_remote c remote).*1.
Proof.
  apply NoDup_fmap_filter. rewrite hash_order_perm. apply NoDup_fst_map_to_list.
Qed.

(** The records to upload: changed locally, and nothing newer is remote. *)
Lemma detect_uploads c remote o c' id :
  pl_remote_metadata c = Some remote → undetected c → detect c = (o, c') →
  id ∈ pl_to_upload c' ↔
    ∃ l, l ∈ pl_local_records c ∧ lr_record_id l = id ∧
     lr_sync_status l = SyncStatus.Pending ∧
     ∀ info, cm_records remote !! lr_record_id l = Some info →
       (ri_version info ≤ lr_version l)%Z.
Proof.
  intros Hr (Hu & _) Hd. rewrite (detect_lists _ _ _ _ Hr Hd). cbn. rewrite Hu. cbn.
  rewrite elem_of_in_class. by setoid_rewrite (proj1 (local_action_spec c (cm_records remote) _)).
Qed.

(** The records to download: only the remote side is newer, or knows them. *)
Lemma detect_downloads c remote o c' id :
  pl_remote_metadata c = Some remote → undetected c → detect c = (o, c') →
  id ∈ pl_to_download c' ↔
    (∃ l, l ∈ pl_local_records c ∧ lr_record_id l = id ∧
       lr_sync_status l = SyncStatus.Synced ∧
       ∃ info, cm_records remote !! lr_record_id l = Some info ∧
         ((lr_version l < ri_version info)%Z ∨
          ri_version info = lr_version l ∧
          PipelineContext.private_metadata_changed_since_last_snapshot c (lr_record_id l) info
            = true)) ∨
    ((id ∉ local_record_ids c) ∧
       ∃ info, cm_records remote !! id = Some info ∧ ri_deleted info = false).
Proof.
  intros Hr (_ & Hdn & _) Hd. rewrite (detect_lists _ _ _ _ Hr Hd). cbn. rewrite Hdn. cbn.
  rewrite elem_of_app, elem_of_in_class, elem_of_missing.
  by setoid_rewrite (proj2 (proj2 (local_action_spec c (cm_records remote) _))).
Qed.

(** C14: detection partitions the work.  No record is in two of the three sets or twice
    in one; a record is uploaded exactly when it changed locally and no newer version is
    remote, is a conflict exactly when it changed on both sides, and is downloaded exactly
    when only the remote side is newer, changed its private metadata, or is not known
    locally; and the stage ends the run exactly when there is nothing to do. *)
Theorem detect_partition c remote o c' :
  pl_remote_metadata c = Some remote → undetected c → NoDup (local_record_ids c) →
  detect c = (o, c') →
  NoDup (pl_to_upload c' ++ pl_to_download c' ++ pl_conflicts c') ∧
  (∀ id, id ∈ pl_to_upload c' ↔ ∃ l, l ∈ pl_local_records c ∧ lr_record_id l = id ∧
     lr_sync_status l = SyncStatus.Pending ∧
     ∀ info, cm_records remote !! lr_record_id l = Some info →
       (ri_version info ≤ lr_version l)%Z) ∧
  (∀ id, id ∈ pl_conflicts c' ↔ ∃ l, l ∈ pl_local_records c ∧ lr_record_id l = id ∧
     lr_sync_status l = SyncStatus.Pending ∧
     ∃ info, cm_records remote !! lr_record_id l = Some info ∧
       (lr_version l < ri_version info)%Z) ∧
  (∀ id, id ∈ pl_to_download c' ↔
     (∃ l, l ∈ pl_local_records c ∧ lr_record_id l = id ∧
        lr_sync_status l = SyncStatus.Synced ∧
        ∃ info, cm_records remote !! lr_record_id l = Some info ∧
          ((lr_version l < ri_version info)%Z ∨
           ri_version info = lr_version l ∧
           PipelineContext.private_metadata_changed_since_last_snapshot c (lr_record_id l) info
             = true)) ∨
     ((id ∉ local_record_ids c) ∧
        ∃ info, cm_records remote !! id = Some info ∧ ri_deleted info = false)) ∧
  (o = StageOutcome.NoChanges ↔
     pl_to_upload c' = [] ∧ pl_to_download c' = [] ∧ pl_conflicts c' = []).
Proof.
  intros Hr Hun Hnd Hd. pose proof Hun as (Hu & Hdn & Hc). pose proof (detect_lists _ _ _ _ Hr Hd) as Hl.
  assert (pl_to_upload c' = in_class c remote is_upload) as Eu by (subst c'; cbn; by rewrite Hu).
  assert (pl_to_download c' = in_class c remote is_download ++ (missing_remote c remote).*1)
    as Ed by (subst c'; cbn; by rewrite Hdn).
  assert (pl_conflicts c' = in_class c remote is_conflict) as Ec
    by (subst c'; cbn; by rewrite Hc).
  split_and!.
  - rewrite Eu, Ed, Ec, !NoDup_app.
    split_and!; try (by apply NoDup_fmap_filter); try apply missing_remote_NoDup;
      intros id Hi; rewrite ?not_elem_of_app; [split; [split|]| |]; intros Hi';
      try (by apply (in_class_disjoint _ _ _ _ _ Hnd) with (3 := Hi) in Hi'; [|by intros []]).
    + apply elem_of_missing in Hi' as [[] _]. by eapply in_class_local.
    + apply elem_of_missing in Hi' as [[] _]. by eapply in_class_local.
    + apply elem_of_app in Hi as [Hi|Hi].
      * by apply (in_class_disjoint _ _ _ _ _ Hnd) with (3 := Hi) in Hi'; [|by intros []].
      * apply elem_of_missing in Hi as [[] _]. by eapply in_class_local.
  - intros id. by eapply detect_uploads.
  - intros id. rewrite Ec, elem_of_in_class.
    by setoid_rewrite (proj1 (proj2 (local_action_spec c (cm_records remote) _))).
  - intros id. by eapply detect_downloads.
  - clear Hl Eu Ed Ec. unfold detect in Hd. rewrite Hr in Hd.
    repeat case_bool_decide; cbn [andb] in Hd; simplify_eq; naive_solver.
Qed.

(** Without remote metadata every pending record, and nothing else, is uploaded. *)
Lemma detect_first_sync c o c' :
  pl_remote_metadata c = None → undetected c → detect c = (o, c') →
  o = StageOutcome.Continue ∧ pl_to_download c' = [] ∧ pl_conflicts c' = [] ∧
  ∀ id, id ∈ pl_to_upload c' ↔ ∃ l, l ∈ pl_local_records c ∧ lr_record_id l = id ∧
    lr_sync_status l = SyncStatus.Pending.
Proof.
  unfold detect. intros -> (Hu & Hdn & Hc) [= <- <-]. cbn. rewrite Hu. split_and!; try done.
  intros id. cbn. rewrite list_elem_of_fmap. setoid_rewrite list_elem_of_filter. naive_solver.
Qed.

Lemma has_pending_uploads_spec c :
  has_pending_uploads c = false ↔
  ∀ l, l ∈ pl_local_records c → lr_sync_status l ≠ SyncStatus.Pending.
Proof.
  unfold has_pending_uploads. rewrite <- not_true_iff_false, existsb_exists.
  setoid_rewrite bool_decide_eq_true. setoid_rewrite <- list_elem_of_In. naive_solver.
Qed.

Lemma has_missing_spec c m :
  has_missing_remote_records c m = false ↔
  ∀ id info, cm_records m !! id = Some info → ri_deleted info = false →
    id ∈ local_record_ids c.
Proof.
  unfold has_missing_remote_records. rewrite <- not_true_iff_false, existsb_exists. split.
  - intros Hno id info Hi Hd. destruct (decide (id ∈ local_record_ids c)) as [|Hn]; [done|].
    destruct Hno. exists (id, info). split.
    + by apply list_elem_of_In; rewrite hash_order_perm; apply elem_of_map_to_list.
    + by rewrite Hd, bool_decide_eq_false_2.
  - intros Hall ([id info] & Hi & Hb). apply list_elem_of_In in Hi.
    rewrite hash_order_perm, elem_of_map_to_list in Hi. cbn in Hb. reflect_bools. eauto.
Qed.

Lemma pull_metadata_files c w o c' w' :
  pull_metadata c w = ((o, c'), w') → files w' = files w.
Proof.
  unfold pull_metadata, io_bind, io_ret. destruct (download_metadata _ w) as [r w1] eqn:Hd.
  intros [= _ <-]. by eapply download_metadata_files.
Qed.

(** How the stage ends when it continues, and that it never detects conflicts. *)
Lemma pull_metadata_outcome c w o c' w' :
  pull_metadata c w = ((o, c'), w') →
  match o with
  | StageOutcome.Continue =>
      match pl_remote_metadata c' with
      | Some m => stored_metadata (files w) = Some m ∧ pl_final_metadata c' = Some m ∧
          cm_vault_identity_token m = pl_local_vault_token c
      | None => files w !! METADATA_FILENAME = None
      end
  | StageOutcome.ConflictDetected _ => False
  | _ => c' = c
  end.
Proof.
  unfold pull_metadata, io_bind, io_ret. destruct (download_metadata _ w) as [r w1] eqn:Hd.
  intros [= Hm <-]. destruct r as [[m|]|e]; simplify_eq; try done;
    apply download_metadata_outcome in Hd; [|done].
  case_match; simplify_eq; [done|]. case_bool_decide; cbn in Hm; by simplify_eq.
Qed.

(** The pull stage only reads, and decides on what the store holds: it continues
    with exactly the stored metadata, of this vault, or with none when there is none; it
    ends the run only when the version is the known one, nothing is pending, and every
    live remote record is known; and an error leaves the context as it was. *)
Lemma pull_metadata_spec c w o c' w' :
  pull_metadata c w = ((o, c'), w') →
  files w' = files w ∧
  match o with
  | StageOutcome.Continue =>
      match pl_remote_metadata c' with
      | Some m => stored_metadata (files w) = Some m ∧ pl_final_metadata c' = Some m ∧
          cm_vault_identity_token m = pl_local_vault_token c
      | None => files w !! METADATA_FILENAME = None
      end
  | StageOutcome.NoChanges =>
      c' = c ∧ ∃ m, stored_metadata (files w) = Some m ∧
        cm_metadata_version m = pl_local_metadata_version c ∧
        (∀ l, l ∈ pl_local_records c → lr_sync_status l ≠ SyncStatus.Pending) ∧
        ∀ id info, cm_records m !! id = Some info → ri_deleted info = false →
          id ∈ local_record_ids c
  | StageOutcome.Error _ => c' = c
  | StageOutcome.ConflictDetected _ => False
  end.
Proof.
  intros Hp. split; [by eapply pull_metadata_files|].
  pose proof (pull_metadata_outcome _ _ _ _ _ Hp) as Ho. destruct o; try done.
  subst. split; [done|]. revert Hp. unfold pull_metadata, io_bind, io_ret.
  destruct (download_metadata _ w) as [[[m|]|e] w1] eqn:Hd; intros; simplify_eq.
  apply download_metadata_outcome in Hd. exists m.
  rewrite <- has_pending_uploads_spec, <- has_missing_spec.
  repeat case_match; simplify_eq; reflect_bools; done.
Qed.

End properties.
