(* ===== verification/Push.v ===== *)
(** * The sync pipeline: push, and the pipeline itself (src/sync/pipeline.rs)

    The stage that uploads, downloads and stores conflicts, then publishes the new
    metadata after reading every upload back; and the four stages in sequence. *)

From S2P Require Import Prelude Text Errors Env Types CloudRecord CloudMetadata Storage.
From S2P Require Import Conflict Checkpoint Pipeline.

Module PipelineResult.
Inductive t : Type :=
| Completed
| NoChanges
| ConflictsDetected (conflict_ids : list string)
| Error (e : SyncError.t).
End PipelineResult.

Module Stage.
Inductive t : Set := PullMetadata | Detect | Push | Resolve.
End Stage.

Section push.
Context {W : Type} `{Libs} `{Operator W} `{System W} `{Runtime}.
Context `{Serde CloudMetadata} `{Serde CloudRecord} `{Serde ConflictPayload}.
Context `{Serde EncryptedRecordMetadata}.

Definition fail_id (id : string) (c : PipelineContext) : PipelineContext :=
  c <| pl_failed_ids ::= λ l, l ++ [id] |>.

(** [if let Ok(id) = Uuid::parse_str(s) { f(id) }] *)
Definition with_uuid (s : string) (f : Uuid → PipelineContext → PipelineContext)
    (c : PipelineContext) : PipelineContext :=
  match uuid_parse s with
  | Some id => f id c
  | None => c
  end.

(** ** Uploads *)

Definition upload_one (record : CloudRecord) (c : PipelineContext) : io W PipelineContext :=
  let* r := upload_record (pl_storage c) (cr_id record) record in
  io_ret
    match r with
    | Ok _ =>
        with_uuid (cr_id record)
          (λ id c, c <| pl_checkpoint ::= SyncCheckpoint.record_push_done id |>)
          (c <| pl_uploaded_ids ::= λ l, l ++ [cr_id record] |>)
    | Err _ => fail_id (cr_id record) c
    end.

Fixpoint upload_loop (records : list CloudRecord) (c : PipelineContext)
  : io W PipelineContext :=
  match records with
  | [] => io_ret c
  | record :: records =>
      let* c := upload_one record c in
      upload_loop records c
  end.

(** ** Downloads *)

(** The checks of a downloaded record against its metadata entry; a record that fails
    one of them is skipped. *)
Definition download_checks (c : PipelineContext) (record_id : string) (record : CloudRecord)
  : bool :=
  is_ok (CloudRecord.validate record) &&
  match m ← pl_remote_metadata c; cm_records m !! record_id with
  | Some remote_info =>
      match compute_checksum (cr_encrypted_data record) with
      | Ok computed =>
          bool_decide (computed = ri_checksum remote_info) &&
          match ri_private_metadata_checksum remote_info with
          | Some expected =>
              match CloudRecord.compute_private_metadata_checksum record with
              | Ok (Some computed) => bool_decide (computed = expected)
              | Ok None => false
              | Err _ => false
              end
          | None => true
          end
      | Err _ => false
      end
  | None => true
  end.

(** The health state of an accepted record, or its deletion. *)
Definition record_health (record_id : string) (record : CloudRecord) (c : PipelineContext)
  : PipelineContext :=
  match CloudRecord.to_health_state record with
  | Some health_state => c <| pl_downloaded_health_states ::= λ l, l ++ [health_state] |>
  | None =>
      if negb (CloudRecord.has_encrypted_private_metadata record) then
        with_uuid record_id (λ id c, c <| pl_downloaded_health_deleted ::= λ l, l ++ [id] |>) c
      else c
  end.

Definition accept_download (c : PipelineContext)
    (d : string * result (option CloudRecord) SyncError.t) : PipelineContext :=
  let '(record_id, result) := d in
  match result with
  | Ok (Some record) =>
      if negb (download_checks c record_id record) then fail_id record_id c
      else
        let c := with_uuid record_id
          (λ id c, c <| pl_checkpoint ::= SyncCheckpoint.record_pull_done id |>) c in
        let c := record_health record_id record c in
        c <| pl_downloads ::= insert record_id record |>
  | Ok None => c
  | Err _ => fail_id record_id c
  end.

Definition download_all (c : PipelineContext) : io W PipelineContext :=
  if bool_decide (pl_to_download c = []) then io_ret c
  else
    let* results := batch_download_records task_schedule task_panics join_error
        (pl_storage c) (pl_to_download c) in
    io_ret (foldl accept_download c results).

(** ** Conflicts *)

(** [local_records.iter().find(..).map(|r| r.version).unwrap_or(0)] *)
Definition local_version_of (c : PipelineContext) (id : string) : Z :=
  match list_find (λ r, lr_record_id r = id) (pl_local_records c) with
  | Some (_, r) => lr_version r
  | None => 0
  end.

Definition conflict_one (conflict_id : string) (c : PipelineContext)
  : io W PipelineContext :=
  match m ← pl_remote_metadata c; cm_records m !! conflict_id with
  | None => io_ret c
  | Some remote_info =>
      let* r := download_record (pl_storage c) conflict_id in
      io_ret
        match r with
        | Ok (Some cloud_record) =>
            match ConflictManager.store_conflict cloud_record (ri_checksum remote_info) with
            | Ok conflict_data =>
                with_uuid conflict_id (λ id c,
                    c <| pl_checkpoint ::= SyncCheckpoint.add_pending_conflict
                      (mkPendingConflict id (local_version_of c conflict_id)
                         (ri_version remote_info)) |>)
                  (c <| pl_conflict_data_map ::= insert conflict_id conflict_data |>)
            | Err _ => fail_id conflict_id c
            end
        | Ok None => c
        | Err _ => fail_id conflict_id c
        end
  end.

Fixpoint conflict_loop (ids : list string) (c : PipelineContext) : io W PipelineContext :=
  match ids with
  | [] => io_ret c
  | id :: ids =>
      let* c := conflict_one id c in
      conflict_loop ids c
  end.

(** ** Publishing the metadata *)

Definition DEVICE_ID : string := "local-device".

Definition verify_uploaded_record (c : PipelineContext) (expected_record : CloudRecord)
  : ior W () SyncError.t :=
  let! found := download_record (pl_storage c) (cr_id expected_record) in
  let! downloaded := lift (ok_or (SyncError.RecordNotFound (cr_id expected_record)) found) in
  let! _ := lift (CloudRecord.validate downloaded) in
  if negb (bool_decide (cr_id downloaded = cr_id expected_record)) then
    io_ret (Err (SyncError.AadInconsistent "record_id" (cr_id expected_record)
      (cr_id downloaded)))
  else if negb (cr_version downloaded =? cr_version expected_record)%Z then
    io_ret (Err (SyncError.MetadataVersionConflict (cr_version expected_record)
      (cr_version downloaded)))
  else
    let! expected_checksum := lift (CloudRecord.checksum expected_record) in
    let! actual_checksum := lift (CloudRecord.checksum downloaded) in
    if negb (bool_decide (actual_checksum = expected_checksum)) then
      io_ret (Err (SyncError.ChecksumMismatch expected_checksum actual_checksum
        (cr_id expected_record)))
    else
      let! expected_private :=
        lift (CloudRecord.compute_private_metadata_checksum expected_record) in
      let! actual_private :=
        lift (CloudRecord.compute_private_metadata_checksum downloaded) in
      if negb (bool_decide (actual_private = expected_private)) then
        io_ret (Err (SyncError.ChecksumMismatch (default "missing" expected_private)
          (default "missing" actual_private) (cr_id expected_record)))
      else io_ret (Ok ()).

(** The loop of [push_updated_metadata] over the uploads. *)
Fixpoint publish_loop (c : PipelineContext) (now : string) (uploads : list CloudRecord)
    (updated_meta : CloudMetadata) : ior W CloudMetadata SyncError.t :=
  match uploads with
  | [] => io_ret (Ok updated_meta)
  | record :: uploads =>
      if negb (bool_decide (cr_id record ∈ pl_uploaded_ids c)) then
        publish_loop c now uploads updated_meta
      else
        let! _ := verify_uploaded_record c record in
        let! checksum := lift (compute_checksum (cr_encrypted_data record)) in
        let! private_metadata_checksum :=
          lift (CloudRecord.compute_private_metadata_checksum record) in
        publish_loop c now uploads
          (CloudMetadata.upsert_record (cr_id record)
             (mkRecordVersionInfo (cr_version record) now DEVICE_ID checksum
                private_metadata_checksum (default false (cr_deleted record)))
             updated_meta)
  end.

Definition push_updated_metadata (c : PipelineContext)
  : ior W CloudMetadata SyncError.t :=
  let* t := now in
  let now := rfc3339_print t in
  let* (updated_meta, expected_version) :=
    match pl_remote_metadata c with
    | Some remote => io_ret (remote, cm_metadata_version remote)
    | None =>
        let* fresh := CloudMetadata.new (pl_local_vault_token c) in
        io_ret (fresh, 0%Z)
    end in
  let! updated_meta := publish_loop c now (pl_uploads c) updated_meta in
  let* updated_meta := CloudMetadata.increment_version updated_meta in
  let! _ := push_metadata_atomic (pl_storage c) updated_meta expected_version in
  io_ret (Ok updated_meta).

(** ** Stage 3 *)

(** The uploads that detection selected. *)
Definition selected_uploads (c : PipelineContext) : list CloudRecord :=
  filter (λ r, cr_id r ∈ pl_to_upload c) (pl_uploads c).

(** The work on the records, before the metadata is published. *)
Definition push_records (c : PipelineContext) : io W PipelineContext :=
  let* c := upload_loop (selected_uploads c) c in
  let* c := download_all c in
  conflict_loop (pl_conflicts c) c.

Definition push (c : PipelineContext) : io W (StageOutcome.t * PipelineContext) :=
  let* c := push_records c in
  let* r :=
    if negb (bool_decide (pl_uploaded_ids c = [])) then
      let! updated := push_updated_metadata c in
      io_ret (Ok (c <| pl_final_metadata := Some updated |>))
    else io_ret (Ok c) in
  match r with
  | Err e => io_ret (StageOutcome.Error e, c)
  | Ok c =>
      if negb (bool_decide (pl_conflicts c = [])) then
        io_ret (StageOutcome.ConflictDetected (pl_conflicts c), c)
      else io_ret (StageOutcome.Continue, c)
  end.

(** ** The pipeline *)

Definition execute_stage (s : Stage.t) (c : PipelineContext)
  : io W (StageOutcome.t * PipelineContext) :=
  match s with
  | Stage.PullMetadata => pull_metadata c
  | Stage.Detect => io_ret (detect c)
  | Stage.Push => push c
  | Stage.Resolve => io_ret (resolve c)
  end.

Definition stages : list Stage.t :=
  [Stage.PullMetadata; Stage.Detect; Stage.Push; Stage.Resolve].

Fixpoint execute_stages (l : list Stage.t) (c : PipelineContext)
  : io W (PipelineResult.t * PipelineContext) :=
  match l with
  | [] => io_ret (PipelineResult.Completed, c)
  | s :: l =>
      let* (outcome, c) := execute_stage s c in
      match outcome with
      | StageOutcome.Continue => execute_stages l c
      | StageOutcome.NoChanges => io_ret (PipelineResult.NoChanges, c)
      | StageOutcome.ConflictDetected conflict_ids =>
          io_ret (PipelineResult.ConflictsDetected conflict_ids, c)
      | StageOutcome.Error e => io_ret (PipelineResult.Error e, c)
      end
  end.

Definition execute (c : PipelineContext) : io W (PipelineResult.t * PipelineContext) :=
  execute_stages stages c.

End push.

(** ** Properties *)

(** What a stage reads and never writes. *)
Definition inputs (c : PipelineContext) :=
  (pl_storage c, pl_remote_metadata c, pl_last_remote_metadata c,
   pl_local_metadata_version c, pl_local_vault_token c, pl_to_upload c, pl_to_download c,
   pl_conflicts c, pl_uploads c, pl_local_records c).

Lemma inputs_eq c c' :
  inputs c' = inputs c →
  pl_storage c' = pl_storage c ∧ pl_remote_metadata c' = pl_remote_metadata c ∧
  pl_to_upload c' = pl_to_upload c ∧ pl_to_download c' = pl_to_download c ∧
  pl_conflicts c' = pl_conflicts c ∧ pl_uploads c' = pl_uploads c ∧
  pl_local_records c' = pl_local_records c ∧
  pl_local_vault_token c' = pl_local_vault_token c.
Proof. unfold inputs. intros [=]. split_and!; done. Qed.

Section properties.
Context {W : Type} `{L : Libs} `{!LibLaws} `{SystemLaws W} `{HRt : Runtime} `{!RuntimeLaws}.
Context `{HSm : Serde CloudMetadata} `{HSr : Serde CloudRecord} `{Serde ConflictPayload}.
Context `{Serde EncryptedRecordMetadata}.

Lemma with_uuid_inputs s f c :
  (∀ id, inputs (f id c) = inputs c) → inputs (with_uuid s f c) = inputs c.
Proof. unfold with_uuid. by destruct (uuid_parse s). Qed.

Lemma upload_one_inputs r c w c' w' : upload_one r c w = (c', w') → inputs c' = inputs c.
Proof.
  unfold upload_one, io_bind, io_ret. destruct (upload_record _ _ _ w) as [[[]|e] w1];
    intros [= <- <-]; [|done].
  by etransitivity; [apply with_uuid_inputs|].
Qed.

Lemma upload_loop_inputs l c w c' w' : upload_loop l c w = (c', w') → inputs c' = inputs c.
Proof.
  revert c w. induction l as [|r l IH]; intros c w; cbn; unfold io_bind, io_ret;
    [by intros [= <- <-]|].
  destruct (upload_one r c w) as [c1 w1] eqn:E. intros ->%IH. by eapply upload_one_inputs.
Qed.

Lemma accept_download_inputs c d : inputs (accept_download c d) = inputs c.
Proof.
  destruct d as [id [[r|]|e]]; cbn; try done. case_match; [done|].
  unfold record_health. repeat case_match; unfold with_uuid; repeat case_match; done.
Qed.

Lemma accept_downloads_inputs l c : inputs (foldl accept_download c l) = inputs c.
Proof.
  revert c. induction l as [|d l IH]; intros c; cbn; [done|]. by rewrite IH, accept_download_inputs.
Qed.

Lemma download_all_inputs c w c' w' : download_all c w = (c', w') → inputs c' = inputs c.
Proof.
  unfold download_all, io_bind, io_ret. case_match; [by intros [= <- <-]|].
  destruct (batch_download_records _ _ _ _ _ w) as [l w1]. intros [= <- <-].
  apply accept_downloads_inputs.
Qed.

Lemma conflict_one_inputs id c w c' w' : conflict_one id c w = (c', w') → inputs c' = inputs c.
Proof.
  unfold conflict_one, io_bind, io_ret. case_match; [|by intros [= <- <-]].
  destruct (download_record _ _ w) as [[[cr|]|e] w1]; intros [= <- <-]; try done.
  destruct (ConflictManager.store_conflict _ _); [|done].
  by etransitivity; [apply with_uuid_inputs|].
Qed.

Lemma conflict_loop_inputs l c w c' w' : conflict_loop l c w = (c', w') → inputs c' = inputs c.
Proof.
  revert c w. induction l as [|id l IH]; intros c w; cbn; unfold io_bind, io_ret;
    [by intros [= <- <-]|].
  destruct (conflict_one id c w) as [c1 w1] eqn:E. intros ->%IH. by eapply conflict_one_inputs.
Qed.

(** ** What the stage writes *)

(** A file that is neither a temporary file nor the record of one of [ids]. *)
Definition outside (ids : list string) (p : string) : Prop :=
  ¬ is_temp p ∧ ∀ id, id ∈ ids → p ≠ record_path id.

Lemma upload_record_outside st r w u w' ids p :
  upload_record st (cr_id r) r w = (u, w') → outside ids p → cr_id r ∈ ids →
  files w' !! p = files w !! p.
Proof.
  unfold upload_record. intros Hu [Ht Hp] Hin. run_io; [|done].
  match goal with E : write_file _ _ _ _ = _ |- _ =>
    apply write_file_effect in E as (_ & _ & Ho) end.
  apply Ho; [by apply Hp|]. intros n ->. destruct Ht. by eexists _, _.
Qed.

Lemma upload_one_files r c w c' w' ids p :
  upload_one r c w = (c', w') → outside ids p → cr_id r ∈ ids → files w' !! p = files w !! p.
Proof.
  unfold upload_one, io_bind, io_ret. destruct (upload_record _ _ _ w) as [u w1] eqn:E.
  intros [= _ <-] ??. by eapply upload_record_outside.
Qed.

Lemma upload_loop_files l c w c' w' ids p :
  upload_loop l c w = (c', w') → outside ids p → (∀ r, r ∈ l → cr_id r ∈ ids) →
  files w' !! p = files w !! p.
Proof.
  intros Hu Ho Hl. revert c w Hu. induction l as [|r l IH]; intros c w; cbn;
    unfold io_bind, io_ret; [by intros [= _ <-]|].
  destruct (upload_one r c w) as [c1 w1] eqn:E.
  apply (upload_one_files _ _ _ _ _ _ _ E) in Ho as Hf; [|apply Hl, elem_of_cons; auto].
  intros Hu. rewrite <- Hf. eapply IH; [|done]. intros r' ?. apply Hl, elem_of_cons. auto.
Qed.

Lemma download_all_files c w c' w' : download_all c w = (c', w') → files w' = files w.
Proof.
  unfold download_all, io_bind, io_ret. case_match; [by intros [= _ <-]|].
  destruct (batch_download_records _ _ _ _ _ w) as [l w1] eqn:E. intros [= _ <-].
  by apply batch_download_effect in E.
Qed.

Lemma conflict_one_files id c w c' w' : conflict_one id c w = (c', w') → files w' = files w.
Proof.
  unfold conflict_one, io_bind, io_ret. case_match; [|by intros [= _ <-]].
  destruct (download_record _ _ w) as [res w1] eqn:E. intros [= _ <-].
  by eapply download_record_files.
Qed.

Lemma conflict_loop_files l c w c' w' : conflict_loop l c w = (c', w') → files w' = files w.
Proof.
  revert c w. induction l as [|id l IH]; intros c w; cbn; unfold io_bind, io_ret;
    [by intros [= _ <-]|].
  destruct (conflict_one id c w) as [c1 w1] eqn:E. intros ->%IH. by eapply conflict_one_files.
Qed.

Lemma selected_uploads_in c r : r ∈ selected_uploads c → cr_id r ∈ pl_to_upload c.
Proof. unfold selected_uploads. rewrite list_elem_of_filter. tauto. Qed.

Lemma push_records_spec c w c' w' :
  push_records c w = (c', w') →
  inputs c' = inputs c ∧ ∀ p, outside (pl_to_upload c) p → files w' !! p = files w !! p.
Proof.
  unfold push_records, io_bind. destruct (upload_loop _ c w) as [c1 w1] eqn:E1.
  destruct (download_all c1 w1) as [c2 w2] eqn:E2. intros E3. split.
  - by rewrite (conflict_loop_inputs _ _ _ _ _ E3), (download_all_inputs _ _ _ _ E2),
      (upload_loop_inputs _ _ _ _ _ E1).
  - intros p Hp. rewrite (conflict_loop_files _ _ _ _ _ E3), (download_all_files _ _ _ _ E2).
    eapply upload_loop_files; [done..|]. apply selected_uploads_in.
Qed.

(** ** Verified publication *)

(** The store holds a valid record with the version and the checksums of [r]. *)
Definition verified (fs : gmap string bytes) (r : CloudRecord) : Prop :=
  ∃ b r', fs !! record_path (cr_id r) = Some b ∧ from_json b = Ok r' ∧
    CloudRecord.validate r' = Ok () ∧ cr_id r' = cr_id r ∧ cr_version r' = cr_version r ∧
    CloudRecord.checksum r' = CloudRecord.checksum r ∧
    CloudRecord.compute_private_metadata_checksum r'
      = CloudRecord.compute_private_metadata_checksum r.

Lemma verify_uploaded_record_spec c r w u w' :
  verify_uploaded_record c r w = (u, w') →
  files w' = files w ∧
  (u = Ok () → verified (files w) r).
Proof.
  unfold verify_uploaded_record. intros Hv. unfold ior_bind, io_bind, lift, io_ret in Hv.
  destruct (download_record _ _ w) as [[[r'|]|e] w1] eqn:E; cbn in Hv;
    [|by simplify_eq; split; [eapply download_record_files|]..].
  assert (w' = w1) as -> by (repeat (simplify_eq; case_match); by simplify_eq).
  split; [by eapply download_record_files|]. intros ->.
  apply download_record_outcome in E as (b & Hb & Hj). exists b, r'.
  destruct (CloudRecord.validate r') as [[]|] eqn:?; [|done].
  repeat (case_match; try done); simplify_eq; reflect_bools; split_and!; congruence.
Qed.

(** The metadata entry that describes a record. *)
Definition describes (info : RecordVersionInfo) (r : CloudRecord) : Prop :=
  ri_version info = cr_version r ∧ CloudRecord.checksum r = Ok (ri_checksum info) ∧
  CloudRecord.compute_private_metadata_checksum r = Ok (ri_private_metadata_checksum info).

Lemma verified_same_id fs r1 r2 :
  verified fs r1 → verified fs r2 → cr_id r1 = cr_id r2 →
  cr_version r1 = cr_version r2 ∧ CloudRecord.checksum r1 = CloudRecord.checksum r2 ∧
  CloudRecord.compute_private_metadata_checksum r1
    = CloudRecord.compute_private_metadata_checksum r2.
Proof.
  intros (b1 & r1' & Hb1 & Hj1 & _ & _ & Hv1 & Hc1 & Hp1) (b2 & r2' & Hb2 & Hj2 & _ & _ & Hv2 & Hc2 & Hp2) E.
  rewrite E in Hb1. simplify_map_eq. merge_eqs. split_and!; congruence.
Qed.

Lemma publish_loop_spec c now ups m w r w' :
  publish_loop c now ups m w = (r, w') →
  files w' = files w ∧
  ∀ m', r = Ok m' →
    m' = m <| cm_records := cm_records m' |> ∧
    (∀ u, u ∈ ups → cr_id u ∈ pl_uploaded_ids c → verified (files w) u) ∧
    ∀ id,
      (cm_records m' !! id = cm_records m !! id ∧
       ∀ u, u ∈ ups → cr_id u ∈ pl_uploaded_ids c → cr_id u ≠ id) ∨
      ∃ u info, u ∈ ups ∧ cr_id u ∈ pl_uploaded_ids c ∧ cr_id u = id ∧
        cm_records m' !! id = Some info ∧ describes info u.
Proof.
  revert m w. induction ups as [|u ups IH]; intros m w; cbn [publish_loop].
  { unfold io_ret. intros [= <- <-]. split; [done|]. intros m' [= <-].
    split_and!; [by destruct m|by intros ? ?%elem_of_nil|].
    intros id. left. split; [done|]. by intros ? ?%elem_of_nil. }
  case_bool_decide as Hin; cbn [negb].
  - unfold ior_bind, io_bind, lift, io_ret.
    destruct (verify_uploaded_record c u w) as [v w1] eqn:Ev.
    apply verify_uploaded_record_spec in Ev as [Hf Hv].
    destruct v as [[]|e]; [|by intros [= <- <-]].
    destruct (compute_checksum _) as [cs|e] eqn:Ec; [|by intros [= <- <-]].
    destruct (CloudRecord.compute_private_metadata_checksum _) as [pc|e] eqn:Ep;
      [|by intros [= <- <-]].
    intros [Hf' Hr]%IH. rewrite Hf in Hf'. split; [done|]. intros m' Hm'.
    destruct (Hr m' Hm') as (Hm & Hver & Hids). rewrite Hf in Hver. split_and!.
    + rewrite Hm. by destruct m.
    + intros u' [->|Hu']%elem_of_cons Hid; auto.
    + intros id. destruct (Hids id) as [[Heq Hno]|(u' & info & ? & ? & ? & ? & ?)].
      * destruct (decide (cr_id u = id)) as [<-|Hne]; [right|left].
        -- eexists u, _. rewrite Heq. cbn. rewrite lookup_insert_eq.
           split_and!; [by apply elem_of_cons; left|done..|by split_and!].
        -- split; [by rewrite Heq; cbn; rewrite lookup_insert_ne|].
           intros u' [->|Hu']%elem_of_cons; auto.
      * right. exists u', info. rewrite elem_of_cons. auto 10.
  - intros [Hf Hr]%IH. split; [done|]. intros m' Hm'. destruct (Hr m' Hm') as (Hm & Hver & Hids).
    split_and!; [done| |].
    + intros u' [->|Hu']%elem_of_cons Hid; [done|auto].
    + intros id. destruct (Hids id) as [[Heq Hno]|(u' & info & ? & ? & ? & ? & ?)].
      * left. split; [done|]. intros u' [->|Hu']%elem_of_cons; [done|auto].
      * right. exists u', info. rewrite elem_of_cons. auto 10.
Qed.

(** The calls of [push_updated_metadata] in order. *)
Lemma push_updated_metadata_inv c w r w' :
  push_updated_metadata c w = (r, w') →
  ∃ now base expected rl w1 w2,
    files w1 = files w ∧
    match pl_remote_metadata c with
    | Some remote => base = remote ∧ expected = cm_metadata_version remote
    | None => cm_records base = ∅ ∧ cm_metadata_version base = 1%Z ∧ expected = 0%Z ∧
        cm_vault_identity_token base = pl_local_vault_token c
    end ∧
    publish_loop c now (pl_uploads c) base w1 = (rl, w2) ∧
    match rl with
    | Err e => r = Err e ∧ files w' = files w
    | Ok m => ∃ t wp rp, files wp = files w ∧
        let m' := m <| cm_metadata_version ::= λ v, wrap64 (v + 1) |> <| cm_updated_at := t |> in
        push_metadata_atomic (pl_storage c) m' expected wp = (rp, w') ∧ r = res_map (λ _, m') rp
    end.
Proof.
  unfold push_updated_metadata, CloudMetadata.new, CloudMetadata.increment_version.
  unfold ior_bind, io_bind, io_ret. intros Hp.
  destruct (now w) as [t w0] eqn:E0. apply now_files in E0.
  set (start := match pl_remote_metadata c with Some _ => _ | None => _ end) in Hp.
  destruct (start w0) as [[base expected] w1] eqn:E1.
  destruct (publish_loop c _ _ base w1) as [rl w2] eqn:E2.
  exists (rfc3339_print t), base, expected, rl, w1, w2.
  assert (files w1 = files w ∧ match pl_remote_metadata c with
    | Some remote => base = remote ∧ expected = cm_metadata_version remote
    | None => cm_records base = ∅ ∧ cm_metadata_version base = 1%Z ∧ expected = 0%Z ∧
        cm_vault_identity_token base = pl_local_vault_token c end) as [Hf Hb].
  { subst start. destruct (pl_remote_metadata c); cbn in E1; [by simplify_eq|].
    destruct (now w0) as [t1 w0'] eqn:E3. simplify_eq. apply now_files in E3.
    split; [congruence|done]. }
  pose proof (publish_loop_spec _ _ _ _ _ _ _ E2) as [Hf2 _].
  split_and!; [done..|]. destruct rl as [m|e]; cbn in Hp; [|by simplify_eq; rewrite Hf2].
  destruct (now w2) as [t2 w3] eqn:E3. apply now_files in E3.
  exists (rfc3339_print t2), w3. cbn zeta.
  set (m' := m <| cm_metadata_version ::= _ |> <| cm_updated_at := _ |>) in *.
  destruct (push_metadata_atomic _ m' expected w3) as [rp w4]. exists rp.
  destruct rp as [[]|e]; cbn in Hp; simplify_eq; split_and!; (done || congruence).
Qed.

(** What a successful publication leaves: the file is the metadata returned, and each
    upload is verified and described by it. *)
Lemma published_uploads c w m w' :
  push_updated_metadata c w = (Ok m, w') →
  (∃ json, to_json m = Ok json ∧ files w' !! METADATA_FILENAME = Some json) ∧
  (∀ u, u ∈ pl_uploads c → cr_id u ∈ pl_uploaded_ids c →
     verified (files w') u ∧
     ∃ info, cm_records m !! cr_id u = Some info ∧ describes info u).
Proof.
  intros (t & base & expected & rl & w1 & w2 & Hf & Hb & Hp & Hr)%push_updated_metadata_inv.
  apply publish_loop_spec in Hp as [Hf2 Hspec].
  destruct rl as [m0|e]; [|by destruct Hr]. destruct Hr as (t' & wp & rp & Hfp & Hpush & Hm).
  destruct rp as [[]|e]; [|done]. cbn in Hm. simplify_eq.
  destruct (Hspec m0 eq_refl) as (Hm0 & Hver & Hids).
  destruct (push_metadata_ok _ _ _ _ _ Hpush) as [_ Hj]. split; [done|]. intros u Hu Hid. split.
  - destruct (Hver u Hu Hid) as (b & r' & Hb' & Hrest). exists b, r'. split; [|done].
    rewrite (push_metadata_frame _ _ _ _ _ _ _ Hpush);
      [congruence|apply record_path_not_temp|apply record_path_not_metadata].
  - destruct (Hids (cr_id u)) as [[_ Hno]|(u' & info & Hu' & Hid' & E & Hi & Hd)].
    { by destruct (Hno u Hu Hid). }
    exists info. split; [done|].
    destruct (verified_same_id _ _ _ (Hver u' Hu' Hid') (Hver u Hu Hid) E) as (Ev & Ec & Ep).
    unfold describes in *. by rewrite <- Ev, <- Ec, <- Ep.
Qed.

(** The metadata advances only over verified uploads.  When publishing succeeds,
    the metadata file is exactly the returned metadata, its version is one more than the
    downloaded one that the file still had, each uploaded record has an entry with its
    version and checksums and reads back from the store with them, and every other entry
    is the remote one. *)
Lemma published_metadata_verified c w m w' :
  push_updated_metadata c w = (Ok m, w') →
  (∃ json, to_json m = Ok json ∧ files w' !! METADATA_FILENAME = Some json) ∧
  cm_metadata_version m =
    wrap64 (default 1%Z (cm_metadata_version <$> pl_remote_metadata c) + 1) ∧
  (∀ stored, stored_metadata (files w) = Some stored →
     cm_metadata_version stored = default 0%Z (cm_metadata_version <$> pl_remote_metadata c)) ∧
  (∀ u, u ∈ pl_uploads c → cr_id u ∈ pl_uploaded_ids c →
     verified (files w') u ∧
     ∃ info, cm_records m !! cr_id u = Some info ∧ describes info u) ∧
  (∀ id, id ∉ pl_uploaded_ids c →
     cm_records m !! id = remote ← pl_remote_metadata c; cm_records remote !! id).
Proof.
  intros Hpub. pose proof (published_uploads _ _ _ _ Hpub) as [Hj Hups].
  apply push_updated_metadata_inv in Hpub as (t & base & expected & rl & w1 & w2 & Hf & Hb & Hp & Hr).
  apply publish_loop_spec in Hp as [Hf2 Hspec].
  destruct rl as [m0|e]; [|by destruct Hr]. destruct Hr as (t' & wp & rp & Hfp & Hpush & Hm).
  destruct rp as [[]|e]; [|done]. cbn in Hm. simplify_eq.
  destruct (Hspec m0 eq_refl) as (Hm0 & _ & Hids). clear Hspec.
  destruct (push_metadata_ok _ _ _ _ _ Hpush) as [Hs _].
  split_and!; [done| | |done|].
  - rewrite Hm0. cbn. destruct (pl_remote_metadata c); cbn; destruct_and?; simplify_eq; congruence.
  - intros stored Hst. rewrite Hfp, Hst in Hs.
    destruct (pl_remote_metadata c); destruct_and?; by simplify_eq.
  - intros id Hid. cbn. destruct (Hids id) as [[-> _]|(u & info & _ & ? & <- & _)]; [|done].
    destruct (pl_remote_metadata c); destruct_and?; simplify_eq; [done|].
    by replace (cm_records base) with (∅ : gmap string RecordVersionInfo).
Qed.

(** An upload that does not read back is never published.  If the store lacks a
    valid record with the version and checksums of some upload, publishing fails and
    changes no file. *)
Lemma unverified_not_published c w r w' u :
  push_updated_metadata c w = (r, w') →
  u ∈ pl_uploads c → cr_id u ∈ pl_uploaded_ids c → ¬ verified (files w) u →
  is_ok r = false ∧ files w' = files w.
Proof.
  intros (t & base & expected & rl & w1 & w2 & Hf & Hb & Hp & Hr)%push_updated_metadata_inv
    Hu Hid Hnv.
  apply publish_loop_spec in Hp as [Hf2 Hspec].
  destruct rl as [m|e]; [|by destruct Hr as [-> ->]].
  destruct (Hspec m eq_refl) as (_ & Hver & _). rewrite Hf in Hver. by destruct Hnv; auto.
Qed.
(** ** Downloads *)

Lemma with_uuid_keeps {A} (g : PipelineContext → A) s f c :
  (∀ id, g (f id c) = g c) → g (with_uuid s f c) = g c.
Proof. unfold with_uuid. by destruct (uuid_parse s). Qed.

Lemma record_health_keeps c id r :
  pl_downloads (record_health id r c) = pl_downloads c ∧
  pl_failed_ids (record_health id r c) = pl_failed_ids c.
Proof.
  unfold record_health. case_match; [done|]. case_match; [|done].
  split; by apply with_uuid_keeps.
Qed.

(** The effect of one result on the downloads and the failures. *)
Lemma accept_download_spec c id d :
  let c' := accept_download c (id, d) in
  match d with
  | Ok (Some r) =>
      if download_checks c id r
      then pl_downloads c' = <[id := r]> (pl_downloads c) ∧ pl_failed_ids c' = pl_failed_ids c
      else pl_downloads c' = pl_downloads c ∧ pl_failed_ids c' = pl_failed_ids c ++ [id]
  | Ok None => c' = c
  | Err _ => pl_downloads c' = pl_downloads c ∧ pl_failed_ids c' = pl_failed_ids c ++ [id]
  end.
Proof.
  destruct d as [[r|]|e]; cbn; try done. destruct (download_checks c id r); [|done].
  cbn [negb]. set (c1 := with_uuid id _ c).
  destruct (record_health_keeps c1 id r) as [Hd Hf]. cbn. rewrite Hd, Hf. subst c1.
  split; [f_equal|]; by apply with_uuid_keeps.
Qed.

Lemma download_checks_inputs c c' id r :
  inputs c' = inputs c → download_checks c' id r = download_checks c id r.
Proof. unfold download_checks. by intros (_ & -> & _)%inputs_eq. Qed.

(** What the acceptance of results promises, for one result and for a list of them. *)
Definition accepts (c c' : PipelineContext)
    (results : list (string * result (option CloudRecord) SyncError.t)) : Prop :=
  (∀ id, id ∈ pl_failed_ids c → id ∈ pl_failed_ids c') ∧
  (∀ id, is_Some (pl_downloads c !! id) → is_Some (pl_downloads c' !! id)) ∧
  (∀ id r, pl_downloads c' !! id = Some r →
     pl_downloads c !! id = Some r ∨
     (id, Ok (Some r)) ∈ results ∧ download_checks c id r = true) ∧
  (∀ id d, (id, d) ∈ results →
     d = Ok None ∨ id ∈ pl_failed_ids c' ∨ is_Some (pl_downloads c' !! id)).

Lemma accepts_one c id d : accepts c (accept_download c (id, d)) [(id, d)].
Proof.
  pose proof (accept_download_spec c id d) as Ha. cbn zeta in Ha. unfold accepts.
  setoid_rewrite list_elem_of_singleton.
  destruct d as [[r|]|e]; [destruct (download_checks c id r) eqn:Hc| |];
    [destruct Ha as [-> ->]|destruct Ha as [-> ->]|rewrite Ha|destruct Ha as [-> ->]];
    split_and!; intros; simplify_eq; rewrite ?elem_of_app, ?list_elem_of_singleton; auto.
  - rewrite lookup_insert_is_Some. destruct (decide (id = id0)); auto.
  - destruct (decide (id = id0)) as [<-|]; simplify_map_eq; auto.
  - rewrite lookup_insert_eq. eauto.
Qed.

Lemma accepts_app c c1 c2 l1 l2 :
  inputs c1 = inputs c → accepts c c1 l1 → accepts c1 c2 l2 → accepts c c2 (l1 ++ l2).
Proof.
  intros Hi (Hf1 & Hs1 & Hd1 & Hr1) (Hf2 & Hs2 & Hd2 & Hr2).
  setoid_rewrite (λ i r, download_checks_inputs _ _ i r Hi) in Hd2.
  split_and!; intros *; rewrite ?elem_of_app; [by auto..| |].
  - intros [Hr|[? ?]]%Hd2; [|by auto]. apply Hd1 in Hr as [?|[? ?]]; auto.
  - intros [Hr|Hr]; [apply Hr1 in Hr|apply Hr2 in Hr]; naive_solver.
Qed.

Lemma accepts_all c results : accepts c (foldl accept_download c results) results.
Proof.
  revert c. induction results as [|[id d] results IH]; intros c; cbn [foldl].
  { split_and!; auto. by intros ?? ?%elem_of_nil. }
  eapply (accepts_app _ _ _ [_]); [apply accept_download_inputs|apply accepts_one|apply IH].
Qed.

Lemma download_checks_ok c id r remote info :
  download_checks c id r = true → pl_remote_metadata c = Some remote →
  cm_records remote !! id = Some info →
  CloudRecord.checksum r = Ok (ri_checksum info) ∧
  ∀ p, ri_private_metadata_checksum info = Some p →
    CloudRecord.compute_private_metadata_checksum r = Ok (Some p).
Proof.
  unfold download_checks, CloudRecord.checksum. intros Hc Hm Hi. rewrite Hm in Hc. cbn in Hc. rewrite Hi in Hc.
  repeat (case_match; try done); reflect_bools; try done; naive_solver.
Qed.

(** A record handed over is in the store, was asked for and passed the checks. *)
Lemma download_all_sound c w c' w' id r :
  download_all c w = (c', w') → pl_downloads c = ∅ → pl_downloads c' !! id = Some r →
  id ∈ pl_to_download c ∧ download_checks c id r = true ∧
  ∃ b, files w !! record_path id = Some b ∧ from_json b = Ok r.
Proof.
  unfold download_all, io_bind, io_ret. intros Hd Hemp Hr. case_bool_decide.
  { simplify_eq. by rewrite Hemp in Hr. }
  destruct (batch_download_records _ _ _ _ _ w) as [res w1] eqn:E. simplify_eq.
  apply batch_download_spec in E as [Hids Ho]. rewrite Forall_forall in Ho.
  destruct (accepts_all c res) as (_ & _ & Hacc & _). rewrite Hemp in Hacc.
  destruct (Hacc _ _ Hr) as [?|[Hin Hc]]; [done|]. split_and!; [|done|by apply (Ho _ Hin)].
  rewrite <- Hids. by apply (list_elem_of_fmap_2 fst) in Hin.
Qed.

(** C13: downloads are checked and accounted for.  Every record the stage hands over is
    the one the store has, was asked for, is valid, and has the checksums of its metadata
    entry; and every record asked for is handed over, reported as failed, or missing from
    the store. *)
Theorem downloads_checked c w c' w' :
  download_all c w = (c', w') → pl_downloads c = ∅ →
  (∀ id r, pl_downloads c' !! id = Some r →
     id ∈ pl_to_download c ∧
     (∃ b, files w !! record_path id = Some b ∧ from_json b = Ok r) ∧
     CloudRecord.validate r = Ok () ∧
     ∀ remote info, pl_remote_metadata c = Some remote → cm_records remote !! id = Some info →
       CloudRecord.checksum r = Ok (ri_checksum info) ∧
       ∀ p, ri_private_metadata_checksum info = Some p →
         CloudRecord.compute_private_metadata_checksum r = Ok (Some p)) ∧
  (∀ id, id ∈ pl_to_download c →
     is_Some (pl_downloads c' !! id) ∨ id ∈ pl_failed_ids c' ∨
     files w !! record_path id = None).
Proof.
  intros Hd Hemp. split.
  - intros id r Hr. destruct (download_all_sound _ _ _ _ _ _ Hd Hemp Hr) as (Hin & Hc & Hb).
    split_and!; [done..| |].
    + unfold download_checks in Hc. destruct (CloudRecord.validate r) as [[]|]; done.
    + intros remote info. by apply download_checks_ok.
  - intros id Hin. unfold download_all, io_bind, io_ret in Hd. case_bool_decide as Hnil.
    { rewrite Hnil in Hin. by apply elem_of_nil in Hin. }
    destruct (batch_download_records _ _ _ _ _ w) as [res w1] eqn:E. simplify_eq.
    apply batch_download_spec in E as [Hids Ho]. rewrite Forall_forall in Ho.
    rewrite <- Hids in Hin. apply list_elem_of_fmap in Hin as ([i d] & -> & Hin).
    destruct (accepts_all c res) as (_ & _ & _ & Hall).
    destruct (Hall _ _ Hin) as [->|[?|?]]; auto. right. right. by apply (Ho _ Hin).
Qed.

(** ** The whole stage, and the pipeline *)

(** The stage changes only the files of the records to upload, the metadata file and
    temporary files. *)
Lemma push_frame c w o c' w' p :
  push c w = ((o, c'), w') → outside (pl_to_upload c) p → p ≠ METADATA_FILENAME →
  files w' !! p = files w !! p.
Proof.
  unfold push, ior_bind, io_bind, io_ret. destruct (push_records c w) as [c1 w1] eqn:E1.
  intros Hp Ho Hm. rewrite <- (proj2 (push_records_spec _ _ _ _ E1) _ Ho).
  case_bool_decide; cbn [negb] in Hp.
  { repeat case_match; by simplify_eq. }
  destruct (push_updated_metadata c1 w1) as [r w2] eqn:E2.
  assert (w' = w2) as -> by (repeat (simplify_eq; case_match); by simplify_eq).
  apply push_updated_metadata_inv in E2
    as (t & base & expected & rl & w3 & w4 & Hf & _ & _ & Hr).
  destruct rl as [m|e]; [|by destruct Hr as [_ ->]].
  destruct Hr as (t' & wp & rp & <- & Hpush & _). destruct Ho as [Ht _].
  by eapply push_metadata_frame.
Qed.

Lemma push_outcome c w o c' w' :
  push c w = ((o, c'), w') →
  inputs c' = inputs c ∧
  match o with
  | StageOutcome.Continue => pl_conflicts c = []
  | StageOutcome.ConflictDetected ids => ids = pl_conflicts c ∧ ids ≠ []
  | StageOutcome.Error _ => pl_uploaded_ids c' ≠ []
  | StageOutcome.NoChanges => False
  end.
Proof.
  unfold push, ior_bind, io_bind, io_ret. destruct (push_records c w) as [c1 w1] eqn:E1.
  destruct (push_records_spec _ _ _ _ E1) as [Hi _]. rewrite <- Hi.
  apply inputs_eq in Hi as (_ & _ & _ & _ & <- & _).
  case_bool_decide as Hu; cbn [negb].
  - case_bool_decide as Hc; cbn; intros; by simplify_eq.
  - destruct (push_updated_metadata c1 w1) as [[m|e] w2]; [|by intros; simplify_eq].
    cbn. case_bool_decide as Hc; cbn; intros; by simplify_eq.
Qed.

(** The order of the stages, once and for all. *)
Lemma execute_cases c w res c' w' :
  execute c w = ((res, c'), w') →
  ∃ o1 c1 w1, pull_metadata c w = ((o1, c1), w1) ∧
    match o1 with
    | StageOutcome.Continue =>
        match detect c1 with
        | (StageOutcome.Continue, c2) =>
            ∃ o3 c3 w3, push c2 w1 = ((o3, c3), w3) ∧ w' = w3 ∧ c' = c3 ∧
              res = match o3 with
                    | StageOutcome.Continue => PipelineResult.Completed
                    | StageOutcome.NoChanges => PipelineResult.NoChanges
                    | StageOutcome.ConflictDetected ids => PipelineResult.ConflictsDetected ids
                    | StageOutcome.Error e => PipelineResult.Error e
                    end
        | (_, c2) => res = PipelineResult.NoChanges ∧ w' = w1 ∧ c' = c2
        end
    | StageOutcome.NoChanges => res = PipelineResult.NoChanges ∧ w' = w1 ∧ c' = c1
    | StageOutcome.Error e => res = PipelineResult.Error e ∧ w' = w1 ∧ c' = c1
    | StageOutcome.ConflictDetected _ => False
    end.
Proof.
  unfold execute, stages. cbn [execute_stages execute_stage]. unfold io_bind, io_ret.
  destruct (pull_metadata c w) as [[o1 c1] w1] eqn:E1. intros Hx. exists o1, c1, w1.
  split; [done|]. destruct o1; simplify_eq; auto; [|by apply pull_metadata_outcome in E1].
  destruct (detect c1) as [o2 c2] eqn:E2.
  assert (o2 = StageOutcome.Continue ∨ o2 = StageOutcome.NoChanges) as [-> | ->]; simplify_eq; auto.
  { unfold detect in E2. repeat case_match; simplify_eq; auto. }
  destruct (push c2 w1) as [[o3 c3] w3] eqn:E3. exists o3, c3, w3. split; [done|].
  destruct (push_outcome _ _ _ _ _ E3) as [Hi Ho]. unfold resolve in Hx.
  apply inputs_eq in Hi as (_ & _ & _ & _ & Hc & _).
  destruct o3; simplify_eq; auto. rewrite Hc, Ho in Hx. cbn in Hx. by simplify_eq.
Qed.

(** A context as the task builds it, before the first stage. *)
Definition fresh_context (c : PipelineContext) : Prop :=
  undetected c ∧ pl_remote_metadata c = None ∧ pl_uploaded_ids c = [] ∧ pl_failed_ids c = [] ∧
  pl_downloads c = ∅ ∧ NoDup (local_record_ids c).

Lemma pull_metadata_context c w o c1 w1 :
  pull_metadata c w = ((o, c1), w1) →
  pl_local_records c1 = pl_local_records c ∧ pl_uploads c1 = pl_uploads c ∧
  pl_uploaded_ids c1 = pl_uploaded_ids c ∧ pl_failed_ids c1 = pl_failed_ids c ∧
  pl_downloads c1 = pl_downloads c ∧ (undetected c → undetected c1).
Proof.
  unfold pull_metadata, io_bind, io_ret. destruct (download_metadata _ w) as [[[m|]|e] w2];
    intros [= Hm <-]; repeat case_match; simplify_eq; by split_and!.
Qed.

Lemma stored_metadata_file fs m : stored_metadata fs = Some m → is_Some (fs !! METADATA_FILENAME).
Proof. unfold stored_metadata. by destruct (fs !! METADATA_FILENAME). Qed.

(** C6: a sync never overwrites a change it has not seen.  Whatever the outcome of the
    run, if the remote metadata has a newer version of a record than the local one, the
    record's file in the store is untouched. *)
Theorem newer_remote_untouched c w res c' w' m id info :
  execute c w = ((res, c'), w') → fresh_context c →
  stored_metadata (files w) = Some m → cm_records m !! id = Some info →
  (∀ l, l ∈ pl_local_records c → lr_record_id l = id → (lr_version l < ri_version info)%Z) →
  files w' !! record_path id = files w !! record_path id.
Proof.
  intros (o1 & c1 & w1 & Hp & Hr)%execute_cases (Hun & _ & _ & _ & _ & Hnd) Hst Hi Hnew.
  pose proof (pull_metadata_files _ _ _ _ _ Hp) as Hf.
  pose proof (pull_metadata_outcome _ _ _ _ _ Hp) as Ho.
  apply pull_metadata_context in Hp as (Hl & _ & _ & _ & _ & Hun1).
  destruct o1; try (by destruct_and?; subst; rewrite Hf); [|done].
  destruct (pl_remote_metadata c1) as [m1|] eqn:Hm1; [|by apply stored_metadata_file in Hst as [? ?]; simplify_map_eq].
  destruct Ho as (Hst1 & _ & _). simplify_eq.
  destruct (detect c1) as [o2 c2] eqn:Hd.
  destruct o2; try (by destruct_and?; subst; rewrite Hf).
  destruct Hr as (o3 & c3 & w3 & Hpush & -> & _). rewrite <- Hf.
  eapply (push_frame _ _ _ _ _ _ Hpush); [|apply record_path_not_metadata].
  split; [apply record_path_not_temp|]. intros i Hin <-%record_path_inj.
  apply (detect_uploads _ _ _ _ _ Hm1 (Hun1 Hun) Hd) in Hin as (l & Hll & <- & _ & Hle). rewrite Hl in Hll.
  specialize (Hle _ Hi). specialize (Hnew _ Hll eq_refl). lia.
Qed.

(** ** Every upload is accounted for *)

(** The lists of outcomes only grow. *)
Definition outcomes_grow (c c' : PipelineContext) : Prop :=
  pl_uploaded_ids c ⊆ pl_uploaded_ids c' ∧ pl_failed_ids c ⊆ pl_failed_ids c'.

#[local] Instance outcomes_grow_preorder : PreOrder outcomes_grow.
Proof. split; [done|]. intros ??? [??] [??]. split; by etransitivity. Qed.

Lemma upload_one_accounts r c w c' w' :
  upload_one r c w = (c', w') →
  outcomes_grow c c' ∧ (cr_id r ∈ pl_uploaded_ids c' ∨ cr_id r ∈ pl_failed_ids c').
Proof.
  unfold upload_one, io_bind, io_ret. destruct (upload_record _ _ _ w) as [[[]|e] w1];
    intros [= <- <-].
  - set (c1 := c <| pl_uploaded_ids ::= _ |>).
    assert (∀ g : PipelineContext → list string,
      (∀ x k, g (x <| pl_checkpoint ::= k |>) = g x) →
      g (with_uuid (cr_id r) (λ id c, c <| pl_checkpoint ::= SyncCheckpoint.record_push_done id |>)
        c1) = g c1) as Hk.
    { intros g Hg. apply with_uuid_keeps. intros id. apply Hg. }
    unfold outcomes_grow. rewrite !(Hk pl_uploaded_ids), !(Hk pl_failed_ids) by done. cbn.
    set_solver.
  - unfold outcomes_grow, fail_id. cbn. set_solver.
Qed.

Lemma upload_loop_accounts l c w c' w' :
  upload_loop l c w = (c', w') →
  outcomes_grow c c' ∧
  ∀ r, r ∈ l → cr_id r ∈ pl_uploaded_ids c' ∨ cr_id r ∈ pl_failed_ids c'.
Proof.
  revert c w. induction l as [|r l IH]; intros c w; cbn; unfold io_bind, io_ret.
  { intros [= <- _]. split; [done|]. by intros ? ?%elem_of_nil. }
  destruct (upload_one r c w) as [c1 w1] eqn:E. apply upload_one_accounts in E as [Hg Hr].
  intros [Hg' Hl]%IH. split; [by etransitivity|]. destruct Hg' as [Hu Hf].
  intros r' [->|Hin]%elem_of_cons; [|auto]. destruct Hr as [?|?]; auto.
Qed.

Lemma accept_download_uploaded c d :
  pl_uploaded_ids (accept_download c d) = pl_uploaded_ids c.
Proof.
  destruct d as [id [[r|]|e]]; cbn; try done. case_match; [done|].
  unfold record_health. repeat case_match; unfold with_uuid; repeat case_match; done.
Qed.

Lemma accept_downloads_uploaded l c :
  pl_uploaded_ids (foldl accept_download c l) = pl_uploaded_ids c.
Proof.
  revert c. induction l as [|d l IH]; intros c; cbn; [done|].
  by rewrite IH, accept_download_uploaded.
Qed.

Lemma download_all_accounts c w c' w' :
  download_all c w = (c', w') →
  outcomes_grow c c' ∧ pl_uploaded_ids c' = pl_uploaded_ids c.
Proof.
  unfold download_all, io_bind, io_ret. case_match; [by intros [= <- _]|].
  destruct (batch_download_records _ _ _ _ _ w) as [l w1]. intros [= <- _].
  pose proof (accept_downloads_uploaded l c) as Hu.
  split; [|done]. unfold outcomes_grow. rewrite Hu. split; [done|].
  intros id. apply (accepts_all c l).
Qed.

Lemma conflict_one_accounts id c w c' w' :
  conflict_one id c w = (c', w') →
  outcomes_grow c c' ∧ pl_uploaded_ids c' = pl_uploaded_ids c.
Proof.
  unfold conflict_one, io_bind, io_ret. case_match; [|by intros [= <- _]].
  destruct (download_record _ _ w) as [[[cr|]|e] w1]; intros [= <- _]; try done;
    [destruct (ConflictManager.store_conflict _ _)|];
    [unfold with_uuid; case_match; done|..]; unfold outcomes_grow, fail_id; cbn; set_solver.
Qed.

Lemma conflict_loop_accounts l c w c' w' :
  conflict_loop l c w = (c', w') →
  outcomes_grow c c' ∧ pl_uploaded_ids c' = pl_uploaded_ids c.
Proof.
  revert c w. induction l as [|id l IH]; intros c w; cbn; unfold io_bind, io_ret;
    [by intros [= <- _]|].
  destruct (conflict_one id c w) as [c1 w1] eqn:E. apply conflict_one_accounts in E as [Hg <-].
  intros [Hg' ->]%IH. split; [by etransitivity|done].
Qed.

Lemma push_records_accounts c w c' w' :
  push_records c w = (c', w') →
  ∀ r, r ∈ selected_uploads c → cr_id r ∈ pl_uploaded_ids c' ∨ cr_id r ∈ pl_failed_ids c'.
Proof.
  unfold push_records, io_bind. destruct (upload_loop _ c w) as [c1 w1] eqn:E1.
  destruct (download_all c1 w1) as [c2 w2] eqn:E2. intros E3 r Hr.
  apply upload_loop_accounts in E1 as [_ Hf1].
  apply download_all_accounts in E2 as [[_ Hf2] Hu2].
  apply conflict_loop_accounts in E3 as [[_ Hf3] Hu3]. rewrite Hu3, Hu2.
  destruct (Hf1 r Hr); auto.
Qed.

(** C3: a run that does not fail publishes every change it selected.  After a run that
    completed or stopped for conflicts, each record selected for upload was reported as
    failed, or it reads back from the store with its version and checksums and the
    metadata file, which is the metadata handed to the caller, describes it. *)
Theorem completed_sync_publishes c w res c' w' :
  execute c w = ((res, c'), w') → fresh_context c →
  (res = PipelineResult.Completed ∨ ∃ ids, res = PipelineResult.ConflictsDetected ids) →
  ∀ u, u ∈ pl_uploads c → cr_id u ∈ pl_to_upload c' →
  cr_id u ∈ pl_failed_ids c' ∨
  verified (files w') u ∧
  ∃ m json info, pl_final_metadata c' = Some m ∧ to_json m = Ok json ∧
    files w' !! METADATA_FILENAME = Some json ∧
    cm_records m !! cr_id u = Some info ∧ describes info u.
Proof.
  intros (o1 & c1 & w1 & Hp & Hr)%execute_cases Hfresh Hres u Hu Hsel.
  apply pull_metadata_context in Hp as (_ & Hups & _ & _ & _ & _).
  destruct o1; try naive_solver. destruct (detect c1) as [o2 c2] eqn:Hd.
  assert (pl_uploads c2 = pl_uploads c1) as Hups2.
  { destruct (pl_remote_metadata c1) as [m1|] eqn:Hm1.
    - by rewrite (detect_lists _ _ _ _ Hm1 Hd).
    - unfold detect in Hd. rewrite Hm1 in Hd. by simplify_eq. }
  destruct o2; try naive_solver.
  destruct Hr as (o3 & c3 & w3 & Hpush & -> & -> & ->).
  assert (u ∈ selected_uploads c2) as Hu2.
  { unfold selected_uploads. apply list_elem_of_filter. split; [|congruence].
    apply push_outcome in Hpush as [(_ & _ & E & _)%inputs_eq _]. by rewrite <- E. }
  unfold push, ior_bind, io_bind, io_ret in Hpush.
  destruct (push_records c2 w1) as [c4 w4] eqn:E4.
  pose proof (push_records_accounts _ _ _ _ E4 u Hu2) as Hacc.
  apply push_records_spec in E4 as [(_ & _ & _ & _ & _ & Hup4 & _)%inputs_eq _].
  case_bool_decide as Hnil; cbn [negb] in Hpush.
  - rewrite Hnil in Hacc. destruct Hacc as [[]%elem_of_nil|?]. left.
    repeat case_match; by simplify_eq.
  - destruct (push_updated_metadata c4 w4) as [[m|e] w5] eqn:E5; [|naive_solver].
    apply published_uploads in E5 as ((json & Hj & Hfile) & Hver).
    assert (c3 = c4 <| pl_final_metadata := Some m |> ∧ w3 = w5) as [-> ->]
      by (repeat case_match; by simplify_eq).
    cbn. destruct Hacc as [Hin|?]; [right|by left].
    destruct (Hver u) as [Hv (info & Hi & Hdesc)]; [congruence|done|].
    split; [done|]. by exists m, json, info.
Qed.

(** A run that reports no changes made none. *)
Lemma no_changes_reads_only c w c' w' :
  execute c w = ((PipelineResult.NoChanges, c'), w') → files w' = files w.
Proof.
  intros (o1 & c1 & w1 & Hp & Hr)%execute_cases.
  pose proof (pull_metadata_files _ _ _ _ _ Hp) as Hf.
  destruct o1; destruct_and?; simplify_eq; try done.
  destruct (detect c1) as [[] c2]; destruct_and?; simplify_eq; try done.
  destruct Hr as ([] & c3 & w3 & Hpush & _ & _ & ?); simplify_eq.
  by apply push_outcome in Hpush as [_ []].
Qed.

(** ** From one device to another *)

Lemma stored_metadata_json `{!SerdeLaws CloudMetadata} `{!JsonText CloudMetadata} fs m json :
  to_json m = Ok json → fs !! METADATA_FILENAME = Some json →
  CloudMetadata.validate m = Ok () → stored_metadata fs = Some m.
Proof.
  intros Hj Hf Hv. unfold stored_metadata. rewrite Hf. cbn. rewrite (json_utf8 m) by done. cbn.
  rewrite (serde_roundtrip m) by done. cbn. by rewrite Hv.
Qed.

(** C9: a published change reaches the other devices.  After a device has published an
    upload, a device of the same vault that has an older synced version of the record and
    looks at the metadata either fails to read it, and reports the error; or takes it for
    already seen, which happens only when the version that it recorded is the published one;
    or selects the record for download, and a record it then accepts has the version and
    the checksums that were uploaded. *)
Theorem published_change_propagates `{!SerdeLaws CloudMetadata} `{!JsonText CloudMetadata}
    c w m w' u d l o d1 w1 :
  push_updated_metadata c w = (Ok m, w') → CloudMetadata.validate m = Ok () →
  u ∈ pl_uploads c → cr_id u ∈ pl_uploaded_ids c →
  fresh_context d → pl_local_vault_token d = cm_vault_identity_token m →
  l ∈ pl_local_records d → lr_record_id l = cr_id u → lr_sync_status l = SyncStatus.Synced →
  (lr_version l < cr_version u)%Z →
  pull_metadata d w' = ((o, d1), w1) →
  (∃ e, o = StageOutcome.Error e ∧ d1 = d) ∨
  (o = StageOutcome.NoChanges ∧ d1 = d ∧ pl_local_metadata_version d = cm_metadata_version m) ∨
  (o = StageOutcome.Continue ∧
   ∀ o2 d2, detect d1 = (o2, d2) → cr_id u ∈ pl_to_download d2 ∧
     ∀ d3 w3 r, download_all d2 w1 = (d3, w3) → pl_downloads d3 !! cr_id u = Some r →
       cr_version r = cr_version u ∧ CloudRecord.checksum r = CloudRecord.checksum u ∧
       CloudRecord.compute_private_metadata_checksum r
         = CloudRecord.compute_private_metadata_checksum u).
Proof.
  intros Hpub Hval Hu Hid (Hun & _ & _ & _ & Hemp & _) Htok Hl Hlid Hsync Hlt Hpull.
  destruct (published_uploads _ _ _ _ Hpub) as [(json & Hj & Hf) Hups].
  destruct (Hups u Hu Hid) as [(b & r' & Hb & Hrj & _ & _ & Hv' & Hc' & Hp') (info & Hi & Hd & _ & _)].
  pose proof (stored_metadata_json _ _ _ Hj Hf Hval) as Hst.
  pose proof (pull_metadata_outcome _ _ _ _ _ Hpull) as Ho.
  pose proof (pull_metadata_files _ _ _ _ _ Hpull) as Hfs.
  pose proof (pull_metadata_context _ _ _ _ _ Hpull) as (Hloc & _ & _ & _ & Hemp1 & Hun1).
  destruct o; [right; right|done|left; by eexists|right; left].
  - destruct (pl_remote_metadata d1) as [m1|] eqn:Hm1; [|congruence].
    destruct Ho as (Hst1 & _). assert (m1 = m) as -> by congruence.
    split; [done|]. intros o2 d2 Hdet.
    pose proof (detect_lists _ _ _ _ Hm1 Hdet) as Hd2. split.
    + apply (detect_downloads _ _ _ _ _ Hm1 (Hun1 Hun) Hdet). left. exists l.
      rewrite Hloc, Hlid. split_and!; [done..|]. exists info. split; [done|]. left. lia.
    + intros d3 w3 r Hdl Hr.
      apply (download_all_sound _ _ _ _ _ _ Hdl) in Hr as (_ & _ & b1 & Hb1 & Hr1);
        [|by rewrite Hd2; cbn; rewrite Hemp1].
      rewrite Hfs, Hb in Hb1. simplify_eq. merge_eqs. done.
  - split; [done|]. split; [done|]. revert Hpull. unfold pull_metadata, io_bind, io_ret.
    destruct (download_metadata _ w') as [[[m1|]|e] w2] eqn:Hdm; intros; simplify_eq.
    apply download_metadata_outcome in Hdm. assert (m1 = m) as -> by congruence.
    case_match; simplify_eq; [|by case_bool_decide; simplify_eq].
    rewrite !andb_true_iff, Z.eqb_eq in *. by destruct_and!.
Qed.

End properties.
