(* ===== verification/SyncTask.v ===== *)
(** * The sync task (src/sync/task.rs)

    The actor around the state machine and the pipeline: it takes commands and timer
    ticks one at a time, runs sync cycles, schedules retries, keeps the conflicts of
    the last cycle and emits events. *)

From S2P Require Import Prelude Errors StateMachine Env Types CloudRecord CloudMetadata.
From S2P Require Import Storage Conflict Checkpoint Retry Pipeline Push.

Record SyncVaultData : Set := mkSyncVaultData {
  vd_local_records : list LocalRecordInfo;
  vd_uploads : list CloudRecord;
  vd_local_metadata_version : Z;
  vd_last_remote_metadata : option CloudMetadata;
  vd_local_vault_token : string;
}.

Module SyncCommand.
Inductive t : Set :=
| TriggerSync (data : option SyncVaultData)
| PullOnly
| ResolveConflict (record_id : string) (strategy : ResolutionStrategy.t)
| ResolveAllConflicts (strategy : ResolutionStrategy.t)
| Pause
| Resume
| PushMetadataAtomic (metadata : CloudMetadata) (expected_version : Z)
| DownloadMetadata
| Shutdown.
End SyncCommand.

Record SyncReport : Set := mkSyncReport {
  rp_uploaded : Z;
  rp_downloaded : Z;
  rp_conflicts : Z;
  rp_failed : Z;
  rp_duration_ms : Z;
}.

Module SyncEvent.
Inductive t : Set :=
| Completed (report : SyncReport) (health_states : list RecordHealthState)
    (health_deleted : list Uuid) (downloaded : list CloudRecord) (uploaded_ids : list string)
    (conflict_data : gmap string bytes) (final_metadata : option CloudMetadata)
| Failed (error : string) (state : SyncState.t)
| ConflictResolved (record_id : string)
| AllConflictsResolved (count : nat)
| StateChanged (from to : SyncState.t)
| MetadataPushed
| MetadataDownloaded (metadata : option CloudMetadata)
| ShutdownComplete
| Paused
| Resumed.
End SyncEvent.

Record PipelineExecutionOutcome : Type := mkPipelineExecutionOutcome {
  po_result : PipelineResult.t;
  po_downloaded_health_states : list RecordHealthState;
  po_downloaded_health_deleted : list Uuid;
  po_downloaded_records : list CloudRecord;
  po_uploaded_ids : list string;
  po_failed_count : Z;
  po_conflict_data : gmap string bytes;
  po_final_metadata : option CloudMetadata;
}.

(** The command channel is the input of [run]; the event channel is the log
    [tk_events] of what was sent, oldest first.  [tk_panicked] records a panic of the
    jitter draw, which ends the task. *)
Record SyncTask : Type := mkSyncTask {
  tk_state_machine : SyncStateMachine;
  tk_storage : CloudStorage;
  tk_backoff_timer : BackoffTimer;
  tk_paused : bool;
  tk_next_retry : option Instant;
  tk_vault_data : option SyncVaultData;
  tk_pending_conflicts : list ConflictItem;
  tk_events : list SyncEvent.t;
  tk_panicked : bool;
}.

#[export] Instance eta_SyncTask : Eta SyncTask := λ t,
  mkSyncTask (tk_state_machine t) (tk_storage t) (tk_backoff_timer t) (tk_paused t)
    (tk_next_retry t) (tk_vault_data t) (tk_pending_conflicts t) (tk_events t)
    (tk_panicked t).

Module SyncTask.

Definition new (storage : CloudStorage) (state_machine : SyncStateMachine) : SyncTask :=
  mkSyncTask state_machine storage (BackoffTimer.new RetryPolicy.default) false None None []
    [] false.

Definition send (e : SyncEvent.t) (t : SyncTask) : SyncTask :=
  t <| tk_events ::= λ l, l ++ [e] |>.

Definition current_state (t : SyncTask) : SyncState.t := sm_state (tk_state_machine t).

(** [self.state_machine.transition(trigger)], with the state it left. *)
Definition transition (trigger : SyncTrigger.t) (t : SyncTask)
  : result SyncState.t SyncError.t * SyncTask :=
  let '(r, m) := SyncStateMachine.transition trigger (tk_state_machine t) in
  (r, t <| tk_state_machine := m |>).

Definition fail (error : string) (t : SyncTask) : SyncTask :=
  send (SyncEvent.Failed error (current_state t)) t.

Section handlers.
Context {W : Type} `{Libs} `{Operator W} `{System W} `{Runtime}.
Context `{Serde CloudMetadata} `{Serde CloudRecord} `{Serde ConflictPayload}.
Context `{Serde EncryptedRecordMetadata} `{Serde AadFields}.

(** ** Errors *)

Definition error_trigger (timer : BackoffTimer) (error : SyncError.t) : SyncTrigger.t :=
  match error with
  | SyncError.NetworkTimeout _
  | SyncError.NetworkUnreachable _
  | SyncError.ConnectionRefused _
  | SyncError.LockAcquireFailed _
  | SyncError.ProviderError _ _ =>
      if BackoffTimer.should_retry timer error then SyncTrigger.OtherError
      else SyncTrigger.MaxRetriesExceeded
  | _ => SyncTrigger.OtherError
  end.

(** [self.next_retry = Some(Instant::now() + self.backoff_timer.next_delay())] *)
Definition schedule_retry (t : SyncTask) : io W SyncTask :=
  let* r := BackoffTimer.next_delay (tk_backoff_timer t) in
  match r with
  | Some (delay, timer) =>
      let* now := monotonic_now in
      io_ret (t <| tk_backoff_timer := timer |> <| tk_next_retry := Some (now + delay)%Z |>)
  | None => io_ret (t <| tk_panicked := true |>)
  end.

Definition handle_error (error : SyncError.t) (t : SyncTask) : io W SyncTask :=
  let from_state := current_state t in
  let trigger := error_trigger (tk_backoff_timer t) error in
  let '(r, t) := transition trigger t in
  match r with
  | Ok to_state =>
      let t := send (SyncEvent.StateChanged from_state to_state) t in
      if bool_decide (to_state = SyncState.Error) || bool_decide (to_state = SyncState.Offline)
      then
        let* t :=
          if BackoffTimer.should_retry (tk_backoff_timer t) error then schedule_retry t
          else io_ret t in
        io_ret (if tk_panicked t then t
                else send (SyncEvent.Failed (SyncError.display error) to_state) t)
      else io_ret t
  | Err e =>
      io_ret (fail (SyncError.display error +:+ "; transition error: " +:+ SyncError.display e) t)
  end.

(** ** The sync cycle *)

(** The context of a cycle, from the vault data when there is some. *)
Definition cycle_context (t : SyncTask) : PipelineContext :=
  let checkpoint := SyncCheckpoint.new temp_dir in
  match tk_vault_data t with
  | Some data =>
      let c := PipelineContext.new (tk_storage t) checkpoint (vd_local_metadata_version data)
        (vd_local_vault_token data) in
      let c := PipelineContext.set_last_remote_metadata (vd_last_remote_metadata data) c in
      let c := if negb (bool_decide (length (vd_local_records data) = 0))
        then PipelineContext.set_local_records (vd_local_records data) c else c in
      if negb (bool_decide (length (vd_uploads data) = 0))
      then PipelineContext.set_uploads (vd_uploads data) c else c
  | None =>
      PipelineContext.set_last_remote_metadata None
        (PipelineContext.new (tk_storage t) checkpoint 0 "")
  end.

(** The conflicts of the context that have data, a local record and a UUID. *)
Definition conflict_items (c : PipelineContext) : list ConflictItem :=
  omap (λ id,
    conflict_data ← pl_conflict_data_map c !! id;
    '(_, local_record) ← list_find (λ r, lr_record_id r = id) (pl_local_records c);
    record_uuid ← uuid_parse id;
    Some (mkConflictItem record_uuid conflict_data (lr_version local_record)))
    (pl_conflicts c).

(** [list.len() as u32] *)
Definition len_u32 {A} (l : list A) : Z := wrap32 (Z.of_nat (length l)).

Definition outcome_of (result : PipelineResult.t) (c : PipelineContext)
  : PipelineExecutionOutcome :=
  let failed_count := len_u32 (pl_failed_ids c) in
  mkPipelineExecutionOutcome result (pl_downloaded_health_states c)
    (pl_downloaded_health_deleted c) (hash_order (pl_downloads c)).*2 (pl_uploaded_ids c)
    failed_count (pl_conflict_data_map c)
    (if (failed_count =? 0)%Z then pl_final_metadata c else None).

Definition execute_pipeline (t : SyncTask) : io W (PipelineExecutionOutcome * SyncTask) :=
  let* (result, c) := execute (cycle_context t) in
  io_ret (outcome_of result c,
    if negb (bool_decide (pl_conflicts c = []))
    then t <| tk_pending_conflicts := conflict_items c |> else t).

(** The part that the three successful results share. *)
Definition finish_cycle (report : SyncReport) (outcome : PipelineExecutionOutcome)
    (t : SyncTask) : SyncTask :=
  let t := t <| tk_backoff_timer ::= BackoffTimer.reset |> in
  let from_state := current_state t in
  let t := t <| tk_state_machine ::= SyncStateMachine.reset |> in
  let to_state := current_state t in
  let t := send (SyncEvent.StateChanged from_state to_state) t in
  send (SyncEvent.Completed report (po_downloaded_health_states outcome)
    (po_downloaded_health_deleted outcome) (po_downloaded_records outcome)
    (po_uploaded_ids outcome) (po_conflict_data outcome) (po_final_metadata outcome)) t.

Definition handle_pipeline_result (outcome : PipelineExecutionOutcome) (start : Instant)
    (t : SyncTask) : io W SyncTask :=
  let* now := monotonic_now in
  let duration_ms := wrap64 (Z.quot (now - start) nanos_per_milli) in
  let uploaded_count := len_u32 (po_uploaded_ids outcome) in
  let downloaded_count := len_u32 (po_downloaded_records outcome) in
  match po_result outcome with
  | PipelineResult.Completed =>
      io_ret (finish_cycle (mkSyncReport uploaded_count downloaded_count 0
        (po_failed_count outcome) duration_ms) outcome t)
  | PipelineResult.NoChanges =>
      io_ret (finish_cycle (mkSyncReport 0 0 0 (po_failed_count outcome) duration_ms) outcome t)
  | PipelineResult.ConflictsDetected conflict_ids =>
      io_ret (finish_cycle (mkSyncReport uploaded_count downloaded_count
        (len_u32 conflict_ids) (po_failed_count outcome) duration_ms) outcome t)
  | PipelineResult.Error e => handle_error e t
  end.

(** The connectivity check and the pipeline, as the three triggers run them. *)
Definition run_cycle (t : SyncTask) : io W SyncTask :=
  let* r := check_connectivity (tk_storage t) in
  match r with
  | Err e => handle_error e t
  | Ok _ =>
      let* start := monotonic_now in
      let* (outcome, t) := execute_pipeline t in
      handle_pipeline_result outcome start t
  end.

(** ** Commands *)

(** [handle_trigger_sync] and [handle_pull_only] differ in the trigger only. *)
Definition start_sync (trigger : SyncTrigger.t) (t : SyncTask) : io W SyncTask :=
  if tk_paused t then io_ret t
  else if negb (SyncStateMachine.can_accept_commands (tk_state_machine t)) then io_ret t
  else
    let from_state := current_state t in
    let '(r, t) := transition trigger t in
    match r with
    | Ok to_state => run_cycle (send (SyncEvent.StateChanged from_state to_state) t)
    | Err e => io_ret (fail (SyncError.display e) t)
    end.

Definition handle_trigger_sync : SyncTask → io W SyncTask := start_sync SyncTrigger.TriggerSync.
Definition handle_pull_only : SyncTask → io W SyncTask := start_sync SyncTrigger.PullOnly.

Definition handle_retry_after_backoff (t : SyncTask) : io W SyncTask :=
  let from_state := current_state t in
  let '(r, t) := transition SyncTrigger.BackoffExpired t in
  match r with
  | Ok to_state =>
      let t := send (SyncEvent.StateChanged from_state to_state) t in
      if bool_decide (to_state = SyncState.Pulling) then run_cycle t else io_ret t
  | Err e => io_ret (fail (SyncError.display e) t)
  end.

(** [vault_data.uploads.iter().find(|r| r.id == record_id)] *)
Definition find_upload (t : SyncTask) (record_id : string) : option CloudRecord :=
  data ← tk_vault_data t;
  snd <$> list_find (λ r, cr_id r = record_id) (vd_uploads data).

(** Uploads the local record of a conflict with the version after [current]. *)
Definition upload_resolved (t : SyncTask) (record_id : string) (current : Z)
  : ior W () SyncError.t :=
  match find_upload t record_id with
  | Some cloud_record =>
      upload_record (tk_storage t) record_id
        (cloud_record <| cr_version := wrap64 (current + 1) |>)
  | None => io_ret (Ok ())
  end.

Definition handle_resolve_conflict (record_id : string) (strategy : ResolutionStrategy.t)
    (t : SyncTask) : io W SyncTask :=
  match uuid_parse record_id with
  | None => io_ret (fail ("invalid record_id: " +:+ record_id) t)
  | Some record_uuid =>
      match list_find (λ c, ci_record_id c = record_uuid) (tk_pending_conflicts t) with
      | None => io_ret (fail ("no pending conflict for record " +:+ record_id) t)
      | Some (_, item) =>
          let* result :=
            match strategy with
            | ResolutionStrategy.KeepLocal =>
                io_map_err (λ e, "upload failed for resolved record " +:+ record_id +:+ ": "
                    +:+ SyncError.display e)
                  (upload_resolved t record_id (ci_current_version item))
            | ResolutionStrategy.KeepRemote =>
                io_ret (map_err SyncError.display
                  (res_map (λ _, ())
                    (ConflictManager.resolve_keep_remote (ci_conflict_data item))))
            end in
          io_ret
            match result with
            | Ok _ =>
                send (SyncEvent.ConflictResolved record_id)
                  (t <| tk_pending_conflicts ::= filter (λ c, ci_record_id c ≠ record_uuid) |>)
            | Err e => fail e t
            end
      end
  end.

(** Whether one outcome of the batch takes effect. *)
Definition resolve_item (t : SyncTask) (strategy : ResolutionStrategy.t)
    (outcome : ResolveOutcome) (item : ConflictItem) : io W bool :=
  if is_ok (ro_result outcome) then
    if bool_decide (strategy = ResolutionStrategy.KeepLocal) then
      let* r := upload_resolved t (uuid_to_string (ci_record_id item))
                  (ci_current_version item) in
      io_ret (is_ok r)
    else io_ret true
  else io_ret false.

(** The loop of [handle_resolve_all]; returns the number of successes and the items
    that stay pending. *)
Fixpoint resolve_items (t : SyncTask) (strategy : ResolutionStrategy.t)
    (outcomes : list (ResolveOutcome * ConflictItem)) : io W (nat * list ConflictItem) :=
  match outcomes with
  | [] => io_ret (0, [])
  | (outcome, item) :: outcomes =>
      let* ok := resolve_item t strategy outcome item in
      let* (succeeded, kept) := resolve_items t strategy outcomes in
      io_ret (if ok : bool then (S succeeded, kept) else (succeeded, item :: kept))
  end.

Definition handle_resolve_all (strategy : ResolutionStrategy.t) (t : SyncTask)
  : io W SyncTask :=
  let items := tk_pending_conflicts t in
  let t := t <| tk_pending_conflicts := [] |> in
  if (length items =? 0)%nat then io_ret (send (SyncEvent.AllConflictsResolved 0) t)
  else
    let outcomes := ConflictManager.resolve_all_batch items strategy in
    let* (succeeded, kept) := resolve_items t strategy (zip outcomes items) in
    io_ret (send (SyncEvent.AllConflictsResolved succeeded)
      (t <| tk_pending_conflicts := kept |>)).

(** [let _ = self.event_tx.try_send(..)]: dropped when the channel is full. *)
Definition send_if_room (e : SyncEvent.t) (t : SyncTask) : io W SyncTask :=
  let* room := try_send in
  io_ret (if room : bool then send e t else t).

Definition handle_pause (t : SyncTask) : io W SyncTask :=
  send_if_room SyncEvent.Paused (t <| tk_paused := true |>).

Definition handle_resume (t : SyncTask) : io W SyncTask :=
  send_if_room SyncEvent.Resumed (t <| tk_paused := false |>).

Definition handle_download_metadata (t : SyncTask) : io W SyncTask :=
  let* r := download_metadata (tk_storage t) in
  io_ret
    match r with
    | Ok meta => send (SyncEvent.MetadataDownloaded meta) t
    | Err e => fail (SyncError.display e) t
    end.

Definition handle_push_metadata_atomic (metadata : CloudMetadata) (expected_version : Z)
    (t : SyncTask) : io W SyncTask :=
  let* r := push_metadata_atomic (tk_storage t) metadata expected_version in
  io_ret
    match r with
    | Ok _ => send SyncEvent.MetadataPushed t
    | Err e => fail (SyncError.display e) t
    end.

Definition handle_shutdown (t : SyncTask) : SyncTask :=
  let from_state := current_state t in
  let '(_, t) := transition SyncTrigger.Shutdown t in
  let to_state := current_state t in
  send SyncEvent.ShutdownComplete (send (SyncEvent.StateChanged from_state to_state) t).

(** ** The loop *)

(** What [select!] wakes up for. *)
Inductive input : Type :=
| Command (c : SyncCommand.t)
| Disconnected
| Timer.

Definition handle_command (c : SyncCommand.t) (t : SyncTask) : io W SyncTask :=
  match c with
  | SyncCommand.TriggerSync data => handle_trigger_sync (t <| tk_vault_data := data |>)
  | SyncCommand.PullOnly => handle_pull_only t
  | SyncCommand.ResolveConflict record_id strategy => handle_resolve_conflict record_id strategy t
  | SyncCommand.ResolveAllConflicts strategy => handle_resolve_all strategy t
  | SyncCommand.Pause => handle_pause t
  | SyncCommand.Resume => handle_resume t
  | SyncCommand.PushMetadataAtomic metadata expected =>
      handle_push_metadata_atomic metadata expected t
  | SyncCommand.DownloadMetadata => handle_download_metadata t
  | SyncCommand.Shutdown => io_ret (handle_shutdown t)
  end.

Definition handle_timer (t : SyncTask) : io W SyncTask :=
  match tk_next_retry t with
  | Some next_retry =>
      let* now := monotonic_now in
      if (next_retry <=? now)%Z then
        handle_retry_after_backoff (t <| tk_next_retry := None |>)
      else io_ret t
  | None => io_ret t
  end.

(** One round: whether the loop goes on, and the task. *)
Definition step (i : input) (t : SyncTask) : io W (bool * SyncTask) :=
  let* t :=
    match i with
    | Command c => handle_command c t
    | Disconnected => io_ret t
    | Timer => handle_timer t
    end in
  io_ret
    (match i with
     | Disconnected | Command SyncCommand.Shutdown => false
     | _ => negb (tk_panicked t)
     end, t).

Fixpoint run (inputs : list input) (t : SyncTask) : io W SyncTask :=
  match inputs with
  | [] => io_ret t
  | i :: inputs =>
      let* (go, t) := step i t in
      if go : bool then run inputs t else io_ret t
  end.

End handlers.
End SyncTask.

(** ** Properties *)

Import SyncTask.

Definition MAX_BACKOFF : Duration := seconds 300.

(** A task in the middle of a cycle. *)
Record running (t : SyncTask) : Prop := {
  run_state : current_state t = SyncState.Pulling;
  run_retry : tk_next_retry t = None;
  run_policy : bt_policy (tk_backoff_timer t) = RetryPolicy.default;
  run_alive : tk_panicked t = false;
}.

(** The events of a sync cycle. *)
Definition cycle_event (e : SyncEvent.t) : bool :=
  match e with
  | SyncEvent.Completed _ _ _ _ _ _ _ => true
  | SyncEvent.StateChanged _ to => bool_decide (to = SyncState.Pulling)
  | _ => false
  end.

(** What a command that starts no cycle does to a task: the state machine and the retry
    stay as they are, and nothing of a cycle is logged. *)
Definition quiet (t t' : SyncTask) : Prop :=
  (tk_state_machine t' = tk_state_machine t ∧ tk_next_retry t' = tk_next_retry t ∧
   tk_backoff_timer t' = tk_backoff_timer t ∧ tk_panicked t' = tk_panicked t) ∧
  ∃ l, tk_events t' = tk_events t ++ l ∧ Forall (λ e, cycle_event e = false) l.

#[export] Instance quiet_preorder : PreOrder quiet.
Proof.
  split.
  - intros t. split; [done|]. exists []. by rewrite app_nil_r.
  - intros t1 t2 t3 [(?&?&?&?) (l1 & E1 & Hl1)] [(?&?&?&?) (l2 & E2 & Hl2)].
    split; [split_and!; congruence|]. exists (l1 ++ l2).
    rewrite E2, E1, (assoc_L (++)). split; [done|]. by apply Forall_app.
Qed.

(** Solves [quiet] between tasks that differ in the other fields and one event. *)
Ltac solve_quiet :=
  split; [done|first [exists []; by rewrite app_nil_r
                     |eexists [_]; split; [done|by constructor]]].

Section properties.
Context {W : Type} `{L : Libs} `{SystemLaws W} `{HRt : Runtime}.
Context `{HSm : Serde CloudMetadata} `{HSr : Serde CloudRecord} `{Serde ConflictPayload}.
Context `{Serde EncryptedRecordMetadata} `{Serde AadFields}.

Lemma schedule_retry_spec t w t' w' :
  bt_policy (tk_backoff_timer t) = RetryPolicy.default → schedule_retry t w = (t', w') →
  ∃ timer now w1 delay, bt_policy timer = RetryPolicy.default ∧
    (monotonic_now w1).1 = now ∧ (0 ≤ delay ≤ MAX_BACKOFF)%Z ∧
    t' = t <| tk_backoff_timer := timer |> <| tk_next_retry := Some (now + delay)%Z |>.
Proof.
  unfold schedule_retry, BackoffTimer.next_delay, io_bind, io_ret. intros Hp.
  destruct (RetryPolicy.delay_for_attempt _ _ w) as [[d|] w1] eqn:E; cbn.
  - destruct (monotonic_now w1) as [now w2] eqn:En. intros [= <- <-].
    rewrite Hp in E. apply delay_range in E; [|done].
    exists ((tk_backoff_timer t) <| bt_attempt ::= λ n, wrap32 (n + 1) |>), now, w1, d.
    rewrite En. split; [exact Hp|]. split_and!; [done|apply E..|done].
  - exfalso. eapply (delay_never_panics (bt_policy (tk_backoff_timer t)));
      [..|by rewrite E]; rewrite Hp; vm_compute; done.
Qed.

Lemma error_trigger_eq timer e :
  error_trigger timer e =
    if transient e && negb (BackoffTimer.should_retry timer e)
    then SyncTrigger.MaxRetriesExceeded else SyncTrigger.OtherError.
Proof.
  unfold error_trigger, BackoffTimer.should_retry, RetryPolicy.should_retry.
  destruct e; try done; cbn; by destruct (_ <? _)%Z.
Qed.

(** Where an error leaves a running task. *)
Lemma handle_error_spec e t w t' w' :
  running t → handle_error e t w = (t', w') →
  bt_policy (tk_backoff_timer t') = RetryPolicy.default ∧ tk_panicked t' = false ∧
  tk_paused t' = tk_paused t ∧
  if BackoffTimer.should_retry (tk_backoff_timer t) e
  then current_state t' = SyncState.Error ∧
       ∃ w1 r, tk_next_retry t' = Some r ∧
         ((monotonic_now w1).1 ≤ r ≤ (monotonic_now w1).1 + MAX_BACKOFF)%Z
  else tk_next_retry t' = None ∧
       current_state t' = if transient e then SyncState.Pulling else SyncState.Error.
Proof.
  destruct t as [[st att mx le] sto timer pa nr vd pc ev pk].
  intros [Hs Hr Hp Ha]. cbn in *. subst. unfold handle_error. cbn [tk_backoff_timer].
  rewrite error_trigger_eq. destruct (BackoffTimer.should_retry timer e) eqn:Esr.
  - rewrite andb_false_r. cbn -[schedule_retry BackoffTimer.should_retry].
    cbn [tk_backoff_timer] in *. unfold io_bind, io_ret. rewrite Esr.
    rewrite bool_decide_eq_true_2 by done. cbn [orb].
    destruct (schedule_retry _ w) as [t1 w1] eqn:E.
    apply schedule_retry_spec in E as (timer' & now & w2 & d & Hp' & <- & Hd & ->); [|done].
    cbn. intros [= <- <-]. cbn. split_and!; try done.
    exists w2, ((monotonic_now w2).1 + d)%Z. split; [done|]. lia.
  - rewrite andb_true_r. destruct (transient e) eqn:Et;
      cbn -[schedule_retry BackoffTimer.should_retry]; unfold io_bind, io_ret;
      rewrite ?Esr; intros [= <- <-]; by split_and!.
Qed.

(** ** The states of a task *)

Record task_inv (t : SyncTask) : Prop := {
  inv_policy : bt_policy (tk_backoff_timer t) = RetryPolicy.default;
  inv_alive : tk_panicked t = false;
  inv_state : match current_state t with
    | SyncState.Idle | SyncState.Pulling => tk_next_retry t = None
    | SyncState.Error | SyncState.ShuttingDown => True
    | _ => False
    end;
}.

Lemma task_inv_quiet t t' : quiet t t' → task_inv t → task_inv t'.
Proof.
  intros [(Hm & Hr & Hb & Hp) _] [Hi1 Hi2 Hi3].
  split; unfold current_state in *; by rewrite ?Hm, ?Hr, ?Hb, ?Hp.
Qed.

Lemma handle_error_inv e t w t' w' :
  running t → handle_error e t w = (t', w') → task_inv t'.
Proof.
  intros Hrun (Hp & Ha & _ & Hs)%handle_error_spec; [|done]. split; [done..|].
  destruct (BackoffTimer.should_retry _ e); destruct Hs as [Hs Hs'].
  - by rewrite Hs.
  - rewrite Hs'. by destruct (transient e).
Qed.

Lemma finish_cycle_inv report outcome t :
  running t → task_inv (finish_cycle report outcome t) ∧
  current_state (finish_cycle report outcome t) = SyncState.Idle.
Proof. by intros [Hs Hr Hp Ha]. Qed.

Lemma finish_cycle_spec report outcome t :
  current_state t = SyncState.Pulling →
  (is_Some (po_final_metadata outcome) → rp_failed report = 0%Z) →
  ∃ report' hs hd dl up cd fm,
    tk_events (finish_cycle report outcome t) = tk_events t ++
      [SyncEvent.StateChanged SyncState.Pulling SyncState.Idle;
       SyncEvent.Completed report' hs hd dl up cd fm] ∧
    current_state (finish_cycle report outcome t) = SyncState.Idle ∧
    bt_attempt (tk_backoff_timer (finish_cycle report outcome t)) = 0%Z ∧
    (is_Some fm → rp_failed report' = 0%Z).
Proof.
  intros Hs Hf. unfold current_state in Hs. eexists report, _, _, _, _, _, _.
  split_and!; [|done..|exact Hf]. unfold finish_cycle, current_state. cbn.
  by rewrite Hs, <- (assoc_L (++)).
Qed.

Lemma execute_pipeline_running t w o t' w' :
  running t → execute_pipeline t w = ((o, t'), w') → running t'.
Proof.
  unfold execute_pipeline, io_bind, io_ret. destruct (execute _ w) as [[r c] w1].
  intros Hrun [= <- <- <-]. case_match; [|done]. destruct Hrun. by split.
Qed.

Lemma handle_pipeline_result_inv o start t w t' w' :
  running t → handle_pipeline_result o start t w = (t', w') → task_inv t'.
Proof.
  intros Hrun. unfold handle_pipeline_result, io_bind, io_ret.
  destruct (monotonic_now w) as [now w1]. destruct (po_result o);
    try (intros [= <- <-]; by apply finish_cycle_inv). by apply handle_error_inv.
Qed.

Lemma run_cycle_inv t w t' w' : running t → run_cycle t w = (t', w') → task_inv t'.
Proof.
  intros Hrun. unfold run_cycle, io_bind.
  destruct (check_connectivity _ w) as [[u|e] w1]; [|by apply handle_error_inv].
  destruct (monotonic_now w1) as [start w2].
  destruct (execute_pipeline t w2) as [[o t1] w3] eqn:E.
  apply execute_pipeline_running in E; [|done]. by apply handle_pipeline_result_inv.
Qed.

Lemma start_sync_inv trigger t w t' w' :
  trigger = SyncTrigger.TriggerSync ∨ trigger = SyncTrigger.PullOnly →
  task_inv t → start_sync trigger t w = (t', w') → task_inv t'.
Proof.
  intros Ht Hinv. unfold start_sync. case_match; [by intros [= <- <-]|].
  destruct t as [[st att mx le] sto timer pa nr vd pc ev pk].
  destruct Hinv as [Hp Ha Hs]. unfold current_state in Hs. cbn in *.
  destruct Ht; subst; destruct st; cbn; try done;
    try (intros [= <- <-]; split; by cbn);
    apply run_cycle_inv; by split.
Qed.

Lemma handle_timer_inv t w t' w' : task_inv t → handle_timer t w = (t', w') → task_inv t'.
Proof.
  intros Hinv. unfold handle_timer, io_bind, io_ret.
  destruct (tk_next_retry t) as [r|] eqn:Er; [|by intros [= <- <-]].
  destruct (monotonic_now w) as [now w1]. case_match; [|by intros [= <- <-]].
  destruct t as [[st att mx le] sto timer pa nr vd pc ev pk].
  destruct Hinv as [Hp Ha Hs]. unfold current_state in Hs. cbn in *. subst.
  unfold handle_retry_after_backoff.
  destruct st; try done; cbn; try (intros [= <- <-]; split; by cbn).
  unfold transition, SyncStateMachine.transition. cbn -[bool_decide run_cycle].
  destruct (att <=? mx)%Z; cbn -[bool_decide run_cycle].
  - rewrite bool_decide_eq_true_2 by done. by apply run_cycle_inv.
  - intros [= <- <-]. by split.
Qed.

Lemma handle_resolve_conflict_quiet id strategy t w t' w' :
  handle_resolve_conflict id strategy t w = (t', w') → quiet t t'.
Proof.
  unfold handle_resolve_conflict, io_bind, io_ret. destruct (uuid_parse id) as [u|];
    [|intros [= <- <-]; solve_quiet].
  destruct (list_find _ _) as [[n item]|]; [|intros [= <- <-]; solve_quiet].
  destruct ((match strategy with _ => _ end) w) as [[[]|e] w1]; intros [= <- <-]; solve_quiet.
Qed.

Lemma handle_resolve_all_quiet strategy t w t' w' :
  handle_resolve_all strategy t w = (t', w') → quiet t t'.
Proof.
  unfold handle_resolve_all, io_bind, io_ret. case_match; [intros [= <- <-]; solve_quiet|].
  destruct (resolve_items _ _ _ w) as [[n kept] w1]. intros [= <- <-]. solve_quiet.
Qed.

Lemma send_if_room_quiet e t w t' w' :
  cycle_event e = false → send_if_room e t w = (t', w') → quiet t t'.
Proof.
  unfold send_if_room, io_bind, io_ret. intros He.
  destruct (try_send w) as [[] w1]; intros [= <- <-]; solve_quiet.
Qed.

(** The commands that start no cycle. *)
Definition passive (c : SyncCommand.t) : bool :=
  match c with
  | SyncCommand.TriggerSync _ | SyncCommand.PullOnly | SyncCommand.Shutdown => false
  | _ => true
  end.

Lemma passive_quiet c t w t' w' :
  passive c = true → handle_command c t w = (t', w') → quiet t t'.
Proof.
  intros Hc. destruct c; try done; cbn [handle_command].
  - apply handle_resolve_conflict_quiet.
  - apply handle_resolve_all_quiet.
  - intros Hs. apply send_if_room_quiet in Hs; [|done]. etransitivity; [|exact Hs]. solve_quiet.
  - intros Hs. apply send_if_room_quiet in Hs; [|done]. etransitivity; [|exact Hs]. solve_quiet.
  - unfold handle_push_metadata_atomic, io_bind, io_ret.
    destruct (push_metadata_atomic _ _ _ w) as [[]?]; intros [= <- <-]; solve_quiet.
  - unfold handle_download_metadata, io_bind, io_ret.
    destruct (download_metadata _ w) as [[]?]; intros [= <- <-]; solve_quiet.
Qed.

Lemma handle_shutdown_inv t : task_inv t → task_inv (handle_shutdown t).
Proof.
  destruct t as [[st att mx le] sto timer pa nr vd pc ev pk]. intros [Hp Ha _].
  by destruct st.
Qed.

Lemma step_inv i t w go t' w' : task_inv t → step i t w = ((go, t'), w') → task_inv t'.
Proof.
  intros Hinv. unfold step, io_bind, io_ret. destruct i as [c| |]; [|by intros [= _ <- <-]|].
  - destruct (handle_command c t w) as [t1 w1] eqn:E. intros [= _ <- _].
    destruct (passive c) eqn:Hc; [by eapply task_inv_quiet, Hinv; eapply passive_quiet|].
    destruct c; try done; cbn in E.
    + eapply start_sync_inv in E; [done|by left|]. by destruct Hinv; split.
    + eapply start_sync_inv in E; [done|by right|done].
    + unfold io_ret in E. simplify_eq. by apply handle_shutdown_inv.
  - destruct (handle_timer t w) as [t1 w1] eqn:E. intros [= _ <- _]. by eapply handle_timer_inv.
Qed.

Lemma run_inv inputs t w t' w' : task_inv t → run inputs t w = (t', w') → task_inv t'.
Proof.
  revert t w. induction inputs as [|i inputs IH]; intros t w Hinv; cbn;
    unfold io_bind, io_ret; [by intros [= <- <-]|].
  destruct (step i t w) as [[go t1] w1] eqn:E. apply step_inv in E; [|done].
  destruct go; [by apply IH|by intros [= <- <-]].
Qed.

(** Between two inputs a task is idle, in error, stuck in pulling or shutting down,
    never in any other state of the diagram, and it has not panicked; a retry is only
    ever scheduled in the error state or left over at shutdown. *)
Lemma task_states storage n inputs w t' w' :
  run inputs (new storage (SyncStateMachine.new n)) w = (t', w') →
  current_state t' ∈
    [SyncState.Idle; SyncState.Pulling; SyncState.Error; SyncState.ShuttingDown] ∧
  tk_panicked t' = false ∧
  (is_Some (tk_next_retry t') →
     current_state t' = SyncState.Error ∨ current_state t' = SyncState.ShuttingDown).
Proof.
  intros [Hp Ha Hs]%run_inv; [|by split].
  destruct (current_state t'); try done; rewrite ?Hs; split_and!; try done; try set_solver;
    by intros [].
Qed.

(** ** Retries, and the tasks that never sync again *)

(** No retry is scheduled and no command can start a cycle. *)
Definition dead (t : SyncTask) : Prop :=
  tk_next_retry t = None ∧
  (current_state t = SyncState.Pulling ∨ current_state t = SyncState.Error).

(** An error schedules a retry or kills the task.  After a failed cycle, a
    retryable error within the retry budget leaves the task in the error state with a
    retry at most 300 seconds away; any other error leaves it dead, in pulling when the
    budget of a transient error is used up and in error when the error is permanent. *)
Lemma handle_error_outcome e t w t' w' :
  running t → handle_error e t w = (t', w') →
  if BackoffTimer.should_retry (tk_backoff_timer t) e
  then current_state t' = SyncState.Error ∧
       ∃ w1 r, tk_next_retry t' = Some r ∧
         ((monotonic_now w1).1 ≤ r ≤ (monotonic_now w1).1 + MAX_BACKOFF)%Z
  else dead t' ∧
       current_state t' = if transient e then SyncState.Pulling else SyncState.Error.
Proof.
  intros Hrun (_ & _ & _ & Hs)%handle_error_spec; [|done].
  destruct (BackoffTimer.should_retry _ e); [done|]. destruct Hs as [Hn Hs].
  split; [|done]. split; [done|]. rewrite Hs. destruct (transient e); auto.
Qed.

Lemma dead_quiet t t' : quiet t t' → dead t → dead t'.
Proof.
  intros [(Hm & Hr & _) _]. unfold dead, current_state. by rewrite Hm, Hr.
Qed.

Lemma start_sync_dead trigger t w t' w' :
  trigger = SyncTrigger.TriggerSync ∨ trigger = SyncTrigger.PullOnly →
  dead t → start_sync trigger t w = (t', w') → quiet t t'.
Proof.
  intros Ht [_ Hs]. unfold start_sync. case_match; [by intros [= <- <-]|].
  destruct t as [[st att mx le] sto timer pa nr vd pc ev pk]. unfold current_state in Hs. cbn in Hs.
  destruct Ht, Hs; subst; cbn; intros [= <- <-]; solve_quiet.
Qed.

Lemma step_dead i t w go t' w' :
  dead t → step i t w = ((go, t'), w') → i ≠ Command SyncCommand.Shutdown → quiet t t'.
Proof.
  intros Hd. unfold step, io_bind, io_ret. destruct i as [c| |]; [|by intros [= _ <- <-]|].
  - destruct (handle_command c t w) as [t1 w1] eqn:E. intros [= _ <- _] Hne.
    destruct (passive c) eqn:Hc; [by eapply passive_quiet|].
    destruct c; try done; cbn in E.
    + apply start_sync_dead in E; [|by left|done]. etransitivity; [|exact E]. solve_quiet.
    + apply start_sync_dead in E; [done|by right|done].
  - unfold handle_timer. rewrite (proj1 Hd). unfold io_ret. by intros [= _ <- _].
Qed.

(** A dead task stays dead.  Whatever commands and ticks follow, short of a
    shutdown, it never starts another cycle: it stays dead and logs no event of one. *)
Lemma dead_task_stays_dead inputs t w t' w' :
  dead t → Command SyncCommand.Shutdown ∉ inputs → run inputs t w = (t', w') →
  dead t' ∧ quiet t t'.
Proof.
  revert t w. induction inputs as [|i inputs IH]; intros t w Hd Hno; cbn;
    unfold io_bind, io_ret; [by intros [= <- <-]|].
  apply not_elem_of_cons in Hno as [Hi Hno].
  destruct (step i t w) as [[go t1] w1] eqn:E. apply step_dead in E as Hq; [|done..].
  assert (dead t1) as Hd1 by (by eapply dead_quiet).
  destruct go; [|by intros [= <- <-]].
  intros [Hd' Hq']%IH; [|done..]. split; [done|]. by etransitivity.
Qed.

(** A machine treats the two commands that start a cycle alike. *)
Lemma start_triggers_agree m :
  SyncStateMachine.transition SyncTrigger.PullOnly m
    = SyncStateMachine.transition SyncTrigger.TriggerSync m.
Proof. by destruct m as [[] ? ? ?]. Qed.

(** A pull-only sync is a full sync.  In every state the [PullOnly] command does
    exactly what [TriggerSync] does with the vault data of the last cycle: it runs the
    same pipeline, push stage and uploads included. *)
Lemma pull_only_is_full_sync t w :
  handle_command SyncCommand.PullOnly t w
    = handle_command (SyncCommand.TriggerSync (tk_vault_data t)) t w.
Proof.
  replace (handle_command (SyncCommand.TriggerSync (tk_vault_data t)) t w)
    with (handle_trigger_sync t w) by by destruct t.
  cbn [handle_command]. unfold handle_pull_only, handle_trigger_sync, start_sync, transition.
  by rewrite start_triggers_agree.
Qed.

(** Pausing stops the commands but not the timer.  A paused task ignores both
    commands that start a cycle; but a retry that is due starts one, paused or not. *)
Lemma pause_ignored_by_retry t w :
  tk_paused t = true →
  (∀ d, handle_command (SyncCommand.TriggerSync d) t w = (t <| tk_vault_data := d |>, w)) ∧
  handle_command SyncCommand.PullOnly t w = (t, w) ∧
  (∀ r now w1, current_state t = SyncState.Error → tk_next_retry t = Some r →
     retry_allowed (tk_state_machine t) = true → monotonic_now w = (now, w1) → (r ≤ now)%Z →
     handle_timer t w =
       run_cycle (send (SyncEvent.StateChanged SyncState.Error SyncState.Pulling)
         (t <| tk_next_retry := None |>
            <| tk_state_machine ::= λ m, m <| sm_state := SyncState.Pulling |> |>)) w1).
Proof.
  destruct t as [[st att mx le] sto timer pa nr vd pc ev pk]. cbn [tk_paused]. intros ->.
  split_and!; [done..|]. unfold current_state, retry_allowed. cbn -[run_cycle].
  intros r now w1 -> -> Ha Hn Hle. unfold handle_timer, io_bind. cbn -[run_cycle bool_decide].
  rewrite Hn, (proj2 (Z.leb_le _ _) Hle).
  unfold handle_retry_after_backoff, transition, SyncStateMachine.transition.
  cbn -[run_cycle bool_decide]. rewrite Ha. cbn -[run_cycle bool_decide].
  by rewrite bool_decide_eq_true_2.
Qed.

(** Shutdown is the last thing a task does.  It ends in the shutting-down state
    with the transition and the completion as its last events, and leaves the store and
    whatever input follows untouched. *)
Lemma shutdown_stops rest t w t' w' :
  run (Command SyncCommand.Shutdown :: rest) t w = (t', w') →
  w' = w ∧ current_state t' = SyncState.ShuttingDown ∧
  tk_events t' = tk_events t ++
    [SyncEvent.StateChanged (current_state t) SyncState.ShuttingDown; SyncEvent.ShutdownComplete].
Proof.
  cbn. unfold io_bind, io_ret. intros [= <- <-].
  destruct t as [[st att mx le] sto timer pa nr vd pc ev pk].
  destruct st; unfold handle_shutdown, current_state; cbn; by rewrite <- (assoc_L (++)).
Qed.

(** A finished cycle reports once and rests.  It either logs the return to idle and
    one completion, after which the task is idle with its back-off reset, or it logs no
    completion and is not idle; and a completion hands over a metadata snapshot only when
    it reports no failed record. *)
Lemma cycle_reports_once t w t' w' :
  running t → run_cycle t w = (t', w') →
  (∃ report hs hd dl up cd fm,
     tk_events t' = tk_events t ++
       [SyncEvent.StateChanged SyncState.Pulling SyncState.Idle;
        SyncEvent.Completed report hs hd dl up cd fm] ∧
     current_state t' = SyncState.Idle ∧ bt_attempt (tk_backoff_timer t') = 0%Z ∧
     (is_Some fm → rp_failed report = 0%Z)) ∨
  current_state t' ≠ SyncState.Idle.
Proof.
  intros Hrun. assert (∀ e t w t' w', running t → handle_error e t w = (t', w') →
    current_state t' ≠ SyncState.Idle) as He.
  { clear. intros e t w t' w' Hrun (_ & _ & _ & Hs)%handle_error_spec; [|done].
    destruct (BackoffTimer.should_retry _ e); destruct Hs as [Hn Hs]; [congruence|].
    rewrite Hs. by destruct (transient e). }
  unfold run_cycle, io_bind.
  destruct (check_connectivity _ w) as [[u|e] w1]; [|eauto].
  destruct (monotonic_now w1) as [start w2].
  destruct (execute_pipeline t w2) as [[o t1] w3] eqn:E.
  pose proof (execute_pipeline_running _ _ _ _ _ Hrun E) as Hrun1.
  assert (tk_events t1 = tk_events t ∧ (is_Some (po_final_metadata o) → po_failed_count o = 0%Z))
    as [Hev Hfm].
  { unfold execute_pipeline, io_bind, io_ret in E. destruct (execute _ w2) as [[r c] w4].
    injection E as <- <- _. split; [by case_match|]. cbn.
    destruct (Z.eqb_spec (len_u32 (pl_failed_ids c)) 0); [done|by intros []]. }
  unfold handle_pipeline_result, io_bind, io_ret. destruct (monotonic_now w3) as [now w4].
  destruct Hrun1 as [Hs Hr Hp Ha]. unfold current_state in Hs.
  destruct (po_result o); [intros [= <- <-]; left..|by eauto using running].
  all: by rewrite <- Hev; apply finish_cycle_spec.
Qed.

(** ** Conflict resolution *)

Lemma upload_resolved_stored t id current w u w' r :
  upload_resolved t id current w = (Ok u, w') → find_upload t id = Some r →
  ∃ json, to_json (r <| cr_version := wrap64 (current + 1) |>) = Ok json ∧
    files w' !! record_path id = Some json.
Proof.
  unfold upload_resolved. intros Hu Hf. rewrite Hf in Hu. unfold upload_record in Hu. run_io.
  eauto using write_file_stored.
Qed.

(** Resolving a conflict logs one event and does what it says.  When it reports the
    resolution, the record had a pending conflict, exactly the conflicts of that record
    are gone, and a local record that was kept is in the store under the version after
    the conflicting one; otherwise every conflict is still pending. *)
Lemma resolve_conflict_outcome id strategy t w t' w' :
  handle_resolve_conflict id strategy t w = (t', w') →
  ∃ e, tk_events t' = tk_events t ++ [e] ∧
    match e with
    | SyncEvent.ConflictResolved i => i = id ∧
        ∃ u item, uuid_parse id = Some u ∧ item ∈ tk_pending_conflicts t ∧
          ci_record_id item = u ∧
          tk_pending_conflicts t' = filter (λ c, ci_record_id c ≠ u) (tk_pending_conflicts t) ∧
          (strategy = ResolutionStrategy.KeepLocal → ∀ r, find_upload t id = Some r →
             ∃ json, to_json (r <| cr_version := wrap64 (ci_current_version item + 1) |>) = Ok json ∧
               files w' !! record_path id = Some json)
    | SyncEvent.Failed _ s =>
        tk_pending_conflicts t' = tk_pending_conflicts t ∧ s = current_state t
    | _ => False
    end.
Proof.
  unfold handle_resolve_conflict. destruct (uuid_parse id) as [u|] eqn:Eu;
    [|intros [= <- <-]; by eexists].
  destruct (list_find _ _) as [[n item]|] eqn:Ef; [|intros [= <- <-]; by eexists].
  apply list_find_Some in Ef as (Hin & Hid & _). apply list_elem_of_lookup_2 in Hin.
  unfold io_bind, io_ret. destruct ((match strategy with _ => _ end) w) as [[[]|e] w1] eqn:E;
    intros [= <- <-]; eexists; (split; [done|]); [|done].
  split; [done|]. exists u, item. split_and!; [done..|].
  intros -> r Hr. unfold io_map_err, io_bind, io_ret in E.
  destruct (upload_resolved _ _ _ w) as [[v|] w2] eqn:Eup; [|done].
  cbn in E. simplify_eq. by eapply upload_resolved_stored.
Qed.

Lemma resolve_items_spec t strategy l w n kept w' :
  resolve_items t strategy l w = ((n, kept), w') →
  (n + length kept = length l)%nat ∧ kept `sublist_of` l.*2 ∧
  ∀ o item, (o, item) ∈ l → is_ok (ro_result o) = false → item ∈ kept.
Proof.
  revert w n kept w'. induction l as [|[o item] l IH]; intros w n kept w';
    cbn [resolve_items];
    unfold io_bind, io_ret.
  { intros [= <- <- _]. split_and!; [done..|]. by intros ?? ?%elem_of_nil. }
  destruct (resolve_item t strategy o item w) as [ok w1] eqn:Eok.
  destruct (resolve_items t strategy l w1) as [[n1 kept1] w2] eqn:E.
  apply IH in E as (Hn & Hsub & Hk). intros Hr.
  assert (is_ok (ro_result o) = false → ok = false) as Hok.
  { unfold resolve_item in Eok. intros Hf. rewrite Hf in Eok. unfold io_ret in Eok.
    by simplify_eq. }
  destruct ok; simplify_eq; cbn; split_and!; try lia; try by constructor.
  - intros o' i [?|?]%elem_of_cons Hf; simplify_eq; [by apply Hok in Hf|eauto].
  - intros o' i [?|?]%elem_of_cons Hf; simplify_eq; apply elem_of_cons; eauto.
Qed.

(** Resolving all conflicts loses none.  The reported number and the conflicts that
    are still pending add up to those that were pending, the pending ones keep their
    order, and a conflict whose stored remote side does not pass its checks stays. *)
Lemma resolve_all_accounts strategy t w t' w' :
  handle_resolve_all strategy t w = (t', w') →
  ∃ n, tk_events t' = tk_events t ++ [SyncEvent.AllConflictsResolved n] ∧
    (n + length (tk_pending_conflicts t') = length (tk_pending_conflicts t))%nat ∧
    tk_pending_conflicts t' `sublist_of` tk_pending_conflicts t ∧
    (strategy = ResolutionStrategy.KeepRemote → ∀ item, item ∈ tk_pending_conflicts t →
       is_ok (ConflictManager.resolve_keep_remote (ci_conflict_data item)) = false →
       item ∈ tk_pending_conflicts t').
Proof.
  unfold handle_resolve_all, io_bind, io_ret. destruct (Nat.eqb_spec (length (tk_pending_conflicts t)) 0) as [Hz|Hz].
  { apply length_zero_iff_nil in Hz. rewrite Hz. intros [= <- <-]. exists 0. cbn.
    split_and!; [done..|]. by intros _ ? ?%elem_of_nil. }
  set (outcomes := ConflictManager.resolve_all_batch _ strategy).
  destruct (resolve_items _ _ _ w) as [[n kept] w1] eqn:E. intros [= <- <-]. exists n. cbn.
  apply resolve_items_spec in E as (Hn & Hsub & Hk).
  assert (length outcomes = length (tk_pending_conflicts t)) as Hl by apply length_fmap.
  rewrite length_zip_with, Hl, Nat.min_id in Hn. rewrite snd_zip in Hsub by lia.
  split_and!; [done..|]. intros -> item Hin Hf.
  apply list_elem_of_lookup in Hin as [i Hi].
  apply (Hk (ConflictManager.resolve_one ResolutionStrategy.KeepRemote item)).
  - apply list_elem_of_lookup. exists i. apply lookup_zip_Some. split; [|done].
    unfold outcomes, ConflictManager.resolve_all_batch. by rewrite list_lookup_fmap, Hi.
  - cbn. by destruct (ConflictManager.resolve_keep_remote _).
Qed.

End properties.
