(* ===== verification/Crypto.v ===== *)
(** * Key derivation and encryption (src/crypto)

    hkdf.rs, xchacha20.rs and argon2.rs over the crates they wrap: the crates are the
    class [CryptoLibs], the operating system's random bytes and locked pages the class
    [Secure].  A key is its 32 bytes; that it lies in locked memory is an effect that can
    fail when the key is made. *)

From S2P Require Import Prelude Env.

Module CryptoError.

Inductive t : Set :=
| DecryptionFailed
| EncryptionFailed
| InvalidKey
| InvalidNonce
| DerivationFailed.

Definition display (e : t) : string :=
  match e with
  | DecryptionFailed => "decryption failed"
  | EncryptionFailed => "encryption failed"
  | InvalidKey => "invalid key"
  | InvalidNonce => "invalid nonce"
  | DerivationFailed => "key derivation failed"
  end.

End CryptoError.

Record Argon2Params : Set := mkArgon2Params {
  m_cost : Z;
  t_cost : Z;
  p_cost : Z;
}.

Module Argon2Params.
Definition high : Argon2Params := mkArgon2Params 65536 3 2.
Definition medium : Argon2Params := mkArgon2Params 49152 2 2.
Definition low : Argon2Params := mkArgon2Params 32768 2 1.
End Argon2Params.

(** Parameters as the code has them, three [u32]. *)
Definition u32_params (p : Argon2Params) : Prop :=
  is_u32 (m_cost p) ∧ is_u32 (t_cost p) ∧ is_u32 (p_cost p).

(** ** The crates

    [hkdf_expand salt key info] is 32 bytes of HKDF-SHA256; [aead_seal key nonce aad m]
    and [aead_open] are XChaCha20-Poly1305; [argon2_params] is the check of
    [Params::new] and [argon2id] the hash. *)
Class CryptoLibs : Type := {
  hkdf_expand : bytes → bytes → bytes → option bytes;
  aead_seal : bytes → bytes → bytes → bytes → result bytes string;
  aead_open : bytes → bytes → bytes → bytes → result bytes string;
  argon2_params : Argon2Params → result () string;
  argon2id : Argon2Params → bytes → bytes → result bytes string;
}.

Class CryptoLibLaws `{CryptoLibs} : Prop :=
  aead_roundtrip key nonce aad m c :
    aead_seal key nonce aad m = Ok c → aead_open key nonce aad c = Ok m.

(** [os_random n] are [n] bytes of the generator; [lock_pages] allocates the locked
    page of a key. *)
Class Secure (W : Type) : Type := {
  os_random : nat → io W bytes;
  lock_pages : ior W () string;
}.

Class SecureLaws (W : Type) `{Secure W} : Prop :=
  os_random_length n w b w' : os_random n w = (b, w') → String.length b = n.

Section crypto.
Context {W : Type} `{CryptoLibs} `{Secure W}.

(** [LockedKey32::new] *)
Definition locked_key (key : bytes) : ior W bytes string :=
  let! _ := lock_pages in
  lift (Ok key).

(** [LockedKey32::generate_from] *)
Definition locked_generate (f : result bytes string) : ior W bytes string :=
  let! _ := lock_pages in
  lift f.

(** ** hkdf.rs *)

Definition derive (salt key info : bytes) : result bytes CryptoError.t :=
  ok_or CryptoError.DerivationFailed (hkdf_expand salt key info).

Definition derive_kek (sk : bytes) : result bytes CryptoError.t :=
  derive "open-keyring-v1" sk "master-kek".

Definition derive_dek (kek : bytes) (version : Z) : result bytes CryptoError.t :=
  derive "open-keyring-dek" kek ("dek-v" +:+ pretty version).

Definition derive_device_key (kek : bytes) (device_id : string) : result bytes CryptoError.t :=
  derive "open-keyring-device" kek ("bio-" +:+ device_id).

Definition derive_index_key (kek : bytes) : result bytes CryptoError.t :=
  derive "open-keyring-index" kek "search-index-v1".

Definition derive_db_page_key (kek : bytes) : result bytes CryptoError.t :=
  derive "open-keyring-db-page" kek "sqlcipher-db-page-key-v1".

(** ** xchacha20.rs: ciphertext and nonce *)

Definition encrypt_with_aad (plaintext aad key : bytes) : ior W (bytes * bytes) string :=
  let* nonce := os_random 24 in
  io_ret (res_map (λ c, (c, nonce)) (aead_seal key nonce aad plaintext)).

Definition decrypt_with_aad (encrypted : bytes * bytes) (aad key : bytes)
  : result bytes string :=
  aead_open key encrypted.2 aad encrypted.1.

Definition encrypt (plaintext key : bytes) : ior W (bytes * bytes) string :=
  encrypt_with_aad plaintext "" key.

Definition decrypt (ciphertext nonce key : bytes) : result bytes string :=
  decrypt_with_aad (ciphertext, nonce) "" key.

(** ** argon2.rs *)

Definition generate_salt : io W bytes := os_random 16.

Definition derive_key_with_params (password salt : bytes) (params : Argon2Params)
  : result bytes string :=
  let? _ := argon2_params params in
  argon2id params password salt.

Definition derive_key (password salt : bytes) : result bytes string :=
  derive_key_with_params password salt Argon2Params.medium.

Definition derive_key_locked (password salt : bytes) (params : Argon2Params)
  : ior W bytes string :=
  let! _ := lift (argon2_params params) in
  locked_generate (argon2id params password salt).

Record PasswordHash : Set := mkPasswordHash {
  ph_salt : bytes;
  ph_key : bytes;
  ph_params : Argon2Params;
}.

Definition hash_password (password : string) : ior W PasswordHash string :=
  let params := Argon2Params.medium in
  let* salt := generate_salt in
  let! key := lift (derive_key_with_params password salt params) in
  lift (Ok (mkPasswordHash salt key params)).

Definition verify_password (password : string) (hash : PasswordHash) : result bool string :=
  let? derived := derive_key_with_params password (ph_salt hash) (ph_params hash) in
  Ok (bool_decide (derived = ph_key hash)).

End crypto.

(** ** Properties *)

Section properties.
Context {W : Type} `{CryptoLibLaws} `{SecureLaws W}.

Lemma encrypt_with_aad_ok m aad key w c n w' :
  encrypt_with_aad m aad key w = (Ok (c, n), w') →
  decrypt_with_aad (c, n) aad key = Ok m ∧ String.length n = 24.
Proof.
  unfold encrypt_with_aad, decrypt_with_aad, io_bind, io_ret.
  destruct (os_random 24 w) as [nonce w1] eqn:E. intros [= Hs <-].
  apply res_bind_ok in Hs as (x & Hx & [= -> ->]). cbn.
  split; [by apply aead_roundtrip|by eapply os_random_length].
Qed.

(** A password verifies against its own hash. *)
Lemma hash_password_verifies password w hash w' :
  hash_password password w = (Ok hash, w') → verify_password password hash = Ok true.
Proof.
  unfold hash_password, verify_password. intros Hh. run_io. cbn.
  match goal with E : derive_key_with_params _ _ _ = _ |- _ => rewrite E end.
  cbn. by rewrite bool_decide_eq_true_2.
Qed.

End properties.
