(* ===== verification/Keystore.v ===== *)
(** * The key store (src/crypto/keystore.rs, src/crypto/crypto_manager.rs)

    The secret key of a vault lies on disk wrapped by a key derived from the master
    password.  [KeyStore.initialize], [unlock] and [change_cmk] make, open and re-wrap
    that file; [CryptoManager] encrypts and decrypts with the keys of an open store. *)

From S2P Require Import Prelude Text Env Checkpoint Crypto.

(** ** [serde_json::Value]

    A number is kept as its integer value when it has one.  The members of an object are
    sorted by key, as the map of the crate is. *)
#[warnings="-register-all"]
Inductive Json : Set :=
| JNull
| JBool (b : bool)
| JNumber (n : Z)
| JFloat (text : string)
| JString (s : string)
| JArray (l : list Json)
| JObject (members : list (string * Json)).

Fixpoint member (key : string) (members : list (string * Json)) : Json :=
  match members with
  | [] => JNull
  | (k, v) :: members => if String.eqb k key then v else member key members
  end.

(** [value[key]], [as_str] and [as_u64] *)
Definition json_get (v : Json) (key : string) : Json :=
  match v with JObject members => member key members | _ => JNull end.

Definition as_str (v : Json) : option string :=
  match v with JString s => Some s | _ => None end.

Definition as_u64 (v : Json) : option Z :=
  match v with
  | JNumber n => if (0 <=? n)%Z && (n <=? u64_max)%Z then Some n else None
  | _ => None
  end.

Fixpoint keys_sorted (members : list (string * Json)) : bool :=
  match members with
  | (k, _) :: (((l, _) :: _) as rest) => String.ltb k l && keys_sorted rest
  | _ => true
  end.

Fixpoint json_sorted (v : Json) : bool :=
  match v with
  | JArray l => forallb json_sorted l
  | JObject members => keys_sorted members && forallb (λ m, json_sorted m.2) members
  | _ => true
  end.

Class JsonLaws `{Serde Json} : Prop :=
  json_roundtrip v s : json_sorted v = true → to_json v = Ok s → from_json s = Ok v.

(** ** Mnemonic languages (src/crypto/bip39.rs) *)

Module MnemonicLanguage.

Inductive t : Set := English | ChineseSimplified.

#[global] Instance t_eq_dec : EqDecision t.
Proof. solve_decision. Defined.

Definition from_keystore_value (s : string) : result t string :=
  if String.eqb s "en" then Ok English
  else if String.eqb s "zh-CN" then Ok ChineseSimplified
  else Err ("unsupported mnemonic language: " +:+ s).

Definition to_keystore_value (l : t) : string :=
  match l with English => "en" | ChineseSimplified => "zh-CN" end.

Definition from_config_language (config_language : string) : t :=
  if String.eqb config_language "zh-CN" || String.eqb config_language "zh-TW"
     || String.eqb config_language "zh"
  then ChineseSimplified else English.

Definition default : t := English.

End MnemonicLanguage.

(** ** Directories and permissions

    [fs_create_dir_all], [set_permissions] with the mode, and [sync_all]. *)
Class DirFs (W : Type) : Type := {
  fs_create_dir_all : string → ior W () string;
  fs_set_mode : string → Z → ior W () string;
  fs_sync : string → ior W () string;
}.

(** None of them, and no system call of [Crypto] or the clock, changes a file. *)
Class DirFsLaws (W : Type) `{FsLaws W} `{DirFs W} `{Secure W} `{System W} : Prop := {
  create_dir_files p w r w' : fs_create_dir_all p w = (r, w') → fs_files w' = fs_files w;
  set_mode_files p m w r w' : fs_set_mode p m w = (r, w') → fs_files w' = fs_files w;
  sync_files p w r w' : fs_sync p w = (r, w') → fs_files w' = fs_files w;
  os_random_files n w b w' : os_random n w = (b, w') → fs_files w' = fs_files w;
  lock_pages_files w r w' : lock_pages w = (r, w') → fs_files w' = fs_files w;
  now_disk w t w' : now w = (t, w') → fs_files w' = fs_files w;
  new_v4_disk w u w' : new_v4 w = (u, w') → fs_files w' = fs_files w;
}.

(** ** Wrapped keys

    A fault is an error with its message or a panic, which no [?] catches either. *)
Module Fault.
Inductive t : Set := Failed (message : string) | Panic.
End Fault.

Definition KEYSTORE_FILENAME : string := "wrapped_secret_key.json".
Definition ALGORITHM : string := "xchacha20-poly1305".

Record KeyStore : Set := mkKeyStore {
  ks_sk : option bytes;
  ks_kek : option bytes;
  ks_current_dek_version : Z;
  ks_device_id : string;
  ks_mnemonic_language : MnemonicLanguage.t;
}.

Section keys.
Context {W : Type} `{CryptoLibs} `{Secure W}.

Definition wrap_key (key_to_wrap wrapping_key : bytes) : ior W (bytes * bytes) string :=
  encrypt key_to_wrap wrapping_key.

(** [copy_from_slice] panics on a plaintext that is not 32 bytes long. *)
Definition unwrap_key (wrapped nonce wrapping_key : bytes) : result bytes Fault.t :=
  let? plaintext := map_err Fault.Failed (decrypt wrapped nonce wrapping_key) in
  if (String.length plaintext =? 32)%nat then Ok plaintext else Err Fault.Panic.

End keys.

Module KeyStore.
Section s.
Context {W : Type} `{Libs} `{CryptoLibs} `{Secure W} `{Fs W} `{DirFs W} `{System W}.
Context `{Serde Json}.

Definition file_path (path : string) : string := path_join path KEYSTORE_FILENAME.

(** [with_extension("json.tmp")] *)
Definition temp_path (path : string) : string := file_path path +:+ ".tmp".

Definition vault_exists (vault_dir : string) : io W bool := fs_exists (file_path vault_dir).

(** The document that [initialize] and [change_cmk] write. *)
Definition document (wrapped nonce salt : bytes) (params : Argon2Params)
    (created_at : Instant) (language : string) : Json :=
  JObject
    [("algorithm", JString ALGORITHM);
     ("created_at", JString (rfc3339_print created_at));
     ("kdf", JObject
        [("algorithm", JString "argon2id");
         ("memory_cost", JNumber (m_cost params));
         ("output_len", JNumber 32);
         ("parallelism", JNumber (p_cost params));
         ("salt", JString (base64_encode salt));
         ("time_cost", JNumber (t_cost params))]);
     ("mnemonic_language", JString language);
     ("nonce", JString (base64_encode nonce));
     ("version", JNumber 1);
     ("wrapped_sk", JString (base64_encode wrapped))].

(** [set_permissions(.., 0o600)] after reading the metadata of the file. *)
Definition restrict (p : string) : ior W () string := fs_set_mode p 384.

Definition initialize (path : string) (sk_bytes : bytes) (cmk : string)
    (params : Argon2Params) (language : MnemonicLanguage.t) : ior W KeyStore string :=
  let! sk := locked_key sk_bytes in
  let! kek := lift (map_err CryptoError.display (derive_kek sk)) in
  let! kek := locked_key kek in
  let* salt := generate_salt in
  let! wk := derive_key_locked cmk salt params in
  let! (wrapped, nonce) := wrap_key sk wk in
  let* created_at := now in
  let! content := lift (to_json (document wrapped nonce salt params created_at
                    (MnemonicLanguage.to_keystore_value language))) in
  let! _ := fs_create_dir_all path in
  let! _ := fs_write (file_path path) content in
  let! _ := restrict (file_path path) in
  let* device_id := new_v4 in
  lift (Ok (mkKeyStore (Some sk) (Some kek) 1 (uuid_to_string device_id) language)).

(** ** Reading the document *)

Definition str_field (v : Json) (what : string) : result string string :=
  ok_or what (as_str v).

Definition u64_field (v : Json) (what : string) : result Z string := ok_or what (as_u64 v).

Definition check_version (data : Json) : result () string :=
  let? version := u64_field (json_get data "version") "missing version" in
  if (version =? 1)%Z then Ok ()
  else Err ("unsupported keystore version: " +:+ pretty version).

Definition check_algorithm (data : Json) : result () string :=
  let? algorithm := str_field (json_get data "algorithm") "missing algorithm" in
  if bool_decide (algorithm = ALGORITHM) then Ok ()
  else Err ("unsupported algorithm: " +:+ algorithm).

(** [invalid {what} length: expected {n} bytes, got {len}] *)
Definition check_length (what : string) (n : nat) (b : bytes) : result () string :=
  if (String.length b =? n)%nat then Ok ()
  else Err ("invalid " +:+ what +:+ " length: expected " +:+ pretty n +:+ " bytes, got "
              +:+ pretty (String.length b)).

Definition read_salt (data : Json) : result bytes string :=
  let? s := str_field (json_get (json_get data "kdf") "salt") "missing salt" in
  let? salt := base64_decode s in
  let? _ := check_length "salt" 16 salt in
  Ok salt.

(** The costs, each cast with [as u32]. *)
Definition read_params (data : Json) : result Argon2Params string :=
  let kdf := json_get data "kdf" in
  let? time_cost := u64_field (json_get kdf "time_cost") "missing time_cost" in
  let? memory_cost := u64_field (json_get kdf "memory_cost") "missing memory_cost" in
  let? parallelism := u64_field (json_get kdf "parallelism") "missing parallelism" in
  Ok (mkArgon2Params (wrap32 memory_cost) (wrap32 time_cost) (wrap32 parallelism)).

Definition read_wrapped (data : Json) : result (bytes * bytes) string :=
  let? w := str_field (json_get data "wrapped_sk") "missing wrapped_sk" in
  let? wrapped := base64_decode w in
  let? n := str_field (json_get data "nonce") "missing nonce" in
  let? nonce := base64_decode n in
  let? _ := check_length "nonce" 24 nonce in
  Ok (wrapped, nonce).

Definition language_text (data : Json) : string :=
  match as_str (json_get data "mnemonic_language") with Some s => s | None => "en" end.

(** An unknown language falls back to English. *)
Definition read_language (data : Json) : MnemonicLanguage.t :=
  match MnemonicLanguage.from_keystore_value (language_text data) with
  | Ok l => l
  | Err _ => MnemonicLanguage.English
  end.

(** The checks before the password is used: version, algorithm, salt and costs. *)
Definition read_header (data : Json) : result (bytes * Argon2Params) string :=
  let? _ := check_version data in
  let? _ := check_algorithm data in
  let? salt := read_salt data in
  let? params := read_params data in
  Ok (salt, params).

Definition faulty {A} (m : ior W A string) : ior W A Fault.t := io_map_err Fault.Failed m.

(** Reads the document at [path] and unwraps the secret key with the password. *)
Definition open_document (path : string) (cmk : string)
  : ior W (Json * Argon2Params * bytes) Fault.t :=
  let! content := faulty (fs_read_to_string (file_path path)) in
  let! data := faulty (lift (from_json content)) in
  let! (salt, params) := faulty (lift (read_header data)) in
  let! wk := faulty (derive_key_locked cmk salt params) in
  let! (wrapped, nonce) := faulty (lift (read_wrapped data)) in
  let! sk_bytes := lift (unwrap_key wrapped nonce wk) in
  lift (Ok (data, params, sk_bytes)).

Definition unlock (path : string) (cmk : string) : ior W KeyStore Fault.t :=
  let! (data, _, sk_bytes) := open_document path cmk in
  let! sk := faulty (locked_key sk_bytes) in
  let! kek := faulty (lift (map_err CryptoError.display (derive_kek sk))) in
  let! kek := faulty (locked_key kek) in
  let* device_id := new_v4 in
  lift (Ok (mkKeyStore (Some sk) (Some kek) 1 (uuid_to_string device_id)
              (read_language data))).

(** [File::create], [write_all] and [sync_all] of the temporary file, then the rename. *)
Definition replace_file (path content : string) : ior W () string :=
  let! _ := fs_write (temp_path path) content in
  let! _ := fs_sync (temp_path path) in
  let! _ := fs_rename (temp_path path) (file_path path) in
  restrict (file_path path).

Definition change_cmk (path old_cmk new_cmk : string) : ior W () Fault.t :=
  let! (data, params, sk_bytes) := open_document path old_cmk in
  let* new_salt := generate_salt in
  let! new_wk := faulty (derive_key_locked new_cmk new_salt params) in
  let! (new_wrapped, new_nonce) := faulty (wrap_key sk_bytes new_wk) in
  let* created_at := now in
  let! new_content := faulty (lift (to_json (document new_wrapped new_nonce new_salt params
                        created_at (language_text data)))) in
  faulty (replace_file path new_content).

Definition get_dek (ks : KeyStore) (version : Z) : ior W bytes string :=
  let! kek := lift (ok_or "KeyStore not unlocked" (ks_kek ks)) in
  let! dek := lift (map_err CryptoError.display (derive_dek kek version)) in
  locked_key dek.

Definition db_page_key (ks : KeyStore) : ior W bytes string :=
  let! kek := lift (ok_or "KeyStore not unlocked" (ks_kek ks)) in
  let! key := lift (map_err CryptoError.display (derive_db_page_key kek)) in
  locked_key key.

End s.
End KeyStore.

(** ** The crypto manager *)

Record CryptoManager : Set := mkCryptoManager {
  cm_keystore : option KeyStore;
  cm_current : Z;
}.

Module CryptoManager.
Section s.
Context {W : Type} `{Libs} `{CryptoLibs} `{Secure W} `{Fs W} `{DirFs W} `{System W}.
Context `{Serde Json}.

Definition new : CryptoManager := mkCryptoManager None 1.

Definition from_unlocked_keystore (ks : KeyStore) : CryptoManager :=
  mkCryptoManager (Some ks) (ks_current_dek_version ks).

Definition unlock (path cmk : string) : ior W CryptoManager Fault.t :=
  let! ks := KeyStore.unlock path cmk in
  lift (Ok (from_unlocked_keystore ks)).

(** From the 64-byte seed of a mnemonic. *)
Definition unlock_with_seed (seed : bytes) : ior W CryptoManager string :=
  let sk_bytes := String.substring 0 32 seed in
  let! kek_bytes := lift (map_err CryptoError.display (derive_kek sk_bytes)) in
  let! sk := locked_key sk_bytes in
  let! kek := locked_key kek_bytes in
  let* device_id := new_v4 in
  lift (Ok (mkCryptoManager
    (Some (mkKeyStore (Some sk) (Some kek) 1 (uuid_to_string device_id)
             MnemonicLanguage.English)) 1)).

Definition lock (m : CryptoManager) : CryptoManager := mkCryptoManager None (cm_current m).

Definition is_unlocked (m : CryptoManager) : bool :=
  match cm_keystore m with Some _ => true | None => false end.

Definition get_dek (m : CryptoManager) (version : Z) : ior W bytes string :=
  let! ks := lift (ok_or "CryptoManager not unlocked" (cm_keystore m)) in
  KeyStore.get_dek ks version.

Definition encrypt (m : CryptoManager) (plaintext aad : bytes)
  : ior W (bytes * bytes) string :=
  let! dek := get_dek m (cm_current m) in
  encrypt_with_aad plaintext aad dek.

Definition decrypt (m : CryptoManager) (ciphertext nonce aad : bytes) (dek_version : Z)
  : ior W bytes string :=
  let! dek := get_dek m dek_version in
  lift (decrypt_with_aad (ciphertext, nonce) aad dek).

Definition device_id (m : CryptoManager) : option string := ks_device_id <$> cm_keystore m.

End s.
End CryptoManager.

(** ** Properties of the key store *)

Section keystore_properties.
Context {W : Type} `{LibLaws} `{CryptoLibLaws} `{DirFsLaws W} `{!SecureLaws W}.
Context `{JsonLaws}.
Import KeyStore.

(** The document [content] holds the secret key [sk] under the password [cmk]. *)
Definition opens (content cmk sk lang : string) : Prop :=
  ∃ data salt params wk wrapped nonce,
    from_json content = Ok data ∧ read_header data = Ok (salt, params) ∧
    derive_key_with_params cmk salt params = Ok wk ∧
    read_wrapped data = Ok (wrapped, nonce) ∧ unwrap_key wrapped nonce wk = Ok sk ∧
    language_text data = lang.

(** An error of the operating system on the way to the keys. *)
Definition system_error (path e : string) : Prop :=
  ∃ w w', fs_read_to_string (file_path path) w = (Err e, w') ∨ lock_pages w = (Err e, w').

(** Rewrites with every equation about a computation that succeeded. *)
Ltac rewrite_oks :=
  repeat match goal with
  | E : ?t = Ok _ |- context [?t] => rewrite E; cbn [res_bind map_err]
  end.

(** What the steps of a run leave of the files. *)
Ltac disk_facts :=
  repeat match goal with
  | E : os_random _ _ = _ |- _ => apply os_random_files in E
  | E : lock_pages _ = _ |- _ => apply lock_pages_files in E
  | E : now _ = _ |- _ => apply now_disk in E
  | E : new_v4 _ = _ |- _ => apply new_v4_disk in E
  | E : fs_create_dir_all _ _ = _ |- _ => apply create_dir_files in E
  | E : fs_set_mode _ _ _ = _ |- _ => apply set_mode_files in E
  | E : fs_sync _ _ = _ |- _ => apply sync_files in E
  end.

Lemma locked_key_ok key w k w' :
  locked_key key w = (Ok k, w') → k = key ∧ fs_files w' = fs_files w.
Proof. unfold locked_key. intros Hk. inv_runs. disk_facts. split; congruence. Qed.

Lemma derive_key_locked_ok cmk salt params w wk w' :
  derive_key_locked cmk salt params w = (Ok wk, w') →
  derive_key_with_params cmk salt params = Ok wk ∧ fs_files w' = fs_files w.
Proof.
  unfold derive_key_locked, locked_generate, derive_key_with_params. intros Hd. inv_runs.
  rewrite_oks. by disk_facts.
Qed.

Lemma wrap_key_ok key wk w wrapped nonce w' :
  wrap_key key wk w = (Ok (wrapped, nonce), w') → String.length key = 32 →
  unwrap_key wrapped nonce wk = Ok key ∧ String.length nonce = 24 ∧ fs_files w' = fs_files w.
Proof.
  unfold wrap_key, encrypt. intros Hw Hk. pose proof Hw as Hf.
  apply encrypt_with_aad_ok in Hw as [Hd Hn]. split_and!; [|done|].
  - unfold unwrap_key, decrypt. rewrite Hd. cbn. by rewrite Hk.
  - unfold encrypt_with_aad in Hf. inv_runs. by disk_facts.
Qed.

Lemma open_document_opens path cmk w data params sk w' :
  open_document path cmk w = (Ok (data, params, sk), w') →
  fs_files w' = fs_files w ∧
  ∃ content salt, fs_files w !! file_path path = Some content ∧ from_json content = Ok data ∧
    read_header data = Ok (salt, params) ∧ opens content cmk sk (language_text data).
Proof.
  unfold open_document, faulty. intros Ho. inv_runs.
  match goal with E : fs_read_to_string _ _ = _ |- _ =>
    pose proof (fs_read_ok _ _ _ _ E); apply fs_read_files in E end.
  match goal with E : derive_key_locked _ _ _ _ = _ |- _ =>
    apply derive_key_locked_ok in E as [? ?] end.
  split; [congruence|]. eexists _, _. split_and!; [done..|]. unfold opens. naive_solver.
Qed.

(** A failure to open a document that does open comes from the system. *)
Lemma opens_open_document path content cmk sk lang w r w' :
  opens content cmk sk lang → fs_files w !! file_path path = Some content →
  open_document path cmk w = (r, w') →
  (∃ e, r = Err (Fault.Failed e) ∧ system_error path e) ∨
  (∃ data params, r = Ok (data, params, sk) ∧ language_text data = lang).
Proof.
  intros (data & salt & params & wk & wrapped & nonce & Hj & Hh & Hk & Hw & Hu & Hl) Hf Ho.
  unfold open_document, faulty, derive_key_locked, locked_generate, derive_key_with_params in *.
  apply res_bind_ok in Hk as (? & Hp & Hk).
  unfold ior_bind, io_map_err, lift, io_bind, io_ret in Ho.
  destruct (fs_read_to_string _ w) as [[b|e] w1] eqn:E; cbn in Ho;
    [|simplify_eq; left; eexists; split; [done|]; unfold system_error; eauto].
  apply fs_read_ok in E. simplify_eq. rewrite Hj in Ho. cbn in Ho. rewrite Hh in Ho. cbn in Ho.
  rewrite Hp in Ho. cbn in Ho.
  destruct (lock_pages w1) as [[u|e] w2] eqn:E2; cbn in Ho;
    [|simplify_eq; left; eexists; split; [done|]; unfold system_error; eauto].
  rewrite Hk in Ho. cbn in Ho. rewrite Hw in Ho. cbn in Ho. rewrite Hu in Ho. simplify_eq.
  right. eauto.
Qed.

(** The document that is written opens with the password it was made with. *)
Lemma document_opens wrapped nonce salt params t lang content cmk wk sk :
  to_json (document wrapped nonce salt params t lang) = Ok content →
  u32_params params → String.length salt = 16 → String.length nonce = 24 →
  derive_key_with_params cmk salt params = Ok wk → unwrap_key wrapped nonce wk = Ok sk →
  opens content cmk sk lang.
Proof.
  intros Hj (Hm & Ht & Hp) Hs Hn Hk Hu. apply json_roundtrip in Hj; [|done].
  exists (document wrapped nonce salt params t lang), salt, params, wk, wrapped, nonce.
  assert (∀ z, is_u32 z → as_u64 (JNumber z) = Some z) as Hz.
  { intros z [? ?]. cbn. unfold u64_max. rewrite (proj2 (Z.leb_le _ _)) by done.
    rewrite (proj2 (Z.leb_le _ _)) by lia. done. }
  split_and!; [done| |done| |done|done].
  - unfold read_header, check_version, check_algorithm, read_salt, read_params, u64_field,
      str_field. cbn -[as_u64 check_length]. rewrite (Hz 1%Z) by done. cbn -[as_u64 check_length].
    rewrite base64_roundtrip. cbn -[as_u64 check_length]. unfold check_length at 1. rewrite Hs.
    cbn -[as_u64]. rewrite !Hz by done. cbn. rewrite !wrap32_small by done. by destruct params.
  - unfold read_wrapped, str_field. cbn -[check_length]. rewrite !base64_roundtrip.
    cbn -[check_length]. unfold check_length. by rewrite Hn.
Qed.

(** The rest of [unlock], after the document is open. *)
Lemma unlock_after path cmk w sk data params w1 r w' kek :
  open_document path cmk w = (Ok (data, params, sk), w1) → derive_kek sk = Ok kek →
  unlock path cmk w = (r, w') →
  (∃ e, r = Err (Fault.Failed e) ∧ system_error path e) ∨
  (∃ ks, r = Ok ks ∧ ks_sk ks = Some sk ∧ ks_kek ks = Some kek ∧
     ks_mnemonic_language ks = read_language data).
Proof.
  intros Ho Hk Hu. unfold unlock, faulty, locked_key in Hu.
  unfold ior_bind, io_map_err, lift, io_bind, io_ret in Hu. rewrite Ho in Hu. cbn in Hu.
  destruct (lock_pages w1) as [[u|e] w2] eqn:E1; cbn in Hu;
    [|simplify_eq; left; eexists; split; [done|]; unfold system_error; eauto].
  rewrite Hk in Hu. cbn in Hu.
  destruct (lock_pages w2) as [[u'|e] w3] eqn:E2; cbn in Hu;
    [|simplify_eq; left; eexists; split; [done|]; unfold system_error; eauto].
  destruct (new_v4 w3) as [d w4]. simplify_eq. right. by eexists.
Qed.

Lemma read_language_of data lang :
  language_text data = MnemonicLanguage.to_keystore_value lang → read_language data = lang.
Proof. unfold read_language. intros ->. by destruct lang. Qed.

(** What [initialize] leaves on the disk. *)
Lemma initialize_ok path sk cmk params lang w ks w' :
  initialize path sk cmk params lang w = (Ok ks, w') →
  u32_params params → String.length sk = 32 →
  ∃ kek content, ks_sk ks = Some sk ∧ ks_kek ks = Some kek ∧ derive_kek sk = Ok kek ∧
    fs_files w' !! file_path path = Some content ∧
    opens content cmk sk (MnemonicLanguage.to_keystore_value lang).
Proof.
  intros Hi Hp Hsk. unfold initialize, generate_salt, restrict in Hi. inv_runs.
  repeat match goal with E : locked_key _ _ = (Ok _, _) |- _ =>
    apply locked_key_ok in E as [-> ?] end.
  match goal with E : map_err _ _ = Ok _ |- _ => apply map_err_ok in E end.
  match goal with E : os_random 16 _ = _ |- _ => pose proof (os_random_length _ _ _ _ E) end.
  match goal with E : derive_key_locked _ _ _ _ = _ |- _ =>
    apply derive_key_locked_ok in E as [? ?] end.
  match goal with E : wrap_key _ _ _ = _ |- _ => apply wrap_key_ok in E as (? & ? & ?); [|done] end.
  match goal with E : fs_write _ _ _ = _ |- _ => apply fs_write_ok in E end.
  disk_facts. eexists _, _. split_and!; [done..| |by eapply document_opens].
  repeat match goal with E : fs_files ?x = fs_files _ |- _ => rewrite E; clear E end.
  match goal with E : fs_files _ = <[_ := _]> _ |- _ => rewrite E end.
  by rewrite lookup_insert_eq.
Qed.

(** Unlocking with the password of the document that is on the disk. *)
Lemma unlock_opens path content cmk sk lang kek w r w' :
  opens content cmk sk lang → fs_files w !! file_path path = Some content →
  derive_kek sk = Ok kek → unlock path cmk w = (r, w') →
  (∃ e, r = Err (Fault.Failed e) ∧ system_error path e) ∨
  (∃ ks data, r = Ok ks ∧ ks_sk ks = Some sk ∧ ks_kek ks = Some kek ∧
     ks_mnemonic_language ks = read_language data ∧ language_text data = lang).
Proof.
  intros Ho Hf Hk Hu. destruct (open_document path cmk w) as [ro wo] eqn:Eo.
  destruct (opens_open_document _ _ _ _ _ _ _ _ Ho Hf Eo) as [(e & -> & He)|(d & p & -> & Hl)].
  - left. unfold unlock, ior_bind, io_bind, io_ret in Hu. rewrite Eo in Hu. simplify_eq. eauto.
  - eapply unlock_after in Hu as [?|(ks & -> & ? & ? & ?)]; [by left| |done..].
    right. by exists ks, d.
Qed.

(** A vault that was initialized unlocks.  Unlocking with the same password gives the
    same secret key, key encryption key and mnemonic language, unless the operating system
    fails to read the file or to lock memory; in particular it never panics. *)
Lemma initialize_unlock path sk cmk params lang w ks w1 r w2 :
  initialize path sk cmk params lang w = (Ok ks, w1) →
  u32_params params → String.length sk = 32 →
  unlock path cmk w1 = (r, w2) →
  (∃ e, r = Err (Fault.Failed e) ∧ system_error path e) ∨
  (∃ ks', r = Ok ks' ∧ ks_sk ks' = ks_sk ks ∧ ks_kek ks' = ks_kek ks ∧
     ks_mnemonic_language ks' = lang).
Proof.
  intros Hi Hp Hsk Hu. apply initialize_ok in Hi as (kek & content & Es & Ek & Hk & Hf & Ho); [|done..].
  eapply unlock_opens in Hu as [?|(ks' & d & -> & Hs' & Hk' & Hl' & Hl)]; [by left| |done..].
  right. exists ks'. split_and!; [done|congruence..|]. rewrite Hl'. by apply read_language_of.
Qed.

(** ** Changing the master password *)

Lemma temp_file_differs path : temp_path path ≠ file_path path.
Proof.
  unfold temp_path. intros E. apply (f_equal String.length) in E.
  rewrite string_length_append in E. cbn in E. lia.
Qed.

(** The file afterwards is the old one or the whole new one, and the new one on success. *)
Lemma replace_file_outcome path content w r w' :
  replace_file path content w = (r, w') →
  (fs_files w' !! file_path path = fs_files w !! file_path path ∧ r ≠ Ok ()) ∨
  fs_files w' !! file_path path = Some content.
Proof.
  pose proof (temp_file_differs path) as Hne. unfold replace_file, restrict.
  unfold ior_bind, io_bind, io_ret.
  destruct (fs_write _ content w) as [[u|e] w1] eqn:E1.
  2:{ intros [= <- <-]. left. split; [|done]. by eapply fs_write_other. }
  apply fs_write_ok in E1. destruct (fs_sync _ w1) as [[u1|e] w2] eqn:E2; apply sync_files in E2.
  2:{ intros [= <- <-]. left. split; [|done]. rewrite E2, E1. by apply lookup_insert_ne. }
  destruct (fs_rename _ _ w2) as [[u2|e] w3] eqn:E3.
  2:{ intros [= <- <-]. left. split; [|done]. apply fs_rename_err in E3. rewrite E3, E2, E1.
      by apply lookup_insert_ne. }
  intros Hr. apply set_mode_files in Hr. right.
  eapply (fs_rename_ok _ _ _ _ _ content) in E3; [|rewrite E2, E1; by apply lookup_insert_eq].
  rewrite Hr, E3. apply lookup_insert_eq.
Qed.

(** The system calls that leave the files alone. *)
#[local] Hint Extern 0 (keeps _ lock_pages) => exact lock_pages_files : keeps.
#[local] Hint Extern 0 (keeps _ (os_random _)) => exact (os_random_files _) : keeps.
#[local] Hint Extern 0 (keeps _ (fs_read_to_string _)) => exact (fs_read_files _) : keeps.

Lemma keeps_derive_key cmk salt params : keeps fs_files (derive_key_locked cmk salt params).
Proof. unfold derive_key_locked, locked_generate. solve_keeps. Qed.
#[local] Hint Resolve keeps_derive_key : keeps.

Lemma keeps_open_document path cmk : keeps fs_files (open_document path cmk).
Proof. unfold open_document, faulty. solve_keeps. Qed.

Lemma keeps_wrap_key key wk : keeps fs_files (wrap_key key wk).
Proof. unfold wrap_key, encrypt, encrypt_with_aad. solve_keeps. Qed.

Lemma opens_length content cmk sk lang : opens content cmk sk lang → String.length sk = 32.
Proof.
  intros (? & ? & ? & wk & wrapped & nonce & _ & _ & _ & _ & Hu & _).
  unfold unwrap_key in Hu. apply res_bind_ok in Hu as (p & _ & Hu).
  destruct (Nat.eqb_spec (String.length p) 32); by simplify_eq.
Qed.

Lemma read_header_params data salt params :
  read_header data = Ok (salt, params) → u32_params params.
Proof.
  unfold read_header. intros Hh. inv_ok Hh. simplify_eq.
  match goal with E : read_params _ = Ok _ |- _ => unfold read_params in E; inv_ok E; simplify_eq end.
  unfold u32_params. cbn. eauto using wrap32_range.
Qed.

(** What [change_cmk] writes, once it gets that far, opens with the new password. *)
Lemma change_cmk_steps path old new w r w' :
  change_cmk path old new w = (r, w') →
  (fs_files w' = fs_files w ∧ r ≠ Ok ()) ∨
  ∃ content sk lang new_content w1, fs_files w !! file_path path = Some content ∧
    opens content old sk lang ∧ opens new_content new sk lang ∧ fs_files w1 = fs_files w ∧
    faulty (replace_file path new_content) w1 = (r, w').
Proof.
  unfold change_cmk, generate_salt. unfold ior_bind at 1, io_bind at 1.
  destruct (open_document path old w) as [[[[data params] sk]|e] w1] eqn:Eo.
  2:{ intros [= <- <-]. left. split; [|done]. by eapply keeps_open_document. }
  pose proof Eo as (Hf1 & content & salt & Hc & _ & Hh & Ho)%open_document_opens.
  pose proof (opens_length _ _ _ _ Ho) as Hsk. apply read_header_params in Hh.
  unfold io_bind at 1. destruct (os_random 16 w1) as [new_salt w2] eqn:Er.
  pose proof (os_random_length _ _ _ _ Er) as Hsalt. apply os_random_files in Er.
  unfold faulty at 1, ior_bind at 1, io_map_err at 1, io_bind at 1 2, io_ret at 1.
  destruct (derive_key_locked new new_salt params w2) as [[wk|e] w3] eqn:Ek.
  2:{ cbn. intros [= <- <-]. left. split; [|done]. apply keeps_derive_key in Ek. congruence. }
  cbn [map_err]. apply derive_key_locked_ok in Ek as [Hk Hf3].
  unfold faulty at 1, ior_bind at 1, io_map_err at 1, io_bind at 1 2, io_ret at 1.
  destruct (wrap_key sk wk w3) as [[[wrapped nonce]|e] w4] eqn:Ew.
  2:{ cbn. intros [= <- <-]. left. split; [|done]. apply keeps_wrap_key in Ew. congruence. }
  cbn [map_err]. apply wrap_key_ok in Ew as (Hu & Hn & Hf4); [|done].
  unfold io_bind at 1. destruct (now w4) as [t w5] eqn:Et. apply now_disk in Et.
  unfold faulty at 1, ior_bind at 1, io_map_err at 1, io_bind at 1 2, io_ret at 1, lift at 1.
  destruct (to_json _) as [new_content|e] eqn:Ej; cbn.
  2:{ intros [= <- <-]. left. split; [congruence|done]. }
  intros Hr. right. exists content, sk, (language_text data), new_content, w5.
  split_and!; [done..| |congruence|done]. by eapply document_opens.
Qed.

(** C5: changing the master password never locks the owner out.  If the key store opens
    with the old password, then whatever fails on the way it is afterwards either untouched,
    or it opens with the new password to the same secret key and mnemonic language; and it
    does open with the new password when the change succeeds. *)
Theorem change_cmk_safe path old new w r w' content sk lang :
  change_cmk path old new w = (r, w') →
  fs_files w !! file_path path = Some content → opens content old sk lang →
  (fs_files w' !! file_path path = Some content ∧ r ≠ Ok ()) ∨
  ∃ content', fs_files w' !! file_path path = Some content' ∧ opens content' new sk lang.
Proof.
  intros Hc Hf Ho. apply change_cmk_steps in Hc as [[Hf' Hr]|Hc]; [left; by rewrite Hf'|].
  destruct Hc as (b & sk' & lang' & b' & w1 & Hb & Ho' & Hn & Hw1 & Hr).
  assert (b = content ∧ sk' = sk ∧ lang' = lang) as (-> & -> & ->).
  { assert (b = content) as -> by congruence. split; [done|].
    destruct Ho as (d & ? & ? & ? & ? & ? & ? & ? & ? & ? & ? & ?).
    destruct Ho' as (d' & ? & ? & ? & ? & ? & ? & ? & ? & ? & ? & ?). simplify_eq. merge_eqs. done. }
  unfold faulty, io_map_err in Hr. apply io_bind_eq in Hr as (x & w2 & Hr & [= <- <-]).
  apply replace_file_outcome in Hr as [[Hsame Hx]|Hnew]; [left|right; eauto].
  rewrite Hsame, Hw1. split; [done|]. by destruct x as [[]|].
Qed.

End keystore_properties.

(** ** The keys of a manager *)

Section manager_properties.
Context {W : Type} `{CryptoLibLaws} `{SecureLaws W}.

(** The data encryption key of a version, when the manager is unlocked. *)
Definition dek_of (m : CryptoManager) (version : Z) : option bytes :=
  ks ← cm_keystore m; kek ← ks_kek ks; ok (derive_dek kek version).

(** An error of the operating system when it locks the page of a key. *)
Definition lock_error (e : string) : Prop := ∃ w w' : W, lock_pages w = (Err e, w').

(** The result is [a], unless locking memory failed. *)
Definition yields {A} (r : result A string) (a : A) : Prop :=
  r = Ok a ∨ ∃ e, r = Err e ∧ lock_error e.

Lemma get_dek_ok m version w key w' :
  CryptoManager.get_dek m version w = (Ok key, w') → dek_of m version = Some key.
Proof.
  unfold CryptoManager.get_dek, KeyStore.get_dek, locked_key, dek_of. intros Hg. inv_runs.
  destruct (cm_keystore m) as [ks|]; [|done]. cbn in *. simplify_eq.
  destruct (ks_kek _) as [kek|]; [|done]. cbn in *. simplify_eq.
  match goal with E : map_err _ _ = Ok _ |- _ => apply map_err_ok in E; by rewrite E end.
Qed.

Lemma get_dek_run m version key w r w' :
  dek_of m version = Some key → CryptoManager.get_dek m version w = (r, w') →
  yields r key.
Proof.
  unfold CryptoManager.get_dek, KeyStore.get_dek, locked_key, dek_of. intros Hd.
  destruct (cm_keystore m) as [ks|]; [cbn in Hd|done].
  destruct (ks_kek ks) as [kek|] eqn:Ek; [cbn in Hd|done].
  destruct (derive_dek kek version) eqn:Ed; simplify_eq.
  unfold ior_bind, lift, io_bind, io_ret. cbn. rewrite Ek. cbn. rewrite Ed. cbn.
  destruct (lock_pages w) as [[u|e] w1] eqn:E; intros [= <- <-]; [left; cbn in Hd; congruence|].
  right. eexists. split; [done|]. by eexists _, _.
Qed.

(** What the manager encrypted decrypts to under the same version of the key. *)
Lemma encrypt_ok m p aad w c n w' :
  CryptoManager.encrypt m p aad w = (Ok (c, n), w') →
  ∃ key, dek_of m (cm_current m) = Some key ∧ decrypt_with_aad (c, n) aad key = Ok p ∧
    String.length n = 24.
Proof.
  unfold CryptoManager.encrypt. intros He. inv_runs.
  match goal with E : CryptoManager.get_dek _ _ _ = _ |- _ => apply get_dek_ok in E end.
  match goal with E : encrypt_with_aad _ _ _ _ = _ |- _ => apply encrypt_with_aad_ok in E end.
  naive_solver.
Qed.

Lemma decrypt_run m c n aad v key p w r w' :
  dek_of m v = Some key → decrypt_with_aad (c, n) aad key = Ok p →
  CryptoManager.decrypt m c n aad v w = (r, w') → yields r p.
Proof.
  intros Hk Hd. unfold CryptoManager.decrypt. rewrite ior_bind_step. unfold lift, io_ret.
  destruct (CryptoManager.get_dek m v w) as [rk w1] eqn:E.
  destruct (get_dek_run _ _ _ _ _ _ Hk E) as [->|(e & -> & He)]; intros [= <- <-]; [by left|].
  right. by eexists.
Qed.

Lemma decrypt_ok m c n aad v p w w' :
  CryptoManager.decrypt m c n aad v w = (Ok p, w') →
  ∃ key, dek_of m v = Some key ∧ decrypt_with_aad (c, n) aad key = Ok p.
Proof.
  unfold CryptoManager.decrypt. intros Hd. inv_runs.
  match goal with E : CryptoManager.get_dek _ _ _ = _ |- _ => apply get_dek_ok in E end. eauto.
Qed.

End manager_properties.
