(* ===== verification/Payload.v ===== *)
(** * Record payloads (src/types/credential.rs, src/types/record_limits.rs,
    src/crypto/payload.rs)

    The secret part of a record, the limits on its fields, and its encryption.  A
    [SecureStr] is its text. *)

From S2P Require Import Prelude Text Env Types Storage Crypto Keystore.

Module EncryptedPayload.

Inductive t : Set :=
| Login (name username password : string) (url notes : option string)
| Api (name app_id secret_key : string) (url notes : option string)
| Ssh (name public_key : string) (private_key passphrase notes : option string)
| SecureNote (name : string) (notes : option string).

Definition name (p : t) : string :=
  match p with
  | Login name _ _ _ _ | Api name _ _ _ _ | Ssh name _ _ _ _ | SecureNote name _ => name
  end.

Definition credential_type (p : t) : CredentialType.t :=
  match p with
  | Login _ _ _ _ _ => CredentialType.Login
  | Api _ _ _ _ _ => CredentialType.Api
  | Ssh _ _ _ _ _ => CredentialType.Ssh
  | SecureNote _ _ => CredentialType.SecureNote
  end.

End EncryptedPayload.

(** ** Limits (src/types/record_limits.rs) *)

Definition MAX_RECORD_NAME_CHARS : N := 120.
Definition MAX_LOGIN_USERNAME_CHARS : N := 320.
Definition MAX_LOGIN_PASSWORD_CHARS : N := 1024.
Definition MAX_URL_CHARS : N := 2048.
Definition MAX_API_APP_ID_CHARS : N := 512.
Definition MAX_API_SECRET_CHARS : N := 8192.
Definition MAX_SSH_PUBLIC_KEY_CHARS : N := 16384.
Definition MAX_SSH_PRIVATE_KEY_CHARS : N := 65536.
Definition MAX_SSH_PASSPHRASE_CHARS : N := 1024.
Definition MAX_NOTES_CHARS : N := 16384.
Definition MAX_SECURE_NOTE_CHARS : N := 65536.
Definition MAX_TAG_CHARS : N := 50.
Definition MAX_TAGS_PER_RECORD : N := 10.

Definition char_count (value : string) : N := N.of_nat (length (chars value)).

Definition validate_len (field value : string) (max : N) : result () DataError.t :=
  let actual := char_count value in
  if (max <? actual)%N then Err (DataError.FieldTooLong field max actual) else Ok ().

Definition validate_optional_len (field : string) (value : option string) (max : N)
  : result () DataError.t :=
  match value with
  | Some value => validate_len field value max
  | None => Ok ()
  end.

Definition validate_payload (payload : EncryptedPayload.t) : result () DataError.t :=
  match payload with
  | EncryptedPayload.Login name username password url notes =>
      let? _ := validate_len "name" name MAX_RECORD_NAME_CHARS in
      let? _ := validate_len "username" username MAX_LOGIN_USERNAME_CHARS in
      let? _ := validate_len "password" password MAX_LOGIN_PASSWORD_CHARS in
      let? _ := validate_optional_len "url" url MAX_URL_CHARS in
      validate_optional_len "notes" notes MAX_NOTES_CHARS
  | EncryptedPayload.Api name app_id secret_key url notes =>
      let? _ := validate_len "name" name MAX_RECORD_NAME_CHARS in
      let? _ := validate_len "app_id" app_id MAX_API_APP_ID_CHARS in
      let? _ := validate_len "secret_key" secret_key MAX_API_SECRET_CHARS in
      let? _ := validate_optional_len "url" url MAX_URL_CHARS in
      validate_optional_len "notes" notes MAX_NOTES_CHARS
  | EncryptedPayload.Ssh name public_key private_key passphrase notes =>
      let? _ := validate_len "name" name MAX_RECORD_NAME_CHARS in
      let? _ := validate_len "public_key" public_key MAX_SSH_PUBLIC_KEY_CHARS in
      let? _ :=
        match private_key with
        | Some private_key => validate_len "private_key" private_key MAX_SSH_PRIVATE_KEY_CHARS
        | None => Ok ()
        end in
      let? _ :=
        match passphrase with
        | Some passphrase => validate_len "passphrase" passphrase MAX_SSH_PASSPHRASE_CHARS
        | None => Ok ()
        end in
      validate_optional_len "notes" notes MAX_NOTES_CHARS
  | EncryptedPayload.SecureNote name notes =>
      let? _ := validate_len "name" name MAX_RECORD_NAME_CHARS in
      validate_optional_len "notes" notes MAX_SECURE_NOTE_CHARS
  end.

(** [char::is_whitespace]: the Unicode [White_Space] characters. *)
Definition is_whitespace (c : Z) : bool :=
  within 9 13 c || (c =? 32)%Z || (c =? 133)%Z || (c =? 160)%Z || (c =? 5760)%Z
  || within 8192 8202 c || (c =? 8232)%Z || (c =? 8233)%Z || (c =? 8239)%Z
  || (c =? 8287)%Z || (c =? 12288)%Z.

Fixpoint trim_start (l : list Z) : list Z :=
  match l with
  | c :: rest => if is_whitespace c then trim_start rest else l
  | [] => []
  end.

(** [str::trim] *)
Definition trim (s : string) : string :=
  of_chars (rev (trim_start (rev (trim_start (chars s))))).

Fixpoint validate_each_tag (tags : list string) : result () DataError.t :=
  match tags with
  | [] => Ok ()
  | tag :: tags =>
      let trimmed := trim tag in
      if bool_decide (trimmed = "") then Err (DataError.EmptyField "tag")
      else
        let? _ := validate_len "tag" trimmed MAX_TAG_CHARS in
        validate_each_tag tags
  end.

Definition validate_tags (tags : list string) : result () DataError.t :=
  let n := N.of_nat (length tags) in
  if (MAX_TAGS_PER_RECORD <? n)%N
  then Err (DataError.FieldTooLong "tags" MAX_TAGS_PER_RECORD n)
  else validate_each_tag tags.

(** ** Encryption (src/crypto/payload.rs) *)

(** The plaintext that is serialized. *)
Module PayloadPlaintextDto.

Inductive t : Set :=
| Login (name username password : string) (url notes : option string)
| Api (name app_id secret_key : string) (url notes : option string)
| Ssh (name public_key : string) (private_key passphrase notes : option string)
| SecureNote (name : string) (notes : option string).

Definition from_payload (payload : EncryptedPayload.t) : t :=
  match payload with
  | EncryptedPayload.Login name username password url notes =>
      Login name username password url notes
  | EncryptedPayload.Api name app_id secret_key url notes =>
      Api name app_id secret_key url notes
  | EncryptedPayload.Ssh name public_key private_key passphrase notes =>
      Ssh name public_key private_key passphrase notes
  | EncryptedPayload.SecureNote name notes => SecureNote name notes
  end.

Definition into_payload (d : t) : EncryptedPayload.t :=
  match d with
  | Login name username password url notes =>
      EncryptedPayload.Login name username password url notes
  | Api name app_id secret_key url notes =>
      EncryptedPayload.Api name app_id secret_key url notes
  | Ssh name public_key private_key passphrase notes =>
      EncryptedPayload.Ssh name public_key private_key passphrase notes
  | SecureNote name notes => EncryptedPayload.SecureNote name notes
  end.

End PayloadPlaintextDto.

(** [obj.iter().next()]: the fields of an externally tagged enum. *)
Definition unwrap_enum_variant (value : Json) : result Json string :=
  match value with
  | JObject ((_, v) :: _) => Ok v
  | _ => Err "expected externally-tagged enum JSON"
  end.

Section payload.
Context {W : Type} `{Libs} `{CryptoLibs} `{Secure W}.
Context `{Serde Json} `{Serde PayloadPlaintextDto.t}.

Definition encrypt_payload (crypto : CryptoManager) (payload : EncryptedPayload.t)
    (aad : bytes) : ior W (bytes * bytes) string :=
  let! json := lift (to_json (PayloadPlaintextDto.from_payload payload)) in
  CryptoManager.encrypt crypto json aad.

Definition decrypt_payload (crypto : CryptoManager) (ciphertext nonce aad : bytes)
    (credential_type : CredentialType.t) (dek_version : Z)
  : ior W EncryptedPayload.t string :=
  let! plaintext := CryptoManager.decrypt crypto ciphertext nonce aad dek_version in
  let! json := lift (from_utf8 plaintext) in
  let! dto := lift (from_json json) in
  lift (Ok (PayloadPlaintextDto.into_payload dto)).

(** The fields of the encrypted object, as [decrypt_name_only] and [decrypt_subtitle]
    read them. *)
Definition decrypt_fields (crypto : CryptoManager) (ciphertext nonce aad : bytes)
    (dek_version : Z) : ior W Json string :=
  let! plaintext := CryptoManager.decrypt crypto ciphertext nonce aad dek_version in
  let! json := lift (from_utf8 plaintext) in
  let! value := lift (from_json json) in
  lift (unwrap_enum_variant value).

Definition decrypt_name_only (crypto : CryptoManager) (ciphertext nonce aad : bytes)
    (dek_version : Z) : ior W string string :=
  let! inner := decrypt_fields crypto ciphertext nonce aad dek_version in
  lift (ok_or "name field not found" (as_str (json_get inner "name"))).

Definition subtitle_field (c : CredentialType.t) : option string :=
  match c with
  | CredentialType.Login => Some "username"
  | CredentialType.Api => Some "app_id"
  | CredentialType.Ssh => Some "public_key"
  | CredentialType.SecureNote => None
  end.

(** A long public key is cut. *)
Definition shorten (c : CredentialType.t) (s : string) : string :=
  if bool_decide (c = CredentialType.Ssh) && (32 <? length (chars s))%nat
  then of_chars (take 32 (chars s)) +:+ "..." else s.

Definition decrypt_subtitle (crypto : CryptoManager) (ciphertext nonce aad : bytes)
    (credential_type : CredentialType.t) (dek_version : Z) : ior W string string :=
  let! inner := decrypt_fields crypto ciphertext nonce aad dek_version in
  lift (Ok
    match subtitle_field credential_type with
    | Some field => shorten credential_type (default "" (as_str (json_get inner field)))
    | None => ""
    end).

End payload.

(** ** Properties *)

(** The limit of each field, in the order they are checked. *)
Definition field_limits (p : EncryptedPayload.t) : list (string * option string * N) :=
  match p with
  | EncryptedPayload.Login name username password url notes =>
      [("name", Some name, MAX_RECORD_NAME_CHARS);
       ("username", Some username, MAX_LOGIN_USERNAME_CHARS);
       ("password", Some password, MAX_LOGIN_PASSWORD_CHARS);
       ("url", url, MAX_URL_CHARS); ("notes", notes, MAX_NOTES_CHARS)]
  | EncryptedPayload.Api name app_id secret_key url notes =>
      [("name", Some name, MAX_RECORD_NAME_CHARS);
       ("app_id", Some app_id, MAX_API_APP_ID_CHARS);
       ("secret_key", Some secret_key, MAX_API_SECRET_CHARS);
       ("url", url, MAX_URL_CHARS); ("notes", notes, MAX_NOTES_CHARS)]
  | EncryptedPayload.Ssh name public_key private_key passphrase notes =>
      [("name", Some name, MAX_RECORD_NAME_CHARS);
       ("public_key", Some public_key, MAX_SSH_PUBLIC_KEY_CHARS);
       ("private_key", private_key, MAX_SSH_PRIVATE_KEY_CHARS);
       ("passphrase", passphrase, MAX_SSH_PASSPHRASE_CHARS);
       ("notes", notes, MAX_NOTES_CHARS)]
  | EncryptedPayload.SecureNote name notes =>
      [("name", Some name, MAX_RECORD_NAME_CHARS); ("notes", notes, MAX_SECURE_NOTE_CHARS)]
  end.

Definition within_limit (f : string * option string * N) : Prop :=
  ∀ s, f.1.2 = Some s → (N.of_nat (length (chars s)) ≤ f.2)%N.

Lemma validate_len_ok field s max :
  validate_len field s max = Ok () ↔ (N.of_nat (length (chars s)) ≤ max)%N.
Proof.
  unfold validate_len, char_count. destruct (N.ltb_spec max (N.of_nat (length (chars s))));
    split; try done; lia.
Qed.

Lemma validate_optional_len_ok field v max :
  validate_optional_len field v max = Ok () ↔ within_limit (field, v, max).
Proof.
  unfold within_limit. destruct v as [s|]; cbn.
  - rewrite validate_len_ok. naive_solver.
  - naive_solver.
Qed.

(** The table read from top to bottom: the first field over its limit is the error. *)
Fixpoint check_limits (l : list (string * option string * N)) : result () DataError.t :=
  match l with
  | [] => Ok ()
  | (field, value, max) :: l =>
      let? _ := validate_optional_len field value max in
      check_limits l
  end.

Lemma res_bind_unit {E} (m : result () E) : res_bind m (λ _, Ok ()) = m.
Proof. by destruct m as [[]|]. Qed.

Lemma validate_payload_table p : validate_payload p = check_limits (field_limits p).
Proof.
  destruct p as [n u pw url notes|n a s url notes|n pub priv pass notes|n notes];
    cbn [validate_payload field_limits check_limits]; rewrite ?res_bind_unit; done.
Qed.

Lemma check_limits_ok l : check_limits l = Ok () ↔ Forall within_limit l.
Proof.
  induction l as [|[[f v] m] l IH]; cbn [check_limits]; [by split|].
  rewrite Forall_cons, <- validate_optional_len_ok with (field := f), <- IH, res_bind_ok.
  split; [intros ([] & ? & ?); done|intros [? ?]; eauto].
Qed.

(** Validation accepts exactly the payloads whose fields are within their limits. *)
Lemma validate_payload_ok p : validate_payload p = Ok () ↔ Forall within_limit (field_limits p).
Proof. by rewrite validate_payload_table, check_limits_ok. Qed.

(** serde's externally tagged encoding of the plaintext. *)
Definition dto_value (d : PayloadPlaintextDto.t) : Json :=
  let opt v := match v with Some s => JString s | None => JNull end in
  match d with
  | PayloadPlaintextDto.Login name username password url notes =>
      JObject [("Login", JObject [("name", JString name); ("notes", opt notes);
        ("password", JString password); ("url", opt url); ("username", JString username)])]
  | PayloadPlaintextDto.Api name app_id secret_key url notes =>
      JObject [("Api", JObject [("app_id", JString app_id); ("name", JString name);
        ("notes", opt notes); ("secret_key", JString secret_key); ("url", opt url)])]
  | PayloadPlaintextDto.Ssh name public_key private_key passphrase notes =>
      JObject [("Ssh", JObject [("name", JString name); ("notes", opt notes);
        ("passphrase", opt passphrase); ("private_key", opt private_key);
        ("public_key", JString public_key)])]
  | PayloadPlaintextDto.SecureNote name notes =>
      JObject [("SecureNote", JObject [("name", JString name); ("notes", opt notes)])]
  end.

Class PayloadJson `{Serde PayloadPlaintextDto.t} `{Serde Json} : Prop :=
  payload_json d s : to_json d = Ok s → from_json s = Ok (dto_value d).

(** The line under the name of a record in a list. *)
Definition subtitle (p : EncryptedPayload.t) : string :=
  match p with
  | EncryptedPayload.Login _ username _ _ _ => username
  | EncryptedPayload.Api _ app_id _ _ _ => app_id
  | EncryptedPayload.Ssh _ public_key _ _ _ => shorten CredentialType.Ssh public_key
  | EncryptedPayload.SecureNote _ _ => ""
  end.

Section payload_properties.
Context {W : Type} `{Libs} `{CryptoLibLaws} `{SecureLaws W}.
Context `{!Serde PayloadPlaintextDto.t} `{!SerdeLaws PayloadPlaintextDto.t}.
Context `{!JsonText PayloadPlaintextDto.t} `{!Serde Json} `{!PayloadJson}.

Lemma dto_roundtrip p :
  PayloadPlaintextDto.into_payload (PayloadPlaintextDto.from_payload p) = p.
Proof. by destruct p. Qed.

(** A ciphertext that holds a payload under a version of the key. *)
Definition holds_payload (m : CryptoManager) (c n aad : bytes) (version : Z)
    (p : EncryptedPayload.t) : Prop :=
  ∃ key json, dek_of m version = Some key ∧ decrypt_with_aad (c, n) aad key = Ok json ∧
    from_utf8 json = Ok json ∧ from_json json = Ok (PayloadPlaintextDto.from_payload p) ∧
    from_json json = Ok (dto_value (PayloadPlaintextDto.from_payload p)).

Lemma encrypt_payload_ok m p aad w c n w' :
  encrypt_payload m p aad w = (Ok (c, n), w') →
  holds_payload m c n aad (cm_current m) p ∧ String.length n = 24.
Proof.
  unfold encrypt_payload. intros He. inv_runs.
  match goal with E : CryptoManager.encrypt _ _ _ _ = _ |- _ =>
    apply encrypt_ok in E as (key & ? & ? & ?) end.
  split; [|done]. unfold holds_payload. eauto 10 using json_utf8, serde_roundtrip, payload_json.
Qed.

(** The object that holds the fields of a payload. *)
Definition fields_of (p : EncryptedPayload.t) : Json :=
  match dto_value (PayloadPlaintextDto.from_payload p) with
  | JObject ((_, v) :: _) => v
  | _ => JNull
  end.

Lemma decrypt_fields_run m c n aad v p w r w' :
  holds_payload m c n aad v p → decrypt_fields m c n aad v w = (r, w') →
  yields (W := W) r (fields_of p).
Proof.
  intros (key & json & Hk & Hd & Hu & _ & Hj). unfold decrypt_fields. rewrite ior_bind_step.
  destruct (CryptoManager.decrypt m c n aad v w) as [rp w1] eqn:E.
  destruct (decrypt_run _ _ _ _ _ _ _ _ _ _ Hk Hd E) as [->|(e & -> & He)].
  - unfold ior_bind, io_bind, lift, io_ret. rewrite Hu, Hj. intros [= <- <-].
    left. by destruct p.
  - intros [= <- <-]. right. eauto.
Qed.

Lemma decrypt_payload_run m c n aad kind v p w r w' :
  holds_payload m c n aad v p → decrypt_payload m c n aad kind v w = (r, w') →
  yields (W := W) r p.
Proof.
  intros (key & json & Hk & Hd & Hu & Hj & _). unfold decrypt_payload. rewrite ior_bind_step.
  destruct (CryptoManager.decrypt m c n aad _ w) as [rp w1] eqn:E.
  destruct (decrypt_run _ _ _ _ _ _ _ _ _ _ Hk Hd E) as [->|(e & -> & He)].
  - unfold ior_bind, io_bind, lift, io_ret. rewrite Hu, Hj. cbn. rewrite dto_roundtrip.
    intros [= <- <-]. by left.
  - intros [= <- <-]. right. eauto.
Qed.

Lemma decrypt_name_run m c n aad v p w r w' :
  holds_payload m c n aad v p → decrypt_name_only m c n aad v w = (r, w') →
  yields (W := W) r (EncryptedPayload.name p).
Proof.
  intros Hp. unfold decrypt_name_only. rewrite ior_bind_step.
  destruct (decrypt_fields m c n aad _ w) as [rp w1] eqn:E.
  destruct (decrypt_fields_run _ _ _ _ _ _ _ _ _ Hp E) as [->|(e & -> & He)]; intros [= <- <-].
  - left. by destruct p.
  - right. eauto.
Qed.

Lemma decrypt_subtitle_run m c n aad v p w r w' :
  holds_payload m c n aad v p →
  decrypt_subtitle m c n aad (EncryptedPayload.credential_type p) v w = (r, w') →
  yields (W := W) r (subtitle p).
Proof.
  intros Hp. unfold decrypt_subtitle. rewrite ior_bind_step.
  destruct (decrypt_fields m c n aad _ w) as [rp w1] eqn:E.
  destruct (decrypt_fields_run _ _ _ _ _ _ _ _ _ Hp E) as [->|(e & -> & He)]; intros [= <- <-].
  - left. by destruct p.
  - right. eauto.
Qed.

(** C12: a payload that was encrypted decrypts to the same payload, its name and, for the
    type it has, its subtitle, under the version of the key that was current; the only
    failure left is that of locking memory. *)
Theorem payload_roundtrip m p aad w1 c n w2 w :
  encrypt_payload m p aad w1 = (Ok (c, n), w2) →
  let kind := EncryptedPayload.credential_type p in
  yields (W := W) (decrypt_payload m c n aad kind (cm_current m) w).1 p ∧
  yields (W := W) (decrypt_name_only m c n aad (cm_current m) w).1 (EncryptedPayload.name p) ∧
  yields (W := W) (decrypt_subtitle m c n aad kind (cm_current m) w).1 (subtitle p).
Proof.
  intros [Hp _]%encrypt_payload_ok.
  split_and!; [eapply decrypt_payload_run|eapply decrypt_name_run|eapply decrypt_subtitle_run];
    by try apply surjective_pairing.
Qed.

End payload_properties.
