(* ===== verification/Database.v ===== *)
(** * The vault database (src/db/models.rs, src/db/queries, src/types/audit.rs)

    The tables that a migration touches, and the queries over them.  A table is a map
    from its primary key to a row; a SQL statement of the source is a function of the
    tables ([sql_...] below), and the class [Sqlite] runs such functions: a statement
    that fails changes nothing, and a [SELECT] without [ORDER BY] returns its rows in
    some order; [sql_some_rows] are the rows of a [SELECT] before its first error, and
    [sql_choose] the row that a [LIMIT 1] takes among equals. *)

From S2P Require Import Prelude Env Types Crypto.

(** ** Audit operations (src/types/audit.rs) *)

Module AuditOperation.

Inductive t : Set :=
| RecordCreate
| RecordUpdate
| RecordDelete
| RecordRestore
| RecordDestroy
| RecordViewPassword
| RecordCopyPassword
| RecordCopyField
| VaultUnlock
| VaultLock
| VaultExport
| VaultImport
| MasterPasswordChange
| TrashEmpty
| SyncConflictResolved
| SyncBatchConflictsResolved
| DekRotated
| DekRotationFailed
| SshSign.

Definition to_db_str (o : t) : string :=
  match o with
  | RecordCreate => "record.create"
  | RecordUpdate => "record.update"
  | RecordDelete => "record.delete"
  | RecordRestore => "record.restore"
  | RecordDestroy => "record.destroy"
  | RecordViewPassword => "record.view_password"
  | RecordCopyPassword => "record.copy_password"
  | RecordCopyField => "record.copy_field"
  | VaultUnlock => "vault.unlock"
  | VaultLock => "vault.lock"
  | VaultExport => "vault.export"
  | VaultImport => "vault.import"
  | MasterPasswordChange => "master_password.change"
  | TrashEmpty => "trash.empty"
  | SyncConflictResolved => "sync.conflict_resolved"
  | SyncBatchConflictsResolved => "sync.batch_conflicts_resolved"
  | DekRotated => "dek.rotated"
  | DekRotationFailed => "dek.rotation_failed"
  | SshSign => "ssh.sign"
  end.

Definition all : list t :=
  [RecordCreate; RecordUpdate; RecordDelete; RecordRestore; RecordDestroy;
   RecordViewPassword; RecordCopyPassword; RecordCopyField; VaultUnlock; VaultLock;
   VaultExport; VaultImport; MasterPasswordChange; TrashEmpty; SyncConflictResolved;
   SyncBatchConflictsResolved; DekRotated; DekRotationFailed; SshSign].

Definition from_db_str (s : string) : result t DataError.t :=
  if String.eqb s "record.create" then Ok RecordCreate
  else if String.eqb s "record.update" then Ok RecordUpdate
  else if String.eqb s "record.delete" then Ok RecordDelete
  else if String.eqb s "record.restore" then Ok RecordRestore
  else if String.eqb s "record.destroy" then Ok RecordDestroy
  else if String.eqb s "record.view_password" then Ok RecordViewPassword
  else if String.eqb s "record.copy_password" then Ok RecordCopyPassword
  else if String.eqb s "record.copy_field" then Ok RecordCopyField
  else if String.eqb s "vault.unlock" then Ok VaultUnlock
  else if String.eqb s "vault.lock" then Ok VaultLock
  else if String.eqb s "vault.export" then Ok VaultExport
  else if String.eqb s "vault.import" then Ok VaultImport
  else if String.eqb s "master_password.change" then Ok MasterPasswordChange
  else if String.eqb s "trash.empty" then Ok TrashEmpty
  else if String.eqb s "sync.conflict_resolved" then Ok SyncConflictResolved
  else if String.eqb s "sync.batch_conflicts_resolved" then Ok SyncBatchConflictsResolved
  else if String.eqb s "dek.rotated" then Ok DekRotated
  else if String.eqb s "dek.rotation_failed" then Ok DekRotationFailed
  else if String.eqb s "ssh.sign" then Ok SshSign
  else Err (DataError.InvalidAuditOperation s).

End AuditOperation.

(** ** Rows (src/db/models.rs) *)

(** The least and greatest timestamp of chrono's [DateTime<Utc>], in seconds. *)
Definition min_timestamp : Z := -8334601228800.
Definition max_timestamp : Z := 8210266876799.

Definition timestamp_to_datetime (ts : Z) : result Instant DataError.t :=
  if (min_timestamp <=? ts)%Z && (ts <=? max_timestamp)%Z then Ok (seconds ts)
  else Err (DataError.InvalidTimestamp ts).

Definition datetime_to_timestamp (dt : Instant) : Z := dt / nanos_per_sec.

Record RecordRow : Set := mkRecordRow {
  row_id : string;
  row_credential_type : string;
  row_encrypted_data : bytes;
  row_nonce : bytes;
  row_dek_version : Z;
  row_aad : option bytes;
  row_is_favorite : Z;
  row_expires_at : option Z;
  row_created_at : Z;
  row_updated_at : Z;
  row_updated_by : string;
  row_version : Z;
  row_deleted : Z;
  row_deleted_at : option Z;
}.

#[export] Instance eta_RecordRow : Eta RecordRow := λ r,
  mkRecordRow (row_id r) (row_credential_type r) (row_encrypted_data r) (row_nonce r)
    (row_dek_version r) (row_aad r) (row_is_favorite r) (row_expires_at r)
    (row_created_at r) (row_updated_at r) (row_updated_by r) (row_version r)
    (row_deleted r) (row_deleted_at r).

Record AuditLogRow : Set := mkAuditLogRow {
  al_operation : string;
  al_record_id : option string;
  al_record_name : option string;
  al_detail : option string;
  al_occurred_at : Z;
}.

(** [Option::map(..).transpose()] *)
Definition transpose {A B E} (f : A → result B E) (o : option A) : result (option B) E :=
  match o with Some a => res_map Some (f a) | None => Ok None end.

(** [x as i64] of a [u64], and back. *)
Definition as_i64 (z : Z) : Z := if (z <? 2 ^ 63)%Z then z else (z - 2 ^ 64)%Z.

Definition nonzero (z : Z) : bool := negb (z =? 0)%Z.

Record ListIndexRow : Set := mkListIndexRow {
  li_name : string;
  li_subtitle : string;
  li_search_text : string;
  li_name_sort_key : string;
}.

(** The columns of [record_health_state], [sync_state] and [password_history] but their
    keys. *)
Record HealthStateRow : Set := mkHealthStateRow {
  hr_record_version : Z;
  hr_evaluated_at : option Z;
  hr_weak_password : option Z;
  hr_duplicate_group_size : option Z;
  hr_compromised : option Z;
  hr_expired : option Z;
}.

#[export] Instance eta_HealthStateRow : Eta HealthStateRow := λ h,
  mkHealthStateRow (hr_record_version h) (hr_evaluated_at h) (hr_weak_password h)
    (hr_duplicate_group_size h) (hr_compromised h) (hr_expired h).

Record SyncStateRow : Set := mkSyncStateRow {
  sr_cloud_updated_at : option Z;
  sr_local_updated_at : Z;
  sr_sync_status : Z;
  sr_conflict_data : option bytes;
}.

Record PasswordHistoryRow : Set := mkPasswordHistoryRow {
  pr_record_id : string;
  pr_encrypted_password : bytes;
  pr_nonce : bytes;
  pr_dek_version : Z;
  pr_changed_at : Z;
}.

(** The tables, each keyed by its primary key; [t_tag_seq] and [t_history_seq] are the
    greatest identifiers that were ever given ([AUTOINCREMENT]). *)
Record Tables : Set := mkTables {
  t_records : gmap string RecordRow;
  t_tags : gmap Z string;
  t_tag_seq : Z;
  t_record_tags : gset (string * Z);
  t_metadata : gmap string string;
  t_audit_log : list AuditLogRow;
  t_list_index : gmap string ListIndexRow;
  t_health : gmap string HealthStateRow;
  t_sync_state : gmap string SyncStateRow;
  t_history : gmap Z PasswordHistoryRow;
  t_history_seq : Z;
}.

#[export] Instance eta_Tables : Eta Tables := λ t,
  mkTables (t_records t) (t_tags t) (t_tag_seq t) (t_record_tags t) (t_metadata t)
    (t_audit_log t) (t_list_index t) (t_health t) (t_sync_state t) (t_history t)
    (t_history_seq t).

(** ** SQLite

    [rusqlite::Error] is its message and whether it is an [InvalidColumnType]. *)
Record SqlError : Set := mkSqlError {
  sql_message : string;
  sql_invalid_column_type : bool;
}.

Class Sqlite (W : Type) : Type := {
  sql_query {A : Type} : (Tables → A) → ior W A SqlError;
  sql_select {A : Type} : (Tables → list A) → ior W (list A) SqlError;
  sql_execute {A : Type} : (Tables → result (A * Tables) SqlError) → ior W A SqlError;
  sql_some_rows {A : Type} : (Tables → list A) → io W (list A);
  sql_choose {A : Type} : list A → option A;
}.

Class SqliteLaws (W : Type) `{Sqlite W} `{Secure W} `{System W} : Type := {
  tables : W → Tables;
  query_tables {A} (f : Tables → A) w r w' : sql_query f w = (r, w') → tables w' = tables w;
  query_ok {A} (f : Tables → A) w a w' : sql_query f w = (Ok a, w') → a = f (tables w);
  select_tables {A} (f : Tables → list A) w r w' :
    sql_select f w = (r, w') → tables w' = tables w;
  select_ok {A} (f : Tables → list A) w l w' :
    sql_select f w = (Ok l, w') → l ≡ₚ f (tables w);
  execute_ok {A} (f : Tables → result (A * Tables) SqlError) w a w' :
    sql_execute f w = (Ok a, w') → f (tables w) = Ok (a, tables w');
  execute_err {A} (f : Tables → result (A * Tables) SqlError) w e w' :
    sql_execute f w = (Err e, w') → tables w' = tables w;
  some_rows_tables {A} (f : Tables → list A) w l w' :
    sql_some_rows f w = (l, w') → tables w' = tables w;
  some_rows_subset {A} (f : Tables → list A) w l w' :
    sql_some_rows f w = (l, w') → l ⊆+ f (tables w);
  choose_in {A} (l : list A) a : sql_choose l = Some a → a ∈ l;
  choose_some {A} (l : list A) : l ≠ [] → is_Some (sql_choose l);
  os_random_tables n w b w' : os_random n w = (b, w') → tables w' = tables w;
  lock_pages_tables w r w' : lock_pages w = (r, w') → tables w' = tables w;
  now_tables w t w' : now w = (t, w') → tables w' = tables w;
}.

(** Identifiers have 128 bits, and the clock is within the range of chrono. *)
Definition chrono_range (n : Instant) : Prop :=
  (min_timestamp ≤ datetime_to_timestamp n ≤ max_timestamp)%Z.

Class RangeLaws (W : Type) `{SqliteLaws W} : Prop := {
  new_v4_tables w u w' : new_v4 w = (u, w') → tables w' = tables w;
  new_v4_range w u w' : new_v4 w = (u, w') → (u < 2 ^ 128)%N;
  now_range w t w' : now w = (t, w') → chrono_range t;
}.

(** The text of the error of [Uuid::parse_str]. *)
Class UuidErrors : Type := uuid_error : string → string.

Module RecordRow.

Definition nonce_of (b : bytes) : result bytes DataError.t :=
  if (String.length b =? 24)%nat then Ok b
  else Err (DataError.FieldTooLong "nonce" 24 (N.of_nat (String.length b))).

Definition to_stored_record `{Libs} (r : RecordRow) (tags : list string)
  : result StoredRecord DataError.t :=
  let? id := ok_or (DataError.InvalidUuid (row_id r)) (uuid_parse (row_id r)) in
  let? credential_type := CredentialType.from_db_str (row_credential_type r) in
  let? nonce := nonce_of (row_nonce r) in
  let? expires_at := transpose timestamp_to_datetime (row_expires_at r) in
  let? created_at := timestamp_to_datetime (row_created_at r) in
  let? updated_at := timestamp_to_datetime (row_updated_at r) in
  let? deleted_at := transpose timestamp_to_datetime (row_deleted_at r) in
  Ok (mkStoredRecord id credential_type (row_encrypted_data r) nonce
        (wrap32 (row_dek_version r)) (default "" (row_aad r)) (nonzero (row_is_favorite r))
        expires_at created_at updated_at (row_updated_by r) (wrap64 (row_version r))
        (nonzero (row_deleted r)) deleted_at tags).

End RecordRow.

Module DbError.

Inductive t : Set :=
| Sqlite (e : SqlError)
| Data (e : DataError.t)
| Uuid (text : string).

Definition display (e : t) : string :=
  match e with
  | Sqlite e => "database error: " +:+ sql_message e
  | Data e => "data conversion error: " +:+ DataError.display e
  | Uuid text => "invalid UUID: " +:+ text
  end.

End DbError.

(** ** Statements *)

(** [SELECT t.name FROM tags t INNER JOIN record_tags rt .. WHERE rt.record_id = ?1] *)
Definition sql_record_tags (id : string) (t : Tables) : list string :=
  omap (λ '(r, tag), if bool_decide (r = id) then t_tags t !! tag else None)
    (elements (t_record_tags t)).

(** [UPDATE records SET .. WHERE id = ?10 AND version = ?11], with the rows affected. *)
Definition sql_update_record `{Libs} (r : StoredRecord) (expected_version : Z) (t : Tables)
  : Z * Tables :=
  let id := uuid_to_string (st_id r) in
  match t_records t !! id with
  | Some row =>
      if bool_decide (row_version row = as_i64 expected_version) then
        let row' := mkRecordRow (row_id row) (row_credential_type row)
          (st_encrypted_data r) (st_nonce r) (st_dek_version r)
          (if bool_decide (st_aad r = "") then None else Some (st_aad r))
          (Z.b2z (st_is_favorite r)) (datetime_to_timestamp <$> st_expires_at r)
          (row_created_at row) (datetime_to_timestamp (st_updated_at r)) (st_updated_by r)
          (as_i64 (st_version r)) (row_deleted row) (row_deleted_at row) in
        (1, t <| t_records ::= <[id := row']> |>)%Z
      else (0, t)%Z
  | None => (0, t)%Z
  end.

(** [SELECT * FROM records WHERE dek_version < ?1] *)
Definition sql_records_below (target : Z) (t : Tables) : list RecordRow :=
  filter (λ r, (row_dek_version r < target)%Z) (map_to_list (t_records t)).*2.

(** ** Queries (src/db/queries) *)

Section queries.
Context {W : Type} `{Libs} `{UuidErrors} `{Sqlite W} `{System W}.

Definition sqlite {A} (m : ior W A SqlError) : ior W A DbError.t :=
  io_map_err DbError.Sqlite m.

Definition data {A} (r : result A DataError.t) : ior W A DbError.t :=
  lift (map_err DbError.Data r).

Definition get_record_tags_inner (id : Uuid) : ior W (list string) DbError.t :=
  sqlite (sql_select (sql_record_tags (uuid_to_string id))).

Definition get_record (id : Uuid) : ior W (option StoredRecord) DbError.t :=
  let! row := sqlite (sql_query (λ t, t_records t !! uuid_to_string id)) in
  match row with
  | Some row =>
      let! tags := get_record_tags_inner id in
      let! record := data (RecordRow.to_stored_record row tags) in
      lift (Ok (Some record))
  | None => lift (Ok None)
  end.

Definition update_record (record : StoredRecord) (expected_version : Z)
  : ior W bool DbError.t :=
  let! affected :=
    sqlite (sql_execute (λ t, Ok (sql_update_record record expected_version t))) in
  lift (Ok (0 <? affected)%Z).

(** The rows of a listing with their tags. *)
Fixpoint stored_records (rows : list RecordRow) : ior W (list StoredRecord) DbError.t :=
  match rows with
  | [] => lift (Ok [])
  | row :: rows =>
      let! id := lift (ok_or (DbError.Uuid (uuid_error (row_id row))) (uuid_parse (row_id row))) in
      let! tags := get_record_tags_inner id in
      let! record := data (RecordRow.to_stored_record row tags) in
      let! records := stored_records rows in
      lift (Ok (record :: records))
  end.

Definition list_records_by_dek_version (target_version : Z)
  : ior W (list StoredRecord) DbError.t :=
  let! rows := sqlite (sql_select (sql_records_below target_version)) in
  stored_records rows.

(** The queries of src/db/queries/metadata.rs *)
Definition get_metadata (key : string) : ior W (option string) DbError.t :=
  sqlite (sql_query (λ t, t_metadata t !! key)).

Definition set_metadata (key value : string) : ior W () DbError.t :=
  sqlite (sql_execute (λ t, Ok ((), t <| t_metadata ::= <[key := value]> |>))).

Definition delete_metadata (key : string) : ior W bool DbError.t :=
  let! affected := sqlite (sql_execute (λ t,
    Ok (if bool_decide (is_Some (t_metadata t !! key)) then 1%Z else 0%Z,
        t <| t_metadata ::= delete key |>))) in
  lift (Ok (0 <? affected)%Z).

(** The query of src/db/queries/audit.rs *)
Definition insert_audit_entry (operation : AuditOperation.t) (record_id : option Uuid)
    (record_name detail : option string) : ior W () DbError.t :=
  let* n := now in
  let row := mkAuditLogRow (AuditOperation.to_db_str operation)
    (uuid_to_string <$> record_id) record_name detail (datetime_to_timestamp n) in
  sqlite (sql_execute (λ t, Ok ((), t <| t_audit_log ::= λ l, l ++ [row] |>))).

End queries.

(** ** Properties *)

Lemma audit_operation_roundtrip o :
  AuditOperation.from_db_str (AuditOperation.to_db_str o) = Ok o.
Proof. by destruct o. Qed.

Lemma timestamp_roundtrip ts dt :
  timestamp_to_datetime ts = Ok dt → datetime_to_timestamp dt = ts.
Proof.
  unfold timestamp_to_datetime, datetime_to_timestamp, seconds. destruct (_ && _); [|done].
  intros [= <-]. by apply Z.div_mul.
Qed.

Lemma as_i64_wrap64 z : (- 2 ^ 63 ≤ z < 2 ^ 63)%Z → as_i64 (wrap64 z) = z.
Proof.
  intros Hz. unfold as_i64, wrap64. destruct (decide (0 ≤ z)%Z).
  - rewrite Z.mod_small by lia. by rewrite (proj2 (Z.ltb_lt _ _)) by lia.
  - replace (z mod 2 ^ 64)%Z with (z + 2 ^ 64)%Z.
    + rewrite (proj2 (Z.ltb_ge _ _)) by lia. lia.
    + apply Z.mod_unique with (-1)%Z; lia.
Qed.

Lemma as_i64_range z : (- 2 ^ 63 ≤ as_i64 (wrap64 z) < 2 ^ 63)%Z.
Proof.
  pose proof (wrap64_range z) as Hz. unfold is_u64 in Hz. unfold as_i64.
  destruct (Z.ltb_spec (wrap64 z) (2 ^ 63)); lia.
Qed.

Section query_properties.
Context {W : Type} `{Libs} `{UuidErrors} `{SqliteLaws W}.

#[local] Hint Extern 0 (keeps tables (sql_query _)) => exact (query_tables _) : keeps.
#[local] Hint Extern 0 (keeps tables (sql_select _)) => exact (select_tables _) : keeps.

Lemma keeps_get_record_tags id : keeps tables (get_record_tags_inner id).
Proof. unfold get_record_tags_inner, sqlite. solve_keeps. Qed.
#[local] Hint Resolve keeps_get_record_tags : keeps.

Lemma keeps_get_record id : keeps tables (get_record id).
Proof. unfold get_record, sqlite, data. solve_keeps. Qed.

Lemma keeps_stored_records rows : keeps tables (stored_records rows).
Proof. induction rows as [|row rows IH]; cbn [stored_records]; unfold data; solve_keeps. Qed.
#[local] Hint Resolve keeps_stored_records : keeps.

Lemma keeps_list_records target : keeps tables (list_records_by_dek_version target).
Proof. unfold list_records_by_dek_version, sqlite. solve_keeps. Qed.

Lemma keeps_get_metadata key : keeps tables (get_metadata key).
Proof. unfold get_metadata, sqlite. solve_keeps. Qed.

Lemma get_record_ok id w r w' :
  get_record id w = (Ok (Some r), w') →
  ∃ row tags, t_records (tables w) !! uuid_to_string id = Some row ∧
    RecordRow.to_stored_record row tags = Ok r.
Proof.
  unfold get_record, sqlite, data. intros Hr. inv_runs.
  match goal with E : sql_query _ _ = _ |- _ => apply query_ok in E end.
  match goal with o : option RecordRow |- _ => destruct o as [row|] end; inv_runs.
  match goal with E : map_err _ _ = Ok _ |- _ => apply map_err_ok in E end. eauto.
Qed.

(** The rows of a listing and the records it returns correspond one to one. *)
Lemma stored_records_ok rows w l w' :
  stored_records rows w = (Ok l, w') →
  Forall2 (λ row r, ∃ tags, RecordRow.to_stored_record row tags = Ok r) rows l.
Proof.
  revert w l. induction rows as [|row rows IH]; intros w l; cbn [stored_records]; unfold data;
    intros Hr; inv_runs; [constructor|].
  match goal with E : map_err _ _ = Ok _ |- _ => apply map_err_ok in E end.
  constructor; eauto.
Qed.

Lemma list_records_ok target w l w' :
  list_records_by_dek_version target w = (Ok l, w') →
  ∃ rows, rows ≡ₚ sql_records_below target (tables w) ∧
    Forall2 (λ row r, ∃ tags, RecordRow.to_stored_record row tags = Ok r) rows l.
Proof.
  unfold list_records_by_dek_version, sqlite. intros Hr. inv_runs.
  match goal with E : sql_select _ _ = _ |- _ => apply select_ok in E end.
  eauto using stored_records_ok.
Qed.

Lemma sql_update_cases record v t :
  sql_update_record record v t = (0%Z, t) ∨ ∃ t', sql_update_record record v t = (1%Z, t').
Proof. unfold sql_update_record. repeat case_match; eauto. Qed.

(** An update takes effect exactly when it says so. *)
Lemma update_record_outcome record v w r w' :
  update_record record v w = (r, w') →
  (tables w' = tables w ∧ r ≠ Ok true) ∨
  (r = Ok true ∧ sql_update_record record v (tables w) = (1%Z, tables w')).
Proof.
  unfold update_record, sqlite. rewrite ior_bind_step. unfold io_map_err, io_bind, io_ret, lift.
  destruct (sql_execute _ w) as [[n|e] w1] eqn:E; cbn; intros [= <- <-].
  - apply execute_ok in E. injection E as E.
    destruct (sql_update_cases record v (tables w)) as [Hu|[t' Hu]]; rewrite Hu in *; simplify_eq.
    + by left.
    + by right.
  - apply execute_err in E. by left.
Qed.

(** A statement leaves a table alone when its function does. *)
Lemma keeps_execute {A B} (obs : Tables → B) (f : Tables → result (A * Tables) SqlError) :
  (∀ t a t', f t = Ok (a, t') → obs t' = obs t) → keeps (λ w, obs (tables w)) (sql_execute f).
Proof.
  intros Hf w [a|e] w' Hr.
  - apply execute_ok in Hr. by eapply Hf.
  - apply execute_err in Hr. by rewrite Hr.
Qed.

Definition records (w : W) : gmap string RecordRow := t_records (tables w).
Definition metadata (w : W) : gmap string string := t_metadata (tables w).

#[local] Hint Extern 1 (keeps records (sql_execute _)) =>
  apply (keeps_execute t_records); by intros ??? [= <- <-] : keeps.
#[local] Hint Extern 1 (keeps metadata (sql_execute _)) =>
  apply (keeps_execute t_metadata); by intros ??? [= <- <-] : keeps.

Lemma keeps_set_metadata key value : keeps records (set_metadata key value).
Proof. unfold set_metadata, sqlite. solve_keeps. Qed.

Lemma keeps_delete_metadata key : keeps records (delete_metadata key).
Proof. unfold delete_metadata, sqlite. solve_keeps. Qed.

(** Code that leaves all tables alone leaves each of them alone. *)
Lemma keeps_table {A B} (obs : Tables → B) (m : io W A) :
  keeps tables m → keeps (λ w, obs (tables w)) m.
Proof. intros Hm w r w' Hr. by rewrite (Hm _ _ _ Hr). Qed.

Lemma keeps_records {A} (m : io W A) : keeps tables m → keeps records m.
Proof. apply keeps_table. Qed.

Lemma keeps_metadata_update record v : keeps metadata (update_record record v).
Proof.
  intros w r w' Hr. unfold metadata.
  apply update_record_outcome in Hr as [[-> _]|[_ Hr]]; [done|].
  unfold sql_update_record in Hr. destruct (t_records _ !! _) as [row|]; [|done].
  case_bool_decide; [|done]. by injection Hr as <-.
Qed.

(** A write of the metadata table that fails changes nothing. *)
Lemma set_metadata_outcome key value w r w' :
  set_metadata key value w = (r, w') →
  (r = Ok () ∧ metadata w' = <[key := value]> (metadata w)) ∨
  ((∃ e, r = Err e) ∧ tables w' = tables w).
Proof.
  unfold set_metadata, sqlite, io_map_err, io_bind, io_ret, metadata.
  destruct (sql_execute _ w) as [[[]|e] w1] eqn:E; intros [= <- <-].
  - apply execute_ok in E. left. split; [done|]. by injection E as <-.
  - apply execute_err in E. right. eauto.
Qed.

Lemma keeps_insert_audit_entry o id name detail :
  keeps records (insert_audit_entry o id name detail).
Proof.
  unfold insert_audit_entry, sqlite. apply keeps_bind; [|intros n; solve_keeps].
  apply keeps_records. exact now_tables.
Qed.

End query_properties.
