(* ===== verification/Queries.v ===== *)
(** * The queries of the record life cycle (src/db/queries)

    The statements that create, trash, restore and delete records, and those on tags,
    health states, sync states, password history and the list index.  A transaction is
    one statement of [Sqlite], since it takes effect as a whole or not at all. *)

From stdpp Require Import sorting gmap.
From S2P Require Import Prelude Text Env Types Crypto Database.

(** [str::to_lowercase], which depends on the tables of Unicode. *)
Class Lowercase : Type := to_lowercase : string → string.

(** [changed_at] and the like, the latest first; [NULL] comes last. *)
Definition later (a b : Z) : Prop := (b ≤ a)%Z.
Definition later_or_null (a b : option Z) : Prop :=
  match a, b with
  | Some a, Some b => (b ≤ a)%Z
  | None, Some _ => False
  | _, None => True
  end.

(** The order of text: byte by byte. *)
Definition text_le (a b : string) : Prop := String.leb a b = true.

#[export] Instance later_dec : RelDecision later.
Proof. unfold later. solve_decision. Defined.
#[export] Instance later_or_null_dec : RelDecision later_or_null.
Proof. intros [a|] [b|]; unfold later_or_null; apply _. Defined.

#[export] Instance text_le_dec : RelDecision text_le.
Proof. unfold text_le. solve_decision. Defined.

(** Rows by a key, as [ORDER BY .. DESC] sorts them. *)
Definition by_key {A B} (R : relation B) (f : A → B) : relation A := λ x y, R (f x) (f y).
#[export] Instance by_key_dec {A B} (R : relation B) (f : A → B) `{!RelDecision R} :
  RelDecision (by_key R f) := λ x y, decide (R (f x) (f y)).

(** ** Constraints *)

Definition unique_failed (column : string) : SqlError :=
  mkSqlError ("UNIQUE constraint failed: " +:+ column) false.
Definition check_failed (table : string) : SqlError :=
  mkSqlError ("CHECK constraint failed: " +:+ table) false.
Definition foreign_key_failed : SqlError := mkSqlError "FOREIGN KEY constraint failed" false.
Definition no_rows : SqlError := mkSqlError "Query returned no rows" false.

(** [length(X)] of SQL: the characters before the first NUL. *)
Fixpoint before_nul (l : list Z) : list Z :=
  match l with
  | c :: l => if (c =? 0)%Z then [] else c :: before_nul l
  | [] => []
  end.
Definition sql_length (s : string) : nat := length (before_nul (chars s)).

(** A row that references a record needs it. *)
Definition referencing (id : string) (t : Tables) (t' : Tables) : result (() * Tables) SqlError :=
  if bool_decide (is_Some (t_records t !! id)) then Ok ((), t') else Err foreign_key_failed.

(** ** Records *)

(** [UPDATE records SET .. WHERE id = ..], with the rows affected. *)
Definition sql_alter_record (id : string) (f : RecordRow → RecordRow) (t : Tables)
  : Z * Tables :=
  match t_records t !! id with
  | Some row => (1%Z, t <| t_records ::= <[id := f row]> |>)
  | None => (0%Z, t)
  end.

(** [UPDATE records SET .. WHERE ..] of many rows. *)
Definition sql_alter_records (P : string → RecordRow → bool) (f : RecordRow → RecordRow)
    (t : Tables) : Z * Tables :=
  (Z.of_nat (size (filter (λ '(id, row), P id row = true) (t_records t))),
   t <| t_records ::= map_imap (λ id row, Some (if P id row then f row else row)) |>).

Definition trashed (at_ : Z) (row : RecordRow) : RecordRow :=
  row <| row_deleted := 1%Z |> <| row_deleted_at := Some at_ |>.
Definition restored (row : RecordRow) : RecordRow :=
  row <| row_deleted := 0%Z |> <| row_deleted_at := None |>.

(** [DELETE FROM records WHERE ..]; the tables that reference records follow
    ([ON DELETE CASCADE]). *)
Definition sql_delete_records (P : string → RecordRow → bool) (t : Tables) : Z * Tables :=
  let gone id := match t_records t !! id with Some row => P id row | None => false end in
  (Z.of_nat (size (filter (λ '(id, row), P id row = true) (t_records t))),
   t <| t_records ::= filter (λ r, P r.1 r.2 = false) |>
     <| t_record_tags ::= filter (λ r, gone r.1 = false) |>
     <| t_list_index ::= filter (λ r, gone r.1 = false) |>
     <| t_health ::= filter (λ r, gone r.1 = false) |>
     <| t_sync_state ::= filter (λ r, gone r.1 = false) |>
     <| t_history ::= filter (λ r, gone (pr_record_id r.2) = false) |>).

(** The row of a record, as [INSERT INTO records] writes it. *)
Definition new_row `{Libs} (r : StoredRecord) : RecordRow :=
  mkRecordRow (uuid_to_string (st_id r)) (CredentialType.to_db_str (st_credential_type r))
    (st_encrypted_data r) (st_nonce r) (st_dek_version r)
    (if bool_decide (st_aad r = "") then None else Some (st_aad r))
    (Z.b2z (st_is_favorite r)) (datetime_to_timestamp <$> st_expires_at r)
    (datetime_to_timestamp (st_created_at r)) (datetime_to_timestamp (st_updated_at r))
    (st_updated_by r) (as_i64 (st_version r)) (Z.b2z (st_deleted r))
    (datetime_to_timestamp <$> st_deleted_at r).

Definition sql_insert_row `{Libs} (r : StoredRecord) (t : Tables) : result Tables SqlError :=
  let id := uuid_to_string (st_id r) in
  match t_records t !! id with
  | Some _ => Err (unique_failed "records.id")
  | None => Ok (t <| t_records ::= <[id := new_row r]> |>)
  end.

(** ** Tags *)

(** [SELECT id FROM tags WHERE name = ?1] *)
Definition sql_tag_named (name : string) (t : Tables) : option Z :=
  fst <$> head (filter (λ tag, tag.2 = name) (map_to_list (t_tags t))).

Definition sql_new_tag (name : string) (t : Tables) : Z * Tables :=
  let id := (t_tag_seq t + 1)%Z in
  (id, t <| t_tags ::= <[id := name]> |> <| t_tag_seq := id |>).

(** [INSERT INTO tags (name) VALUES (?1)] *)
Definition sql_insert_tag (name : string) (t : Tables) : result (Z * Tables) SqlError :=
  if bool_decide (is_Some (sql_tag_named name t)) then Err (unique_failed "tags.name")
  else if (50 <? sql_length name)%nat then Err (check_failed "length(name) <= 50")
  else Ok (sql_new_tag name t).

(** [INSERT OR IGNORE INTO tags (name) VALUES (?1)] *)
Definition sql_ensure_tag (name : string) (t : Tables) : Tables :=
  match sql_insert_tag name t with Ok (_, t) => t | Err _ => t end.

(** [UPDATE tags SET name = ?1 WHERE name = ?2] *)
Definition sql_rename_tag (old_name new_name : string) (t : Tables)
  : result (Z * Tables) SqlError :=
  match sql_tag_named old_name t with
  | None => Ok (0%Z, t)
  | Some tag =>
      if negb (bool_decide (old_name = new_name)) && bool_decide (is_Some (sql_tag_named new_name t))
      then Err (unique_failed "tags.name")
      else if (50 <? sql_length new_name)%nat then Err (check_failed "length(name) <= 50")
      else Ok (1%Z, t <| t_tags ::= <[tag := new_name]> |>)
  end.

(** A tag and, by [ON DELETE CASCADE], its links. *)
Definition sql_remove_tag (tag : Z) (t : Tables) : Tables :=
  t <| t_tags ::= delete tag |> <| t_record_tags ::= filter (λ r, r.2 ≠ tag) |>.

(** [DELETE FROM tags WHERE name = ?1] *)
Definition sql_delete_tag (name : string) (t : Tables) : Z * Tables :=
  match sql_tag_named name t with
  | Some tag => (1%Z, sql_remove_tag tag t)
  | None => (0%Z, t)
  end.

(** [INSERT OR IGNORE INTO record_tags (record_id, tag_id) VALUES (?1, ?2)] *)
Definition sql_link (id : string) (tag : Z) (t : Tables) : result (() * Tables) SqlError :=
  if bool_decide (is_Some (t_records t !! id) ∧ is_Some (t_tags t !! tag))
  then Ok ((), t <| t_record_tags ::= λ s, {[(id, tag)]} ∪ s |>)
  else Err foreign_key_failed.

(** The loop body of [insert_record]. *)
Definition sql_tag_record (id : string) (t : result Tables SqlError) (name : string)
  : result Tables SqlError :=
  let? t := t in
  let t := sql_ensure_tag name t in
  let? tag := ok_or no_rows (sql_tag_named name t) in
  let? (_, t) := sql_link id tag t in
  Ok t.

(** The transaction of [insert_record]. *)
Definition sql_insert_record `{Libs} (r : StoredRecord) (t : Tables)
  : result (() * Tables) SqlError :=
  let? t := foldl (sql_tag_record (uuid_to_string (st_id r))) (sql_insert_row r t) (st_tags r) in
  Ok ((), t).

(** ** Health states *)

Definition health_row (s : RecordHealthState) : HealthStateRow :=
  mkHealthStateRow (as_i64 (hs_record_version s)) (datetime_to_timestamp <$> hs_evaluated_at s)
    (Z.b2z <$> hs_weak_password s) (as_i64 <$> hs_duplicate_group_size s)
    (Z.b2z <$> hs_compromised s) (Z.b2z <$> hs_expired s).

Definition sql_upsert_health `{Libs} (s : RecordHealthState) (t : Tables)
  : result (() * Tables) SqlError :=
  let id := uuid_to_string (hs_record_id s) in
  referencing id t (t <| t_health ::= <[id := health_row s]> |>).

Definition sql_insert_health `{Libs} (t : result Tables SqlError) (s : RecordHealthState)
  : result Tables SqlError :=
  let? t := t in
  if bool_decide (is_Some (t_health t !! uuid_to_string (hs_record_id s)))
  then Err (unique_failed "record_health_state.record_id")
  else
    let? (_, t) := sql_upsert_health s t in
    Ok t.

(** The transaction of [replace_record_health_states]. *)
Definition sql_replace_health `{Libs} (states : list RecordHealthState) (t : Tables)
  : result (() * Tables) SqlError :=
  let? t := foldl sql_insert_health (Ok (t <| t_health := ∅ |>)) states in
  Ok ((), t).

(** ** Sync states *)

(** The three upserts of src/db/queries/sync.rs, by the status they set. *)
Definition sync_row (status : SyncStatus.t) (conflict : option bytes) (n : Z)
    (old : option SyncStateRow) : SyncStateRow :=
  let cloud := old ≫= sr_cloud_updated_at in
  let data := old ≫= sr_conflict_data in
  match status with
  | SyncStatus.Pending => mkSyncStateRow cloud n (SyncStatus.discriminant status) data
  | SyncStatus.Synced => mkSyncStateRow (Some n) n (SyncStatus.discriminant status) None
  | SyncStatus.Conflict => mkSyncStateRow cloud n (SyncStatus.discriminant status) conflict
  end.

Definition sql_upsert_sync (id : string) (status : SyncStatus.t) (conflict : option bytes)
    (n : Z) (t : Tables) : result (() * Tables) SqlError :=
  referencing id t
    (t <| t_sync_state ::= <[id := sync_row status conflict n (t_sync_state t !! id)]> |>).

(** ** Password history *)

(** The entries of a record. *)
Definition sql_history_of (id : string) (t : Tables) : list (Z * PasswordHistoryRow) :=
  filter (λ r, pr_record_id r.2 = id) (map_to_list (t_history t)).

Definition sql_insert_history (row : PasswordHistoryRow) (t : Tables)
  : result (() * Tables) SqlError :=
  let id := (t_history_seq t + 1)%Z in
  referencing (pr_record_id row) t
    (t <| t_history ::= <[id := row]> |> <| t_history_seq := id |>).

(** The oldest entries of a record: [ORDER BY changed_at ASC LIMIT 1] takes one of them. *)
Definition oldest (l : list (Z * PasswordHistoryRow)) : list Z :=
  fst <$> filter (λ r, Forall (λ r', (pr_changed_at r.2 ≤ pr_changed_at r'.2)%Z) l) l.

(** src/types/history.rs *)
Record PasswordHistory : Set := mkPasswordHistory {
  ph_id : Z;
  ph_record_id : Uuid;
  ph_encrypted_password : bytes;
  ph_nonce : bytes;
  ph_dek_version : Z;
  ph_changed_at : Instant;
}.

(** [rusqlite::Error::FromSqlConversionFailure]: the column's index, its type and the text
    of the error. *)
Class ConversionErrors : Type := conversion_failure : Z → string → string → SqlError.

(** ** Queries *)

Section queries.
Context {W : Type} `{Libs} `{UuidErrors} `{Lowercase} `{ConversionErrors}.
Context `{Sqlite W} `{System W}.

(** [conn.execute(..)] of an [UPDATE] or [DELETE], with the rows affected. *)
Definition execute (f : Tables → Z * Tables) : ior W Z DbError.t :=
  sqlite (sql_execute (λ t, Ok (f t))).

Definition execute_ (f : Tables → Z * Tables) : ior W () DbError.t :=
  let! _ := execute f in
  lift (Ok ()).

(** [datetime_to_timestamp(&Utc::now())] *)
Definition timestamp_now : io W Z :=
  let* n := now in
  io_ret (datetime_to_timestamp n).

(** *** record.rs *)

Definition insert_record (record : StoredRecord) : ior W () DbError.t :=
  sqlite (sql_execute (sql_insert_record record)).

Definition upsert_record_list_index (id : Uuid) (name subtitle : string) : ior W () DbError.t :=
  let row := mkListIndexRow name subtitle (to_lowercase name +:+ " " +:+ to_lowercase subtitle)
    (to_lowercase name) in
  sqlite (sql_execute (λ t, referencing (uuid_to_string id) t
    (t <| t_list_index ::= <[uuid_to_string id := row]> |>))).

Definition clear_record_list_index : ior W () DbError.t :=
  execute_ (λ t, (Z.of_nat (size (t_list_index t)), t <| t_list_index := ∅ |>)).

Definition count_record_list_index : ior W Z DbError.t :=
  sqlite (sql_query (λ t, Z.of_nat (size (t_list_index t)))).

Definition count_all_records : ior W Z DbError.t :=
  sqlite (sql_query (λ t, Z.of_nat (size (t_records t)))).

(** [SELECT * FROM records WHERE ..], in the order of the listing. *)
Definition select_records (P : RecordRow → bool)
    (order : list RecordRow → list RecordRow) : ior W (list StoredRecord) DbError.t :=
  let! rows := sqlite (sql_select (λ t, filter (λ r, P r = true) (map_to_list (t_records t)).*2)) in
  stored_records (order rows).

Definition list_all_records : ior W (list StoredRecord) DbError.t :=
  select_records (λ _, true) (merge_sort (by_key later row_updated_at)).

Definition list_active_records : ior W (list StoredRecord) DbError.t :=
  select_records (λ r, (row_deleted r =? 0)%Z) (merge_sort (by_key later row_updated_at)).

Definition list_deleted_records : ior W (list StoredRecord) DbError.t :=
  select_records (λ r, (row_deleted r =? 1)%Z) (merge_sort (by_key later_or_null row_deleted_at)).

Definition soft_delete_record (id : Uuid) : ior W () DbError.t :=
  let* n := timestamp_now in
  execute_ (sql_alter_record (uuid_to_string id) (trashed n)).

Definition restore_record (id : Uuid) : ior W () DbError.t :=
  execute_ (sql_alter_record (uuid_to_string id) restored).

Definition hard_delete_record (id : Uuid) : ior W () DbError.t :=
  execute_ (sql_delete_records (λ i _, bool_decide (i = uuid_to_string id))).

Definition update_record_version (id : Uuid) (version : Z) : ior W () DbError.t :=
  execute_ (sql_alter_record (uuid_to_string id)
    (λ row, row <| row_version := as_i64 version |>)).

Definition update_record_deleted_state (id : Uuid) (deleted : bool)
    (deleted_at : option Instant) : ior W () DbError.t :=
  execute_ (sql_alter_record (uuid_to_string id)
    (λ row, row <| row_deleted := Z.b2z deleted |>
                <| row_deleted_at := datetime_to_timestamp <$> deleted_at |>)).

(** [UPDATE records SET is_favorite = ?1 WHERE id = ?2] *)
Definition update_favorite (id : Uuid) (is_favorite : bool) : ior W () DbError.t :=
  execute_ (sql_alter_record (uuid_to_string id)
    (λ row, row <| row_is_favorite := Z.b2z is_favorite |>)).

(** [WHERE id IN (..)] *)
Definition among (ids : list Uuid) (id : string) : bool :=
  bool_decide (id ∈ uuid_to_string <$> ids).

Definition batch_soft_delete_records (ids : list Uuid) (deleted_by : string)
  : ior W Z DbError.t :=
  if bool_decide (ids = []) then lift (Ok 0%Z)
  else
    let* n := timestamp_now in
    execute (sql_alter_records (λ id _, among ids id)
      (λ row, trashed n row <| row_updated_by := deleted_by |>)).

Definition batch_restore_records (ids : list Uuid) : ior W Z DbError.t :=
  if bool_decide (ids = []) then lift (Ok 0%Z)
  else execute (sql_alter_records (λ id row, among ids id && (row_deleted row =? 1)%Z) restored).

Definition batch_hard_delete_records (ids : list Uuid) : ior W Z DbError.t :=
  if bool_decide (ids = []) then lift (Ok 0%Z)
  else execute (sql_delete_records (λ id row, among ids id && (row_deleted row =? 1)%Z)).

(** *** tag.rs *)

Definition insert_tag (name : string) : ior W Z DbError.t :=
  sqlite (sql_execute (sql_insert_tag name)).

Definition get_tag_by_name (name : string) : ior W (option Z) DbError.t :=
  sqlite (sql_query (sql_tag_named name)).

Definition get_or_create_tag (name : string) : ior W Z DbError.t :=
  let! existing := get_tag_by_name name in
  match existing with
  | Some tag => lift (Ok tag)
  | None => insert_tag name
  end.

(** [UPDATE tags SET name = ?1 WHERE name = ?2] *)
Definition rename_tag (old_name new_name : string) : ior W bool DbError.t :=
  let! affected := sqlite (sql_execute (sql_rename_tag old_name new_name)) in
  lift (Ok (0 <? affected)%Z).

Definition delete_tag_by_name (name : string) : ior W bool DbError.t :=
  let! affected := execute (sql_delete_tag name) in
  lift (Ok (0 <? affected)%Z).

Definition attach_tag (id : Uuid) (tag : Z) : ior W () DbError.t :=
  sqlite (sql_execute (sql_link (uuid_to_string id) tag)).

Definition detach_tag (id : Uuid) (tag : Z) : ior W () DbError.t :=
  sqlite (sql_execute (λ t,
    Ok ((), t <| t_record_tags ::= λ s, s ∖ {[(uuid_to_string id, tag)]} |>))).

Definition detach_all_tags_for_record (id : Uuid) : ior W () DbError.t :=
  sqlite (sql_execute (λ t,
    Ok ((), t <| t_record_tags ::= filter (λ r, r.1 ≠ uuid_to_string id) |>))).

(** *** health_state.rs *)

(** [RecordHealthStateRow::to_health_state] *)
Definition to_health_state (row : string * HealthStateRow) : result RecordHealthState DbError.t :=
  let '(id, h) := row in
  let? record_id := ok_or (DbError.Uuid (uuid_error id)) (uuid_parse id) in
  let? evaluated_at :=
    map_err DbError.Data (transpose timestamp_to_datetime (hr_evaluated_at h)) in
  Ok (mkRecordHealthState record_id (wrap64 (hr_record_version h)) evaluated_at
        (nonzero <$> hr_weak_password h) (wrap64 <$> hr_duplicate_group_size h)
        (nonzero <$> hr_compromised h) (nonzero <$> hr_expired h)).

Fixpoint to_health_states (rows : list (string * HealthStateRow))
  : result (list RecordHealthState) DbError.t :=
  match rows with
  | [] => Ok []
  | row :: rows =>
      let? state := to_health_state row in
      let? states := to_health_states rows in
      Ok (state :: states)
  end.

(** [ORDER BY record_id] *)
Definition list_record_health_states : ior W (list RecordHealthState) DbError.t :=
  let! rows := sqlite (sql_select (λ t, map_to_list (t_health t))) in
  lift (to_health_states (merge_sort (by_key text_le fst) rows)).

Definition get_record_health_state (id : Uuid) : ior W (option RecordHealthState) DbError.t :=
  let! row := sqlite (sql_query (λ t, t_health t !! uuid_to_string id)) in
  match row with
  | Some h => lift (res_map Some (to_health_state (uuid_to_string id, h)))
  | None => lift (Ok None)
  end.

Definition upsert_record_health_state (s : RecordHealthState) : ior W () DbError.t :=
  sqlite (sql_execute (sql_upsert_health s)).

Definition replace_record_health_states (states : list RecordHealthState)
  : ior W () DbError.t :=
  sqlite (sql_execute (sql_replace_health states)).

Definition delete_record_health_state (id : Uuid) : ior W bool DbError.t :=
  let! affected := execute (λ t,
    (if bool_decide (is_Some (t_health t !! uuid_to_string id)) then 1%Z else 0%Z,
     t <| t_health ::= delete (uuid_to_string id) |>)) in
  lift (Ok (0 <? affected)%Z).

Definition delete_record_health_states (ids : list Uuid) : ior W Z DbError.t :=
  if bool_decide (ids = []) then lift (Ok 0%Z)
  else execute (λ t,
    (Z.of_nat (size (filter (λ r, among ids r.1 = true) (t_health t))),
     t <| t_health ::= filter (λ r, among ids r.1 = false) |>)).

Definition copy_record_health_state_version (id : Uuid) (new_record_version : Z)
  : ior W bool DbError.t :=
  let! affected := execute (λ t,
    match t_health t !! uuid_to_string id with
    | Some h =>
        (1%Z, t <| t_health ::= <[uuid_to_string id :=
                  h <| hr_record_version := as_i64 new_record_version |>]> |>)
    | None => (0%Z, t)
    end) in
  lift (Ok (0 <? affected)%Z).

(** *** sync.rs *)

Definition upsert_sync_state (id : Uuid) (status : SyncStatus.t) (conflict : option bytes)
  : ior W () DbError.t :=
  let* n := timestamp_now in
  sqlite (sql_execute (sql_upsert_sync (uuid_to_string id) status conflict n)).

Definition upsert_sync_state_pending (id : Uuid) : ior W () DbError.t :=
  upsert_sync_state id SyncStatus.Pending None.

Definition mark_sync_state_synced (id : Uuid) : ior W () DbError.t :=
  upsert_sync_state id SyncStatus.Synced None.

Definition mark_sync_state_conflict (id : Uuid) (conflict_data : bytes) : ior W () DbError.t :=
  upsert_sync_state id SyncStatus.Conflict (Some conflict_data).

Definition status_of (n : Z) : option SyncStatus.t :=
  if (n =? 0)%Z then Some SyncStatus.Pending
  else if (n =? 1)%Z then Some SyncStatus.Synced
  else if (n =? 2)%Z then Some SyncStatus.Conflict
  else None.

(** The row as a [SyncState], of which [load_sync_status_map] keeps the status; rows that
    do not convert are left out. *)
Definition to_sync_status (id : string) (row : SyncStateRow) : option (string * SyncStatus.t) :=
  record_id ← uuid_parse id;
  status ← status_of (sr_sync_status row);
  _ ← ok (transpose timestamp_to_datetime (sr_cloud_updated_at row));
  _ ← ok (timestamp_to_datetime (sr_local_updated_at row));
  Some (uuid_to_string record_id, status).

Definition load_sync_status_map : io W (gmap string SyncStatus.t) :=
  let* rows := sql_some_rows (λ t, map_to_list (t_sync_state t)) in
  io_ret (list_to_map (omap (λ '(id, row), to_sync_status id row) rows)).

(** *** password_history.rs *)

Definition insert_password_history (id : Uuid) (encrypted_password nonce : bytes)
    (dek_version changed_at : Z) : ior W () DbError.t :=
  sqlite (sql_execute (sql_insert_history
    (mkPasswordHistoryRow (uuid_to_string id) encrypted_password nonce dek_version changed_at))).

Definition count_password_history (id : Uuid) : ior W Z DbError.t :=
  sqlite (sql_query (λ t, Z.of_nat (length (sql_history_of (uuid_to_string id) t)))).

Definition delete_oldest_password_history (id : Uuid) : ior W () DbError.t :=
  sqlite (sql_execute (λ t, Ok ((),
    match sql_choose (W := W) (oldest (sql_history_of (uuid_to_string id) t)) with
    | Some entry => t <| t_history ::= delete entry |>
    | None => t
    end))).

Definition parse_record_id (raw : string) : result Uuid SqlError :=
  ok_or (conversion_failure 1 "Text" (uuid_error raw)) (uuid_parse raw).

Definition parse_changed_at (ts : Z) : result Instant SqlError :=
  map_err (λ e, conversion_failure 5 "Integer" (DataError.display e)) (timestamp_to_datetime ts).

Definition to_password_history (row : Z * PasswordHistoryRow) : result PasswordHistory SqlError :=
  let '(id, r) := row in
  let? nonce :=
    if (String.length (pr_nonce r) =? 24)%nat then Ok (pr_nonce r)
    else Err (conversion_failure 24 "Blob" "nonce must be 24 bytes") in
  let? record_id := parse_record_id (pr_record_id r) in
  let? changed_at := parse_changed_at (pr_changed_at r) in
  Ok (mkPasswordHistory id record_id (pr_encrypted_password r) nonce
        (wrap32 (pr_dek_version r)) changed_at).

Fixpoint to_password_histories (rows : list (Z * PasswordHistoryRow))
  : result (list PasswordHistory) SqlError :=
  match rows with
  | [] => Ok []
  | row :: rows =>
      let? entry := to_password_history row in
      let? entries := to_password_histories rows in
      Ok (entry :: entries)
  end.

(** [ORDER BY changed_at DESC LIMIT ?2] *)
Definition get_password_history (id : Uuid) (limit : nat) : ior W (list PasswordHistory) DbError.t :=
  let! rows := sqlite (sql_select (sql_history_of (uuid_to_string id))) in
  sqlite (lift (to_password_histories
    (take limit (merge_sort (by_key later (λ r, pr_changed_at r.2)) rows)))).

Definition get_password_history_by_id (history_id : Z)
  : ior W (option PasswordHistory) DbError.t :=
  let! row := sqlite (sql_query (λ t, t_history t !! history_id)) in
  match row with
  | Some row => sqlite (lift (res_map Some (to_password_history (history_id, row))))
  | None => lift (Ok None)
  end.

Definition delete_password_history_by_record (id : Uuid) : ior W () DbError.t :=
  sqlite (sql_execute (λ t, Ok ((),
    t <| t_history ::= filter (λ r, pr_record_id r.2 ≠ uuid_to_string id) |>))).

End queries.
