(* ===== verification/Vault.v ===== *)
(** * Vault operations (src/services/vault, src/errors/mapping/vault.rs)

    The operations of [VaultServiceImpl] that rotation uses.  The service is its open
    connection, that is the database of the world, and its crypto manager. *)

From S2P Require Import Prelude Errors Env Types Storage Crypto Keystore Database.

(** ** Errors (src/errors/mapping/vault.rs) *)

Module FieldSelector.
Inductive t : Set := Password | Username | Url | Notes | Passphrase.

Definition debug (f : t) : string :=
  match f with
  | Password => "Password"
  | Username => "Username"
  | Url => "Url"
  | Notes => "Notes"
  | Passphrase => "Passphrase"
  end.
End FieldSelector.

(** The [Debug] of a credential type. *)
Definition credential_debug (c : CredentialType.t) : string :=
  match c with
  | CredentialType.Login => "Login"
  | CredentialType.Api => "Api"
  | CredentialType.Ssh => "Ssh"
  | CredentialType.SecureNote => "SecureNote"
  end.

(** [s.to_lowercase().contains(word)] for a lower-case word of ASCII letters. *)
Definition to_lower (c : Ascii.ascii) : Ascii.ascii :=
  let n := Ascii.N_of_ascii c in
  if (65 <=? n)%N && (n <=? 90)%N then Ascii.ascii_of_N (n + 32) else c.

Fixpoint contains_lower (word s : string) : bool :=
  let fix prefix (w s : string) : bool :=
    match w, s with
    | EmptyString, _ => true
    | String c w, String d s => Ascii.eqb c (to_lower d) && prefix w s
    | String _ _, EmptyString => false
    end in
  prefix word s || match s with String _ s => contains_lower word s | EmptyString => false end.

Module VaultError.

Inductive t : Set :=
| RecordNotFound (id : Uuid)
| VersionConflict (expected actual : Z)
| TagAlreadyExists (name : string)
| TagNotFound (name : string)
| NotUnlocked
| DatabaseError (e : SqlError)
| CryptoError (message : string)
| DataError (e : DataError.t)
| InvalidField (record_type : CredentialType.t) (field : FieldSelector.t).

Definition display `{Libs} (e : t) : string :=
  match e with
  | RecordNotFound id => "record not found: " +:+ uuid_to_string id
  | VersionConflict expected actual =>
      "version conflict: expected " +:+ pretty expected +:+ ", actual " +:+ pretty actual
  | TagAlreadyExists name => "tag already exists: " +:+ name
  | TagNotFound name => "tag not found: " +:+ name
  | NotUnlocked => "vault is not unlocked"
  | DatabaseError e => "database error: " +:+ sql_message e
  | CryptoError message => "crypto error: " +:+ message
  | DataError e => "data validation error: " +:+ DataError.display e
  | InvalidField record_type field =>
      "invalid field " +:+ FieldSelector.debug field +:+ " for credential type "
        +:+ credential_debug record_type
  end.

Definition error_code (e : t) : ErrorCode.t :=
  match e with
  | RecordNotFound _ => ErrorCode.VaultRecordNotFound
  | VersionConflict _ _ => ErrorCode.VaultVersionConflict
  | TagAlreadyExists _ => ErrorCode.VaultTagAlreadyExists
  | TagNotFound _ => ErrorCode.VaultTagNotFound
  | NotUnlocked => ErrorCode.VaultNotUnlocked
  | DatabaseError e =>
      let message := sql_message e in
      if sql_invalid_column_type e || contains_lower "corrupt" message
         || contains_lower "corrupted" message || contains_lower "malformed" message
      then ErrorCode.VaultDatabaseCorrupted else ErrorCode.VaultDatabaseIoError
  | CryptoError _ => ErrorCode.CryptoDecryptionFailed
  | DataError (DataError.InvalidCredentialType _) => ErrorCode.DataInvalidCredentialType
  | DataError (DataError.InvalidAuditOperation _) => ErrorCode.DataInvalidAuditOperation
  | DataError (DataError.InvalidUuid _) => ErrorCode.DataInvalidUuid
  | DataError (DataError.MissingField _) => ErrorCode.DataMissingField
  | DataError (DataError.FieldTooLong _ _ _) => ErrorCode.DataFieldTooLong
  | DataError (DataError.EmptyField _) => ErrorCode.DataEmptyField
  | DataError (DataError.InvalidSyncStatus _) | DataError (DataError.InvalidTimestamp _) =>
      ErrorCode.DataInvalidCredentialType
  | InvalidField _ _ => ErrorCode.VaultInvalidField
  end.

Definition error_context (e : t) : ErrorContext :=
  match e with
  | RecordNotFound id => ErrorContext.record_id id ErrorContext.new
  | VersionConflict expected actual =>
      ErrorContext.actual_version actual
        (ErrorContext.expected_version expected ErrorContext.new)
  | TagAlreadyExists name | TagNotFound name => ErrorContext.field_name name ErrorContext.new
  | DataError (DataError.FieldTooLong field _ _)
  | DataError (DataError.MissingField field)
  | DataError (DataError.EmptyField field) => ErrorContext.field_name field ErrorContext.new
  | InvalidField _ field =>
      ErrorContext.field_name (FieldSelector.debug field) ErrorContext.new
  | _ => ErrorContext.new
  end.

Definition to_fallback_message (e : t) : string :=
  match e with
  | RecordNotFound _ => "The requested vault record was not found"
  | VersionConflict expected actual =>
      "Version conflict: expected version " +:+ pretty expected +:+ ", but found version "
        +:+ pretty actual
  | TagAlreadyExists name => "Tag '" +:+ name +:+ "' already exists"
  | TagNotFound name => "Tag '" +:+ name +:+ "' not found"
  | NotUnlocked => "Vault is not unlocked. Please provide the master password"
  | DatabaseError e => "Database error: " +:+ sql_message e
  | CryptoError message => "Cryptographic operation failed: " +:+ message
  | DataError e => "Invalid record data: " +:+ DataError.display e
  | InvalidField record_type field =>
      "Field '" +:+ FieldSelector.debug field +:+ "' is not valid for credential type '"
        +:+ credential_debug record_type +:+ "'"
  end.

End VaultError.

#[export] Instance VaultError_service : ServiceError VaultError.t := {
  to_error_code := VaultError.error_code;
  to_error_context := VaultError.error_context;
  to_fallback_message := VaultError.to_fallback_message;
}.

Definition db_error_to_vault (e : DbError.t) : VaultError.t :=
  match e with
  | DbError.Sqlite e => VaultError.DatabaseError e
  | other => VaultError.CryptoError (DbError.display other)
  end.

(** ** Operations *)

Module VaultService.
Section s.
Context {W : Type} `{Libs} `{UuidErrors} `{CryptoLibs} `{Secure W} `{Sqlite W} `{System W}.

Definition db {A} (m : ior W A DbError.t) : ior W A VaultError.t :=
  io_map_err db_error_to_vault m.

Definition crypto {A} (m : ior W A string) : ior W A VaultError.t :=
  io_map_err VaultError.CryptoError m.

(** services/vault/metadata.rs *)
Definition get_metadata (key : string) : ior W (option string) VaultError.t :=
  db (Database.get_metadata key).

Definition set_metadata (key value : string) : ior W () VaultError.t :=
  db (Database.set_metadata key value).

Definition LAST_HEALTH_CHECK_AT_KEY : string := "last_health_check_at".

Definition set_last_health_check_at (at_ : Instant) : ior W () VaultError.t :=
  set_metadata LAST_HEALTH_CHECK_AT_KEY (rfc3339_print at_).

Definition delete_metadata (key : string) : ior W () VaultError.t :=
  let! _ := db (Database.delete_metadata key) in
  lift (Ok ()).

(** services/vault/audit.rs *)
Definition log_dek_rotated (detail : string) : ior W () VaultError.t :=
  db (insert_audit_entry AuditOperation.DekRotated None None (Some detail)).

(** services/vault/record/crud.rs *)
Definition get_stored_record (id : Uuid) : ior W StoredRecord VaultError.t :=
  let! record := db (get_record id) in
  lift (ok_or (VaultError.RecordNotFound id) record).

(** services/vault/record/migration.rs *)
Definition list_records_for_migration (target_dek_version : Z)
  : ior W (list StoredRecord) VaultError.t :=
  db (list_records_by_dek_version target_dek_version).

Definition re_encrypt_record (m : CryptoManager) (record_id : Uuid) (old_dek_version : Z)
  : ior W () VaultError.t :=
  let! record := get_stored_record record_id in
  let! plaintext := crypto (CryptoManager.decrypt m (st_encrypted_data record)
                      (st_nonce record) (st_aad record) old_dek_version) in
  let! (new_encrypted_data, new_nonce) :=
    crypto (CryptoManager.encrypt m plaintext (st_aad record)) in
  let* now := now in
  let updated_record := mkStoredRecord (st_id record) (st_credential_type record)
    new_encrypted_data new_nonce (cm_current m) (st_aad record) (st_is_favorite record)
    (st_expires_at record) (st_created_at record) now (st_updated_by record)
    (wrap64 (st_version record + 1)) (st_deleted record) (st_deleted_at record)
    (st_tags record) in
  let! updated := db (update_record updated_record (st_version record)) in
  if updated then lift (Ok ())
  else lift (Err (VaultError.VersionConflict (st_version record) (st_version record))).

End s.
End VaultService.

(** ** Properties *)

(** The text of a row, under the key of its version. *)
Definition row_reads `{CryptoLibs} (m : CryptoManager) (row : RecordRow) (plaintext : bytes)
  : Prop :=
  ∃ key, dek_of m (wrap32 (row_dek_version row)) = Some key ∧
    decrypt_with_aad (row_encrypted_data row, row_nonce row) (default "" (row_aad row)) key
      = Ok plaintext.

(** A row as the code writes it: under the text of its UUID, with 64-bit integers. *)
Definition row_wf `{Libs} (id : string) (row : RecordRow) : Prop :=
  row_id row = id ∧ (∃ u, (u < 2 ^ 128)%N ∧ id = uuid_to_string u) ∧
  (- 2 ^ 63 ≤ row_version row < 2 ^ 63)%Z ∧ (0 ≤ row_dek_version row < 2 ^ 32)%Z.

(** What a migration leaves of a row. *)
Definition same_record (row row' : RecordRow) : Prop :=
  row_id row' = row_id row ∧ row_credential_type row' = row_credential_type row ∧
  row_created_at row' = row_created_at row ∧ row_deleted row' = row_deleted row ∧
  row_deleted_at row' = row_deleted_at row ∧ row_updated_by row' = row_updated_by row ∧
  default "" (row_aad row') = default "" (row_aad row) ∧
  row_expires_at row' = row_expires_at row ∧
  nonzero (row_is_favorite row') = nonzero (row_is_favorite row).

Section vault_properties.
Context {W : Type} `{LibLaws} `{UuidErrors} `{CryptoLibLaws} `{SqliteLaws W} `{!SecureLaws W}.
Import VaultService.

#[local] Hint Resolve keeps_get_record keeps_list_records : keeps.
#[local] Hint Extern 0 (keeps tables lock_pages) => exact lock_pages_tables : keeps.
#[local] Hint Extern 0 (keeps tables (os_random _)) => exact (os_random_tables _) : keeps.

Lemma keeps_get_dek m v : keeps tables (CryptoManager.get_dek m v).
Proof. unfold CryptoManager.get_dek, KeyStore.get_dek, locked_key. solve_keeps. Qed.
#[local] Hint Resolve keeps_get_dek : keeps.

Lemma keeps_decrypt m c n aad v : keeps tables (CryptoManager.decrypt m c n aad v).
Proof. unfold CryptoManager.decrypt. solve_keeps. Qed.

Lemma keeps_encrypt m p aad : keeps tables (CryptoManager.encrypt m p aad).
Proof. unfold CryptoManager.encrypt, encrypt_with_aad. solve_keeps. Qed.

Lemma keeps_get_stored id : keeps tables (get_stored_record id).
Proof. unfold get_stored_record, db. solve_keeps. Qed.

Lemma keeps_list_for_migration v : keeps tables (list_records_for_migration v).
Proof. unfold list_records_for_migration, db. solve_keeps. Qed.

#[local] Hint Resolve keeps_get_stored keeps_decrypt keeps_encrypt : keeps.

Lemma keeps_metadata_re_encrypt m id old : keeps metadata (re_encrypt_record m id old).
Proof.
  unfold re_encrypt_record, crypto, db.
  repeat first
    [ apply keeps_metadata_update
    | apply (keeps_table t_metadata); first [exact now_tables|solve [auto with keeps]]
    | progress solve_keeps ].
Qed.

Lemma get_stored_ok id w r w' :
  get_stored_record id w = (Ok r, w') →
  ∃ row tags, t_records (tables w) !! uuid_to_string id = Some row ∧
    RecordRow.to_stored_record row tags = Ok r.
Proof.
  unfold get_stored_record, db. intros Hr. inv_runs.
  match goal with o : option StoredRecord |- _ => destruct o as [x|]; [|done] end.
  cbn in *. simplify_eq. by eapply get_record_ok.
Qed.

Lemma to_stored_ok row tags r :
  RecordRow.to_stored_record row tags = Ok r →
  uuid_parse (row_id row) = Some (st_id r) ∧ st_encrypted_data r = row_encrypted_data row ∧
  st_nonce r = row_nonce row ∧ st_dek_version r = wrap32 (row_dek_version row) ∧
  st_aad r = default "" (row_aad row) ∧ st_is_favorite r = nonzero (row_is_favorite row) ∧
  datetime_to_timestamp <$> st_expires_at r = row_expires_at row ∧
  st_updated_by r = row_updated_by row ∧ st_version r = wrap64 (row_version row).
Proof.
  unfold RecordRow.to_stored_record. intros Hr. inv_ok Hr. simplify_eq. cbn.
  split_and!; try done.
  - match goal with E : ok_or _ ?o = Ok _ |- ?o = _ => destruct o; by simplify_eq/= end.
  - unfold RecordRow.nonce_of in *. case_match; by simplify_eq.
  - match goal with E : transpose _ (row_expires_at _) = Ok _ |- _ =>
      unfold transpose in E; destruct (row_expires_at row); [inv_ok E|]; simplify_eq; [|done] end.
    cbn. f_equal. by apply timestamp_roundtrip.
Qed.

(** The row that the update of a migration writes. *)
Lemma sql_update_stored row tags r c n t v u id tables0 :
  RecordRow.to_stored_record row tags = Ok r → row_wf id row →
  t_records tables0 !! id = Some row →
  let r' := mkStoredRecord (st_id r) (st_credential_type r) c n v (st_aad r)
    (st_is_favorite r) (st_expires_at r) (st_created_at r) t (st_updated_by r)
    u (st_deleted r) (st_deleted_at r) (st_tags r) in
  ∃ row', sql_update_record r' (st_version r) tables0
      = (1%Z, tables0 <| t_records ::= <[id := row']> |>) ∧
    row_encrypted_data row' = c ∧ row_nonce row' = n ∧ row_dek_version row' = v ∧
    row_version row' = as_i64 u ∧ same_record row row'.
Proof.
  intros (Hid & _ & _ & _ & Ha & Hfav & Hexp & Hby & Hv)%to_stored_ok (Hr & (x & Hx & ->) & Hver & _) Hl.
  cbn zeta. rewrite Hr, uuid_roundtrip in Hid by done. injection Hid as ->.
  unfold sql_update_record. cbn [st_id]. rewrite Hl, Hv, as_i64_wrap64 by done.
  rewrite bool_decide_eq_true_2 by done. eexists. split; [done|]. cbn.
  split_and!; try done. unfold same_record. cbn. rewrite Ha, Hfav. split_and!; try done.
  - case_bool_decide as E; [by rewrite E|done].
  - unfold nonzero at 1. by destruct (nonzero _).
Qed.

(** Re-encrypting a record either fails and changes no record, or writes the text it read
    under the current version of the key. *)
Lemma re_encrypt_outcome m id old w r w' :
  re_encrypt_record m id old w = (r, w') → map_Forall row_wf (records w) →
  (records w' = records w ∧ r ≠ Ok ()) ∨
  (r = Ok () ∧ ∃ row row' key p, records w !! uuid_to_string id = Some row ∧
     dek_of m old = Some key ∧
     decrypt_with_aad (row_encrypted_data row, row_nonce row) (default "" (row_aad row)) key
       = Ok p ∧
     records w' = <[uuid_to_string id := row']> (records w) ∧
     row_dek_version row' = cm_current m ∧
     (∃ z, row_version row' = as_i64 (wrap64 z)) ∧ same_record row row' ∧
     (is_u32 (cm_current m) → row_reads m row' p)).
Proof.
  unfold re_encrypt_record, crypto, records. rewrite ior_bind_step. intros Hr Hwf.
  destruct (get_stored_record id w) as [[s|e] w1] eqn:E1;
    pose proof (keeps_get_stored _ _ _ _ E1) as T1;
    [|simplify_eq; left; by rewrite T1].
  apply get_stored_ok in E1 as (row & tags & Hl & Hs). pose proof (Hwf _ _ Hl) as Hrow.
  rewrite ior_bind_step in Hr. unfold io_map_err at 1, io_bind at 1, io_ret at 1 in Hr.
  destruct (CryptoManager.decrypt _ _ _ _ _ w1) as [[p|e] w2] eqn:E2;
    pose proof (keeps_decrypt _ _ _ _ _ _ _ _ E2) as T2; cbn [map_err] in Hr;
    [|simplify_eq; left; by rewrite T2, T1].
  rewrite ior_bind_step in Hr. unfold io_map_err at 1, io_bind at 1, io_ret at 1 in Hr.
  destruct (CryptoManager.encrypt _ _ _ w2) as [[[c n]|e] w3] eqn:E3;
    pose proof (keeps_encrypt _ _ _ _ _ _ E3) as T3; cbn [map_err] in Hr;
    [|simplify_eq; left; by rewrite T3, T2, T1].
  unfold io_bind at 1 in Hr. destruct (now w3) as [t w4] eqn:E4. apply now_tables in E4 as T4.
  rewrite ior_bind_step in Hr. unfold db, io_map_err, lift, io_bind, io_ret in Hr.
  destruct (update_record _ _ w4) as [b w5] eqn:E5. apply update_record_outcome in E5.
  assert (tables w4 = tables w) as T by congruence. rewrite T in E5.
  destruct E5 as [[Hsame Hb]|[-> Hu]].
  { left. destruct b as [[]|]; cbn in Hr; simplify_eq; rewrite Hsame; by split. }
  cbn in Hr. simplify_eq. right. split; [done|].
  destruct (sql_update_stored row tags s c n t (cm_current m) (wrap64 (st_version s + 1))
              _ _ Hs Hrow Hl) as (row' & Hu' & <- & <- & Hd & Hv & Hsr).
  cbn zeta in Hu'. rewrite Hu' in Hu. injection Hu as <-.
  apply decrypt_ok in E2 as (key & Hk & Hdec). apply encrypt_ok in E3 as (key' & Hk' & Hdec' & _).
  apply to_stored_ok in Hs as (_ & He & Hn & _ & Ha & _). rewrite He, Hn, Ha in *.
  exists row, row', key, p. split_and!; try done; [by eexists|].
  intros Hc. exists key'. rewrite Hd, wrap32_small by done. split; [done|].
  destruct Hsr as (_ & _ & _ & _ & _ & _ & -> & _). done.
Qed.

End vault_properties.
