(* ===== verification/Logic.v ===== *)
(** * Reasoning about vault operations

    Triples for the queries and the encryption that the operations call, with the errors
    of the environment as the only ones left: the database fails, or memory cannot be
    locked.  And frames: which tables a query leaves alone. *)

From S2P Require Import Prelude Text Env Types Storage Crypto Keystore Payload.
From S2P Require Import Database Queries Vault.

Definition db_env (e : DbError.t) : Prop := ∃ s, e = DbError.Sqlite s.

Section logic.
Context {W : Type} `{Libs} `{UuidErrors} `{Lowercase} `{ConversionErrors}.
Context `{CryptoLibLaws} `{SqliteLaws W} `{!SecureLaws W} `{!RangeLaws W}.
Import VaultService.

(** The errors of the environment. *)
Definition vault_env (e : VaultError.t) : Prop :=
  (∃ s, e = VaultError.DatabaseError s) ∨
  ∃ m, e = VaultError.CryptoError m ∧ lock_error (W := W) m.

(** A condition on the tables. *)
Definition on (P : Tables → Prop) (w : W) : Prop := P (tables w).

(** ** Statements *)

Lemma triple_query {A} P (f : Tables → A) :
  triple (on P) (sqlite (sql_query f)) (λ a w, P (tables w) ∧ a = f (tables w)) db_env.
Proof.
  apply triple_map_err. intros w [a|e] w' HP Hr; [|by eexists].
  pose proof (query_ok _ _ _ _ Hr) as ->. by rewrite (query_tables _ _ _ _ Hr).
Qed.

Lemma triple_select {A} P (f : Tables → list A) :
  triple (on P) (sqlite (sql_select f)) (λ l w, P (tables w) ∧ l ≡ₚ f (tables w)) db_env.
Proof.
  apply triple_map_err. intros w [a|e] w' HP Hr; [|by eexists].
  rewrite (select_tables _ _ _ _ Hr). split; [done|by eapply select_ok].
Qed.

Lemma triple_execute {A} P (f : Tables → result (A * Tables) SqlError) :
  triple (on P) (sqlite (sql_execute f))
    (λ a w, ∃ t, P t ∧ f t = Ok (a, tables w)) db_env.
Proof.
  apply triple_map_err. intros w [a|e] w' HP Hr; [|by eexists].
  apply execute_ok in Hr. by exists (tables w).
Qed.

(** An [UPDATE] or [DELETE], whatever is made of the rows affected. *)
Lemma triple_change {B} P (f : Tables → Z * Tables) (g : Z → B) :
  triple (on P) (let! n := sqlite (sql_execute (λ t, Ok (f t))) in lift (Ok (g n)))
    (λ _ w, ∃ t, P t ∧ (f t).2 = tables w) db_env.
Proof.
  eapply triple_bind; [apply triple_execute|]. intros n. apply triple_exists. intros t.
  apply triple_pure. intros HP w r w' Hf [= <- <-]. exists t. split; [done|]. by injection Hf as ->.
Qed.

Lemma triple_db {A} P (m : ior W A DbError.t) Q :
  triple P m Q db_env → triple P (db m) Q vault_env.
Proof.
  intros Hm. apply triple_map_err. eapply triple_conseq; eauto. intros e [s ->]. left. by eexists.
Qed.

Lemma triple_now {A} P (k : Instant → ior W A VaultError.t) Q :
  (∀ n, chrono_range n → triple (on P) (k n) Q vault_env) →
  triple (on P) (io_bind now k) Q vault_env.
Proof.
  intros Hk. eapply (triple_io_bind _ _ _ (λ n w, chrono_range n ∧ on P w)).
  - intros w n w' HP Hn. split; [by eapply now_range|]. unfold on. by rewrite (now_tables _ _ _ Hn).
  - intros n. apply triple_pure. intros Hn. by apply Hk.
Qed.

(** A step that keeps the tables and only fails with the environment. *)
Lemma triple_pass {A} P (m : ior W A VaultError.t) :
  keeps tables m → fails m vault_env → triple (on P) m (λ _, on P) vault_env.
Proof. intros Hk Hf. by apply (triple_keeps tables). Qed.

(** ** Reading a record *)

(** The tables are [t]. *)
Abbreviation at_tables t := (on (eq t)) (only parsing).

Lemma triple_record_none t id :
  t_records t !! uuid_to_string id = None →
  triple (at_tables t) (get_record id) (λ o w, o = None ∧ on (eq t) w) db_env.
Proof.
  intros Ht. eapply triple_bind; [apply triple_query|]. intros o w r w' [Hw ->].
  rewrite <- Hw, Ht. by intros [= <- <-].
Qed.

(** [st tags] is the record of the row with the given tags. *)
Lemma triple_record_some t id row st :
  t_records t !! uuid_to_string id = Some row →
  (∀ tags, RecordRow.to_stored_record row tags = Ok (st tags)) →
  triple (at_tables t) (get_record id)
    (λ o w, (∃ tags, tags ≡ₚ sql_record_tags (uuid_to_string id) t ∧ o = Some (st tags)) ∧
       on (eq t) w) db_env.
Proof.
  intros Ht Hst. eapply triple_bind; [apply triple_query|]. intros o w r w' [Hw ->].
  rewrite <- Hw, Ht. revert w r w' Hw.
  change (triple (on (eq t)) (let! tags := get_record_tags_inner id in
    let! record := data (RecordRow.to_stored_record row tags) in lift (Ok (Some record)))
    (λ o w, (∃ tags, tags ≡ₚ sql_record_tags (uuid_to_string id) t ∧ o = Some (st tags)) ∧
       on (eq t) w) db_env).
  eapply triple_bind; [apply triple_select|]. intros tags w r w' [Hw Hp]. rewrite Hst.
  rewrite <- Hw in Hp. intros [= <- <-]. eauto.
Qed.

Lemma triple_get_stored t id row st :
  t_records t !! uuid_to_string id = Some row →
  (∀ tags, RecordRow.to_stored_record row tags = Ok (st tags)) →
  triple (at_tables t) (get_stored_record id)
    (λ s w, (∃ tags, tags ≡ₚ sql_record_tags (uuid_to_string id) t ∧ s = st tags) ∧
       on (eq t) w) vault_env.
Proof.
  intros Ht Hst. eapply triple_bind; [apply triple_db; by apply (triple_record_some t id row st)|].
  intros o. apply triple_pure. intros (tags & Hp & ->). apply triple_ok. eauto.
Qed.

(** ** Encryption *)

(** A result that is certain unless locking memory fails. *)
Lemma triple_yields {A} P (m : ior W A string) (a : A) :
  keeps tables m → (∀ w r w', m w = (r, w') → yields (W := W) r a) →
  triple (on P) (crypto m) (λ x w, x = a ∧ on P w) vault_env.
Proof.
  intros Hk Hy. apply triple_map_err. intros w r w' HP Hr.
  destruct (Hy _ _ _ Hr) as [->|(e & -> & He)].
  - split; [done|]. unfold on. by rewrite (Hk _ _ _ Hr).
  - right. by eexists.
Qed.

End logic.

(** ** Code that leaves the tables alone *)

#[export] Hint Extern 0 (keeps tables (sql_query _)) => exact (query_tables _) : keeps.
#[export] Hint Extern 0 (keeps tables (sql_select _)) => exact (select_tables _) : keeps.
#[export] Hint Extern 0 (keeps tables (sql_some_rows _)) => exact (some_rows_tables _) : keeps.
#[export] Hint Extern 0 (keeps tables now) => exact now_tables : keeps.
#[export] Hint Extern 0 (keeps tables new_v4) => exact new_v4_tables : keeps.
#[export] Hint Extern 0 (keeps tables lock_pages) => exact lock_pages_tables : keeps.
#[export] Hint Extern 0 (keeps tables (os_random _)) => exact (os_random_tables _) : keeps.
#[export] Hint Resolve keeps_get_record keeps_list_records keeps_get_stored keeps_decrypt
  keeps_encrypt keeps_stored_records : keeps.

Section reads.
Context {W : Type} `{Libs} `{UuidErrors} `{CryptoLibs} `{SqliteLaws W}.
Context `{Serde Json} `{Serde PayloadPlaintextDto.t}.

Lemma keeps_payload m p aad : keeps tables (encrypt_payload m p aad).
Proof. unfold encrypt_payload. solve_keeps. Qed.
Lemma keeps_decrypt_payload m c n aad k v : keeps tables (decrypt_payload m c n aad k v).
Proof. unfold decrypt_payload. solve_keeps. Qed.
Lemma keeps_name_only m c n aad v : keeps tables (decrypt_name_only m c n aad v).
Proof. unfold decrypt_name_only, decrypt_fields. solve_keeps. Qed.
Lemma keeps_subtitle m c n aad k v : keeps tables (decrypt_subtitle m c n aad k v).
Proof. unfold decrypt_subtitle, decrypt_fields. solve_keeps. Qed.

End reads.

#[export] Hint Resolve keeps_payload keeps_decrypt_payload keeps_name_only keeps_subtitle : keeps.

(** ** Frames *)

(** The records with their tags. *)
Definition tagged_records (t : Tables) : gmap string RecordRow * gmap Z string * gset (string * Z) :=
  (t_records t, t_tags t, t_record_tags t).

Section frames.
Context {W : Type} `{Libs} `{UuidErrors} `{Lowercase} `{ConversionErrors} `{SqliteLaws W}.

Definition tagged (w : W) := tagged_records (tables w).

Lemma keeps_tagged {A} (m : io W A) : keeps tables m → keeps tagged m.
Proof. apply keeps_table. Qed.

Lemma tagged_keeps_records {A} (m : io W A) : keeps tagged m → keeps records m.
Proof.
  intros Hm w r w' Hr. specialize (Hm _ _ _ Hr). unfold tagged, tagged_records in Hm.
  unfold records. congruence.
Qed.

Lemma keeps_now : keeps tables now.
Proof. exact now_tables. Qed.
Lemma keeps_timestamp_now : keeps tables timestamp_now.
Proof. unfold timestamp_now. apply keeps_bind; [exact now_tables|intros; apply keeps_ret]. Qed.

#[local] Hint Extern 0 (keeps tagged timestamp_now) => exact (keeps_tagged _ keeps_timestamp_now) : keeps.
#[local] Hint Extern 0 (keeps tagged now) => exact (keeps_tagged _ keeps_now) : keeps.

(** A statement of the given function leaves the records and tags alone. *)
Ltac solve_frame :=
  unfold execute_, execute, sqlite, referencing;
  repeat first
    [ progress solve_keeps
    | apply (keeps_execute tagged_records); intros ? ? ? Hf;
      repeat case_match; simplify_eq; done ].

Lemma keeps_set_metadata' key value : keeps tagged (set_metadata key value).
Proof. unfold set_metadata. solve_frame. Qed.

Lemma keeps_audit_entry o id name detail : keeps tagged (insert_audit_entry o id name detail).
Proof. unfold insert_audit_entry. solve_frame. Qed.

Lemma keeps_upsert_index id name subtitle : keeps tagged (upsert_record_list_index id name subtitle).
Proof. unfold upsert_record_list_index. solve_frame. Qed.

Lemma keeps_clear_index : keeps tagged clear_record_list_index.
Proof. unfold clear_record_list_index. solve_frame. Qed.

Lemma keeps_upsert_health s : keeps tagged (upsert_record_health_state s).
Proof. unfold upsert_record_health_state, sql_upsert_health. solve_frame. Qed.

Lemma keeps_delete_health id : keeps tagged (delete_record_health_state id).
Proof. unfold delete_record_health_state. solve_frame. Qed.

Lemma keeps_delete_healths ids : keeps tagged (delete_record_health_states ids).
Proof. unfold delete_record_health_states. solve_frame. Qed.

Lemma keeps_copy_health id v : keeps tagged (copy_record_health_state_version id v).
Proof. unfold copy_record_health_state_version. solve_frame. Qed.

Lemma keeps_upsert_sync id status conflict : keeps tagged (upsert_sync_state id status conflict).
Proof. unfold upsert_sync_state, sql_upsert_sync. solve_frame. Qed.

Lemma keeps_insert_history id d n v c : keeps tagged (insert_password_history id d n v c).
Proof. unfold insert_password_history, sql_insert_history. solve_frame. Qed.

Lemma keeps_delete_oldest id : keeps tagged (delete_oldest_password_history id).
Proof. unfold delete_oldest_password_history. solve_frame. Qed.

End frames.

#[export] Hint Resolve keeps_set_metadata' keeps_audit_entry keeps_upsert_index keeps_clear_index
  keeps_upsert_health keeps_delete_health keeps_delete_healths keeps_copy_health
  keeps_upsert_sync keeps_insert_history keeps_delete_oldest : keeps.
