(* ===== verification/Records.v ===== *)
(** * The records of a vault (src/services/vault/record, history.rs, trash.rs,
    health_state.rs, src/types/record.rs)

    Creating, reading, updating, trashing, restoring and deleting records.  The
    operations are sequences of statements, not transactions: each can stop anywhere. *)

From stdpp Require Import sorting.
From S2P Require Import Prelude Text Errors Env Types Storage Crypto Keystore Payload.
From S2P Require Import Database Queries Vault.

(** The state of [VaultServiceImpl] besides its connection. *)
Record VaultServiceImpl : Set := mkVaultServiceImpl {
  vs_crypto : CryptoManager;
  vs_device_id : string;
}.

Record CreateRecordParams : Set := mkCreateRecordParams {
  cp_credential_type : CredentialType.t;
  cp_payload : EncryptedPayload.t;
  cp_tags : list string;
  cp_is_favorite : bool;
  cp_expires_at : option Instant;
}.

Record UpdateRecordParams : Set := mkUpdateRecordParams {
  up_id : Uuid;
  up_payload : EncryptedPayload.t;
  up_tags : list string;
  up_is_favorite : bool;
  up_expires_at : option Instant;
  up_expected_version : Z;
}.

(** [DecryptedRecord]: the columns that its variants share and the payload, whose variant
    is the credential type. *)
Record DecryptedRecord : Set := mkDecryptedRecord {
  dr_id : Uuid;
  dr_is_favorite : bool;
  dr_expires_at : option Instant;
  dr_created_at : Instant;
  dr_updated_at : Instant;
  dr_version : Z;
  dr_deleted : bool;
  dr_deleted_at : option Instant;
  dr_tags : list string;
  dr_payload : EncryptedPayload.t;
}.

Record TuiRecord : Set := mkTuiRecord {
  tr_id : Uuid;
  tr_credential_type : CredentialType.t;
  tr_name : string;
  tr_subtitle : string;
  tr_is_favorite : bool;
  tr_is_expired : bool;
  tr_expires_at : option Instant;
  tr_has_weak_password : bool;
  tr_is_compromised : bool;
  tr_duplicate_group_size : option Z;
  tr_created_at : Instant;
  tr_updated_at : Instant;
  tr_deleted : bool;
  tr_deleted_at : option Instant;
  tr_tags : list string;
  tr_sync_status : option SyncStatus.t;
}.

(** ** Helpers (src/services/vault/record/helpers.rs, list.rs) *)

Definition extract_field (ct : CredentialType.t) (payload : EncryptedPayload.t)
    (field : FieldSelector.t) : result string VaultError.t :=
  let missing := Err (VaultError.InvalidField ct field) in
  let found o := match o with Some v => Ok v | None => missing end in
  match ct, payload, field with
  | CredentialType.Login, EncryptedPayload.Login _ _ password _ _, FieldSelector.Password =>
      Ok password
  | CredentialType.Login, EncryptedPayload.Login _ username _ _ _, FieldSelector.Username =>
      Ok username
  | CredentialType.Login, EncryptedPayload.Login _ _ _ url _, FieldSelector.Url => found url
  | CredentialType.Login, EncryptedPayload.Login _ _ _ _ notes, FieldSelector.Notes =>
      found notes
  | CredentialType.Api, EncryptedPayload.Api _ _ secret_key _ _, FieldSelector.Password =>
      Ok secret_key
  | CredentialType.Api, EncryptedPayload.Api _ app_id _ _ _, FieldSelector.Username =>
      Ok app_id
  | CredentialType.Api, EncryptedPayload.Api _ _ _ url _, FieldSelector.Url => found url
  | CredentialType.Api, EncryptedPayload.Api _ _ _ _ notes, FieldSelector.Notes => found notes
  | CredentialType.Ssh, EncryptedPayload.Ssh _ _ private_key _ _, FieldSelector.Password =>
      found private_key
  | CredentialType.Ssh, EncryptedPayload.Ssh _ public_key _ _ _, FieldSelector.Username =>
      Ok public_key
  | CredentialType.Ssh, EncryptedPayload.Ssh _ _ _ _ notes, FieldSelector.Notes => found notes
  | CredentialType.Ssh, EncryptedPayload.Ssh _ _ _ passphrase _, FieldSelector.Passphrase =>
      found passphrase
  | _, _, _ => missing
  end.

Definition password_changed (old new : EncryptedPayload.t) : bool :=
  match old, new with
  | EncryptedPayload.Login _ _ old_pw _ _, EncryptedPayload.Login _ _ new_pw _ _ =>
      negb (bool_decide (old_pw = new_pw))
  | _, _ => false
  end.

Definition expires_at_changed (old new : option Instant) : bool := negb (bool_decide (old = new)).

(** The name and the line under it, for the list index. *)
Definition record_index_fields_from_payload (p : EncryptedPayload.t) : string * string :=
  match p with
  | EncryptedPayload.Login name username _ _ _ => (name, username)
  | EncryptedPayload.Api name app_id _ _ _ => (name, app_id)
  | EncryptedPayload.Ssh name public_key _ _ _ => (name, shorten CredentialType.Ssh public_key)
  | EncryptedPayload.SecureNote name _ => (name, "")
  end.

Definition RECORD_LIST_INDEX_VERSION_KEY : string := "record_list_index_version".
Definition RECORD_LIST_INDEX_DIRTY_KEY : string := "record_list_index_dirty".
Definition RECORD_LIST_INDEX_VERSION : string := "1".

(** [format!("record:{}", id).into_bytes()] *)
Definition record_aad `{Libs} (id : Uuid) : bytes := "record:" +:+ uuid_to_string id.

Module Records.
Section s.
Context {W : Type} `{Libs} `{UuidErrors} `{Lowercase} `{ConversionErrors} `{CryptoLibs}.
Context `{Secure W} `{Sqlite W} `{System W}.
Context `{Serde Json} `{Serde PayloadPlaintextDto.t}.
Import VaultService.

(** [if !self.crypto.is_unlocked() { return Err(VaultError::NotUnlocked) }] *)
Definition check_unlocked (v : VaultServiceImpl) : ior W () VaultError.t :=
  if CryptoManager.is_unlocked (vs_crypto v) then lift (Ok ())
  else lift (Err VaultError.NotUnlocked).

(** [validate_payload(..)?; validate_tags(..)?] *)
Definition check_limits (p : EncryptedPayload.t) (tags : list string)
  : ior W () VaultError.t :=
  lift (map_err VaultError.DataError
    (let? _ := validate_payload p in
     validate_tags tags)).

(** ** The list index (list.rs) *)

Definition mark_record_list_index_dirty : ior W () VaultError.t :=
  db (Database.set_metadata RECORD_LIST_INDEX_DIRTY_KEY "1").

Definition mark_record_list_index_clean : ior W () VaultError.t :=
  db (Database.set_metadata RECORD_LIST_INDEX_DIRTY_KEY "0").

Definition upsert_record_list_index_for_payload (id : Uuid) (p : EncryptedPayload.t)
  : ior W () VaultError.t :=
  let '(name, subtitle) := record_index_fields_from_payload p in
  db (upsert_record_list_index id name subtitle).

Definition upsert_record_list_index_for_stored (v : VaultServiceImpl) (r : StoredRecord)
  : ior W () VaultError.t :=
  let! name := crypto (decrypt_name_only (vs_crypto v) (st_encrypted_data r) (st_nonce r)
                 (st_aad r) (st_dek_version r)) in
  let! subtitle := crypto (decrypt_subtitle (vs_crypto v) (st_encrypted_data r) (st_nonce r)
                     (st_aad r) (st_credential_type r) (st_dek_version r)) in
  db (upsert_record_list_index (st_id r) name subtitle).

Fixpoint reindex (v : VaultServiceImpl) (records : list StoredRecord) : ior W () VaultError.t :=
  match records with
  | [] => lift (Ok ())
  | r :: records =>
      let! _ := upsert_record_list_index_for_stored v r in
      reindex v records
  end.

Definition ensure_record_list_index (v : VaultServiceImpl) : ior W () VaultError.t :=
  let! _ := check_unlocked v in
  let! version := db (Database.get_metadata RECORD_LIST_INDEX_VERSION_KEY) in
  let! dirty := db (Database.get_metadata RECORD_LIST_INDEX_DIRTY_KEY) in
  let! index_rows := db count_record_list_index in
  let! record_rows := db count_all_records in
  if bool_decide (version = Some RECORD_LIST_INDEX_VERSION)
     && negb (bool_decide (dirty = Some "1")) && (index_rows =? record_rows)%Z
  then lift (Ok ())
  else
    let! _ := db clear_record_list_index in
    let! records := db list_all_records in
    let! _ := reindex v records in
    let! _ := db (Database.set_metadata RECORD_LIST_INDEX_VERSION_KEY RECORD_LIST_INDEX_VERSION) in
    mark_record_list_index_clean.

(** ** Health and sync states (health_state.rs) *)

Definition delete_record_health_state (id : Uuid) : ior W () VaultError.t :=
  let! _ := db (Queries.delete_record_health_state id) in
  lift (Ok ()).

Definition copy_health_state_to_version (id : Uuid) (version : Z) : ior W () VaultError.t :=
  let! _ := db (copy_record_health_state_version id version) in
  lift (Ok ()).

Fixpoint mark_records_pending_sync (ids : list Uuid) : ior W () VaultError.t :=
  match ids with
  | [] => lift (Ok ())
  | id :: ids =>
      let! _ := db (upsert_sync_state_pending id) in
      mark_records_pending_sync ids
  end.

(** ** Password history (history.rs) *)

Definition get_password_history (v : VaultServiceImpl) (id : Uuid)
  : ior W (list PasswordHistory) VaultError.t :=
  let! _ := check_unlocked v in
  db (Queries.get_password_history id 10).

(** The field [password] of the object inside the plaintext. *)
Definition history_password (plaintext : bytes) : result string VaultError.t :=
  let? json := map_err (λ e, VaultError.CryptoError ("invalid utf8: " +:+ e))
                 (from_utf8 plaintext) in
  let? value := map_err (λ e, VaultError.CryptoError ("failed to parse payload JSON: " +:+ e))
                  (from_json json) in
  let? inner := map_err VaultError.CryptoError (unwrap_enum_variant value) in
  ok_or (VaultError.CryptoError "password field missing in decrypted payload")
    (as_str (json_get inner "password")).

Definition decrypt_history_password (v : VaultServiceImpl) (history_id : Z)
  : ior W string VaultError.t :=
  let! _ := check_unlocked v in
  let! entry := db (get_password_history_by_id history_id) in
  let! entry := lift (ok_or (VaultError.RecordNotFound 0%N) entry) in
  let! plaintext := crypto (CryptoManager.decrypt (vs_crypto v) (ph_encrypted_password entry)
                      (ph_nonce entry) (record_aad (ph_record_id entry)) (ph_dek_version entry)) in
  lift (history_password plaintext).

Definition save_password_history (id : Uuid) (data nonce : bytes) (dek_version : Z)
  : ior W () VaultError.t :=
  let! count := db (count_password_history id) in
  let! _ := if (10 <=? count)%Z then db (delete_oldest_password_history id) else lift (Ok ()) in
  let* now_ts := timestamp_now in
  db (insert_password_history id data nonce dek_version now_ts).

Definition save_conflict_history (v : VaultServiceImpl) (id : Uuid) : io W () :=
  if negb (CryptoManager.is_unlocked (vs_crypto v)) then io_ret ()
  else
    let* r := get_stored_record id in
    match r with
    | Ok stored =>
        if bool_decide (st_credential_type stored = CredentialType.Login) then
          let* _ := save_password_history id (st_encrypted_data stored) (st_nonce stored)
                      (st_dek_version stored) in
          io_ret ()
        else io_ret ()
    | Err _ => io_ret ()
    end.

(** ** Records (crud.rs) *)

Definition audit (operation : AuditOperation.t) (id : Uuid) (name : string)
  : ior W () VaultError.t :=
  db (insert_audit_entry operation (Some id) (Some name) None).

Definition create_record (v : VaultServiceImpl) (params : CreateRecordParams)
  : ior W Uuid VaultError.t :=
  let! _ := check_unlocked v in
  let! _ := check_limits (cp_payload params) (cp_tags params) in
  let* id := new_v4 in
  let aad := record_aad id in
  let! (encrypted_data, nonce) :=
    crypto (encrypt_payload (vs_crypto v) (cp_payload params) aad) in
  let* n := now in
  let record := mkStoredRecord id (cp_credential_type params) encrypted_data nonce
    (cm_current (vs_crypto v)) aad (cp_is_favorite params) (cp_expires_at params) n n
    (vs_device_id v) 1 false None (cp_tags params) in
  let! _ := mark_record_list_index_dirty in
  let! _ := db (insert_record record) in
  let! _ := upsert_record_list_index_for_payload id (cp_payload params) in
  let! _ := mark_record_list_index_clean in
  let! _ := audit AuditOperation.RecordCreate id (EncryptedPayload.name (cp_payload params)) in
  lift (Ok id).

Definition decrypt_stored (v : VaultServiceImpl) (r : StoredRecord)
  : ior W EncryptedPayload.t VaultError.t :=
  crypto (decrypt_payload (vs_crypto v) (st_encrypted_data r) (st_nonce r) (st_aad r)
            (st_credential_type r) (st_dek_version r)).

Definition get_decrypted_record (v : VaultServiceImpl) (id : Uuid)
  : ior W DecryptedRecord VaultError.t :=
  let! _ := check_unlocked v in
  let! stored := get_stored_record id in
  let! payload := decrypt_stored v stored in
  if bool_decide (EncryptedPayload.credential_type payload = st_credential_type stored) then
    let decrypted := mkDecryptedRecord (st_id stored) (st_is_favorite stored)
      (st_expires_at stored) (st_created_at stored) (st_updated_at stored)
      (st_version stored) (st_deleted stored) (st_deleted_at stored) (st_tags stored) payload in
    let! _ := audit AuditOperation.RecordViewPassword (st_id stored)
                (EncryptedPayload.name payload) in
    lift (Ok decrypted)
  else lift (Err (VaultError.CryptoError "credential type / payload mismatch")).

(** Step 8 of [update_record]: the tags, one by one. *)
Fixpoint attach_tags (id : Uuid) (tags : list string) : ior W () VaultError.t :=
  match tags with
  | [] => lift (Ok ())
  | name :: tags =>
      let! tag := db (get_or_create_tag name) in
      let! _ := db (attach_tag id tag) in
      attach_tags id tags
  end.

(** The record that [update_record] writes, apart from its encrypted payload and time. *)
Definition updated_record (v : VaultServiceImpl) (stored : StoredRecord)
    (params : UpdateRecordParams) (encrypted_data nonce : bytes) (n : Instant) : StoredRecord :=
  mkStoredRecord (up_id params) (st_credential_type stored) encrypted_data nonce
    (cm_current (vs_crypto v)) (record_aad (up_id params)) (up_is_favorite params)
    (up_expires_at params) (st_created_at stored) n (vs_device_id v)
    (wrap64 (st_version stored + 1)) (st_deleted stored) (st_deleted_at stored) (up_tags params).

Definition update_record (v : VaultServiceImpl) (params : UpdateRecordParams)
  : ior W () VaultError.t :=
  let! _ := check_unlocked v in
  let! stored := get_stored_record (up_id params) in
  if negb (st_version stored =? up_expected_version params)%Z
  then lift (Err (VaultError.VersionConflict (up_expected_version params) (st_version stored)))
  else
    let! _ := check_limits (up_payload params) (up_tags params) in
    let! old_payload := decrypt_stored v stored in
    let pw_changed := password_changed old_payload (up_payload params) in
    let exp_changed := expires_at_changed (st_expires_at stored) (up_expires_at params) in
    let! _ :=
      if bool_decide (st_credential_type stored = CredentialType.Login) && pw_changed
      then save_password_history (up_id params) (st_encrypted_data stored) (st_nonce stored)
             (st_dek_version stored)
      else lift (Ok ()) in
    let! (encrypted_data, nonce) :=
      crypto (encrypt_payload (vs_crypto v) (up_payload params) (record_aad (up_id params))) in
    let* n := now in
    let record := updated_record v stored params encrypted_data nonce n in
    let! _ := mark_record_list_index_dirty in
    let! updated := db (Database.update_record record (up_expected_version params)) in
    if negb updated
    then lift (Err (VaultError.VersionConflict (up_expected_version params) (st_version stored)))
    else
      let! _ := db (detach_all_tags_for_record (up_id params)) in
      let! _ := attach_tags (up_id params) (up_tags params) in
      let! _ := upsert_record_list_index_for_payload (up_id params) (up_payload params) in
      let! _ := mark_record_list_index_clean in
      let! _ :=
        if pw_changed || exp_changed then delete_record_health_state (up_id params)
        else copy_health_state_to_version (up_id params) (st_version record) in
      let! _ := audit AuditOperation.RecordUpdate (up_id params)
                  (EncryptedPayload.name (up_payload params)) in
      mark_records_pending_sync [up_id params].

Definition decrypt_record_name (v : VaultServiceImpl) (stored : StoredRecord)
  : ior W string VaultError.t :=
  let! payload := decrypt_stored v stored in
  lift (Ok (EncryptedPayload.name payload)).

Definition soft_delete_record (v : VaultServiceImpl) (id : Uuid) : ior W () VaultError.t :=
  let! _ := check_unlocked v in
  let! stored := get_stored_record id in
  let! record_name := decrypt_record_name v stored in
  let! _ := db (Queries.soft_delete_record id) in
  let! _ := delete_record_health_state id in
  let! _ := audit AuditOperation.RecordDelete id record_name in
  mark_records_pending_sync [id].

Definition restore_record (v : VaultServiceImpl) (id : Uuid) : ior W () VaultError.t :=
  let! _ := check_unlocked v in
  let! stored := get_stored_record id in
  let! record_name := decrypt_record_name v stored in
  let! _ := db (Queries.restore_record id) in
  let! _ := audit AuditOperation.RecordRestore id record_name in
  mark_records_pending_sync [id].

Definition hard_delete_record (v : VaultServiceImpl) (id : Uuid) : ior W () VaultError.t :=
  let! _ := check_unlocked v in
  let! stored := get_stored_record id in
  let! record_name := decrypt_record_name v stored in
  let! _ := db (Queries.hard_delete_record id) in
  let! _ := delete_record_health_state id in
  audit AuditOperation.RecordDestroy id record_name.

Definition toggle_favorite (v : VaultServiceImpl) (id : Uuid) (is_favorite : bool)
  : ior W () VaultError.t :=
  let! _ := check_unlocked v in
  let! _ := get_stored_record id in
  let! _ := db (update_favorite id is_favorite) in
  mark_records_pending_sync [id].

(** ** Single fields (field.rs) *)

Definition decrypt_field_with_audit (v : VaultServiceImpl) (id : Uuid)
    (field : FieldSelector.t) (audit_operation : option AuditOperation.t)
  : ior W string VaultError.t :=
  let! _ := check_unlocked v in
  let! stored := get_stored_record id in
  let! payload := decrypt_stored v stored in
  let! value := lift (extract_field (st_credential_type stored) payload field) in
  let! _ :=
    match audit_operation with
    | Some operation => audit operation id (EncryptedPayload.name payload)
    | None => lift (Ok ())
    end in
  lift (Ok value).

Definition is_secret (field : FieldSelector.t) : bool :=
  match field with
  | FieldSelector.Password | FieldSelector.Passphrase => true
  | _ => false
  end.

Definition decrypt_field (v : VaultServiceImpl) (id : Uuid) (field : FieldSelector.t) :=
  decrypt_field_with_audit v id field
    (if is_secret field then Some AuditOperation.RecordViewPassword else None).

Definition decrypt_field_for_copy (v : VaultServiceImpl) (id : Uuid) (field : FieldSelector.t) :=
  decrypt_field_with_audit v id field
    (Some (if is_secret field then AuditOperation.RecordCopyPassword
           else AuditOperation.RecordCopyField)).

Definition decrypt_field_no_audit (v : VaultServiceImpl) (id : Uuid) (field : FieldSelector.t) :=
  decrypt_field_with_audit v id field None.

End s.
End Records.
