(* ===== verification/Tags.v ===== *)
(** * Tags and trash (src/services/vault/tag/state.rs, src/services/vault/trash.rs)

    Listing, renaming and deleting tags, and adding one to or removing one from many records.
    The last two are transactions: one statement of [Sqlite] each. *)

From stdpp Require Import sorting.
From S2P Require Import Prelude Text Errors Env Types Storage Crypto Keystore Payload Database.
From S2P Require Import Queries Vault Records.

(** [SELECT rt.record_id FROM record_tags rt INNER JOIN tags t .. WHERE t.name = ?1] *)
Definition sql_records_tagged (name : string) (t : Tables) : list string :=
  omap (λ '(id, tag), if bool_decide (t_tags t !! tag = Some name) then Some id else None)
    (elements (t_record_tags t)).

(** [SELECT COUNT( * ) FROM record_tags WHERE record_id = ?1] *)
Definition sql_count_record_tags (id : string) (t : Tables) : nat :=
  size (filter (λ r, r.1 = id) (t_record_tags t)).

(** [get_or_create_tag] inside a transaction. *)
Definition sql_get_or_create_tag (name : string) (t : Tables) : result (Z * Tables) SqlError :=
  match sql_tag_named name t with
  | Some tag => Ok (tag, t)
  | None => sql_insert_tag name t
  end.

(** The loop of [batch_add_tag], with the associations that it made. *)
Fixpoint sql_add_tag `{Libs} (tag : Z) (ids : list Uuid) (added : Z) (t : Tables)
  : result (Z * Tables) SqlError :=
  match ids with
  | [] => Ok (added, t)
  | id :: ids =>
      let id := uuid_to_string id in
      let rows_before := sql_count_record_tags id t in
      let? (_, t) := sql_link id tag t in
      let rows_after := sql_count_record_tags id t in
      sql_add_tag tag ids (if (rows_before <? rows_after)%nat then added + 1 else added)%Z t
  end.

(** The loop of [batch_remove_tag]. *)
Fixpoint sql_drop_tag `{Libs} (tag : Z) (ids : list Uuid) (removed : Z) (t : Tables)
  : Z * Tables :=
  match ids with
  | [] => (removed, t)
  | id :: ids =>
      let id := uuid_to_string id in
      let rows_before := sql_count_record_tags id t in
      let t := t <| t_record_tags ::= λ s, s ∖ {[(id, tag)]} |> in
      let rows_after := sql_count_record_tags id t in
      sql_drop_tag tag ids (if (rows_after <? rows_before)%nat then removed + 1 else removed)%Z t
  end.

(** The transactions of [batch_add_tag] and [batch_remove_tag]; the latter ends without a
    commit when the tag does not exist. *)
Definition sql_batch_add_tag `{Libs} (ids : list Uuid) (name : string) (t : Tables)
  : result (Z * Tables) SqlError :=
  let? (tag, t) := sql_get_or_create_tag name t in
  sql_add_tag tag ids 0 t.

Definition sql_batch_remove_tag `{Libs} (ids : list Uuid) (name : string) (t : Tables)
  : result (option Z * Tables) SqlError :=
  match sql_tag_named name t with
  | None => Ok (None, t)
  | Some tag =>
      let '(removed, t) := sql_drop_tag tag ids 0 t in
      let remaining := filter (λ r, r.2 = tag) (t_record_tags t) in
      Ok (Some removed, if (size remaining =? 0)%nat then sql_remove_tag tag t else t)
  end.

(** src/types/tag.rs *)
Record Tag : Set := mkTag {
  tag_id : Z;
  tag_name : string;
}.

Record TagSortMeta : Set := mkTagSortMeta {
  tm_record_count : nat;
  tm_last_used_at : Z;
}.

(** The records of a tag that are not deleted, by the joins of the two listings. *)
Definition sql_active_tagged (tag : Z) (t : Tables) : list RecordRow :=
  omap (λ '(id, tag'),
    if bool_decide (tag' = tag)
    then t_records t !! id ≫= λ row, if (row_deleted row =? 0)%Z then Some row else None
    else None) (elements (t_record_tags t)).

(** [COALESCE(MAX(r.updated_at), 0)] *)
Definition sql_last_used (rows : list RecordRow) : Z :=
  match rows with
  | [] => 0%Z
  | row :: rows => foldr (λ r m, Z.max (row_updated_at r) m) (row_updated_at row) rows
  end.

Definition sql_tag_stats (t : Tables) : list (Tag * TagSortMeta) :=
  (λ '(id, name),
     let rows := sql_active_tagged id t in
     (mkTag id name, mkTagSortMeta (length rows) (sql_last_used rows))) <$> map_to_list (t_tags t).

Module Tags.
Section s.
Context {W : Type} `{Libs} `{UuidErrors} `{Sqlite W} `{System W}.
Import VaultService.

Fixpoint parse_record_ids (raw : list string) : result (list Uuid) VaultError.t :=
  match raw with
  | [] => Ok []
  | s :: raw =>
      let? id := ok_or (VaultError.CryptoError ("invalid record id in tag map: " +:+ uuid_error s))
                   (uuid_parse s) in
      let? ids := parse_record_ids raw in
      Ok (id :: ids)
  end.

Definition record_ids_for_tag (tag_name : string) : ior W (list Uuid) VaultError.t :=
  let! raw := io_map_err VaultError.DatabaseError (sql_select (sql_records_tagged tag_name)) in
  lift (parse_record_ids raw).

(** [ORDER BY t.name] *)
Definition list_tags_with_stats : ior W (list (Tag * TagSortMeta)) VaultError.t :=
  let! rows := io_map_err VaultError.DatabaseError (sql_select sql_tag_stats) in
  lift (Ok (merge_sort (by_key text_le (λ r, tag_name r.1)) rows)).

Definition list_tags : ior W (list (Tag * nat)) VaultError.t :=
  let! rows := io_map_err VaultError.DatabaseError (sql_select (λ t,
    prod_map id tm_record_count <$> sql_tag_stats t)) in
  lift (Ok (merge_sort (by_key text_le (λ r, tag_name r.1)) rows)).

Definition rename_tag (old_name new_name : string) : ior W () VaultError.t :=
  let! affected_record_ids := record_ids_for_tag old_name in
  let! existing := db (get_tag_by_name new_name) in
  if bool_decide (is_Some existing) then lift (Err (VaultError.TagAlreadyExists new_name))
  else
    let! updated := db (Queries.rename_tag old_name new_name) in
    if negb updated then lift (Err (VaultError.TagNotFound old_name))
    else Records.mark_records_pending_sync affected_record_ids.

Definition delete_tag (name : string) : ior W () VaultError.t :=
  let! affected_record_ids := record_ids_for_tag name in
  let! deleted := db (delete_tag_by_name name) in
  if negb deleted then lift (Err (VaultError.TagNotFound name))
  else Records.mark_records_pending_sync affected_record_ids.

Definition batch_add_tag (record_ids : list Uuid) (tag_name : string) : ior W Z VaultError.t :=
  let! added := io_map_err VaultError.DatabaseError
                  (sql_execute (sql_batch_add_tag record_ids tag_name)) in
  let! _ := if (0 <? added)%Z then Records.mark_records_pending_sync record_ids
            else lift (Ok ()) in
  lift (Ok added).

Definition batch_remove_tag (record_ids : list Uuid) (tag_name : string)
  : ior W Z VaultError.t :=
  let! removed := io_map_err VaultError.DatabaseError
                    (sql_execute (sql_batch_remove_tag record_ids tag_name)) in
  match removed with
  | None => lift (Err (VaultError.TagNotFound tag_name))
  | Some removed =>
      let! _ := if (0 <? removed)%Z then Records.mark_records_pending_sync record_ids
                else lift (Ok ()) in
      lift (Ok removed)
  end.

End s.
End Tags.

(** * The trash of a vault (src/services/vault/trash.rs)

    Listing and emptying the trash, and trashing, restoring and destroying many records
    at once. *)

Module Trash.
Section s.
Context {W : Type} `{Libs} `{UuidErrors} `{ConversionErrors} `{CryptoLibs}.
Context `{Secure W} `{Sqlite W} `{System W} `{Serde Json}.
Import VaultService Records.

(** The name and subtitle of a record, under the associated data of its identifier. *)
Definition trash_name (v : VaultServiceImpl) (r : StoredRecord) : ior W string string :=
  decrypt_name_only (vs_crypto v) (st_encrypted_data r) (st_nonce r) (record_aad (st_id r))
    (st_dek_version r).

Definition trash_entry (v : VaultServiceImpl) (r : StoredRecord)
  : ior W TuiRecord VaultError.t :=
  let! name := crypto (trash_name v r) in
  let! subtitle := crypto (decrypt_subtitle (vs_crypto v) (st_encrypted_data r) (st_nonce r)
                     (record_aad (st_id r)) (st_credential_type r) (st_dek_version r)) in
  lift (Ok (mkTuiRecord (st_id r) (st_credential_type r) name subtitle (st_is_favorite r) false
    (st_expires_at r) false false None (st_created_at r) (st_updated_at r) (st_deleted r)
    (st_deleted_at r) (st_tags r) None)).

Fixpoint trash_entries (v : VaultServiceImpl) (records : list StoredRecord)
  : ior W (list TuiRecord) VaultError.t :=
  match records with
  | [] => lift (Ok [])
  | r :: records =>
      let! entry := trash_entry v r in
      let! entries := trash_entries v records in
      lift (Ok (entry :: entries))
  end.

Definition list_trash (v : VaultServiceImpl) : ior W (list TuiRecord) VaultError.t :=
  let! _ := check_unlocked v in
  let! stored_records := db list_deleted_records in
  trash_entries v stored_records.

Fixpoint destroy (records : list StoredRecord) : ior W () VaultError.t :=
  match records with
  | [] => lift (Ok ())
  | r :: records =>
      let! _ := db (Queries.hard_delete_record (st_id r)) in
      destroy records
  end.

Definition empty_trash (v : VaultServiceImpl) : ior W Z VaultError.t :=
  let! _ := check_unlocked v in
  let! deleted_records := db list_deleted_records in
  let count := Z.of_nat (length deleted_records) in
  let! _ := destroy deleted_records in
  let! _ :=
    if (0 <? count)%Z then
      db (insert_audit_entry AuditOperation.TrashEmpty None None
            (Some ("permanently deleted " +:+ pretty count +:+ " record(s)")))
    else lift (Ok ()) in
  lift (Ok count).

(** The name for the audit log, when the record can be read. *)
Definition name_or_unknown (v : VaultServiceImpl) (r : StoredRecord) : io W string :=
  let* name := trash_name v r in
  io_ret (default "<unknown>" (ok name)).

Definition audit_name (v : VaultServiceImpl) (id : Uuid) : io W string :=
  let* stored := get_stored_record id in
  match stored with
  | Ok r => name_or_unknown v r
  | Err _ => io_ret "<unknown>"
  end.

Fixpoint audit_deletes (v : VaultServiceImpl) (ids : list Uuid) : ior W () VaultError.t :=
  match ids with
  | [] => lift (Ok ())
  | id :: ids =>
      let* name := audit_name v id in
      let! _ := audit AuditOperation.RecordDelete id name in
      audit_deletes v ids
  end.

Definition batch_soft_delete (v : VaultServiceImpl) (record_ids : list Uuid)
  : ior W Z VaultError.t :=
  let! _ := check_unlocked v in
  if bool_decide (record_ids = []) then lift (Ok 0%Z)
  else
    let! affected := db (batch_soft_delete_records record_ids (vs_device_id v)) in
    let! _ := audit_deletes v record_ids in
    let! _ := if (0 <? affected)%Z then mark_records_pending_sync record_ids
              else lift (Ok ()) in
    lift (Ok affected).

(** The trashed records among [ids] with their names, captured before they change. *)
Fixpoint deleted_with_names (v : VaultServiceImpl) (ids : list Uuid)
  : io W (list (Uuid * string)) :=
  match ids with
  | [] => io_ret []
  | id :: ids =>
      let* stored := get_stored_record id in
      match stored with
      | Ok r =>
          if st_deleted r then
            let* name := name_or_unknown v r in
            let* rest := deleted_with_names v ids in
            io_ret ((id, name) :: rest)
          else deleted_with_names v ids
      | Err _ => deleted_with_names v ids
      end
  end.

Fixpoint audit_all (operation : AuditOperation.t) (l : list (Uuid * string))
  : ior W () VaultError.t :=
  match l with
  | [] => lift (Ok ())
  | (id, name) :: l =>
      let! _ := audit operation id name in
      audit_all operation l
  end.

Definition batch_restore (v : VaultServiceImpl) (record_ids : list Uuid)
  : ior W Z VaultError.t :=
  let! _ := check_unlocked v in
  if bool_decide (record_ids = []) then lift (Ok 0%Z)
  else
    let* captured := deleted_with_names v record_ids in
    let! affected := db (batch_restore_records record_ids) in
    let! _ := audit_all AuditOperation.RecordRestore captured in
    let! _ := if (0 <? affected)%Z then mark_records_pending_sync captured.*1
              else lift (Ok ()) in
    lift (Ok affected).

Definition batch_hard_delete (v : VaultServiceImpl) (record_ids : list Uuid)
  : ior W Z VaultError.t :=
  let! _ := check_unlocked v in
  if bool_decide (record_ids = []) then lift (Ok 0%Z)
  else
    let* captured := deleted_with_names v record_ids in
    let! affected := db (batch_hard_delete_records record_ids) in
    let! _ := audit_all AuditOperation.RecordDestroy captured in
    lift (Ok affected).

End s.
End Trash.
