(* ===== verification/Integrity.v ===== *)
(** * The integrity of the vault database

    The invariant of the tables: rows are under their keys, tag names are unique, and
    every reference to a record or a tag has its target.  Each statement of the queries
    preserves it, and each query and each operation that the vault is made of. *)

From S2P Require Import Prelude Env Types Storage Crypto Keystore Payload Database Queries Vault.
From S2P Require Import Logic Records Tags.

Record db_wf (t : Tables) : Prop := mk_db_wf {
  wf_keys : map_Forall (λ id row, row_id row = id) (t_records t);
  wf_tag_names : ∀ i j name, t_tags t !! i = Some name → t_tags t !! j = Some name → i = j;
  wf_tag_seq : ∀ i, is_Some (t_tags t !! i) → (i ≤ t_tag_seq t)%Z;
  wf_record_tags : ∀ id tag, (id, tag) ∈ t_record_tags t →
    is_Some (t_records t !! id) ∧ is_Some (t_tags t !! tag);
  wf_list_index : ∀ id, is_Some (t_list_index t !! id) → is_Some (t_records t !! id);
  wf_health : ∀ id, is_Some (t_health t !! id) → is_Some (t_records t !! id);
  wf_sync_state : ∀ id, is_Some (t_sync_state t !! id) → is_Some (t_records t !! id);
  wf_history : map_Forall (λ _ r, is_Some (t_records t !! pr_record_id r)) (t_history t);
  wf_history_seq : ∀ i, is_Some (t_history t !! i) → (i ≤ t_history_seq t)%Z;
}.

(** A vault without records. *)
Definition no_tables : Tables := mkTables ∅ ∅ 0 ∅ ∅ [] ∅ ∅ ∅ ∅ 0.

Lemma no_tables_wf : db_wf no_tables.
Proof.
  split; cbn; try apply map_Forall_empty; try (intros ? [? Hx]; by rewrite lookup_empty in Hx).
  - intros i j name Hi. by rewrite lookup_empty in Hi.
  - intros id tag Hin. by apply elem_of_empty in Hin.
Qed.

(** Reduces record updates of the tables. *)
Ltac tables_simpl := unfold update, eta, eta_Tables in *; cbn in *.

Lemma is_Some_insert {K} `{Countable K} {A} (m : gmap K A) i j x :
  is_Some (<[i := x]> m !! j) ↔ j = i ∨ is_Some (m !! j).
Proof. destruct (decide (j = i)) as [->|]; [rewrite lookup_insert_eq|rewrite lookup_insert_ne by done]; naive_solver. Qed.

Lemma is_Some_filter {K} `{Countable K} {A} (P : K * A → Prop) `{!∀ x, Decision (P x)}
    (m : gmap K A) i : is_Some (filter P m !! i) → ∃ x, m !! i = Some x ∧ P (i, x).
Proof. intros [x Hx]. apply map_lookup_filter_Some in Hx. eauto. Qed.

(** More records under their keys. *)
Lemma wf_more_records t rs :
  db_wf t → map_Forall (λ id row, row_id row = id) rs →
  (∀ id, is_Some (t_records t !! id) → is_Some (rs !! id)) →
  db_wf (t <| t_records := rs |>).
Proof.
  intros [] Hk Hrs. split; tables_simpl; eauto.
  - intros id tag [Hr Ht]%wf_record_tags0. eauto.
  - intros i r Hr. eauto.
Qed.

Lemma wf_alter_records t rs :
  db_wf t → (∀ id row', rs !! id = Some row' →
    ∃ row, t_records t !! id = Some row ∧ row_id row' = row_id row) →
  (∀ id, is_Some (t_records t !! id) → is_Some (rs !! id)) → db_wf (t <| t_records := rs |>).
Proof.
  intros Hwf Hrs Hdom. apply wf_more_records; [done| |done].
  intros id row' (row & Hrow & ->)%Hrs. by apply (wf_keys _ Hwf) in Hrow.
Qed.

Lemma wf_alter t id f n t' :
  (∀ row, row_id (f row) = row_id row) → db_wf t → sql_alter_record id f t = (n, t') →
  db_wf t'.
Proof.
  unfold sql_alter_record. intros Hf Hwf. destruct (t_records t !! id) as [row|] eqn:E;
    intros [= <- <-]; [|done].
  replace (t <| t_records ::= _ |>) with (t <| t_records := <[id := f row]> (t_records t) |>)
    by by destruct t.
  apply wf_alter_records; [done| |].
  - intros i row'. rewrite lookup_insert_Some. intros [[<- <-]|[? ?]]; eauto.
  - intros i Hi. rewrite is_Some_insert. eauto.
Qed.

Lemma wf_alter_many t P f n t' :
  (∀ row, row_id (f row) = row_id row) → db_wf t → sql_alter_records P f t = (n, t') →
  db_wf t'.
Proof.
  unfold sql_alter_records. intros Hf Hwf [= <- <-].
  set (g := λ id row, Some (if P id row then f row else row) : option RecordRow).
  replace (t <| t_records ::= _ |>) with (t <| t_records := map_imap g (t_records t) |>)
    by by destruct t.
  assert (∀ i, map_imap g (t_records t) !! i =
    (λ row, if P i row then f row else row) <$> t_records t !! i) as Hl.
  { intros i. rewrite map_lookup_imap. by destruct (t_records t !! i). }
  apply wf_alter_records; [done| |]; intros i.
  - intros row'. rewrite Hl, fmap_Some. intros (row & Hrow & ->). exists row.
    split; [done|]. by destruct (P i row).
  - rewrite Hl. by intros [row ->].
Qed.

Lemma wf_delete_records t P n t' :
  db_wf t → sql_delete_records P t = (n, t') → db_wf t'.
Proof.
  unfold sql_delete_records. intros Hwf [= <- <-]. destruct Hwf. tables_simpl.
  set (gone id := match t_records t !! id with Some row => P id row | None => false end).
  assert (∀ id, gone id = false → is_Some (t_records t !! id) →
    is_Some (filter (λ r : string * RecordRow, P r.1 r.2 = false) (t_records t) !! id)) as Hstay.
  { intros id Hg [row Hrow]. exists row. apply map_lookup_filter_Some. split; [done|]. cbn.
    unfold gone in Hg. by rewrite Hrow in Hg. }
  split; cbn; try done.
  - intros id row [Hrow _]%map_lookup_filter_Some. by apply wf_keys0.
  - intros id tag [Hg Hin]%elem_of_filter. cbn in Hg. apply wf_record_tags0 in Hin as [??]. eauto.
  - intros id (x & Hx & Hg)%is_Some_filter. eauto.
  - intros id (x & Hx & Hg)%is_Some_filter. eauto.
  - intros id (x & Hx & Hg)%is_Some_filter. eauto.
  - intros i r [Hr Hg]%map_lookup_filter_Some. cbn in Hg. apply Hstay; [done|]. by eapply wf_history0.
  - intros i (x & Hx & _)%is_Some_filter. eauto.
Qed.

(** ** Tags *)

Lemma sql_tag_named_some name t tag :
  sql_tag_named name t = Some tag → t_tags t !! tag = Some name.
Proof.
  unfold sql_tag_named. destruct (filter _ _) as [|[i n] l] eqn:E; [done|]. intros [= <-].
  assert ((i, n) ∈ filter (λ tag : Z * string, tag.2 = name) (map_to_list (t_tags t))) as Hin
    by (rewrite E; by left).
  apply list_elem_of_filter in Hin as [<- Hin]. by apply elem_of_map_to_list in Hin.
Qed.

Lemma sql_tag_named_none name t :
  sql_tag_named name t = None ↔ ∀ tag, t_tags t !! tag ≠ Some name.
Proof.
  unfold sql_tag_named. split.
  - intros Hn tag Ht.
    assert ((tag, name) ∈ filter (λ tag : Z * string, tag.2 = name) (map_to_list (t_tags t))) as Hin
      by (apply list_elem_of_filter; split; [done|by apply elem_of_map_to_list]).
    destruct (filter _ _); [by apply elem_of_nil in Hin|done].
  - intros Hn. destruct (filter _ _) as [|[i n] l] eqn:E; [done|].
    assert ((i, n) ∈ filter (λ tag : Z * string, tag.2 = name) (map_to_list (t_tags t))) as Hin
      by (rewrite E; by left).
    apply list_elem_of_filter in Hin as [Hi Hin]. apply elem_of_map_to_list in Hin. cbn in Hi.
    subst. by destruct (Hn i).
Qed.

(** Under unique names, the tag of a name is the only one with it. *)
Lemma sql_tag_named_iff name t tag :
  db_wf t → sql_tag_named name t = Some tag ↔ t_tags t !! tag = Some name.
Proof.
  intros Hwf. split; [apply sql_tag_named_some|]. intros Ht.
  destruct (sql_tag_named name t) as [i|] eqn:E.
  - apply sql_tag_named_some in E. f_equal. by eapply wf_tag_names.
  - by destruct (proj1 (sql_tag_named_none name t) E tag).
Qed.

Lemma wf_insert_tag name t tag t' :
  db_wf t → sql_insert_tag name t = Ok (tag, t') →
  db_wf t' ∧ t' = t <| t_tags ::= <[tag := name]> |> <| t_tag_seq := tag |> ∧ t_tags t !! tag = None.
Proof.
  unfold sql_insert_tag, sql_new_tag. intros Hwf. case_bool_decide as Hn; [done|].
  destruct (_ <? _)%nat; [done|]. intros [= <- <-].
  assert (sql_tag_named name t = None) as Hno by (destruct (sql_tag_named name t); naive_solver).
  rewrite sql_tag_named_none in Hno.
  assert (t_tags t !! (t_tag_seq t + 1)%Z = None) as Hfresh.
  { destruct (_ !! _) as [x|] eqn:E; [|done].
    assert (t_tag_seq t + 1 ≤ t_tag_seq t)%Z by (by apply (wf_tag_seq _ Hwf); rewrite E). lia. }
  split; [|done]. destruct Hwf. split; tables_simpl; try done.
  - intros i j n. rewrite !lookup_insert_Some. naive_solver.
  - intros i [->|Hi%wf_tag_seq0]%is_Some_insert; lia.
  - intros id tag' [Hr Ht]%wf_record_tags0. by rewrite is_Some_insert; auto.
Qed.

Lemma wf_rename_tag old new t n t' :
  db_wf t → sql_rename_tag old new t = Ok (n, t') → db_wf t'.
Proof.
  unfold sql_rename_tag. intros Hwf. destruct (sql_tag_named old t) as [tag|] eqn:E; [|by intros [= <- <-]].
  destruct (negb _ && _) eqn:En; [done|]. destruct (_ <? _)%nat; [done|]. intros [= <- <-].
  apply sql_tag_named_some in E. apply andb_false_iff in En.
  assert (∀ i, t_tags t !! i = Some new → i = tag) as Hu.
  { intros i Hi. destruct En as [En|En].
    - apply negb_false_iff, bool_decide_eq_true in En as ->. by eapply wf_tag_names.
    - apply bool_decide_eq_false in En. exfalso. apply En.
      rewrite (proj2 (sql_tag_named_iff new t i Hwf) Hi). eauto. }
  destruct Hwf. split; tables_simpl; try done.
  - intros i j n. rewrite !lookup_insert_Some. naive_solver.
  - intros i [->|Hi]%is_Some_insert; eauto.
  - intros id tag' [Hr Ht]%wf_record_tags0. by rewrite is_Some_insert; auto.
Qed.

Lemma wf_remove_tag tag t : db_wf t → db_wf (sql_remove_tag tag t).
Proof.
  intros []. split; unfold sql_remove_tag; tables_simpl; try done.
  - intros i j n [_ Hi]%lookup_delete_Some [_ Hj]%lookup_delete_Some. eauto.
  - intros i [x [_ Hi]%lookup_delete_Some]. eauto.
  - intros id tag' [Hne Hin]%elem_of_filter. cbn in Hne. rewrite lookup_delete_ne by done. eauto.
Qed.

(** ** Links and rows that reference a record *)

Lemma wf_record_tags_subset t s :
  db_wf t → s ⊆ t_record_tags t → db_wf (t <| t_record_tags := s |>).
Proof. intros [] Hs. split; tables_simpl; try done. intros id tag Hin. apply Hs in Hin. eauto. Qed.

Lemma wf_link id tag t u t' : db_wf t → sql_link id tag t = Ok (u, t') → db_wf t'.
Proof.
  unfold sql_link. intros []. case_bool_decide as Hl; [|done]. intros [= <- <-].
  split; tables_simpl; try done. intros i j. rewrite elem_of_union, elem_of_singleton.
  intros [[= -> ->]|Hin]; eauto.
Qed.

Lemma wf_list_index_insert t id row u t' :
  db_wf t → referencing id t (t <| t_list_index ::= <[id := row]> |>) = Ok (u, t') → db_wf t'.
Proof.
  unfold referencing. intros []. case_bool_decide as Hr; [|done]. intros [= <- <-].
  split; tables_simpl; try done. intros i [->|Hi]%is_Some_insert; eauto.
Qed.

Lemma wf_health_insert t id h u t' :
  db_wf t → referencing id t (t <| t_health ::= <[id := h]> |>) = Ok (u, t') → db_wf t'.
Proof.
  unfold referencing. intros []. case_bool_decide as Hr; [|done]. intros [= <- <-].
  split; tables_simpl; try done. intros i [->|Hi]%is_Some_insert; eauto.
Qed.

Lemma wf_sync_insert t id status conflict n u t' :
  db_wf t → sql_upsert_sync id status conflict n t = Ok (u, t') → db_wf t'.
Proof.
  unfold sql_upsert_sync, referencing. intros []. case_bool_decide as Hr; [|done]. intros [= <- <-].
  split; tables_simpl; try done. intros i [->|Hi]%is_Some_insert; eauto.
Qed.

Lemma wf_history_insert t row u t' :
  db_wf t → sql_insert_history row t = Ok (u, t') → db_wf t'.
Proof.
  unfold sql_insert_history, referencing. intros []. case_bool_decide as Hr; [|done].
  intros [= <- <-]. split; tables_simpl; try done.
  - intros i r. rewrite lookup_insert_Some. naive_solver.
  - intros i [->|Hi%wf_history_seq0]%is_Some_insert; lia.
Qed.

(** Smaller tables of rows that reference records. *)
Lemma wf_smaller t li h ss hi :
  db_wf t → li ⊆ t_list_index t → dom h ⊆ dom (t_health t) → ss ⊆ t_sync_state t →
  hi ⊆ t_history t →
  db_wf (t <| t_list_index := li |> <| t_health := h |> <| t_sync_state := ss |>
           <| t_history := hi |>).
Proof.
  intros [] Hli Hh Hss Hhi. split; tables_simpl; try done.
  - intros id [x Hx]. eapply lookup_weaken in Hx; eauto.
  - intros id Hx%elem_of_dom. apply Hh, elem_of_dom in Hx. eauto.
  - intros id [x Hx]. eapply lookup_weaken in Hx; eauto.
  - intros i r Hr. eapply lookup_weaken in Hr; [|done]. by eapply wf_history0.
  - intros i [x Hx]. eapply lookup_weaken in Hx; eauto.
Qed.

(** ** Transactions *)

Lemma wf_insert_row `{Libs} r t t' : db_wf t → sql_insert_row r t = Ok t' → db_wf t'.
Proof.
  unfold sql_insert_row. intros Hwf. destruct (t_records t !! _) eqn:E; [done|]. intros [= <-].
  replace (t <| t_records ::= _ |>) with
    (t <| t_records := <[uuid_to_string (st_id r) := new_row r]> (t_records t) |>) by by destruct t.
  apply wf_more_records; [done| |].
  - apply map_Forall_insert_2; [done|]. by destruct Hwf.
  - intros i Hi. rewrite is_Some_insert. eauto.
Qed.

Lemma wf_ensure_tag name t : db_wf t → db_wf (sql_ensure_tag name t).
Proof.
  unfold sql_ensure_tag. intros Hwf. destruct (sql_insert_tag name t) as [[tag t']|] eqn:E; [|done].
  by apply wf_insert_tag in E as [? _].
Qed.

Lemma wf_tag_record id t name t' :
  db_wf t → sql_tag_record id (Ok t) name = Ok t' → db_wf t'.
Proof.
  unfold sql_tag_record. intros Hwf Ht. inv_ok Ht. case_match. simplify_eq.
  eapply wf_link; [|done]. by apply wf_ensure_tag.
Qed.

Lemma foldl_tag_record_err id l e : foldl (sql_tag_record id) (Err e) l = Err e.
Proof. by induction l. Qed.

Lemma wf_tag_records id l : ∀ t t',
  db_wf t → foldl (sql_tag_record id) (Ok t) l = Ok t' → db_wf t'.
Proof.
  induction l as [|name l IH]; intros t t' Hwf; cbn [foldl]; [by intros [= <-]|].
  destruct (sql_tag_record id (Ok t) name) as [t1|e] eqn:E.
  - apply IH. by eapply wf_tag_record.
  - by rewrite foldl_tag_record_err.
Qed.

Lemma wf_insert_record `{Libs} r t u t' :
  db_wf t → sql_insert_record r t = Ok (u, t') → db_wf t'.
Proof.
  unfold sql_insert_record. intros Hwf Ht. inv_ok Ht. simplify_eq.
  destruct (sql_insert_row r t) as [t1|e] eqn:E; [|by rewrite foldl_tag_record_err in *].
  eapply wf_tag_records; [|done]. by eapply wf_insert_row.
Qed.

Lemma wf_insert_health `{Libs} l : ∀ t t',
  db_wf t → foldl sql_insert_health (Ok t) l = Ok t' → db_wf t'.
Proof.
  assert (∀ e l, foldl sql_insert_health (Err e) l = Err e) as He
    by (intros e l'; by induction l').
  induction l as [|s l IH]; intros t t' Hwf; cbn [foldl]; [by intros [= <-]|].
  destruct (sql_insert_health (Ok t) s) as [t1|e] eqn:E; [|by rewrite He].
  apply IH. unfold sql_insert_health in E. cbn in E. case_bool_decide; [done|].
  inv_ok E. case_match. simplify_eq. by eapply wf_health_insert.
Qed.

Lemma wf_add_tag `{Libs} tag ids : ∀ added t n t',
  db_wf t → sql_add_tag tag ids added t = Ok (n, t') → db_wf t'.
Proof.
  induction ids as [|id ids IH]; intros added t n t' Hwf; cbn [sql_add_tag];
    [by intros [= <- <-]|].
  intros Ha. inv_ok Ha. case_match. simplify_eq. eapply IH; [|done]. by eapply wf_link.
Qed.

Lemma wf_drop_tag `{Libs} tag ids : ∀ removed t n t',
  db_wf t → sql_drop_tag tag ids removed t = (n, t') → db_wf t'.
Proof.
  induction ids as [|id ids IH]; intros removed t n t' Hwf; cbn [sql_drop_tag];
    [by intros [= <- <-]|].
  intros Hd. eapply IH; [|done].
  replace (t <| t_record_tags ::= _ |>) with
    (t <| t_record_tags := t_record_tags t ∖ {[(uuid_to_string id, tag)]} |>) by by destruct t.
  apply wf_record_tags_subset; [done|]. set_solver.
Qed.

(** ** Password history

    The entries of a record. *)

Definition history_size (id : string) (t : Tables) : nat :=
  size (filter (λ r : Z * PasswordHistoryRow, pr_record_id r.2 = id) (t_history t)).

Lemma history_of_size id t : length (sql_history_of id t) = history_size id t.
Proof.
  unfold history_size, sql_history_of. rewrite map_filter_alt, map_size_list_to_map; [done|].
  apply NoDup_fmap_filter, NoDup_fst_map_to_list.
Qed.

Lemma history_size_mono id t t' :
  t_history t' ⊆ t_history t → history_size id t' ≤ history_size id t.
Proof. intros Hs. by apply map_subseteq_size, map_filter_subseteq_mono. Qed.

Lemma history_size_insert id t row u t' :
  sql_insert_history row t = Ok (u, t') → db_wf t →
  history_size id t' =
    if decide (pr_record_id row = id) then S (history_size id t) else history_size id t.
Proof.
  unfold sql_insert_history, referencing, history_size. intros Hi Hwf.
  case_bool_decide; [|done]. injection Hi as <- <-. tables_simpl.
  assert (t_history t !! (t_history_seq t + 1)%Z = None) as Hn.
  { destruct (t_history t !! _) as [x|] eqn:E; [|done].
    assert (t_history_seq t + 1 ≤ t_history_seq t)%Z
      by (by apply (wf_history_seq _ Hwf); rewrite E). lia. }
  rewrite map_filter_insert. cbn. case_decide.
  - rewrite map_size_insert_None; [done|]. by rewrite map_lookup_filter_None; left.
  - by rewrite delete_id.
Qed.

Definition MAX_HISTORY : nat := 10.

(** At most ten old passwords of a record are kept. *)
Definition history_bounded (t : Tables) : Prop := ∀ id, history_size id t ≤ MAX_HISTORY.

Definition vault_wf (t : Tables) : Prop := db_wf t ∧ history_bounded t.

Lemma vault_wf_smaller t t' :
  vault_wf t → db_wf t' → t_history t' ⊆ t_history t → vault_wf t'.
Proof.
  intros [_ Hb] Hwf Hs. split; [done|]. intros id. etrans; [by apply history_size_mono|done].
Qed.

(** The tables without integrity conditions. *)
Lemma wf_metadata t f : db_wf t → db_wf (t <| t_metadata ::= f |>).
Proof. by intros []; split; tables_simpl. Qed.

Lemma wf_audit t f : db_wf t → db_wf (t <| t_audit_log ::= f |>).
Proof. by intros []; split; tables_simpl. Qed.

Lemma wf_update_record `{Libs} r v t n t' :
  db_wf t → sql_update_record r v t = (n, t') → db_wf t' ∧ t_history t' = t_history t.
Proof.
  unfold sql_update_record. intros Hwf. destruct (t_records t !! _) as [row|] eqn:E;
    [|by intros [= <- <-]]. case_bool_decide; intros [= <- <-]; [|done]. split; [|done].
  set (row' := mkRecordRow _ _ _ _ _ _ _ _ _ _ _ _ _ _).
  apply (wf_alter t (uuid_to_string (st_id r)) (λ x, row' <| row_id := row_id x |>) 1%Z);
    [done|done|]. unfold sql_alter_record. by rewrite E.
Qed.

(** * The invariant of a vault

    Every query, whatever its outcome, preserves the integrity of the tables and the
    bound on the password history. *)

Section invariant.
Context {W : Type} `{Libs} `{UuidErrors} `{Lowercase} `{ConversionErrors}.
Context `{CryptoLibs} `{SqliteLaws W} `{!RangeLaws W}.

Definition sound : W → Prop := on vault_wf.

Lemma preserves_tables {A} (m : io W A) : keeps tables m → preserves sound m.
Proof. apply keeps_preserves. unfold sound, on. by intros w w' ->. Qed.

Definition sound_statement {A} (f : Tables → result (A * Tables) SqlError) : Prop :=
  ∀ t a t', db_wf t → f t = Ok (a, t') → db_wf t' ∧ t_history t' ⊆ t_history t.

Lemma execute_sound {A} (f : Tables → result (A * Tables) SqlError) :
  sound_statement f → preserves sound (sql_execute f).
Proof.
  intros Hf w [a|e] w' Hr Hw; unfold sound, on in *.
  - apply execute_ok in Hr. destruct (Hf _ _ _ (proj1 Hw) Hr) as [??]. by eapply vault_wf_smaller.
  - by rewrite (execute_err _ _ _ _ Hr).
Qed.

#[local] Hint Extern 0 (preserves sound (sql_query _)) =>
  apply preserves_tables; exact (query_tables _) : preserves.
#[local] Hint Extern 0 (preserves sound (sql_select _)) =>
  apply preserves_tables; exact (select_tables _) : preserves.
#[local] Hint Extern 0 (preserves sound now) => apply preserves_tables; exact now_tables : preserves.

(** Leaves the goal of each statement. *)
Ltac by_statements :=
  unfold execute_, execute, sqlite, data, timestamp_now in *;
  repeat first [step_preserves | apply execute_sound].

(** The statements of the given lemmas. *)
Ltac statement := by_statements; intros ?t ?a ?t' ?Hwf ?Hr; simplify_eq.

Lemma sound_set_metadata key value : preserves sound (set_metadata key value).
Proof. unfold set_metadata. statement. split; [by apply wf_metadata|done]. Qed.

Lemma sound_delete_metadata key : preserves sound (Database.delete_metadata key).
Proof. unfold Database.delete_metadata. statement. split; [by apply wf_metadata|done]. Qed.

Lemma sound_audit o id name detail : preserves sound (insert_audit_entry o id name detail).
Proof. unfold insert_audit_entry. statement. split; [by apply wf_audit|done]. Qed.

Lemma sound_update_record r v : preserves sound (Database.update_record r v).
Proof.
  unfold Database.update_record. statement.
  destruct (sql_update_record r v t) as [n t2] eqn:E. simplify_eq.
  apply wf_update_record in E as [? ->]; done.
Qed.

Lemma tag_records_history id l : ∀ t t',
  foldl (sql_tag_record id) (Ok t) l = Ok t' → t_history t' = t_history t.
Proof.
  induction l as [|name l IH]; intros t t'; cbn [foldl]; [by intros [= <-]|].
  destruct (sql_tag_record id (Ok t) name) as [t1|e] eqn:E; [|by rewrite foldl_tag_record_err].
  intros ->%IH. unfold sql_tag_record in E. inv_ok E. case_match. simplify_eq.
  unfold sql_link in *. case_bool_decide; [|done]. simplify_eq. unfold sql_ensure_tag, sql_insert_tag.
  by repeat case_match; simplify_eq; tables_simpl.
Qed.

Lemma sound_insert_record r : preserves sound (insert_record r).
Proof.
  unfold insert_record. statement. split; [by destruct a; eapply wf_insert_record|].
  unfold sql_insert_record in Hr. inv_ok Hr. simplify_eq.
  destruct (sql_insert_row r t) as [t1|e] eqn:E; [|by rewrite foldl_tag_record_err in *].
  unfold sql_insert_row in E. destruct (t_records t !! _); simplify_eq.
  by erewrite tag_records_history; [|done].
Qed.

Lemma sound_upsert_index id name subtitle : preserves sound (upsert_record_list_index id name subtitle).
Proof.
  unfold upsert_record_list_index. statement. split; [by eapply wf_list_index_insert|].
  unfold referencing in Hr. case_bool_decide; by simplify_eq.
Qed.

Lemma sound_clear_index : preserves sound clear_record_list_index.
Proof.
  unfold clear_record_list_index. statement. split; [|done].
  eapply (wf_smaller t ∅ (t_health t) (t_sync_state t) (t_history t)); try done.
  apply map_empty_subseteq.
Qed.

(** An alteration of rows that keeps their identifiers. *)
Lemma sound_alter id f :
  (∀ row, row_id (f row) = row_id row) → preserves sound (execute_ (sql_alter_record id f)).
Proof.
  intros Hf. by_statements. intros t a t' Hwf Hr.
  destruct (sql_alter_record id f t) as [n t2] eqn:E. simplify_eq. split; [by eapply wf_alter|].
  unfold sql_alter_record in E. by case_match; simplify_eq.
Qed.

Lemma sound_alter_many P f :
  (∀ row, row_id (f row) = row_id row) → preserves sound (execute (sql_alter_records P f)).
Proof.
  intros Hf. by_statements. intros t a t' Hwf Hr.
  destruct (sql_alter_records P f t) as [n t2] eqn:E. simplify_eq. split; [by eapply wf_alter_many|].
  unfold sql_alter_records in E. by simplify_eq.
Qed.

Lemma sound_delete_many P : preserves sound (execute (sql_delete_records P)).
Proof.
  by_statements. intros t a t' Hwf Hr.
  destruct (sql_delete_records P t) as [n t2] eqn:E. simplify_eq.
  split; [by eapply wf_delete_records|]. unfold sql_delete_records in E. simplify_eq.
  tables_simpl. apply map_filter_subseteq.
Qed.

#[local] Hint Resolve sound_alter sound_alter_many sound_delete_many : preserves.

Lemma sound_soft_delete id : preserves sound (soft_delete_record id).
Proof.
  unfold soft_delete_record, timestamp_now. solve_preserves.
Qed.

Lemma sound_restore id : preserves sound (restore_record id).
Proof. by apply sound_alter. Qed.

Lemma sound_hard_delete id : preserves sound (hard_delete_record id).
Proof. unfold hard_delete_record, execute_. solve_preserves. Qed.

Lemma sound_update_favorite id b : preserves sound (update_favorite id b).
Proof. by apply sound_alter. Qed.

Lemma sound_update_deleted id b at_ : preserves sound (update_record_deleted_state id b at_).
Proof. by apply sound_alter. Qed.

Lemma sound_batch_soft_delete ids by_ : preserves sound (batch_soft_delete_records ids by_).
Proof. unfold batch_soft_delete_records, timestamp_now. solve_preserves. Qed.

Lemma sound_batch_restore ids : preserves sound (batch_restore_records ids).
Proof. unfold batch_restore_records. solve_preserves. Qed.

Lemma sound_batch_hard_delete ids : preserves sound (batch_hard_delete_records ids).
Proof. unfold batch_hard_delete_records. solve_preserves. Qed.

(** *** Tags *)

Lemma insert_tag_sound name : sound_statement (sql_insert_tag name).
Proof. intros t tag t' Hwf Hr. by apply wf_insert_tag in Hr as (? & -> & _). Qed.

Lemma sound_get_or_create_tag name : preserves sound (get_or_create_tag name).
Proof. unfold get_or_create_tag, get_tag_by_name, insert_tag. by_statements. apply insert_tag_sound. Qed.

Lemma link_history id tag t u t' : sql_link id tag t = Ok (u, t') → t_history t' = t_history t.
Proof. unfold sql_link. by case_bool_decide; intros; simplify_eq. Qed.

Lemma sound_attach_tag id tag : preserves sound (attach_tag id tag).
Proof.
  unfold attach_tag. statement. destruct a. split; [by eapply wf_link|].
  by erewrite link_history.
Qed.

Lemma sound_detach_all id : preserves sound (detach_all_tags_for_record id).
Proof.
  unfold detach_all_tags_for_record. statement. split; [|done].
  apply (wf_record_tags_subset t (filter (λ r, r.1 ≠ uuid_to_string id) (t_record_tags t)));
    [done|]. set_solver.
Qed.

Lemma sound_rename_tag old new : preserves sound (Queries.rename_tag old new).
Proof.
  unfold Queries.rename_tag. statement. split; [by eapply wf_rename_tag|].
  unfold sql_rename_tag in Hr. by repeat case_match; simplify_eq.
Qed.

Lemma sound_delete_tag name : preserves sound (delete_tag_by_name name).
Proof.
  unfold delete_tag_by_name, sql_delete_tag. statement. case_match; simplify_eq; [|done].
  split; [by apply wf_remove_tag|done].
Qed.

Lemma add_tag_history tag ids : ∀ n t n' t',
  sql_add_tag tag ids n t = Ok (n', t') → t_history t' = t_history t.
Proof.
  induction ids as [|id ids IH]; intros n t n' t'; cbn [sql_add_tag]; [by intros [= <- <-]|].
  intros Hr. inv_ok Hr. case_match. subst. apply IH in Hr as ->. by eapply link_history.
Qed.

Lemma drop_tag_history tag ids : ∀ n t n' t',
  sql_drop_tag tag ids n t = (n', t') → t_history t' = t_history t.
Proof.
  induction ids as [|id ids IH]; intros n t n' t'; cbn [sql_drop_tag]; [by intros [= <- <-]|].
  intros ->%IH. done.
Qed.

Lemma batch_add_sound ids name : sound_statement (sql_batch_add_tag ids name).
Proof.
  intros t n t' Hwf Hr. unfold sql_batch_add_tag, sql_get_or_create_tag in Hr. inv_ok Hr.
  case_match. subst. case_match; simplify_eq.
  - split; [by eapply wf_add_tag|]. by erewrite add_tag_history.
  - match goal with E : sql_insert_tag _ _ = _ |- _ => apply insert_tag_sound in E as [??]; [|done] end.
    split; [by eapply wf_add_tag|]. by erewrite add_tag_history.
Qed.

Lemma batch_remove_sound ids name : sound_statement (sql_batch_remove_tag ids name).
Proof.
  intros t n t' Hwf Hr. unfold sql_batch_remove_tag in Hr. case_match; [|by simplify_eq].
  case_match. simplify_eq.
  match goal with E : sql_drop_tag _ _ _ _ = _ |- _ =>
    pose proof (wf_drop_tag _ _ _ _ _ _ Hwf E); apply drop_tag_history in E as Eh end.
  case_match; [|by rewrite Eh]. split; [by apply wf_remove_tag|]. cbn. by rewrite Eh.
Qed.

(** *** Health and sync states *)

Lemma sound_upsert_health s : preserves sound (upsert_record_health_state s).
Proof.
  unfold upsert_record_health_state. statement. split; [by eapply wf_health_insert|].
  unfold sql_upsert_health, referencing in Hr. by case_bool_decide; simplify_eq.
Qed.

(** A smaller health table. *)
Lemma smaller_health_wf t h :
  db_wf t → dom h ⊆ dom (t_health t) → db_wf (t <| t_health := h |>).
Proof.
  intros Hwf Hh. by apply (wf_smaller t (t_list_index t) h (t_sync_state t) (t_history t)).
Qed.

Lemma sound_delete_health id : preserves sound (delete_record_health_state id).
Proof.
  unfold delete_record_health_state. statement. split; [|done].
  apply (smaller_health_wf t (delete (uuid_to_string id) (t_health t))); [done|].
  apply subseteq_dom, delete_subseteq.
Qed.

Lemma sound_delete_healths ids : preserves sound (delete_record_health_states ids).
Proof.
  unfold delete_record_health_states. statement. split; [|done].
  apply (smaller_health_wf t (filter (λ r, among ids r.1 = false) (t_health t))); [done|].
  apply subseteq_dom, map_filter_subseteq.
Qed.

Lemma sound_copy_health id v : preserves sound (copy_record_health_state_version id v).
Proof.
  unfold copy_record_health_state_version. statement. case_match; simplify_eq; [|done].
  split; [|done]. apply (smaller_health_wf t (<[uuid_to_string id := _]> (t_health t))); [done|].
  rewrite dom_insert. assert (uuid_to_string id ∈ dom (t_health t)) by (apply elem_of_dom; eauto).
  set_solver.
Qed.

Lemma sound_upsert_sync id status conflict : preserves sound (upsert_sync_state id status conflict).
Proof.
  unfold upsert_sync_state. statement. split; [by destruct a; eapply wf_sync_insert|].
  unfold sql_upsert_sync, referencing in Hr. by case_bool_decide; simplify_eq.
Qed.

Lemma insert_health_history l : ∀ t t',
  foldl sql_insert_health (Ok t) l = Ok t' → t_history t' = t_history t.
Proof.
  assert (∀ e l, foldl sql_insert_health (Err e) l = Err e) as He
    by (intros e l'; by induction l').
  induction l as [|s l IH]; intros t t'; cbn [foldl]; [by intros [= <-]|].
  destruct (sql_insert_health (Ok t) s) as [t1|e] eqn:E; [|by rewrite He].
  intros ->%IH. unfold sql_insert_health, sql_upsert_health, referencing in E. cbn in E.
  repeat case_bool_decide; by simplify_eq/=.
Qed.

Lemma sound_replace_health states : preserves sound (replace_record_health_states states).
Proof.
  unfold replace_record_health_states. statement. unfold sql_replace_health in Hr. inv_ok Hr.
  simplify_eq. split.
  - eapply wf_insert_health; [|eassumption]. apply smaller_health_wf; [done|set_solver].
  - match goal with E : foldl _ _ _ = _ |- _ => by rewrite (insert_health_history _ _ _ E) end.
Qed.

(** *** Password history *)

Lemma oldest_exists (l : list (Z * PasswordHistoryRow)) : l ≠ [] → oldest l ≠ [].
Proof.
  intros Hl. assert (∃ r, r ∈ l ∧ Forall (λ r', (pr_changed_at r.2 ≤ pr_changed_at r'.2)%Z) l)
    as (r & Hr & Hmin).
  { induction l as [|x l IH]; [done|]. destruct (decide (l = [])) as [->|Hne].
    - exists x. split; [by left|]. by repeat constructor.
    - destruct (IH Hne) as (r & Hr & Hmin).
      destruct (Z.le_ge_cases (pr_changed_at x.2) (pr_changed_at r.2)) as [Hle|Hge].
      + exists x. split; [by left|]. constructor; [done|].
        eapply Forall_impl; [exact Hmin|]. cbn. intros r' ?. lia.
      + exists r. split; [by right|]. by constructor. }
  unfold oldest. intros He. assert (r.1 ∈ ([] : list Z)) as Hin; [|by apply elem_of_nil in Hin].
  rewrite <- He. apply list_elem_of_fmap. exists r. split; [done|]. by apply list_elem_of_filter.
Qed.

Lemma history_subset_wf t h : db_wf t → h ⊆ t_history t → db_wf (t <| t_history := h |>).
Proof.
  intros Hwf Hh. by apply (wf_smaller t (t_list_index t) (t_health t) (t_sync_state t) h).
Qed.

Lemma sound_delete_oldest id : preserves sound (delete_oldest_password_history id).
Proof.
  unfold delete_oldest_password_history. statement. destruct (sql_choose _) as [entry|]; [|done].
  split; [|apply delete_subseteq].
  apply (history_subset_wf t (delete entry (t_history t))); [done|apply delete_subseteq].
Qed.

(** Deleting the oldest entry leaves one entry less. *)
Lemma delete_oldest_run id w r w' :
  delete_oldest_password_history id w = (r, w') → sound w → r = Ok () →
  let key := uuid_to_string id in
  sound w' ∧ (0 < history_size key (tables w) →
    history_size key (tables w') < history_size key (tables w)).
Proof.
  unfold delete_oldest_password_history, sqlite. intros Hr [Hwf Hb] ->. inv_runs.
  match goal with X : sql_execute _ _ = _ |- _ => apply execute_ok in X; injection X as Et end.
  set (l := sql_history_of (uuid_to_string id) (tables w)) in *.
  destruct (sql_choose (oldest l)) as [entry|] eqn:Ec.
  - assert (t_history (tables w') = delete entry (t_history (tables w))) as Hh by by rewrite <- Et.
    assert (db_wf (tables w')) as Hwf'.
    { rewrite <- Et.
      apply (history_subset_wf (tables w) (delete entry (t_history (tables w)))); [done|].
      apply delete_subseteq. }
    split; [apply (vault_wf_smaller (tables w)); [by split|done|rewrite Hh; apply delete_subseteq]|].
    intros _.
    apply choose_in in Ec. unfold oldest in Ec. apply list_elem_of_fmap in Ec as ([i x] & -> & Hx).
    apply list_elem_of_filter in Hx as [_ Hx]. unfold l, sql_history_of in Hx.
    apply list_elem_of_filter in Hx as [Hid Hx]. apply elem_of_map_to_list in Hx.
    unfold history_size. rewrite Hh, map_filter_delete. cbn.
    assert (filter (λ r : Z * PasswordHistoryRow, pr_record_id r.2 = uuid_to_string id)
      (t_history (tables w)) !! i = Some x) as Hf by by apply map_lookup_filter_Some.
    rewrite map_size_delete, Hf. cbn.
    assert (size (filter (λ r : Z * PasswordHistoryRow, pr_record_id r.2 = uuid_to_string id)
      (t_history (tables w))) ≠ 0) by (by rewrite map_size_non_empty_iff; intros He; rewrite He in Hf). lia.
  - split; [unfold sound, on; rewrite <- Et; by split|]. intros Hpos. rewrite <- history_of_size in Hpos.
    destruct (choose_some (W := W) (oldest l)) as [? Hs]; [|by rewrite Ec in Hs].
    apply oldest_exists. intros El. unfold l in El. rewrite El in Hpos. cbn in Hpos. lia.
Qed.

Lemma insert_history_run id d n v c w r w' :
  insert_password_history id d n v c w = (r, w') → sound w →
  history_size (uuid_to_string id) (tables w) < MAX_HISTORY → sound w'.
Proof.
  unfold insert_password_history, sqlite, io_map_err, io_bind, io_ret. intros Hr [Hwf Hb] Hsz.
  destruct (sql_execute _ w) as [[u|e] w1] eqn:E; simplify_eq.
  - apply execute_ok in E. split; [by eapply wf_history_insert|]. intros key.
    rewrite (history_size_insert _ _ _ _ _ E Hwf). cbn. case_decide; [subst; lia|apply Hb].
  - unfold sound, on. by rewrite (execute_err _ _ _ _ E).
Qed.

(** The limit of ten entries. *)
Lemma sound_save_history id d n v : preserves sound (Records.save_password_history id d n v).
Proof.
  intros w r w' Hr Hw. unfold Records.save_password_history in Hr.
  rewrite ior_bind_step in Hr. unfold VaultService.db at 1, count_password_history, sqlite in Hr.
  unfold io_map_err at 1 2, io_bind at 1 2, io_ret at 1 2 in Hr.
  destruct (sql_query _ w) as [[count|e] w1] eqn:E1; pose proof (query_tables _ _ _ _ E1) as T1;
    cbn [map_err] in Hr; [|injection Hr as <- <-; unfold sound, on; by rewrite T1].
  pose proof (query_ok _ _ _ _ E1) as ->. rewrite history_of_size in Hr.
  assert (sound w1) as Hw1 by (unfold sound, on; by rewrite T1).
  rewrite ior_bind_step in Hr. set (key := uuid_to_string id) in *.
  destruct ((if (10 <=? Z.of_nat (history_size key (tables w)))%Z
             then VaultService.db (delete_oldest_password_history id) else lift (Ok ())) w1)
    as [[u|e] w2] eqn:E2.
  - assert (sound w2 ∧ history_size key (tables w2) < MAX_HISTORY) as [Hw2 Hs2].
    { destruct (Z.leb_spec 10 (Z.of_nat (history_size key (tables w)))).
      - unfold VaultService.db in E2. apply io_map_err_ok in E2. destruct u.
        apply delete_oldest_run in E2 as [? Hlt]; [|done|done]. split; [done|].
        rewrite T1 in Hlt. destruct Hw as [_ Hb]. specialize (Hb key). unfold MAX_HISTORY in *.
        fold key in Hlt. lia.
      - injection E2 as <- <-. rewrite T1. split; [done|]. unfold MAX_HISTORY. lia. }
    apply io_bind_eq in Hr as (ts & w3 & E3 & Hr). pose proof (keeps_timestamp_now _ _ _ E3) as T3.
    unfold VaultService.db, io_map_err in Hr. apply io_bind_eq in Hr as (x & w4 & E4 & [= <- <-]).
    eapply insert_history_run; [done|unfold sound, on; by rewrite T3|by rewrite T3].
  - injection Hr as <- <-.
    destruct (10 <=? _)%Z; [|done].
    apply io_bind_eq in E2 as (x & w3 & E3 & [= _ <-]). by eapply sound_delete_oldest.
Qed.

End invariant.
