(* ===== verification/Password.v ===== *)
(** * Passwords (src/crypto/password.rs, src/crypto/strength.rs)

    The generators and the rating of a password.  The operating system's generator is an
    interface; a shuffle is some permutation. *)

From Stdlib Require Import Ascii.
From S2P Require Import Prelude Text.

(** Byte strings as lists: of a literal, and back. *)
Abbreviation literal := String.list_ascii_of_string.
Abbreviation to_text := String.string_of_list_ascii.

(** [OsRng]: [next_u32], and [SliceRandom::shuffle] with it. *)
Class Rng (W : Type) : Type := {
  next_u32 : io W Z;
  shuffle : list ascii → io W (list ascii);
}.

Class RngLaws (W : Type) `{Rng W} : Prop :=
  shuffle_perm l w l' w' : shuffle l w = (l', w') → l' ≡ₚ l.

(** ** Strength (strength.rs) *)

Module StrengthLevel.
Inductive t : Set := VeryWeak | Weak | Fair | Strong | VeryStrong.
#[global] Instance t_eq_dec : EqDecision t.
Proof. solve_decision. Defined.

Definition color_hex (l : t) : string :=
  match l with
  | VeryWeak => "#f7768e"
  | Weak => "#ff9e64"
  | Fair => "#e0af68"
  | Strong => "#9ece6a"
  | VeryStrong => "#73daca"
  end.
End StrengthLevel.

Record PasswordStrength : Set := mkPasswordStrength {
  ps_level : StrengthLevel.t;
  ps_char_types : Z;
  ps_bar_fill : Z;
}.

Definition SPECIAL_CHARS : string := "!#$*+-=?@^_~".

Definition is_ascii_lowercase (c : Z) : bool := within 97 122 c.
Definition is_ascii_uppercase (c : Z) : bool := within 65 90 c.
Definition is_ascii_digit (c : Z) : bool := within 48 57 c.
Definition is_special (c : Z) : bool := existsb (Z.eqb c) (chars SPECIAL_CHARS).

(** The number of the character classes present. *)
Definition count_types (classes : list bool) : Z := Z.of_nat (length (filter (λ b, b = true) classes)).

Definition rate (len : nat) (char_types : Z) : StrengthLevel.t * Z :=
  if (len <? 8) || (char_types <=? 1)%Z then (StrengthLevel.VeryWeak, 3%Z)
  else if (len <=? 11) && (char_types <=? 2)%Z then (StrengthLevel.Weak, 6%Z)
  else if (len <=? 15) && (char_types =? 3)%Z then (StrengthLevel.Fair, 9%Z)
  else if (char_types =? 4)%Z && (20 <=? len) then (StrengthLevel.VeryStrong, 16%Z)
  else if (char_types =? 4)%Z then (StrengthLevel.Strong, 12%Z)
  else (StrengthLevel.Weak, 6%Z).

Definition evaluate_strength (password : string) : PasswordStrength :=
  let any (P : Z → bool) := existsb P (chars password) in
  let char_types := count_types
    [any is_ascii_lowercase; any is_ascii_uppercase; any is_ascii_digit; any is_special] in
  let '(level, bar_fill) := rate (String.length password) char_types in
  mkPasswordStrength level char_types bar_fill.

(** ** Generators (password.rs) *)

Definition LOWERCASE : list ascii := literal "abcdefghijkmnpqrstuvwxyz".
Definition UPPERCASE : list ascii := literal "ABCDEFGHJKLMNPQRSTUVWXYZ".
Definition DIGITS : list ascii := literal "23456789".
Definition SPECIAL : list ascii := literal "!#$*+-=?@^_~".

Definition full_charset : list ascii := LOWERCASE ++ UPPERCASE ++ DIGITS ++ SPECIAL.

Definition WORDS : list string :=
  ["apple"; "brave"; "cloud"; "dream"; "eagle"; "flame"; "grape"; "heart"; "ivory"; "jewel";
   "kite"; "lemon"; "maple"; "noble"; "ocean"; "pearl"; "quest"; "river"; "stone"; "tiger";
   "ultra"; "vivid"; "whale"; "xenon"; "yacht"; "zebra"; "amber"; "blaze"; "coral"; "delta";
   "ember"; "frost"].

(** Of an ASCII character, as all of [WORDS] are. *)
Definition to_uppercase (c : ascii) : ascii :=
  if is_ascii_lowercase (byte_of c) then ascii_of_byte (byte_of c - 32) else c.

Definition capitalize_word (word : string) : string :=
  match word with
  | EmptyString => EmptyString
  | String first rest => String (to_uppercase first) rest
  end.

Definition out_of_range (lo hi n : nat) : bool := negb ((lo <=? n) && (n <=? hi)).

Section generators.
Context {W : Type} `{Rng W}.

(** An index into [choices], which is not empty where this is called. *)
Definition random_index (n : nat) : io W nat :=
  let* r := next_u32 in
  io_ret (Z.to_nat (r mod Z.of_nat n)).

Definition random_from_slice (choices : list ascii) : io W ascii :=
  let* idx := random_index (length choices) in
  io_ret (default zero (choices !! idx)).

(** [for _ in 0..n { password.push(random_from_slice(choices)) }] *)
Fixpoint draw (n : nat) (choices : list ascii) : io W (list ascii) :=
  match n with
  | O => io_ret []
  | S n =>
      let* c := random_from_slice choices in
      let* rest := draw n choices in
      io_ret (c :: rest)
  end.

Definition generate_random_password (length : nat) : ior W string string :=
  if out_of_range 4 128 length
  then lift (Err "Password length must be between 4 and 128")
  else
    let* password := draw length full_charset in
    lift (Ok (to_text password)).

(** [password.shuffle(..); String::from_utf8(password)] *)
Definition shuffled (password : list ascii) : ior W string string :=
  let* password := shuffle password in
  lift (from_utf8 (to_text password)).

(** The minima are [u8]. *)
Definition generate_random_password_with_policy
    (length min_digits min_special min_lowercase min_uppercase : nat) : ior W string string :=
  if out_of_range 4 128 length
  then lift (Err "Password length must be between 4 and 128")
  else
    let required := min_digits + min_special + min_lowercase + min_uppercase in
    if length <? required
    then lift (Err "Policy requirements exceed password length")
    else
      let* l := draw min_lowercase LOWERCASE in
      let* u := draw min_uppercase UPPERCASE in
      let* d := draw min_digits DIGITS in
      let* s := draw min_special SPECIAL in
      let* rest := draw (length - required) full_charset in
      shuffled (l ++ u ++ d ++ s ++ rest).

(** One character of an enabled class. *)
Definition require (enabled : bool) (choices : list ascii) : io W (list ascii) :=
  if enabled then
    let* c := random_from_slice choices in
    io_ret [c]
  else io_ret [].

Definition enabled_charset (uppercase lowercase digits symbols : bool) : list ascii :=
  (if lowercase then LOWERCASE else []) ++ (if uppercase then UPPERCASE else [])
  ++ (if digits then DIGITS else []) ++ (if symbols then SPECIAL else []).

Definition generate_random_password_with_char_types
    (len : nat) (uppercase lowercase digits symbols : bool) : ior W string string :=
  if out_of_range 4 128 len
  then lift (Err "Password length must be between 4 and 128")
  else
    let* l := require lowercase LOWERCASE in
    let* u := require uppercase UPPERCASE in
    let* d := require digits DIGITS in
    let* s := require symbols SPECIAL in
    let required := l ++ u ++ d ++ s in
    let charset := enabled_charset uppercase lowercase digits symbols in
    if bool_decide (charset = [])
    then lift (Err "At least one character type must be enabled")
    else if len <? length required
    then lift (Err "Policy requirements exceed password length")
    else
      let* rest := draw (len - length required) charset in
      shuffled (required ++ rest).

Fixpoint draw_words (n : nat) (capitalize : bool) : io W (list string) :=
  match n with
  | O => io_ret []
  | S n =>
      let* idx := random_index (length WORDS) in
      let word := default "" (WORDS !! idx) in
      let* rest := draw_words n capitalize in
      io_ret ((if capitalize then capitalize_word word else word) :: rest)
  end.

Definition generate_memorable_password_with_options (word_count : nat) (separator : string)
    (capitalize : bool) : ior W string string :=
  if out_of_range 3 12 word_count
  then lift (Err "Word count must be between 3 and 12")
  else
    let* words := draw_words word_count capitalize in
    lift (Ok (String.concat separator words)).

Definition generate_memorable_password (word_count : nat) : ior W string string :=
  generate_memorable_password_with_options word_count "-" false.

Definition generate_memorable_password_with_separator (word_count : nat) (separator : string)
  : ior W string string :=
  generate_memorable_password_with_options word_count separator false.

Definition generate_pin (length : nat) : ior W string string :=
  if out_of_range 4 16 length
  then lift (Err "PIN length must be between 4 and 16")
  else
    let* pin := draw length DIGITS in
    lift (Ok (to_text pin)).

End generators.

(** ** Strings of ASCII characters *)

Definition is_ascii (c : ascii) : bool := (byte_of c <? 128)%Z.

Lemma all_in (P : ascii → bool) l c : forallb P l = true → c ∈ l → P c = true.
Proof. intros HP Hc. apply list_elem_of_In in Hc. by eapply forallb_forall in HP. Qed.

Lemma of_chars_ascii l :
  forallb is_ascii l = true → of_chars (byte_of <$> l) = to_text l.
Proof.
  induction l as [|c l IH]; [done|]. cbn.
  intros [Hc Hl]%andb_true_iff. unfold encode_char, is_ascii in *. rewrite Hc, IH by done.
  rewrite string_app_cons, string_app_nil. by rewrite ascii_of_byte_of.
Qed.

Lemma ascii_chars l : forallb is_ascii l = true → Forall is_char (byte_of <$> l).
Proof.
  intros Hl. apply Forall_fmap, Forall_forall. intros c Hc. eapply all_in in Hc; [|done].
  unfold is_ascii in Hc. apply Z.ltb_lt in Hc. left. unfold byte_of in *. cbn. lia.
Qed.

Lemma chars_ascii l :
  forallb is_ascii l = true → chars (to_text l) = byte_of <$> l.
Proof. intros Hl. rewrite <- of_chars_ascii by done. by apply chars_of_chars, ascii_chars. Qed.

Lemma from_utf8_ascii l :
  forallb is_ascii l = true → from_utf8 (to_text l) = Ok (to_text l).
Proof. intros Hl. rewrite <- of_chars_ascii by done. by apply from_utf8_of_chars, ascii_chars. Qed.

Lemma string_of_list_length l : String.length (to_text l) = length l.
Proof. induction l as [|c l IH]; cbn; [done|]. by rewrite IH. Qed.

(** ** Properties *)

Section properties.
Context {W : Type} `{RngLaws W}.

Lemma random_index_lt n w i w' : n ≠ 0 → random_index n w = (i, w') → i < n.
Proof.
  unfold random_index, io_bind, io_ret. intros Hn. destruct (next_u32 w) as [r w1].
  intros [= <- _]. pose proof (Z.mod_pos_bound r (Z.of_nat n)). lia.
Qed.

Lemma random_from_slice_in choices w c w' :
  choices ≠ [] → random_from_slice choices w = (c, w') → c ∈ choices.
Proof.
  intros Hne (i & w1 & E & Hr)%io_bind_eq. injection Hr as <- _.
  apply random_index_lt in E; [|by destruct choices].
  destruct (lookup_lt_is_Some_2 choices i E) as [c Hc]. rewrite Hc.
  by eapply list_elem_of_lookup_2.
Qed.

Lemma draw_spec n choices : ∀ w l w',
  choices ≠ [] → draw n choices w = (l, w') → length l = n ∧ l ⊆ choices.
Proof.
  induction n as [|n IH]; intros w l w' Hne; cbn [draw].
  - intros [= <- _]. split; [done|]. apply list_subseteq_nil.
  - intros (c & w1 & E1 & Hr)%io_bind_eq. apply io_bind_eq in Hr as (l' & w2 & E2 & Hr).
    injection Hr as <- _. apply random_from_slice_in in E1; [|done].
    destruct (IH _ _ _ Hne E2) as [<- Hl]. split; [done|]. intros x [->|Hx]%elem_of_cons; auto.
Qed.

Lemma require_spec b choices w l w' :
  choices ≠ [] → require b choices w = (l, w') →
  length l = Nat.b2n b ∧ l ⊆ choices ∧ l ⊆ (if b then choices else []).
Proof.
  intros Hne. destruct b; cbn [require].
  - intros (c & w1 & E1 & Hr)%io_bind_eq. injection Hr as <- _.
    apply random_from_slice_in in E1; [|done]. split; [done|].
    split; intros x [->|Hx]%elem_of_cons; try done; by apply elem_of_nil in Hx.
  - intros [= <- _]. split_and!; try apply list_subseteq_nil. done.
Qed.

(** How many characters of [l] are in [class]. *)
Definition among (class l : list ascii) : nat := length (filter (λ c, c ∈ class) l).

Lemma among_app class l k : among class (l ++ k) = among class l + among class k.
Proof. unfold among. by rewrite filter_app, length_app. Qed.

Lemma among_all class l : l ⊆ class → among class l = length l.
Proof.
  unfold among. induction l as [|c l IH]; [done|]. intros Hl. rewrite filter_cons_True.
  - cbn. f_equal. apply IH. intros x Hx. apply Hl. by right.
  - apply Hl. by left.
Qed.

Lemma among_perm class l k : l ≡ₚ k → among class l = among class k.
Proof. intros Hlk. unfold among. by rewrite Hlk. Qed.

Lemma shuffled_run l w r w' :
  forallb is_ascii l = true → shuffled l w = (r, w') →
  ∃ l', l' ≡ₚ l ∧ r = Ok (to_text l').
Proof.
  intros Hl (l' & w1 & E & Hr)%io_bind_eq. injection Hr as <- _. exists l'.
  apply shuffle_perm in E. split; [done|]. apply from_utf8_ascii.
  apply forallb_forall. intros c Hc. apply (all_in is_ascii l); [done|].
  by rewrite <- E, list_elem_of_In.
Qed.

Lemma full_charset_ascii : forallb is_ascii full_charset = true.
Proof. reflexivity. Qed.

Lemma ascii_subset l : l ⊆ full_charset → forallb is_ascii l = true.
Proof.
  intros Hl. apply forallb_forall. intros c Hc. apply (all_in is_ascii full_charset); [done|].
  apply Hl, list_elem_of_In, Hc.
Qed.

Lemma classes_in_charset :
  LOWERCASE ⊆ full_charset ∧ UPPERCASE ⊆ full_charset ∧ DIGITS ⊆ full_charset ∧
  SPECIAL ⊆ full_charset.
Proof. unfold full_charset. split_and!; intros c Hc; rewrite !elem_of_app; tauto. Qed.

(** The policy generator keeps its policy.  Outside 4 to 128 characters, or when the
    minima add up to more than the length, it fails with the error of that case; otherwise it
    returns a password of exactly that length over the character set, with at least as many
    digits, special characters, lower-case and upper-case letters as were asked for. *)
Lemma policy_password len d s l u w r w' :
  generate_random_password_with_policy len d s l u w = (r, w') →
  if out_of_range 4 128 len then r = Err "Password length must be between 4 and 128"
  else if len <? d + s + l + u then r = Err "Policy requirements exceed password length"
  else ∃ cs, r = Ok (to_text cs) ∧ length cs = len ∧ cs ⊆ full_charset ∧
    d ≤ among DIGITS cs ∧ s ≤ among SPECIAL cs ∧ l ≤ among LOWERCASE cs ∧ u ≤ among UPPERCASE cs.
Proof.
  unfold generate_random_password_with_policy. destruct (out_of_range 4 128 len).
  { by intros [= <- _]. }
  destruct (Nat.ltb_spec len (d + s + l + u)) as [_|Hlen]. { by intros [= <- _]. }
  intros (cl & w1 & E1 & Hr)%io_bind_eq. apply io_bind_eq in Hr as (cu & w2 & E2 & Hr).
  apply io_bind_eq in Hr as (cd & w3 & E3 & Hr). apply io_bind_eq in Hr as (cs & w4 & E4 & Hr).
  apply io_bind_eq in Hr as (rest & w5 & E5 & Hr).
  apply draw_spec in E1 as [L1 S1]; [|done]. apply draw_spec in E2 as [L2 S2]; [|done].
  apply draw_spec in E3 as [L3 S3]; [|done]. apply draw_spec in E4 as [L4 S4]; [|done].
  apply draw_spec in E5 as [L5 S5]; [|done].
  destruct classes_in_charset as (Hl & Hu & Hd & Hs).
  assert (cl ++ cu ++ cd ++ cs ++ rest ⊆ full_charset) as Hsub.
  { intros c. rewrite !elem_of_app. intros [?|[?|[?|[?|?]]]]; auto. }
  apply shuffled_run in Hr as (k & Hk & ->); [|by apply ascii_subset].
  exists k. split; [done|]. split; [rewrite Hk, !length_app; lia|].
  split; [by intros c Hc; apply Hsub; rewrite <- Hk|].
  rewrite !(among_perm _ _ _ Hk), !among_app, (among_all DIGITS cd), (among_all SPECIAL cs),
    (among_all LOWERCASE cl), (among_all UPPERCASE cu) by done. lia.
Qed.

(** *** The rating of a generated password *)

Definition rated (len : nat) (char_types : Z) : PasswordStrength :=
  let '(level, bar_fill) := rate len char_types in mkPasswordStrength level char_types bar_fill.

Lemma existsb_is {A} (P : A → bool) l b :
  (b = true → ∃ a, a ∈ l ∧ P a = true) → (∀ a, a ∈ l → P a = true → b = true) → existsb P l = b.
Proof.
  intros H1 H2. apply eq_true_iff_eq. rewrite existsb_exists. split.
  - intros (a & Ha & HP). apply (H2 a); [by apply list_elem_of_In|done].
  - intros (a & Ha & HP)%H1. exists a. by rewrite <- list_elem_of_In.
Qed.

Lemma any_in_class (P : Z → bool) class part cs b charset :
  forallb is_ascii cs = true →
  forallb (λ c, P (byte_of c)) class = true → part ⊆ class → length part = Nat.b2n b →
  part ⊆ cs → cs ⊆ charset → forallb (λ c, implb (P (byte_of c)) b) charset = true →
  existsb P (chars (to_text cs)) = b.
Proof.
  intros Ha HP Hpart Hlen Hin Hcs Hch. rewrite chars_ascii by done. apply existsb_is.
  - intros ->. destruct part as [|c part]; [done|]. exists (byte_of c). split.
    + apply list_elem_of_fmap_2, Hin. by left.
    + apply (all_in (λ c, P (byte_of c)) class); [done|]. apply Hpart. by left.
  - intros z (c & -> & Hc)%list_elem_of_fmap HPc.
    pose proof (all_in _ _ c Hch (Hcs _ Hc)) as Hb. cbn in Hb. by rewrite HPc in Hb.
Qed.

Lemma enabled_subset u l d s : enabled_charset u l d s ⊆ full_charset.
Proof.
  destruct classes_in_charset as (Hl & Hu & Hd & Hs). unfold enabled_charset.
  intros c. rewrite !elem_of_app. intros [Hc|[Hc|[Hc|Hc]]];
    repeat case_match; try (by apply elem_of_nil in Hc); auto.
Qed.

Lemma enabled_nil u l d s : enabled_charset u l d s = [] ↔ u || l || d || s = false.
Proof. destruct u, l, d, s; cbn; split; done. Qed.

(** The generator by character types uses every enabled type and nothing else.  Outside 4
    to 128 characters, or with no type enabled, it fails; otherwise it returns a password of
    that length over the enabled characters alone, and rating it finds exactly the enabled
    types. *)
Lemma char_types_password len u l d s w r w' :
  generate_random_password_with_char_types len u l d s w = (r, w') →
  if out_of_range 4 128 len then r = Err "Password length must be between 4 and 128"
  else if u || l || d || s then
    ∃ cs, r = Ok (to_text cs) ∧ length cs = len ∧ cs ⊆ enabled_charset u l d s ∧
      evaluate_strength (to_text cs) = rated len (count_types [l; u; d; s])
  else r = Err "At least one character type must be enabled".
Proof.
  unfold generate_random_password_with_char_types.
  destruct (out_of_range 4 128 len) eqn:Hlen. { by intros [= <- _]. }
  assert (4 ≤ len) as H4.
  { unfold out_of_range in Hlen. destruct (Nat.leb_spec 4 len); [done|discriminate]. }
  intros (cl & w1 & E1 & Hr)%io_bind_eq. apply io_bind_eq in Hr as (cu & w2 & E2 & Hr).
  apply io_bind_eq in Hr as (cd & w3 & E3 & Hr). apply io_bind_eq in Hr as (cs & w4 & E4 & Hr).
  apply require_spec in E1 as (L1 & T1 & S1); [|done]. apply require_spec in E2 as (L2 & T2 & S2); [|done].
  apply require_spec in E3 as (L3 & T3 & S3); [|done]. apply require_spec in E4 as (L4 & T4 & S4); [|done].
  case_bool_decide as Hnil.
  { rewrite (proj1 (enabled_nil u l d s) Hnil). by injection Hr as <- _. }
  destruct (u || l || d || s) eqn:Hsome; [|by rewrite <- enabled_nil in Hsome].
  assert (length (cl ++ cu ++ cd ++ cs) ≤ 4) as Hreq.
  { rewrite !length_app, L1, L2, L3, L4. destruct u, l, d, s; cbn; lia. }
  destruct (Nat.ltb_spec len (length (cl ++ cu ++ cd ++ cs))) as [?|_]; [lia|].
  apply io_bind_eq in Hr as (rest & w5 & E5 & Hr). apply draw_spec in E5 as [L5 S5]; [|done].
  assert ((cl ++ cu ++ cd ++ cs) ++ rest ⊆ enabled_charset u l d s) as Hsub.
  { intros c. rewrite !elem_of_app.
    intros [Hc|Hc]; [|auto]. unfold enabled_charset. rewrite !elem_of_app.
    destruct Hc as [?|[?|[?|?]]]; auto. }
  apply shuffled_run in Hr as (k & Hk & ->);
    [|apply ascii_subset; intros c Hc; by eapply enabled_subset, Hsub].
  exists k. split; [done|].
  assert (length k = len) as Hlk by (rewrite Hk, length_app; lia). split; [done|].
  assert (k ⊆ enabled_charset u l d s) as Hk' by (intros c Hc; apply Hsub; by rewrite <- Hk).
  split; [done|].
  assert (forallb is_ascii k = true) as Ha
    by (apply ascii_subset; intros c Hc; by eapply enabled_subset, Hk').
  unfold evaluate_strength, rated. rewrite string_of_list_length, Hlk.
  assert (cl ⊆ k ∧ cu ⊆ k ∧ cd ⊆ k ∧ cs ⊆ k) as (K1 & K2 & K3 & K4).
  { split_and!; intros c Hc; rewrite Hk, !elem_of_app; tauto. }
  rewrite (any_in_class is_ascii_lowercase LOWERCASE cl k l _ Ha eq_refl T1 L1 K1 Hk'),
    (any_in_class is_ascii_uppercase UPPERCASE cu k u _ Ha eq_refl T2 L2 K2 Hk'),
    (any_in_class is_ascii_digit DIGITS cd k d _ Ha eq_refl T3 L3 K3 Hk'),
    (any_in_class is_special SPECIAL cs k s _ Ha eq_refl T4 L4 K4 Hk') by (by destruct u, l, d, s).
  done.
Qed.

End properties.
