(* ===== verification/Files.v ===== *)
(** * Paths and files

    [std::path] on the text of a Unix path, and the calls of [std::fs] that the import and
    the export make besides those of [Fs].  They belong to the standard library. *)

From Stdlib Require Import Ascii.
From S2P Require Import Prelude Env Checkpoint.

(** ** Paths *)

(** A path from behind without its trailing slashes and [.] components. *)
Fixpoint drop_trailing (l : list ascii) : list ascii :=
  match l with
  | c :: rest =>
      if bool_decide (c = "/"%char) then drop_trailing rest
      else if bool_decide (c = "."%char) && bool_decide (head rest = Some "/"%char)
      then drop_trailing rest
      else l
  | [] => []
  end.

(** The last component, and what is in front of it. *)
Fixpoint last_component (l : list ascii) : list ascii * list ascii :=
  match l with
  | c :: rest =>
      if bool_decide (c = "/"%char) then ([], l)
      else let '(name, prefix) := last_component rest in (c :: name, prefix)
  | [] => ([], [])
  end.

Definition reversed (s : string) : list ascii := rev (String.list_ascii_of_string s).
Definition text_of (l : list ascii) : string := String.string_of_list_ascii (rev l).

Module Path.

Definition split (p : string) : string * string :=
  let '(name, prefix) := last_component (drop_trailing (reversed p)) in
  (text_of prefix, text_of name).

Definition is_normal (name : string) : bool :=
  negb (bool_decide (name ∈ [""; "."; ".."])).

(** [Path::file_name] *)
Definition file_name (p : string) : option string :=
  let name := (split p).2 in
  if is_normal name then Some name else None.

(** [Path::parent], with the file system's root as the parent of its entries. *)
Definition parent (p : string) : option string :=
  let '(prefix, name) := split p in
  if bool_decide (name = "") then None
  else
    let dir := text_of (drop_trailing (reversed prefix)) in
    Some (if bool_decide (dir = "") && negb (bool_decide (prefix = "")) then "/" else dir).

(** The last dot of a file name, unless it begins the name: what is before it, after it. *)
Fixpoint split_dot (l : list ascii) : option (list ascii * list ascii) :=
  match l with
  | c :: rest =>
      if bool_decide (c = "."%char) then
        match rest with [] => None | _ => Some ([], rest) end
      else (λ '(after, before), (c :: after, before)) <$> split_dot rest
  | [] => None
  end.

Definition stem_and_extension (name : string) : string * option string :=
  match split_dot (reversed name) with
  | Some (after, before) => (text_of before, Some (text_of after))
  | None => (name, None)
  end.

(** [Path::extension] *)
Definition extension (p : string) : option string :=
  file_name p ≫= λ name, (stem_and_extension name).2.

(** [Path::with_extension] *)
Definition with_extension (p ext : string) : string :=
  match file_name p with
  | Some name =>
      (split p).1 +:+ (stem_and_extension name).1
        +:+ (if bool_decide (ext = "") then "" else "." +:+ ext)
  | None => p
  end.

(** [Path::join] of a relative path *)
Definition join (p name : string) : string :=
  match head (reversed p) with
  | None => name
  | Some c => if bool_decide (c = "/"%char) then p +:+ name else p +:+ "/" +:+ name
  end.

(** [Path::with_file_name] *)
Definition with_file_name (p name : string) : string :=
  match file_name p, parent p with
  | Some _, Some dir => join dir name
  | _, _ => join p name
  end.

End Path.

Example extension_ok :
  Path.extension "/tmp/a.b/backup.tar.okb/" = Some "okb" ∧ Path.extension "/tmp/.okb" = None ∧
  Path.with_extension "/tmp/b.okb" "okb.tmp" = "/tmp/b.okb.tmp" ∧ Path.parent "/b" = Some "/" ∧
  Path.parent "b" = Some "" ∧ Path.parent "a//b/." = Some "a" ∧ Path.parent "/" = None.
Proof. by vm_compute. Qed.

(** ** Files

    The errors of [fs_open_read] and [fs_metadata_len] carry whether the file was found. *)
Class FsBytes (W : Type) : Type := {
  fs_read : string → ior W bytes string;
  fs_metadata_len : string → ior W Z string;
  fs_is_dir : string → io W bool;
}.

Class FsBytesLaws (W : Type) `{FsLaws W} `{FsBytes W} : Prop := {
  fs_read_bytes_files p w r w' : fs_read p w = (r, w') → fs_files w' = fs_files w;
  fs_read_bytes_ok p w b w' : fs_read p w = (Ok b, w') → fs_files w !! p = Some b;
  fs_metadata_files p w r w' : fs_metadata_len p w = (r, w') → fs_files w' = fs_files w;
  fs_is_dir_files p w b w' : fs_is_dir p w = (b, w') → fs_files w' = fs_files w;
}.

(** ** Lemmas *)

Lemma text_of_reversed s : text_of (reversed s) = s.
Proof.
  unfold text_of, reversed. rewrite rev_involutive. apply String.string_of_list_ascii_of_string.
Qed.
