(* ===== verification/Formats.v ===== *)
(** * Import formats (src/services/import_export/types.rs, parser.rs, mapping.rs,
    validation.rs, duplicate.rs, src/errors/mapping/import_export.rs,
    src/commands/types.rs)

    What every import format shares: the parsed item, the mapping of its fields, the
    validation rules, the detection of duplicates, and the errors. *)

From Stdlib Require Import Ascii.
From S2P Require Import Prelude Text Errors Env Types Storage Payload Pipeline Queries.

(** ** Errors (src/errors/mapping/import_export.rs) *)

Module ImportExportError.

Inductive t : Set :=
| FileNotFound (path : string)
| FileTooLarge (path : string) (size max : Z)
| FileReadError (path reason : string)
| FileWriteError (path reason : string)
| DecryptionFailed (message : string)
| InvalidPassword
| PasswordRequired
| ParseError (format reason : string)
| InvalidFormat (message : string)
| UnsupportedFormat (message : string)
| ValidationError (field reason : string)
| MissingRequiredField (field : string)
| InvalidFieldType (field expected actual : string)
| MappingError (source_field reason : string)
| DuplicateRecord (name reason : string)
| EncryptionFailed (message : string)
| KeyDerivationFailed (message : string)
| SessionNotFound (id : Uuid)
| InvalidSessionStatus (expected actual : string)
| SessionCancelled
| VaultError (message : string)
| InternalError (message : string)
| Timeout.

Definition display `{Libs} (e : t) : string :=
  match e with
  | FileNotFound p => "file not found: " +:+ p
  | FileTooLarge p size max =>
      "file too large: " +:+ p +:+ " (" +:+ pretty size +:+ " bytes, max " +:+ pretty max +:+ ")"
  | FileReadError p r => "failed to read file " +:+ p +:+ ": " +:+ r
  | FileWriteError p r => "failed to write file " +:+ p +:+ ": " +:+ r
  | DecryptionFailed m => "decryption failed: " +:+ m
  | InvalidPassword => "invalid password"
  | PasswordRequired => "password required to decrypt this file"
  | ParseError f r => "failed to parse " +:+ f +:+ ": " +:+ r
  | InvalidFormat m => "invalid format: " +:+ m
  | UnsupportedFormat m => "unsupported format: " +:+ m
  | ValidationError f r => "validation error on field '" +:+ f +:+ "': " +:+ r
  | MissingRequiredField f => "missing required field: " +:+ f
  | InvalidFieldType f e a =>
      "invalid type for field '" +:+ f +:+ "': expected " +:+ e +:+ ", got " +:+ a
  | MappingError f r => "mapping error on field '" +:+ f +:+ "': " +:+ r
  | DuplicateRecord n r => "duplicate record '" +:+ n +:+ "': " +:+ r
  | EncryptionFailed m => "encryption failed: " +:+ m
  | KeyDerivationFailed m => "key derivation failed: " +:+ m
  | SessionNotFound id => "session not found: " +:+ uuid_to_string id
  | InvalidSessionStatus e a => "invalid session status: expected " +:+ e +:+ ", got " +:+ a
  | SessionCancelled => "session was cancelled"
  | VaultError m => "vault error: " +:+ m
  | InternalError m => "internal error: " +:+ m
  | Timeout => "operation timed out"
  end.

Definition to_error_code (e : t) : ErrorCode.t :=
  match e with
  | FileNotFound _ | FileTooLarge _ _ _ | FileReadError _ _ => ErrorCode.ImportFileUnreadable
  | ParseError _ _ | InvalidFormat _ | UnsupportedFormat _ => ErrorCode.ImportFileFormatInvalid
  | PasswordRequired => ErrorCode.ImportPasswordRequired
  | InvalidPassword | DecryptionFailed _ => ErrorCode.ImportPasswordIncorrect
  | MissingRequiredField _ | InvalidFieldType _ _ _ | ValidationError _ _ | MappingError _ _ =>
      ErrorCode.ImportColumnMappingInvalid
  | DuplicateRecord _ _ | SessionNotFound _ | InvalidSessionStatus _ _ | SessionCancelled =>
      ErrorCode.ImportPartialFailure
  | FileWriteError _ _ | EncryptionFailed _ | KeyDerivationFailed _ =>
      ErrorCode.ExportWriteFailed
  | InternalError _ | Timeout | VaultError _ => ErrorCode.ExportPathInvalid
  end.

Definition to_error_context (e : t) : ErrorContext :=
  match e with
  | FileNotFound p | FileTooLarge p _ _ | FileReadError p _ | FileWriteError p _ =>
      ErrorContext.file_path p ErrorContext.new
  | MissingRequiredField f | InvalidFieldType f _ _ | ValidationError f _ | MappingError f _ =>
      ErrorContext.field_name f ErrorContext.new
  | DuplicateRecord n _ => ErrorContext.record_name n ErrorContext.new
  | _ => ErrorContext.new
  end.

End ImportExportError.

#[export] Instance ImportExportError_service `{Libs} : ServiceError ImportExportError.t := {
  to_error_code := ImportExportError.to_error_code;
  to_error_context := ImportExportError.to_error_context;
  to_fallback_message := ImportExportError.display;
}.

(** ** Sources and items (src/commands/types.rs, parser.rs, types.rs) *)

Module ImportSource.

Inductive t : Set :=
| KeePass
| OnePassword1pux
| OnePasswordOpvault
| Bitwarden
| Csv
| OpenKeyringBackup.

#[global] Instance t_eq_dec : EqDecision t.
Proof. solve_decision. Defined.

(** [format!("{:?}", source)] *)
Definition debug (s : t) : string :=
  match s with
  | KeePass => "KeePass"
  | OnePassword1pux => "OnePassword1pux"
  | OnePasswordOpvault => "OnePasswordOpvault"
  | Bitwarden => "Bitwarden"
  | Csv => "Csv"
  | OpenKeyringBackup => "OpenKeyringBackup"
  end.

Definition code (s : t) : nat :=
  match s with
  | KeePass => 0 | OnePassword1pux => 1 | OnePasswordOpvault => 2 | Bitwarden => 3 | Csv => 4
  | OpenKeyringBackup => 5
  end.

Definition of_code (n : nat) : t :=
  nth n [KeePass; OnePassword1pux; OnePasswordOpvault; Bitwarden; Csv; OpenKeyringBackup] KeePass.

#[global] Instance t_countable : Countable t.
Proof. apply (inj_countable' code of_code). by intros []. Defined.

End ImportSource.

Record CsvColumnMapping : Set := mkCsvColumnMapping {
  cc_name_column : string;
  cc_username_column : string;
  cc_password_column : string;
  cc_url_column : string;
  cc_notes_column : string;
  cc_tags_column : option string;
  cc_skip_header : bool;
}.

(** A reason with the name of the item: [ReviewItem] and [FailedItem]. *)
Record ReviewItem : Set := mkReviewItem {
  ri_name : string;
  ri_reason : string;
}.

Record FailedItem : Set := mkFailedItem {
  fi_name : string;
  fi_reason : string;
}.

Record ImportPreview : Set := mkImportPreview {
  pv_importable : nat;
  pv_needs_review : nat;
  pv_failed : nat;
  pv_review_items : list ReviewItem;
  pv_failed_items : list FailedItem;
  pv_csv_headers : list string;
}.

(** What a parser makes of one entry: a flat map of fields. *)
Record ParsedItem : Set := mkParsedItem {
  pi_source_id : string;
  pi_fields : gmap string string;
  pi_tags : list string;
}.

Record MappedRecord : Set := mkMappedRecord {
  mr_id : Uuid;
  mr_credential_type : CredentialType.t;
  mr_fields : gmap string string;
  mr_tags : list string;
  mr_is_favorite : bool;
  mr_expires_at : option Instant;
  mr_source_item_id : string;
  mr_notes : option string;
  mr_is_duplicate : bool;
}.

(** [fields.get(key).cloned().unwrap_or_default()] *)
Definition field (key : string) (fields : gmap string string) : string :=
  default "" (fields !! key).

(** ** Duplicates (duplicate.rs) *)

Record ExistingRecordKey : Set := mkExistingRecordKey {
  ek_name : string;
  ek_credential_type : string;
  ek_core_field : string;
}.

#[export] Instance ExistingRecordKey_eq_dec : EqDecision ExistingRecordKey.
Proof. solve_decision. Defined.

#[export] Instance ExistingRecordKey_countable : Countable ExistingRecordKey.
Proof.
  apply (inj_countable' (λ k, (ek_name k, ek_credential_type k, ek_core_field k))
           (λ '(n, c, f), mkExistingRecordKey n c f)).
  by intros [].
Defined.

Section duplicates.
Context `{Lowercase}.

Definition core_field_for_type (cred_type : string) (fields : gmap string string) : string :=
  let value :=
    if bool_decide (cred_type = "api") then fields !! "app_id"
    else if bool_decide (cred_type = "ssh") then fields !! "public_key"
    else fields !! "username" in
  default "" (to_lowercase <$> value).

Definition item_to_key (item : ParsedItem) : ExistingRecordKey :=
  let name := default "" (to_lowercase <$> pi_fields item !! "name") in
  let cred_type := default "" (to_lowercase <$> pi_fields item !! "credential_type") in
  mkExistingRecordKey name cred_type (core_field_for_type cred_type (pi_fields item)).

Definition detect_duplicates (items : list ParsedItem) (existing_keys : gset ExistingRecordKey)
  : list bool :=
  (λ item, bool_decide (item_to_key item ∈ existing_keys)) <$> items.

Definition extract_keys (items : list ParsedItem) : list ExistingRecordKey :=
  item_to_key <$> items.

End duplicates.

(** ** Field mapping (mapping.rs) *)

Module TargetField.

Inductive t : Set :=
| Name | Username | Password | AppId | SecretKey | PublicKey | PrivateKey | Passphrase
| Url | Notes | Tags | ExpiresAt | CredentialType.

#[global] Instance t_eq_dec : EqDecision t.
Proof. solve_decision. Defined.

(** [field_key] of validation.rs. *)
Definition field_key (f : t) : string :=
  match f with
  | Name => "name"
  | Username => "username"
  | Password => "password"
  | AppId => "app_id"
  | SecretKey => "secret_key"
  | PublicKey => "public_key"
  | PrivateKey => "private_key"
  | Passphrase => "passphrase"
  | Url => "url"
  | Notes => "notes"
  | Tags => "tags"
  | ExpiresAt => "expires_at"
  | CredentialType => "credential_type"
  end.

Definition code (f : t) : nat :=
  match f with
  | Name => 0 | Username => 1 | Password => 2 | AppId => 3 | SecretKey => 4 | PublicKey => 5
  | PrivateKey => 6 | Passphrase => 7 | Url => 8 | Notes => 9 | Tags => 10 | ExpiresAt => 11
  | CredentialType => 12
  end.

Definition of_code (n : nat) : t :=
  nth n [Name; Username; Password; AppId; SecretKey; PublicKey; PrivateKey; Passphrase; Url;
         Notes; Tags; ExpiresAt; CredentialType] Name.

#[global] Instance t_countable : Countable t.
Proof. apply (inj_countable' code of_code). by intros []. Defined.

End TargetField.

Module FieldTransform.
Inductive t : Set :=
| Trim
| Lowercase
| Uppercase
| DateTimeFormat (format : string)
| Base64Decode.
End FieldTransform.

Record FieldMapping : Set := mkFieldMapping {
  fm_source_field : string;
  fm_target_field : TargetField.t;
  fm_required : bool;
  fm_default_value : option string;
  fm_transform : option FieldTransform.t;
}.

Record TypeMapping : Set := mkTypeMapping {
  tm_source_type : string;
  tm_target_type : CredentialType.t;
  tm_field_overrides : list FieldMapping;
}.

Record FormatMapping : Set := mkFormatMapping {
  fo_source_type : ImportSource.t;
  fo_field_mappings : list FieldMapping;
  fo_type_mappings : list TypeMapping;
}.

(** A mapping without default and transformation. *)
Definition plain (source : string) (target : TargetField.t) (required : bool) : FieldMapping :=
  mkFieldMapping source target required None None.

Definition keepass_mapping : FormatMapping :=
  mkFormatMapping ImportSource.KeePass
    [plain "Title" TargetField.Name true; plain "UserName" TargetField.Username true;
     plain "Password" TargetField.Password true; plain "URL" TargetField.Url false;
     plain "Notes" TargetField.Notes false; plain "Tags" TargetField.Tags false] [].

Definition onepassword_1pux_mapping : FormatMapping :=
  mkFormatMapping ImportSource.OnePassword1pux
    [plain "title" TargetField.Name true; plain "login.username" TargetField.Username true;
     plain "login.password" TargetField.Password true; plain "login.url" TargetField.Url false;
     plain "notesPlain" TargetField.Notes false; plain "tags" TargetField.Tags false] [].

Definition onepassword_opvault_mapping : FormatMapping :=
  mkFormatMapping ImportSource.OnePasswordOpvault
    [plain "overview.title" TargetField.Name true;
     plain "login.username" TargetField.Username true;
     plain "login.password" TargetField.Password true; plain "login.url" TargetField.Url false;
     plain "notesPlain" TargetField.Notes false; plain "sections" TargetField.Notes false] [].

Definition bitwarden_mapping : FormatMapping :=
  mkFormatMapping ImportSource.Bitwarden
    [plain "name" TargetField.Name true; plain "login.username" TargetField.Username true;
     plain "login.password" TargetField.Password true; plain "login.uri" TargetField.Url false;
     plain "notes" TargetField.Notes false; plain "fields" TargetField.Notes false] [].

Definition csv_mapping (column_mapping : CsvColumnMapping) : FormatMapping :=
  mkFormatMapping ImportSource.Csv
    ([plain (cc_name_column column_mapping) TargetField.Name true;
      plain (cc_username_column column_mapping) TargetField.Username true;
      plain (cc_password_column column_mapping) TargetField.Password true;
      plain (cc_url_column column_mapping) TargetField.Url false;
      plain (cc_notes_column column_mapping) TargetField.Notes false]
     ++ match cc_tags_column column_mapping with
        | Some tags_col => [plain tags_col TargetField.Tags false]
        | None => []
        end) [].

Definition okb_mapping : FormatMapping :=
  mkFormatMapping ImportSource.OpenKeyringBackup
    [plain "name" TargetField.Name true; plain "username" TargetField.Username false;
     plain "password" TargetField.Password false; plain "url" TargetField.Url false;
     plain "notes" TargetField.Notes false; plain "tags" TargetField.Tags false;
     plain "credential_type" TargetField.CredentialType false]
    [mkTypeMapping "login" CredentialType.Login []; mkTypeMapping "api" CredentialType.Api [];
     mkTypeMapping "ssh" CredentialType.Ssh []].

Definition default_columns : CsvColumnMapping :=
  mkCsvColumnMapping "name" "username" "password" "url" "notes" None true.

Definition get_default_mapping (source : ImportSource.t) : FormatMapping :=
  match source with
  | ImportSource.KeePass => keepass_mapping
  | ImportSource.OnePassword1pux => onepassword_1pux_mapping
  | ImportSource.OnePasswordOpvault => onepassword_opvault_mapping
  | ImportSource.Bitwarden => bitwarden_mapping
  | ImportSource.Csv => csv_mapping default_columns
  | ImportSource.OpenKeyringBackup => okb_mapping
  end.

Definition has_key (key : string) (fields : gmap string string) : bool :=
  bool_decide (is_Some (fields !! key)).

Definition heuristic_type (fields : gmap string string) : CredentialType.t :=
  let has key := has_key key fields in
  if has "username" && has "password" then CredentialType.Login
  else if has "app_id" && has "secret_key" then CredentialType.Api
  else if has "public_key" && has "private_key" then CredentialType.Ssh
  else CredentialType.Login.

Definition infer_credential_type (fields : gmap string string) : CredentialType.t :=
  match fields !! "credential_type" with
  | Some type_str =>
      match CredentialType.from_db_str type_str with
      | Ok cred_type => cred_type
      | Err _ => heuristic_type fields
      end
  | None => heuristic_type fields
  end.

(** ** Transformations

    [Uppercase] depends on the tables of Unicode; [Chrono] parses and prints a time
    without a zone by a format of chrono, and makes one from seconds since 1970. *)

Class Uppercase : Type := to_uppercase : string → string.

Class Chrono : Type := {
  naive_parse : string → string → option Z;
  naive_format : string → Z → string;
  naive_from_timestamp : Z → option Z;
}.

Fixpoint decimal (acc : Z) (s : string) : option Z :=
  match s with
  | EmptyString => Some acc
  | String c s =>
      if within 48 57 (byte_of c) then decimal (10 * acc + (byte_of c - 48)) s else None
  end.

Definition in_i64 (z : Z) : bool := within (- 2 ^ 63) (2 ^ 63 - 1) z.

(** [s.parse::<i64>().ok()]: a sign and at least one digit. *)
Definition parse_i64 (s : string) : option Z :=
  let number s := if bool_decide (s = "") then None else decimal 0 s in
  let value :=
    match s with
    | String c rest =>
        if bool_decide (c = "-"%char) then Z.opp <$> number rest
        else if bool_decide (c = "+"%char) then number rest
        else number s
    | EmptyString => None
    end in
  value ≫= λ z, if in_i64 z then Some z else None.

Definition parse_datetime `{Chrono} (value : string) : option Z :=
  match naive_parse value "%Y-%m-%dT%H:%M:%S" with
  | Some dt => Some dt
  | None => naive_parse value "%Y-%m-%d %H:%M:%S"
  end.

Section mapping.
Context {W : Type} `{Libs} `{Runtime} `{Lowercase} `{Uppercase} `{Chrono} `{System W}.

Definition apply_transform (value : string) (transform : FieldTransform.t) : string :=
  match transform with
  | FieldTransform.Trim => trim value
  | FieldTransform.Lowercase => to_lowercase value
  | FieldTransform.Uppercase => to_uppercase value
  | FieldTransform.DateTimeFormat fmt =>
      match parse_datetime value with
      | Some dt => naive_format fmt dt
      | None =>
          match parse_i64 value ≫= naive_from_timestamp with
          | Some dt => naive_format fmt dt
          | None => value
          end
      end
  | FieldTransform.Base64Decode =>
      default value
        (ok (base64_decode value) ≫= λ bytes, ok (from_utf8 bytes))
  end.

Definition apply_field_mapping (fields : gmap string string) (mapping : FormatMapping)
  : gmap TargetField.t string :=
  foldl (λ result fm,
    match fields !! fm_source_field fm with
    | Some value =>
        let transformed :=
          match fm_transform fm with Some t => apply_transform value t | None => value end in
        <[fm_target_field fm := transformed]> result
    | None =>
        match fm_default_value fm with
        | Some d => <[fm_target_field fm := d]> result
        | None => result
        end
    end) ∅ (fo_field_mappings mapping).

Definition newline : string := String "010"%char "".

(** A line at the end of a text. *)
Definition append_line (text line : string) : string :=
  (if bool_decide (text = "") then "" else text +:+ newline) +:+ line.

(** The fields without a mapping, in the order of the map, after the mapped notes. *)
Definition append_field (notes : string) (e : string * string) : string :=
  append_line notes ("Field: " +:+ e.1 +:+ " = " +:+ e.2).

Definition unmapped (mapping : FormatMapping) (e : string * string) : Prop :=
  (e.1 ∉ (fm_source_field <$> fo_field_mappings mapping)) ∧ e.2 ≠ "".

#[global] Instance unmapped_dec mapping e : Decision (unmapped mapping e).
Proof. unfold unmapped. apply _. Defined.

Definition collected_notes (item : ParsedItem) (mapping : FormatMapping) : string :=
  let mapped := apply_field_mapping (pi_fields item) mapping in
  foldl append_field (default "" (mapped !! TargetField.Notes))
    (filter (unmapped mapping) (hash_order (pi_fields item))).

Definition map_parsed_item (item : ParsedItem) (source : ImportSource.t) : io W MappedRecord :=
  let notes := collected_notes item (get_default_mapping source) in
  let* id := new_v4 in
  io_ret (mkMappedRecord id (infer_credential_type (pi_fields item)) (pi_fields item)
            (pi_tags item) false None (pi_source_id item)
            (if bool_decide (notes = "") then None else Some notes) false).

Fixpoint map_parsed_items (items : list ParsedItem) (source : ImportSource.t)
  : io W (list MappedRecord) :=
  match items with
  | [] => io_ret []
  | item :: items =>
      let* m := map_parsed_item item source in
      let* l := map_parsed_items items source in
      io_ret (m :: l)
  end.

End mapping.

(** ** Validation (validation.rs) *)

Module ValidationRuleType.
Inductive t : Set :=
| Required
| MinLength (min : nat)
| MaxLength (max : nat)
| Pattern (pattern : string)
| Format
| Enum (allowed : list string).
End ValidationRuleType.

Module ValidationConstraint.
Inductive t : Set := Equals (s : string) | NotEmpty | Numeric | Email | Url | DateTime.
End ValidationConstraint.

Record ValidationRule : Set := mkValidationRule {
  vr_rule_type : ValidationRuleType.t;
  vr_field : option TargetField.t;
  vr_constraint : ValidationConstraint.t;
  vr_error_message : string;
}.

Module FieldValidation.
Inductive t : Set :=
| Pass
| NeedsReview (field message : string)
| Fail (field message : string).
End FieldValidation.

Definition rule (type : ValidationRuleType.t) (field : TargetField.t) (message : string)
  : ValidationRule :=
  mkValidationRule type (Some field) ValidationConstraint.NotEmpty message.

Definition required := rule ValidationRuleType.Required.
Definition max_length (n : nat) := rule (ValidationRuleType.MaxLength n).

Definition keepass_rules : list ValidationRule :=
  [required TargetField.Name "Title is required";
   required TargetField.Username "UserName is required";
   required TargetField.Password "Password is required";
   max_length 255 TargetField.Name "Title must be at most 255 characters";
   max_length 255 TargetField.Username "UserName must be at most 255 characters";
   max_length 255 TargetField.Url "URL must be at most 255 characters"].

Definition onepassword_1pux_rules : list ValidationRule :=
  [required TargetField.Name "title is required";
   required TargetField.Username "login.username is required";
   required TargetField.Password "login.password is required";
   max_length 255 TargetField.Name "title must be at most 255 characters"].

Definition onepassword_opvault_rules : list ValidationRule :=
  [required TargetField.Name "overview.title is required";
   required TargetField.Username "login.username is required";
   required TargetField.Password "login.password is required"].

Definition bitwarden_rules : list ValidationRule :=
  [required TargetField.Name "name is required";
   required TargetField.Username "login.username is required";
   required TargetField.Password "login.password is required";
   max_length 255 TargetField.Name "name must be at most 255 characters"].

Definition csv_rules : list ValidationRule :=
  [required TargetField.Name "name is required";
   required TargetField.Username "username is required";
   required TargetField.Password "password is required"].

Definition okb_rules : list ValidationRule :=
  [required TargetField.Name "name is required";
   rule (ValidationRuleType.Enum ["login"; "api"; "ssh"]) TargetField.CredentialType
     "credential_type must be one of: login, api, ssh"].

Definition get_rules_for_format (source : ImportSource.t) : list ValidationRule :=
  match source with
  | ImportSource.KeePass => keepass_rules
  | ImportSource.OnePassword1pux => onepassword_1pux_rules
  | ImportSource.OnePasswordOpvault => onepassword_opvault_rules
  | ImportSource.Bitwarden => bitwarden_rules
  | ImportSource.Csv => csv_rules
  | ImportSource.OpenKeyringBackup => okb_rules
  end.

(** [Regex::new(pattern)]: how the expression matches, when it is one. *)
Class Regex : Type := regex_new : string → option (string → bool).

(** [value.contains(c)] of a character of one byte. *)
Fixpoint contains_byte (c : ascii) (s : string) : bool :=
  match s with
  | EmptyString => false
  | String d s => bool_decide (c = d) || contains_byte c s
  end.

Definition starts_with (p s : string) : bool := String.prefix p s.

Section validation.
Context `{Regex} `{Chrono}.

Definition well_formatted (value : string) : bool :=
  bool_decide (value = "")
  || (contains_byte "@" value && contains_byte "." value)
  || starts_with "http://" value || starts_with "https://" value
  || bool_decide (is_Some (naive_parse value "%Y-%m-%dT%H:%M:%S"))
  || bool_decide (is_Some (naive_parse value "%Y-%m-%d %H:%M:%S")).

Definition evaluate_rule (r : ValidationRule) (key value : string) : FieldValidation.t :=
  let check (b : bool) :=
    if b then FieldValidation.Pass else FieldValidation.Fail key (vr_error_message r) in
  match vr_rule_type r with
  | ValidationRuleType.Required => check (negb (bool_decide (value = "")))
  | ValidationRuleType.MinLength min => check (min <=? String.length value)%nat
  | ValidationRuleType.MaxLength max => check (String.length value <=? max)%nat
  | ValidationRuleType.Pattern pattern =>
      match regex_new pattern with
      | Some is_match => check (is_match value)
      | None => FieldValidation.Fail key ("invalid regex pattern: " +:+ pattern)
      end
  | ValidationRuleType.Format => check (well_formatted value)
  | ValidationRuleType.Enum allowed =>
      check (bool_decide (value = "") || bool_decide (value ∈ allowed))
  end.

Definition validate_item (fields : gmap string string) (rules : list ValidationRule)
  : list FieldValidation.t :=
  (λ r,
    match vr_field r with
    | None => FieldValidation.Pass
    | Some target_field =>
        let key := TargetField.field_key target_field in
        evaluate_rule r key (field key fields)
    end) <$> rules.

Record ImportValidationSummary : Set := mkImportValidationSummary {
  is_total_items : nat;
  is_importable : nat;
  is_needs_review : nat;
  is_failed : nat;
  is_review_items : list ReviewItem;
  is_failed_items : list FailedItem;
  is_item_passed : list bool;
}.

Definition first_failure (results : list FieldValidation.t) : option (string * string) :=
  head (omap (λ r, match r with FieldValidation.Fail f m => Some (f, m) | _ => None end) results).

Definition first_warning (results : list FieldValidation.t) : option (string * string) :=
  head (omap (λ r,
    match r with FieldValidation.NeedsReview f m => Some (f, m) | _ => None end) results).

(** One round of the loop of [validate_items]. *)
Definition add_item (rules : list ValidationRule) (s : ImportValidationSummary)
    (item : ParsedItem) : ImportValidationSummary :=
  let results := validate_item (pi_fields item) rules in
  let name := field "name" (pi_fields item) in
  match first_failure results, first_warning results with
  | Some (f, m), _ =>
      mkImportValidationSummary (is_total_items s) (is_importable s) (is_needs_review s)
        (S (is_failed s)) (is_review_items s)
        (is_failed_items s ++ [mkFailedItem name (f +:+ ": " +:+ m)])
        (is_item_passed s ++ [false])
  | None, Some (f, m) =>
      mkImportValidationSummary (is_total_items s) (is_importable s) (S (is_needs_review s))
        (is_failed s) (is_review_items s ++ [mkReviewItem name (f +:+ ": " +:+ m)])
        (is_failed_items s) (is_item_passed s ++ [true])
  | None, None =>
      mkImportValidationSummary (is_total_items s) (S (is_importable s)) (is_needs_review s)
        (is_failed s) (is_review_items s) (is_failed_items s) (is_item_passed s ++ [true])
  end.

Definition validate_items (items : list ParsedItem) (rules : list ValidationRule)
  : ImportValidationSummary :=
  foldl (add_item rules) (mkImportValidationSummary (length items) 0 0 0 [] [] []) items.

End validation.
