(* ===== verification/Backup.v ===== *)
(** * Backup files (src/services/import_export/export.rs, parser.rs, parsers/okb.rs,
    parsers/csv.rs)

    The two formats the program writes itself: the encrypted backup and the CSV table,
    with their parsers.  The csv crate is the class [Csv]. *)

From Stdlib Require Import Ascii.
From S2P Require Import Prelude Text Errors Env Types Storage Checkpoint Crypto Payload.
From S2P Require Import Files Formats.

(** ** Little-endian numbers *)

Definition le32 (n : Z) : bytes :=
  of_bytes [n mod 256; n / 256 mod 256; n / 65536 mod 256; n / 16777216 mod 256]%Z.

Definition from_le (l : list Z) : Z := foldr (λ b acc, b + 256 * acc)%Z 0%Z l.

(** [data[from..to]] *)
Definition slice (from to : nat) (s : bytes) : bytes := String.substring from (to - from) s.

Definition slice_from (from : nat) (s : bytes) : bytes :=
  String.substring from (String.length s - from) s.

(** ** What is exported (export.rs) *)

Record ExportRecord : Set := mkExportRecord {
  xr_id : string;
  xr_credential_type : string;
  xr_name : string;
  xr_username : option string;
  xr_password : option string;
  xr_url : option string;
  xr_notes : option string;
  xr_tags : option (list string);
  xr_is_favorite : option bool;
  xr_expires_at : option string;
  xr_public_key : option string;
  xr_private_key : option string;
  xr_passphrase : option string;
  xr_app_id : option string;
  xr_secret_key : option string;
}.

Record ExportPayload : Set := mkExportPayload {
  xp_version : string;
  xp_vault_id : string;
  xp_exported_at : string;
  xp_records : list ExportRecord;
}.

Definition OKB_VERSION : Z := 1.
Definition SALT_LEN : nat := 16.
Definition NONCE_LEN : nat := 24.

(** [csv_row] is what [write_record] appends to the buffer; [csv_records] reads the rows
    of a file after its byte order mark, each a list of fields or an error. *)
Class Csv : Type := {
  csv_row : list string → result bytes string;
  csv_flush : result () string;
  csv_records : bytes → list (result (list string) string);
}.

Definition BOM : bytes := of_bytes [239; 187; 191]%Z.

Definition concat_bytes (l : list bytes) : bytes := foldr String.append "" l.

Section export.
Context {W : Type} `{Fs W} `{Secure W} `{CryptoLibs} `{Serde ExportPayload} `{Csv}.

Definition validate_export_password (password : string) : result () ImportExportError.t :=
  if (String.length password <? 8)%nat then Err ImportExportError.InvalidPassword else Ok ().

(** [validate_export_path] and [validate_export_csv_path] differ in the extension. *)
Definition validate_path_with (ext : string) (path : string)
  : ior W () ImportExportError.t :=
  if bool_decide (Path.extension path = Some ext) then
    match Path.parent path with
    | Some parent =>
        if bool_decide (parent = "") then lift (Ok ())
        else
          let* exists_ := fs_exists parent in
          if exists_ then lift (Ok ())
          else lift (Err (ImportExportError.FileWriteError path
                            "parent directory does not exist"))
    | None =>
        lift (Err (ImportExportError.FileWriteError path "cannot determine parent directory"))
    end
  else
    lift (Err (ImportExportError.InvalidFormat
                 ("output file must have ." +:+ ext +:+ " extension"))).

Definition validate_export_path := validate_path_with "okb".
Definition validate_export_csv_path := validate_path_with "csv".

(** Through a temporary file beside the output. *)
Definition write_atomically (output_path ext : string) (buf : bytes)
  : ior W nat ImportExportError.t :=
  let tmp_path := Path.with_extension output_path ext in
  let! _ := io_map_err (ImportExportError.FileWriteError tmp_path) (fs_write tmp_path buf) in
  let! _ := io_map_err (λ e, ImportExportError.FileWriteError output_path
                ("atomic rename failed: " +:+ e)) (fs_rename tmp_path output_path) in
  lift (Ok (String.length buf)).

Definition okb_file (salt nonce ciphertext : bytes) : bytes :=
  le32 OKB_VERSION +:+ salt +:+ nonce +:+ ciphertext.

Definition encrypt_and_write_okb (payload : ExportPayload) (password output_path : string)
  : ior W nat ImportExportError.t :=
  let! json_bytes := lift (map_err (λ e, ImportExportError.InternalError
                        ("failed to serialize export payload: " +:+ e)) (to_json payload)) in
  let* salt := generate_salt in
  let! dek := io_map_err ImportExportError.KeyDerivationFailed
                (derive_key_locked password salt Argon2Params.medium) in
  let! (ciphertext, nonce) := io_map_err ImportExportError.EncryptionFailed
                                (encrypt json_bytes dek) in
  write_atomically output_path "okb.tmp" (okb_file salt nonce ciphertext).

Definition csv_header : list string :=
  ["id"; "credential_type"; "name"; "username"; "password"; "url"; "notes"; "tags";
   "is_favorite"; "expires_at"; "public_key"; "private_key"; "passphrase"; "app_id";
   "secret_key"].

(** [t.join(sep)] *)
Fixpoint join (sep : string) (l : list string) : string :=
  match l with
  | [] => ""
  | [s] => s
  | s :: l => s +:+ sep +:+ join sep l
  end.

Definition csv_fields (r : ExportRecord) : list string :=
  [xr_id r; xr_credential_type r; xr_name r; default "" (xr_username r);
   default "" (xr_password r); default "" (xr_url r); default "" (xr_notes r);
   from_option (join ";") "" (xr_tags r);
   from_option (λ v : bool, if v then "true" else "false") "" (xr_is_favorite r);
   default "" (xr_expires_at r); default "" (xr_public_key r); default "" (xr_private_key r);
   default "" (xr_passphrase r); default "" (xr_app_id r); default "" (xr_secret_key r)].

Fixpoint csv_body (output_path : string) (rows : list ExportRecord)
  : result bytes ImportExportError.t :=
  match rows with
  | [] => Ok ""
  | r :: rows =>
      let? row := map_err (λ e, ImportExportError.FileWriteError output_path
                      ("failed to write CSV record: " +:+ e)) (csv_row (csv_fields r)) in
      let? rest := csv_body output_path rows in
      Ok (row +:+ rest)
  end.

Definition csv_file (payload : ExportPayload) (output_path : string)
  : result bytes ImportExportError.t :=
  let? header := map_err (λ e, ImportExportError.FileWriteError output_path
                     ("failed to write CSV header: " +:+ e)) (csv_row csv_header) in
  let? rows := csv_body output_path (xp_records payload) in
  let? _ := map_err (λ e, ImportExportError.FileWriteError output_path
                ("failed to flush CSV: " +:+ e)) csv_flush in
  Ok (BOM +:+ header +:+ rows).

Definition write_csv (payload : ExportPayload) (output_path : string)
  : ior W nat ImportExportError.t :=
  let! buf := lift (csv_file payload output_path) in
  write_atomically output_path "csv.tmp" buf.

End export.

(** ** Parsers (parser.rs) *)

Definition MAX_FILE_SIZE : Z := 100 * 1024 * 1024.

Section parsers.
Context {W : Type} `{Fs W} `{FsBytes W} `{Secure W} `{CryptoLibs} `{Csv}.

Definition validate_file_common (path expected_ext : string)
  : ior W () ImportExportError.t :=
  let* exists_ := fs_exists path in
  if negb exists_ then lift (Err (ImportExportError.FileNotFound path))
  else
    let! len := io_map_err (ImportExportError.FileReadError path) (fs_metadata_len path) in
    if (MAX_FILE_SIZE <? len)%Z
    then lift (Err (ImportExportError.FileTooLarge path len MAX_FILE_SIZE))
    else
      match Path.extension path with
      | Some ext =>
          if bool_decide (ext = expected_ext) then lift (Ok ())
          else lift (Err (ImportExportError.InvalidFormat
                 ("expected ." +:+ expected_ext +:+ " file, got ." +:+ ext)))
      | None => lift (Ok ())
      end.

(** ** The encrypted backup (parsers/okb.rs) *)

Record OkbRecord : Set := mkOkbRecord {
  ob_id : string;
  ob_credential_type : string;
  ob_name : string;
  ob_username : option string;
  ob_password : option string;
  ob_url : option string;
  ob_notes : option string;
  ob_tags : option (list string);
  ob_is_favorite : option bool;
  ob_expires_at : option string;
  ob_public_key : option string;
  ob_private_key : option string;
  ob_passphrase : option string;
  ob_app_id : option string;
  ob_secret_key : option string;
}.

Record OkbPayload : Set := mkOkbPayload {
  op_version : string;
  op_vault_id : string;
  op_exported_at : string;
  op_records : list OkbRecord;
}.

Definition insert_optional (key : string) (value : option string)
    (fields : gmap string string) : gmap string string :=
  match value with Some v => <[key := v]> fields | None => fields end.

(** [bool::to_string] *)
Definition bool_text (b : bool) : string := if b then "true" else "false".

Definition okb_item (r : OkbRecord) : ParsedItem :=
  let fields := <["name" := ob_name r]> ∅ in
  let fields := <["credential_type" := ob_credential_type r]> fields in
  let fields := insert_optional "username" (ob_username r) fields in
  let fields := insert_optional "password" (ob_password r) fields in
  let fields := insert_optional "url" (ob_url r) fields in
  let fields := insert_optional "notes" (ob_notes r) fields in
  let fields := insert_optional "is_favorite" (bool_text <$> ob_is_favorite r) fields in
  let fields := insert_optional "expires_at" (ob_expires_at r) fields in
  let fields := insert_optional "public_key" (ob_public_key r) fields in
  let fields := insert_optional "private_key" (ob_private_key r) fields in
  let fields := insert_optional "passphrase" (ob_passphrase r) fields in
  let fields := insert_optional "app_id" (ob_app_id r) fields in
  let fields := insert_optional "secret_key" (ob_secret_key r) fields in
  mkParsedItem (ob_id r) fields (default [] (ob_tags r)).

Definition SALT_OFFSET : nat := 4.
Definition NONCE_OFFSET : nat := SALT_OFFSET + SALT_LEN.
Definition CIPHERTEXT_OFFSET : nat := NONCE_OFFSET + NONCE_LEN.

Context `{Serde OkbPayload}.

(** [OkbParser::parse] *)
Definition parse_okb (path : string) (password : option string)
  : ior W (list ParsedItem) ImportExportError.t :=
  let! data := io_map_err (ImportExportError.FileReadError path) (fs_read path) in
  if (String.length data <? CIPHERTEXT_OFFSET + 16)%nat
  then lift (Err (ImportExportError.InvalidFormat
                    "file too short to be a valid .okb backup"))
  else
    let version := from_le (as_bytes (slice 0 SALT_OFFSET data)) in
    if negb (version =? OKB_VERSION)%Z
    then lift (Err (ImportExportError.InvalidFormat
           ("unsupported .okb version " +:+ pretty version +:+ ", expected "
              +:+ pretty OKB_VERSION)))
    else
      let salt := slice SALT_OFFSET NONCE_OFFSET data in
      let nonce := slice NONCE_OFFSET CIPHERTEXT_OFFSET data in
      let ciphertext := slice_from CIPHERTEXT_OFFSET data in
      let! password := lift (ok_or ImportExportError.PasswordRequired password) in
      let! dek := io_map_err ImportExportError.DecryptionFailed
                    (derive_key_locked password salt Argon2Params.medium) in
      let! plaintext := lift (map_err ImportExportError.DecryptionFailed
                                (decrypt ciphertext nonce dek)) in
      let! payload := lift (map_err (ImportExportError.ParseError "okb")
                              (from_json (A := OkbPayload) plaintext)) in
      lift (Ok (okb_item <$> op_records payload)).

(** ** CSV (parsers/csv.rs) *)

Definition find_column (headers : list string) (column_name : string) : option nat :=
  fst <$> list_find (λ h, h = column_name) headers.

Definition resolve_column (headers : list string) (column_name field_label : string)
  : result nat ImportExportError.t :=
  ok_or (ImportExportError.ParseError "CSV"
           ("column '" +:+ column_name +:+ "' for field '" +:+ field_label
              +:+ "' not found in CSV headers"))
    (find_column headers column_name).

Definition get_or_empty (record : list string) (idx : nat) : string := default "" (record !! idx).

Definition build_fields (record : list string)
    (name_idx username_idx password_idx url_idx notes_idx : nat) : gmap string string :=
  <["notes" := get_or_empty record notes_idx]>
  (<["url" := get_or_empty record url_idx]>
  (<["password" := get_or_empty record password_idx]>
  (<["username" := get_or_empty record username_idx]>
  (<["name" := get_or_empty record name_idx]> ∅)))).

(** [str::split] at a character of one byte. *)
Fixpoint split_at (c : ascii) (s : string) : list string :=
  match s with
  | EmptyString => [""]
  | String d s =>
      if bool_decide (d = c) then "" :: split_at c s
      else
        match split_at c s with
        | part :: parts => String d part :: parts
        | [] => [String d ""]
        end
  end.

Definition extract_tags (record : list string) (tags_idx : option nat) : list string :=
  match tags_idx ≫= λ idx, record !! idx with
  | Some raw =>
      if bool_decide (raw = "") then []
      else filter (λ tag, tag ≠ "") (trim <$> split_at ","%char raw)
  | None => []
  end.

(** The loop of [read_record] over the rows, from the row numbered [n]. *)
Fixpoint csv_items (path : string) (fields : list string → gmap string string)
    (tags_idx : option nat) (n : nat) (rows : list (result (list string) string))
  : result (list ParsedItem) ImportExportError.t :=
  match rows with
  | [] => Ok []
  | row :: rows =>
      let? record := map_err (ImportExportError.FileReadError path) row in
      let? items := csv_items path fields tags_idx (S n) rows in
      Ok (mkParsedItem ("row-" +:+ pretty n) (fields record) (extract_tags record tags_idx)
            :: items)
  end.

(** The first row is the header; without [skip_header] it is a record as well.  An empty
    file has an empty header. *)
Definition csv_headers (rows : list (result (list string) string))
  : result (list string) ImportExportError.t :=
  match rows with
  | row :: _ =>
      map_err (λ e, ImportExportError.ParseError "CSV" ("failed to read headers: " +:+ e)) row
  | [] => Ok []
  end.

Definition parse_csv_rows (path : string) (mapping : CsvColumnMapping)
    (rows : list (result (list string) string)) : result (list ParsedItem) ImportExportError.t :=
  let? headers := csv_headers rows in
  let? name_idx := resolve_column headers (cc_name_column mapping) "name" in
  let? username_idx := resolve_column headers (cc_username_column mapping) "username" in
  let? password_idx := resolve_column headers (cc_password_column mapping) "password" in
  let? url_idx := resolve_column headers (cc_url_column mapping) "url" in
  let? notes_idx := resolve_column headers (cc_notes_column mapping) "notes" in
  let tags_idx := cc_tags_column mapping ≫= find_column headers in
  csv_items path
    (λ r, build_fields r name_idx username_idx password_idx url_idx notes_idx) tags_idx 1
    (if cc_skip_header mapping then tail rows else rows).

(** [CsvParser::parse]; a read that fails half way counts as a file that does not open. *)
Definition parse_csv (path : string) (mapping : option CsvColumnMapping)
  : ior W (list ParsedItem) ImportExportError.t :=
  let! mapping := lift (ok_or (ImportExportError.InvalidFormat "CSV column mapping required")
                          mapping) in
  let! data := io_map_err (ImportExportError.FileReadError path) (fs_read path) in
  lift (parse_csv_rows path mapping (csv_records data)).

End parsers.
