(* ===== verification/Foreign.v ===== *)
(** * Parsers of other programs' exports (src/services/import_export/parsers:
    bitwarden.rs, keepass.rs, onepassword.rs, opvault)

    The crates that open the containers are interfaces: [Kdbx] for KeePass databases,
    [Zip] for archives, [OpVaultLibs] for PBKDF2, SHA-512, HMAC and AES. *)

From Stdlib Require Import Ascii.
From S2P Require Import Prelude Text Errors Env Types Storage Checkpoint Keystore Payload.
From S2P Require Import Pipeline Queries Files Formats Backup.

(** [s.strip_prefix(p)] and [s.strip_suffix(p)], or the text itself *)
Definition strip_prefix (p s : string) : string :=
  if String.prefix p s then slice_from (String.length p) s else s.

Definition has_suffix (p s : string) : bool :=
  (String.length p <=? String.length s)%nat
  && bool_decide (slice_from (String.length s - String.length p) s = p).

Definition strip_suffix (p s : string) : string :=
  if has_suffix p s then slice 0 (String.length s - String.length p) s else s.

(** A map of fields, the later entries last. *)
Definition fields_of (l : list (string * string)) : gmap string string :=
  foldl (λ m e, <[e.1 := e.2]> m) ∅ l.

(** Those of the entries that are inserted only when they are not empty. *)
Definition nonempty (key value : string) : list (string * string) :=
  if bool_decide (value = "") then [] else [(key, value)].

(** ** Bitwarden (bitwarden.rs) *)

Record BitwardenField : Set := mkBitwardenField {
  bf_name : option string;
  bf_value : option string;
  bf_field_type : option Z;
}.

Record BitwardenLogin : Set := mkBitwardenLogin {
  bl_username : option string;
  bl_password : option string;
  bl_uris : option (list (option string));
}.

Record BitwardenItem : Set := mkBitwardenItem {
  bi_item_type : Z;
  bi_name : option string;
  bi_login : option BitwardenLogin;
  bi_notes : option string;
  bi_fields : option (list BitwardenField);
}.

Record BitwardenExport : Set := mkBitwardenExport {
  be_encrypted : option bool;
  be_items : list BitwardenItem;
}.

Module Bitwarden.

Definition TYPE_LOGIN : Z := 1.
Definition TYPE_SECURE_NOTE : Z := 2.

Definition build_notes (base_notes : option string) (fields : option (list BitwardenField))
  : string :=
  foldl (λ result f,
      append_line result ("Field: " +:+ default "unnamed" (bf_name f) +:+ " = "
                            +:+ default "" (bf_value f)))
    (default "" base_notes) (default [] fields).

Definition login_url (login : BitwardenLogin) : string :=
  default "" (uris ← bl_uris login; mjoin (head uris)).

Definition parse_login_item (index : nat) (item : BitwardenItem) : ParsedItem :=
  let '(username, password, url) :=
    match bi_login item with
    | Some login =>
        (default "" (bl_username login), default "" (bl_password login), login_url login)
    | None => ("", "", "")
    end in
  mkParsedItem ("bw-" +:+ pretty index)
    (fields_of [("name", default "" (bi_name item)); ("username", username);
                ("password", password); ("url", url);
                ("notes", build_notes (bi_notes item) (bi_fields item))]) [].

Definition parse_secure_note_item (index : nat) (item : BitwardenItem) : ParsedItem :=
  mkParsedItem ("bw-" +:+ pretty index)
    (fields_of [("name", default "" (bi_name item)); ("username", ""); ("password", "");
                ("url", ""); ("notes", build_notes (bi_notes item) (bi_fields item))]) [].

(** Cards, identities and unknown types are skipped. *)
Definition parse_item (index : nat) (item : BitwardenItem) : list ParsedItem :=
  if (bi_item_type item =? TYPE_LOGIN)%Z then [parse_login_item index item]
  else if (bi_item_type item =? TYPE_SECURE_NOTE)%Z then [parse_secure_note_item index item]
  else [].

Definition items (export : BitwardenExport) : list ParsedItem :=
  concat (imap parse_item (be_items export)).

Section s.
Context {W : Type} `{Fs W} `{Serde BitwardenExport}.

Definition parse (path : string) : ior W (list ParsedItem) ImportExportError.t :=
  let! content := io_map_err (ImportExportError.FileReadError path) (fs_read_to_string path) in
  let! export := lift (map_err (ImportExportError.ParseError "Bitwarden JSON")
                         (from_json content)) in
  if bool_decide (be_encrypted export = Some true)
  then lift (Err ImportExportError.PasswordRequired)
  else lift (Ok (items export)).

End s.
End Bitwarden.

(** ** KeePass (keepass.rs)

    A database is a tree of groups.  The value of a field is [None] when it is not text. *)

Record KdbxEntry : Set := mkKdbxEntry {
  ke_uuid : Uuid;
  ke_fields : gmap string (option string);
  ke_tags : list string;
}.

#[warnings="-register-all"]
Inductive KdbxGroup : Set :=
| mkKdbxGroup (name : string) (entries : list KdbxEntry) (groups : list KdbxGroup).

Module KdbxError.
Inductive t : Set :=
| IncorrectKey
| OtherKey (message : string)
| UnsupportedVersion
| Other (message : string).
End KdbxError.

(** [fs_open] opens and reads a file; its error tells whether there was one. *)
Class Kdbx (W : Type) : Type := {
  fs_open : string → ior W bytes (bool * string);
  kdbx_open : bytes → string → result KdbxGroup KdbxError.t;
}.

Module KeePass.

Definition standard_keys : list string := ["Title"; "UserName"; "Password"; "URL"; "Notes"].

Definition get (e : KdbxEntry) (key : string) : option string := mjoin (ke_fields e !! key).

Definition map_open_error (path : string) (e : KdbxError.t) : ImportExportError.t :=
  match e with
  | KdbxError.IncorrectKey => ImportExportError.InvalidPassword
  | KdbxError.OtherKey m => ImportExportError.DecryptionFailed m
  | KdbxError.UnsupportedVersion =>
      ImportExportError.InvalidFormat "unsupported KeePass database version"
  | KdbxError.Other m => ImportExportError.FileReadError path m
  end.

Section s.
Context {W : Type} `{Libs} `{Runtime} `{Kdbx W}.

Definition build_custom_notes (e : KdbxEntry) : string :=
  join newline
    (omap (λ f : string * option string,
       if bool_decide (f.1 ∈ standard_keys) then None
       else (λ v, "Custom: " +:+ f.1 +:+ " = " +:+ v) <$> f.2) (hash_order (ke_fields e))).

Definition combined_notes (base_notes custom_notes : string) : string :=
  if bool_decide (custom_notes = "") then base_notes
  else if bool_decide (base_notes = "") then custom_notes
  else base_notes +:+ newline +:+ custom_notes.

(** The components of the path, then the tags of the entry that are new. *)
Definition entry_tags (group_path : string) (native : list string) : list string :=
  foldl (λ tags tag, if bool_decide (tag ∈ tags) then tags else tags ++ [tag])
    (filter (λ s, s ≠ "") (split_at "/"%char group_path)) native.

Definition entry_to_parsed_item (e : KdbxEntry) (group_path : string) : ParsedItem :=
  let text key := default "" (get e key) in
  mkParsedItem (uuid_to_string (ke_uuid e))
    (fields_of [("name", text "Title"); ("username", text "UserName");
                ("password", text "Password"); ("url", text "URL");
                ("notes", combined_notes (text "Notes") (build_custom_notes e))])
    (entry_tags group_path (ke_tags e)).

Fixpoint walk_group (group_path : string) (g : KdbxGroup) : list ParsedItem :=
  let '(mkKdbxGroup _ entries groups) := g in
  let child_path (child : KdbxGroup) :=
    let '(mkKdbxGroup name _ _) := child in
    if bool_decide (group_path = "") then name else group_path +:+ "/" +:+ name in
  ((λ e, entry_to_parsed_item e group_path) <$> entries)
    ++ concat (map (λ child, walk_group (child_path child) child) groups).

Definition parse (path : string) (password : option string)
  : ior W (list ParsedItem) ImportExportError.t :=
  let! key := lift (ok_or ImportExportError.PasswordRequired password) in
  let! file := io_map_err (λ e : bool * string, let '(not_found, m) := e in
                 if not_found then ImportExportError.FileNotFound path
                 else ImportExportError.FileReadError path m) (fs_open path) in
  let! root := lift (map_err (map_open_error path) (kdbx_open file key)) in
  lift (Ok (walk_group "" root)).

End s.
End KeePass.

(** ** 1Password archives (onepassword.rs) *)

Record OnePuxLoginField : Set := mkOnePuxLoginField {
  ol_designation : option string;
  ol_value : option string;
}.

Record OnePuxSectionField : Set := mkOnePuxSectionField {
  os_id : option string;
  os_title : option string;
  os_value : option Json;
}.

(** The sections by their fields. *)
Record OnePuxDetails : Set := mkOnePuxDetails {
  od_login_fields : list OnePuxLoginField;
  od_notes_plain : option string;
  od_sections : list (option (list OnePuxSectionField));
  od_password : option string;
}.

(** The addresses by their [url]. *)
Record OnePuxOverview : Set := mkOnePuxOverview {
  oo_title : option string;
  oo_tags : option (list string);
  oo_url : option string;
  oo_urls : option (list (option string));
}.

Record OnePuxItem : Set := mkOnePuxItem {
  oi_uuid : option string;
  oi_category : string;
  oi_state : option string;
  oi_details : option OnePuxDetails;
  oi_overview : option OnePuxOverview;
}.

(** Accounts, their vaults, their items. *)
Record OnePuxExport : Set := mkOnePuxExport {
  ox_accounts : list (list (list OnePuxItem));
}.

(** [zip_open] is [ZipArchive::new]; the archive maps a name to its entry, which can be
    missing, and to what reading the entry as text gives. *)
Class Zip : Type :=
  zip_open : bytes → result (string → result (result string string) string) string.

Module OnePux.

Definition FORMAT : string := "1Password .1pux".

(** The first text among the values of an object. *)
Definition first_text (values : list Json) : option string := head (omap as_str values).

Definition nested_text (v : Json) : option string :=
  match v with
  | JString s => Some s
  | JObject members => first_text members.*2
  | _ => None
  end.

Definition extract_section_value (value : option Json) : option string :=
  match value with
  | Some (JString s) => Some s
  | Some (JObject members) =>
      match head (omap (λ key, as_str (member key members))
                    ["totp"; "string"; "concealed"; "phone"]) with
      | Some s => Some s
      | None => head (omap nested_text members.*2)
      end
  | _ => None
  end.

Definition section_line (f : OnePuxSectionField) : option string :=
  match extract_section_value (os_value f) with
  | Some val_str =>
      if bool_decide (val_str = "") then None
      else if from_option (String.prefix "TOTP_") false (os_id f)
      then Some ("TOTP: " +:+ val_str)
      else (λ title, title +:+ ": " +:+ val_str) <$> os_title f
  | None => None
  end.

(** Not empty, when it is there. *)
Definition nonempty_line (s : option string) : list string :=
  match s with
  | Some s => if bool_decide (s = "") then [] else [s]
  | None => []
  end.

Definition build_notes (details : option OnePuxDetails) : string :=
  match details with
  | Some d =>
      join newline (nonempty_line (od_notes_plain d)
                      ++ omap section_line (concat (omap id (od_sections d))))
  | None => ""
  end.

Definition extract_url (overview : option OnePuxOverview) : string :=
  default ""
    (o ← overview;
     match oo_url o with
     | Some u => if bool_decide (u = "") then urls ← oo_urls o; mjoin (head urls) else Some u
     | None => urls ← oo_urls o; mjoin (head urls)
     end).

(** The last value under a designation. *)
Definition designated (d : string) (fields : list OnePuxLoginField) : string :=
  default "" (last ((λ f, default "" (ol_value f)) <$>
                      filter (λ f, ol_designation f = Some d) fields)).

Definition login_password (d : OnePuxDetails) : string :=
  let password := designated "password" (od_login_fields d) in
  if bool_decide (password = "") then default "" (od_password d) else password.

Definition item_source_id (index : nat) (item : OnePuxItem) : string :=
  default ("1p-" +:+ pretty index) (oi_uuid item).

Definition item_title (item : OnePuxItem) : string := default "" (oi_overview item ≫= oo_title).
Definition item_tags (item : OnePuxItem) : list string := default [] (oi_overview item ≫= oo_tags).

Definition parse_login_item (index : nat) (item : OnePuxItem) : ParsedItem :=
  let details := oi_details item in
  let username := from_option (λ d, designated "username" (od_login_fields d)) "" details in
  let password := from_option login_password "" details in
  mkParsedItem (item_source_id index item)
    (fields_of ([("name", item_title item); ("username", username); ("password", password)]
                  ++ nonempty "url" (extract_url (oi_overview item))
                  ++ nonempty "notes" (build_notes details)))
    (item_tags item).

Definition parse_secure_note_item (index : nat) (item : OnePuxItem) : ParsedItem :=
  mkParsedItem (item_source_id index item)
    (fields_of ([("name", item_title item)] ++ nonempty "notes" (build_notes (oi_details item))))
    (item_tags item).

Definition parse_item (index : nat) (item : OnePuxItem) : list ParsedItem :=
  if bool_decide (oi_state item = Some "archived") then []
  else if bool_decide (oi_category item ∈ ["001"; "005"]) then [parse_login_item index item]
  else if bool_decide (oi_category item = "003") then [parse_secure_note_item index item]
  else [].

(** The items of all accounts and vaults, numbered through. *)
Definition items (export : OnePuxExport) : list ParsedItem :=
  concat (imap parse_item (concat (concat (ox_accounts export)))).

Section s.
Context {W : Type} `{FsBytes W} `{Zip} `{Serde OnePuxExport}.

Definition parse (path : string) : ior W (list ParsedItem) ImportExportError.t :=
  let error what e := ImportExportError.ParseError FORMAT (what +:+ e) in
  let! file := io_map_err (ImportExportError.FileReadError path) (fs_read path) in
  let! archive := lift (map_err (error "failed to open ZIP archive: ") (zip_open file)) in
  let! entry := lift (map_err (error "export.data not found in archive: ")
                        (archive "export.data")) in
  let! json_content := lift (map_err (error "failed to read export.data: ") entry) in
  let! export := lift (map_err (error "failed to parse JSON: ") (from_json json_content)) in
  lift (Ok (items export)).

End s.
End OnePux.

(** ** 1Password vaults (opvault/types.rs, crypto.rs, parser.rs) *)

Record KeyPair : Set := mkKeyPair {
  kp_enc : bytes;
  kp_mac : bytes;
}.

Record DecryptedKeys : Set := mkDecryptedKeys {
  dk_master : KeyPair;
  dk_overview : KeyPair;
}.

Record ProfileLock : Set := mkProfileLock {
  pl_iterations : Z;
  pl_salt : string;
  pl_master_key : string;
  pl_overview_key : string;
}.

Record Profile : Set := mkProfile {
  pf_uuid : string;
  pf_lock : option ProfileLock;
  pf_iterations : option Z;
  pf_salt : option string;
  pf_master_key : option string;
  pf_overview_key : option string;
}.

Record BandItem : Set := mkBandItem {
  bd_uuid : string;
  bd_category : string;
  bd_trashed : bool;
  bd_o : string;
  bd_k : string;
  bd_d : string;
}.

(** The addresses by their [u]. *)
Record DecryptedOverview : Set := mkDecryptedOverview {
  dv_title : string;
  dv_urls : list string;
  dv_url : option string;
  dv_tags : list string;
}.

Record ItemField : Set := mkItemField {
  if_designation : option string;
  if_value : option string;
}.

Record SectionField : Set := mkSectionField {
  sf_n : option string;
  sf_t : option string;
  sf_v : option Json;
}.

(** The sections by their fields. *)
Record DecryptedDetails : Set := mkDecryptedDetails {
  dd_fields : list ItemField;
  dd_sections : list (list SectionField);
  dd_notes_plain : option string;
  dd_password : option string;
}.

(** PBKDF2-HMAC-SHA512 with 64 bytes of output, SHA-512, HMAC-SHA256, and the decryption
    of whole blocks with AES-256-CBC. *)
Class OpVaultLibs : Type := {
  pbkdf2_sha512 : bytes → bytes → Z → bytes;
  sha512 : bytes → bytes;
  hmac_sha256 : bytes → bytes → bytes;
  aes256_cbc_decrypt : bytes → bytes → bytes → bytes;
}.

(** [glob::glob]: an error of the pattern, or the paths in order, each readable or not. *)
Class Glob (W : Type) : Type := glob : string → ior W (list (result string string)) string.

Module OpVault.

Definition resolve_lock (p : Profile) : result ProfileLock string :=
  match pf_lock p with
  | Some lock => Ok lock
  | None =>
      match pf_iterations p, pf_salt p, pf_master_key p, pf_overview_key p with
      | Some iterations, Some salt, Some master_key, Some overview_key =>
          Ok (mkProfileLock iterations salt master_key overview_key)
      | _, _, _, _ => Err "missing lock fields in profile"
      end
  end.

(** ** Keys *)

Section crypto.
Context `{Libs} `{OpVaultLibs}.

Definition key_pair (out : bytes) : KeyPair := mkKeyPair (slice 0 32 out) (slice 32 64 out).

Definition derive_keys (password salt : bytes) (iterations : Z) : KeyPair :=
  key_pair (pbkdf2_sha512 password salt iterations).

Definition composite_key_from_material (material : bytes) : KeyPair := key_pair (sha512 material).

Definition verify_hmac (data expected_mac mac_key : bytes) : result () ImportExportError.t :=
  if bool_decide (hmac_sha256 mac_key data = expected_mac) then Ok ()
  else Err ImportExportError.InvalidPassword.

Definition MIN_LEN : nat := 8 + 8 + 16 + 16 + 32.

(** The error texts of the block format. *)
Definition opdata_error {A} (m : string) : result A ImportExportError.t :=
  Err (ImportExportError.DecryptionFailed ("opdata01: " +:+ m)).

Definition decrypt_opdata01 (data key mac_key : bytes) : result bytes ImportExportError.t :=
  if (String.length data <? MIN_LEN)%nat then opdata_error "data too short"
  else
    let signed_end := (String.length data - 32)%nat in
    let? _ := verify_hmac (slice 0 signed_end data) (slice_from signed_end data) mac_key in
    if negb (bool_decide (slice 0 8 data = "opdata01")) then opdata_error "invalid header"
    else
      let plain_len := from_le (as_bytes (slice 8 16 data)) in
      let iv := slice 16 32 data in
      let ciphertext := slice 32 signed_end data in
      if negb (String.length ciphertext mod 16 =? 0)%nat
      then opdata_error "ciphertext not block-aligned"
      else if (Z.of_nat (String.length ciphertext) <? plain_len)%Z
      then opdata_error "plaintext length exceeds ciphertext"
      else
        let buf := aes256_cbc_decrypt key iv ciphertext in
        Ok (slice_from (String.length buf - Z.to_nat plain_len) buf).

Definition decrypt_opdata01_b64 (b64 : string) (key mac_key : bytes)
  : result bytes ImportExportError.t :=
  let? data := map_err (λ e, ImportExportError.DecryptionFailed ("base64 decode: " +:+ e))
                 (base64_decode b64) in
  decrypt_opdata01 data key mac_key.

Definition decrypt_item_key (k_data : bytes) (master : KeyPair)
  : result KeyPair ImportExportError.t :=
  if negb (String.length k_data =? 112)%nat
  then Err (ImportExportError.DecryptionFailed
         ("item key: expected 112 bytes, got " +:+ pretty (String.length k_data)))
  else
    let? _ := verify_hmac (slice 0 80 k_data) (slice 80 112 k_data) (kp_mac master) in
    Ok (key_pair (aes256_cbc_decrypt (kp_enc master) (slice 0 16 k_data) (slice 16 80 k_data))).

Definition decrypt_item_key_b64 (k_b64 : string) (master : KeyPair)
  : result KeyPair ImportExportError.t :=
  let? k := map_err (λ e, ImportExportError.DecryptionFailed ("item key base64: " +:+ e))
              (base64_decode k_b64) in
  decrypt_item_key k master.

Definition decrypt_keys_from_profile (profile : Profile) (password : bytes)
  : result DecryptedKeys ImportExportError.t :=
  let? lock := map_err (ImportExportError.ParseError "opvault profile") (resolve_lock profile) in
  let? salt := map_err (λ e, ImportExportError.DecryptionFailed ("salt base64: " +:+ e))
                 (base64_decode (pl_salt lock)) in
  let derived := derive_keys password salt (pl_iterations lock) in
  let? master_material :=
    decrypt_opdata01_b64 (pl_master_key lock) (kp_enc derived) (kp_mac derived) in
  let? overview_material :=
    decrypt_opdata01_b64 (pl_overview_key lock) (kp_enc derived) (kp_mac derived) in
  Ok (mkDecryptedKeys (composite_key_from_material master_material)
        (composite_key_from_material overview_material)).

End crypto.

(** ** Entries *)

Definition strip_js_wrapper (content prefix : string) : string :=
  trim (strip_suffix ";" (strip_prefix prefix (trim content))).

Definition strip_ld_wrapper (content : string) : string :=
  trim (strip_suffix ")" (strip_suffix ";" (strip_prefix "ld(" (trim content)))).

(** The last value under a designation. *)
Definition designated (d : string) (fields : list ItemField) : string :=
  default "" (last ((λ f, default "" (if_value f)) <$>
                      filter (λ f, if_designation f = Some d) fields)).

(** What a field of a section adds: a standard field that the item has not got, or a line
    of the notes. *)
Module SectionPart.
Inductive t : Set := Standard (key value : string) | Line (text : string).
End SectionPart.

Section entries.
Context `{Libs} `{OpVaultLibs} `{Serde Json}.

(** [other.to_string()] *)
Definition json_text (v : Json) : string :=
  match v with JString s => s | other => default "" (ok (to_json other)) end.

Definition section_part (fields : gmap string string) (f : SectionField)
  : option SectionPart.t :=
  match sf_n f, sf_v f with
  | Some n, Some v =>
      let val_str := json_text v in
      if bool_decide (val_str = "") then None
      else if bool_decide (n ∈ ["username"; "password"; "url"]) && negb (has_key n fields)
      then Some (SectionPart.Standard n val_str)
      else if String.prefix "TOTP_" n then Some (SectionPart.Line ("TOTP: " +:+ val_str))
      else (λ title, SectionPart.Line (title +:+ ": " +:+ val_str)) <$> sf_t f
  | _, _ => None
  end.

(** The last of the standard fields of that name. *)
Definition section_value (key : string) (parts : list SectionPart.t) : string :=
  default "" (last (omap (λ p,
    match p with
    | SectionPart.Standard k v => if bool_decide (k = key) then Some v else None
    | SectionPart.Line _ => None
    end) parts)).

Definition section_lines (parts : list SectionPart.t) : list string :=
  omap (λ p, match p with SectionPart.Line l => Some l | _ => None end) parts.

Definition item_password (d : DecryptedDetails) : string :=
  let password := designated "password" (dd_fields d) in
  if bool_decide (password = "") then default "" (dd_password d) else password.

Definition entry_url (o : DecryptedOverview) : string :=
  default "" (match head (dv_urls o) with Some u => Some u | None => dv_url o end).

(** The part of [parse_entry] after the decryption. *)
Definition entry_item (entry : BandItem) (o : DecryptedOverview) (d : DecryptedDetails)
  : option ParsedItem :=
  let fields := fields_of ([("name", dv_title o)] ++ nonempty "url" (entry_url o)
                  ++ nonempty "username" (designated "username" (dd_fields d))
                  ++ nonempty "password" (item_password d)) in
  let parts := omap (section_part fields) (concat (dd_sections d)) in
  let value key := nonempty key (section_value key parts) in
  let notes := join newline (OnePux.nonempty_line (dd_notes_plain d) ++ section_lines parts) in
  let fields := fields_of (value "username" ++ value "password" ++ value "url"
                  ++ nonempty "notes" notes) ∪ fields in
  if bool_decide (bd_category entry ∈ ["001"; "003"; "005"; "110"])
  then Some (mkParsedItem (bd_uuid entry) fields (dv_tags o)) else None.

Context `{Serde DecryptedOverview} `{Serde DecryptedDetails}.

Definition parse_entry (entry : BandItem) (keys : DecryptedKeys)
  : result (option ParsedItem) ImportExportError.t :=
  let? overview_json := decrypt_opdata01_b64 (bd_o entry) (kp_enc (dk_overview keys))
                          (kp_mac (dk_overview keys)) in
  let? overview := map_err (ImportExportError.ParseError "opvault overview")
                     (from_json overview_json) in
  let? item_key := decrypt_item_key_b64 (bd_k entry) (dk_master keys) in
  let? detail_json := decrypt_opdata01_b64 (bd_d entry) (kp_enc item_key) (kp_mac item_key) in
  let? details := map_err (ImportExportError.ParseError "opvault detail")
                    (from_json detail_json) in
  Ok (entry_item entry overview details).

(** The loop over the entries of a band. *)
Fixpoint parse_entries (entries : list BandItem) (keys : DecryptedKeys)
  : result (list ParsedItem) ImportExportError.t :=
  match entries with
  | [] => Ok []
  | entry :: entries =>
      if bd_trashed entry then parse_entries entries keys
      else
        let? item := parse_entry entry keys in
        let? rest := parse_entries entries keys in
        Ok (option_list item ++ rest)
  end.

End entries.

Section s.
Context {W : Type} `{Libs} `{OpVaultLibs} `{Runtime} `{Serde Json} `{Serde DecryptedOverview}.
Context `{Serde DecryptedDetails} `{Serde Profile} `{Serde (gmap string BandItem)}.
Context `{Fs W} `{FsBytes W} `{Glob W}.

Definition read_profile (default_dir : string) : ior W Profile ImportExportError.t :=
  let profile_path := path_join default_dir "profile.js" in
  let! content := io_map_err (ImportExportError.FileReadError profile_path)
                    (fs_read_to_string profile_path) in
  lift (map_err (ImportExportError.ParseError "opvault profile")
          (from_json (strip_js_wrapper content "var profile="))).

Definition parse_band_file (path : string) (keys : DecryptedKeys)
  : ior W (list ParsedItem) ImportExportError.t :=
  let! content := io_map_err (ImportExportError.FileReadError path) (fs_read_to_string path) in
  let! entries := lift (map_err (ImportExportError.ParseError "opvault band")
                    (from_json (A := gmap string BandItem) (strip_ld_wrapper content))) in
  lift (parse_entries (hash_order entries).*2 keys).

Fixpoint parse_bands (default_dir : string) (keys : DecryptedKeys)
    (paths : list (result string string)) : ior W (list ParsedItem) ImportExportError.t :=
  match paths with
  | [] => lift (Ok [])
  | entry :: paths =>
      let! path := lift (map_err (ImportExportError.FileReadError default_dir) entry) in
      let! band_items := parse_band_file path keys in
      let! rest := parse_bands default_dir keys paths in
      lift (Ok (band_items ++ rest))
  end.

Definition parse_opvault (path : string) (password : option string)
  : ior W (list ParsedItem) ImportExportError.t :=
  let! password := lift (ok_or ImportExportError.PasswordRequired password) in
  let default_dir := path_join path "default" in
  let* is_dir := fs_is_dir default_dir in
  if negb is_dir
  then lift (Err (ImportExportError.InvalidFormat "expected .opvault/default/ directory"))
  else
    let! profile := read_profile default_dir in
    let! keys := lift (decrypt_keys_from_profile profile password) in
    let! bands := io_map_err (λ e, ImportExportError.ParseError "opvault"
                      ("glob band files: " +:+ e)) (glob (path_join default_dir "band_*.js")) in
    parse_bands default_dir keys bands.

(** [OpVaultParser::validate_file] *)
Definition validate_file (path : string) : ior W () ImportExportError.t :=
  let default_dir := path_join path "default" in
  let* exists_ := fs_exists path in
  if negb exists_ then lift (Err (ImportExportError.FileNotFound path))
  else
    let* is_dir := fs_is_dir path in
    if negb is_dir
    then lift (Err (ImportExportError.InvalidFormat "expected .opvault directory"))
    else
      let* is_dir := fs_is_dir default_dir in
      if negb is_dir
      then lift (Err (ImportExportError.InvalidFormat "expected .opvault/default/ directory"))
      else
        let* profile := fs_exists (path_join default_dir "profile.js") in
        if profile then lift (Ok ())
        else lift (Err (ImportExportError.InvalidFormat
                          "expected .opvault/default/profile.js")).

End s.
End OpVault.
