(* ===== verification/ImportService.v ===== *)
(** * Import and export sessions (src/services/import_export/service.rs, types.rs,
    parser.rs)

    The trait [FormatParser] is a record of operations, the registry maps a source to
    one.  A session goes through the states of [ImportSessionStatus]; the service keeps
    the sessions by their identifiers. *)

From S2P Require Import Prelude Text Errors Env Types Storage Payload Checkpoint Crypto Keystore.
From S2P Require Import Pipeline Queries Files Formats Backup Foreign.

(** ** Parsers and their registry (parser.rs) *)

Record FormatParser (W : Type) : Type := mkFormatParser {
  fp_format : ImportSource.t;
  fp_parse : string → option string → option CsvColumnMapping →
             ior W (list ParsedItem) ImportExportError.t;
  fp_requires_password : bool;
  fp_validate_file : string → ior W () ImportExportError.t;
}.
Arguments mkFormatParser {W}.
Arguments fp_format {W}.
Arguments fp_parse {W}.
Arguments fp_requires_password {W}.
Arguments fp_validate_file {W}.

Definition FormatParserRegistry (W : Type) : Type := gmap ImportSource.t (FormatParser W).

Definition register {W} (parser : FormatParser W) (r : FormatParserRegistry W)
  : FormatParserRegistry W := <[fp_format parser := parser]> r.

Section parsers.
Context {W : Type} `{Libs} `{Runtime} `{CryptoLibs} `{OpVaultLibs} `{Csv} `{Zip}.
Context `{Fs W} `{FsBytes W} `{Secure W} `{Kdbx W} `{Glob W} `{Serde Json}.
Context `{Serde OkbPayload} `{Serde BitwardenExport} `{Serde OnePuxExport}.
Context `{Serde DecryptedOverview} `{Serde DecryptedDetails} `{Serde Profile}.
Context `{Serde (gmap string BandItem)}.

Definition CsvParser : FormatParser W :=
  mkFormatParser ImportSource.Csv (λ path _ mapping, parse_csv path mapping) false
    (λ path, validate_file_common path "csv").

Definition BitwardenParser : FormatParser W :=
  mkFormatParser ImportSource.Bitwarden (λ path _ _, Bitwarden.parse path) false
    (λ path, validate_file_common path "json").

Definition KeePassParser : FormatParser W :=
  mkFormatParser ImportSource.KeePass (λ path password _, KeePass.parse path password) false
    (λ path, validate_file_common path "kdbx").

Definition OnePuxParser : FormatParser W :=
  mkFormatParser ImportSource.OnePassword1pux (λ path _ _, OnePux.parse path) false
    (λ path, validate_file_common path "1pux").

Definition OpVaultParser : FormatParser W :=
  mkFormatParser ImportSource.OnePasswordOpvault
    (λ path password _, OpVault.parse_opvault path password) true OpVault.validate_file.

Definition OkbParser : FormatParser W :=
  mkFormatParser ImportSource.OpenKeyringBackup (λ path password _, parse_okb path password) true
    (λ path, validate_file_common path "okb").

Definition registry : FormatParserRegistry W :=
  register OkbParser (register OpVaultParser (register OnePuxParser
    (register KeePassParser (register BitwardenParser (register CsvParser ∅))))).

End parsers.

(** ** Sessions (types.rs) *)

Module ImportSessionStatus.
Inductive t : Set :=
| Created | Validating | Validated | Importing | Completed | Cancelled | Failed.

#[global] Instance t_eq_dec : EqDecision t.
Proof. solve_decision. Defined.

Definition debug (s : t) : string :=
  match s with
  | Created => "Created" | Validating => "Validating" | Validated => "Validated"
  | Importing => "Importing" | Completed => "Completed" | Cancelled => "Cancelled"
  | Failed => "Failed"
  end.
End ImportSessionStatus.

Module ExportSessionStatus.
Inductive t : Set := Created | Exporting | Completed | Failed.

#[global] Instance t_eq_dec : EqDecision t.
Proof. solve_decision. Defined.

Definition debug (s : t) : string :=
  match s with
  | Created => "Created" | Exporting => "Exporting" | Completed => "Completed"
  | Failed => "Failed"
  end.
End ExportSessionStatus.

Module ExportFormat.
Inductive t : Set := Okb | Csv.
End ExportFormat.

(** The validation result of a session is the summary of [validate_items]. *)
Record ImportSession : Set := mkImportSession {
  im_source : ImportSource.t;
  im_file_path : string;
  im_decrypt_password : option string;
  im_csv_mapping : option CsvColumnMapping;
  im_import_as_notes : bool;
  im_status : ImportSessionStatus.t;
  im_validation_result : option ImportValidationSummary;
  im_mapped_records : list MappedRecord;
  im_failed_items : list FailedItem;
  im_created_at : Instant;
}.

#[export] Instance eta_ImportSession : Eta ImportSession := λ s,
  mkImportSession (im_source s) (im_file_path s) (im_decrypt_password s) (im_csv_mapping s)
    (im_import_as_notes s) (im_status s) (im_validation_result s) (im_mapped_records s)
    (im_failed_items s) (im_created_at s).

Record ExportSession (Scope : Type) : Type := mkExportSession {
  es_scope : Scope;
  es_format : ExportFormat.t;
  es_export_password : string;
  es_output_path : string;
  es_status : ExportSessionStatus.t;
  es_record_count : nat;
  es_encrypted_size : option nat;
  es_created_at : Instant;
  es_completed_at : option Instant;
}.
Arguments mkExportSession {Scope}.
Arguments es_scope {Scope}.
Arguments es_format {Scope}.
Arguments es_export_password {Scope}.
Arguments es_output_path {Scope}.
Arguments es_status {Scope}.
Arguments es_record_count {Scope}.
Arguments es_encrypted_size {Scope}.
Arguments es_created_at {Scope}.
Arguments es_completed_at {Scope}.

#[export] Instance eta_ExportSession {Scope} : Eta (ExportSession Scope) := λ s,
  mkExportSession (es_scope s) (es_format s) (es_export_password s) (es_output_path s)
    (es_status s) (es_record_count s) (es_encrypted_size s) (es_created_at s)
    (es_completed_at s).

Record ImportResult : Set := mkImportResult {
  ir_imported : nat;
  ir_reviewed : nat;
  ir_skipped : nat;
  ir_failed : nat;
  ir_validation_failed : nat;
  ir_duration_ms : Z;
}.

Record ImportableRecord : Set := mkImportableRecord {
  ib_credential_type : CredentialType.t;
  ib_fields : gmap string string;
  ib_tags : list string;
  ib_is_review : bool;
}.

Record ImportParams (W : Type) : Type := mkImportParams {
  ip_session_id : Uuid;
  ip_existing_keys : gset ExistingRecordKey;
  ip_import_as_notes : bool;
  ip_progress_fn : option (nat → nat → string → io W ());
}.
Arguments mkImportParams {W}.
Arguments ip_session_id {W}.
Arguments ip_existing_keys {W}.
Arguments ip_import_as_notes {W}.
Arguments ip_progress_fn {W}.

Record ExportParams (W : Type) : Type := mkExportParams {
  ep_session_id : Uuid;
  ep_record_collector : ior W (list ExportRecord) string;
  ep_vault_id : string;
}.
Arguments mkExportParams {W}.
Arguments ep_session_id {W}.
Arguments ep_record_collector {W}.
Arguments ep_vault_id {W}.

Record ImportExportService (W Scope : Type) : Type := mkImportExportService {
  ie_import_sessions : gmap Uuid ImportSession;
  ie_export_sessions : gmap Uuid (ExportSession Scope);
  ie_parser_registry : FormatParserRegistry W;
}.
Arguments mkImportExportService {W Scope}.
Arguments ie_import_sessions {W Scope}.
Arguments ie_export_sessions {W Scope}.
Arguments ie_parser_registry {W Scope}.

#[export] Instance eta_ImportExportService {W Scope} : Eta (ImportExportService W Scope) := λ s,
  mkImportExportService (ie_import_sessions s) (ie_export_sessions s) (ie_parser_registry s).

(** ** The service (service.rs)

    A method borrows the service mutably: it is a computation in the service and the
    environment. *)

Section state.
Context {S W : Type}.

Definition world {A} (m : io W A) : io (S * W) A :=
  λ '(s, w), let '(a, w') := m w in (a, (s, w')).

Definition get_state : io (S * W) S := λ '(s, w), (s, (s, w)).
Definition set_state (f : S → S) : io (S * W) () := λ '(s, w), ((), (f s, w)).

End state.

Module ImportExport.
Section s.
Context {W Scope : Type} `{Libs} `{Runtime} `{Lowercase} `{Uppercase} `{Chrono} `{Regex}.
Context `{CryptoLibs} `{Csv} `{Fs W} `{FsBytes W} `{Secure W} `{System W}.
Context `{Serde ExportPayload}.

Local Abbreviation S := (ImportExportService W Scope).
Local Abbreviation method A := (ior (S * W) A ImportExportError.t).

Definition new (r : FormatParserRegistry W) : S := mkImportExportService ∅ ∅ r.

Definition put_import (id : Uuid) (f : ImportSession → ImportSession) : io (S * W) () :=
  set_state (λ s, s <| ie_import_sessions ::= alter f id |>).

Definition put_export (id : Uuid) (f : ExportSession Scope → ExportSession Scope)
  : io (S * W) () :=
  set_state (λ s, s <| ie_export_sessions ::= alter f id |>).

(** [self.import_sessions.get(&id).ok_or(SessionNotFound(id))?] *)
Definition import_session (id : Uuid) : method ImportSession :=
  let* s := get_state in
  lift (ok_or (ImportExportError.SessionNotFound id) (ie_import_sessions s !! id)).

Definition export_session (id : Uuid) : method (ExportSession Scope) :=
  let* s := get_state in
  lift (ok_or (ImportExportError.SessionNotFound id) (ie_export_sessions s !! id)).

(** [get_mut(&id).ok_or(..)?.status = status] *)
Definition set_import_status (id : Uuid) (status : ImportSessionStatus.t) : method () :=
  let! _ := import_session id in
  let* _ := put_import id (λ x, x <| im_status := status |>) in
  lift (Ok ()).

Definition set_export_status (id : Uuid) (status : ExportSessionStatus.t) : method () :=
  let! _ := export_session id in
  let* _ := put_export id (λ x, x <| es_status := status |>) in
  lift (Ok ()).

Definition create_import_session (source : ImportSource.t) (file_path : string)
    (decrypt_password : option string) (csv_mapping : option CsvColumnMapping)
    (import_as_notes : bool) : method Uuid :=
  let* id := world new_v4 in
  let* created_at := world now in
  let session := mkImportSession source file_path decrypt_password csv_mapping import_as_notes
    ImportSessionStatus.Created None [] [] created_at in
  let* _ := set_state (λ s, s <| ie_import_sessions ::= insert id session |>) in
  lift (Ok id).

Definition invalid_status {A} (expected actual : string) : method A :=
  lift (Err (ImportExportError.InvalidSessionStatus expected actual)).

(** [read_csv_headers(..).unwrap_or_default()] *)
Definition read_csv_headers (path : string) : io W (list string) :=
  let* data := fs_read path in
  io_ret
    match data with
    | Ok data => match csv_records data with Ok row :: _ => row | _ => [] end
    | Err _ => []
    end.

Definition headers_of (source : ImportSource.t) (path : string) : io W (list string) :=
  if bool_decide (source = ImportSource.Csv) then read_csv_headers path else io_ret [].

Definition preview (v : ImportValidationSummary) (csv_headers : list string) : ImportPreview :=
  mkImportPreview (is_importable v) (is_needs_review v) (is_failed v) (is_review_items v)
    (is_failed_items v) csv_headers.

Definition validate_import_file (id : Uuid) : method ImportPreview :=
  let! session := import_session id in
  if negb (bool_decide (im_status session = ImportSessionStatus.Created))
  then invalid_status "Created" (ImportSessionStatus.debug (im_status session))
  else
    let! _ := set_import_status id ImportSessionStatus.Validating in
    let* s := get_state in
    match ie_parser_registry s !! im_source session with
    | None => lift (Err (ImportExportError.UnsupportedFormat
                           (ImportSource.debug (im_source session))))
    | Some parser =>
        let* parsed := world (fp_parse parser (im_file_path session)
                                (im_decrypt_password session) (im_csv_mapping session)) in
        match parsed with
        | Err e =>
            let* _ := put_import id (λ x, x <| im_status := ImportSessionStatus.Failed |>) in
            lift (Err e)
        | Ok items =>
            let summary := validate_items items (get_rules_for_format (im_source session)) in
            let* mapped := world (map_parsed_items items (im_source session)) in
            let* csv_headers := world (headers_of (im_source session) (im_file_path session)) in
            let! _ := import_session id in
            let* _ := put_import id (λ x,
              x <| im_status := ImportSessionStatus.Validated |>
                <| im_validation_result := Some summary |>
                <| im_mapped_records := mapped |>) in
            lift (Ok (preview summary csv_headers))
        end
    end.

Definition get_import_preview (id : Uuid) : method ImportPreview :=
  let! session := import_session id in
  match im_validation_result session with
  | None => invalid_status "Validated" (ImportSessionStatus.debug (im_status session))
  | Some v =>
      let* csv_headers := world (headers_of (im_source session) (im_file_path session)) in
      lift (Ok (preview v csv_headers))
  end.

(** A review item as an entry of its own. *)
Definition review_record (item : ReviewItem) : ImportableRecord :=
  mkImportableRecord CredentialType.Login {["name" := ri_name item]} [] true.

(** A mapped record as the duplicate detection sees it. *)
Definition for_duplicates (r : MappedRecord) : ParsedItem :=
  mkParsedItem (mr_source_item_id r)
    (<["credential_type" := CredentialType.to_db_str (mr_credential_type r)]> (mr_fields r))
    (mr_tags r).

Definition importable (r : MappedRecord) : ImportableRecord :=
  mkImportableRecord (mr_credential_type r) (mr_fields r) (mr_tags r) false.

(** The counters of the loop over the records, and the records to create. *)
Record Tally : Set := mkTally {
  ta_imported : nat;
  ta_skipped : nat;
  ta_validation_failed : nat;
  ta_records : list ImportableRecord;
}.

(** The record at [i]: failed validation first, then duplicates. *)
Definition tally_one (passed dup : list bool) (i : nat) (r : MappedRecord) (t : Tally) : Tally :=
  if bool_decide (passed !! i = Some false)
  then mkTally (ta_imported t) (ta_skipped t) (1 + ta_validation_failed t) (ta_records t)
  else if bool_decide (dup !! i = Some true)
  then mkTally (ta_imported t) (1 + ta_skipped t) (ta_validation_failed t) (ta_records t)
  else mkTally (1 + ta_imported t) (ta_skipped t) (ta_validation_failed t)
         (ta_records t ++ [importable r]).

Definition report (progress : option (nat → nat → string → io W ())) (i total : nat)
    (name : string) : io W () :=
  match progress with Some f => f i total name | None => io_ret () end.

Fixpoint import_records (progress : option (nat → nat → string → io W ())) (total : nat)
    (passed dup : list bool) (i : nat) (records : list MappedRecord) (t : Tally)
  : io W Tally :=
  match records with
  | [] => io_ret t
  | r :: records =>
      let* _ := report progress (1 + i) total (field "name" (mr_fields r)) in
      import_records progress total passed dup (1 + i) records (tally_one passed dup i r t)
  end.

Fixpoint report_reviews (progress : option (nat → nat → string → io W ())) (total : nat)
    (i : nat) (reviews : list ReviewItem) : io W () :=
  match reviews with
  | [] => io_ret ()
  | r :: reviews =>
      let* _ := report progress (1 + i) total (ri_name r) in
      report_reviews progress total (1 + i) reviews
  end.

(** The review items get identifiers of their own, which nothing uses. *)
Fixpoint review_ids (reviews : list ReviewItem) : io W () :=
  match reviews with
  | [] => io_ret ()
  | _ :: reviews =>
      let* _ := new_v4 in
      review_ids reviews
  end.

Definition reviews_of (session : ImportSession) (import_as_notes : bool) : list ReviewItem :=
  if import_as_notes then from_option is_review_items [] (im_validation_result session) else [].

(** [elapsed().as_millis() as u64] *)
Definition elapsed_millis (start stop : Instant) : Z := wrap64 ((stop - start) / nanos_per_milli).

Definition execute_import (params : ImportParams W)
  : method (ImportResult * list ImportableRecord) :=
  let id := ip_session_id params in
  let! session := import_session id in
  if negb (bool_decide (im_status session = ImportSessionStatus.Validated))
  then invalid_status "Validated" (ImportSessionStatus.debug (im_status session))
  else
    let! _ := set_import_status id ImportSessionStatus.Importing in
    let! session := import_session id in
    let records := im_mapped_records session in
    let* _ := put_import id (λ x, x <| im_mapped_records := [] |>) in
    let passed := from_option is_item_passed [] (im_validation_result session) in
    let reviews := reviews_of session (ip_import_as_notes params) in
    let* _ := world (review_ids reviews) in
    let dup := detect_duplicates (for_duplicates <$> records) (ip_existing_keys params) in
    let* start := world monotonic_now in
    let total := (length records + length reviews)%nat in
    let* t := world (import_records (ip_progress_fn params) total passed dup 0 records
                       (mkTally 0 0 0 [])) in
    let* _ := world (report_reviews (ip_progress_fn params) total (length records) reviews) in
    let* stop := world monotonic_now in
    let import_result := mkImportResult (ta_imported t) (length reviews) (ta_skipped t) 0
      (ta_validation_failed t) (elapsed_millis start stop) in
    let! _ := set_import_status id ImportSessionStatus.Completed in
    lift (Ok (import_result, ta_records t ++ (review_record <$> reviews))).

Definition cancel_import (id : Uuid) : method () :=
  set_import_status id ImportSessionStatus.Cancelled.

Definition cleanup_session (id : Uuid) : method () :=
  let! _ := import_session id in
  let* _ := set_state (λ s, s <| ie_import_sessions ::= delete id |>) in
  lift (Ok ()).

(** ** Export *)

Definition create_export_session (scope : Scope) (format : ExportFormat.t)
    (export_password output_path : string) : method Uuid :=
  let! _ :=
    match format with
    | ExportFormat.Okb =>
        let! _ := lift (validate_export_password export_password) in
        world (validate_export_path output_path)
    | ExportFormat.Csv => world (validate_export_csv_path output_path)
    end in
  let* id := world new_v4 in
  let* created_at := world now in
  let session := mkExportSession scope format export_password output_path
    ExportSessionStatus.Created 0 None created_at None in
  let* _ := set_state (λ s, s <| ie_export_sessions ::= insert id session |>) in
  lift (Ok id).

Definition write_output (session : ExportSession Scope) (payload : ExportPayload)
  : ior W nat ImportExportError.t :=
  match es_format session with
  | ExportFormat.Okb =>
      encrypt_and_write_okb payload (es_export_password session) (es_output_path session)
  | ExportFormat.Csv => write_csv payload (es_output_path session)
  end.

Definition execute_export (params : ExportParams W) : method (string * nat) :=
  let id := ep_session_id params in
  let! session := export_session id in
  if negb (bool_decide (es_status session = ExportSessionStatus.Created))
  then invalid_status "Created" (ExportSessionStatus.debug (es_status session))
  else
    let! _ := set_export_status id ExportSessionStatus.Exporting in
    let! records := world (io_map_err ImportExportError.VaultError (ep_record_collector params)) in
    if bool_decide (records = []) then
      let* _ := put_export id (λ x, x <| es_status := ExportSessionStatus.Failed |>) in
      lift (Err (ImportExportError.VaultError "no records to export"))
    else
      let* n := world now in
      let payload := mkExportPayload "1.0" (ep_vault_id params) (rfc3339_print n) records in
      let! session := export_session id in
      let! size := world (write_output session payload) in
      let! _ := export_session id in
      let* completed := world now in
      let* _ := put_export id (λ x,
        x <| es_status := ExportSessionStatus.Completed |>
          <| es_record_count := length records |>
          <| es_encrypted_size := Some size |>
          <| es_completed_at := Some completed |>) in
      lift (Ok (es_output_path session, length records)).

Definition cancel_export_session (id : Uuid) : method () :=
  set_export_status id ExportSessionStatus.Failed.

Definition import_session_status (id : Uuid) (s : S) : option ImportSessionStatus.t :=
  im_status <$> ie_import_sessions s !! id.

Definition export_session_status (id : Uuid) (s : S) : option ExportSessionStatus.t :=
  es_status <$> ie_export_sessions s !! id.

Definition has_parser (source : ImportSource.t) (s : S) : bool :=
  bool_decide (is_Some (ie_parser_registry s !! source)).

Definition session_count (s : S) : nat := size (ie_import_sessions s).

End s.
End ImportExport.
