(* ===== verification/Listing.v ===== *)
(** * Listings of a vault (src/services/vault/record/list.rs, helpers.rs, search.rs,
    audit.rs, src/db/queries/record.rs, audit.rs, src/commands/types.rs)

    Records by a filter and an order, as a whole or by pages of the list index, the
    counts of the categories, and the audit log. *)

From Stdlib Require Import Ascii.
From stdpp Require Import sorting.
From S2P Require Import Prelude Text Errors Env Types Storage Crypto Keystore Payload.
From S2P Require Import Database Queries Vault Records Formats.

(** ** Filters and orders (src/commands/types.rs) *)

Module RecordFilter.
Inductive t : Set :=
| All
| Favorites
| Expired
| HealthIssues
| Trash
| Tag (tag_name : string)
| Search (query : string).

#[global] Instance t_eq_dec : EqDecision t.
Proof. solve_decision. Defined.
End RecordFilter.

Module SortField.
Inductive t : Set := Name | CreatedAt | UpdatedAt | UsageFrequency.

#[global] Instance t_eq_dec : EqDecision t.
Proof. solve_decision. Defined.
End SortField.

Module SortDirection.
Inductive t : Set := Asc | Desc.

#[global] Instance t_eq_dec : EqDecision t.
Proof. solve_decision. Defined.
End SortDirection.

Record RecordSort : Set := mkRecordSort {
  so_field : SortField.t;
  so_direction : SortDirection.t;
}.

Record RecordCategoryCounts : Set := mkRecordCategoryCounts {
  rc_all : nat;
  rc_favorites : nat;
  rc_expired : nat;
  rc_health_issues : nat;
  rc_trash : nat;
}.

Module ExportScope.
Inductive t : Set :=
| All
| CurrentFilter (filter : RecordFilter.t)
| ByTag (tag : string).
End ExportScope.

Module AuditTimeRange.
Inductive t : Set := Today | LastWeek | LastMonth | LastYear | All.
End AuditTimeRange.

Record AuditFilter : Set := mkAuditFilter {
  af_operation : option AuditOperation.t;
  af_time_range : option AuditTimeRange.t;
  af_search : option string;
  af_limit : option nat;
  af_offset : nat;
}.

Definition DEFAULT_RECORD_LIST_PAGE_SIZE : nat := 500.

(** ** Search terms

    [str::split_whitespace]: the runs of characters that are not white space. *)
Fixpoint runs (word : list Z) (l : list Z) : list (list Z) :=
  match l with
  | [] => [rev word]
  | c :: l => if is_whitespace c then rev word :: runs [] l else runs (c :: word) l
  end.

Definition split_whitespace (s : string) : list string :=
  of_chars <$> filter (λ w, w ≠ []) (runs [] (chars s)).

(** [haystack.contains(needle)] *)
Fixpoint contains_text (needle s : string) : bool :=
  starts_with needle s
  || match s with EmptyString => false | String _ s => contains_text needle s end.

(** ** SQL

    [X LIKE Y]: [%] stands for any text and [_] for one character; the letters of ASCII
    match in either case.  Both texts end at the first NUL. *)
Definition fold_case (c : Z) : Z := if within 65 90 c then (c + 32)%Z else c.

Fixpoint like (pattern text : list Z) : bool :=
  match pattern with
  | [] => bool_decide (text = [])
  | c :: pattern =>
      if (c =? 37)%Z then
        (fix rest (text : list Z) : bool :=
           like pattern text || match text with [] => false | _ :: text => rest text end) text
      else
        match text with
        | [] => false
        | d :: text => ((c =? 95)%Z || (fold_case c =? fold_case d)%Z) && like pattern text
        end
  end.

Definition sql_like (pattern text : string) : bool :=
  like (before_nul (chars pattern)) (before_nul (chars text)).

Definition containing (term : string) : string := "%" +:+ term +:+ "%".

(** [COLLATE NOCASE], as a number of the sign of the comparison. *)
Fixpoint nocase_prefix (a b : list Z) : Z :=
  match a, b with
  | x :: a', y :: b' =>
      if (x =? 0)%Z || negb (fold_case x =? fold_case y)%Z then (fold_case x - fold_case y)%Z
      else nocase_prefix a' b'
  | _, _ => 0%Z
  end.

Definition nocase (a b : string) : Z :=
  let d := nocase_prefix (as_bytes a) (as_bytes b) in
  if (d =? 0)%Z then (Z.of_nat (String.length a) - Z.of_nat (String.length b))%Z else d.

(** ** The pages of the list index (src/db/queries/record.rs) *)

Record RecordListPageRow : Set := mkRecordListPageRow {
  lp_record : StoredRecord;
  lp_name : string;
  lp_subtitle : string;
}.

Section sql.
Context `{Lowercase}.

Definition search_terms (query : string) : list string :=
  filter (λ term, term ≠ "") (to_lowercase <$> split_whitespace query).

(** The rows of [record_health_state] that a filter looks for. *)
Definition is_expired_row (h : HealthStateRow) : bool := bool_decide (hr_expired h = Some 1%Z).
Definition has_issue_row (h : HealthStateRow) : bool :=
  bool_decide (hr_weak_password h = Some 1%Z) || bool_decide (hr_compromised h = Some 1%Z)
  || is_expired_row h || bool_decide (is_Some (hr_duplicate_group_size h)).

(** The condition of [record_list_where_clause] on a record and its index row. *)
Definition record_list_where (filter : RecordFilter.t) (t : Tables)
    (r : RecordRow) (i : ListIndexRow) : bool :=
  let health P := match t_health t !! row_id r with Some h => P h | None => false end in
  (row_deleted r =? (if bool_decide (filter = RecordFilter.Trash) then 1 else 0))%Z
  && match filter with
     | RecordFilter.Favorites => (row_is_favorite r =? 1)%Z
     | RecordFilter.Tag tag_name => bool_decide (tag_name ∈ sql_record_tags (row_id r) t)
     | RecordFilter.Search query =>
         forallb (λ term, sql_like (containing term) (li_search_text i)) (search_terms query)
     | RecordFilter.Expired => health is_expired_row
     | RecordFilter.HealthIssues => health has_issue_row
     | RecordFilter.All | RecordFilter.Trash => true
     end.

(** [records r INNER JOIN record_list_index i ON i.record_id = r.id WHERE ..] *)
Definition page_rows (filter : RecordFilter.t) (t : Tables) : list (RecordRow * ListIndexRow) :=
  omap (λ '(id, r),
    match t_list_index t !! id with
    | Some i => if record_list_where filter t r i then Some (r, i) else None
    | None => None
    end) (map_to_list (t_records t)).

Definition sql_access_count (id : string) (t : Tables) : nat :=
  length (filter (λ a, al_record_id a = Some id) (t_audit_log t)).

(** The comparison by the first column of [record_list_order_clause]. *)
Definition order_column (field : SortField.t) (t : Tables)
    (x y : RecordRow * ListIndexRow) : Z :=
  match field with
  | SortField.Name => nocase (li_name_sort_key x.2) (li_name_sort_key y.2)
  | SortField.CreatedAt => (row_created_at x.1 - row_created_at y.1)%Z
  | SortField.UpdatedAt => (row_updated_at x.1 - row_updated_at y.1)%Z
  | SortField.UsageFrequency =>
      (Z.of_nat (sql_access_count (row_id x.1) t) - Z.of_nat (sql_access_count (row_id y.1) t))%Z
  end.

Definition directed (d : SortDirection.t) (z : Z) : Z :=
  match d with SortDirection.Asc => z | SortDirection.Desc => (- z)%Z end.

(** [.., r.updated_at DESC, r.id ASC] *)
Definition page_le (sort : RecordSort) (t : Tables) (x y : RecordRow * ListIndexRow) : Prop :=
  let d := directed (so_direction sort) (order_column (so_field sort) t x y) in
  (d < 0)%Z ∨ d = 0%Z ∧
  ((row_updated_at y.1 < row_updated_at x.1)%Z ∨
   row_updated_at x.1 = row_updated_at y.1 ∧ text_le (row_id x.1) (row_id y.1)).

#[global] Instance page_le_dec sort t : RelDecision (page_le sort t).
Proof. unfold page_le. solve_decision. Defined.

(** [LIMIT ? OFFSET ?] *)
Definition sql_page (filter : RecordFilter.t) (sort : RecordSort) (limit offset : nat)
    (t : Tables) : list (RecordRow * ListIndexRow) :=
  take limit (drop offset (merge_sort (page_le sort t) (page_rows filter t))).

(** The five counts of [record_category_counts]. *)
Definition sql_count_records (P : RecordRow → bool) (t : Tables) : nat :=
  size (filter (λ r, P r.2 = true) (t_records t)).

Definition sql_count_health (P : HealthStateRow → bool) (t : Tables) : nat :=
  size (filter (λ r, (row_deleted r.2 =? 0)%Z = true ∧
    from_option P false (t_health t !! r.1) = true) (t_records t)).

End sql.

Section queries.
Context {W : Type} `{Libs} `{UuidErrors} `{Lowercase} `{Sqlite W}.

Definition count_record_list_page (filter : RecordFilter.t) : ior W nat DbError.t :=
  sqlite (sql_query (λ t, length (page_rows filter t))).

Fixpoint page_records (rows : list (RecordRow * ListIndexRow))
  : ior W (list RecordListPageRow) DbError.t :=
  match rows with
  | [] => lift (Ok [])
  | (row, i) :: rows =>
      let! id := lift (ok_or (DbError.Uuid (uuid_error (row_id row))) (uuid_parse (row_id row))) in
      let! tags := get_record_tags_inner id in
      let! record := data (RecordRow.to_stored_record row tags) in
      let! page := page_records rows in
      lift (Ok (mkRecordListPageRow record (li_name i) (li_subtitle i) :: page))
  end.

Definition list_record_page_rows (filter : RecordFilter.t) (sort : RecordSort)
    (limit offset : nat) : ior W (list RecordListPageRow) DbError.t :=
  let! rows := sqlite (sql_query (sql_page filter sort limit offset)) in
  page_records rows.

Definition count_scalar (f : Tables → nat) : ior W nat DbError.t := sqlite (sql_query f).

Definition record_category_counts : ior W RecordCategoryCounts DbError.t :=
  let! all := count_scalar (sql_count_records (λ r, row_deleted r =? 0)%Z) in
  let! favorites :=
    count_scalar (sql_count_records (λ r, (row_deleted r =? 0) && (row_is_favorite r =? 1)))%Z in
  let! expired := count_scalar (sql_count_health is_expired_row) in
  let! health_issues := count_scalar (sql_count_health has_issue_row) in
  let! trash := count_scalar (sql_count_records (λ r, row_deleted r =? 1)%Z) in
  lift (Ok (mkRecordCategoryCounts all favorites expired health_issues trash)).

End queries.

(** ** In the application (search.rs, helpers.rs) *)

Section application.
Context `{Libs} `{Lowercase}.

Definition matches_term (r : TuiRecord) (term : string) : bool :=
  contains_text (to_lowercase term) (to_lowercase (tr_name r))
  || contains_text (to_lowercase term) (to_lowercase (tr_subtitle r)).

Definition search_records (records : list TuiRecord) (query : string) : list TuiRecord :=
  if bool_decide (trim query = "") then records
  else filter (λ r, forallb (matches_term r) (split_whitespace query) = true) records.

(** [a ≤ b] by the field of the sort. *)
Definition field_le (field : SortField.t) (freq_map : option (gmap string Z))
    (a b : TuiRecord) : Prop :=
  let freq r :=
    default 0%Z (freq_map ≫= λ m, m !! uuid_to_string (tr_id r)) in
  match field with
  | SortField.Name => text_le (tr_name a) (tr_name b)
  | SortField.CreatedAt => (tr_created_at a ≤ tr_created_at b)%Z
  | SortField.UpdatedAt => (tr_updated_at a ≤ tr_updated_at b)%Z
  | SortField.UsageFrequency => (freq a ≤ freq b)%Z
  end.

Definition sort_le (sort : RecordSort) (freq_map : option (gmap string Z))
    (a b : TuiRecord) : Prop :=
  match so_direction sort with
  | SortDirection.Asc => field_le (so_field sort) freq_map a b
  | SortDirection.Desc => field_le (so_field sort) freq_map b a
  end.

#[global] Instance field_le_dec field freq_map : RelDecision (field_le field freq_map).
Proof. intros a b. unfold field_le. destruct field; apply _. Defined.
#[global] Instance sort_le_dec sort freq_map : RelDecision (sort_le sort freq_map).
Proof. intros a b. unfold sort_le. destruct (so_direction sort); apply field_le_dec. Defined.

(** [sort_by], which is stable. *)
Definition apply_sort (records : list TuiRecord) (sort : RecordSort)
    (freq_map : option (gmap string Z)) : list TuiRecord :=
  merge_sort (sort_le sort freq_map) records.

End application.

Module Listing.
Section s.
Context {W : Type} `{Libs} `{UuidErrors} `{Lowercase} `{ConversionErrors} `{CryptoLibs}.
Context `{Secure W} `{Sqlite W} `{System W} `{Serde Json}.
Import VaultService Records.

(** A record of a listing without what the health report adds to it. *)
Definition tui_record (r : StoredRecord) (name subtitle : string)
    (sync_map : gmap string SyncStatus.t) : TuiRecord :=
  mkTuiRecord (st_id r) (st_credential_type r) name subtitle (st_is_favorite r) false
    (st_expires_at r) false false None (st_created_at r) (st_updated_at r) (st_deleted r)
    (st_deleted_at r) (st_tags r) (sync_map !! uuid_to_string (st_id r)).

Definition indexed_row_to_tui_record (row : RecordListPageRow)
    (sync_map : gmap string SyncStatus.t) : TuiRecord :=
  tui_record (lp_record row) (lp_name row) (lp_subtitle row) sync_map.

Definition list_records_page (v : VaultServiceImpl) (filter : RecordFilter.t)
    (sort : RecordSort) (limit offset : nat) : ior W (list TuiRecord * nat) VaultError.t :=
  let! _ := check_unlocked v in
  let! _ := ensure_record_list_index v in
  let! total := db (count_record_list_page filter) in
  let! rows := db (list_record_page_rows filter sort limit offset) in
  let* sync_map := load_sync_status_map in
  lift (Ok ((λ row, indexed_row_to_tui_record row sync_map) <$> rows, total)).

Definition category_counts : ior W RecordCategoryCounts VaultError.t :=
  db record_category_counts.

(** The body of the loops of [list_records] over the stored records. *)
Definition decrypted_entry (v : VaultServiceImpl) (sync_map : gmap string SyncStatus.t)
    (stored : StoredRecord) : ior W TuiRecord VaultError.t :=
  let aad := record_aad (st_id stored) in
  let! name := crypto (decrypt_name_only (vs_crypto v) (st_encrypted_data stored)
                 (st_nonce stored) aad (st_dek_version stored)) in
  let! subtitle := crypto (decrypt_subtitle (vs_crypto v) (st_encrypted_data stored)
                     (st_nonce stored) aad (st_credential_type stored) (st_dek_version stored)) in
  lift (Ok (tui_record stored name subtitle sync_map)).

Fixpoint decrypted_entries (v : VaultServiceImpl) (sync_map : gmap string SyncStatus.t)
    (records : list StoredRecord) : ior W (list TuiRecord) VaultError.t :=
  match records with
  | [] => lift (Ok [])
  | stored :: records =>
      let! entry := decrypted_entry v sync_map stored in
      let! entries := decrypted_entries v sync_map records in
      lift (Ok (entry :: entries))
  end.

(** The filters that the loop applies before it decrypts. *)
Definition keeps_stored (filter : RecordFilter.t) (r : StoredRecord) : bool :=
  match filter with
  | RecordFilter.Favorites => st_is_favorite r
  | RecordFilter.Tag tag_name => bool_decide (tag_name ∈ st_tags r)
  | _ => true
  end.

(** The entries of [audit_log] with the identifier, an error counting as none. *)
Fixpoint get_access_frequencies (record_ids : list string) : io W (gmap string Z) :=
  match record_ids with
  | [] => io_ret ∅
  | id :: ids =>
      let* count := sql_query (λ t, Z.of_nat (sql_access_count id t)) in
      let* m := get_access_frequencies ids in
      io_ret (if bool_decide (id ∈ ids) then m else <[id := default 0%Z (ok count)]> m)
  end.

Definition sorted_records (sort : RecordSort) (records : list TuiRecord)
  : io W (list TuiRecord) :=
  let* freq_map :=
    if bool_decide (so_field sort = SortField.UsageFrequency) then
      let* m := get_access_frequencies ((λ r, uuid_to_string (tr_id r)) <$> records) in
      io_ret (Some m)
    else io_ret None in
  io_ret (apply_sort records sort freq_map).

Definition list_records (v : VaultServiceImpl) (filter : RecordFilter.t) (sort : RecordSort)
  : ior W (list TuiRecord) VaultError.t :=
  let! _ := check_unlocked v in
  let! stored_records :=
    db match filter with
       | RecordFilter.Trash => list_deleted_records
       | _ => list_active_records
       end in
  let* sync_map := load_sync_status_map in
  let! tui_records := decrypted_entries v sync_map
    (base.filter (λ r, keeps_stored filter r = true) stored_records) in
  let found :=
    match filter with
    | RecordFilter.Search query => search_records tui_records query
    | _ => tui_records
    end in
  let* sorted := sorted_records sort found in
  lift (Ok sorted).

End s.
End Listing.

(** ** The audit log (src/db/queries/audit.rs, src/services/vault/audit.rs,
    src/types/audit.rs)

    An entry without its identifier, which the tables of the model do not give. *)

Record AuditEntry : Set := mkAuditEntry {
  ae_operation : AuditOperation.t;
  ae_record_id : option Uuid;
  ae_record_name : option string;
  ae_detail : option string;
  ae_occurred_at : Instant;
}.

Module AuditLog.
Section s.
Context {W : Type} `{Libs} `{Sqlite W} `{System W}.
Import VaultService.

(** [AuditLogRow::to_audit_entry] *)
Definition to_audit_entry (a : AuditLogRow) : result AuditEntry DataError.t :=
  let? operation := AuditOperation.from_db_str (al_operation a) in
  let? record_id :=
    transpose (λ s, ok_or (DataError.InvalidUuid s) (uuid_parse s)) (al_record_id a) in
  let? occurred_at := timestamp_to_datetime (al_occurred_at a) in
  Ok (mkAuditEntry operation record_id (al_record_name a) (al_detail a) occurred_at).

Fixpoint to_audit_entries (rows : list AuditLogRow) : result (list AuditEntry) DataError.t :=
  match rows with
  | [] => Ok []
  | a :: rows =>
      let? entry := to_audit_entry a in
      let? entries := to_audit_entries rows in
      Ok (entry :: entries)
  end.

(** The conditions of [list_audit_entries_filtered] and [count_audit_entries]; [NULL] is
    like nothing. *)
Definition audit_where (operation : option string) (time_start time_end : option Z)
    (search : option string) (a : AuditLogRow) : bool :=
  from_option (λ op, bool_decide (al_operation a = op)) true operation
  && from_option (λ start, (start <=? al_occurred_at a)%Z) true time_start
  && from_option (λ stop, (al_occurred_at a <=? stop)%Z) true time_end
  && from_option (λ q,
       from_option (sql_like (containing q)) false (al_record_name a)
       || from_option (sql_like (containing q)) false (al_detail a)) true search.

(** [ORDER BY occurred_at DESC LIMIT .. OFFSET ..] *)
Definition list_audit_entries_filtered (operation : option string)
    (time_start time_end : option Z) (search : option string) (limit offset : nat)
  : ior W (list AuditEntry) DbError.t :=
  let! rows := sqlite (sql_select (λ t,
    filter (λ a, audit_where operation time_start time_end search a = true) (t_audit_log t))) in
  data (to_audit_entries (take limit (drop offset (merge_sort (by_key later al_occurred_at) rows)))).

Definition count_audit_entries (operation : option string) (time_start time_end : option Z)
    (search : option string) : ior W nat DbError.t :=
  sqlite (sql_query (λ t, length
    (filter (λ a, audit_where operation time_start time_end search a = true) (t_audit_log t)))).

(** [DELETE FROM audit_log WHERE occurred_at < ?1] *)
Definition cleanup_audit_entries (before_timestamp : Z) : ior W nat DbError.t :=
  sqlite (sql_execute (λ t,
    Ok (length (filter (λ a, (al_occurred_at a < before_timestamp)%Z) (t_audit_log t)),
        t <| t_audit_log ::= filter (λ a, ¬ (al_occurred_at a < before_timestamp)%Z) |>))).

Definition hours (n : Z) : Duration := seconds (n * 3600).
Definition DEFAULT_AUDIT_PAGE_SIZE : nat := 50.

Definition compute_time_bounds (time_range : option AuditTimeRange.t)
  : io W (option Z * option Z) :=
  let since (d : Duration) :=
    let* n := now in
    io_ret (Some (datetime_to_timestamp (n - d)%Z), None) in
  match time_range with
  | None | Some AuditTimeRange.All => io_ret (None, None)
  | Some AuditTimeRange.Today => since (hours 24)
  | Some AuditTimeRange.LastWeek => since (hours (7 * 24))
  | Some AuditTimeRange.LastMonth => since (hours (30 * 24))
  | Some AuditTimeRange.LastYear => since (hours (365 * 24))
  end.

Definition query_audit_log (filter : AuditFilter) : ior W (list AuditEntry * nat) VaultError.t :=
  let operation := AuditOperation.to_db_str <$> af_operation filter in
  let* bounds := compute_time_bounds (af_time_range filter) in
  let '(time_start, time_end) := bounds in
  let! total := db (count_audit_entries operation time_start time_end (af_search filter)) in
  let! entries := db (list_audit_entries_filtered operation time_start time_end
                        (af_search filter) (default DEFAULT_AUDIT_PAGE_SIZE (af_limit filter))
                        (af_offset filter)) in
  lift (Ok (entries, total)).

Definition cleanup_audit_log (retention_days : Z) : ior W nat VaultError.t :=
  let* n := now in
  db (cleanup_audit_entries (datetime_to_timestamp (n - hours (retention_days * 24))%Z)).

End s.
End AuditLog.
