(* ===== verification/Executor.v ===== *)
(** * The executor's interfaces (src/commands/result.rs, src/executor/runtime.rs,
    src/services/sync.rs)

    What the command handlers share: the results they report, the vault runtime, the
    fields of the executor that they use, and the sync service they call. *)

From S2P Require Import Prelude Errors Env Types CloudRecord CloudMetadata.
From S2P Require Import Pipeline Conflict SyncTask Crypto Keystore Database Vault Records Tags.
From S2P Require Import Password Files Formats ImportService Listing.

Module SkipReason.
Inductive t : Set := Duplicate | ValidationFailed | VaultWriteError.
End SkipReason.

Module DatabaseRecoverySource.
Inductive t : Set := Cloud | Okb.
End DatabaseRecoverySource.

(** src/types/history.rs *)
Record PasswordHistoryView : Set := mkPasswordHistoryView {
  pv_id : Z;
  pv_password : string;
  pv_changed_at : Instant;
}.

Module CommandResult.

(** The results that the handlers of the development report; the breakdown of what an
    import skipped is a list of its entries. *)
Inductive t : Set :=
| Void
| RecordCreated (id : Uuid)
| RecordUpdated (id : Uuid)
| RecordDeleted (id : Uuid)
| RecordRestored (id : Uuid)
| RecordDestroyed (id : Uuid)
| FavoriteToggled (id : Uuid) (is_favorite : bool)
| RecordListLoaded (records : list TuiRecord) (total : nat) (counts : RecordCategoryCounts)
| RecordDetailLoaded (record : DecryptedRecord) (strength : option PasswordStrength)
    (issue : option HealthIssue.t)
| RecordForEditLoaded (record : DecryptedRecord)
| FieldDecrypted (id : Uuid) (field : FieldSelector.t) (value : string)
| CopiedToClipboard (field : FieldSelector.t) (clear_after_seconds : Z)
| PasswordHistoryLoaded (history : list PasswordHistoryView)
| HistoryPasswordCopied (clear_after_seconds : Z)
| TagsLoaded (tags : list Tag) (tag_stats : gmap Z TagSortMeta)
| TagRenamed (old_name new_name : string)
| TagDeleted (name : string)
| BatchTagAdded (count : Z)
| BatchTagRemoved (count : Z)
| BatchDeleted (count : Z)
| BatchRestored (count : Z)
| BatchDestroyed (count : Z)
| TrashEmptied (count : Z)
| PasswordGenerated (password : string) (strength : PasswordStrength)
| HealthCheckSkipped
| HealthCheckStarted
| HealthCheckCompleted (report : HealthReport)
| HibpCheckCompleted (record_id : Uuid) (compromised : bool)
| SyncCompleted (stats : SyncStats)
| ConflictResolved (record_id : Uuid)
| AllConflictsResolved (count : nat)
| ImportValidated (session_id : Uuid) (preview : ImportPreview)
| ImportCompleted (imported_count reviewed_count skipped_count failed_count : nat)
    (skip_breakdown : list (SkipReason.t * nat))
| ExportCompleted (path : string) (record_count : nat) (format : ExportFormat.t)
| VaultUnlocked
| VaultUnlockFailed (attempts_remaining : option Z)
| RecoveryKeyUnlocked
| VaultLocked
| MasterPasswordVerified
| MasterPasswordChanged
| VaultInitialized
| AuditLogLoaded (entries : list AuditEntry) (total : nat)
| RotationCompleted (old_version new_version records_migrated : Z)
| RotationTriggerChecked (should_rotate : bool) (reason : option string)
| Error (code : ErrorCode.t) (context : ErrorContext) (message_key fallback : string)
| Cancelled (operation : string) (partial_progress : option string)
| RecoveryWordsValidated
| KeyFileRebuilt
| DatabaseRestored (source : DatabaseRecoverySource.t)
| DatabaseValidationFailed (reason : string)
| DatabaseRestoreNeedsOAuth.

Definition cancelled (operation : string) : t := Cancelled operation None.

End CommandResult.

Module VaultRuntime.

Inductive t : Set := Locked | Pending | Open (v : VaultServiceImpl).

(** The error is a [RuntimeVaultError], which converts to [NotUnlocked]. *)
Definition open_vault (r : t) : result VaultServiceImpl VaultError.t :=
  match r with
  | Open v => Ok v
  | Locked | Pending => Err VaultError.NotUnlocked
  end.

End VaultRuntime.

(** The state of the cancellation token when a handler starts, the vault, whether it is a
    file and not a placeholder in memory, its directory, the verified master password,
    whether a sync service is configured, the health report that the interface shows, and
    when the last check completed. *)
Record CommandExecutor : Set := mkCommandExecutor {
  ex_cancelled : bool;
  ex_vault_runtime : VaultRuntime.t;
  ex_vault_db_file_backed : bool;
  ex_sync : bool;
  ex_vault_dir : string;
  ex_verified_master_password : option string;
  ex_health_report : option HealthReport;
  ex_last_health_check_time : option Instant;
}.

#[export] Instance eta_CommandExecutor : Eta CommandExecutor := λ x,
  mkCommandExecutor (ex_cancelled x) (ex_vault_runtime x) (ex_vault_db_file_backed x) (ex_sync x)
    (ex_vault_dir x) (ex_verified_master_password x) (ex_health_report x)
    (ex_last_health_check_time x).

Record SyncResult : Set := mkSyncResult {
  sy_report : SyncReport;
  sy_downloaded_health_states : list RecordHealthState;
  sy_downloaded_health_deleted : list Uuid;
  sy_downloaded_records : list CloudRecord;
  sy_uploaded_ids : list string;
  sy_conflict_data : gmap string bytes;
  sy_remote_metadata : option CloudMetadata;
}.

(** The trait of the sync service; [ss_sync] is [sync_with_cancel] with the executor's
    token. *)
Class SyncService (W : Type) : Type := {
  ss_sync : option SyncVaultData → ior W SyncResult SyncError.t;
  ss_resolve_conflict : string → ResolutionStrategy.t → ior W () SyncError.t;
  ss_resolve_all_conflicts : ResolutionStrategy.t → ior W nat SyncError.t;
  ss_pause : ior W () SyncError.t;
  ss_resume : ior W () SyncError.t;
  ss_download_metadata : ior W (option CloudMetadata) SyncError.t;
  ss_push_metadata_atomic : CloudMetadata → Z → ior W () SyncError.t;
}.

(** [self.cancel_token().is_cancelled()] while the handler runs. *)
Class CancelToken (W : Type) : Type := token_cancelled : io W bool.

(** [let err: &dyn ServiceError = &e; CommandResult::Error { .. }] *)
Definition service_error {E} `{ServiceError E} (e : E) (message_key fallback : string)
  : CommandResult.t :=
  CommandResult.Error (to_error_code e) (to_error_context e) message_key fallback.
