(* ===== verification/Opening.v ===== *)
(** * Opening the database of a vault (src/db/vault_db.rs, sqlcipher.rs, schema.rs,
    migrations/runner.rs, src/executor/mod.rs)

    A connection to the file is opened with the page key, checked and migrated; only then
    does it become the connection of the vault service.  A pending database is removed
    again unless it is committed. *)

From Stdlib Require Import Ascii.
From S2P Require Import Prelude Text Errors Env Types Storage Checkpoint Crypto Keystore.
From S2P Require Import Database Queries Vault Records Files Executor.

(** The database library: [Conn] is a [Connection], and [conn_use] makes it the one that
    the statements of [Sqlite] run on. *)
Class Connections (W Conn : Type) : Type := {
  conn_open : string → ior W Conn string;
  conn_batch : Conn → string → ior W () SqlError;
  conn_master : Conn → ior W Z SqlError;
  conn_quick_check : Conn → ior W string SqlError;
  conn_foreign_key_check : Conn → ior W (option (string * Z * string * Z)) SqlError;
  conn_get_version : Conn → ior W string SqlError;
  conn_set_version : Conn → string → ior W () SqlError;
  conn_use : Conn → io W ();
  dir_create_all : string → ior W () string;
}.

Module VaultDbError.

Inductive t : Set :=
| PlaintextDatabaseUnsupported
| WrongDbPageKey
| CorruptDatabase (message : string)
| UnsupportedSchemaVersion (current supported : Z)
| DbOpenIo (message : string)
| DbMigrationFailed (message : string)
| DbRollbackFailed (message : string).

Definition display (e : t) : string :=
  match e with
  | PlaintextDatabaseUnsupported =>
      "plaintext SQLite vault databases are not supported by SQLCipher production startup"
  | WrongDbPageKey => "wrong SQLCipher database page key or unreadable encrypted database"
  | CorruptDatabase m => "database is corrupt: " +:+ m
  | UnsupportedSchemaVersion current supported =>
      "unsupported schema version: " +:+ pretty current +:+ " > " +:+ pretty supported
  | DbOpenIo m => "database open I/O error: " +:+ m
  | DbMigrationFailed m => "database migration failed: " +:+ m
  | DbRollbackFailed m => "database rollback failed: " +:+ m
  end.

End VaultDbError.

(** The errors of the checks of schema.rs, of those of [InitDbError] that they give. *)
Module InitDbError.
Inductive t : Set :=
| Sqlite (e : SqlError)
| IntegrityCheckFailed (message : string)
| ForeignKeyCheckFailed (message : string).
End InitDbError.

(** [MigrationError::ExecutionFailed] *)
Record MigrationError : Set := mkMigrationError {
  me_version : Z;
  me_name : string;
  me_source : SqlError;
}.

Definition migration_text (e : MigrationError) : string :=
  "migration v" +:+ pretty (me_version e) +:+ " '" +:+ me_name e +:+ "' failed: "
    +:+ sql_message (me_source e).

Definition SCHEMA_VERSION : Z := 2.

(** A migration: its version, its name and its statements, which the database runs. *)
Record Migration : Set := mkMigration {
  mi_version : Z;
  mi_name : string;
}.

Definition migrations : list Migration :=
  [mkMigration 1 "initial_schema"; mkMigration 2 "record_list_index"].

(** The text of the statements of a migration. *)
Class MigrationSql : Type := migration_sql : Migration → string.

(** [v.parse::<u32>()]: an optional plus sign and digits. *)
Definition parse_u32 (s : string) : option Z :=
  match Formats.parse_i64 s with
  | Some z =>
      if negb (Formats.starts_with "-" s) && (z <=? u32_max)%Z then Some z else None
  | None => None
  end.

Definition vault_db_path (vault_dir : string) : string := path_join vault_dir "vault.db".

Definition vault_db_paths (vault_dir : string) : list string :=
  [path_join vault_dir "vault.db"; path_join vault_dir "vault.db-wal";
   path_join vault_dir "vault.db-shm"; path_join vault_dir "vault.db.migration.bak"].

Section opening.
Context {W Conn : Type} `{Libs} `{Connections W Conn} `{Fs W} `{MigrationSql}.

(** ** Migrations (migrations/runner.rs) *)

Definition read_current_version (conn : Conn) : io W Z :=
  let* v := conn_get_version conn in
  io_ret (match v with Ok s => default 0%Z (parse_u32 s) | Err _ => 0%Z end).

Fixpoint run_pending (conn : Conn) (pending : list Migration) : ior W () MigrationError :=
  match pending with
  | [] => lift (Ok ())
  | m :: pending =>
      let! _ := io_map_err (mkMigrationError (mi_version m) (mi_name m))
                  (conn_batch conn (migration_sql m)) in
      run_pending conn pending
  end.

Definition run_migrations (conn : Conn) : ior W () MigrationError :=
  let* current := read_current_version conn in
  if (SCHEMA_VERSION <=? current)%Z then lift (Ok ())
  else
    let! _ := run_pending conn (filter (λ m, (current < mi_version m)%Z) migrations) in
    io_map_err (mkMigrationError SCHEMA_VERSION "update_schema_version")
      (conn_set_version conn (pretty SCHEMA_VERSION)).

(** ** Checks (schema.rs) *)

Definition apply_pragmas (conn : Conn) : ior W () SqlError :=
  conn_batch conn
    "PRAGMA journal_mode=WAL; PRAGMA synchronous=NORMAL; PRAGMA busy_timeout=5000; PRAGMA foreign_keys=ON; PRAGMA cache_size=-8000;".

(** [result.eq_ignore_ascii_case("ok")] *)
Definition is_ok_text (s : string) : bool :=
  bool_decide (s ∈ ["ok"; "Ok"; "oK"; "OK"]).

Definition run_quick_check (conn : Conn) : ior W () InitDbError.t :=
  let! res := io_map_err InitDbError.Sqlite (conn_quick_check conn) in
  if is_ok_text res then lift (Ok ())
  else lift (Err (InitDbError.IntegrityCheckFailed res)).

Definition run_foreign_key_check (conn : Conn) : ior W () InitDbError.t :=
  let! row := io_map_err InitDbError.Sqlite (conn_foreign_key_check conn) in
  match row with
  | None => lift (Ok ())
  | Some (table, rowid, parent, fk_index) =>
      lift (Err (InitDbError.ForeignKeyCheckFailed
        ("table=" +:+ table +:+ " rowid=" +:+ pretty rowid +:+ " parent=" +:+ parent
           +:+ " fk_index=" +:+ pretty fk_index)))
  end.

(** ** The factory (vault_db.rs, sqlcipher.rs) *)

Definition quote : string := String (Ascii.ascii_of_nat 34) "".

Definition sqlcipher_raw_key_pragma (key : bytes) : string :=
  "PRAGMA key = " +:+ quote +:+ "x'" +:+ hex_encode key +:+ "'" +:+ quote +:+ ";".

Definition apply_key (conn : Conn) (key : bytes) : ior W () SqlError :=
  conn_batch conn (sqlcipher_raw_key_pragma key).

Definition open_keyed_connection (db_path : string) (key : bytes) (validate_key : bool)
  : ior W Conn VaultDbError.t :=
  let! conn := io_map_err VaultDbError.DbOpenIo (conn_open db_path) in
  let! _ := io_map_err (λ _, VaultDbError.WrongDbPageKey) (apply_key conn key) in
  let! _ :=
    if validate_key then io_map_err (λ _, VaultDbError.WrongDbPageKey) (conn_master conn)
    else lift (Ok 0%Z) in
  let! _ := io_map_err (λ e, VaultDbError.DbOpenIo (sql_message e)) (apply_pragmas conn) in
  lift (Ok conn).

Definition map_init_error (e : InitDbError.t) : VaultDbError.t :=
  match e with
  | InitDbError.IntegrityCheckFailed m | InitDbError.ForeignKeyCheckFailed m =>
      VaultDbError.CorruptDatabase m
  | InitDbError.Sqlite e => VaultDbError.DbOpenIo (sql_message e)
  end.

Definition migrate_and_validate (conn : Conn) : ior W Conn VaultDbError.t :=
  let* current := read_current_version conn in
  if (SCHEMA_VERSION <? current)%Z
  then lift (Err (VaultDbError.UnsupportedSchemaVersion current SCHEMA_VERSION))
  else
    let! _ := io_map_err (λ e, VaultDbError.DbMigrationFailed (migration_text e))
                (run_migrations conn) in
    let! _ := io_map_err map_init_error (run_quick_check conn) in
    let! _ := io_map_err map_init_error (run_foreign_key_check conn) in
    lift (Ok conn).

Definition is_plaintext_sqlite (db_path : string) : io W bool :=
  let* conn := conn_open db_path in
  match conn with
  | Err _ => io_ret false
  | Ok conn =>
      let* n := conn_master conn in
      io_ret (is_ok n)
  end.

Definition create_sqlcipher_vault (vault_dir : string) (key : bytes)
  : ior W Conn VaultDbError.t :=
  let! _ := io_map_err VaultDbError.DbOpenIo (dir_create_all vault_dir) in
  let! conn := open_keyed_connection (vault_db_path vault_dir) key false in
  migrate_and_validate conn.

(** An error of a file that opens without a key says so instead. *)
Definition or_plaintext (db_path : string) (m : ior W Conn VaultDbError.t)
  : ior W Conn VaultDbError.t :=
  let* r := m in
  match r with
  | Ok conn => lift (Ok conn)
  | Err e =>
      let* plain := is_plaintext_sqlite db_path in
      lift (Err (if plain then VaultDbError.PlaintextDatabaseUnsupported else e))
  end.

Definition open_sqlcipher_vault (vault_dir : string) (key : bytes)
  : ior W Conn VaultDbError.t :=
  let db_path := vault_db_path vault_dir in
  let* exists_ := fs_exists db_path in
  if negb exists_ then lift (Err (VaultDbError.DbOpenIo (db_path +:+ " not found")))
  else
    let! conn := or_plaintext db_path (open_keyed_connection db_path key true) in
    or_plaintext db_path (migrate_and_validate conn).

End opening.

(** ** The vault service over a connection (src/services/vault/mod.rs) *)

Module VaultServiceImpl.
Section s.
Context {W Conn : Type} `{Libs} `{UuidErrors} `{Connections W Conn} `{Sqlite W} `{System W}.
Context `{CryptoLibs} `{Secure W} `{Fs W} `{DirFs W} `{Serde Json}.

Definition new (conn : Conn) : io W VaultServiceImpl :=
  let* _ := conn_use conn in
  let* stored := Database.get_metadata "device_id" in
  match ok stored with
  | Some (Some device_id) => io_ret (mkVaultServiceImpl CryptoManager.new device_id)
  | _ =>
      let* id := new_v4 in
      io_ret (mkVaultServiceImpl CryptoManager.new (uuid_to_string id))
  end.

Definition new_unlocked (conn : Conn) (crypto : CryptoManager) : io W VaultServiceImpl :=
  let* _ := conn_use conn in
  io_ret (mkVaultServiceImpl crypto (default "unknown-device" (CryptoManager.device_id crypto))).

(** [VaultError::CryptoError] of the message, when it does not panic. *)
Definition unlock (v : VaultServiceImpl) (path cmk : string) : ior W VaultServiceImpl Fault.t :=
  let! m := CryptoManager.unlock path cmk in
  lift (Ok (mkVaultServiceImpl m (vs_device_id v))).

Definition lock (v : VaultServiceImpl) : VaultServiceImpl :=
  mkVaultServiceImpl (CryptoManager.lock (vs_crypto v)) (vs_device_id v).

Definition is_unlocked (v : VaultServiceImpl) : bool := CryptoManager.is_unlocked (vs_crypto v).

End s.
End VaultServiceImpl.

(** ** Handlers that can panic

    The outcome of a computation that fails with a message, by cases; a panic ends the
    task that runs the handler. *)
Definition on_fault {W A B} (m : ior W A Fault.t) (failed : string → ior W B Fault.t)
    (k : A → ior W B Fault.t) : ior W B Fault.t :=
  let* r := m in
  match r with
  | Ok a => k a
  | Err (Fault.Failed e) => failed e
  | Err Fault.Panic => lift (Err Fault.Panic)
  end.

(** ** Pending databases (src/executor/mod.rs)

    [existed_before] of the guard, with the path of each file. *)
Definition Guard : Type := list (string * bool).

Class SymlinkMetadata (W : Type) : Type := fs_symlink_exists : string → io W bool.

Module Pending.
Section s.
Context {W Conn : Type} `{Libs} `{UuidErrors} `{Connections W Conn} `{Sqlite W} `{System W}.
Context `{CryptoLibs} `{Secure W} `{Fs W} `{DirFs W} `{Serde Json} `{MigrationSql}.
Context `{SymlinkMetadata W}.

Fixpoint existing (paths : list string) : io W Guard :=
  match paths with
  | [] => io_ret []
  | p :: paths =>
      let* b := fs_symlink_exists p in
      let* l := existing paths in
      io_ret ((p, b) :: l)
  end.

(** [begin_file_backed_vault_db] *)
Definition begin_ (vault_dir : string) (key : bytes)
  : ior W (VaultServiceImpl * Guard) VaultDbError.t :=
  let* existed_before := existing (vault_db_paths vault_dir) in
  let! conn := create_sqlcipher_vault (Conn := Conn) vault_dir key in
  let* v := VaultServiceImpl.new conn in
  lift (Ok (v, existed_before)).

(** The files that were not there before are removed, whatever that gives. *)
Fixpoint remove_new (g : Guard) : io W () :=
  match g with
  | [] => io_ret ()
  | (p, existed) :: g =>
      let* _ := if existed : bool then lift (Ok ()) else fs_remove_file p in
      remove_new g
  end.

(** [Drop::drop] of a guard that was not committed, and the executor that it leaves. *)
Definition drop (g : Guard) (x : CommandExecutor) : io W CommandExecutor :=
  let* _ := remove_new g in
  io_ret (x <| ex_vault_runtime := VaultRuntime.Locked |> <| ex_vault_db_file_backed := false |>).

Definition commit (v : VaultServiceImpl) (x : CommandExecutor) : CommandExecutor :=
  x <| ex_vault_runtime := VaultRuntime.Open v |> <| ex_vault_db_file_backed := true |>.

End s.
End Pending.

(** ** Which files change

    The database library writes to the files of a database and to no other. *)
Definition database_file (p : string) : Prop :=
  ∃ dir, p ∈ [vault_db_path dir; path_join dir "vault.db-wal"; path_join dir "vault.db-shm"].

Definition file_at `{FsLaws W} (p : string) (w : W) : option bytes := fs_files w !! p.

Class SqlFiles (W : Type) `{FsLaws W} `{Sqlite W} : Prop := {
  sql_query_files {A} (f : Tables → A) q w r w' :
    ¬ database_file q → sql_query f w = (r, w') → file_at q w' = file_at q w;
  sql_select_files {A} (f : Tables → list A) q w r w' :
    ¬ database_file q → sql_select f w = (r, w') → file_at q w' = file_at q w;
  sql_execute_files {A} (f : Tables → result (A * Tables) SqlError) q w r w' :
    ¬ database_file q → sql_execute f w = (r, w') → file_at q w' = file_at q w;
}.

Class ConnFiles (W Conn : Type) `{FsLaws W} `{Connections W Conn} `{SymlinkMetadata W} : Prop := {
  conn_open_files p q w r w' :
    ¬ database_file q → conn_open (Conn := Conn) (vault_db_path p) w = (r, w') →
    file_at q w' = file_at q w;
  conn_batch_files (c : Conn) sql q w r w' :
    ¬ database_file q → conn_batch c sql w = (r, w') → file_at q w' = file_at q w;
  conn_master_files (c : Conn) q w r w' :
    ¬ database_file q → conn_master c w = (r, w') → file_at q w' = file_at q w;
  conn_quick_files (c : Conn) q w r w' :
    ¬ database_file q → conn_quick_check c w = (r, w') → file_at q w' = file_at q w;
  conn_foreign_files (c : Conn) q w r w' :
    ¬ database_file q → conn_foreign_key_check c w = (r, w') → file_at q w' = file_at q w;
  conn_version_files (c : Conn) q w r w' :
    ¬ database_file q → conn_get_version c w = (r, w') → file_at q w' = file_at q w;
  conn_set_version_files (c : Conn) v q w r w' :
    ¬ database_file q → conn_set_version c v w = (r, w') → file_at q w' = file_at q w;
  conn_use_files (c : Conn) q w r w' :
    ¬ database_file q → conn_use c w = (r, w') → file_at q w' = file_at q w;
  dir_create_all_files p w r w' :
    dir_create_all (Conn := Conn) p w = (r, w') → fs_files w' = fs_files w;
  symlink_files p w r w' : fs_symlink_exists p w = (r, w') → fs_files w' = fs_files w;
}.

(** A file that is there can be removed, and a removal that fails changes nothing. *)
Class FsRemoval (W : Type) `{FsLaws W} : Prop := {
  removable p w : is_Some (fs_files w !! p) → ∃ w', fs_remove_file p w = (Ok (), w');
  remove_err p w e w' : fs_remove_file p w = (Err e, w') → fs_files w' = fs_files w;
}.

(** A removal leaves no file, whatever it returns. *)
Lemma remove_gone `{FsRemoval W} p (w : W) r w' :
  fs_remove_file p w = (r, w') → fs_files w' = delete p (fs_files w).
Proof.
  destruct r as [u|e]; intros E; [by apply fs_remove_ok in E|].
  apply remove_err in E as Hk. rewrite Hk, delete_id; [done|].
  apply eq_None_not_Some. intros [w1 Hw]%removable. congruence.
Qed.

Lemma file_at_keeps `{FsLaws W} {A} q (m : io W A) : keeps fs_files m → keeps (file_at q) m.
Proof. intros Hm w r w' E. unfold file_at. by rewrite (Hm _ _ _ E). Qed.
#[export] Hint Resolve file_at_keeps : keeps.

(** The last character tells the files apart. *)
Fixpoint last_char (s : string) : option Ascii.ascii :=
  match s with
  | EmptyString => None
  | String c EmptyString => Some c
  | String _ s => last_char s
  end.

Lemma last_char_app a c s : last_char (a +:+ String c s) = last_char (String c s).
Proof.
  induction a as [|d a IH]; [done|]. rewrite string_app_cons. cbn [last_char].
  destruct (a +:+ String c s) eqn:E; [by destruct a|exact IH].
Qed.

Lemma key_file_no_database path : ¬ database_file (KeyStore.file_path path).
Proof.
  unfold database_file, KeyStore.file_path, vault_db_path, path_join. intros [dir Hp].
  assert (∀ d s, last_char (d +:+ "/" +:+ s) = last_char (String "/"%char s)) as E
    by (intros; apply (last_char_app _ _ _)).
  set_unfold in Hp. destruct_or! Hp; try done; apply (f_equal last_char) in Hp;
    rewrite !E in Hp; discriminate Hp.
Qed.

Ltac keeps_file law := red; intros; eapply law; eassumption.
#[export] Hint Extern 0 (keeps (file_at _) (sql_query _)) => keeps_file @sql_query_files : keeps.
#[export] Hint Extern 0 (keeps (file_at _) (sql_select _)) => keeps_file @sql_select_files : keeps.
#[export] Hint Extern 0 (keeps (file_at _) (sql_execute _)) => keeps_file @sql_execute_files : keeps.
#[export] Hint Extern 0 (keeps (file_at _) (conn_open _)) => keeps_file @conn_open_files : keeps.
#[export] Hint Extern 0 (keeps (file_at _) (conn_batch _ _)) => keeps_file @conn_batch_files : keeps.
#[export] Hint Extern 0 (keeps (file_at _) (conn_master _)) => keeps_file @conn_master_files : keeps.
#[export] Hint Extern 0 (keeps (file_at _) (conn_quick_check _)) =>
  keeps_file @conn_quick_files : keeps.
#[export] Hint Extern 0 (keeps (file_at _) (conn_foreign_key_check _)) =>
  keeps_file @conn_foreign_files : keeps.
#[export] Hint Extern 0 (keeps (file_at _) (conn_get_version _)) =>
  keeps_file @conn_version_files : keeps.
#[export] Hint Extern 0 (keeps (file_at _) (conn_set_version _ _)) =>
  keeps_file @conn_set_version_files : keeps.
#[export] Hint Extern 0 (keeps (file_at _) (conn_use _)) => keeps_file @conn_use_files : keeps.
#[export] Hint Extern 0 (keeps fs_files (dir_create_all _)) => exact (dir_create_all_files _) : keeps.
#[export] Hint Extern 0 (keeps fs_files (fs_symlink_exists _)) => exact (symlink_files _) : keeps.
#[export] Hint Extern 0 (keeps fs_files (fs_exists _)) => exact (fs_exists_files _) : keeps.
#[export] Hint Extern 0 (keeps fs_files lock_pages) => exact lock_pages_files : keeps.
#[export] Hint Extern 0 (keeps fs_files now) => exact now_disk : keeps.
#[export] Hint Extern 0 (keeps fs_files new_v4) => exact new_v4_disk : keeps.
#[export] Hint Extern 0 (keeps fs_files (os_random _)) => exact (os_random_files _) : keeps.
#[export] Hint Extern 0 (keeps fs_files (fs_set_mode _ _)) => exact (set_mode_files _ _) : keeps.
#[export] Hint Extern 0 (keeps fs_files (fs_create_dir_all _)) => exact (create_dir_files _) : keeps.
