(* ===== verification/ImportExec.v ===== *)
(** * The import and export commands (src/executor/import_export.rs)

    The handlers borrow the import service and the vault: they are computations in the
    state of the service and the environment.  A restore works on a pending database. *)

From S2P Require Import Prelude Text Errors Env Types Storage Checkpoint Crypto Keystore Payload.
From S2P Require Import Pipeline Database Queries Vault Records Tags Files Formats Backup Foreign.
From S2P Require Import ImportService Listing Executor Opening.

(** [format!("{:?}", s)] of a string, by the tables of Unicode. *)
Class DebugText : Type := text_debug : string → string.

Definition filter_debug `{DebugText} (f : RecordFilter.t) : string :=
  match f with
  | RecordFilter.All => "All"
  | RecordFilter.Favorites => "Favorites"
  | RecordFilter.Expired => "Expired"
  | RecordFilter.HealthIssues => "HealthIssues"
  | RecordFilter.Trash => "Trash"
  | RecordFilter.Tag s => "Tag(" +:+ text_debug s +:+ ")"
  | RecordFilter.Search s => "Search(" +:+ text_debug s +:+ ")"
  end.

Definition scope_debug `{DebugText} (s : ExportScope.t) : string :=
  match s with
  | ExportScope.All => "All"
  | ExportScope.CurrentFilter f => "CurrentFilter(" +:+ filter_debug f +:+ ")"
  | ExportScope.ByTag tag => "ByTag(" +:+ text_debug tag +:+ ")"
  end.

(** ** Records as files have them *)

Definition decrypted_record_to_export `{Libs} (r : DecryptedRecord) : ExportRecord :=
  let record username password url notes public_key private_key passphrase app_id secret_key :=
    mkExportRecord (uuid_to_string (dr_id r))
      (CredentialType.to_db_str (EncryptedPayload.credential_type (dr_payload r)))
      (EncryptedPayload.name (dr_payload r)) username password url notes (Some (dr_tags r))
      (Some (dr_is_favorite r)) (rfc3339_print <$> dr_expires_at r) public_key private_key
      passphrase app_id secret_key in
  match dr_payload r with
  | EncryptedPayload.Login _ username password url notes =>
      record (Some username) (Some password) url notes None None None None None
  | EncryptedPayload.Api _ app_id secret_key url notes =>
      record None None url notes None None None (Some app_id) (Some secret_key)
  | EncryptedPayload.Ssh _ public_key private_key passphrase notes =>
      record None None None notes (Some public_key) private_key passphrase None None
  | EncryptedPayload.SecureNote _ notes => record None None None notes None None None None None
  end.

Definition fields_to_payload (cred_type : CredentialType.t) (fields : gmap string string)
  : EncryptedPayload.t :=
  let text key := field key fields in
  match cred_type with
  | CredentialType.Login =>
      EncryptedPayload.Login (text "name") (text "username") (text "password")
        (fields !! "url") (fields !! "notes")
  | CredentialType.Api =>
      EncryptedPayload.Api (text "name") (text "app_id") (text "secret_key")
        (fields !! "url") (fields !! "notes")
  | CredentialType.Ssh =>
      EncryptedPayload.Ssh (text "name") (text "public_key") (fields !! "private_key")
        (fields !! "passphrase") (fields !! "notes")
  | CredentialType.SecureNote => EncryptedPayload.SecureNote (text "name") (fields !! "notes")
  end.

Definition build_skip_breakdown (r : ImportResult) : list (SkipReason.t * nat) :=
  (if (0 <? ir_skipped r)%nat then [(SkipReason.Duplicate, ir_skipped r)] else [])
  ++ (if (0 <? ir_validation_failed r)%nat
      then [(SkipReason.ValidationFailed, ir_validation_failed r)] else []).

(** What a handler creates of an entry: neither a favourite nor one that expires. *)
Definition create_params (cred_type : CredentialType.t) (fields : gmap string string)
    (tags : list string) : CreateRecordParams :=
  mkCreateRecordParams cred_type (fields_to_payload cred_type fields) tags false None.

(** The same of a parsed item, by the type that its fields suggest. *)
Definition item_params (item : ParsedItem) : CreateRecordParams :=
  create_params (infer_credential_type (pi_fields item)) (pi_fields item) (pi_tags item).

Module ImportExec.
Section s.
Context {W Conn : Type} `{Libs} `{Runtime} `{Lowercase} `{Uppercase} `{Chrono} `{Regex}.
Context `{UuidErrors} `{ConversionErrors} `{DebugText} `{CryptoLibs} `{Csv} `{MigrationSql}.
Context `{Secure W} `{Sqlite W} `{System W} `{Fs W} `{DirFs W} `{FsBytes W} `{CancelToken W}.
Context `{Connections W Conn} `{SymlinkMetadata W}.
Context `{Serde Json} `{Serde PayloadPlaintextDto.t} `{Serde ExportPayload} `{Serde OkbPayload}.

Local Abbreviation St := (ImportExportService W ExportScope.t).
Local Abbreviation handler := (io (St * W) CommandResult.t).

Definition import_error (message_key what : string) (e : ImportExportError.t)
  : CommandResult.t :=
  service_error e message_key (what +:+ ImportExportError.display e).

(** ** Validation *)

Definition handle_validate_import_file (x : CommandExecutor) (source : ImportSource.t)
    (path : string) (password : option string) : handler :=
  if ex_cancelled x then io_ret (CommandResult.cancelled "import_validate")
  else
    let* session := ImportExport.create_import_session source path password None false in
    match session with
    | Err e => io_ret (import_error "error.import_session_create_failed"
                         "Failed to create import session: " e)
    | Ok session_id =>
        let* preview := ImportExport.validate_import_file session_id in
        match preview with
        | Ok preview => io_ret (CommandResult.ImportValidated session_id preview)
        | Err e => io_ret (import_error "error.import_validate_failed"
                             "Failed to validate import file: " e)
        end
    end.

(** ** Import *)

(** A session of its own, unless the caller has one. *)
Definition validated_session (session_id : option Uuid) (source : ImportSource.t)
    (path : string) (password : option string) (column_mapping : option CsvColumnMapping)
    (import_as_notes : bool) : ior (St * W) Uuid CommandResult.t :=
  match session_id with
  | Some id => lift (Ok id)
  | None =>
      let! id := io_map_err (import_error "error.import_session_create_failed"
                   "Failed to create import session: ")
                   (ImportExport.create_import_session source path password column_mapping
                      import_as_notes) in
      let! _ := io_map_err (import_error "error.import_validate_failed"
                  "Failed to validate import file: ") (ImportExport.validate_import_file id) in
      lift (Ok id)
  end.

Record Counts : Set := mkCounts {
  co_imported : nat;
  co_reviewed : nat;
  co_failed : nat;
}.

(** [executor.vault_mut().and_then(|v| ..)] *)
Definition with_vault {A} (x : CommandExecutor)
    (k : VaultServiceImpl → ior W A VaultError.t) : ior W A VaultError.t :=
  let! v := lift (VaultRuntime.open_vault (ex_vault_runtime x)) in k v.

Definition count_created (c : Counts) (is_review : bool) (r : result Uuid VaultError.t)
  : Counts :=
  match r with
  | Ok _ =>
      if is_review then mkCounts (co_imported c) (S (co_reviewed c)) (co_failed c)
      else mkCounts (S (co_imported c)) (co_reviewed c) (co_failed c)
  | Err _ => mkCounts (co_imported c) (co_reviewed c) (S (co_failed c))
  end.

(** The loop over the records, nothing when it was cancelled. *)
Fixpoint create_all (x : CommandExecutor) (records : list ImportableRecord) (c : Counts)
  : io W (option Counts) :=
  match records with
  | [] => io_ret (Some c)
  | r :: records =>
      let* cancelled := token_cancelled in
      if cancelled then io_ret None
      else
        let* created := with_vault x (λ v, Records.create_record v
          (create_params (ib_credential_type r) (ib_fields r) (ib_tags r))) in
        create_all x records (count_created c (ib_is_review r) created)
  end.

Definition import_detail (source : ImportSource.t) (c : Counts) (skipped : nat) : string :=
  "source=" +:+ ImportSource.debug source +:+ ", imported=" +:+ pretty (co_imported c)
    +:+ ", reviewed=" +:+ pretty (co_reviewed c) +:+ ", failed=" +:+ pretty (co_failed c)
    +:+ ", skipped=" +:+ pretty skipped.

Definition write_audit (x : CommandExecutor) (operation : AuditOperation.t) (detail : string)
  : io W () :=
  let* _ := with_vault x (λ _,
    VaultService.db (insert_audit_entry operation None None (Some detail))) in
  io_ret ().

(** What [handle_execute_import] does with the records of the service. *)
Definition finish_import (x : CommandExecutor) (source : ImportSource.t)
    (res : ImportResult) (records : list ImportableRecord) : io W CommandResult.t :=
  let* counts := create_all x records (mkCounts 0 0 0) in
  match counts with
  | None => io_ret (CommandResult.cancelled "import_execute")
  | Some c =>
      let* _ := write_audit x AuditOperation.VaultImport (import_detail source c (ir_skipped res)) in
      let* _ :=
        if (0 <? co_imported c)%nat || (0 <? co_reviewed c)%nat then try_send
        else io_ret false in
      io_ret (CommandResult.ImportCompleted (co_imported c) (co_reviewed c) (ir_skipped res)
                (co_failed c) (build_skip_breakdown res))
  end.

(** [result_tx.try_send(ImportProgress { .. })] *)
Definition send_progress (current total : nat) (name : string) : io W () :=
  let* _ := try_send in io_ret ().

Definition handle_execute_import (x : CommandExecutor) (session_id : option Uuid)
    (source : ImportSource.t) (path : string) (password : option string)
    (column_mapping : option CsvColumnMapping) (import_as_notes : bool) : handler :=
  if ex_cancelled x then io_ret (CommandResult.cancelled "import_execute")
  else
    let* session :=
      validated_session session_id source path password column_mapping import_as_notes in
    match session with
    | Err failed => io_ret failed
    | Ok id =>
        let* outcome := ImportExport.execute_import
          (mkImportParams id ∅ import_as_notes (Some send_progress)) in
        let* cancelled := world token_cancelled in
        if cancelled then io_ret (CommandResult.cancelled "import_execute")
        else
          match outcome with
          | Err e => io_ret (import_error "error.import_execute_failed"
                               "Failed to execute import: " e)
          | Ok (res, records) => world (finish_import x source res records)
          end
    end.

(** ** Export *)

Definition password_verification_failed : CommandResult.t :=
  CommandResult.Error ErrorCode.ExecutorMasterPasswordRequired ErrorContext.new
    "error.password_verification_failed" "Master password verification failed.".

(** The records of a listing one by one: nothing when cancelled, or the failure. *)
Fixpoint collect_records (x : CommandExecutor) (records : list TuiRecord)
  : ior W (list ExportRecord) CommandResult.t :=
  match records with
  | [] => lift (Ok [])
  | r :: records =>
      let* cancelled := token_cancelled in
      if cancelled then lift (Err (CommandResult.cancelled "export_execute"))
      else
        let! decrypted := io_map_err (λ e, service_error e "error.export_decrypt_failed"
            ("Failed to decrypt record for export: " +:+ VaultError.display e))
          (with_vault x (λ v, Records.get_decrypted_record v (tr_id r))) in
        let! rest := collect_records x records in
        lift (Ok (decrypted_record_to_export decrypted :: rest))
  end.

Definition export_sort : RecordSort := mkRecordSort SortField.Name SortDirection.Asc.

(** The steps of [handle_execute_export] after the password was verified; an [Err] is an
    early return. *)
Definition run_export (x : CommandExecutor) (scope : ExportScope.t) (output_path : string)
    (export_password : string) (format : ExportFormat.t)
  : ior (St * W) CommandResult.t CommandResult.t :=
  let! session_id := io_map_err (import_error "error.export_session_create_failed"
      "Failed to create export session: ")
    (ImportExport.create_export_session scope format export_password output_path) in
  let! records := world (io_map_err (λ e, service_error e "error.export_list_records_failed"
      ("Failed to list records for export: " +:+ VaultError.display e))
    (with_vault x (λ v, Listing.list_records v RecordFilter.All export_sort))) in
  let! export_records := world (collect_records x records) in
  let* outcome := ImportExport.execute_export
    (mkExportParams session_id (lift (Ok export_records)) (ex_vault_dir x)) in
  let* cancelled := world token_cancelled in
  if cancelled then lift (Err (CommandResult.cancelled "export_execute"))
  else
    match outcome with
    | Err e => lift (Err (import_error "error.export_execute_failed"
                            "Failed to execute export: " e))
    | Ok (result_path, record_count) =>
        let* _ := world (write_audit x AuditOperation.VaultExport
          ("scope=" +:+ scope_debug scope +:+ ", path=" +:+ result_path +:+ ", count="
             +:+ pretty record_count)) in
        lift (Ok (CommandResult.ExportCompleted result_path record_count format))
    end.

(** [match r { Ok(c) | Err(c) => c }] *)
Definition either {A} (r : result A A) : A := match r with Ok a | Err a => a end.

Definition handle_execute_export (x : CommandExecutor) (scope : ExportScope.t)
    (output_path export_password master_password : string) (format : ExportFormat.t)
  : ior (St * W) CommandResult.t Fault.t :=
  if ex_cancelled x then lift (Ok (CommandResult.cancelled "export_execute"))
  else
    on_fault (world (KeyStore.unlock (ex_vault_dir x) master_password))
      (λ _, lift (Ok password_verification_failed))
      (λ _,
        let* r := run_export x scope output_path export_password format in
        lift (Ok (either r))).

(** ** Restoring the database from a backup *)

Definition error_of (code : ErrorCode.t) (message_key fallback : string) : CommandResult.t :=
  CommandResult.Error code ErrorContext.new message_key fallback.

(** The checks of the path. *)
Definition check_okb_path (path : string) : ior W () CommandResult.t :=
  if bool_decide (path = "")
  then lift (Err (error_of ErrorCode.DataEmptyField "error.okb_path_empty" "Enter a .okb path."))
  else if negb (bool_decide (Path.extension path = Some "okb"))
  then lift (Err (error_of ErrorCode.ImportFileFormatInvalid "error.okb_invalid_extension"
                    "Path must end with .okb."))
  else
    let* exists_ := fs_exists path in
    if negb exists_
    then lift (Err (error_of ErrorCode.ImportFileUnreadable "error.okb_missing"
                      ("Backup file does not exist: " +:+ path)))
    else lift (Ok ()).

Definition read_backup (path password : string) : ior W (list ParsedItem) CommandResult.t :=
  let! _ := check_okb_path path in
  let! items := io_map_err (λ e, error_of ErrorCode.ImportFileUnreadable "error.okb_decrypt_failed"
                    ("Failed to decrypt .okb backup: " +:+ ImportExportError.display e))
                  (parse_okb path (Some password)) in
  if bool_decide (items = [])
  then lift (Err (error_of ErrorCode.ImportFileFormatInvalid "error.okb_empty"
                    "No records found in .okb backup."))
  else lift (Ok items).

(** The loop over the items: how many were created and how many were not. *)
Fixpoint create_items (v : VaultServiceImpl) (items : list ParsedItem) (imported errors : nat)
  : io W (nat * nat) :=
  match items with
  | [] => io_ret (imported, errors)
  | item :: items =>
      let* created := Records.create_record v (item_params item) in
      match created with
      | Ok _ => create_items v items (S imported) errors
      | Err _ => create_items v items imported (S errors)
      end
  end.

(** The pending database with its service unlocked: the items go in, and the database is
    committed when all of them did. *)
Definition fill_pending (x : CommandExecutor) (v : VaultServiceImpl) (guard : Guard)
    (items : list ParsedItem) : io W (CommandResult.t * CommandExecutor) :=
  let* counts := create_items v items 0 0 in
  let '(imported, errors) := counts in
  if (0 <? errors)%nat || (imported =? 0)%nat then
    let* x := Pending.drop guard x in
    io_ret (error_of ErrorCode.ImportPartialFailure "error.okb_restore_import_failed"
      ("Failed to restore .okb backup: imported " +:+ pretty imported +:+ ", failed "
         +:+ pretty errors +:+ "."), x)
  else
    io_ret (CommandResult.DatabaseRestored DatabaseRecoverySource.Okb, Pending.commit v x).

(** A panic unwinds through the guard, which drops the pending database. *)
Definition restore_into_pending (x : CommandExecutor) (master_password : string)
    (items : list ParsedItem) : ior W (CommandResult.t * CommandExecutor) Fault.t :=
  on_fault (KeyStore.unlock (ex_vault_dir x) master_password)
    (λ _, lift (Ok (error_of ErrorCode.CryptoEncryptionFailed "error.keystore_unlock_failed"
                      "Failed to unlock keystore for restore.", x)))
    (λ keystore,
      let* key := KeyStore.db_page_key keystore in
      match key with
      | Err e =>
          lift (Ok (error_of ErrorCode.CryptoKeyDerivationFailed "error.db_key_derivation_failed"
                      ("Failed to derive database page key: " +:+ e), x))
      | Ok key =>
          let* pending := Pending.begin_ (Conn := Conn) (ex_vault_dir x) key in
          match pending with
          | Err e =>
              lift (Ok (error_of ErrorCode.VaultDatabaseIoError "error.db_reopen_failed"
                          ("Failed to create vault database: " +:+ VaultDbError.display e), x))
          | Ok (v, guard) =>
              let* unlocked := VaultServiceImpl.unlock v (ex_vault_dir x) master_password in
              match unlocked with
              | Ok v => let* r := fill_pending x v guard items in lift (Ok r)
              | Err f =>
                  let* x := Pending.drop guard x in
                  match f with
                  | Fault.Failed e =>
                      lift (Ok (error_of ErrorCode.CryptoEncryptionFailed "error.unlock_failed"
                        ("Failed to unlock vault: "
                           +:+ VaultError.display (VaultError.CryptoError e)), x))
                  | Fault.Panic => lift (Err Fault.Panic)
                  end
              end
          end
      end).

Definition handle_restore_database_from_okb (x : CommandExecutor) (path password : string)
    (master_password : option string)
  : ior W (CommandResult.t * CommandExecutor) Fault.t :=
  let* items := read_backup path password in
  match items with
  | Err failed => lift (Ok (failed, x))
  | Ok items =>
      let '(pw, x) :=
        match master_password with
        | Some pw => (Some pw, x)
        | None => (ex_verified_master_password x, x <| ex_verified_master_password := None |>)
        end in
      match pw with
      | None =>
          lift (Ok (error_of ErrorCode.ExecutorMasterPasswordRequired "error.password_required"
            "Master password is required to unlock the recovered vault.", x))
      | Some pw => restore_into_pending x pw items
      end
  end.

End s.
End ImportExec.
