(* ===== verification/Generator.v ===== *)
(** * Password generation (src/executor/record.rs, src/tui/state/generator_state.rs)

    The commands that generate passwords, and the state of the generator dialog. *)

From S2P Require Import Prelude Text Errors Password Executor.

(** ** Commands (executor/record.rs) *)

Section commands.
Context {W : Type} `{Rng W}.

Definition password_generated (what : string) (result : result string string)
  : CommandResult.t :=
  match result with
  | Ok password => CommandResult.PasswordGenerated password (evaluate_strength password)
  | Err e =>
      CommandResult.Error ErrorCode.CryptoEncryptionFailed ErrorContext.new
        "error.password_generation" ("Failed to generate " +:+ what +:+ ": " +:+ e)
  end.

Definition handle_generate_password (length : nat)
    (include_digits include_uppercase include_special : bool) : io W CommandResult.t :=
  let* result :=
    if include_digits && include_uppercase && include_special then
      generate_random_password length
    else
      let min_digits := if include_digits then 1 else 0 in
      let min_special := if include_special then 1 else 0 in
      let min_lowercase := 1 in
      let min_uppercase := if include_uppercase then 1 else 0 in
      generate_random_password_with_policy length min_digits min_special min_lowercase
        min_uppercase in
  io_ret (password_generated "password" result).

Definition handle_generate_memorable_password (word_count : nat) : io W CommandResult.t :=
  let* result := generate_memorable_password word_count in
  io_ret (password_generated "memorable password" result).

Definition handle_generate_pin (length : nat) : io W CommandResult.t :=
  let* result := generate_pin length in
  io_ret (password_generated "PIN" result).

End commands.

(** ** The dialog (tui/state/generator_state.rs) *)

Module GenerationStyle.
Inductive t : Set := Random | Memorable | Pin.
#[global] Instance t_eq_dec : EqDecision t.
Proof. solve_decision. Defined.
End GenerationStyle.

Record RandomConfig : Set := mkRandomConfig {
  rc_length : nat;
  rc_uppercase : bool;
  rc_lowercase : bool;
  rc_digits : bool;
  rc_symbols : bool;
}.

#[export] Instance eta_RandomConfig : Eta RandomConfig := λ c,
  mkRandomConfig (rc_length c) (rc_uppercase c) (rc_lowercase c) (rc_digits c) (rc_symbols c).

Record MemorableConfig : Set := mkMemorableConfig {
  mc_word_count : nat;
  mc_capitalize : bool;
  mc_separator : string;
}.

#[export] Instance eta_MemorableConfig : Eta MemorableConfig := λ c,
  mkMemorableConfig (mc_word_count c) (mc_capitalize c) (mc_separator c).

Record PinConfig : Set := mkPinConfig { pc_length : nat }.

#[export] Instance eta_PinConfig : Eta PinConfig := λ c, mkPinConfig (pc_length c).

(** [Default] of the three. *)
Definition default_random : RandomConfig := mkRandomConfig 16 true true true true.
Definition default_memorable : MemorableConfig := mkMemorableConfig 4 true "-".
Definition default_pin : PinConfig := mkPinConfig 6.

Module GeneratorFocus.
Inductive t : Set :=
| StyleSelector | LengthSlider | Toggle (index : nat) | SeparatorInput | RegenerateButton
| ActionButton.
#[global] Instance t_eq_dec : EqDecision t.
Proof. solve_decision. Defined.
End GeneratorFocus.

(** src/config/password.rs *)
Record PasswordDefaultsConfig : Set := mkPasswordDefaultsConfig {
  pd_style : GenerationStyle.t;
  pd_length : nat;
  pd_include_lowercase : bool;
  pd_include_digits : bool;
  pd_include_uppercase : bool;
  pd_include_special : bool;
  pd_memorable_word_count : nat;
  pd_memorable_capitalize : bool;
  pd_memorable_separator : string;
  pd_pin_length : nat;
}.

Definition default_password_config : PasswordDefaultsConfig :=
  mkPasswordDefaultsConfig GenerationStyle.Random 16 true true true true 4 true "-" 6.

Record GeneratorState : Set := mkGeneratorState {
  gs_style : GenerationStyle.t;
  gs_random_config : RandomConfig;
  gs_memorable_config : MemorableConfig;
  gs_pin_config : PinConfig;
  gs_preview : string;
  gs_strength : option PasswordStrength;
  gs_focus : GeneratorFocus.t;
}.

#[export] Instance eta_GeneratorState : Eta GeneratorState := λ s,
  mkGeneratorState (gs_style s) (gs_random_config s) (gs_memorable_config s) (gs_pin_config s)
    (gs_preview s) (gs_strength s) (gs_focus s).

Definition charset_size (c : RandomConfig) : Z :=
  (if rc_uppercase c then 24 else 0) + (if rc_lowercase c then 24 else 0)
  + (if rc_digits c then 8 else 0) + (if rc_symbols c then 12 else 0).

(** [config.length as f64 * (charset_size as f64).log2() >= bits], in integers: for the eleven
    sizes that occur and lengths up to 128 the rounding of the product decides no case. *)
Definition entropy_at_least (bits : Z) (c : RandomConfig) : bool :=
  (2 ^ bits <=? charset_size c ^ Z.of_nat (rc_length c))%Z.

Definition enabled_types (c : RandomConfig) : Z :=
  count_types [rc_uppercase c; rc_lowercase c; rc_digits c; rc_symbols c].

Definition estimate_random_strength (c : RandomConfig) : PasswordStrength :=
  if (charset_size c =? 0)%Z then mkPasswordStrength StrengthLevel.VeryWeak 0 3
  else
    let '(level, bar_fill) :=
      if entropy_at_least 120 c then (StrengthLevel.VeryStrong, 16%Z)
      else if entropy_at_least 80 c then (StrengthLevel.Strong, 12%Z)
      else if entropy_at_least 50 c then (StrengthLevel.Fair, 9%Z)
      else (StrengthLevel.Weak, 6%Z) in
    mkPasswordStrength level (enabled_types c) bar_fill.

(** [usize::clamp] *)
Definition clamp (lo hi n : nat) : nat := if n <? lo then lo else if hi <? n then hi else n.

Module GeneratorState.

Definition length_range (s : GeneratorState) : nat * nat :=
  match gs_style s with
  | GenerationStyle.Random => (8, 36)
  | GenerationStyle.Memorable => (3, 12)
  | GenerationStyle.Pin => (4, 16)
  end.

Definition current_length (s : GeneratorState) : nat :=
  match gs_style s with
  | GenerationStyle.Random => rc_length (gs_random_config s)
  | GenerationStyle.Memorable => mc_word_count (gs_memorable_config s)
  | GenerationStyle.Pin => pc_length (gs_pin_config s)
  end.

(** Sets the length that the current style uses. *)
Definition with_length (n : nat) (s : GeneratorState) : GeneratorState :=
  match gs_style s with
  | GenerationStyle.Random => s <| gs_random_config ::= λ c, c <| rc_length := n |> |>
  | GenerationStyle.Memorable => s <| gs_memorable_config ::= λ c, c <| mc_word_count := n |> |>
  | GenerationStyle.Pin => s <| gs_pin_config ::= λ c, c <| pc_length := n |> |>
  end.

Definition is_toggle_enabled (s : GeneratorState) (index : nat) : bool :=
  match index with
  | 0 => rc_uppercase (gs_random_config s)
  | 1 => rc_lowercase (gs_random_config s)
  | 2 => rc_digits (gs_random_config s)
  | 3 => rc_symbols (gs_random_config s)
  | _ => false
  end.

Definition is_toggle_interactive (index : nat) : bool := index <=? 3.

(** The toggle that is the only one enabled stays. *)
Definition toggled (index : nat) (c : RandomConfig) : RandomConfig :=
  let flip (b : bool) : bool := if b && (enabled_types c =? 1)%Z then b else negb b in
  match index with
  | 0 => c <| rc_uppercase ::= flip |>
  | 1 => c <| rc_lowercase ::= flip |>
  | 2 => c <| rc_digits ::= flip |>
  | 3 => c <| rc_symbols ::= flip |>
  | _ => c
  end.

(** *** Focus *)

Import GeneratorFocus.

Definition focus_order (s : GeneratorState) : list GeneratorFocus.t :=
  match gs_style s with
  | GenerationStyle.Random =>
      [StyleSelector; LengthSlider; Toggle 0; Toggle 1; Toggle 2; Toggle 3; RegenerateButton;
       ActionButton]
  | GenerationStyle.Memorable =>
      [StyleSelector; LengthSlider; Toggle 0; SeparatorInput; RegenerateButton; ActionButton]
  | GenerationStyle.Pin => [StyleSelector; LengthSlider; RegenerateButton; ActionButton]
  end.

Definition option_focus_order (s : GeneratorState) : list GeneratorFocus.t :=
  match gs_style s with
  | GenerationStyle.Random => [Toggle 0; Toggle 1; Toggle 2; Toggle 3]
  | GenerationStyle.Memorable => [Toggle 0; SeparatorInput]
  | GenerationStyle.Pin => []
  end.

(** [order[(idx + step) % order.len()]], where the focus is in the order. *)
Definition cycle (order : list GeneratorFocus.t) (step : nat) (f : GeneratorFocus.t)
  : GeneratorFocus.t :=
  match list_find (λ x, x = f) order with
  | Some (idx, _) => default f (order !! ((idx + step) mod length order))
  | None => f
  end.

Definition focus_next (s : GeneratorState) := s <| gs_focus ::= cycle (focus_order s) 1 |>.

Definition focus_prev (s : GeneratorState) :=
  s <| gs_focus ::= cycle (focus_order s) (length (focus_order s) - 1) |>.

Definition focus_next_toggle (s : GeneratorState) :=
  s <| gs_focus ::= cycle (option_focus_order s) 1 |>.

Definition focus_prev_toggle (s : GeneratorState) :=
  s <| gs_focus ::= cycle (option_focus_order s) (length (option_focus_order s) - 1) |>.

Definition first_option_focus (s : GeneratorState) : GeneratorFocus.t :=
  match gs_style s with
  | GenerationStyle.Random | GenerationStyle.Memorable => Toggle 0
  | GenerationStyle.Pin => RegenerateButton
  end.

Definition last_option_focus (s : GeneratorState) : GeneratorFocus.t :=
  match gs_style s with
  | GenerationStyle.Random => Toggle 3
  | GenerationStyle.Memorable => SeparatorInput
  | GenerationStyle.Pin => LengthSlider
  end.

Definition focus_section_down (s : GeneratorState) : GeneratorState :=
  s <| gs_focus := match gs_focus s with
                   | StyleSelector => LengthSlider
                   | LengthSlider => first_option_focus s
                   | Toggle _ | SeparatorInput => RegenerateButton
                   | RegenerateButton | ActionButton => StyleSelector
                   end |>.

Definition focus_section_up (s : GeneratorState) : GeneratorState :=
  s <| gs_focus := match gs_focus s with
                   | StyleSelector => ActionButton
                   | LengthSlider => StyleSelector
                   | Toggle _ | SeparatorInput => LengthSlider
                   | RegenerateButton | ActionButton => last_option_focus s
                   end |>.

(** *** The preview *)

Definition clear_preview (s : GeneratorState) : GeneratorState :=
  s <| gs_preview := "" |> <| gs_strength := None |>.

Definition has_preview (s : GeneratorState) : bool := negb (bool_decide (gs_preview s = "")).

Definition take_preview (s : GeneratorState) : string * GeneratorState :=
  (gs_preview s, s <| gs_preview := "" |>).

(** [Clone] drops the preview. *)
Definition clone (s : GeneratorState) : GeneratorState :=
  s <| gs_preview := "" |> <| gs_strength := None |>.

Section generate.
Context {W : Type} `{Rng W}.

Definition generate (s : GeneratorState) : ior W string string :=
  match gs_style s with
  | GenerationStyle.Random =>
      let cfg := gs_random_config s in
      generate_random_password_with_char_types (rc_length cfg) (rc_uppercase cfg)
        (rc_lowercase cfg) (rc_digits cfg) (rc_symbols cfg)
  | GenerationStyle.Memorable =>
      let cfg := gs_memorable_config s in
      generate_memorable_password_with_options (mc_word_count cfg) (mc_separator cfg)
        (mc_capitalize cfg)
  | GenerationStyle.Pin => generate_pin (pc_length (gs_pin_config s))
  end.

Definition shown_strength (s : GeneratorState) : PasswordStrength :=
  if bool_decide (gs_style s = GenerationStyle.Random)
  then estimate_random_strength (gs_random_config s)
  else mkPasswordStrength StrengthLevel.Strong 0 12.

Definition regenerate (s : GeneratorState) : io W GeneratorState :=
  let* result := generate s in
  io_ret match result with
         | Ok pw => s <| gs_strength := Some (shown_strength s) |> <| gs_preview := pw |>
         | Err _ => s <| gs_preview := "" |> <| gs_strength := None |>
         end.

Definition new : io W GeneratorState :=
  regenerate (mkGeneratorState GenerationStyle.Random default_random default_memorable
    default_pin "" None StyleSelector).

Definition from_config (config : PasswordDefaultsConfig) : io W GeneratorState :=
  let random_config := mkRandomConfig (clamp 8 36 (pd_length config))
    (pd_include_uppercase config) (pd_include_lowercase config) (pd_include_digits config)
    (pd_include_special config) in
  let memorable_config := mkMemorableConfig (clamp 3 12 (pd_memorable_word_count config))
    (pd_memorable_capitalize config)
    (if bool_decide (pd_memorable_separator config = "") then "-"
     else pd_memorable_separator config) in
  let pin_config := mkPinConfig (clamp 4 16 (pd_pin_length config)) in
  regenerate (mkGeneratorState (pd_style config) random_config memorable_config pin_config
    "" None StyleSelector).

Definition set_style (style : GenerationStyle.t) (s : GeneratorState) : io W GeneratorState :=
  regenerate (s <| gs_style := style |> <| gs_focus := StyleSelector |>).

Definition increment_length (s : GeneratorState) : io W GeneratorState :=
  regenerate (with_length ((current_length s + 1) `min` (length_range s).2) s).

Definition decrement_length (s : GeneratorState) : io W GeneratorState :=
  regenerate (with_length ((current_length s - 1) `max` (length_range s).1) s).

Definition toggle_char_type (index : nat) (s : GeneratorState) : io W GeneratorState :=
  if bool_decide (gs_style s = GenerationStyle.Random)
  then regenerate (s <| gs_random_config ::= toggled index |>)
  else io_ret s.

End generate.
End GeneratorState.

(** The panel inside the record forms. *)
Record EmbeddedGeneratorState : Set := mkEmbeddedGeneratorState {
  eg_expanded : bool;
  eg_generator : GeneratorState;
}.

Module EmbeddedGeneratorState.
Section s.
Context {W : Type} `{Rng W}.

Definition new : io W EmbeddedGeneratorState :=
  let* g := GeneratorState.new in
  io_ret (mkEmbeddedGeneratorState false g).

Definition expanded (g : io W GeneratorState) : io W EmbeddedGeneratorState :=
  let* g := g in
  io_ret (mkEmbeddedGeneratorState true (g <| gs_focus := GeneratorFocus.LengthSlider |>)).

Definition expand : io W EmbeddedGeneratorState := expanded GeneratorState.new.

Definition expand_from_config (config : PasswordDefaultsConfig) : io W EmbeddedGeneratorState :=
  expanded (GeneratorState.from_config config).

Definition collapse (e : EmbeddedGeneratorState) : EmbeddedGeneratorState :=
  mkEmbeddedGeneratorState false (GeneratorState.clear_preview (eg_generator e)).

Definition use_password (e : EmbeddedGeneratorState) : string * EmbeddedGeneratorState :=
  let '(pw, g) := GeneratorState.take_preview (eg_generator e) in
  (pw, mkEmbeddedGeneratorState false g).

End s.
End EmbeddedGeneratorState.

(** ** Properties *)

(** The operations of the dialog. *)
Module GeneratorOp.
Inductive t : Set :=
| Regenerate
| SetStyle (style : GenerationStyle.t)
| IncrementLength
| DecrementLength
| ToggleCharType (index : nat)
| FocusNext
| FocusPrev
| FocusNextToggle
| FocusPrevToggle
| FocusSectionDown
| FocusSectionUp.
End GeneratorOp.

Import GeneratorState.

Definition perform {W} `{Rng W} (op : GeneratorOp.t) (s : GeneratorState) : io W GeneratorState :=
  match op with
  | GeneratorOp.Regenerate => regenerate s
  | GeneratorOp.SetStyle style => set_style style s
  | GeneratorOp.IncrementLength => increment_length s
  | GeneratorOp.DecrementLength => decrement_length s
  | GeneratorOp.ToggleCharType index => toggle_char_type index s
  | GeneratorOp.FocusNext => io_ret (focus_next s)
  | GeneratorOp.FocusPrev => io_ret (focus_prev s)
  | GeneratorOp.FocusNextToggle => io_ret (focus_next_toggle s)
  | GeneratorOp.FocusPrevToggle => io_ret (focus_prev_toggle s)
  | GeneratorOp.FocusSectionDown => io_ret (focus_section_down s)
  | GeneratorOp.FocusSectionUp => io_ret (focus_section_up s)
  end.

Fixpoint perform_all {W} `{Rng W} (ops : list GeneratorOp.t) (s : GeneratorState)
  : io W GeneratorState :=
  match ops with
  | [] => io_ret s
  | op :: ops =>
      let* s := perform op s in
      perform_all ops s
  end.

(** The settings are in the ranges of their sliders and some type is enabled. *)
Record settings_ok (s : GeneratorState) : Prop := {
  length_ok : 8 ≤ rc_length (gs_random_config s) ≤ 36;
  words_ok : 3 ≤ mc_word_count (gs_memorable_config s) ≤ 12;
  pin_ok : 4 ≤ pc_length (gs_pin_config s) ≤ 16;
  types_ok : (1 ≤ enabled_types (gs_random_config s))%Z;
}.

(** A password is shown, with the strength of the settings. *)
Definition showing (s : GeneratorState) : Prop :=
  has_preview s = true ∧ gs_strength s = Some (shown_strength s).

(** The state of an open dialog. *)
Definition dialog_ok (s : GeneratorState) : Prop :=
  settings_ok s ∧ gs_focus s ∈ focus_order s ∧ showing s.

Section properties.
Context {W : Type} `{RngLaws W}.

Lemma draw_words_spec n b : ∀ w l w',
  draw_words n b w = (l, w') → length l = n ∧ Forall (λ x, x ≠ "") l.
Proof.
  induction n as [|n IH]; intros w l w'; cbn [draw_words].
  - by intros [= <- _].
  - intros (i & w1 & E1 & Hr)%io_bind_eq. apply io_bind_eq in Hr as (l' & w2 & E2 & Hr).
    injection Hr as <- _. apply random_index_lt in E1; [|done].
    destruct (IH _ _ _ E2) as [<- Hl]. split; [done|]. constructor; [|done].
    assert (forallb (λ x, negb (bool_decide (x = ""))
      && negb (bool_decide (capitalize_word x = ""))) WORDS = true) as HW by reflexivity.
    destruct (lookup_lt_is_Some_2 WORDS i E1) as [x Hx]. rewrite Hx. cbn.
    assert (x ∈ WORDS) as Hin by (by eapply list_elem_of_lookup_2).
    apply list_elem_of_In in Hin. eapply forallb_forall in HW; [|exact Hin].
    apply andb_true_iff in HW as [H1 H2]. apply negb_true_iff in H1, H2.
    apply bool_decide_eq_false in H1, H2. by destruct b.
Qed.

Lemma concat_nonempty sep x l : x ≠ "" → String.concat sep (x :: l) ≠ "".
Proof. destruct x as [|c x]; [done|]. by destruct l. Qed.

Lemma out_of_range_false lo hi n : lo ≤ n ≤ hi → out_of_range lo hi n = false.
Proof.
  intros [??]. unfold out_of_range. apply negb_false_iff, andb_true_iff.
  by rewrite !Nat.leb_le.
Qed.

Lemma enabled_types_some c :
  (1 ≤ enabled_types c)%Z →
  rc_uppercase c || rc_lowercase c || rc_digits c || rc_symbols c = true.
Proof.
  unfold enabled_types, count_types.
  destruct c as [n [] [] [] []]; try done.
Qed.

(** With such settings the generator cannot fail, and the password is not empty. *)
Lemma generate_ok s w r w' :
  settings_ok s → generate s w = (r, w') → ∃ pw, r = Ok pw ∧ pw ≠ "".
Proof.
  intros [Hlen Hwc Hpin Hty] Hg. unfold generate in Hg. destruct (gs_style s).
  - apply char_types_password in Hg. rewrite out_of_range_false in Hg by lia.
    rewrite enabled_types_some in Hg by done. destruct Hg as (cs & -> & Hcs & _).
    exists (to_text cs). split; [done|]. destruct cs; [cbn in Hcs; lia|done].
  - unfold generate_memorable_password_with_options in Hg.
    rewrite out_of_range_false in Hg by lia.
    apply io_bind_eq in Hg as (l & w1 & E & Hg). injection Hg as <- _.
    apply draw_words_spec in E as [Hl Hne]. eexists. split; [done|].
    destruct l as [|x l]; [cbn in Hl; lia|]. inversion Hne. by apply concat_nonempty.
  - unfold generate_pin in Hg. rewrite out_of_range_false in Hg by lia.
    apply io_bind_eq in Hg as (l & w1 & E & Hg). injection Hg as <- _.
    apply draw_spec in E as [Hl _]; [|done]. exists (to_text l). split; [done|].
    destruct l; [cbn in Hl; lia|done].
Qed.

Lemma regenerate_ok s w s' w' :
  settings_ok s → gs_focus s ∈ focus_order s → regenerate s w = (s', w') → dialog_ok s'.
Proof.
  intros Hs Hf (r & w1 & E & Hr)%io_bind_eq. apply generate_ok in E as (pw & -> & Hpw); [|done].
  injection Hr as <- _. destruct Hs as [L M P T]. split_and!; [by constructor|done|].
  split; [|done]. unfold has_preview. cbn. by rewrite bool_decide_eq_false_2.
Qed.

Lemma cycle_in order step f : f ∈ order → cycle order step f ∈ order.
Proof.
  intros Hf. unfold cycle. destruct (list_find _ order) as [[i x]|] eqn:E; [|done].
  apply list_find_Some in E as (Hi & _ & _). apply lookup_lt_Some in Hi.
  destruct (lookup_lt_is_Some_2 order ((i + step) mod length order)) as [y Hy].
  { apply Nat.mod_upper_bound. lia. }
  rewrite Hy. by eapply list_elem_of_lookup_2.
Qed.

Lemma cycle_sub order k step f : k ⊆ order → f ∈ order → cycle k step f ∈ order.
Proof.
  intros Hk Hf. destruct (decide (f ∈ k)) as [Hin|Hnot]; [by apply Hk, cycle_in|].
  unfold cycle. destruct (list_find _ k) as [[i x]|] eqn:E; [|done].
  apply list_find_Some in E as (Hi & -> & _). by apply list_elem_of_lookup_2 in Hi.
Qed.

Lemma option_focus_sub s : option_focus_order s ⊆ focus_order s.
Proof. unfold option_focus_order, focus_order. destruct (gs_style s); set_solver. Qed.

Lemma section_focus_in s :
  gs_focus s ∈ focus_order s →
  gs_focus (focus_section_down s) ∈ focus_order s ∧ gs_focus (focus_section_up s) ∈ focus_order s.
Proof.
  destruct s as [style ? ? ? ? ? f]. unfold focus_order. cbn.
  destruct style, f; cbn; set_solver.
Qed.

Lemma refocused_ok s f :
  dialog_ok s → f ∈ focus_order s → dialog_ok (s <| gs_focus := f |>).
Proof. intros ([L M P T] & _ & Hsh) Hf. split_and!; [by constructor|done|done]. Qed.

Lemma with_length_ok n s :
  dialog_ok s → (length_range s).1 ≤ n ≤ (length_range s).2 →
  settings_ok (with_length n s) ∧ gs_focus (with_length n s) ∈ focus_order (with_length n s).
Proof.
  intros ([L M P T] & Hf & _) Hn. unfold with_length, length_range in *.
  destruct s as [[] rc mc pc pv st f]; cbn in *; (split; [constructor; done || lia|done]).
Qed.

Lemma current_in_range s :
  settings_ok s → (length_range s).1 ≤ current_length s ≤ (length_range s).2.
Proof. intros [L M P T]. unfold length_range, current_length. destruct (gs_style s); cbn; lia. Qed.

Lemma toggled_ok i c :
  (1 ≤ enabled_types c)%Z →
  (1 ≤ enabled_types (toggled i c))%Z ∧ rc_length (toggled i c) = rc_length c.
Proof.
  unfold enabled_types, toggled, count_types. destruct c as [n [] [] [] []]; try done;
    destruct i as [|[|[|[|i]]]]; done.
Qed.

Lemma perform_ok op s w s' w' : dialog_ok s → perform op s w = (s', w') → dialog_ok s'.
Proof.
  intros Hs. pose proof Hs as (Hset & Hf & Hsh). destruct op; cbn [perform].
  - by apply regenerate_ok.
  - apply regenerate_ok; [by destruct Hset|]. destruct style; cbn; set_solver.
  - apply regenerate_ok; apply with_length_ok; try done;
      pose proof (current_in_range s Hset); lia.
  - apply regenerate_ok; apply with_length_ok; try done;
      pose proof (current_in_range s Hset); lia.
  - unfold toggle_char_type. case_bool_decide as Hst; [|by intros [= <- _]].
    destruct Hset as [L M P T]. destruct (toggled_ok index _ T) as [T' L'].
    apply regenerate_ok; [|done]. constructor; try done. cbn. by rewrite L'.
  - intros [= <- _]. by apply refocused_ok, cycle_in.
  - intros [= <- _]. by apply refocused_ok, cycle_in.
  - intros [= <- _]. apply refocused_ok; [done|].
    apply cycle_sub; [apply option_focus_sub|done].
  - intros [= <- _]. apply refocused_ok; [done|].
    apply cycle_sub; [apply option_focus_sub|done].
  - intros [= <- _]. by apply refocused_ok, section_focus_in.
  - intros [= <- _]. by apply refocused_ok, section_focus_in.
Qed.

Lemma clamp_between lo hi n : lo ≤ hi → lo ≤ clamp lo hi n ≤ hi.
Proof. unfold clamp. intros. destruct (Nat.ltb_spec n lo), (Nat.ltb_spec hi n); lia. Qed.

(** The generator dialog always has a password to offer.  Opened with defaults that
    enable some character type, whatever lengths they ask for, and after any operations, its
    settings are in the ranges of their sliders, a type is enabled, the focus is on an element
    that the style has, and a password is shown with the strength of the settings. *)
Lemma dialog_always_offers config ops w s w1 s' w' :
  pd_include_uppercase config || pd_include_lowercase config || pd_include_digits config
    || pd_include_special config = true →
  from_config config w = (s, w1) → perform_all ops s w1 = (s', w') → dialog_ok s'.
Proof.
  intros Hty Hnew. assert (dialog_ok s) as Hs.
  { revert Hnew. apply regenerate_ok.
    - constructor; cbn; [by apply clamp_between; lia..|]. unfold enabled_types, count_types. cbn.
      by destruct (pd_include_uppercase config), (pd_include_lowercase config),
        (pd_include_digits config), (pd_include_special config).
    - cbn. destruct (pd_style config); cbn; set_solver. }
  clear Hnew. revert s w1 Hs. induction ops as [|op ops IH]; intros s w1 Hs; cbn [perform_all].
  - by intros [= <- _].
  - intros (s1 & w2 & E & Hr)%io_bind_eq. eapply IH; [|exact Hr]. by eapply perform_ok.
Qed.

(** *** What the generators get wrong *)

Lemma strong_with_three_types c :
  enabled_types c = 3%Z → 16 ≤ rc_length c → entropy_at_least 80 c = true.
Proof.
  intros Ht Hl. assert (44 ≤ charset_size c)%Z as Hsize.
  { by destruct c as [n [] [] [] []]; vm_compute in Ht |- *. }
  unfold entropy_at_least. apply Z.leb_le. transitivity (44 ^ 16)%Z.
  { apply Z.leb_le. by vm_compute. }
  transitivity (charset_size c ^ 16)%Z; [by apply Z.pow_le_mono_l|].
  apply Z.pow_le_mono_r; lia.
Qed.

(** What the generator shows as strong is rated weak.  A random password of three of the
    four character types is rated fair up to 15 characters and weak from 16 on, by the rating
    that the health check uses, while the dialog that generated it shows it, from 16
    characters on, as strong or very strong. *)
Lemma generator_overrates s w s' w' :
  gs_style s = GenerationStyle.Random → enabled_types (gs_random_config s) = 3%Z →
  12 ≤ rc_length (gs_random_config s) ≤ 36 → regenerate s w = (s', w') →
  (evaluate_strength (gs_preview s') =
    if rc_length (gs_random_config s) <=? 15 then mkPasswordStrength StrengthLevel.Fair 3 9
    else mkPasswordStrength StrengthLevel.Weak 3 6) ∧
  (16 ≤ rc_length (gs_random_config s) →
    ∃ shown, gs_strength s' = Some shown ∧
      ps_level shown ∈ [StrengthLevel.Strong; StrengthLevel.VeryStrong]).
Proof.
  intros Hst Hty Hlen (r & w1 & E & Hr)%io_bind_eq. unfold generate in E. rewrite Hst in E.
  apply char_types_password in E. rewrite out_of_range_false in E by lia.
  rewrite enabled_types_some in E by lia. destruct E as (cs & -> & Hcs & _ & He).
  injection Hr as <- _. cbn [gs_preview gs_strength update]. split.
  - cbn. rewrite He. replace (count_types _) with 3%Z by (rewrite <- Hty; unfold enabled_types,
      count_types; by destruct (gs_random_config s) as [n [] [] [] []]).
    unfold rated, rate. destruct (Nat.ltb_spec (rc_length (gs_random_config s)) 8); [lia|].
    destruct (Nat.leb_spec (rc_length (gs_random_config s)) 15) as [?|?]; cbn;
      by rewrite andb_false_r.
  - intros Hl. exists (estimate_random_strength (gs_random_config s)). split.
    + cbn. unfold shown_strength. by rewrite Hst, bool_decide_eq_true_2.
    + unfold estimate_random_strength. rewrite (strong_with_three_types _ Hty Hl).
      destruct (Z.eqb_spec (charset_size (gs_random_config s)) 0) as [E|_].
      * by destruct (gs_random_config s) as [n [] [] [] []]; vm_compute in E, Hty.
      * destruct (entropy_at_least 120 _); cbn; set_solver.
Qed.

End properties.

(** A generator that draws one number, and leaves the order as it is. *)
Definition constant_rng (n : Z) : Rng () := {|
  next_u32 := io_ret n;
  shuffle := io_ret;
|}.

Lemma constant_rng_laws n : @RngLaws () (constant_rng n).
Proof. intros l w l' w' E. by injection E as <- _. Qed.

Lemma draw_constant k n choices :
  draw (H := constant_rng k) n choices () =
    (replicate n (default Ascii.zero (choices !! Z.to_nat (k mod Z.of_nat (length choices)))), ()).
Proof.
  induction n as [|n IH]; [done|]. cbn [draw]. unfold io_bind at 1.
  cbn. by unfold io_bind; rewrite IH.
Qed.

Lemma literal_to_text l : literal (to_text l) = l.
Proof. apply String.list_ascii_of_string_of_list_ascii. Qed.

Lemma constant_ascii k n choices :
  choices ≠ [] → choices ⊆ full_charset →
  forallb is_ascii (replicate n (default Ascii.zero
    (choices !! Z.to_nat (k mod Z.of_nat (length choices))))) = true.
Proof.
  intros Hne Hsub. apply ascii_subset. etransitivity; [|exact Hsub].
  by eapply (draw_spec (H := constant_rng k)), draw_constant.
Qed.

(** An excluded character type is not excluded.  Unless digits, upper-case letters and
    special characters are all asked for, the command takes the policy generator, which fills
    up from the whole character set: for every character of that set, whatever was asked to
    be left out, there is a run that returns a password with it. *)
Lemma excluded_types_generated c len digits uppercase special :
  c ∈ full_charset → 4 ≤ len ≤ 128 → digits && uppercase && special = false →
  ∃ (R : Rng ()) pw, @RngLaws () R ∧ c ∈ literal pw ∧
    handle_generate_password len digits uppercase special () =
      (CommandResult.PasswordGenerated pw (evaluate_strength pw), ()).
Proof.
  intros (k & Hk)%list_elem_of_lookup Hlen Hall. set (R := constant_rng (Z.of_nat k)).
  pose proof (constant_rng_laws (Z.of_nat k)) as HR. fold R in HR.
  destruct (generate_random_password_with_policy (H := R) len (if digits then 1 else 0)
    (if special then 1 else 0) 1 (if uppercase then 1 else 0) ()) as [r []] eqn:E.
  assert (∃ pw, r = Ok pw ∧ c ∈ literal pw) as (pw & -> & Hc).
  2: { exists R, pw. split_and!; [done..|]. unfold handle_generate_password. rewrite Hall.
       unfold io_bind. by rewrite E. }
  unfold generate_random_password_with_policy in E. rewrite out_of_range_false in E by done.
  assert ((if digits then 1 else 0) + (if special then 1 else 0) + 1
    + (if uppercase then 1 else 0) ≤ 3) as Hreq
    by (destruct digits, uppercase, special; try discriminate Hall; lia).
  set (required := (if digits then 1 else 0) + _ + 1 + _) in *.
  destruct (Nat.ltb_spec len required) as [?|_]; [lia|].
  unfold io_bind, R in E. repeat (rewrite draw_constant in E; cbv beta iota in E).
  apply shuffled_run in E as (l & Hl & ->).
  2: { rewrite !forallb_app, !constant_ascii by (done || apply classes_in_charset). done. }
  exists (to_text l). split; [done|]. rewrite literal_to_text, Hl, !elem_of_app.
  do 4 right. pose proof (lookup_lt_Some _ _ _ Hk). rewrite Z.mod_small by lia.
  rewrite Nat2Z.id, Hk. apply elem_of_replicate. split; [done|lia].
Qed.
