(* ===== verification/Rotation.v ===== *)
(** * Rotation of the data encryption key (src/types/rotation.rs, src/services/rotation.rs,
    src/errors/mapping/rotation.rs, src/executor/rotation.rs)

    The rotation service over the vault, with its checkpoint in the metadata table, and
    the executor's protocol around it: pause the sync, rotate, publish the new version in
    the cloud metadata, resume the sync. *)

From S2P Require Import Prelude Errors Env Types CloudMetadata Storage Crypto Keystore.
From S2P Require Import Database Vault Records Executor.

Module RotationTrigger.

Inductive t : Set :=
| AutoTime (days_since_last : Z)
| AutoCount (record_count : Z)
| PostRecovery
| Manual.

(** [Debug] *)
Definition debug (x : t) : string :=
  match x with
  | AutoTime n => "AutoTime { days_since_last: " +:+ pretty n +:+ " }"
  | AutoCount n => "AutoCount { record_count: " +:+ pretty n +:+ " }"
  | PostRecovery => "PostRecovery"
  | Manual => "Manual"
  end.

End RotationTrigger.

Record RotationCheckpoint : Set := mkRotationCheckpoint {
  rc_trigger : RotationTrigger.t;
  rc_old_dek_version : Z;
  rc_new_dek_version : Z;
  rc_total_records : Z;
  rc_migrated_records : Z;
  rc_last_migrated_record_id : option string;
  rc_started_at : Instant;
  rc_cloud_metadata_revision : string;
}.

#[export] Instance eta_RotationCheckpoint : Eta RotationCheckpoint := λ c,
  mkRotationCheckpoint (rc_trigger c) (rc_old_dek_version c) (rc_new_dek_version c)
    (rc_total_records c) (rc_migrated_records c) (rc_last_migrated_record_id c)
    (rc_started_at c) (rc_cloud_metadata_revision c).

Module RotationState.

Inductive t : Set :=
| Idle
| Pending (triggered_at : Instant) (trigger : RotationTrigger.t)
| Rotating (checkpoint : RotationCheckpoint)
| Completed (completed_at : Instant) (records_migrated : Z)
| Failed (error : string) (checkpoint : RotationCheckpoint).

End RotationState.

Record RotationConfig : Set := mkRotationConfig {
  rt_auto_rotate : bool;
  rt_rotate_after_days : option Z;
  rt_rotate_after_records : option Z;
  rt_last_rotation_at : option Instant;
  rt_current_dek_record_count : Z;
}.

#[export] Instance eta_RotationConfig : Eta RotationConfig := λ c,
  mkRotationConfig (rt_auto_rotate c) (rt_rotate_after_days c) (rt_rotate_after_records c)
    (rt_last_rotation_at c) (rt_current_dek_record_count c).

Definition default_config : RotationConfig := mkRotationConfig true (Some 90%Z) (Some 1000%Z) None 0.

Record RotationConfigUpdate : Set := mkRotationConfigUpdate {
  up_auto_rotate : option bool;
  up_rotate_after_days : option (option Z);
  up_rotate_after_records : option (option Z);
}.

Record RotationResult : Set := mkRotationResult {
  rr_old_dek_version : Z;
  rr_new_dek_version : Z;
  rr_records_migrated : Z;
  rr_duration_secs : Z;
  rr_trigger : RotationTrigger.t;
}.

(** [RotationConstants] *)
Definition GRACE_PERIOD_HOURS : Z := 24.
Definition MAX_DEK_VERSION : Z := 10000.

(** ** Errors *)

Module RotationError.

Inductive t : Set :=
| Offline
| SyncBusy
| ConflictDetected (cloud_version local_version : Z)
| RecordMigrationFailed (record_id reason : string)
| PushFailed (reason : string)
| CheckpointCorrupted (reason : string)
| MaxVersionExceeded (current max : Z)
| VaultNotUnlocked
| Internal (reason : string).

Definition display (e : t) : string :=
  match e with
  | Offline => "offline: cannot rotate without network"
  | SyncBusy => "sync busy: could not pause sync within 30s"
  | ConflictDetected c l =>
      "conflict detected: cloud version is " +:+ pretty c +:+ ", local version is " +:+ pretty l
  | RecordMigrationFailed id reason =>
      "record migration failed for " +:+ id +:+ ": " +:+ reason
  | PushFailed reason => "push failed: " +:+ reason
  | CheckpointCorrupted reason => "checkpoint corrupted: " +:+ reason
  | MaxVersionExceeded current max =>
      "max DEK version exceeded: current=" +:+ pretty current +:+ ", max=" +:+ pretty max
  | VaultNotUnlocked => "vault not unlocked"
  | Internal reason => "internal error: " +:+ reason
  end.

Definition error_code (e : t) : ErrorCode.t :=
  match e with
  | ConflictDetected _ _ => ErrorCode.RotationConflictDetected
  | VaultNotUnlocked => ErrorCode.ExecutorVaultLocked
  | _ => ErrorCode.DekRotationFailed
  end.

Definition error_context (e : t) : ErrorContext :=
  match e with
  | ConflictDetected cloud_version local_version =>
      ErrorContext.actual_version local_version
        (ErrorContext.expected_version cloud_version ErrorContext.new)
  | _ => ErrorContext.new
  end.

End RotationError.

#[export] Instance RotationError_service : ServiceError RotationError.t := {
  to_error_code := RotationError.error_code;
  to_error_context := RotationError.error_context;
  to_fallback_message := RotationError.display;
}.

(** ** The service *)

Definition CHECKPOINT_KEY : string := "rotation_checkpoint".
Definition PENDING_TRIGGER_KEY : string := "pending_rotation_trigger".
Definition PENDING_SINCE_KEY : string := "pending_rotation_since".
Definition CONFIG_KEY : string := "rotation_config".

(** [str::parse::<DateTime<Utc>>] *)
Class DateTimeParse : Type := datetime_parse : string → result Instant string.

Definition hours (d : Duration) : Z := Z.quot d (3600 * nanos_per_sec).
Definition days (d : Duration) : Z := Z.quot d (86400 * nanos_per_sec).

Definition check_trigger (config : RotationConfig) (online : bool)
    (days_since_last_rotation : option Z) (current_dek_record_count : Z)
  : option RotationTrigger.t :=
  if negb (rt_auto_rotate config) then None
  else if negb online then None
  else
    let by_count :=
      match rt_rotate_after_records config with
      | Some threshold =>
          if (threshold <=? current_dek_record_count)%Z
          then Some (RotationTrigger.AutoCount current_dek_record_count) else None
      | None => None
      end in
    match rt_rotate_after_days config, days_since_last_rotation with
    | Some days, Some days_since =>
        if (days <=? days_since)%Z then Some (RotationTrigger.AutoTime days_since) else by_count
    | _, _ => by_count
    end.

Section service.
Context {W : Type} `{Libs} `{UuidErrors} `{CryptoLibs} `{Secure W} `{Sqlite W} `{System W}.
Context `{DateTimeParse} `{Serde RotationTrigger.t} `{Serde RotationCheckpoint}.
Context `{Serde RotationConfig}.
Import VaultService.

(** [map_err(|e| RotationError::Internal(e.to_string()))] *)
Definition internal {A} (m : ior W A VaultError.t) : ior W A RotationError.t :=
  io_map_err (λ e, RotationError.Internal (VaultError.display e)) m.

(** The value of a key that is present and not empty. *)
Definition nonempty (o : option string) : option string :=
  match o with
  | Some s => if bool_decide (s = "") then None else Some s
  | None => None
  end.

Definition save_checkpoint (checkpoint : RotationCheckpoint) : ior W () RotationError.t :=
  let! json := lift (map_err RotationError.CheckpointCorrupted (to_json checkpoint)) in
  internal (set_metadata CHECKPOINT_KEY json).

Definition load_checkpoint : ior W (option RotationCheckpoint) RotationError.t :=
  let! json := internal (get_metadata CHECKPOINT_KEY) in
  match nonempty json with
  | Some json =>
      let! checkpoint := lift (map_err RotationError.CheckpointCorrupted (from_json json)) in
      lift (Ok (Some checkpoint))
  | None => lift (Ok None)
  end.

Definition delete_checkpoint : ior W () RotationError.t :=
  internal (delete_metadata CHECKPOINT_KEY).

Definition save_pending_trigger (trigger : RotationTrigger.t) (triggered_at : Instant)
  : ior W () RotationError.t :=
  let! trigger_json := lift (map_err RotationError.Internal (to_json trigger)) in
  let! _ := internal (set_metadata PENDING_TRIGGER_KEY trigger_json) in
  internal (set_metadata PENDING_SINCE_KEY (rfc3339_print triggered_at)).

Definition load_pending_trigger : ior W (option (RotationTrigger.t * Instant)) RotationError.t :=
  let! trigger_json := internal (get_metadata PENDING_TRIGGER_KEY) in
  match nonempty trigger_json with
  | None => lift (Ok None)
  | Some trigger_json =>
      let! since := internal (get_metadata PENDING_SINCE_KEY) in
      match nonempty since with
      | None => lift (Err (RotationError.CheckpointCorrupted
                  "pending_trigger present but pending_since absent"))
      | Some since_str =>
          let! trigger :=
            lift (map_err RotationError.CheckpointCorrupted (from_json trigger_json)) in
          let! triggered_at := lift (map_err
            (λ e, RotationError.CheckpointCorrupted ("invalid datetime: " +:+ e))
            (datetime_parse since_str)) in
          lift (Ok (Some (trigger, triggered_at)))
      end
  end.

Definition clear_pending_trigger : ior W () RotationError.t :=
  let! _ := internal (delete_metadata PENDING_TRIGGER_KEY) in
  internal (delete_metadata PENDING_SINCE_KEY).

Definition is_past_grace_period (triggered_at : Instant) : io W bool :=
  let* now := now in
  io_ret (GRACE_PERIOD_HOURS <=? hours (now - triggered_at))%Z.

Definition migrate_record (m : CryptoManager) (record_id : Uuid) (old_dek_version : Z)
  : ior W () RotationError.t :=
  io_map_err (λ e, RotationError.RecordMigrationFailed (uuid_to_string record_id)
      (VaultError.display e))
    (re_encrypt_record m record_id old_dek_version).

Definition lazy_migrate_record (m : CryptoManager) (record_id : Uuid)
    (record_dek_version : Z) : ior W () RotationError.t :=
  let current_version := cm_current m in
  if (record_dek_version <? current_version)%Z then
    let! _ := migrate_record m record_id record_dek_version in
    let* _ := log_dek_rotated ("lazy migration: record " +:+ uuid_to_string record_id +:+ " v"
      +:+ pretty record_dek_version +:+ " -> v" +:+ pretty current_version) in
    lift (Ok ())
  else lift (Ok ()).

(** The record the checkpoint names as the last one done. *)
Definition already_done (migrated : Z) (c : RotationCheckpoint) (record : StoredRecord) : bool :=
  (0 <? migrated)%Z &&
  bool_decide (rc_last_migrated_record_id c = Some (uuid_to_string (st_id record))).

(** The loop of [migrate_all_records]. *)
Fixpoint migrate_records (m : CryptoManager) (migrated : Z) (c : RotationCheckpoint)
    (records : list StoredRecord) : ior W (Z * RotationCheckpoint) RotationError.t :=
  match records with
  | [] => lift (Ok (migrated, c))
  | record :: records =>
      if already_done migrated c record then migrate_records m migrated c records
      else
        let! _ := migrate_record m (st_id record) (st_dek_version record) in
        let migrated := wrap32 (migrated + 1) in
        let c := c <| rc_migrated_records := migrated |>
                   <| rc_last_migrated_record_id := Some (uuid_to_string (st_id record)) |> in
        let! _ := save_checkpoint c in
        migrate_records m migrated c records
  end.

Definition migrate_all_records (m : CryptoManager) (c : RotationCheckpoint)
  : ior W (Z * RotationCheckpoint) RotationError.t :=
  let! records := internal (list_records_for_migration (rc_new_dek_version c)) in
  migrate_records m (rc_migrated_records c) c records.

Definition get_config : ior W RotationConfig RotationError.t :=
  let! json := internal (get_metadata CONFIG_KEY) in
  match nonempty json with
  | Some json => lift (map_err RotationError.Internal (from_json json))
  | None => lift (Ok default_config)
  end.

Definition save_config (config : RotationConfig) : ior W () RotationError.t :=
  let! json := lift (map_err RotationError.Internal (to_json config)) in
  internal (set_metadata CONFIG_KEY json).

(** [if let Some(x) = update.field { config.field = x }] *)
Definition apply_update (u : RotationConfigUpdate) (c : RotationConfig) : RotationConfig :=
  mkRotationConfig (default (rt_auto_rotate c) (up_auto_rotate u))
    (default (rt_rotate_after_days c) (up_rotate_after_days u))
    (default (rt_rotate_after_records c) (up_rotate_after_records u))
    (rt_last_rotation_at c) (rt_current_dek_record_count c).

Definition update_config (u : RotationConfigUpdate) : ior W () RotationError.t :=
  let! config := get_config in
  save_config (apply_update u config).

Definition has_pending_checkpoint : ior W bool RotationError.t :=
  let! c := load_checkpoint in
  lift (Ok match c with Some _ => true | None => false end).

(** [Utc::now().signed_duration_since(start).num_seconds() as u64] *)
Definition elapsed_secs (start : Instant) : io W Z :=
  let* n := now in
  io_ret (wrap64 (Z.quot (n - start) nanos_per_sec)).

(** The service's state after each outcome goes with the result; [stay s m k] runs [m] in
    the state [s], which is the final one when [m] fails. *)
Definition stay {A B} (s : RotationState.t) (m : ior W A RotationError.t)
    (k : A → io W (result B RotationError.t * RotationState.t))
  : io W (result B RotationError.t * RotationState.t) :=
  let* r := m in
  match r with Ok a => k a | Err e => io_ret (Err e, s) end.

Definition resume_rotation (m : CryptoManager) (s : RotationState.t)
  : io W (result RotationResult RotationError.t * RotationState.t) :=
  stay s load_checkpoint (λ o,
  stay s (lift (ok_or (RotationError.Internal "no checkpoint to resume") o)) (λ checkpoint,
  let* start_time := now in
  let s := RotationState.Rotating checkpoint in
  stay s (migrate_all_records m checkpoint) (λ '(records_migrated, checkpoint),
  let* duration_secs := elapsed_secs start_time in
  let res := mkRotationResult (rc_old_dek_version checkpoint) (rc_new_dek_version checkpoint)
    records_migrated duration_secs (rc_trigger checkpoint) in
  let* completed_at := now in
  let s := RotationState.Completed completed_at records_migrated in
  stay s delete_checkpoint (λ _, io_ret (Ok res, s))))).

Definition rotate (m : CryptoManager) (s : RotationState.t) (trigger : RotationTrigger.t)
    (expected_metadata_version : Z)
  : io W (result RotationResult RotationError.t * RotationState.t) :=
  let current_version := cm_current m in
  let* start_time := now in
  if (MAX_DEK_VERSION <=? current_version)%Z
  then io_ret (Err (RotationError.MaxVersionExceeded current_version MAX_DEK_VERSION), s)
  else
    let* triggered_at := now in
    let* started_at := now in
    let checkpoint := mkRotationCheckpoint trigger current_version (current_version + 1) 0 0
      None started_at ("cas-" +:+ pretty expected_metadata_version) in
    let s := RotationState.Rotating checkpoint in
    stay s (save_checkpoint checkpoint) (λ _,
    stay s (migrate_all_records m checkpoint) (λ '(records_migrated, checkpoint),
    let* duration_secs := elapsed_secs start_time in
    let res := mkRotationResult (rc_old_dek_version checkpoint)
      (rc_new_dek_version checkpoint) records_migrated duration_secs trigger in
    let* completed_at := now in
    let s := RotationState.Completed completed_at records_migrated in
    stay s delete_checkpoint (λ _,
    stay s get_config (λ config,
    let* last_rotation_at := now in
    let config := config <| rt_last_rotation_at := Some last_rotation_at |>
                         <| rt_current_dek_record_count := 0%Z |> in
    stay s (save_config config) (λ _,
    stay s (internal (log_dek_rotated ("DEK v" +:+ pretty (rr_old_dek_version res) +:+ " -> v"
              +:+ pretty (rr_new_dek_version res) +:+ " ("
              +:+ RotationTrigger.debug (rr_trigger res) +:+ ")"))) (λ _,
    io_ret (Ok res, s))))))).

Definition trigger_rotation (m : CryptoManager) (s : RotationState.t)
    (expected_metadata_version : Z) :=
  rotate m s RotationTrigger.Manual expected_metadata_version.

End service.

(** ** The executor's protocol (src/executor/rotation.rs) *)

Section executor.
Context {W : Type} `{Libs} `{UuidErrors} `{CryptoLibs} `{Secure W} `{Sqlite W} `{System W}.
Context `{DateTimeParse} `{Serde RotationTrigger.t} `{Serde RotationCheckpoint}.
Context `{Serde RotationConfig} `{SyncService W}.

(** A failure to read the stored configuration is the default, an unreadable one is not. *)
Definition load_rotation_config : io W (result RotationConfig string) :=
  let* r := VaultService.get_metadata CONFIG_KEY in
  io_ret match r with
         | Ok o =>
             match nonempty o with Some json => from_json json | None => Ok default_config end
         | Err _ => Ok default_config
         end.

Definition resolve_cas_conflict (local_new_version : Z) : ior W Z string :=
  let* r := ss_download_metadata in
  io_ret match r with
         | Ok (Some cloud_meta) =>
             let cloud_dek := cm_current_dek_version cloud_meta in
             if (local_new_version <=? cloud_dek)%Z then Ok cloud_dek
             else Err ("CAS conflict anomaly: cloud dek_version " +:+ pretty cloud_dek
                         +:+ " < local " +:+ pretty local_new_version)
         | Ok None =>
             Err "CAS conflict but cloud metadata vanished — transient inconsistency"
         | Err e =>
             Err ("CAS conflict and failed to download cloud metadata for alignment: "
                    +:+ SyncError.display e)
         end.

(** [if let Some(sync_svc) = &mut executor.sync { let _ = sync_svc.resume().await; }] *)
Definition resume_sync (x : CommandExecutor) : io W () :=
  if ex_sync x then let* _ := ss_resume in io_ret () else io_ret ().

(** Reports [r] after the sync is resumed. *)
Definition resumed (x : CommandExecutor) (r : CommandResult.t) : io W CommandResult.t :=
  let* _ := resume_sync x in
  io_ret r.

Definition cas_conflict (label : string) (res : RotationResult) (cas_err : SyncError.t)
    (alignment : result Z string) : CommandResult.t :=
  let head := "DEK " +:+ label +:+ " v" +:+ pretty (rr_old_dek_version res) +:+ " -> v"
    +:+ pretty (rr_new_dek_version res) +:+ " completed locally but " in
  CommandResult.Error ErrorCode.RotationConflictDetected ErrorContext.new
    "error.rotation_cas_conflict"
    (head +:+
     match alignment with
     | Ok cloud_dek =>
         "another device updated cloud simultaneously. Local data is safe (cloud DEK v"
           +:+ pretty cloud_dek +:+ "). Records will sync on next cycle. CAS error: "
           +:+ SyncError.display cas_err
     | Err align_err =>
         "cloud push failed: " +:+ SyncError.display cas_err
           +:+ ". Alignment check also failed. Local data is safe. Manual sync recommended. "
           +:+ "Alignment error: " +:+ align_err
     end).

Definition rotation_completed (res : RotationResult) : CommandResult.t :=
  CommandResult.RotationCompleted (rr_old_dek_version res) (rr_new_dek_version res)
    (rr_records_migrated res).

(** Step 4: publishes the new version, unless the cloud metadata is missing or unreadable. *)
Definition publish_rotation (x : CommandExecutor) (label : string) (expected_version : Z)
    (res : RotationResult) : io W CommandResult.t :=
  if ex_sync x then
    let* r := ss_download_metadata in
    match r with
    | Ok (Some meta) =>
        let meta := meta <| cm_current_dek_version := rr_new_dek_version res |>
                         <| cm_metadata_version ::= λ v, wrap64 (v + 1) |> in
        let* pushed := ss_push_metadata_atomic meta expected_version in
        match pushed with
        | Err cas_err =>
            let* alignment := resolve_cas_conflict (rr_new_dek_version res) in
            resumed x (cas_conflict label res cas_err alignment)
        | Ok _ => resumed x (rotation_completed res)
        end
    | Ok None | Err _ => resumed x (rotation_completed res)
    end
  else resumed x (rotation_completed res).

(** Step 2: the version of the cloud metadata. *)
Definition expected_cloud_version (x : CommandExecutor) : ior W Z SyncError.t :=
  if ex_sync x then
    ior_map (λ o, match o with Some meta => cm_metadata_version meta | None => 0%Z end)
      ss_download_metadata
  else lift (Ok 0%Z).

Definition pause_sync (x : CommandExecutor) : ior W () SyncError.t :=
  if ex_sync x then ss_pause else lift (Ok ()).

Definition vault_not_available (e : VaultError.t) (what : string) : CommandResult.t :=
  CommandResult.Error (VaultError.error_code e) (VaultError.error_context e)
    "error.vault_not_available" (what +:+ VaultError.display e).

(** The steps between the pause and the resume. *)
Definition paused_protocol (x : CommandExecutor) (label rotation_error_key : string)
    (rotation_fn : CryptoManager → Z → ior W RotationResult RotationError.t)
  : io W CommandResult.t :=
  let* v := expected_cloud_version x in
  match v with
  | Err e =>
      resumed x (service_error e "error.download_metadata_failed"
        ("Failed to download cloud metadata for " +:+ label +:+ ": " +:+ SyncError.display e))
  | Ok expected_version =>
      match VaultRuntime.open_vault (ex_vault_runtime x) with
      | Err e => resumed x (vault_not_available e "Vault is not available for rotation: ")
      | Ok v =>
          let* r := rotation_fn (vs_crypto v) expected_version in
          match r with
          | Ok res => publish_rotation x label expected_version res
          | Err e =>
              resumed x (service_error e rotation_error_key
                ("DEK " +:+ label +:+ " failed: " +:+ RotationError.display e))
          end
      end
  end.

Definition execute_rotation_protocol (x : CommandExecutor) (label rotation_error_key : string)
    (rotation_fn : CryptoManager → Z → ior W RotationResult RotationError.t)
  : io W CommandResult.t :=
  if ex_cancelled x then io_ret (CommandResult.cancelled "rotation")
  else
    let* p := pause_sync x in
    match p with
    | Err e =>
        io_ret (service_error e "error.sync_pause_failed"
          ("Failed to pause sync for " +:+ label +:+ ": " +:+ SyncError.display e))
    | Ok _ => paused_protocol x label rotation_error_key rotation_fn
    end.

(** A method of a service made for the call, in the state [Idle]. *)
Definition with_service
    (f : RotationState.t → io W (result RotationResult RotationError.t * RotationState.t))
  : ior W RotationResult RotationError.t :=
  let* (r, _) := f RotationState.Idle in
  io_ret r.

Definition handle_trigger_rotation (x : CommandExecutor) : io W CommandResult.t :=
  execute_rotation_protocol x "rotation" "error.rotation_failed"
    (λ m version, with_service (λ s, trigger_rotation m s version)).

Definition handle_resume_rotation (x : CommandExecutor) : io W CommandResult.t :=
  match VaultRuntime.open_vault (ex_vault_runtime x) with
  | Err e => io_ret (vault_not_available e "Vault is not available: ")
  | Ok m =>
      let* r := has_pending_checkpoint in
      match r with
      | Ok true =>
          execute_rotation_protocol x "rotation resume" "error.rotation_resume_failed"
            (λ m _, with_service (λ s, resume_rotation m s))
      | _ => io_ret (CommandResult.RotationTriggerChecked false (Some "no_pending_checkpoint"))
      end
  end.

(** [num_days().max(0) as u32] of the time since the last rotation. *)
Definition days_since (c : RotationConfig) : io W (option Z) :=
  match rt_last_rotation_at c with
  | Some last =>
      let* n := now in
      io_ret (Some (wrap32 (Z.max 0 (days (n - last)))))
  | None => io_ret None
  end.

Definition handle_check_rotation_trigger (x : CommandExecutor) : io W CommandResult.t :=
  match VaultRuntime.open_vault (ex_vault_runtime x) with
  | Err e => io_ret (vault_not_available e "Vault is not available: ")
  | Ok _ =>
      let* c := load_rotation_config in
      match c with
      | Err _ =>
          io_ret (CommandResult.Error ErrorCode.ConfigLoadFailed ErrorContext.new
            "error.rotation_config_load_failed" "Failed to load rotation config")
      | Ok config =>
          let* d := days_since config in
          let trigger := check_trigger config (ex_sync x) d (rt_current_dek_record_count config) in
          io_ret match trigger with
                 | Some t =>
                     CommandResult.RotationTriggerChecked true (Some (RotationTrigger.debug t))
                 | None => CommandResult.RotationTriggerChecked false None
                 end
      end
  end.

End executor.

(** ** Properties *)

(** What may happen to a record: nothing, or its text moved to the current key. *)
Definition migrated_row `{CryptoLibs} (m : CryptoManager) (row row' : RecordRow) : Prop :=
  same_record row row' ∧ (∀ p, row_reads m row p → row_reads m row' p) ∧
  (row' = row ∨ row_dek_version row' = cm_current m).

(** No record is lost, added or made unreadable. *)
Definition records_kept `{CryptoLibs} (m : CryptoManager) (rs rs' : gmap string RecordRow)
  : Prop := ∀ id, option_Forall2 (migrated_row m) (rs !! id) (rs' !! id).

Lemma same_record_refl row : same_record row row.
Proof. by unfold same_record. Qed.

Lemma same_record_trans a b c : same_record a b → same_record b c → same_record a c.
Proof. unfold same_record. intros. destruct_and!. split_and!; congruence. Qed.

#[export] Instance migrated_row_preorder `{CryptoLibs} m : PreOrder (migrated_row m).
Proof.
  split.
  - intros a. split_and!; eauto using same_record_refl.
  - intros a b c (Hab & Pab & Dab) (Hbc & Pbc & Dbc).
    split_and!; [by eapply same_record_trans|eauto|]. destruct Dbc as [->|?]; auto.
Qed.

#[export] Instance records_kept_preorder `{CryptoLibs} m : PreOrder (records_kept m).
Proof.
  split; [by intros rs id|]. intros r1 r2 r3 H12 H23 id. etrans; [apply H12|apply H23].
Qed.

Lemma records_kept_insert `{CryptoLibs} m (rs : gmap string RecordRow) id row row' :
  rs !! id = Some row → migrated_row m row row' → records_kept m rs (<[id := row']> rs).
Proof.
  intros Hl Hm j. destruct (decide (id = j)) as [->|Hne].
  - rewrite Hl, lookup_insert_eq. by constructor.
  - by rewrite lookup_insert_ne.
Qed.

Section rotation_properties.
Context {W : Type} `{LibLaws} `{UuidErrors} `{CryptoLibLaws} `{SqliteLaws W} `{!SecureLaws W}.
Context `{DateTimeParse} `{Serde RotationTrigger.t} `{Serde RotationCheckpoint}.
Context `{Serde RotationConfig}.
Import VaultService.

#[local] Hint Resolve keeps_set_metadata keeps_delete_metadata keeps_insert_audit_entry : keeps.
#[local] Hint Extern 0 (keeps records now) => apply keeps_records; exact now_tables : keeps.

(** Everything but the migration itself leaves the records alone. *)
Lemma keeps_save_checkpoint c : keeps records (save_checkpoint c).
Proof. unfold save_checkpoint, internal, set_metadata, db. solve_keeps. Qed.

Lemma keeps_delete_checkpoint : keeps records delete_checkpoint.
Proof. unfold delete_checkpoint, internal, delete_metadata, db. solve_keeps. Qed.

Lemma keeps_save_config c : keeps records (save_config c).
Proof. unfold save_config, internal, set_metadata, db. solve_keeps. Qed.

Lemma keeps_log_rotated d : keeps records (internal (log_dek_rotated d)).
Proof. unfold internal, log_dek_rotated, db. solve_keeps. Qed.

Lemma keeps_get_config : keeps records get_config.
Proof.
  unfold get_config, internal, VaultService.get_metadata, db. apply keeps_ior_bind;
    [|intros; solve_keeps]. solve_keeps. apply keeps_records, keeps_get_metadata.
Qed.

Lemma keeps_elapsed t : keeps records (elapsed_secs t).
Proof. unfold elapsed_secs. solve_keeps. Qed.

(** A record of the listing and its row. *)
Definition listed (rs : gmap string RecordRow) (s : StoredRecord) : Prop :=
  ∃ row, rs !! uuid_to_string (st_id s) = Some row ∧
    st_dek_version s = wrap32 (row_dek_version row).

Lemma migrate_record_outcome m s w r w' :
  migrate_record m (st_id s) (st_dek_version s) w = (r, w') →
  is_u32 (cm_current m) → map_Forall row_wf (records w) → listed (records w) s →
  map_Forall row_wf (records w') ∧ records_kept m (records w) (records w') ∧
  (∀ id, id ≠ uuid_to_string (st_id s) → records w' !! id = records w !! id) ∧
  (r = Ok () → row_dek_version <$> records w' !! uuid_to_string (st_id s)
                 = Some (cm_current m)).
Proof.
  unfold migrate_record, io_map_err. intros (x & w1 & Hr & Hx)%io_bind_eq Hc Hwf (row & Hl & Hs).
  injection Hx as <- <-. apply re_encrypt_outcome in Hr as [[Hsame Hr]|(-> & Hr)]; [| |done].
  { rewrite Hsame. split_and!; try done. by destruct x as [[]|]. }
  destruct Hr as (row0 & row' & key & p & Hl0 & Hk & Hd & -> & Hv & (z & Hz) & Hsr & Hp).
  assert (row0 = row) as -> by congruence. specialize (Hp Hc). split_and!.
  - apply map_Forall_insert_2; [|done]. pose proof (Hwf _ _ Hl) as (Hid & Hu & _ & _).
    unfold row_wf. split_and?; [by destruct Hsr as (-> & _)|done|..];
      try (unfold is_u32 in Hc; lia); rewrite Hz; apply as_i64_range.
  - eapply records_kept_insert; [done|]. split_and!; [done| |by right].
    intros q (key' & Hk' & Hd'). rewrite <- Hs in Hk'. by assert (q = p) as -> by congruence.
  - intros id Hne. by apply lookup_insert_ne.
  - intros _. rewrite lookup_insert_eq. cbn. congruence.
Qed.

Definition record_ids (l : list StoredRecord) : list string := (λ s, uuid_to_string (st_id s)) <$> l.

(** The records that the loop has not reached yet are as they were listed. *)
Lemma listed_rest l (rs rs' : gmap string RecordRow) id :
  Forall (listed rs) l → id ∉ record_ids l →
  (∀ j, j ≠ id → rs' !! j = rs !! j) → Forall (listed rs') l.
Proof.
  intros Hl Hid Hsame. apply Forall_forall. intros s Hs.
  destruct (proj1 (Forall_forall _ _) Hl s Hs) as (row & Hr & Hd). exists row.
  split; [|done]. rewrite Hsame; [done|]. intros <-. apply Hid.
  by apply (list_elem_of_fmap_2 (λ s, uuid_to_string (st_id s))).
Qed.

(** The loop keeps every record readable, however it ends, and touches no other record. *)
Lemma migrate_records_safe m l : ∀ n c w r w',
  migrate_records m n c l w = (r, w') → is_u32 (cm_current m) →
  map_Forall row_wf (records w) → Forall (listed (records w)) l → NoDup (record_ids l) →
  map_Forall row_wf (records w') ∧ records_kept m (records w) (records w') ∧
  (∀ id, id ∉ record_ids l → records w' !! id = records w !! id).
Proof.
  induction l as [|s l IH]; intros n c w r w' Hr Hc Hwf Hl Hnd; cbn [migrate_records] in Hr.
  { injection Hr as <- <-. by split_and!. }
  apply Forall_cons in Hl as [Hs Hl]. apply NoDup_cons in Hnd as [Hid Hnd].
  assert (∀ id w1, id ∉ record_ids (s :: l) →
    (∀ j, j ≠ uuid_to_string (st_id s) → records w1 !! j = records w !! j) →
    id ∉ record_ids l ∧ records w1 !! id = records w !! id) as Hout.
  { intros id w1 Hn Hw1. apply not_elem_of_cons in Hn as [? ?]. auto. }
  destruct (already_done n c s).
  { destruct (IH _ _ _ _ _ Hr Hc Hwf Hl Hnd) as (? & ? & Ho). split_and!; [done..|].
    intros id Hn. apply Ho. by apply not_elem_of_cons in Hn as [_ ?]. }
  rewrite ior_bind_step in Hr.
  destruct (migrate_record m _ _ w) as [r1 w1] eqn:E1.
  destruct (migrate_record_outcome _ _ _ _ _ E1 Hc Hwf Hs) as (Hwf1 & Hk1 & Hsame & _).
  destruct r1 as [[]|e].
  2:{ injection Hr as <- <-. split_and!; [done..|]. intros id Hn. by apply Hout. }
  rewrite ior_bind_step in Hr.
  destruct (save_checkpoint _ w1) as [r2 w2] eqn:E2. apply keeps_save_checkpoint in E2 as T2.
  destruct r2 as [[]|e].
  2:{ injection Hr as <- <-. rewrite T2. split_and!; [done..|]. intros id Hn. by apply Hout. }
  assert (Forall (listed (records w2)) l) as Hl2 by (rewrite T2; by eapply listed_rest).
  rewrite <- T2 in Hwf1. destruct (IH _ _ _ _ _ Hr Hc Hwf1 Hl2 Hnd) as (Hwf' & Hk' & Ho').
  split_and!; [done| |].
  - etrans; [exact Hk1|]. by rewrite <- T2.
  - intros id Hn. destruct (Hout id w1 Hn Hsame) as [? <-]. rewrite <- T2. by apply Ho'.
Qed.

(** A loop that ends well has moved every record to the current key and counted it. *)
Lemma migrate_records_done m l : ∀ n c w n' c' w',
  migrate_records m n c l w = (Ok (n', c'), w') → is_u32 (cm_current m) → is_u32 n →
  map_Forall row_wf (records w) → Forall (listed (records w)) l → NoDup (record_ids l) →
  (∀ id, rc_last_migrated_record_id c = Some id → id ∉ record_ids l) →
  Forall (λ id, row_dek_version <$> records w' !! id = Some (cm_current m)) (record_ids l) ∧
  n' = wrap32 (n + Z.of_nat (length l)) ∧
  rc_old_dek_version c' = rc_old_dek_version c ∧ rc_new_dek_version c' = rc_new_dek_version c.
Proof.
  induction l as [|s l IH]; intros n c w n' c' w' Hr Hc Hn Hwf Hl Hnd Hlast;
    cbn [migrate_records] in Hr.
  { injection Hr as <- <- <-. rewrite Z.add_0_r, wrap32_small by done. by split_and!. }
  apply Forall_cons in Hl as [Hs Hl]. apply NoDup_cons in Hnd as [Hid Hnd].
  unfold already_done in Hr. rewrite bool_decide_eq_false_2, andb_false_r in Hr.
  2:{ intros Hd. apply (Hlast _ Hd). by left. }
  apply ior_bind_ok in Hr as ([] & w1 & E1 & Hr). apply ior_bind_ok in Hr as ([] & w2 & E2 & Hr).
  destruct (migrate_record_outcome _ _ _ _ _ E1 Hc Hwf Hs) as (Hwf1 & _ & Hsame & Hdek).
  specialize (Hdek eq_refl). apply keeps_save_checkpoint in E2 as T2.
  assert (Forall (listed (records w2)) l) as Hl2 by (rewrite T2; by eapply listed_rest).
  rewrite <- T2 in Hwf1, Hdek.
  destruct (migrate_records_safe _ _ _ _ _ _ _ Hr Hc Hwf1 Hl2 Hnd) as (_ & _ & Hout).
  destruct (IH _ _ _ _ _ _ Hr Hc (wrap32_range _) Hwf1 Hl2 Hnd) as (Hall & -> & Ho & Hnw).
  { cbn. by intros id [= <-]. }
  split_and!; [|unfold wrap32; rewrite Zplus_mod_idemp_l; f_equal; cbn [length]; lia|done|done].
  constructor; [|done]. by rewrite Hout.
Qed.

Lemma rows_listed rs rows l :
  Forall2 (λ row r, ∃ tags, RecordRow.to_stored_record row tags = Ok r) rows l →
  Forall (λ row, ∃ id, rs !! id = Some row ∧ row_wf id row) rows →
  row_id <$> rows = record_ids l ∧ Forall (listed rs) l.
Proof.
  induction 1 as [|row s rows l [tags Hs] Hf IH]; intros Hrows; [done|].
  apply Forall_cons in Hrows as [(id & Hr & Hid & (u & Hu & ->) & _) Hrows].
  destruct (IH Hrows) as [IH1 IH2].
  apply to_stored_ok in Hs as (Hp & _ & _ & Hd & _).
  rewrite Hid, uuid_roundtrip in Hp by done. injection Hp as ->.
  split; [cbn; by rewrite Hid, IH1|]. constructor; [|done]. by exists row.
Qed.

(** What the listing returns: the records below the target, each once. *)
Lemma listing_ok target w l w' :
  list_records_for_migration target w = (Ok l, w') → map_Forall row_wf (records w) →
  Forall (listed (records w)) l ∧ NoDup (record_ids l) ∧
  (∀ id row, records w !! id = Some row → (row_dek_version row < target)%Z → id ∈ record_ids l) ∧
  length l = length (sql_records_below target (tables w)).
Proof.
  unfold list_records_for_migration, db. intros Hl Hwf. inv_runs.
  match goal with E : list_records_by_dek_version _ _ = _ |- _ =>
    apply list_records_ok in E as (rows & Hp & Hf) end.
  assert (Hin : ∀ row, row ∈ rows ↔
    (row_dek_version row < target)%Z ∧ ∃ id, records w !! id = Some row).
  { intros row. rewrite Hp. unfold sql_records_below. rewrite list_elem_of_filter, list_elem_of_fmap.
    f_equiv. split.
    - intros ([id r] & -> & Hr). apply elem_of_map_to_list in Hr. eauto.
    - intros (id & Hr). exists (id, row). by rewrite elem_of_map_to_list. }
  destruct (rows_listed (records w) rows l Hf) as [Hids Hlisted].
  { apply Forall_forall. intros row (_ & id & Hr)%Hin. eauto. }
  split_and!; [done| | |].
  - rewrite <- Hids, Hp. unfold sql_records_below. apply NoDup_fmap_filter.
    rewrite <- list_fmap_compose. erewrite (list_fmap_ext _ fst); [apply NoDup_fst_map_to_list|].
    intros i [id row] Hi. apply list_elem_of_lookup_2, elem_of_map_to_list in Hi.
    by destruct (Hwf _ _ Hi).
  - intros id row Hr Hlt. rewrite <- Hids. destruct (Hwf _ _ Hr) as [<- _].
    apply list_elem_of_fmap_2, Hin. eauto.
  - rewrite <- (Forall2_length _ _ _ Hf). by rewrite Hp.
Qed.

(** Code that keeps the records readable, whatever its outcome. *)
Definition safe {A} (m : CryptoManager) (f : io W A) : Prop :=
  ∀ w r w', f w = (r, w') → map_Forall row_wf (records w) →
    map_Forall row_wf (records w') ∧ records_kept m (records w) (records w').

Lemma safe_bind {A B} m (f : io W A) (k : A → io W B) :
  safe m f → (∀ a, safe m (k a)) → safe m (io_bind f k).
Proof.
  intros Hf Hk w r w' (a & w1 & E1 & E2)%io_bind_eq Hwf.
  destruct (Hf _ _ _ E1 Hwf) as [Hwf1 Hk1]. destruct (Hk _ _ _ _ E2 Hwf1) as [Hwf2 Hk2].
  split; [done|]. by etrans.
Qed.

Lemma safe_keeps {A} m (f : io W A) : keeps records f → safe m f.
Proof. intros Hf w r w' E Hwf. by rewrite (Hf _ _ _ E). Qed.

Lemma safe_stay {A B} m s (f : ior W A RotationError.t)
    (k : A → io W (result B RotationError.t * RotationState.t)) :
  safe m f → (∀ a, safe m (k a)) → safe m (stay s f k).
Proof.
  intros Hf Hk. apply safe_bind; [done|]. intros [a|e]; [done|]. apply safe_keeps, keeps_ret.
Qed.

Lemma migrate_all_safe m c : is_u32 (cm_current m) → safe m (migrate_all_records m c).
Proof.
  intros Hc w r w' Hr Hwf. unfold migrate_all_records in Hr. rewrite ior_bind_step in Hr.
  unfold internal, io_map_err, io_bind, io_ret in Hr.
  destruct (list_records_for_migration _ w) as [x w1] eqn:E1.
  pose proof (keeps_records _ (keeps_list_for_migration _) _ _ _ E1) as T.
  destruct x as [l|e]; cbn in Hr; [|injection Hr as <- <-; by rewrite T].
  apply listing_ok in E1 as (Hl & Hnd & _); [|done]. rewrite <- T in Hl, Hwf |- *.
  eapply migrate_records_safe in Hr as (? & ? & _); eauto.
Qed.

#[local] Hint Resolve keeps_save_checkpoint keeps_delete_checkpoint keeps_save_config
  keeps_log_rotated keeps_get_config keeps_elapsed : keeps.

Lemma keeps_load_checkpoint : keeps records load_checkpoint.
Proof.
  unfold load_checkpoint, internal, VaultService.get_metadata, db. apply keeps_ior_bind.
  - solve_keeps. apply keeps_records, keeps_get_metadata.
  - intros o. solve_keeps.
Qed.
#[local] Hint Resolve keeps_load_checkpoint : keeps.

(** Follows the structure of the service's methods. *)
Ltac solve_safe :=
  repeat match goal with
  | |- ∀ x, _ => intros ?
  | |- safe _ (stay _ _ _) => apply safe_stay
  | |- safe _ (migrate_all_records _ _) => by apply migrate_all_safe
  | |- safe _ (let (_, _) := ?x in _) => destruct x
  | |- safe _ (if ?b then _ else _) => destruct b
  | |- safe _ (io_bind _ _) => apply safe_bind
  | |- safe _ _ => apply safe_keeps; solve_keeps
  end.

Lemma safe_rotate m s trigger v : is_u32 (cm_current m) → safe m (rotate m s trigger v).
Proof. intros Hc. unfold rotate. solve_safe. Qed.

Lemma safe_resume m s : is_u32 (cm_current m) → safe m (resume_rotation m s).
Proof. intros Hc. unfold resume_rotation. solve_safe. Qed.

(** C7: rotation never loses a record.  However a rotation ends, and however the recovery
    of an interrupted one does, every record of the vault is still there, with its
    identity, its type, its state in the trash and its expiry, and what it decrypted to
    under the key of its version it decrypts to under the key of its new version. *)
Theorem rotation_keeps_records m s trigger v w :
  is_u32 (cm_current m) → map_Forall row_wf (records w) →
  records_kept m (records w) (records (rotate m s trigger v w).2) ∧
  records_kept m (records w) (records (resume_rotation m s w).2).
Proof.
  intros Hc Hwf. split.
  - by eapply safe_rotate; [|apply surjective_pairing|].
  - by eapply safe_resume; [|apply surjective_pairing|].
Qed.

(** ** The key that rotation leaves *)

Lemma stay_ok {A B} s (f : ior W A RotationError.t)
    (k : A → io W (result B RotationError.t * RotationState.t)) b s' w w' :
  stay s f k w = ((Ok b, s'), w') ↔
  ∃ a w1, f w = (Ok a, w1) ∧ k a w1 = ((Ok b, s'), w').
Proof. unfold stay, io_bind, io_ret. destruct (f w) as [[a|e] w1]; naive_solver. Qed.

Lemma migrate_all_done m c w n c' w' :
  migrate_all_records m c w = (Ok (n, c'), w') → is_u32 (cm_current m) →
  is_u32 (rc_migrated_records c) → map_Forall row_wf (records w) →
  rc_last_migrated_record_id c = None →
  (∀ id row, records w !! id = Some row → (row_dek_version row < rc_new_dek_version c)%Z →
     row_dek_version <$> records w' !! id = Some (cm_current m)) ∧
  n = wrap32 (rc_migrated_records c
        + Z.of_nat (length (sql_records_below (rc_new_dek_version c) (tables w)))) ∧
  rc_old_dek_version c' = rc_old_dek_version c ∧ rc_new_dek_version c' = rc_new_dek_version c.
Proof.
  unfold migrate_all_records, internal. intros Hr Hc Hn Hwf Hlast. inv_runs.
  match goal with E : list_records_for_migration _ _ = _ |- _ =>
    pose proof (keeps_records _ (keeps_list_for_migration _) _ _ _ E) as T;
    apply listing_ok in E as (Hl & Hnd & Hall & Hlen); [|done] end.
  rewrite <- T in Hl, Hwf. rewrite <- Hlen.
  destruct (migrate_records_done _ _ _ _ _ _ _ _ Hr Hc Hn Hwf Hl Hnd) as (Hd & -> & Ho & Hnw);
    [by rewrite Hlast|].
  split_and!; [|done..]. intros id row Hrow Hlt. by eapply (proj1 (Forall_forall _ _) Hd), Hall.
Qed.

Lemma records_below_all target w :
  map_Forall (λ _ row, row_dek_version row < target)%Z (records w) →
  length (sql_records_below target (tables w)) = size (records w).
Proof.
  intros Hall. unfold sql_records_below. rewrite filter_Forall; [by rewrite length_fmap, length_map_to_list|].
  apply Forall_fmap, Forall_forall. intros [id row] Hin%elem_of_map_to_list. by eapply Hall.
Qed.

(** A rotation reports a new key that no record is under.  When a rotation of a vault
    whose records are at its current version or below succeeds, its result says that all
    records moved to the next version, but the key the records are re-encrypted with is
    the manager's current one, which rotation does not advance: every record of the vault
    is then under the version the result calls old. *)
Lemma rotation_stays_on_old_key m s trigger v w res s' w' :
  rotate m s trigger v w = ((Ok res, s'), w') →
  is_u32 (cm_current m) → map_Forall row_wf (records w) →
  map_Forall (λ _ row, row_dek_version row ≤ cm_current m)%Z (records w) →
  rr_new_dek_version res = (cm_current m + 1)%Z ∧
  rr_records_migrated res = wrap32 (Z.of_nat (size (records w))) ∧
  map_Forall (λ _ row, row_dek_version row = rr_old_dek_version res) (records w').
Proof.
  intros Hr Hc Hwf Hle.
  assert (records_kept m (records w) (records w')) as Hkept.
  { by eapply safe_rotate in Hr as [_ ?]. }
  unfold rotate in Hr. apply io_bind_eq in Hr as (t0 & w0 & E0 & Hr).
  destruct (_ <=? _)%Z; [done|].
  apply io_bind_eq in Hr as (t1 & w1 & E1 & Hr). apply io_bind_eq in Hr as (t2 & w2 & E2 & Hr).
  repeat match goal with E : now _ = _ |- _ => apply now_tables in E end.
  apply stay_ok in Hr as (u3 & w3 & E3 & Hr). apply keeps_save_checkpoint in E3.
  apply stay_ok in Hr as ([n c] & w4 & E4 & Hr).
  assert (records w3 = records w) as T3 by (rewrite E3; unfold records; congruence).
  rewrite <- T3 in Hwf, Hle.
  apply migrate_all_done in E4 as (Hall & -> & Ho & Hn); [|done..]. cbn in Hall, Ho, Hn.
  rewrite records_below_all in Hr by (intros id row Hrow; specialize (Hle _ _ Hrow); cbn in *; lia).
  apply io_bind_eq in Hr as (d & w5 & E5 & Hr). apply keeps_elapsed in E5.
  apply io_bind_eq in Hr as (t3 & w6 & E6 & Hr). apply now_tables in E6.
  apply stay_ok in Hr as (u7 & w7 & E7 & Hr). apply keeps_delete_checkpoint in E7.
  apply stay_ok in Hr as (cfg & w8 & E8 & Hr). apply keeps_get_config in E8.
  apply io_bind_eq in Hr as (t4 & w9 & E9 & Hr). apply now_tables in E9.
  apply stay_ok in Hr as (u10 & w10 & E10 & Hr). apply keeps_save_config in E10.
  apply stay_ok in Hr as (u11 & w11 & E11 & Hr). apply keeps_log_rotated in E11.
  injection Hr as <- <- <-. cbn. rewrite Ho, Hn, T3. split_and!; [done|done|].
  assert (records w11 = records w4) as T by (unfold records in *; congruence).
  intros id row Hrow. specialize (Hkept id). rewrite Hrow in Hkept.
  destruct (records w !! id) as [row0|] eqn:Hrow0; [|by inversion Hkept].
  rewrite <- T3 in Hrow0. pose proof (Hle _ _ Hrow0) as Hd. cbn in Hd.
  specialize (Hall id row0 Hrow0 ltac:(lia)). rewrite <- T, Hrow in Hall. by injection Hall.
Qed.

(** ** Interrupted rotations *)

(** The checkpoint is in the metadata table. *)
Definition checkpoint_stored (c : RotationCheckpoint) (w : W) : Prop :=
  ∃ json, to_json c = Ok json ∧ metadata w !! CHECKPOINT_KEY = Some json.

(** The checkpoint of the same rotation, further along. *)
Definition same_rotation (c c' : RotationCheckpoint) : Prop :=
  rc_trigger c' = rc_trigger c ∧ rc_old_dek_version c' = rc_old_dek_version c ∧
  rc_new_dek_version c' = rc_new_dek_version c ∧ rc_started_at c' = rc_started_at c.

Lemma save_checkpoint_outcome c w r w' :
  save_checkpoint c w = (r, w') →
  (r = Ok () ∧ checkpoint_stored c w') ∨
  (metadata w' = metadata w ∧ ∃ t, r = Err (RotationError.CheckpointCorrupted t)
     ∨ r = Err (RotationError.Internal t)).
Proof.
  unfold save_checkpoint. rewrite ior_bind_step. unfold lift, io_ret.
  destruct (to_json c) as [json|e] eqn:Ej; cbn; [|intros [= <- <-]; right; eauto].
  unfold internal, set_metadata, db, io_map_err, io_bind, io_ret.
  destruct (Database.set_metadata _ _ w) as [r1 w1] eqn:E.
  apply set_metadata_outcome in E as [[-> Hm]|[[e ->] Hm]]; cbn; intros [= <- <-].
  - left. split; [done|]. exists json. by rewrite Hm, lookup_insert_eq.
  - right. split; [unfold metadata; by rewrite Hm|]. eauto.
Qed.

Lemma migrate_records_resumable m l : ∀ n c w r w',
  migrate_records m n c l w = (r, w') → checkpoint_stored c w →
  ∃ c', checkpoint_stored c' w' ∧ same_rotation c c'.
Proof.
  induction l as [|s l IH]; intros n c w r w' Hr Hc; cbn [migrate_records] in Hr.
  { injection Hr as <- <-. exists c. by split. }
  destruct (already_done n c s); [eauto|]. rewrite ior_bind_step in Hr.
  destruct (migrate_record m _ _ w) as [r1 w1] eqn:E1.
  assert (metadata w1 = metadata w) as M1.
  { unfold migrate_record in E1. eapply keeps_map_err in E1; [done|].
    apply keeps_metadata_re_encrypt. }
  assert (checkpoint_stored c w1) as Hc1 by (unfold checkpoint_stored; by rewrite M1).
  destruct r1 as [[]|e]; [|injection Hr as <- <-; exists c; by split].
  rewrite ior_bind_step in Hr.
  destruct (save_checkpoint _ w1) as [r2 w2] eqn:E2.
  apply save_checkpoint_outcome in E2 as [[-> Hs]|M2].
  - destruct (IH _ _ _ _ _ Hr Hs) as (c' & ? & ?). by exists c'.
  - exists c. destruct M2 as [M2 [t [-> | ->]]]; injection Hr as <- <-;
      (split; [unfold checkpoint_stored; by rewrite M2|done]).
Qed.

Lemma stay_err {A B} s (f : ior W A RotationError.t)
    (k : A → io W (result B RotationError.t * RotationState.t)) e s' w w' :
  stay s f k w = ((Err e, s'), w') →
  (f w = (Err e, w') ∧ s' = s) ∨ ∃ a w1, f w = (Ok a, w1) ∧ k a w1 = ((Err e, s'), w').
Proof. unfold stay, io_bind, io_ret. destruct (f w) as [[a|e'] w1]; naive_solver. Qed.

(** Only the migration of a record reports that it failed. *)
Definition never_migrates {A} (f : ior W A RotationError.t) : Prop :=
  ∀ w id reason w', f w ≠ (Err (RotationError.RecordMigrationFailed id reason), w').

Lemma never_internal {A} (f : ior W A VaultError.t) : never_migrates (internal f).
Proof. intros w id reason w' (x & w1 & E & Hr)%io_bind_eq. by destruct x. Qed.

Lemma never_get_config : never_migrates get_config.
Proof.
  intros w id reason w'. unfold get_config. rewrite ior_bind_step.
  destruct (internal _ w) as [[o|e] w1] eqn:E; [|intros [= -> ->]; by eapply never_internal].
  unfold lift, io_ret. destruct (nonempty o); [|done]. by destruct (from_json _).
Qed.

Lemma never_save_config c : never_migrates (save_config c).
Proof.
  intros w id reason w'. unfold save_config. rewrite ior_bind_step. unfold lift, io_ret.
  destruct (to_json c); cbn; [apply never_internal|done].
Qed.

(** An interrupted rotation can be resumed.  A rotation that fails while it migrates a
    record ends in the state [Rotating] and leaves a checkpoint of this rotation in the
    database, with its trigger, its versions and its start. *)
Lemma interrupted_rotation_resumable m s trigger v w id reason s' w' :
  rotate m s trigger v w = ((Err (RotationError.RecordMigrationFailed id reason), s'), w') →
  ∃ c c', s' = RotationState.Rotating c ∧ checkpoint_stored c' w' ∧ same_rotation c c' ∧
    rc_trigger c = trigger ∧ rc_old_dek_version c = cm_current m ∧
    rc_new_dek_version c = (cm_current m + 1)%Z.
Proof.
  intros Hr. unfold rotate in Hr. apply io_bind_eq in Hr as (t0 & w0 & E0 & Hr).
  destruct (_ <=? _)%Z; [done|].
  apply io_bind_eq in Hr as (t1 & w1 & E1 & Hr). apply io_bind_eq in Hr as (t2 & w2 & E2 & Hr).
  apply stay_err in Hr as [[E3 _]|([] & w3 & E3 & Hr)]; apply save_checkpoint_outcome in E3.
  { by destruct E3 as [[? _]|[_ [t [? | ?]]]]. }
  destruct E3 as [[_ Hs]|[_ [t [? | ?]]]]; [|done..].
  apply stay_err in Hr as [[E4 ->]|([n c] & w4 & E4 & Hr)].
  - unfold migrate_all_records in E4. rewrite ior_bind_step in E4.
    destruct (internal _ w3) as [[l|e] w5] eqn:E5;
      [|injection E4 as -> ->; by apply never_internal in E5].
    assert (tables w5 = tables w3) as T5.
    { unfold internal in E5. eapply keeps_map_err in E5; [done|]. apply keeps_list_for_migration. }
    eapply migrate_records_resumable in E4 as (c' & Hc' & Hsame);
      [|unfold checkpoint_stored, metadata in *; by rewrite T5].
    eexists _, c'. by split_and!.
  - exfalso. apply io_bind_eq in Hr as (d & w5 & _ & Hr).
    apply io_bind_eq in Hr as (t3 & w6 & _ & Hr).
    apply stay_err in Hr as [[E _]|(? & w7 & _ & Hr)]; [by apply never_internal in E|].
    apply stay_err in Hr as [[E _]|(? & w8 & _ & Hr)]; [by apply never_get_config in E|].
    apply io_bind_eq in Hr as (t4 & w9 & _ & Hr).
    apply stay_err in Hr as [[E _]|(? & w10 & _ & Hr)]; [by apply never_save_config in E|].
    apply stay_err in Hr as [[E _]|(? & w11 & _ & Hr)]; [by apply never_internal in E|done].
Qed.

End rotation_properties.

(** ** The protocol *)

Section protocol_properties.
Context {W : Type} `{Libs} `{UuidErrors} `{CryptoLibs} `{Secure W} `{Sqlite W} `{System W}.
Context `{DateTimeParse} `{Serde RotationTrigger.t} `{Serde RotationCheckpoint}.
Context `{Serde RotationConfig} `{SyncService W}.

(** The last effect of the code is the request to resume the sync. *)
Definition ends_resumed {A} (f : io W A) : Prop := ∀ w, ∃ w0, (f w).2 = (ss_resume w0).2.

Lemma ends_resumed_bind {A B} (f : io W A) (k : A → io W B) :
  (∀ a, ends_resumed (k a)) → ends_resumed (io_bind f k).
Proof. intros Hk w. unfold io_bind. destruct (f w) as [a w1]. apply Hk. Qed.

Lemma ends_resumed_resumed x r : ex_sync x = true → ends_resumed (resumed x r).
Proof.
  intros Hx w. exists w. unfold resumed, resume_sync, io_bind, io_ret. rewrite Hx.
  by destruct (ss_resume w).
Qed.

Lemma ends_resumed_paused x label key f :
  ex_sync x = true → ends_resumed (paused_protocol x label key f).
Proof.
  intros Hx. unfold paused_protocol, publish_rotation. rewrite Hx.
  repeat first
    [ by apply ends_resumed_resumed
    | apply ends_resumed_bind; intros ?
    | match goal with |- ends_resumed (match ?r with _ => _ end) => destruct r end ].
Qed.

(** C15: rotation never leaves the sync paused.  Once the sync service has acknowledged the
    pause, whatever the download of the metadata, the vault, the rotation and the push do,
    the last thing the protocol does is to ask the service to resume. *)
Theorem rotation_resumes_sync x label key f w r w' :
  ex_sync x = true → ex_cancelled x = false →
  execute_rotation_protocol x label key f w = (r, w') →
  (∃ e, ss_pause w = (Err e, w') ∧ ∃ text, r = service_error e "error.sync_pause_failed" text) ∨
  (∃ w0, w' = (ss_resume w0).2).
Proof.
  intros Hx Hcancel. unfold execute_rotation_protocol, pause_sync. rewrite Hcancel, Hx.
  unfold io_bind at 1. destruct (ss_pause w) as [[u|e] w1] eqn:E; [|intros [= <- <-]; eauto].
  intros Hr. right. destruct (ends_resumed_paused x label key f Hx w1) as [w0 Hw].
  exists w0. by rewrite <- Hw, Hr.
Qed.

End protocol_properties.
