(* ===== verification/VaultSync.v ===== *)
(** * Records to and from the cloud (src/services/vault/record/crud.rs,
    src/executor/sync.rs)

    How the vault makes the records that a sync uploads, how it stores those that a sync
    downloaded, and the command that runs a sync between the two. *)

From S2P Require Import Prelude Text Errors Env Types CloudRecord CloudMetadata Storage.
From S2P Require Import Pipeline SyncTask Crypto Keystore Payload.
From S2P Require Import Database Queries Vault Records Rotation.

Record CloudPrivateMetadata : Set := mkCloudPrivateMetadata {
  pm_name : string;
  pm_tags : list string;
  pm_credential_type : option CredentialType.t;
  pm_is_favorite : option bool;
  pm_expires_at : option string;
  pm_updated_by : option string;
  pm_health : option RecordHealthMetadata;
}.

Definition metadata_aad (id : string) : bytes := "cloud-metadata:" +:+ id.

Module VaultSync.
Section s.
Context {W : Type} `{Libs} `{UuidErrors} `{Lowercase} `{ConversionErrors} `{CryptoLibs}.
Context `{Secure W} `{Sqlite W} `{System W}.
Context `{Serde Json} `{Serde PayloadPlaintextDto.t} `{Serde CloudPrivateMetadata}.
Import VaultService Records.

(** ** Upload (crud.rs, list.rs) *)

Definition decrypt_record_name_for_sync (v : VaultServiceImpl) (stored : StoredRecord)
  : ior W string VaultError.t :=
  crypto (decrypt_name_only (vs_crypto v) (st_encrypted_data stored) (st_nonce stored)
            (record_aad (st_id stored)) (st_dek_version stored)).

Definition private_metadata (name : string) (record : StoredRecord)
    (health : option RecordHealthState) : CloudPrivateMetadata :=
  mkCloudPrivateMetadata name (st_tags record) (Some (st_credential_type record))
    (Some (st_is_favorite record)) (rfc3339_print <$> st_expires_at record)
    (Some (st_updated_by record)) (RecordHealthMetadata.from_state <$> health).

Definition cloud_record (record : StoredRecord) (encrypted : EncryptedRecordMetadata)
  : CloudRecord :=
  mkCloudRecord (uuid_to_string (st_id record)) (st_version record)
    (base64_encode (st_encrypted_data record)) (base64_encode (st_nonce record))
    (st_dek_version record) (mkAadFields (uuid_to_string (st_id record)) (st_dek_version record))
    (mkRecordMetadata "encrypted" [] (rfc3339_print (st_updated_at record)) None None None None
       None (Some encrypted))
    (if st_deleted record then Some true else None) (rfc3339_print <$> st_deleted_at record).

Definition build_cloud_record_for_sync (v : VaultServiceImpl) (record : StoredRecord)
    (health : option RecordHealthState) : ior W CloudRecord VaultError.t :=
  let! name := decrypt_record_name_for_sync v record in
  let! private_json :=
    lift (map_err VaultError.CryptoError (to_json (private_metadata name record health))) in
  let! (private_encrypted, private_nonce) :=
    crypto (CryptoManager.encrypt (vs_crypto v) private_json
              (metadata_aad (uuid_to_string (st_id record)))) in
  lift (Ok (cloud_record record
    (mkEncryptedRecordMetadata (base64_encode private_encrypted) (base64_encode private_nonce)
       (cm_current (vs_crypto v))))).

(** ** Download (crud.rs) *)

(** [.try_into()] to 24 bytes. *)
Definition nonce24 (message : string) (b : bytes) : result bytes VaultError.t :=
  if (String.length b =? 24)%nat then Ok b else Err (VaultError.CryptoError message).

Definition decode (what text : string) : result bytes VaultError.t :=
  map_err (λ e, VaultError.CryptoError ("invalid " +:+ what +:+ " base64: " +:+ e))
    (base64_decode text).

Definition decrypt_cloud_private_metadata (v : VaultServiceImpl) (c : CloudRecord)
  : ior W (option CloudPrivateMetadata) VaultError.t :=
  match rm_encrypted_metadata (cr_metadata c) with
  | None => lift (Ok None)
  | Some e =>
      let! encrypted_data := lift (decode "encrypted_metadata" (em_encrypted_data e)) in
      let! nonce := lift (let? b := decode "encrypted_metadata nonce" (em_nonce e) in
                          nonce24 "encrypted_metadata nonce must be 24 bytes" b) in
      let! plaintext := crypto (CryptoManager.decrypt (vs_crypto v) encrypted_data nonce
                          (metadata_aad (cr_id c)) (em_dek_version e)) in
      lift (map_err (λ e, VaultError.CryptoError ("invalid encrypted_metadata json: " +:+ e))
              (res_map Some (from_json plaintext)))
  end.

Definition or_else {A} (o o' : option A) : option A :=
  match o with Some a => Some a | None => o' end.

(** The attributes of the record, from the private metadata or else the plaintext ones. *)
Definition downloaded_record (c : CloudRecord) (pm : option CloudPrivateMetadata) (id : Uuid)
    (encrypted_data nonce : bytes) (existing : option StoredRecord) (n : Instant)
  : StoredRecord :=
  let m := cr_metadata c in
  let deleted := default false (cr_deleted c) in
  mkStoredRecord id
    (default CredentialType.Login (or_else (pm ≫= pm_credential_type) (rm_credential_type m)))
    encrypted_data nonce (cr_dek_version c) (record_aad id)
    (default false (or_else (pm ≫= pm_is_favorite) (rm_is_favorite m)))
    (or_else (pm ≫= pm_expires_at) (rm_expires_at m) ≫= rfc3339_parse)
    (from_option st_created_at n existing)
    (default n (rfc3339_parse (rm_updated_at m)))
    (default "sync" (or_else (pm ≫= pm_updated_by) (rm_updated_by m)))
    (cr_version c) deleted
    (if deleted then cr_deleted_at c ≫= rfc3339_parse else None)
    (from_option pm_tags (rm_tags m) pm).

(** Unless it is a tombstone, the record decrypts to a payload within the limits. *)
Definition check_payload (v : VaultServiceImpl) (stored : StoredRecord)
  : ior W () VaultError.t :=
  if st_deleted stored then lift (Ok ())
  else
    let! payload := decrypt_stored v stored in
    lift (map_err VaultError.DataError (validate_payload payload)).

(** The row and the tags. *)
Definition store_downloaded (stored : StoredRecord) (existing : option StoredRecord)
  : ior W () VaultError.t :=
  let! _ := mark_record_list_index_dirty in
  match existing with
  | None => db (insert_record stored)
  | Some local =>
      let! _ := db (Database.update_record stored (st_version local)) in
      let! _ := db (update_record_deleted_state (st_id stored) (st_deleted stored)
                      (st_deleted_at stored)) in
      let! _ := db (detach_all_tags_for_record (st_id stored)) in
      attach_tags (st_id stored) (st_tags stored)
  end.

Definition store_health (stored : StoredRecord) (pm : option CloudPrivateMetadata)
  : ior W () VaultError.t :=
  match pm with
  | None => lift (Ok ())
  | Some pm =>
      match pm_health pm with
      | Some h =>
          db (upsert_record_health_state
                (RecordHealthMetadata.to_state h (st_id stored) (st_version stored)))
      | None =>
          let! _ := db (Queries.delete_record_health_state (st_id stored)) in
          lift (Ok ())
      end
  end.

(** The list index; a record that does not decrypt goes by the name of its metadata. *)
Definition index_downloaded (v : VaultServiceImpl) (c : CloudRecord) (stored : StoredRecord)
    (pm : option CloudPrivateMetadata) : ior W () VaultError.t :=
  let* r := upsert_record_list_index_for_stored v stored in
  match r with
  | Ok _ => lift (Ok ())
  | Err (VaultError.CryptoError _) =>
      let private_name := pm_name <$> pm in
      let fallback_name :=
        match private_name with
        | Some name => if bool_decide (name = "") then rm_name (cr_metadata c) else name
        | None => rm_name (cr_metadata c)
        end in
      db (upsert_record_list_index (st_id stored) fallback_name "")
  | Err e => lift (Err e)
  end.

Definition apply_downloaded_cloud_record (v : VaultServiceImpl) (c : CloudRecord)
  : ior W bool VaultError.t :=
  let! id := lift (ok_or (VaultError.CryptoError ("invalid record id: " +:+ uuid_error (cr_id c)))
                     (uuid_parse (cr_id c))) in
  let! encrypted_data := lift (decode "encrypted_data" (cr_encrypted_data c)) in
  let! nonce := lift (let? b := decode "nonce" (cr_nonce c) in
                      nonce24 "nonce must be 24 bytes" b) in
  let! existing := db (get_record id) in
  let is_new := negb (bool_decide (is_Some existing)) in
  let* n := now in
  let! pm := decrypt_cloud_private_metadata v c in
  let stored := downloaded_record c pm id encrypted_data nonce existing n in
  let! _ := lift (map_err VaultError.DataError (validate_tags (st_tags stored))) in
  let! _ := check_payload v stored in
  let! _ := store_downloaded stored existing in
  let! _ := store_health stored pm in
  let! _ := index_downloaded v c stored pm in
  let! _ := mark_record_list_index_clean in
  lift (Ok is_new).

(** ** Sync states (health_state.rs) *)

Definition mark_record_synced (id : Uuid) : ior W () VaultError.t := db (mark_sync_state_synced id).

Definition mark_record_conflict (id : Uuid) (conflict_data : bytes) : ior W () VaultError.t :=
  db (mark_sync_state_conflict id conflict_data).

End s.
End VaultSync.
