(* ===== verification/VaultOps.v ===== *)
(** * The operations of a vault (src/services/vault/mod.rs)

    The operations of the trait [Vault] that write to the database, and the invariant that
    they keep together.  A listing is one of them: it rebuilds the list index when that is
    dirty.  The other operations of the trait only read the database, or unlock and lock
    the keys. *)

From S2P Require Import Prelude Errors Env Types CloudRecord Storage Crypto Keystore Payload.
From S2P Require Import Database Queries Vault Logic Records Tags Integrity.
From S2P Require Import Listing VaultSync.

Module VaultOp.

Inductive t : Set :=
| CreateRecord (params : CreateRecordParams)
| UpdateRecord (params : UpdateRecordParams)
| GetDecryptedRecord (id : Uuid)
| DecryptField (id : Uuid) (field : FieldSelector.t)
| DecryptFieldForCopy (id : Uuid) (field : FieldSelector.t)
| SoftDeleteRecord (id : Uuid)
| RestoreRecord (id : Uuid)
| HardDeleteRecord (id : Uuid)
| ToggleFavorite (id : Uuid) (is_favorite : bool)
| ListRecordsPage (filter : RecordFilter.t) (sort : RecordSort) (limit offset : nat)
| RenameTag (old_name new_name : string)
| DeleteTag (name : string)
| BatchAddTag (ids : list Uuid) (name : string)
| BatchRemoveTag (ids : list Uuid) (name : string)
| BatchSoftDelete (ids : list Uuid)
| BatchRestore (ids : list Uuid)
| BatchHardDelete (ids : list Uuid)
| EmptyTrash
| UpsertRecordHealthState (s : RecordHealthState)
| ReplaceRecordHealthStates (l : list RecordHealthState)
| DeleteRecordHealthState (id : Uuid)
| DeleteRecordHealthStates (ids : list Uuid)
| CopyHealthStateToVersion (id : Uuid) (version : Z)
| MarkRecordsPendingSync (ids : list Uuid)
| SetMetadata (key value : string)
| SetLastHealthCheckAt (at_ : Instant)
| DeleteMetadata (key : string)
| WriteAuditEntry (o : AuditOperation.t) (id : option Uuid) (name detail : option string)
| ApplyDownloadedCloudRecord (c : CloudRecord)
| MarkRecordSynced (id : Uuid)
| MarkRecordConflict (id : Uuid) (data : bytes)
| UpdateRecordVersionForSync (id : Uuid) (version : Z)
| ReEncryptRecord (id : Uuid) (old_dek_version : Z)
| LogDekRotated (detail : string).

End VaultOp.

Section ops.
Context {W : Type} `{Libs} `{UuidErrors} `{Lowercase} `{ConversionErrors} `{CryptoLibs}.
Context `{Secure W} `{Sqlite W} `{System W}.
Context `{Serde Json} `{Serde PayloadPlaintextDto.t} `{Serde CloudPrivateMetadata}.
Import VaultService.

(** The result without its value. *)
Definition unit_result {A} (m : ior W A VaultError.t) : ior W () VaultError.t :=
  let! _ := m in
  lift (Ok ()).

(** The operation that a caller of the trait reaches. *)
Definition run_op (v : VaultServiceImpl) (op : VaultOp.t) : ior W () VaultError.t :=
  match op with
  | VaultOp.CreateRecord params => unit_result (Records.create_record v params)
  | VaultOp.UpdateRecord params => Records.update_record v params
  | VaultOp.GetDecryptedRecord id => unit_result (Records.get_decrypted_record v id)
  | VaultOp.DecryptField id field => unit_result (Records.decrypt_field v id field)
  | VaultOp.DecryptFieldForCopy id field =>
      unit_result (Records.decrypt_field_for_copy v id field)
  | VaultOp.SoftDeleteRecord id => Records.soft_delete_record v id
  | VaultOp.RestoreRecord id => Records.restore_record v id
  | VaultOp.HardDeleteRecord id => Records.hard_delete_record v id
  | VaultOp.ToggleFavorite id b => Records.toggle_favorite v id b
  | VaultOp.ListRecordsPage filter sort limit offset =>
      unit_result (Listing.list_records_page v filter sort limit offset)
  | VaultOp.RenameTag old_name new_name => Tags.rename_tag old_name new_name
  | VaultOp.DeleteTag name => Tags.delete_tag name
  | VaultOp.BatchAddTag ids name => unit_result (Tags.batch_add_tag ids name)
  | VaultOp.BatchRemoveTag ids name => unit_result (Tags.batch_remove_tag ids name)
  | VaultOp.BatchSoftDelete ids => unit_result (Trash.batch_soft_delete v ids)
  | VaultOp.BatchRestore ids => unit_result (Trash.batch_restore v ids)
  | VaultOp.BatchHardDelete ids => unit_result (Trash.batch_hard_delete v ids)
  | VaultOp.EmptyTrash => unit_result (Trash.empty_trash v)
  | VaultOp.UpsertRecordHealthState s => db (upsert_record_health_state s)
  | VaultOp.ReplaceRecordHealthStates l => db (replace_record_health_states l)
  | VaultOp.DeleteRecordHealthState id => Records.delete_record_health_state id
  | VaultOp.DeleteRecordHealthStates ids => unit_result (db (delete_record_health_states ids))
  | VaultOp.CopyHealthStateToVersion id version =>
      Records.copy_health_state_to_version id version
  | VaultOp.MarkRecordsPendingSync ids => Records.mark_records_pending_sync ids
  | VaultOp.SetMetadata key value => set_metadata key value
  | VaultOp.SetLastHealthCheckAt at_ => set_last_health_check_at at_
  | VaultOp.DeleteMetadata key => delete_metadata key
  | VaultOp.WriteAuditEntry o id name detail => db (insert_audit_entry o id name detail)
  | VaultOp.ApplyDownloadedCloudRecord c =>
      unit_result (VaultSync.apply_downloaded_cloud_record v c)
  | VaultOp.MarkRecordSynced id => VaultSync.mark_record_synced id
  | VaultOp.MarkRecordConflict id data => VaultSync.mark_record_conflict id data
  | VaultOp.UpdateRecordVersionForSync id version => db (update_record_version id version)
  | VaultOp.ReEncryptRecord id old => re_encrypt_record (vs_crypto v) id old
  | VaultOp.LogDekRotated detail => log_dek_rotated detail
  end.

(** A history of operations, of services that share the database, whatever their results. *)
Fixpoint run_ops (ops : list (VaultServiceImpl * VaultOp.t)) : io W () :=
  match ops with
  | [] => io_ret ()
  | (v, op) :: ops =>
      let* _ := run_op v op in
      run_ops ops
  end.

End ops.

(** ** The invariant *)

Section invariant.
Context {W : Type} `{Libs} `{UuidErrors} `{Lowercase} `{ConversionErrors} `{CryptoLibs}.
Context `{SqliteLaws W} `{!RangeLaws W}.
Context `{Serde Json} `{Serde PayloadPlaintextDto.t} `{Serde CloudPrivateMetadata}.
Import VaultService Records.

#[local] Hint Extern 2 (preserves sound _) =>
  apply preserves_tables; solve [auto with keeps] : preserves.
#[local] Hint Resolve sound_set_metadata sound_delete_metadata sound_audit sound_update_record
  sound_insert_record sound_upsert_index sound_clear_index sound_soft_delete sound_restore
  sound_hard_delete sound_update_favorite sound_update_deleted sound_batch_soft_delete
  sound_batch_restore sound_batch_hard_delete sound_get_or_create_tag sound_attach_tag
  sound_detach_all sound_rename_tag sound_delete_tag sound_upsert_health sound_delete_health
  sound_delete_healths sound_copy_health sound_upsert_sync sound_replace_health
  sound_save_history : preserves.

Lemma sound_pending ids : preserves sound (mark_records_pending_sync ids).
Proof.
  induction ids as [|id ids IH]; cbn [mark_records_pending_sync];
    unfold db, upsert_sync_state_pending; solve_preserves.
Qed.

Lemma sound_attach_tags id tags : preserves sound (attach_tags id tags).
Proof. induction tags as [|name tags IH]; cbn [attach_tags]; unfold db; solve_preserves. Qed.
#[local] Hint Resolve sound_pending sound_attach_tags : preserves.

(** The calls in between are taken apart. *)
Ltac by_calls :=
  unfold unit_result, decrypt_record_name, check_unlocked, check_limits, audit, decrypt_stored,
    mark_record_list_index_dirty, mark_record_list_index_clean,
    upsert_record_list_index_for_payload, upsert_record_list_index_for_stored,
    Records.delete_record_health_state, copy_health_state_to_version,
    set_last_health_check_at, set_metadata, delete_metadata, log_dek_rotated, crypto, db in *; solve_preserves.

Lemma sound_create v params : preserves sound (create_record v params).
Proof. unfold create_record. by_calls. Qed.

Lemma sound_update v params : preserves sound (update_record v params).
Proof. unfold update_record. by_calls. Qed.

Lemma sound_read v id : preserves sound (get_decrypted_record v id).
Proof. unfold get_decrypted_record. by_calls. Qed.

Lemma sound_field v id field o : preserves sound (decrypt_field_with_audit v id field o).
Proof. unfold decrypt_field_with_audit. by_calls. Qed.

Lemma sound_delete v id : preserves sound (Records.soft_delete_record v id).
Proof. unfold Records.soft_delete_record. by_calls. Qed.

Lemma sound_undelete v id : preserves sound (Records.restore_record v id).
Proof. unfold Records.restore_record. by_calls. Qed.

Lemma sound_destroy v id : preserves sound (Records.hard_delete_record v id).
Proof. unfold Records.hard_delete_record. by_calls. Qed.

Lemma sound_favorite v id b : preserves sound (toggle_favorite v id b).
Proof. unfold toggle_favorite. by_calls. Qed.
#[local] Hint Resolve sound_create sound_update sound_read sound_field sound_delete
  sound_undelete sound_destroy sound_favorite : preserves.

(** *** Listings *)

Lemma sound_reindex v records : preserves sound (reindex v records).
Proof. induction records as [|r records IH]; cbn [reindex]; by_calls. Qed.

Lemma keeps_all_records : keeps tables list_all_records.
Proof. unfold list_all_records, select_records, sqlite. solve_keeps. Qed.
#[local] Hint Resolve sound_reindex keeps_all_records : preserves keeps.

Lemma keeps_count {A} (f : Tables → A) : keeps tables (sqlite (sql_query f)).
Proof. unfold sqlite. solve_keeps. Qed.
#[local] Hint Resolve keeps_count : keeps.

Lemma sound_index v : preserves sound (ensure_record_list_index v).
Proof.
  unfold ensure_record_list_index, count_record_list_index, count_all_records, Database.get_metadata.
  by_calls.
Qed.

#[local] Hint Resolve keeps_get_record_tags : keeps.

Lemma keeps_page_records rows : keeps tables (page_records rows).
Proof. induction rows as [|[row i] rows IH]; cbn [page_records]; unfold data; solve_keeps. Qed.

Lemma keeps_sync_map : keeps tables load_sync_status_map.
Proof. unfold load_sync_status_map. solve_keeps. Qed.
#[local] Hint Resolve keeps_page_records keeps_sync_map : keeps.
#[local] Hint Resolve sound_index : preserves.

Lemma sound_list v filter sort limit offset :
  preserves sound (Listing.list_records_page v filter sort limit offset).
Proof.
  unfold Listing.list_records_page, count_record_list_page, list_record_page_rows. by_calls.
Qed.
#[local] Hint Resolve sound_list : preserves.

(** *** Tags *)

Lemma sound_record_ids name : preserves sound (Tags.record_ids_for_tag name).
Proof. apply preserves_tables. unfold Tags.record_ids_for_tag. solve_keeps. Qed.

#[local] Hint Resolve sound_record_ids : preserves.
#[local] Hint Extern 0 (preserves sound (sql_execute (sql_batch_add_tag _ _))) =>
  apply execute_sound, batch_add_sound : preserves.
#[local] Hint Extern 0 (preserves sound (sql_execute (sql_batch_remove_tag _ _))) =>
  apply execute_sound, batch_remove_sound : preserves.

Lemma sound_rename old new : preserves sound (Tags.rename_tag old new).
Proof. unfold Tags.rename_tag, get_tag_by_name, sqlite. by_calls. Qed.

Lemma sound_drop name : preserves sound (Tags.delete_tag name).
Proof. unfold Tags.delete_tag. by_calls. Qed.

Lemma sound_batch_add ids name : preserves sound (Tags.batch_add_tag ids name).
Proof. unfold Tags.batch_add_tag. by_calls. Qed.

Lemma sound_batch_remove ids name : preserves sound (Tags.batch_remove_tag ids name).
Proof. unfold Tags.batch_remove_tag. by_calls. Qed.

(** *** Trash *)

Lemma keeps_name_or_unknown v r : keeps tables (Trash.name_or_unknown v r).
Proof. unfold Trash.name_or_unknown, Trash.trash_name. solve_keeps. Qed.
#[local] Hint Resolve keeps_name_or_unknown : keeps.

Lemma keeps_audit_name v id : keeps tables (Trash.audit_name v id).
Proof. unfold Trash.audit_name. solve_keeps. Qed.

Lemma keeps_deleted_names v ids : keeps tables (Trash.deleted_with_names v ids).
Proof. induction ids as [|id ids IH]; cbn [Trash.deleted_with_names]; solve_keeps. Qed.

Lemma keeps_listing P order : keeps tables (select_records P order).
Proof. unfold select_records, sqlite. solve_keeps. Qed.
#[local] Hint Resolve keeps_audit_name keeps_deleted_names keeps_listing : keeps.

Lemma sound_audit_deletes v ids : preserves sound (Trash.audit_deletes v ids).
Proof. induction ids as [|id ids IH]; cbn [Trash.audit_deletes]; by_calls. Qed.

Lemma sound_audit_all o l : preserves sound (Trash.audit_all o l).
Proof. induction l as [|[id name] l IH]; cbn [Trash.audit_all]; by_calls. Qed.

Lemma sound_destroy_all l : preserves sound (Trash.destroy l).
Proof. induction l as [|r l IH]; cbn [Trash.destroy]; by_calls. Qed.
#[local] Hint Resolve sound_audit_deletes sound_audit_all sound_destroy_all : preserves.

Lemma sound_batch_trash v ids : preserves sound (Trash.batch_soft_delete v ids).
Proof. unfold Trash.batch_soft_delete. by_calls. Qed.

Lemma sound_batch_untrash v ids : preserves sound (Trash.batch_restore v ids).
Proof. unfold Trash.batch_restore. by_calls. Qed.

Lemma sound_batch_destroy v ids : preserves sound (Trash.batch_hard_delete v ids).
Proof. unfold Trash.batch_hard_delete. by_calls. Qed.

Lemma sound_empty_trash v : preserves sound (Trash.empty_trash v).
Proof. unfold Trash.empty_trash, list_deleted_records. by_calls. Qed.

(** *** Sync and rotation *)

Lemma keeps_private_metadata v c : keeps tables (VaultSync.decrypt_cloud_private_metadata v c).
Proof. unfold VaultSync.decrypt_cloud_private_metadata, crypto. solve_keeps. Qed.
#[local] Hint Resolve keeps_private_metadata : keeps.

Lemma sound_apply v c : preserves sound (VaultSync.apply_downloaded_cloud_record v c).
Proof.
  unfold VaultSync.apply_downloaded_cloud_record, VaultSync.check_payload,
    VaultSync.store_downloaded, VaultSync.store_health, VaultSync.index_downloaded.
  by_calls.
Qed.

Lemma sound_update_version id v : preserves sound (update_record_version id v).
Proof. by apply sound_alter. Qed.

Lemma sound_re_encrypt m id old : preserves sound (re_encrypt_record m id old).
Proof. unfold re_encrypt_record. by_calls. Qed.

#[local] Hint Resolve sound_rename sound_drop sound_batch_add sound_batch_remove
  sound_batch_trash sound_batch_untrash sound_batch_destroy sound_empty_trash sound_apply
  sound_update_version sound_re_encrypt : preserves.

Lemma run_op_sound v op : preserves sound (run_op v op).
Proof.
  destruct op; cbn [run_op]; unfold decrypt_field, decrypt_field_for_copy,
    VaultSync.mark_record_synced, VaultSync.mark_record_conflict, mark_sync_state_synced,
    mark_sync_state_conflict; by_calls.
Qed.

(** C1: whatever operations run on a vault, in whatever order and with whatever results,
    each possibly failing half way: its database stays sound.  Every row is under its own
    identifier; tag names are unique; every tag link, health state, sync state, list entry
    and old password belongs to a record that exists; and no record keeps more than ten
    old passwords. *)
Theorem vault_invariant ops w w' :
  vault_wf (tables w) → run_ops ops w = ((), w') → vault_wf (tables w').
Proof.
  revert w. induction ops as [|[v op] ops IH]; intros w Hw; cbn [run_ops].
  - by intros [= <-].
  - intros (r & w1 & E & Hr)%io_bind_eq. eapply IH; [|done]. by apply (run_op_sound v op _ _ _ E).
Qed.

End invariant.
