(* ===== verification/Lifecycle.v ===== *)
(** * The life of a record

    What creating, reading, updating, trashing, restoring and destroying a record do, on
    every outcome. *)

From S2P Require Import Prelude Text Errors Env Types Storage Crypto Keystore Payload.
From S2P Require Import Database Queries Vault Logic Records Tags Integrity.
From S2P Require Import VaultSync VaultOps.

(** ** Tags of a new record *)

Lemma elem_of_record_tags id t name :
  name ∈ sql_record_tags id t ↔
  ∃ tag, (id, tag) ∈ t_record_tags t ∧ t_tags t !! tag = Some name.
Proof.
  unfold sql_record_tags. rewrite list_elem_of_omap. split.
  - intros ([r tag] & Hin%elem_of_elements & Hx). case_bool_decide; [|done]. subst. eauto.
  - intros (tag & Hin & Ht). exists (id, tag). rewrite elem_of_elements. split; [done|].
    by rewrite bool_decide_eq_true_2.
Qed.

(** What one tag adds, to the record and to the vault. *)
Lemma tag_record_adds id t name t' :
  db_wf t → sql_tag_record id (Ok t) name = Ok t' →
  t_records t' = t_records t ∧
  ∀ n, n ∈ sql_record_tags id t' ↔ n = name ∨ n ∈ sql_record_tags id t.
Proof.
  intros Hwf Ht. pose proof (wf_ensure_tag name t Hwf) as Hwf1. unfold sql_tag_record in Ht.
  cbn [res_bind] in Ht. set (t1 := sql_ensure_tag name t) in *. inv_ok Ht. case_match. simplify_eq.
  assert (t_records t1 = t_records t ∧ t_record_tags t1 = t_record_tags t ∧
    (∀ tag n, t_tags t !! tag = Some n → t_tags t1 !! tag = Some n)) as (Er & El & Em).
  { subst t1. unfold sql_ensure_tag. destruct (sql_insert_tag name t) as [[tag t2]|] eqn:E; [|done].
    apply wf_insert_tag in E as (_ & -> & Hnew); [|done]. split_and!; try done.
    intros tag' n Htag. tables_simpl. rewrite lookup_insert_ne; [done|]. by intros ->; rewrite Hnew in Htag. }
  match goal with E : ok_or _ ?o = Ok ?tag |- _ => assert (o = Some tag) as Hn
    by (by destruct o; simplify_eq/=) end.
  apply sql_tag_named_some in Hn. match goal with E : sql_link _ _ _ = _ |- _ =>
    unfold sql_link in E; case_bool_decide; simplify_eq end.
  tables_simpl. split; [done|]. intros n. rewrite !elem_of_record_tags. tables_simpl.
  setoid_rewrite elem_of_union. setoid_rewrite elem_of_singleton. rewrite El. split.
  - intros (tag & [[= ->]|Hin] & Htag); [left; congruence|]. right. exists tag. split; [done|].
    destruct (wf_record_tags _ Hwf _ _ Hin) as [_ [m Hm]]. pose proof (Em _ _ Hm). congruence.
  - intros [->|(tag & Hin & Htag)]; eauto.
Qed.

Lemma tag_records_add id l : ∀ t t',
  db_wf t → foldl (sql_tag_record id) (Ok t) l = Ok t' →
  t_records t' = t_records t ∧
  ∀ n, n ∈ sql_record_tags id t' ↔ n ∈ l ∨ n ∈ sql_record_tags id t.
Proof.
  induction l as [|name l IH]; intros t t' Hwf; cbn [foldl].
  { intros [= <-]. split; [done|]. set_solver. }
  destruct (sql_tag_record id (Ok t) name) as [t1|e] eqn:E; [|by rewrite foldl_tag_record_err].
  pose proof (tag_record_adds _ _ _ _ Hwf E) as [Er Et].
  intros Hf. destruct (IH _ _ (wf_tag_record _ _ _ _ Hwf E) Hf) as [-> Ht].
  split; [done|]. intros n. rewrite Ht, Et. set_solver.
Qed.

(** A new record with exactly its tags. *)
Lemma insert_record_adds `{Libs} r t u t' :
  db_wf t → sql_insert_record r t = Ok (u, t') →
  let id := uuid_to_string (st_id r) in
  t_records t !! id = None ∧ t_records t' = <[id := new_row r]> (t_records t) ∧
  ∀ n, n ∈ sql_record_tags id t' ↔ n ∈ st_tags r.
Proof.
  intros Hwf Hi id. unfold sql_insert_record in Hi. inv_ok Hi. simplify_eq.
  destruct (sql_insert_row r t) as [t1|e] eqn:E; [|by rewrite foldl_tag_record_err in *].
  pose proof (wf_insert_row _ _ _ Hwf E) as Hwf1. unfold sql_insert_row in E. fold id in E.
  destruct (t_records t !! id) eqn:En; [done|]. simplify_eq.
  match goal with E : foldl _ _ _ = _ |- _ => apply tag_records_add in E as [Er Et]; [|done] end.
  fold id in Et. split; [done|]. split; [done|]. intros n. rewrite Et. split; [|by left]. intros [?|Hn]; [done|].
  apply elem_of_record_tags in Hn as (tag & Hin & _). cbn in Hin.
  apply (wf_record_tags _ Hwf) in Hin as [[row Hrow] _]. by rewrite En in Hrow.
Qed.

(** Reading back the row of a new record. *)
Lemma new_row_reads `{LibLaws} r tags :
  (st_id r < 2 ^ 128)%N → String.length (st_nonce r) = 24 → is_u32 (st_dek_version r) →
  (∀ e, st_expires_at r = Some e → chrono_range e) → chrono_range (st_created_at r) →
  chrono_range (st_updated_at r) → (∀ e, st_deleted_at r = Some e → chrono_range e) →
  (0 ≤ st_version r < 2 ^ 63)%Z →
  let floor e := seconds (datetime_to_timestamp e) in
  RecordRow.to_stored_record (new_row r) tags =
    Ok (mkStoredRecord (st_id r) (st_credential_type r) (st_encrypted_data r) (st_nonce r)
          (st_dek_version r) (st_aad r) (st_is_favorite r) (floor <$> st_expires_at r)
          (floor (st_created_at r)) (floor (st_updated_at r)) (st_updated_by r) (st_version r)
          (st_deleted r) (floor <$> st_deleted_at r) tags).
Proof.
  intros Hid Hn Hk Hexp Hc Hu Hdel Hv floor.
  assert (∀ e, chrono_range e →
    timestamp_to_datetime (datetime_to_timestamp e) = Ok (floor e)) as Hts.
  { intros e [Hlo Hhi]. unfold timestamp_to_datetime.
    by rewrite (proj2 (Z.leb_le _ _) Hlo), (proj2 (Z.leb_le _ _) Hhi). }
  assert (∀ o, (∀ e, o = Some e → chrono_range e) →
    transpose timestamp_to_datetime (datetime_to_timestamp <$> o) = Ok (floor <$> o)) as Hto.
  { intros [e|] He; cbn; [|done]. by rewrite Hts by eauto. }
  unfold RecordRow.to_stored_record, new_row, RecordRow.nonce_of; cbn.
  rewrite uuid_roundtrip, from_to_db_str, Hn by done. cbn. rewrite Hto, !Hts, Hto by done. cbn.
  rewrite wrap32_small by done. f_equal. f_equal.
  - by case_bool_decide as E; [rewrite E|].
  - by destruct (st_is_favorite r).
  - unfold as_i64. rewrite (proj2 (Z.ltb_lt _ _)) by lia. apply wrap64_small. unfold is_u64. lia.
  - by destruct (st_deleted r).
Qed.

Lemma record_tags_of id t t' :
  tagged_records t' = tagged_records t → sql_record_tags id t' = sql_record_tags id t.
Proof.
  unfold tagged_records, sql_record_tags. intros Ht. injection Ht as _ Et Er. by rewrite Et, Er.
Qed.

Section lifecycle.
Context {W : Type} `{LibLaws} `{UuidErrors} `{Lowercase} `{ConversionErrors}.
Context `{CryptoLibLaws} `{SqliteLaws W} `{!SecureLaws W} `{!RangeLaws W}.
Context `{!Serde PayloadPlaintextDto.t} `{!SerdeLaws PayloadPlaintextDto.t}.
Context `{!JsonText PayloadPlaintextDto.t} `{!Serde Json} `{!PayloadJson}.
Import VaultService Records.

Lemma check_unlocked_ok v (w : W) u w' :
  check_unlocked v w = (Ok u, w') → CryptoManager.is_unlocked (vs_crypto v) = true ∧ w' = w.
Proof. unfold check_unlocked, lift, io_ret. destruct (CryptoManager.is_unlocked _); naive_solver. Qed.

(** Marking the index touches one key of the metadata. *)
Lemma set_metadata_wf key value w r w' :
  db (Database.set_metadata key value) w = (r, w') →
  db_wf (tables w) → db_wf (tables w') ∧ tagged w' = tagged w.
Proof.
  intros Hr Hwf. split; [|by eapply (keeps_map_err _ _ _ (keeps_set_metadata' key value))].
  unfold db, io_map_err in Hr. apply io_bind_eq in Hr as (x & w1 & Hr & [= _ <-]).
  unfold Database.set_metadata, sqlite, io_map_err in Hr.
  apply io_bind_eq in Hr as (y & w2 & Hr & [= _ <-]). destruct y as [u|e].
  - apply execute_ok in Hr. injection Hr as <- <-. by apply wf_metadata.
  - by rewrite (execute_err _ _ _ _ Hr).
Qed.

(** The record that [create_record] inserts. *)
Definition created (v : VaultServiceImpl) (params : CreateRecordParams) (id : Uuid)
    (c n : bytes) (t : Instant) : StoredRecord :=
  mkStoredRecord id (cp_credential_type params) c n (cm_current (vs_crypto v)) (record_aad id)
    (cp_is_favorite params) (cp_expires_at params) t t (vs_device_id v) 1 false None
    (cp_tags params).

Lemma create_ok v params w id w' :
  db_wf (tables w) → create_record v params w = (Ok id, w') →
  CryptoManager.is_unlocked (vs_crypto v) = true ∧ (id < 2 ^ 128)%N ∧
  ∃ c n t, holds_payload (vs_crypto v) c n (record_aad id) (cm_current (vs_crypto v))
      (cp_payload params) ∧ String.length n = 24 ∧ chrono_range t ∧
    t_records (tables w) !! uuid_to_string id = None ∧
    t_records (tables w') =
      <[uuid_to_string id := new_row (created v params id c n t)]> (t_records (tables w)) ∧
    ∀ name, name ∈ sql_record_tags (uuid_to_string id) (tables w') ↔ name ∈ cp_tags params.
Proof.
  intros Hwf Hc. unfold create_record, crypto in Hc.
  apply ior_bind_ok in Hc as (u1 & w1 & E1 & Hc). apply check_unlocked_ok in E1 as [Hun ->].
  apply ior_bind_ok in Hc as (u2 & w2 & E2 & Hc). apply lift_ok in E2 as [_ ->].
  apply io_bind_eq in Hc as (i & w3 & E3 & Hc). pose proof (new_v4_tables _ _ _ E3) as T3.
  apply ior_bind_ok in Hc as ([c n] & w4 & E4 & Hc). apply io_map_err_ok in E4.
  pose proof (keeps_payload _ _ _ _ _ _ E4) as T4. apply encrypt_payload_ok in E4 as [Hp Hn].
  apply io_bind_eq in Hc as (t & w5 & E5 & Hc). pose proof (now_tables _ _ _ E5) as T5.
  assert (tables w5 = tables w) as T by congruence. clear T3 T4 T5.
  apply ior_bind_ok in Hc as (u6 & w6 & E6 & Hc).
  apply set_metadata_wf in E6 as [Hwf6 G6]; [|by rewrite T].
  apply ior_bind_ok in Hc as (u7 & w7 & E7 & Hc). apply io_map_err_ok, io_map_err_ok in E7.
  apply execute_ok, insert_record_adds in E7 as (Hnone & Hins & Htags); [|done].
  assert (tagged w' = tagged w7 ∧ id = i) as [G7 ->].
  { apply ior_bind_ok in Hc as (u8 & w8 & E8 & Hc).
    unfold upsert_record_list_index_for_payload in E8.
    destruct (record_index_fields_from_payload _).
    apply (keeps_map_err tagged _ _ (keeps_upsert_index _ _ _)) in E8 as <-.
    apply ior_bind_ok in Hc as (u9 & w9 & E9 & Hc).
    apply (keeps_map_err tagged _ _ (keeps_set_metadata' _ _)) in E9 as <-.
    apply ior_bind_ok in Hc as (u10 & w10 & E10 & Hc).
    apply (keeps_map_err tagged _ _ (keeps_audit_entry _ _ _ _)) in E10 as <-.
    by apply lift_ok in Hc as [[= ->] ->]. }
  unfold tagged in *. pose proof (f_equal (λ x, x.1.1) G6) as R6. rewrite T in R6. cbn in R6.
  pose proof (f_equal (λ x, x.1.1) G7) as R7. cbn in R7. cbn in Hnone, Hins.
  rewrite R6 in Hnone, Hins. split; [done|]. split; [by eapply new_v4_range|].
  exists c, n, t. rewrite R7, (record_tags_of _ _ _ G7). split_and!; try done.
  by eapply now_range.
Qed.

(** What [get_decrypted_record] returns for a stored record. *)
Definition decrypted (s : StoredRecord) (p : EncryptedPayload.t) : DecryptedRecord :=
  mkDecryptedRecord (st_id s) (st_is_favorite s) (st_expires_at s) (st_created_at s)
    (st_updated_at s) (st_version s) (st_deleted s) (st_deleted_at s) (st_tags s) p.

Lemma triple_decrypt_stored P v s p :
  holds_payload (vs_crypto v) (st_encrypted_data s) (st_nonce s) (st_aad s) (st_dek_version s) p →
  triple (on P) (decrypt_stored v s) (λ q w, q = p ∧ on P w) (vault_env (W := W)).
Proof.
  intros Hp. apply triple_yields; [apply keeps_decrypt_payload|].
  intros w r w' Hr. by eapply decrypt_payload_run.
Qed.

Lemma fails_audit o id name : fails (audit o id name) (vault_env (W := W)).
Proof.
  apply triple_db. unfold insert_audit_entry.
  eapply (triple_io_bind _ _ _ (λ _, on (λ _, True))); [done|]. intros t.
  eapply triple_conseq; [apply triple_execute|done|done|done].
Qed.

Lemma triple_read t v id row st p :
  CryptoManager.is_unlocked (vs_crypto v) = true →
  t_records t !! uuid_to_string id = Some row →
  (∀ tags, RecordRow.to_stored_record row tags = Ok (st tags) ∧
     holds_payload (vs_crypto v) (st_encrypted_data (st tags)) (st_nonce (st tags))
       (st_aad (st tags)) (st_dek_version (st tags)) p ∧
     EncryptedPayload.credential_type p = st_credential_type (st tags)) →
  triple (on (eq t)) (get_decrypted_record v id)
    (λ d w, ∃ tags, tags ≡ₚ sql_record_tags (uuid_to_string id) t ∧ d = decrypted (st tags) p)
    (vault_env (W := W)).
Proof.
  intros Hun Ht Hst. unfold get_decrypted_record, check_unlocked. rewrite Hun.
  eapply triple_bind; [by apply (triple_ok _ _ (λ _, on (eq t)))|]. intros [].
  eapply triple_bind; [apply (triple_get_stored t id row st); naive_solver|]. intros s.
  apply triple_pure. intros (tags & Hp & ->). destruct (Hst tags) as (_ & Hh & Hk).
  eapply triple_bind; [by apply triple_decrypt_stored|]. intros q.
  apply triple_pure. intros ->. rewrite bool_decide_eq_true_2 by done.
  eapply triple_bind; [eapply triple_conseq; [apply fails_audit|done|by intros ? ? _; exact I|done]|].
  intros []. apply triple_ok. eauto.
Qed.

(** C2: a new record can be read back.  After a creation that succeeded, reading the
    identifier it returned gives the payload, the flags and the tags it was created with,
    in version one and not deleted; the expiry is cut to whole seconds.  The only failures
    left are those of the database and of locking memory. *)
Theorem create_then_read v params w id w1 w2 r w3 :
  db_wf (tables w) → is_u32 (cm_current (vs_crypto v)) →
  EncryptedPayload.credential_type (cp_payload params) = cp_credential_type params →
  (∀ e, cp_expires_at params = Some e → chrono_range e) →
  create_record v params w = (Ok id, w1) → tables w2 = tables w1 →
  get_decrypted_record v id w2 = (r, w3) →
  match r with
  | Err e => vault_env (W := W) e
  | Ok d =>
      dr_id d = id ∧ dr_payload d = cp_payload params ∧
      dr_is_favorite d = cp_is_favorite params ∧
      dr_expires_at d = (λ e, seconds (datetime_to_timestamp e)) <$> cp_expires_at params ∧
      dr_version d = 1%Z ∧ dr_deleted d = false ∧ dr_deleted_at d = None ∧
      ∀ name, name ∈ dr_tags d ↔ name ∈ cp_tags params
  end.
Proof.
  intros Hwf Hcur Hk Hexp Hc Heq Hr.
  destruct (create_ok _ _ _ _ _ Hwf Hc) as (Hun & Hid & c & n & t & Hp & Hn & Ht & _ & Hrec & Htags).
  set (st tags := mkStoredRecord id (cp_credential_type params) c n (cm_current (vs_crypto v))
    (record_aad id) (cp_is_favorite params)
    ((λ e, seconds (datetime_to_timestamp e)) <$> cp_expires_at params)
    (seconds (datetime_to_timestamp t)) (seconds (datetime_to_timestamp t)) (vs_device_id v)
    1 false None tags).
  assert (triple (on (eq (tables w2))) (get_decrypted_record v id)
    (λ d w, ∃ tags, tags ≡ₚ sql_record_tags (uuid_to_string id) (tables w2) ∧
       d = decrypted (st tags) (cp_payload params)) (vault_env (W := W))) as Hread.
  { apply (triple_read _ v id (new_row (created v params id c n t))); [done| |].
    - by rewrite Heq, Hrec, lookup_insert_eq.
    - intros tags. by rewrite new_row_reads. }
  specialize (Hread w2 r w3 eq_refl Hr). destruct r as [d|e]; [|done].
  destruct Hread as (tags & Hperm & ->). cbn. split_and!; try done.
  intros name. by rewrite Hperm, Heq.
Qed.

(** ** Updates *)

(** A step before the statement that counts: it fails and nothing has happened, or the
    rest runs on the same records. *)
Lemma pre_step {A B} (m : ior W A VaultError.t) (k : A → ior W B VaultError.t) w r w' :
  ior_bind m k w = (r, w') → keeps records m →
  (records w' = records w ∧ is_ok r = false) ∨
  ∃ a w1, m w = (Ok a, w1) ∧ records w1 = records w ∧ k a w1 = (r, w').
Proof.
  rewrite ior_bind_step. intros Hr Hk. destruct (m w) as [[a|e] w1] eqn:E;
    pose proof (Hk _ _ _ E); simplify_eq; eauto 10.
Qed.

Lemma check_unlocked_keeps v : keeps (A := result () VaultError.t) (W := W) records (check_unlocked v).
Proof. unfold check_unlocked. solve_keeps. Qed.

#[local] Hint Extern 2 (keeps records _) => apply keeps_records; solve [auto with keeps] : keeps.
#[local] Hint Extern 3 (keeps records _) =>
  apply tagged_keeps_records; solve [auto with keeps] : keeps.
#[local] Hint Resolve check_unlocked_keeps : keeps.

Lemma tag_statement_keeps {A} (f : Tables → result (A * Tables) SqlError) :
  (∀ t a t', f t = Ok (a, t') → t_records t' = t_records t) → keeps records (sql_execute f).
Proof. apply (keeps_execute t_records). Qed.

Lemma detach_all_keeps id : keeps (W := W) records (detach_all_tags_for_record id).
Proof.
  unfold detach_all_tags_for_record, sqlite. apply keeps_map_err, tag_statement_keeps.
  by intros ??? [= <- <-].
Qed.

Lemma get_or_create_tag_keeps name : keeps (W := W) records (get_or_create_tag name).
Proof.
  unfold get_or_create_tag, get_tag_by_name, insert_tag, sqlite.
  repeat first [apply tag_statement_keeps | progress solve_keeps].
  unfold sql_insert_tag in *. by repeat case_match; simplify_eq.
Qed.

Lemma attach_tag_keeps id tag : keeps (W := W) records (attach_tag id tag).
Proof.
  unfold attach_tag, sqlite. apply keeps_map_err, tag_statement_keeps.
  intros t a t'. unfold sql_link. by case_bool_decide; intros; simplify_eq.
Qed.
#[local] Hint Resolve detach_all_keeps get_or_create_tag_keeps attach_tag_keeps : keeps.

Lemma attach_tags_keeps id tags : keeps (W := W) records (attach_tags id tags).
Proof. induction tags; cbn [attach_tags]; unfold db; solve_keeps. Qed.

Lemma upsert_pending_keeps id : keeps (W := W) tagged (upsert_sync_state_pending id).
Proof. apply keeps_upsert_sync. Qed.

Lemma pending_keeps ids : keeps (W := W) tagged (mark_records_pending_sync ids).
Proof.
  induction ids; cbn [mark_records_pending_sync]; unfold db, upsert_sync_state_pending; solve_keeps.
Qed.

Lemma save_history_keeps id d n v : keeps (W := W) tagged (save_password_history id d n v).
Proof.
  unfold save_password_history, count_password_history, sqlite, db.
  repeat first [ apply keeps_tagged; first [exact (query_tables _)|exact keeps_timestamp_now]
               | progress solve_keeps ].
Qed.
#[local] Hint Resolve upsert_pending_keeps attach_tags_keeps pending_keeps save_history_keeps : keeps.

(** The calls around the statement that counts. *)
Ltac around :=
  unfold decrypt_record_name, check_limits, decrypt_stored, mark_record_list_index_dirty,
    mark_record_list_index_clean, upsert_record_list_index_for_payload, audit,
    Records.delete_record_health_state, copy_health_state_to_version, crypto, db; solve_keeps.

(** The row that an update leaves. *)
Definition updates (m : CryptoManager) (params : UpdateRecordParams) (row row' : RecordRow)
  : Prop :=
  row_id row' = row_id row ∧ row_credential_type row' = row_credential_type row ∧
  row_created_at row' = row_created_at row ∧ row_deleted row' = row_deleted row ∧
  row_deleted_at row' = row_deleted_at row ∧
  row_version row' = as_i64 (wrap64 (up_expected_version params + 1)) ∧
  row_is_favorite row' = Z.b2z (up_is_favorite params) ∧
  row_expires_at row' = datetime_to_timestamp <$> up_expires_at params ∧
  row_dek_version row' = cm_current m ∧
  holds_payload m (row_encrypted_data row') (row_nonce row') (default "" (row_aad row'))
    (cm_current m) (up_payload params).

(** C8: an update is all or nothing for the record's row, whatever fails on the way: either
    no row changes and the update reports an error, or exactly the row of the record changed,
    and then it was at the expected version, is at the next one, and holds the new payload
    under the current key.  In particular an update with a stale version changes nothing. *)
Theorem update_all_or_nothing v params w r w' :
  map_Forall row_wf (records w) → update_record v params w = (r, w') →
  (records w' = records w ∧ is_ok r = false) ∨
  ∃ row row', records w !! uuid_to_string (up_id params) = Some row ∧
    wrap64 (row_version row) = up_expected_version params ∧
    records w' = <[uuid_to_string (up_id params) := row']> (records w) ∧
    updates (vs_crypto v) params row row'.
Proof.
  intros Hwf Hr. unfold update_record in Hr.
  apply pre_step in Hr as [?|(u1 & w1 & E1 & R1 & Hr)]; [by left| |by around].
  apply pre_step in Hr as [[Hs ?]|(s & w2 & E2 & R2 & Hr)]; [left; by rewrite Hs| |by around].
  apply get_stored_ok in E2 as (row & tags & Hl & Hst). fold (records w1) in Hl.
  rewrite R1 in Hl, R2. pose proof (Hwf _ _ Hl) as (_ & _ & Hver & _).
  apply to_stored_ok in Hst as (_ & _ & _ & _ & _ & _ & _ & _ & Hv).
  destruct (Z.eqb_spec (st_version s) (up_expected_version params)) as [Hexp|Hne]; cbn [negb] in Hr;
    [|injection Hr as <- <-; by left].
  apply pre_step in Hr as [[Hs ?]|(u3 & w3 & E3 & R3 & Hr)]; [left; by rewrite Hs, R2| |by around].
  apply pre_step in Hr as [[Hs ?]|(old & w4 & E4 & R4 & Hr)];
    [left; by rewrite Hs, R3, R2| |by around].
  apply pre_step in Hr as [[Hs ?]|(u5 & w5 & E5 & R5 & Hr)];
    [left; by rewrite Hs, R4, R3, R2| |by around].
  apply pre_step in Hr as [[Hs ?]|([c n] & w6 & E6 & R6 & Hr)];
    [left; by rewrite Hs, R5, R4, R3, R2| |by around].
  apply io_map_err_ok, encrypt_payload_ok in E6 as [Hp _].
  apply io_bind_eq in Hr as (t & w7 & E7 & Hr).
  assert (records w7 = records w) as R7
    by (rewrite (keeps_records _ now_tables _ _ _ E7); congruence).
  apply pre_step in Hr as [[Hs ?]|(u8 & w8 & E8 & R8 & Hr)]; [left; by rewrite Hs, R7| |by around].
  rewrite R7 in R8. rewrite ior_bind_step in Hr. unfold db at 1, io_map_err at 1 in Hr.
  unfold io_bind at 1, io_ret at 1 in Hr.
  destruct (Database.update_record _ _ w8) as [b w9] eqn:E9.
  apply update_record_outcome in E9 as [[Hsame Hb]|[-> Hu]].
  { left. assert (records w9 = records w) as R9 by (unfold records in *; congruence).
    destruct b as [[]|e]; [by destruct Hb| |]; cbn in Hr; unfold lift, io_ret in Hr; by simplify_eq. }
  right. cbn in Hr. unfold sql_update_record in Hu. cbn in Hu. fold (records w8) in Hu.
  rewrite R8, Hl in Hu. case_bool_decide; [|done]. injection Hu as Hu.
  match type of Hu with _ <| t_records ::= <[_ := ?row']> |> = _ => exists row, row' end.
  assert (records w' = records w9) as ->.
  { revert Hr. match goal with |- ?m w9 = _ → _ => assert (keeps records m) as Hk by around end.
    by intros Hr; apply Hk in Hr. }
  split; [done|]. split; [congruence|]. split.
  - unfold records at 1. rewrite <- Hu. cbn. fold (records w8). by rewrite R8.
  - unfold updates. cbn. rewrite Hexp. split_and!; done.
Qed.

(** ** Trash *)

Lemma alter_outcome id f w r (w' : W) :
  execute_ (sql_alter_record id f) w = (r, w') →
  (records w' = records w ∧ is_ok r = false) ∨
  (r = Ok () ∧ records w' = alter f id (records w)).
Proof.
  unfold execute_, execute, sqlite. rewrite ior_bind_step. unfold io_map_err, io_bind, io_ret.
  destruct (sql_execute _ w) as [[n|e] w1] eqn:E; intros [= <- <-].
  - right. split; [done|]. apply execute_ok in E. injection E as E. unfold sql_alter_record in E.
    unfold records. destruct (t_records (tables w) !! id) as [row|] eqn:El; injection E as _ E.
    + rewrite <- E. cbn. apply map_eq. intros j. destruct (decide (j = id)) as [->|];
        [by rewrite lookup_insert_eq, lookup_alter_eq, El|].
      by rewrite lookup_insert_ne, lookup_alter_ne.
    + rewrite <- E. symmetry. by apply alter_id; rewrite El.
  - left. unfold records. by rewrite (execute_err _ _ _ _ E).
Qed.

(** The statement that counts, followed by steps that keep the records. *)
Lemma statement_then {A B} (m : ior W A DbError.t) (k : A → ior W B VaultError.t)
    (Q : gmap string RecordRow → Prop) w r w' :
  ior_bind (db m) k w = (r, w') →
  (∀ x w1, m w = (x, w1) → (records w1 = records w ∧ is_ok x = false) ∨ Q (records w1)) →
  (∀ a, keeps records (k a)) →
  (records w' = records w ∧ is_ok r = false) ∨ Q (records w').
Proof.
  rewrite ior_bind_step. unfold db, io_map_err, io_bind, io_ret. intros Hr Hm Hk.
  destruct (m w) as [x w1] eqn:E. specialize (Hm _ _ eq_refl).
  destruct x as [a|e]; cbn in Hr; [|by simplify_eq].
  destruct Hm as [[_ ?]|HQ]; [done|]. right. by rewrite (Hk _ _ _ _ Hr).
Qed.

Lemma soft_delete_outcome v id w r w' :
  Records.soft_delete_record v id w = (r, w') →
  (records w' = records w ∧ is_ok r = false) ∨
  ∃ t, records w' = alter (trashed t) (uuid_to_string id) (records w).
Proof.
  unfold Records.soft_delete_record. intros Hr.
  apply pre_step in Hr as [?|(u1 & w1 & E1 & R1 & Hr)]; [by left| |by around].
  apply pre_step in Hr as [[Hs ?]|(s & w2 & E2 & R2 & Hr)]; [left; by rewrite Hs| |by around].
  apply pre_step in Hr as [[Hs ?]|(n & w3 & E3 & R3 & Hr)];
    [left; by rewrite Hs, R2| |by around].
  rewrite <- R1, <- R2, <- R3.
  apply (statement_then _ _ (λ rs, ∃ t, rs = alter (trashed t) (uuid_to_string id) (records w3)))
    in Hr; [done| |by around].
  unfold soft_delete_record. intros x w4 (t & w5 & E5 & E)%io_bind_eq.
  rewrite <- (keeps_records _ keeps_timestamp_now _ _ _ E5).
  apply alter_outcome in E as [?|[_ ->]]; eauto.
Qed.

Lemma restore_outcome v id w r w' :
  Records.restore_record v id w = (r, w') →
  (records w' = records w ∧ is_ok r = false) ∨
  records w' = alter restored (uuid_to_string id) (records w).
Proof.
  unfold Records.restore_record. intros Hr.
  apply pre_step in Hr as [?|(u1 & w1 & E1 & R1 & Hr)]; [by left| |by around].
  apply pre_step in Hr as [[Hs ?]|(s & w2 & E2 & R2 & Hr)]; [left; by rewrite Hs| |by around].
  apply pre_step in Hr as [[Hs ?]|(n & w3 & E3 & R3 & Hr)];
    [left; by rewrite Hs, R2| |by around].
  rewrite <- R1, <- R2, <- R3.
  apply (statement_then _ _ (λ rs, rs = alter restored (uuid_to_string id) (records w3)))
    in Hr; [done| |by around].
  intros x w4 E%alter_outcome. naive_solver.
Qed.

(** C11: the trash loses nothing.  Trashing an active record marks its row and touches no
    other, or fails and changes none; restoring it gives back exactly the rows there were,
    the encrypted payload, version and flags included, or fails and changes none. *)
Theorem trash_then_restore v id w row r1 w1 r2 w2 :
  records w !! uuid_to_string id = Some row → row_deleted row = 0%Z → row_deleted_at row = None →
  Records.soft_delete_record v id w = (r1, w1) → Records.restore_record v id w1 = (r2, w2) →
  ((records w1 = records w ∧ is_ok r1 = false) ∨
   ∃ t, records w1 = <[uuid_to_string id := trashed t row]> (records w)) ∧
  (records w2 = records w ∨ records w2 = records w1 ∧ is_ok r2 = false).
Proof.
  intros Hl Hd Ha E1%soft_delete_outcome E2%restore_outcome.
  assert (restored row = row) as Hrow.
  { unfold restored, update, eta, eta_RecordRow. destruct row; cbn in *. by subst. }
  assert (∀ t, alter (trashed t) (uuid_to_string id) (records w) =
    <[uuid_to_string id := trashed t row]> (records w)) as Halter.
  { intros t. apply map_eq. intros j. destruct (decide (j = uuid_to_string id)) as [->|];
      [by rewrite lookup_insert_eq, lookup_alter_eq, Hl|by rewrite lookup_insert_ne, lookup_alter_ne]. }
  split; [destruct E1 as [?|[t E1]]; [by left|right; exists t; by rewrite E1]|].
  destruct E2 as [?|E2]; [by right|]. left. rewrite E2. apply map_eq. intros j.
  destruct (decide (j = uuid_to_string id)) as [->|Hne].
  - rewrite lookup_alter_eq. destruct E1 as [[-> _]|[t ->]]; rewrite ?Halter, ?lookup_insert_eq, ?Hl;
      cbn; [by rewrite Hrow|]. f_equal. rewrite <- Hrow at 2. done.
  - rewrite lookup_alter_ne by done. destruct E1 as [[-> _]|[t ->]]; [done|].
    by rewrite lookup_alter_ne.
Qed.

(** ** Destruction *)

(** No table but the audit log mentions the record. *)
Definition erased (id : string) (t : Tables) : Prop :=
  t_records t !! id = None ∧ t_list_index t !! id = None ∧ t_health t !! id = None ∧
  t_sync_state t !! id = None ∧ (∀ tag, (id, tag) ∉ t_record_tags t) ∧
  ∀ i h, t_history t !! i = Some h → pr_record_id h ≠ id.

Lemma wf_erased id t : db_wf t → t_records t !! id = None → erased id t.
Proof.
  intros [] Hno. split_and!; try done.
  - apply eq_None_not_Some. intros Hx%wf_list_index. rewrite Hno in Hx. by destruct Hx.
  - apply eq_None_not_Some. intros Hx%wf_health. rewrite Hno in Hx. by destruct Hx.
  - apply eq_None_not_Some. intros Hx%wf_sync_state. rewrite Hno in Hx. by destruct Hx.
  - intros tag [[x Hx] _]%wf_record_tags. by rewrite Hno in Hx.
  - intros i h Hh <-. destruct (wf_history i h Hh) as [x Hx]. by rewrite Hno in Hx.
Qed.

Lemma hard_delete_statement id w r (w' : W) :
  Queries.hard_delete_record id w = (r, w') →
  (records w' = records w ∧ is_ok r = false) ∨
  (r = Ok () ∧ records w' = delete (uuid_to_string id) (records w)).
Proof.
  unfold Queries.hard_delete_record, execute_, execute, sqlite. rewrite ior_bind_step.
  unfold io_map_err, io_bind, io_ret.
  destruct (sql_execute _ w) as [[n|e] w1] eqn:E; intros [= <- <-].
  - right. split; [done|]. apply execute_ok in E. injection E as _ E. unfold records.
    rewrite <- E. cbn. apply map_eq. intros j. apply option_eq. intros row.
    rewrite map_lookup_filter_Some, lookup_delete_Some, bool_decide_eq_false. naive_solver.
  - left. unfold records. by rewrite (execute_err _ _ _ _ E).
Qed.

Lemma hard_delete_rows v id w r w' :
  Records.hard_delete_record v id w = (r, w') →
  (records w' = records w ∧ is_ok r = false) ∨
  records w' = delete (uuid_to_string id) (records w).
Proof.
  intros Hr. unfold Records.hard_delete_record in Hr.
  apply pre_step in Hr as [?|(u1 & w1 & E1 & R1 & Hr)]; [by left| |by around].
  apply pre_step in Hr as [[Hs ?]|(s & w2 & E2 & R2 & Hr)]; [left; by rewrite Hs| |by around].
  apply pre_step in Hr as [[Hs ?]|(n & w3 & E3 & R3 & Hr)];
    [left; by rewrite Hs, R2| |by around].
  rewrite <- R1, <- R2, <- R3.
  apply (statement_then _ _ (λ rs, rs = delete (uuid_to_string id) (records w3)))
    in Hr; [done| |by around].
  intros x w4 E%hard_delete_statement. naive_solver.
Qed.

(** What a destruction adds to the audit log: nothing when it fails, else one entry. *)
Definition destruction_logged (id : Uuid) (ok : bool) (log log' : list AuditLogRow) : Prop :=
  if ok then ∃ name at_, log' = log ++
    [mkAuditLogRow (AuditOperation.to_db_str AuditOperation.RecordDestroy)
       (Some (uuid_to_string id)) (Some name) None at_]
  else log' = log.

Definition audit_log (w : W) : list AuditLogRow := t_audit_log (tables w).

Definition logs_destruction (id : Uuid) {A} (m : ior W A VaultError.t) : Prop :=
  ∀ w r w', m w = (r, w') → destruction_logged id (is_ok r) (audit_log w) (audit_log w').

Lemma logs_bind {A B} id (m : ior W A VaultError.t) (k : A → ior W B VaultError.t) :
  keeps audit_log m → (∀ a, logs_destruction id (k a)) → logs_destruction id (ior_bind m k).
Proof.
  intros Hm Hk w r w' Hr. rewrite ior_bind_step in Hr. destruct (m w) as [[a|e] w1] eqn:E.
  - rewrite <- (Hm _ _ _ E). by apply (Hk a _ _ _ Hr).
  - injection Hr as <- <-. exact (Hm _ _ _ E).
Qed.

Lemma keeps_log {A} (m : io W A) : keeps tables m → keeps audit_log m.
Proof. apply keeps_table. Qed.

Lemma statement_keeps_log (f : Tables → Z * Tables) :
  (∀ t, t_audit_log (f t).2 = t_audit_log t) → keeps (W := W) audit_log (execute f).
Proof.
  intros Hf. unfold execute, sqlite. apply keeps_map_err. intros w [n|e] w' Hr; unfold audit_log.
  - apply execute_ok in Hr. injection Hr as Hr. pose proof (Hf (tables w)) as Hl.
    by rewrite Hr in Hl.
  - by rewrite (execute_err _ _ _ _ Hr).
Qed.

Lemma logs_audit id name :
  logs_destruction id (Records.audit AuditOperation.RecordDestroy id name).
Proof.
  intros w r w' Hr. unfold Records.audit, db, insert_audit_entry, sqlite in Hr.
  unfold io_map_err in Hr. apply io_bind_eq in Hr as (r1 & w1 & Hr & [= <- <-]).
  apply io_bind_eq in Hr as (n & w2 & Hn%now_tables & Hr).
  apply io_bind_eq in Hr as (r3 & w3 & Hr & [= <- <-]). unfold audit_log. rewrite <- Hn.
  destruct r3 as [u|e]; cbn.
  - apply execute_ok in Hr. injection Hr as _ <-. eauto.
  - by rewrite (execute_err _ _ _ _ Hr).
Qed.

Lemma destroyed_logged v id : logs_destruction id (Records.hard_delete_record v id).
Proof.
  unfold Records.hard_delete_record.
  apply logs_bind; [apply keeps_log; unfold check_unlocked; case_match; solve_keeps|intros _].
  apply logs_bind; [apply keeps_log, keeps_get_stored|intros stored].
  apply logs_bind; [apply keeps_log; unfold decrypt_record_name, decrypt_stored, crypto; solve_keeps|intros name].
  apply logs_bind; [|intros _; apply logs_bind; [|intros _; apply logs_audit]].
  - unfold db, Queries.hard_delete_record, execute_. apply keeps_map_err, keeps_ior_bind.
    + by apply statement_keeps_log.
    + intros _. solve_keeps.
  - unfold Records.delete_record_health_state, db, delete_record_health_state.
    apply keeps_ior_bind; [apply keeps_map_err, keeps_ior_bind|intros _; solve_keeps].
    + by apply statement_keeps_log.
    + intros n. solve_keeps.
Qed.


End lifecycle.
