(* ===== verification/CloudTrip.v ===== *)
(** * From one device to another

    A record that one device uploads and another downloads, through [CloudRecord] and
    back, arrives as it was. *)

From S2P Require Import Prelude Text Errors Env Types CloudRecord Storage Crypto Keystore Payload.
From S2P Require Import Database Queries Vault Logic Records Tags Integrity VaultSync Lifecycle.

Section trip.
Context {W : Type} `{LibLaws} `{UuidErrors} `{Lowercase} `{ConversionErrors}.
Context `{CryptoLibLaws} `{SqliteLaws W} `{!SecureLaws W} `{!RangeLaws W}.
Context `{!Serde PayloadPlaintextDto.t} `{!SerdeLaws PayloadPlaintextDto.t}.
Context `{!JsonText PayloadPlaintextDto.t} `{!Serde Json} `{!PayloadJson}.
Context `{!Serde CloudPrivateMetadata} `{!SerdeLaws CloudPrivateMetadata}.
Import VaultService Records VaultSync.

(** ** Private metadata *)

(** What [build_cloud_record_for_sync] makes, on the way to [cloud_record]. *)
Lemma build_ok v s health w c w' :
  build_cloud_record_for_sync v s health w = (Ok c, w') →
  ∃ name data nonce json key, c = cloud_record s
      (mkEncryptedRecordMetadata (base64_encode data) (base64_encode nonce) (cm_current (vs_crypto v))) ∧
    String.length nonce = 24 ∧ dek_of (vs_crypto v) (cm_current (vs_crypto v)) = Some key ∧
    decrypt_with_aad (data, nonce) (metadata_aad (uuid_to_string (st_id s))) key = Ok json ∧
    from_json json = Ok (private_metadata name s health).
Proof.
  unfold build_cloud_record_for_sync, crypto. intros Hb.
  apply ior_bind_ok in Hb as (name & w1 & E1 & Hb).
  apply ior_bind_ok in Hb as (json & w2 & E2 & Hb). apply lift_ok in E2 as [E2 ->].
  apply map_err_ok in E2. apply ior_bind_ok in Hb as ([data nonce] & w3 & E3 & Hb).
  apply io_map_err_ok, encrypt_ok in E3 as (key & Hk & Hd & Hn). apply lift_ok in Hb as [[= <-] _].
  exists name, data, nonce, json, key. eauto 10 using serde_roundtrip.
Qed.

(** The receiver's view of that metadata, when it has the key. *)
Lemma triple_private_metadata t v c e data nonce key json pm :
  rm_encrypted_metadata (cr_metadata c) = Some e →
  em_encrypted_data e = base64_encode data → em_nonce e = base64_encode nonce →
  String.length nonce = 24 → dek_of (vs_crypto v) (em_dek_version e) = Some key →
  decrypt_with_aad (data, nonce) (metadata_aad (cr_id c)) key = Ok json → from_json json = Ok pm →
  triple (on (eq t)) (decrypt_cloud_private_metadata v c) (λ x w, x = Some pm ∧ on (eq t) w)
    (vault_env (W := W)).
Proof.
  intros He Hd Hn Hl Hk Hdec Hj. unfold decrypt_cloud_private_metadata, decode, nonce24.
  rewrite He, Hd, Hn, !base64_roundtrip. cbn [map_err res_bind]. rewrite Hl. cbn [Nat.eqb].
  eapply triple_bind; [by apply (triple_ok _ _ (λ d w, d = data ∧ on (eq t) w))|]. intros d.
  apply triple_pure. intros ->.
  eapply triple_bind; [by apply (triple_ok _ _ (λ d w, d = nonce ∧ on (eq t) w))|]. intros d.
  apply triple_pure. intros ->.
  eapply triple_bind; [apply (triple_yields _ _ json); [apply keeps_decrypt|]|].
  - intros w r w' Hr. by eapply decrypt_run.
  - intros x. apply triple_pure. intros ->. unfold res_map. rewrite Hj. by apply triple_ok.
Qed.

(** ** Storing *)

(** The record [r] is in the tables as the row [row], with exactly the tags [l]. *)
Definition stored_with (id : string) (row : RecordRow) (l : list string) (t : Tables) : Prop :=
  t_records t !! id = Some row ∧ ∀ n, n ∈ sql_record_tags id t ↔ n ∈ l.

Lemma triple_get_or_create P name :
  triple (on P) (get_or_create_tag name)
    (λ tag w, ∃ t, P t ∧ sql_get_or_create_tag name t = Ok (tag, tables w)) (db_env).
Proof.
  unfold get_or_create_tag, get_tag_by_name. eapply triple_bind; [apply triple_query|].
  intros o w r w' [Hw ->] Hr. unfold sql_get_or_create_tag.
  destruct (sql_tag_named name (tables w)) as [tag|] eqn:E.
  - injection Hr as <- <-. exists (tables w). by rewrite E.
  - apply (triple_execute (eq (tables w)) (sql_insert_tag name) w r w' eq_refl) in Hr.
    destruct r as [tag|e]; [|done]. destruct Hr as (t & <- & Hr). exists (tables w). by rewrite E.
Qed.

(** Tags attached one by one end like those inserted together. *)
Lemma triple_attach_tags id row tags : ∀ l,
  triple (on (λ t, db_wf t ∧ stored_with (uuid_to_string id) row l t))
    (attach_tags id tags)
    (λ _, on (λ t, db_wf t ∧ stored_with (uuid_to_string id) row (l ++ tags) t))
    (vault_env (W := W)).
Proof.
  induction tags as [|name tags IH]; intros l; cbn [attach_tags].
  - apply triple_ok. intros w. by rewrite app_nil_r.
  - eapply triple_bind; [apply triple_db, triple_get_or_create|]. intros tag.
    apply triple_exists. intros t0. apply triple_pure. intros [Hwf [Hrow Htags]].
    eapply triple_bind.
    + eapply triple_conseq; [apply triple_db, (triple_execute
        (λ t, sql_get_or_create_tag name t0 = Ok (tag, t)))|done|by intros ? ? Hq; exact Hq|done].
    + intros []. eapply triple_conseq; [apply (IH (l ++ [name]))| | |done].
      * intros w (t1 & Hc & Hl). unfold on.
        assert (sql_tag_record (uuid_to_string id) (Ok t0) name = Ok (tables w)) as Ht.
        { unfold sql_tag_record, sql_ensure_tag. cbn. unfold sql_get_or_create_tag in Hc.
          destruct (sql_tag_named name t0) as [tag'|] eqn:En.
          - injection Hc as <- <-. unfold sql_insert_tag. rewrite En, bool_decide_eq_true_2 by done.
            cbn. rewrite En. cbn. by rewrite Hl.
          - rewrite Hc. apply wf_insert_tag in Hc as (Hwf1 & E1 & _); [|done].
            assert (sql_tag_named name t1 = Some tag) as ->
              by (apply sql_tag_named_iff; [done|]; subst t1; by apply lookup_insert_eq).
            cbn. by rewrite Hl. }
        split; [by eapply wf_tag_record|]. apply tag_record_adds in Ht as [Er Et]; [|done].
        split; [by rewrite Er|]. intros n. rewrite Et, Htags. set_solver.
      * intros u w. unfold on. by rewrite <- (assoc_L (++)).
Qed.

(** Conditions on the records and their tags alone. *)
Definition respects (P : Tables → Prop) : Prop :=
  ∀ t t', tagged_records t' = tagged_records t → P t → P t'.

Lemma stored_with_respects id row l : respects (stored_with id row l).
Proof.
  intros t t' Ht [Hrow Htags]. split.
  - pose proof (f_equal (λ x, x.1.1) Ht) as E. cbn in E. by rewrite E.
  - intros n. by rewrite (record_tags_of _ _ _ Ht).
Qed.

Lemma fails_set_metadata key value :
  fails (db (Database.set_metadata key value)) (vault_env (W := W)).
Proof.
  apply triple_db. eapply triple_conseq; [apply (triple_execute (λ _, True))|done|done|done].
Qed.

Lemma triple_mark P key value :
  respects P →
  triple (on (λ t, db_wf t ∧ P t)) (db (Database.set_metadata key value))
    (λ _, on (λ t, db_wf t ∧ P t)) (vault_env (W := W)).
Proof.
  intros HP w r w' [Hwf Hw] Hr. pose proof (set_metadata_wf _ _ _ _ _ Hr Hwf) as [Hwf' Ht].
  pose proof (fails_set_metadata _ _ _ _ _ I Hr) as Hf. destruct r; [|done].
  split; [done|by eapply HP].
Qed.

Lemma triple_frame {A} P (m : ior W A VaultError.t) :
  respects P → keeps tagged m → fails m vault_env → triple (on P) m (λ _, on P) vault_env.
Proof.
  intros HP Hk Hf w r w' Hw Hr. specialize (Hf _ _ _ I Hr). destruct r; [|done].
  by apply (HP _ _ (Hk _ _ _ Hr)).
Qed.

(** The row carries the record.  A row that was [known] keeps its type and its time of
    creation; a new one has the type of the record, and is created now. *)
Definition received (s : StoredRecord) (known : option RecordRow) (row : RecordRow) : Prop :=
  row_encrypted_data row = st_encrypted_data s ∧ row_nonce row = st_nonce s ∧
  row_dek_version row = st_dek_version s ∧ default "" (row_aad row) = st_aad s ∧
  row_is_favorite row = Z.b2z (st_is_favorite s) ∧
  row_expires_at row = datetime_to_timestamp <$> st_expires_at s ∧
  row_updated_at row = datetime_to_timestamp (st_updated_at s) ∧
  row_updated_by row = st_updated_by s ∧ row_version row = as_i64 (st_version s) ∧
  row_deleted row = Z.b2z (st_deleted s) ∧
  row_deleted_at row = datetime_to_timestamp <$> st_deleted_at s ∧
  match known with
  | Some old => row_credential_type row = row_credential_type old ∧
      row_created_at row = row_created_at old
  | None => row_credential_type row = CredentialType.to_db_str (st_credential_type s)
  end.

Definition arrived (s : StoredRecord) (known : option RecordRow) (t : Tables) : Prop :=
  ∃ row, received s known row ∧ stored_with (uuid_to_string (st_id s)) row (st_tags s) t.

Lemma arrived_respects s known : respects (arrived s known).
Proof. intros t t' Ht (row & Hr & Hs). exists row. split; [done|]. by eapply stored_with_respects. Qed.

Lemma aad_column (aad : bytes) : default "" (if bool_decide (aad = "") then None else Some aad) = aad.
Proof. by case_bool_decide. Qed.

Lemma none_respects id : respects (λ t, t_records t !! id = None).
Proof. intros t t' Ht Hn. pose proof (f_equal (λ x, x.1.1) Ht) as E. cbn in E. by rewrite E. Qed.

Lemma some_respects id row : respects (λ t, t_records t !! id = Some row).
Proof. intros t t' Ht Hn. pose proof (f_equal (λ x, x.1.1) Ht) as E. cbn in E. by rewrite E. Qed.

Lemma triple_store_new s :
  triple (on (λ t, db_wf t ∧ t_records t !! uuid_to_string (st_id s) = None))
    (store_downloaded s None) (λ _, on (λ t, db_wf t ∧ arrived s None t)) (vault_env (W := W)).
Proof.
  unfold store_downloaded. eapply triple_bind; [apply triple_mark, none_respects|]. intros [].
  eapply triple_conseq; [apply triple_db, triple_execute|done| |done].
  intros [] w (t & [Hwf Hn] & Hi). split; [by eapply wf_insert_record|].
  apply insert_record_adds in Hi as (_ & Hrow & Htags); [|done]. exists (new_row s).
  split; [|split; [by rewrite Hrow, lookup_insert_eq|done]].
  unfold received, new_row. cbn. by rewrite aad_column.
Qed.

(** The row after the two updates of a known record. *)
Definition replaced (s : StoredRecord) (row : RecordRow) : RecordRow :=
  mkRecordRow (row_id row) (row_credential_type row) (st_encrypted_data s) (st_nonce s)
    (st_dek_version s) (if bool_decide (st_aad s = "") then None else Some (st_aad s))
    (Z.b2z (st_is_favorite s)) (datetime_to_timestamp <$> st_expires_at s) (row_created_at row)
    (datetime_to_timestamp (st_updated_at s)) (st_updated_by s) (as_i64 (st_version s))
    (Z.b2z (st_deleted s)) (datetime_to_timestamp <$> st_deleted_at s).

(** What [update_record_deleted_state] does to the row. *)
Definition restated (s : StoredRecord) (row : RecordRow) : RecordRow :=
  row <| row_deleted := Z.b2z (st_deleted s) |>
      <| row_deleted_at := datetime_to_timestamp <$> st_deleted_at s |>.

Lemma update_replaces s v row t :
  db_wf t → t_records t !! uuid_to_string (st_id s) = Some row → row_version row = as_i64 v →
  let t' := (sql_update_record s v t).2 in
  db_wf t' ∧ ∃ row', t_records t' !! uuid_to_string (st_id s) = Some row' ∧
    restated s row' = replaced s row.
Proof.
  intros Hwf Hrow Hv t'. destruct (sql_update_record s v t) as [n t1] eqn:E.
  pose proof (wf_update_record _ _ _ _ _ Hwf E) as [Hwf' _]. split; [done|]. subst t'. cbn.
  unfold sql_update_record in E. rewrite Hrow, bool_decide_eq_true_2 in E by done.
  injection E as _ <-. eexists. cbn. rewrite lookup_insert_eq. split; [done|]. reflexivity.
Qed.

Lemma alter_restates s row t :
  db_wf t → t_records t !! uuid_to_string (st_id s) = Some row →
  let t' := (sql_alter_record (uuid_to_string (st_id s)) (restated s) t).2 in
  db_wf t' ∧ t_records t' !! uuid_to_string (st_id s) = Some (restated s row).
Proof.
  intros Hwf Hrow t'. destruct (sql_alter_record _ _ t) as [n t1] eqn:E.
  pose proof (wf_alter t _ (restated s) n t1 ltac:(done) Hwf E). split; [done|]. subst t'. cbn.
  unfold sql_alter_record in E. rewrite Hrow in E. injection E as _ <-. cbn. apply lookup_insert_eq.
Qed.

Lemma triple_store_known s local row :
  row_version row = as_i64 (st_version local) →
  let key := uuid_to_string (st_id s) in
  triple (on (λ t, db_wf t ∧ t_records t !! key = Some row)) (store_downloaded s (Some local))
    (λ _, on (λ t, db_wf t ∧ stored_with key (replaced s row) (st_tags s) t))
    (vault_env (W := W)).
Proof.
  intros Hver key. unfold store_downloaded.
  eapply triple_bind; [apply triple_mark, some_respects|]. intros [].
  eapply (triple_bind _ _ _ (λ _, on (λ t, db_wf t ∧ ∃ row', t_records t !! key = Some row' ∧
    restated s row' = replaced s row))).
  { apply triple_db. eapply triple_conseq; [apply triple_change|done| |done].
    intros b w (t & [Hwf Hrow] & Ht). unfold on. rewrite <- Ht. by apply update_replaces. }
  intros _b. eapply (triple_bind _ _ _ (λ _, on (λ t, db_wf t ∧
    t_records t !! key = Some (replaced s row)))).
  { apply triple_db. eapply triple_conseq; [apply triple_change|done| |done].
    intros b w (t & (Hwf & row' & Hrow & <-) & Ht). unfold on. rewrite <- Ht. by apply (alter_restates s row'). }
  intros _u. eapply (triple_bind _ _ _ (λ _, on (λ t, db_wf t ∧
    stored_with key (replaced s row) [] t))).
  { apply triple_db. eapply triple_conseq; [apply triple_execute|done| |done].
    intros u w (t & [Hwf Hrow] & [= _ Ht]). unfold on. cbn beta. rewrite <- Ht. split.
    - apply (wf_record_tags_subset t (filter (λ r, r.1 ≠ uuid_to_string (st_id s)) (t_record_tags t)));
        [done|]. set_solver.
    - split; [done|]. intros n. rewrite elem_of_record_tags. split; [|set_solver].
      intros (tag & [Hne _]%elem_of_filter & _). by destruct Hne. }
  intros _v. apply (triple_attach_tags (st_id s) (replaced s row) (st_tags s) []).
Qed.

(** ** The rest of a download *)

Lemma fails_execute {A} (f : Tables → result (A * Tables) SqlError) :
  fails (sqlite (sql_execute f)) db_env (W := W).
Proof. eapply triple_conseq; [apply (triple_execute (λ _, True))|done|done|done]. Qed.

Lemma fails_bind {A B E} (m : ior W A E) (k : A → ior W B E) F :
  fails m F → (∀ a, fails (k a) F) → fails (ior_bind m k) F.
Proof. intros Hm Hk. by eapply triple_bind. Qed.

Lemma fails_store_health s pm : fails (store_health s pm) (vault_env (W := W)).
Proof.
  unfold store_health. destruct pm as [pm|]; [|by apply triple_ok]. destruct (pm_health pm).
  - apply triple_db, fails_execute.
  - apply fails_bind; [|intros; by apply triple_ok]. apply triple_db.
    apply fails_bind; [apply fails_execute|intros; by apply triple_ok].
Qed.

Lemma keeps_store_health s pm : keeps (W := W) tagged (store_health s pm).
Proof. unfold store_health, db. solve_keeps. Qed.

(** The entry of the list index: what cannot be decrypted goes by another name. *)
Definition index_error (e : VaultError.t) : Prop :=
  (∃ x, e = VaultError.DatabaseError x) ∨ ∃ m, e = VaultError.CryptoError m.

Lemma fails_index_stored v s :
  fails (upsert_record_list_index_for_stored v s) index_error (W := W).
Proof.
  unfold upsert_record_list_index_for_stored, crypto.
  apply fails_bind; [apply triple_map_err; intros ? [] ? _ _; [done|right; by eexists]|]. intros name.
  apply fails_bind; [apply triple_map_err; intros ? [] ? _ _; [done|right; by eexists]|]. intros sub.
  eapply triple_conseq; [apply triple_db, fails_execute|done|done|].
  intros e [?|(m & -> & _)]; [by left|right; by eexists].
Qed.

Lemma fails_index v c s pm : fails (index_downloaded v c s pm) (vault_env (W := W)).
Proof.
  unfold index_downloaded.
  eapply (triple_io_bind _ _ _ (λ r _, ∀ e, r = Err e → index_error e)).
  - intros w r w' _ Hr e ->. exact (fails_index_stored v s _ _ _ I Hr).
  - intros [u|e]; [by apply triple_ok|]. intros w r w' He. specialize (He e eq_refl).
    destruct He as [[x ->]|[m ->]]; [intros [= <- <-]; left; by eexists|].
    apply (triple_db (λ _, True) _ (λ _ _, True)); [apply fails_execute|done].
Qed.

Lemma keeps_index v c s pm : keeps (W := W) tagged (index_downloaded v c s pm).
Proof.
  unfold index_downloaded, upsert_record_list_index_for_stored, crypto, db.
  repeat first [ progress solve_keeps | apply keeps_tagged; solve [auto with keeps] ].
Qed.

(** ** The trip *)

Definition with_created (t : Instant) (s : StoredRecord) : StoredRecord :=
  mkStoredRecord (st_id s) (st_credential_type s) (st_encrypted_data s) (st_nonce s)
    (st_dek_version s) (st_aad s) (st_is_favorite s) (st_expires_at s) t (st_updated_at s)
    (st_updated_by s) (st_version s) (st_deleted s) (st_deleted_at s) (st_tags s).

(** A record that can make the trip: its time stamps can be printed, only a deleted record
    has a time of deletion, and one that is not deleted holds a payload within the limits. *)
Record sendable (m : CryptoManager) (s : StoredRecord) : Prop := {
  send_id : (st_id s < 2 ^ 128)%N;
  send_aad : st_aad s = record_aad (st_id s);
  send_nonce : String.length (st_nonce s) = 24;
  send_updated : printable_instant (st_updated_at s);
  send_expires : ∀ e, st_expires_at s = Some e → printable_instant e;
  send_deleted_at : ∀ e, st_deleted_at s = Some e → printable_instant e ∧ st_deleted s = true;
  send_tags : validate_tags (st_tags s) = Ok ();
  send_payload : st_deleted s = false → ∃ p, validate_payload p = Ok () ∧
    holds_payload m (st_encrypted_data s) (st_nonce s) (st_aad s) (st_dek_version s) p;
}.

Lemma parse_print o :
  (∀ e, o = Some e → printable_instant e) → (rfc3339_print <$> o) ≫= rfc3339_parse = o.
Proof. destruct o as [e|]; cbn; [|done]. intros He. by rewrite rfc3339_roundtrip by eauto. Qed.

Lemma downloaded_same m s e name health existing n :
  sendable m s →
  downloaded_record (cloud_record s e) (Some (private_metadata name s health)) (st_id s)
    (st_encrypted_data s) (st_nonce s) existing n =
  with_created (from_option st_created_at n existing) s.
Proof.
  intros [Hid Ha _ Hu He Hd _ _]. unfold downloaded_record, with_created. cbn.
  rewrite rfc3339_roundtrip by done. cbn. rewrite <- Ha.
  assert (or_else (rfc3339_print <$> st_expires_at s) None ≫= rfc3339_parse = st_expires_at s)
    as -> by (rewrite <- (parse_print _ He) at 2; by destruct (st_expires_at s)).
  destruct (st_deleted s) eqn:Es; cbn; f_equal.
  - apply parse_print. intros e' He'. by destruct (Hd e' He').
  - destruct (st_deleted_at s) as [x|] eqn:Ex; [|done]. by destruct (Hd x eq_refl).
Qed.

Lemma triple_check_payload P m v s c :
  sendable m s → (∀ ver, dek_of (vs_crypto v) ver = dek_of m ver) →
  triple (on P) (check_payload v (with_created c s)) (λ _, on P) (vault_env (W := W)).
Proof.
  intros Hs Hkeys. unfold check_payload. cbn. destruct (st_deleted s) eqn:Es; [by apply triple_ok|].
  destruct (send_payload _ _ Hs Es) as (p & Hv & key & json & Hk & Hh).
  eapply triple_bind; [apply (triple_decrypt_stored _ _ _ p); exists key, json; by rewrite Hkeys|].
  intros q. apply triple_pure. intros ->. rewrite Hv. by apply triple_ok.
Qed.

(** The tables of a device that can take the record: it does not have it, or has it in a
    row that can be read. *)
Definition receives (s : StoredRecord) (t : Tables) : Prop :=
  match t_records t !! uuid_to_string (st_id s) with
  | None => True
  | Some row => (- 2 ^ 63 ≤ row_version row < 2 ^ 63)%Z ∧
      ∃ st, ∀ tags, RecordRow.to_stored_record row tags = Ok (st tags)
  end.

Lemma triple_apply v v' s health w1 c w2 t :
  sendable (vs_crypto v) s →
  (∀ ver, dek_of (vs_crypto v') ver = dek_of (vs_crypto v) ver) →
  build_cloud_record_for_sync v s health w1 = (Ok c, w2) → db_wf t → receives s t →
  triple (on (eq t)) (apply_downloaded_cloud_record v' c) (λ is_new,
    on (λ t', arrived s (t_records t !! uuid_to_string (st_id s)) t' ∧ is_new = bool_decide (t_records t !! uuid_to_string (st_id s) = None))) (vault_env (W := W)).
Proof.
  intros Hs Hkeys Hb Hwf Hrec.
  apply build_ok in Hb as (name & data & nonce & json & key & -> & Hn & Hk & Hd & Hj).
  set (e := mkEncryptedRecordMetadata _ _ _).
  unfold apply_downloaded_cloud_record, decode, nonce24. cbn [cr_id cloud_record cr_encrypted_data cr_nonce].
  rewrite uuid_roundtrip by apply Hs. rewrite !base64_roundtrip. cbn [ok_or map_err res_bind].
  rewrite (send_nonce _ _ Hs). cbn [Nat.eqb].
  eapply triple_bind; [by apply (triple_ok _ _ (λ x w, x = st_id s ∧ on (eq t) w))|]. intros i.
  apply triple_pure. intros ->.
  eapply triple_bind; [by apply (triple_ok _ _ (λ x w, x = st_encrypted_data s ∧ on (eq t) w))|].
  intros d. apply triple_pure. intros ->.
  eapply triple_bind; [by apply (triple_ok _ _ (λ x w, x = st_nonce s ∧ on (eq t) w))|].
  intros d. apply triple_pure. intros ->.
  set (known (o : option StoredRecord) := match o, t_records t !! uuid_to_string (st_id s) with
    | None, None => True
    | Some local, Some row => row_version row = as_i64 (st_version local)
    | _, _ => False
    end).
  apply (triple_bind _ _ _ (λ o w, known o ∧ on (eq t) w)).
  { apply triple_db. unfold receives in Hrec. unfold known.
    destruct (t_records t !! uuid_to_string (st_id s)) as [row|] eqn:Hrow.
    - destruct Hrec as [Hver [st Hst]]. eapply triple_conseq;
        [by apply (triple_record_some t _ row st)|done| |done].
      intros o w [(tags & _ & ->) Hw]. split; [|done].
      destruct (to_stored_ok _ _ _ (Hst tags)) as (_ & _ & _ & _ & _ & _ & _ & _ & ->).
      by rewrite as_i64_wrap64.
    - eapply triple_conseq; [by apply triple_record_none|done| |done]. by intros o w [-> Hw]. }
  intros existing. apply triple_pure. intros Hknown. apply triple_now. intros n _.
  eapply triple_bind; [by apply (triple_private_metadata t v' _ e data nonce key json
      (private_metadata name s health));
    try done; cbn; rewrite ?Hkeys|].
  intros x. apply triple_pure. intros ->. cbn zeta.
  rewrite (downloaded_same (vs_crypto v)) by done. set (s' := with_created _ s).
  rewrite (send_tags _ _ Hs : validate_tags (st_tags s') = Ok ()). cbn [map_err].
  eapply triple_bind; [by apply (triple_ok _ _ (λ _, on (eq t)))|]. intros [].
  eapply triple_bind; [by apply (triple_check_payload _ (vs_crypto v))|]. intros [].
  apply (triple_bind _ _ _ (λ _, on (arrived s (t_records t !! uuid_to_string (st_id s))))).
  { destruct existing as [local|]; unfold known in Hknown;
      destruct (t_records t !! uuid_to_string (st_id s)) as [row|] eqn:Hrow; try done.
    - eapply triple_conseq; [by apply (triple_store_known s' local row)| | |done].
      + by intros w Hw; unfold on in *; subst t.
      + intros [] w [_ Hst]. exists (replaced s' row). split; [|done].
        unfold received, replaced. cbn. by rewrite aad_column.
    - eapply triple_conseq; [apply (triple_store_new s')| | |done].
      + by intros w Hw; unfold on in *; subst t.
      + by intros [] w [_ Hst]. }
  intros []. eapply triple_bind; [apply triple_frame;
    [apply arrived_respects|apply keeps_store_health|apply fails_store_health]|]. intros [].
  eapply triple_bind; [apply triple_frame;
    [apply arrived_respects|apply keeps_index|apply fails_index]|]. intros [].
  eapply triple_bind; [apply triple_frame;
    [apply arrived_respects|apply (keeps_map_err tagged), keeps_set_metadata'|apply fails_set_metadata]|].
  intros []. apply triple_ok. intros w Hw. split; [done|]. unfold known in Hknown.
  destruct existing, (t_records t !! uuid_to_string (st_id s)); try done.
Qed.

(** C4: a record survives the trip through the cloud.  A record that one device uploads and
    another device with the same keys downloads arrives with its ciphertext, nonce, key
    version, favourite and trash marks, times of expiry, of the last change and of deletion,
    version and exactly its tags, as a new row, which also has its type, or in the row the
    device had, which keeps its type and time of creation; live records and tombstones
    alike.  (The time of creation does not travel: a new row is created when it arrives.)
    The download can only fail for the database or for locking memory. *)
Theorem cloud_roundtrip v v' s health w1 c w2 w r w' :
  sendable (vs_crypto v) s →
  (∀ ver, dek_of (vs_crypto v') ver = dek_of (vs_crypto v) ver) →
  build_cloud_record_for_sync v s health w1 = (Ok c, w2) →
  db_wf (tables w) → receives s (tables w) →
  apply_downloaded_cloud_record v' c w = (r, w') →
  match r with
  | Err e => vault_env (W := W) e
  | Ok is_new =>
      is_new = bool_decide (records w !! uuid_to_string (st_id s) = None) ∧
      ∃ row, records w' !! uuid_to_string (st_id s) = Some row ∧
        received s (records w !! uuid_to_string (st_id s)) row ∧
        ∀ n, n ∈ sql_record_tags (uuid_to_string (st_id s)) (tables w') ↔ n ∈ st_tags s
  end.
Proof.
  intros Hs Hkeys Hb Hwf Hrec Hr.
  pose proof (triple_apply _ _ _ _ _ _ _ _ Hs Hkeys Hb Hwf Hrec w r w' eq_refl Hr) as Ht.
  destruct r as [b|e]; [|done]. destruct Ht as [(row & Hrow & Hl & Htags) ->]. eauto.
Qed.

End trip.
