(* ===== verification/ExecSync.v ===== *)
(** * The sync commands (src/executor/sync.rs, src/executor/health.rs)

    What the executor gives a sync to work on, and what it does with the result. *)

From Stdlib Require Import Ascii.
From stdpp Require Import sorting.
From S2P Require Import Prelude Errors Env Types CloudRecord CloudMetadata Conflict.
From S2P Require Import Pipeline SyncTask Crypto Keystore Payload Storage.
From S2P Require Import Database Queries Vault Logic Records Integrity Executor VaultSync.
From S2P Require Import VaultOps Lifecycle.

Definition REMOTE_METADATA_SNAPSHOT_KEY : string := "remote_metadata_snapshot".

(** [s.parse::<u64>().ok()]: digits after an optional plus sign, below 2^64. *)
Definition digit (c : ascii) : option Z :=
  let n := Z.of_N (N_of_ascii c) in
  if (48 <=? n)%Z && (n <=? 57)%Z then Some (n - 48)%Z else None.

Fixpoint parse_digits (acc : Z) (s : string) : option Z :=
  match s with
  | EmptyString => Some acc
  | String c s =>
      match digit c with
      | Some d =>
          let acc := (acc * 10 + d)%Z in
          if (acc <=? u64_max)%Z then parse_digits acc s else None
      | None => None
      end
  end.

Definition parse_u64 (s : string) : option Z :=
  match s with
  | EmptyString => None
  | String c rest =>
      if Ascii.eqb c "+"%char then
        match rest with EmptyString => None | _ => parse_digits 0 rest end
      else parse_digits 0 s
  end.

Module ExecSync.
Section s.
Context {W : Type} `{Libs} `{UuidErrors} `{Lowercase} `{ConversionErrors} `{CryptoLibs}.
Context `{Secure W} `{Sqlite W} `{System W} `{Runtime}.
Context `{Serde Json} `{Serde PayloadPlaintextDto.t} `{Serde CloudPrivateMetadata}.
Context `{Serde CloudMetadata}.
Import VaultService VaultSync.

(** ** The data for a sync *)

Definition status_in (statuses : gmap string SyncStatus.t) (r : StoredRecord) : SyncStatus.t :=
  default SyncStatus.Pending (statuses !! uuid_to_string (st_id r)).

Definition local_record (statuses : gmap string SyncStatus.t) (r : StoredRecord)
  : LocalRecordInfo :=
  mkLocalRecordInfo (uuid_to_string (st_id r)) (status_in statuses r) (st_version r).

(** The cloud records of the pending records; one that cannot be built or is not valid is
    left out. *)
Fixpoint build_uploads (v : VaultServiceImpl) (health : gmap Uuid RecordHealthState)
    (records : list StoredRecord) : io W (list CloudRecord) :=
  match records with
  | [] => io_ret []
  | r :: records =>
      let* c := build_cloud_record_for_sync v r (health !! st_id r) in
      let* rest := build_uploads v health records in
      io_ret match c with Ok c => c :: rest | Err _ => rest end
  end.

Definition valid_uploads (uploads : list CloudRecord) : list CloudRecord :=
  filter (λ c, is_ok (CloudRecord.validate c) = true) uploads.

Definition health_map (states : result (list RecordHealthState) VaultError.t)
  : gmap Uuid RecordHealthState :=
  match states with
  | Ok l => list_to_map (reverse ((λ s, (hs_record_id s, s)) <$> l))
  | Err _ => ∅
  end.

(** [vault.get_metadata(key).ok().flatten()] *)
Definition metadata_text (key : string) : io W (option string) :=
  let* r := get_metadata key in
  io_ret (mjoin (ok r)).

Definition read_version : io W Z :=
  let* text := metadata_text "metadata_version" in
  io_ret (default 0%Z (text ≫= parse_u64)).

Definition read_snapshot : io W (option CloudMetadata) :=
  let* text := metadata_text REMOTE_METADATA_SNAPSHOT_KEY in
  io_ret (text ≫= λ json, ok (CloudMetadata.deserialize_metadata json)).

Definition read_token : io W string :=
  let* token := metadata_text "vault_identity_token" in
  match token with
  | Some token => io_ret token
  | None =>
      let* id := metadata_text "vault_id" in
      io_ret (default "" id)
  end.

Definition list_stored_records_for_sync : ior W (list StoredRecord) VaultError.t :=
  db list_all_records.

(** The snapshot of an open, unlocked vault. *)
Definition vault_data (v : VaultServiceImpl) : io W (option SyncVaultData) :=
  let* stored := list_stored_records_for_sync in
  match stored with
  | Err _ => io_ret None
  | Ok stored_records =>
      let* statuses := load_sync_status_map in
      let local_records := local_record statuses <$> stored_records in
      let* states := db list_record_health_states in
      let pending := filter (λ r, status_in statuses r = SyncStatus.Pending) stored_records in
      let* uploads := build_uploads v (health_map states) pending in
      let* version := read_version in
      let* snapshot := read_snapshot in
      let* token := read_token in
      io_ret (Some (mkSyncVaultData local_records (valid_uploads uploads) version snapshot token))
  end.

Definition build_sync_vault_data (x : CommandExecutor) : io W (option SyncVaultData) :=
  match VaultRuntime.open_vault (ex_vault_runtime x) with
  | Err _ => io_ret None
  | Ok v =>
      if CryptoManager.is_unlocked (vs_crypto v) then vault_data v else io_ret None
  end.

(** ** The result of a sync

    Failures of these steps are logged and otherwise ignored. *)

Definition logged {A} (m : ior W A VaultError.t) : io W () :=
  let* _ := m in
  io_ret ().

Definition mark_synced (record_id : string) : io W () :=
  match uuid_parse record_id with
  | Some id => logged (mark_record_synced id)
  | None => io_ret ()
  end.

Fixpoint apply_downloads (v : VaultServiceImpl) (records : list CloudRecord) : io W () :=
  match records with
  | [] => io_ret ()
  | c :: records =>
      let* _ := logged (apply_downloaded_cloud_record v c) in
      let* _ := mark_synced (cr_id c) in
      apply_downloads v records
  end.

Fixpoint mark_uploaded (ids : list string) : io W () :=
  match ids with
  | [] => io_ret ()
  | id :: ids =>
      let* _ := mark_synced id in
      mark_uploaded ids
  end.

Fixpoint store_conflicts (conflicts : list (string * bytes)) : io W () :=
  match conflicts with
  | [] => io_ret ()
  | (record_id, data) :: conflicts =>
      let* _ :=
        match uuid_parse record_id with
        | Some id => logged (mark_record_conflict id data)
        | None => io_ret ()
        end in
      store_conflicts conflicts
  end.

Fixpoint store_health_states (states : list RecordHealthState) : io W () :=
  match states with
  | [] => io_ret ()
  | s :: states =>
      let* _ := logged (db (upsert_record_health_state s)) in
      store_health_states states
  end.

Definition store_metadata (m : CloudMetadata) : ior W () VaultError.t :=
  let! _ := set_metadata "metadata_version" (pretty (cm_metadata_version m)) in
  let! _ := set_metadata "vault_identity_token" (cm_vault_identity_token m) in
  let! json := lift (map_err (λ e, VaultError.CryptoError (SyncError.display e))
                      (CloudMetadata.serialize_metadata m)) in
  set_metadata REMOTE_METADATA_SNAPSHOT_KEY json.

(** What the open vault keeps of a result. *)
Definition store_result (v : VaultServiceImpl) (res : SyncResult) : io W () :=
  let* _ := apply_downloads v (sy_downloaded_records res) in
  let* _ := mark_uploaded (sy_uploaded_ids res) in
  let* _ := store_conflicts (hash_order (sy_conflict_data res)) in
  let* _ := store_health_states (sy_downloaded_health_states res) in
  let* _ :=
    if bool_decide (sy_downloaded_health_deleted res = []) then io_ret ()
    else logged (db (delete_record_health_states (sy_downloaded_health_deleted res))) in
  match sy_remote_metadata res with
  | Some m => logged (store_metadata m)
  | None => io_ret ()
  end.

(** src/executor/health.rs *)
Definition health_report_of (states : list RecordHealthState) : option HealthReport :=
  let having (P : RecordHealthState → bool) := hs_record_id <$> filter (λ s, P s = true) states in
  let flag (o : option bool) := bool_decide (o = Some true) in
  let duplicate_ids := having (λ s, match hs_duplicate_group_size s with
                                    | Some sz => (2 <=? sz)%Z | None => false end) in
  match states with
  | [] => None
  | _ =>
      Some (mkHealthReport (having (λ s, flag (hs_weak_password s)))
        (match duplicate_ids with [] => [] | _ => [duplicate_ids] end)
        (having (λ s, flag (hs_compromised s))) (having (λ s, flag (hs_expired s)))
        (length states))
  end.

Definition load_cached_health_report (x : CommandExecutor)
  : ior W (option HealthReport) VaultError.t :=
  let! _ := lift (VaultRuntime.open_vault (ex_vault_runtime x)) in
  let! states := db list_record_health_states in
  lift (Ok (health_report_of states)).

Definition sync_stats (report : SyncReport) : SyncStats :=
  let n := wrap32 (rp_uploaded report + rp_downloaded report) in
  mkSyncStats n 0 n (rp_conflicts report).

(** ** Handlers *)

Context `{SyncService W} `{CancelToken W}.

Definition sync_not_configured : CommandResult.t :=
  CommandResult.Error ErrorCode.SyncNotConfigured ErrorContext.new
    "error.sync_not_configured" "Sync is not configured.".

Definition finish_sync (x : CommandExecutor) (res : SyncResult)
  : io W (CommandResult.t * CommandExecutor) :=
  let* _ :=
    match VaultRuntime.open_vault (ex_vault_runtime x) with
    | Ok v => store_result v res
    | Err _ => io_ret ()
    end in
  let* report := load_cached_health_report x in
  let x := match report with
           | Ok o => x <| ex_health_report := o |>
           | Err _ => x
           end in
  io_ret (CommandResult.SyncCompleted (sync_stats (sy_report res)), x).

Definition handle_trigger_sync (x : CommandExecutor)
  : io W (CommandResult.t * CommandExecutor) :=
  if ex_cancelled x then io_ret (CommandResult.cancelled "sync", x)
  else
    let* data := build_sync_vault_data x in
    if ex_sync x then
      let* r := ss_sync data in
      let* cancelled := token_cancelled in
      match r with
      | Ok res =>
          if cancelled then io_ret (CommandResult.cancelled "sync", x)
          else finish_sync x res
      | Err e =>
          if cancelled || match e with SyncError.Cancelled _ => true | _ => false end
          then io_ret (CommandResult.cancelled "sync", x)
          else io_ret (service_error e "error.sync_failed"
                         ("Sync failed: " +:+ SyncError.display e), x)
      end
    else io_ret (sync_not_configured, x).

(** [ConflictResolution] *)
Inductive ConflictResolution : Set := KeepLocal | KeepRemote.

Definition strategy_of (r : ConflictResolution) : ResolutionStrategy.t :=
  match r with
  | KeepLocal => ResolutionStrategy.KeepLocal
  | KeepRemote => ResolutionStrategy.KeepRemote
  end.

Definition handle_resolve_conflict (x : CommandExecutor) (record_id : Uuid)
    (resolution : ConflictResolution) : io W CommandResult.t :=
  if ex_cancelled x then io_ret (CommandResult.cancelled "sync")
  else if negb (ex_sync x) then io_ret sync_not_configured
  else
    let* r := ss_resolve_conflict (uuid_to_string record_id) (strategy_of resolution) in
    io_ret match r with
           | Ok _ => CommandResult.ConflictResolved record_id
           | Err e => service_error e "error.conflict_resolve_failed"
                        ("Failed to resolve conflict: " +:+ SyncError.display e)
           end.

Definition handle_resolve_all_conflicts (x : CommandExecutor)
    (resolution : ConflictResolution) : io W CommandResult.t :=
  if ex_cancelled x then io_ret (CommandResult.cancelled "sync")
  else if negb (ex_sync x) then io_ret sync_not_configured
  else
    let* r := ss_resolve_all_conflicts (strategy_of resolution) in
    io_ret match r with
           | Ok count => CommandResult.AllConflictsResolved count
           | Err e => service_error e "error.conflict_resolve_all_failed"
                        ("Failed to resolve all conflicts: " +:+ SyncError.display e)
           end.

End s.
End ExecSync.

(** ** Properties *)

Section properties.
Context {W : Type} `{LibLaws} `{UuidErrors} `{Lowercase} `{ConversionErrors}.
Context `{CryptoLibs} `{SqliteLaws W} `{!RangeLaws W} `{HRt : Runtime} `{!RuntimeLaws}.
Context `{Serde Json} `{Serde PayloadPlaintextDto.t} `{Serde CloudPrivateMetadata}.
Context `{Serde CloudMetadata}.
Import VaultService VaultSync ExecSync.

Lemma mark_synced_ok id w w' :
  mark_record_synced id w = (Ok (), w') →
  records w' = records w ∧
  ∃ n, t_sync_state (tables w') !! uuid_to_string id =
    Some (sync_row SyncStatus.Synced None n (t_sync_state (tables w) !! uuid_to_string id)).
Proof.
  intros Hm. split.
  { revert Hm. apply tagged_keeps_records, keeps_map_err, keeps_upsert_sync. }
  unfold mark_record_synced, mark_sync_state_synced, upsert_sync_state, sqlite, db in Hm.
  apply io_map_err_ok, io_bind_eq in Hm as (n & w1 & E1 & Hm). apply io_map_err_ok, execute_ok in Hm.
  pose proof (keeps_timestamp_now _ _ _ E1) as T1. exists n.
  unfold sql_upsert_sync, referencing in Hm. case_bool_decide; [|done]. injection Hm as Hm.
  rewrite <- Hm, <- T1. cbn. apply lookup_insert_eq.
Qed.

(** A record whose remote entry has its version and is as the last snapshot has it is left
    alone by the next sync. *)
Lemma known_entry_left_alone c last remote id info :
  pl_last_remote_metadata c = Some last → cm_records last !! id = Some info →
  cm_records remote !! id = Some info →
  local_action c (cm_records remote)
    (mkLocalRecordInfo id SyncStatus.Synced (ri_version info)) = ConflictAction.NoAction.
Proof.
  intros Hl Hla Hi. unfold local_action. cbn. rewrite Hi, Z.eqb_refl. cbn.
  assert (PipelineContext.private_metadata_changed_since_last_snapshot c id info = false) as ->.
  { unfold PipelineContext.private_metadata_changed_since_last_snapshot. rewrite Hl. cbn.
    rewrite Hla. cbn. destruct (ri_private_metadata_checksum info); [|done].
    by rewrite bool_decide_eq_true_2. }
  rewrite andb_false_r. unfold ConflictManager.detect_conflicts. by rewrite Z.compare_refl.
Qed.

(** A download that fails is not tried again.  When storing a downloaded record fails,
    for the database or for locking memory say, the handler still marks the record as synced;
    its row stays as it was, and when the remote entry has the version of that row, as the
    entry of a record deleted on another device has, the next sync, which compares with the
    metadata of this one, does nothing for it: the deletion is lost on this device. *)
Lemma failed_download_forgotten v c id w e w1 w2 :
  uuid_parse (cr_id c) = Some id →
  apply_downloaded_cloud_record v c w = (Err e, w1) → records w1 = records w →
  mark_record_synced id w1 = (Ok (), w2) →
  apply_downloads v [c] w = ((), w2) ∧ records w2 = records w ∧
  (sr_sync_status <$> t_sync_state (tables w2) !! uuid_to_string id) =
    Some (SyncStatus.discriminant SyncStatus.Synced) ∧
  ∀ ctx last remote info, pl_last_remote_metadata ctx = Some last →
    cm_records last !! uuid_to_string id = Some info →
    cm_records remote !! uuid_to_string id = Some info →
    local_action ctx (cm_records remote)
      (mkLocalRecordInfo (uuid_to_string id) SyncStatus.Synced (ri_version info))
    = ConflictAction.NoAction.
Proof.
  intros Hid Ha Hrec Hm. pose proof (mark_synced_ok _ _ _ Hm) as [R2 [n Hs]]. split_and!.
  - cbn [apply_downloads]. unfold logged, mark_synced, io_bind, io_ret. rewrite Ha, Hid.
    unfold logged, io_bind, io_ret. by rewrite Hm.
  - congruence.
  - by rewrite Hs.
  - intros ctx last remote info. apply known_entry_left_alone.
Qed.

(** Only records of the table are listed for a sync. *)
Lemma stored_records_listed rows w l w' s :
  stored_records rows w = (Ok l, w') → s ∈ l →
  ∃ row, row ∈ rows ∧ uuid_parse (row_id row) = Some (st_id s).
Proof.
  intros Hr Hs. apply stored_records_ok in Hr.
  apply list_elem_of_lookup in Hs as [i Hi].
  destruct (Forall2_lookup_r _ _ _ _ _ Hr Hi) as (row & Hrow & tags & Hst).
  exists row. split; [by eapply list_elem_of_lookup_2|]. by apply to_stored_ok in Hst as [? _].
Qed.

Lemma listed_in_table w l w' s :
  list_stored_records_for_sync w = (Ok l, w') → map_Forall row_wf (records w) → s ∈ l →
  is_Some (records w !! uuid_to_string (st_id s)).
Proof.
  unfold list_stored_records_for_sync, list_all_records, select_records, sqlite, db.
  intros Hl Hwf Hs. apply io_map_err_ok, ior_bind_ok in Hl as (rows & w1 & E1 & Hl).
  apply io_map_err_ok, select_ok in E1. apply stored_records_listed with (s := s) in Hl
    as (row & Hrow & Hid); [|done].
  rewrite merge_sort_Permutation, E1 in Hrow. apply list_elem_of_filter in Hrow as [_ Hrow].
  apply list_elem_of_fmap in Hrow as ([key row'] & -> & Hin). apply elem_of_map_to_list in Hin.
  pose proof (Hwf _ _ Hin) as (Hr & (u & Hu & ->) & _). cbn in Hid.
  rewrite Hr, uuid_roundtrip in Hid by done. injection Hid as <-. by eexists.
Qed.

Lemma build_cloud_record_id v s h w c w' :
  build_cloud_record_for_sync v s h w = (Ok c, w') → cr_id c = uuid_to_string (st_id s).
Proof. unfold build_cloud_record_for_sync, crypto. intros Hb. by inv_runs. Qed.

Lemma build_uploads_ids v h l : ∀ w cs w' c,
  build_uploads v h l w = (cs, w') → c ∈ cs → ∃ s, s ∈ l ∧ cr_id c = uuid_to_string (st_id s).
Proof.
  induction l as [|s l IH]; intros w cs w' c; cbn [build_uploads].
  - intros [= <- _] Hc. by apply elem_of_nil in Hc.
  - intros (x & w1 & E1 & Hb)%io_bind_eq Hc. apply io_bind_eq in Hb as (rest & w2 & E2 & Hb).
    injection Hb as <- _. destruct x as [c'|e].
    + apply elem_of_cons in Hc as [->|Hc].
      * exists s. split; [by left|]. by eapply build_cloud_record_id.
      * destruct (IH _ _ _ _ E2 Hc) as (s' & ? & ?). exists s'. split; [by right|done].
    + destruct (IH _ _ _ _ E2 Hc) as (s' & ? & ?). exists s'. split; [by right|done].
Qed.

(** A record without a row is neither listed nor uploaded. *)
Lemma vault_data_records v w data w' id :
  vault_data v w = (Some data, w') → map_Forall row_wf (records w) → records w !! id = None →
  (id ∉ lr_record_id <$> vd_local_records data) ∧
  ∀ c, c ∈ vd_uploads data → cr_id c ≠ id.
Proof.
  unfold vault_data. intros Hv Hwf Hno. apply io_bind_eq in Hv as (r & w1 & E1 & Hv).
  destruct r as [l|e]; [|done]. apply io_bind_eq in Hv as (statuses & w2 & _ & Hv).
  apply io_bind_eq in Hv as (states & w3 & _ & Hv).
  apply io_bind_eq in Hv as (uploads & w4 & E4 & Hv).
  apply io_bind_eq in Hv as (version & w5 & _ & Hv).
  apply io_bind_eq in Hv as (snapshot & w6 & _ & Hv). apply io_bind_eq in Hv as (token & w7 & _ & Hv).
  injection Hv as <- _. cbn.
  assert (∀ s, s ∈ l → uuid_to_string (st_id s) ≠ id) as Hne.
  { intros s Hs <-. destruct (listed_in_table _ _ _ _ E1 Hwf Hs) as [row Hrow].
    by rewrite Hno in Hrow. }
  split.
  - rewrite <- list_fmap_compose. intros (s & -> & Hs)%list_elem_of_fmap. by apply (Hne s).
  - intros c [_ Hc]%list_elem_of_filter. destruct (build_uploads_ids _ _ _ _ _ _ _ E4 Hc)
      as (s & [_ Hs]%list_elem_of_filter & ->). by apply Hne.
Qed.

(** Destroying a record does not reach the cloud.  After a record was destroyed no
    tombstone of it is left to upload, and the next sync, which works on the vault's records,
    lists it for download again when the remote metadata still has it alive. *)
Lemma destroyed_record_returns v id w w1 data w2 ctx remote info o ctx' :
  map_Forall row_wf (records w) → Records.hard_delete_record v id w = (Ok (), w1) →
  vault_data v w1 = (Some data, w2) →
  pl_local_records ctx = vd_local_records data → undetected ctx →
  pl_remote_metadata ctx = Some remote →
  cm_records remote !! uuid_to_string id = Some info → ri_deleted info = false →
  detect ctx = (o, ctx') →
  (∀ c, c ∈ vd_uploads data → cr_id c ≠ uuid_to_string id) ∧
  uuid_to_string id ∈ pl_to_download ctx'.
Proof.
  intros Hrows Hd Hv Hctx Hun Hr Hi Hlive Hdet.
  assert (records w1 = delete (uuid_to_string id) (records w)) as Hgone.
  { destruct (hard_delete_rows _ _ _ _ _ Hd) as [[_ ?]|?]; done. }
  apply (vault_data_records _ _ _ _ (uuid_to_string id)) in Hv as [Hlist Hup].
  - split; [done|]. apply (detect_downloads ctx remote o ctx' _ Hr Hun Hdet). right.
    split; [|eauto]. unfold local_record_ids. by rewrite Hctx.
  - rewrite Hgone. by apply map_Forall_delete.
  - by rewrite Hgone, lookup_delete_eq.
Qed.

End properties.
