(* ===== verification/Transfer.v ===== *)
(** * Records across import and export

    What an encrypted backup gives back when it is restored or imported, and what the
    session of an import does with the items of a file. *)

From S2P Require Import Prelude Text Errors Env Types Storage Checkpoint Crypto Keystore Payload.
From S2P Require Import Pipeline Database Queries Vault Logic Records Tags Integrity.
From S2P Require Import Files Formats Backup Foreign ImportService Listing Executor.
From S2P Require Import Opening VaultSync VaultOps Lifecycle ImportExec.

(** ** The backup format *)

Definition as_okb (r : ExportRecord) : OkbRecord :=
  mkOkbRecord (xr_id r) (xr_credential_type r) (xr_name r) (xr_username r) (xr_password r)
    (xr_url r) (xr_notes r) (xr_tags r) (xr_is_favorite r) (xr_expires_at r) (xr_public_key r)
    (xr_private_key r) (xr_passphrase r) (xr_app_id r) (xr_secret_key r).

Definition as_okb_payload (p : ExportPayload) : OkbPayload :=
  mkOkbPayload (xp_version p) (xp_vault_id p) (xp_exported_at p) (as_okb <$> xp_records p).

(** The two payloads derive the same JSON: a struct that is written is read by a struct of
    the same fields. *)
Class OkbJson `{Serde ExportPayload} `{Serde OkbPayload} : Prop :=
  okb_json p s : to_json p = Ok s → from_json s = Ok (as_okb_payload p).

(** A ciphertext has at least the 16 bytes of its tag. *)
Class AeadTag `{CryptoLibs} : Prop :=
  aead_tag key nonce aad m c : aead_seal key nonce aad m = Ok c → 16 ≤ String.length c.

(** An item of a backup, by the record that was exported. *)
Definition backup_item `{Libs} (d : DecryptedRecord) : ParsedItem :=
  okb_item (as_okb (decrypted_record_to_export d)).

(** What a restore creates for a record. *)
Definition restored_params (d : DecryptedRecord) : CreateRecordParams :=
  mkCreateRecordParams (EncryptedPayload.credential_type (dr_payload d)) (dr_payload d)
    (dr_tags d) false None.

Lemma backup_item_params `{Libs} d : item_params (backup_item d) = restored_params d.
Proof.
  destruct d as [id fav exp cr up ver del dat tags p].
  destruct p as [? ? ? [] []|? ? ? [] []|? ? [] [] []|? []], exp; vm_compute; reflexivity.
Qed.

(** ** The layout of the file *)

Lemma substring_skip a b k m :
  String.substring (String.length a + k) m (a +:+ b) = String.substring k m b.
Proof. induction a as [|c a IH]; [done|]. cbn. apply IH. Qed.

Lemma slice_middle a b c from to :
  String.length a = from → String.length b = to - from → slice from to (a +:+ (b +:+ c)) = b.
Proof.
  intros <- Hb. unfold slice. rewrite <- (Nat.add_0_r (String.length a)) at 1.
  rewrite substring_skip, <- Hb. apply substring_app_l.
Qed.

Lemma slice_end a b from : String.length a = from → slice_from from (a +:+ b) = b.
Proof.
  intros <-. unfold slice_from. rewrite string_length_append.
  replace (String.length a + String.length b - String.length a) with (String.length b) by lia.
  rewrite <- (Nat.add_0_r (String.length a)) at 1. rewrite substring_skip. apply substring_all.
Qed.

Lemma okb_file_layout salt nonce c :
  String.length salt = SALT_LEN → String.length nonce = NONCE_LEN →
  let file := okb_file salt nonce c in
  String.length file = CIPHERTEXT_OFFSET + String.length c ∧
  from_le (as_bytes (slice 0 SALT_OFFSET file)) = OKB_VERSION ∧
  slice SALT_OFFSET NONCE_OFFSET file = salt ∧
  slice NONCE_OFFSET CIPHERTEXT_OFFSET file = nonce ∧
  slice_from CIPHERTEXT_OFFSET file = c.
Proof.
  intros Hs Hn file. unfold file, okb_file.
  assert (String.length (le32 OKB_VERSION) = SALT_OFFSET) as Hv by done.
  split_and!.
  - rewrite !string_length_append, Hv, Hs, Hn. reflexivity.
  - pose proof (slice_middle "" (le32 OKB_VERSION) (salt +:+ nonce +:+ c) 0 SALT_OFFSET) as E.
    rewrite string_app_nil in E. by rewrite E.
  - by apply slice_middle.
  - rewrite (string_app_assoc (le32 OKB_VERSION)).
    apply slice_middle; [|done]. by rewrite string_length_append, Hv, Hs.
  - rewrite !string_app_assoc. apply slice_end.
    by rewrite !string_length_append, Hv, Hs, Hn.
Qed.

Section backup.
Context {W : Type} `{LibLaws} `{CryptoLibLaws} `{!AeadTag} `{FsBytesLaws W}.
Context `{!Secure W} `{!SecureLaws W} `{!Serde ExportPayload} `{!Serde OkbPayload} `{!OkbJson}.

(** The file that a backup leaves behind. *)
Lemma backup_written payload password path w n w' :
  encrypt_and_write_okb payload password path w = (Ok n, w') →
  ∃ json salt nonce c dek,
    fs_files w' !! path = Some (okb_file salt nonce c) ∧ to_json payload = Ok json ∧
    String.length salt = SALT_LEN ∧ String.length nonce = NONCE_LEN ∧
    argon2_params Argon2Params.medium = Ok () ∧
    argon2id Argon2Params.medium password salt = Ok dek ∧
    aead_seal dek nonce "" json = Ok c.
Proof.
  unfold encrypt_and_write_okb. intros Hw.
  apply ior_bind_ok in Hw as (json & w1 & E1 & Hw). apply lift_ok in E1 as [E1 ->].
  apply map_err_ok in E1.
  apply io_bind_eq in Hw as (salt & w2 & E2 & Hw). apply os_random_length in E2.
  apply ior_bind_ok in Hw as (dek & w3 & E3 & Hw). apply io_map_err_ok in E3.
  unfold derive_key_locked, locked_generate in E3.
  apply ior_bind_ok in E3 as ([] & w4 & E4 & E3). apply lift_ok in E4 as [E4 ->].
  apply ior_bind_ok in E3 as (u5 & w5 & E5 & E3). apply lift_ok in E3 as [E3 ->].
  apply ior_bind_ok in Hw as ([c nonce] & w6 & E6 & Hw). apply io_map_err_ok in E6.
  unfold encrypt, encrypt_with_aad in E6.
  apply io_bind_eq in E6 as (nonce' & w7 & E7 & E6). apply os_random_length in E7.
  injection E6 as E6 <-. destruct (aead_seal dek nonce' "" json) as [c'|] eqn:Es; [|done].
  cbn in E6. injection E6 as -> ->.
  unfold write_atomically in Hw.
  apply ior_bind_ok in Hw as (u8 & w8 & E8 & Hw). apply io_map_err_ok, fs_write_ok in E8.
  apply ior_bind_ok in Hw as (u9 & w9 & E9 & Hw). apply io_map_err_ok in E9.
  apply lift_ok in Hw as [_ ->].
  eapply fs_rename_ok in E9; [|by rewrite E8, lookup_insert_eq].
  exists json, salt, nonce, c, dek. rewrite E9, lookup_insert_eq. done.
Qed.

(** The failures of reading a backup that is there, with the password that it has. *)
Definition backup_env (path : string) (e : ImportExportError.t) : Prop :=
  (∃ s, e = ImportExportError.FileReadError path s) ∨
  (∃ s, e = ImportExportError.DecryptionFailed s ∧ lock_error (W := W) s).

Lemma backup_read salt nonce c dek json payload path password w r w' :
  fs_files w !! path = Some (okb_file salt nonce c) → to_json payload = Ok json →
  String.length salt = SALT_LEN → String.length nonce = NONCE_LEN →
  argon2_params Argon2Params.medium = Ok () →
  argon2id Argon2Params.medium password salt = Ok dek → aead_seal dek nonce "" json = Ok c →
  parse_okb path (Some password) w = (r, w') →
  match r with
  | Ok items => items = okb_item <$> op_records (as_okb_payload payload)
  | Err e => backup_env path e
  end.
Proof.
  intros Hf Hj Hs Hn Hpar Hdek Hc Hr. unfold parse_okb in Hr.
  destruct (okb_file_layout salt nonce c Hs Hn) as (Hlen & Hver & Hsalt & Hnonce & Hct).
  apply aead_tag in Hc as Htag.
  unfold ior_bind at 1 in Hr. apply io_bind_eq in Hr as (data & w1 & E1 & Hr).
  unfold io_map_err in E1. apply io_bind_eq in E1 as (d & w1' & E1 & [= <- <-]).
  destruct d as [data|e]; cbn [map_err] in Hr; [|by injection Hr as <- <-; left; eauto].
  apply fs_read_bytes_ok in E1. rewrite Hf in E1. injection E1 as <-.
  cbv zeta in Hr. rewrite Hlen, Hver, Hsalt, Hnonce, Hct in Hr.
  rewrite (proj2 (Nat.ltb_ge _ _)) in Hr by lia. rewrite Z.eqb_refl in Hr. cbn [negb] in Hr.
  unfold ior_bind at 1 in Hr. cbn in Hr.
  unfold ior_bind at 1 in Hr. apply io_bind_eq in Hr as (k & w2 & E2 & Hr).
  unfold io_map_err in E2. apply io_bind_eq in E2 as (k' & w2' & E2 & [= <- <-]).
  unfold derive_key_locked, locked_generate in E2. rewrite Hpar, Hdek in E2. cbn in E2.
  unfold ior_bind at 1 in E2. apply io_bind_eq in E2 as (l & w3 & E3 & E2). destruct l as [u|e].
  - cbn in E2. injection E2 as <- <-. cbn in Hr.
    unfold decrypt, decrypt_with_aad in Hr. cbn in Hr.
    rewrite (aead_roundtrip _ _ _ _ _ Hc) in Hr. cbn in Hr.
    rewrite (okb_json _ _ Hj) in Hr. cbn in Hr. by injection Hr as <- _.
  - cbn in E2. injection E2 as <- <-. cbn in Hr. injection Hr as <- _. right.
    exists e. split; [done|]. unfold lock_error. eauto.
Qed.

(** C19: a backup restores every record.  After an encrypted backup was written, reading
    the file with the same password gives items from which a restore creates, in order,
    the payload of every record with all its fields, its type and its tags; the favourite
    mark and the expiry are not restored.  The only failures are those of reading the file
    and of locking memory. *)
Theorem backup_restores_records ds payload password path w n w1 w2 r w3 :
  xp_records payload = decrypted_record_to_export <$> ds →
  encrypt_and_write_okb payload password path w = (Ok n, w1) →
  fs_files w2 !! path = fs_files w1 !! path →
  parse_okb path (Some password) w2 = (r, w3) →
  match r with
  | Ok items => item_params <$> items = restored_params <$> ds
  | Err e => backup_env path e
  end.
Proof.
  intros Hds Hw Hf Hr.
  apply backup_written in Hw as (json & salt & nonce & c & dek & Hfile & Hj & Hs & Hn & Hp & Hd & Hc).
  rewrite <- Hf in Hfile. pose proof (backup_read _ _ _ _ _ _ _ _ _ _ _ Hfile Hj Hs Hn Hp Hd Hc Hr) as Hres.
  destruct r as [items|e]; [|done]. subst items. cbn [op_records as_okb_payload].
  rewrite Hds, <- !list_fmap_compose. apply list_fmap_ext. intros i d _. apply backup_item_params.
Qed.

End backup.

(** ** The session of an import *)

Section import.
Context {W : Type} `{Libs} `{Runtime} `{Lowercase} `{Uppercase} `{Chrono} `{Regex}.
Context `{Csv} `{Fs W} `{FsBytes W} `{System W}.

Local Abbreviation St := (ImportExportService W ExportScope.t).

(** An item that no rule of the source rejects. *)
Definition valid_item (source : ImportSource.t) (item : ParsedItem) : Prop :=
  first_failure (validate_item (pi_fields item) (get_rules_for_format source)) = None.

#[global] Instance valid_item_dec source item : Decision (valid_item source item).
Proof. unfold valid_item. apply _. Defined.

(** An item that is in the vault already, by the type that its fields suggest. *)
Definition duplicate_item (keys : gset ExistingRecordKey) (item : ParsedItem) : Prop :=
  let type := CredentialType.to_db_str (infer_credential_type (pi_fields item)) in
  item_to_key (mkParsedItem (pi_source_id item) (<["credential_type" := type]> (pi_fields item))
                 (pi_tags item)) ∈ keys.

#[global] Instance duplicate_item_dec keys item : Decision (duplicate_item keys item).
Proof. unfold duplicate_item. apply _. Defined.

#[global] Typeclasses Opaque valid_item duplicate_item.

Definition item_record (item : ParsedItem) : ImportableRecord :=
  mkImportableRecord (infer_credential_type (pi_fields item)) (pi_fields item) (pi_tags item) false.

(** No rule asks for a review. *)
Lemma evaluate_rule_no_review r key value f m :
  evaluate_rule r key value ≠ FieldValidation.NeedsReview f m.
Proof. unfold evaluate_rule. destruct (vr_rule_type r); repeat case_match; done. Qed.

Lemma no_warning fields rules : first_warning (validate_item fields rules) = None.
Proof.
  unfold first_warning, validate_item. induction rules as [|r rules IH]; [done|].
  rewrite fmap_cons. cbn [omap list_omap]. destruct (vr_field r) as [t|]; [|exact IH].
  destruct (evaluate_rule _ _ _) eqn:E; [exact IH| |exact IH].
  by apply evaluate_rule_no_review in E.
Qed.

Lemma add_item_passed source s item :
  let v := add_item (get_rules_for_format source) s item in
  is_item_passed v = is_item_passed s ++ [bool_decide (valid_item source item)] ∧
  is_review_items v = is_review_items s.
Proof.
  cbv zeta. case_bool_decide as Hv; unfold valid_item in Hv; unfold add_item; rewrite no_warning.
  - by rewrite Hv.
  - by destruct (first_failure _) as [[f m]|].
Qed.

Lemma validate_items_passed items source :
  let v := validate_items items (get_rules_for_format source) in
  is_item_passed v = (λ i, bool_decide (valid_item source i)) <$> items ∧ is_review_items v = [].
Proof.
  unfold validate_items. cut (∀ s, let v := foldl (add_item (get_rules_for_format source)) s items in
    is_item_passed v = is_item_passed s ++ ((λ i, bool_decide (valid_item source i)) <$> items) ∧
    is_review_items v = is_review_items s); [intros Hs; apply Hs|].
  induction items as [|item items IH]; intros s; cbn; [by rewrite app_nil_r|].
  destruct (IH (add_item (get_rules_for_format source) s item)) as [-> ->].
  destruct (add_item_passed source s item) as [-> ->]. by rewrite <- app_assoc.
Qed.

(** A mapped record carries its item. *)
Definition mapped_from (item : ParsedItem) (m : MappedRecord) : Prop :=
  ImportExport.importable m = item_record item ∧
  ∀ keys, item_to_key (ImportExport.for_duplicates m) ∈ keys ↔ duplicate_item keys item.

Lemma map_parsed_items_from items source w l w' :
  map_parsed_items items source w = (l, w') → Forall2 mapped_from items l.
Proof.
  revert w l w'. induction items as [|item items IH]; intros w l w' Hm; cbn in Hm.
  { injection Hm as <- <-. constructor. }
  apply io_bind_eq in Hm as (m & w1 & E1 & Hm). apply io_bind_eq in Hm as (l1 & w2 & E2 & Hm).
  injection Hm as <- <-. constructor; [|by eapply IH].
  unfold map_parsed_item in E1. apply io_bind_eq in E1 as (id & w3 & _ & [= <- <-]). done.
Qed.

(** The loop over the records, with what it is to do on each. *)
Definition tally_items (source : ImportSource.t) (keys : gset ExistingRecordKey)
    (items : list ParsedItem) (t : ImportExport.Tally) : ImportExport.Tally :=
  let wanted := filter (λ i, valid_item source i ∧ ¬ duplicate_item keys i) items in
  ImportExport.mkTally (ImportExport.ta_imported t + length wanted)
    (ImportExport.ta_skipped t + length (filter (λ i, valid_item source i ∧ duplicate_item keys i) items))
    (ImportExport.ta_validation_failed t + length (filter (λ i, ¬ valid_item source i) items))
    (ImportExport.ta_records t ++ (item_record <$> wanted)).

#[local] Ltac decide_all :=
  repeat first [rewrite decide_True by tauto | rewrite decide_False by tauto].

Lemma tally_one_item source keys item m pre pre' rest rest' t :
  mapped_from item m → length pre = length pre' →
  ImportExport.tally_one (pre ++ bool_decide (valid_item source item) :: rest)
    (pre' ++ bool_decide (item_to_key (ImportExport.for_duplicates m) ∈ keys) :: rest') (length pre) m t
  = tally_items source keys [item] t.
Proof.
  intros [Hi Hd] Hl. unfold ImportExport.tally_one, tally_items.
  rewrite list_lookup_middle by done. rewrite list_lookup_middle by done.
  rewrite !filter_cons, !filter_nil. specialize (Hd keys). rewrite (bool_decide_ext _ _ Hd).
  destruct (decide (valid_item source item)) as [Hv|Hv].
  - rewrite (bool_decide_eq_true_2 _ Hv), (bool_decide_eq_false_2 (Some true = Some false)) by done.
    destruct (decide (duplicate_item keys item)) as [Hk|Hk].
    + rewrite (bool_decide_eq_true_2 _ Hk), (bool_decide_eq_true_2 (Some true = Some true)) by done.
      decide_all. destruct t. cbn. rewrite app_nil_r. f_equal; lia.
    + rewrite (bool_decide_eq_false_2 _ Hk), (bool_decide_eq_false_2 (Some false = Some true)) by done.
      decide_all. destruct t. cbn. rewrite Hi. f_equal; lia.
  - rewrite (bool_decide_eq_false_2 _ Hv), (bool_decide_eq_true_2 (Some false = Some false)) by done.
    decide_all. destruct t. cbn. rewrite app_nil_r. f_equal; lia.
Qed.

Lemma tally_items_cons source keys item items t :
  tally_items source keys items (tally_items source keys [item] t)
  = tally_items source keys (item :: items) t.
Proof.
  unfold tally_items. rewrite !filter_cons, !filter_nil.
  destruct (decide (valid_item source item)), (decide (duplicate_item keys item));
    decide_all; cbn; rewrite ?app_nil_r, <- ?app_assoc; f_equal; cbn; lia.
Qed.

(** Every item is counted once. *)
Lemma tally_total source keys items :
  length (filter (λ i, valid_item source i ∧ ¬ duplicate_item keys i) items)
  + length (filter (λ i, valid_item source i ∧ duplicate_item keys i) items)
  + length (filter (λ i, ¬ valid_item source i) items) = length items.
Proof.
  induction items as [|item items IH]; [done|]. rewrite !filter_cons.
  destruct (decide (valid_item source item)), (decide (duplicate_item keys item));
    decide_all; cbn; lia.
Qed.

Lemma import_records_tally (progress : option (nat → nat → string → io W ())) total source keys items : ∀ records pre pre' t w t' w',
  Forall2 mapped_from items records → length pre = length pre' →
  ImportExport.import_records progress total
    (pre ++ ((λ i, bool_decide (valid_item source i)) <$> items))
    (pre' ++ ((λ m, bool_decide (item_to_key (ImportExport.for_duplicates m) ∈ keys)) <$> records))
    (length pre) records t w = (t', w') →
  t' = tally_items source keys items t.
Proof.
  induction items as [|item items IH]; intros records pre pre' t w t' w' Hm Hl Hr;
    inversion Hm as [|? m ? l Hi Hrest]; subst; cbn in Hr.
  { injection Hr as <- _. destruct t. unfold tally_items. cbn. by rewrite app_nil_r, !Nat.add_0_r. }
  apply io_bind_eq in Hr as (u & w1 & _ & Hr).
  rewrite tally_one_item in Hr by done. rewrite <- tally_items_cons.
  specialize (IH l (pre ++ [bool_decide (valid_item source item)])
    (pre' ++ [bool_decide (item_to_key (ImportExport.for_duplicates m) ∈ keys)])).
  rewrite !length_app, <- !app_assoc in IH. cbn in IH. rewrite Nat.add_comm in IH.
  eapply IH; [done|rewrite Hl; cbn; lia|exact Hr].
Qed.

End import.

Section session.
Context {W : Type} `{Libs} `{Runtime} `{Lowercase} `{Uppercase} `{Chrono} `{Regex}.
Context `{Csv} `{Fs W} `{FsBytes W} `{System W}.
Import ImportExport.

Local Abbreviation St := (ImportExportService W ExportScope.t).

Lemma import_session_found id session (s : St) w :
  ie_import_sessions s !! id = Some session →
  import_session id (s, w) = (Ok session, (s, w)).
Proof. intros Hs. unfold import_session, get_state, io_bind. cbn. by rewrite Hs. Qed.

Definition with_session (id : Uuid) (x : ImportSession) (s : St) : St :=
  s <| ie_import_sessions ::= <[id := x]> |>.

Lemma put_import_found id f session (s : St) w :
  ie_import_sessions s !! id = Some session →
  put_import id f (s, w) = ((), (with_session id (f session) s, w)).
Proof.
  intros Hs. unfold put_import, set_state, with_session, update. destruct s as [im ex reg]. cbn in *.
  assert (alter f id im = <[id := f session]> im) as ->; [|done].
  apply map_eq. intros i. destruct (decide (i = id)) as [->|Hi].
  - by rewrite lookup_alter_eq, Hs, lookup_insert_eq.
  - by rewrite lookup_alter_ne, lookup_insert_ne by done.
Qed.

Lemma set_status_found id status session (s : St) w :
  ie_import_sessions s !! id = Some session →
  set_import_status id status (s, w)
  = (Ok (), (with_session id (session <| im_status := status |>) s, w)).
Proof.
  intros Hs. unfold set_import_status.
  rewrite (ior_bind_run _ _ _ _ _ (import_session_found _ _ _ _ Hs)).
  by rewrite (io_bind_run _ _ _ _ _ (put_import_found _ _ _ _ _ Hs)).
Qed.

Lemma with_session_lookup id x (s : St) :
  ie_import_sessions (with_session id x s) !! id = Some x.
Proof. unfold with_session, update. destruct s. apply lookup_insert_eq. Qed.

Lemma with_session_other id x (s : St) id' :
  id ≠ id' → ie_import_sessions (with_session id x s) !! id' = ie_import_sessions s !! id'.
Proof. intros Hi. unfold with_session, update. destruct s. by apply lookup_insert_ne. Qed.

Lemma with_session_registry id x (s : St) :
  ie_parser_registry (with_session id x s) = ie_parser_registry s.
Proof. by destruct s. Qed.

(** What a validation that succeeds leaves in its session. *)
Lemma validate_file_ok id session parser items w' (s : St) w preview s1 w1 :
  ie_import_sessions s !! id = Some session →
  ie_parser_registry s !! im_source session = Some parser →
  fp_parse parser (im_file_path session) (im_decrypt_password session) (im_csv_mapping session) w
  = (Ok items, w') →
  validate_import_file id (s, w) = (Ok preview, (s1, w1)) →
  ∃ mapped, Forall2 mapped_from items mapped ∧
    ie_import_sessions s1 !! id = Some (session
      <| im_status := ImportSessionStatus.Validated |>
      <| im_validation_result :=
           Some (validate_items items (get_rules_for_format (im_source session))) |>
      <| im_mapped_records := mapped |>).
Proof.
  intros Hs Hp Hparse Hv. unfold validate_import_file in Hv.
  rewrite (ior_bind_run _ _ _ _ _ (import_session_found _ _ _ _ Hs)) in Hv.
  destruct (bool_decide (im_status session = _)); [cbn [negb] in Hv|done].
  rewrite (ior_bind_run _ _ _ _ _ (set_status_found _ _ _ _ _ Hs)) in Hv.
  set (s0 := with_session _ _ s) in Hv.
  unfold io_bind at 1, get_state in Hv. subst s0. rewrite with_session_registry, Hp in Hv.
  unfold io_bind at 1, world in Hv. rewrite Hparse in Hv.
  apply io_bind_eq in Hv as (mapped & [s2 w2] & E2 & Hv). unfold world in E2.
  destruct (map_parsed_items _ _ _) as [l w3] eqn:Em in E2. injection E2 as -> <- <-.
  apply io_bind_eq in Hv as (hs & [s4 w4] & E4 & Hv). unfold world in E4.
  destruct (headers_of _ _ _) as [h w5] in E4. injection E4 as -> <- <-.
  rewrite (ior_bind_run _ _ _ _ _ (import_session_found _ _ _ _ (with_session_lookup _ _ _))) in Hv.
  rewrite (io_bind_run _ _ _ _ _ (put_import_found _ _ _ _ _ (with_session_lookup _ _ _))) in Hv.
  injection Hv as _ <- _. exists mapped. split; [by eapply map_parsed_items_from|].
  by rewrite with_session_lookup.
Qed.

(** What an execution of a validated session does. *)
Lemma execute_import_run id keys notes progress session (s : St) w items r s1 w1 :
  ie_import_sessions s !! id = Some session →
  im_status session = ImportSessionStatus.Validated →
  im_validation_result session
    = Some (validate_items items (get_rules_for_format (im_source session))) →
  Forall2 mapped_from items (im_mapped_records session) →
  execute_import (mkImportParams id keys notes progress) (s, w) = (r, (s1, w1)) →
  ∃ millis x,
    let t := tally_items (im_source session) keys items (mkTally 0 0 0 []) in
    r = Ok (mkImportResult (ta_imported t) 0 (ta_skipped t) 0 (ta_validation_failed t) millis,
            ta_records t) ∧
    ie_import_sessions s1 !! id = Some x ∧ im_status x = ImportSessionStatus.Completed ∧
    im_mapped_records x = [].
Proof.
  intros Hs Hst Hv Hm He. unfold execute_import in He. cbn [ip_session_id] in He.
  rewrite (ior_bind_run _ _ _ _ _ (import_session_found _ _ _ _ Hs)) in He.
  rewrite (bool_decide_eq_true_2 _ Hst) in He. cbn [negb] in He.
  rewrite (ior_bind_run _ _ _ _ _ (set_status_found _ _ _ _ _ Hs)) in He.
  rewrite (ior_bind_run _ _ _ _ _ (import_session_found _ _ _ _ (with_session_lookup _ _ _))) in He.
  rewrite (io_bind_run _ _ _ _ _ (put_import_found _ _ _ _ _ (with_session_lookup _ _ _))) in He.
  set (s2 := with_session _ _ (with_session _ _ _)) in He.
  eassert (ie_import_sessions s2 !! id = Some _) as Hl by apply with_session_lookup.
  destruct (validate_items_passed items (im_source session)) as [Hpass Hrev].
  assert (reviews_of (session <| im_status := ImportSessionStatus.Importing |>) notes = []) as Hno.
  { unfold reviews_of. destruct notes; [|done]. change (im_validation_result _) with
      (im_validation_result session). by rewrite Hv. }
  change (im_validation_result (session <| im_status := _ |>)) with (im_validation_result session) in He.
  change (im_mapped_records (session <| im_status := _ |>)) with (im_mapped_records session) in He.
  cbn [ip_import_as_notes ip_existing_keys ip_progress_fn] in He. rewrite Hno, Hv in He.
  cbn [from_option review_ids length] in He. rewrite Hpass in He.
  unfold io_bind at 1, world at 1, io_ret at 1 in He.
  apply io_bind_eq in He as (start & [s3 w3] & E3 & He). unfold world in E3.
  destruct (monotonic_now w) in E3. injection E3 as -> <- <-.
  apply io_bind_eq in He as (t & [s4 w4] & E4 & He). unfold world in E4.
  destruct (import_records _ _ _ _ _ _ _ _) as [t' w5] eqn:Et in E4. injection E4 as -> <- <-.
  unfold detect_duplicates in Et. rewrite <- list_fmap_compose in Et.
  apply (import_records_tally _ _ _ _ _ _ [] []) in Et; [|done|done]. subst t.
  cbn [report_reviews] in He. unfold io_bind at 1, world at 1, io_ret at 1 in He.
  apply io_bind_eq in He as (stop & [s6 w6] & E6 & He). unfold world in E6.
  destruct (monotonic_now w5) in E6. injection E6 as -> <- <-.
  rewrite (ior_bind_run _ _ _ _ _ (set_status_found _ _ _ _ _ Hl)) in He.
  injection He as <- <- _. rewrite app_nil_r.
  eexists _, _. split; [done|]. split; [apply with_session_lookup|]. done.
Qed.

(** An import takes the valid items of its file.  When the file of a session was
    parsed to some items and validated, executing the session gives the entries of exactly
    those items that no rule of the source rejects and that are not in the vault already,
    in the order of the file, each with its fields, its tags and the type that its fields
    suggest.  The counters of the result are those of the items, whatever the caller asks
    about reviews, and the session is completed, so that it cannot be executed again. *)
Lemma import_takes_valid_items id session parser items w' (s : St) w preview s1 w1
    keys notes progress w2 r s2 w3 :
  ie_import_sessions s !! id = Some session →
  ie_parser_registry s !! im_source session = Some parser →
  fp_parse parser (im_file_path session) (im_decrypt_password session) (im_csv_mapping session) w
  = (Ok items, w') →
  validate_import_file id (s, w) = (Ok preview, (s1, w1)) →
  execute_import (mkImportParams id keys notes progress) (s1, w2) = (r, (s2, w3)) →
  let source := im_source session in
  let wanted := filter (λ i, valid_item source i ∧ ¬ duplicate_item keys i) items in
  (∃ res, r = Ok (res, item_record <$> wanted) ∧
     ir_imported res = length wanted ∧ ir_reviewed res = 0 ∧ ir_failed res = 0 ∧
     ir_skipped res = length (filter (λ i, valid_item source i ∧ duplicate_item keys i) items) ∧
     ir_validation_failed res = length (filter (λ i, ¬ valid_item source i) items) ∧
     ir_imported res + ir_skipped res + ir_validation_failed res = length items) ∧
  import_session_status id s2 = Some ImportSessionStatus.Completed.
Proof.
  intros Hs Hp Hparse Hv He source wanted.
  destruct (validate_file_ok _ _ _ _ _ _ _ _ _ _ Hs Hp Hparse Hv) as (mapped & Hm & Hs1).
  destruct (execute_import_run _ _ _ _ _ _ _ _ _ _ _ Hs1 eq_refl eq_refl Hm He)
    as (millis & x & Hr & Hs2 & Hst & _).
  split; [|unfold import_session_status; rewrite Hs2; cbn; by rewrite Hst].
  eexists. split; [exact Hr|]. split_and!; try done. apply tally_total.
Qed.

End session.

(** ** Importing a backup, and importing twice *)

Section commands.
Context {W : Type} `{Libs} `{Runtime} `{Lowercase} `{Uppercase} `{Chrono} `{Regex}.
Context `{UuidErrors} `{ConversionErrors} `{CryptoLibs} `{Csv}.
Context `{Secure W} `{Sqlite W} `{System W} `{Fs W} `{FsBytes W} `{CancelToken W}.
Context `{Serde Json} `{Serde PayloadPlaintextDto.t}.
Import ImportExport ImportExec.

(** An import of a backup leaves the secure notes out.  Of the records that an
    encrypted backup has, the import takes exactly those that have a name and are not
    secure notes: its rules know three of the four types, while the restore of the same
    file takes all of them. *)
Lemma backup_import_drops_notes (d : DecryptedRecord) :
  valid_item ImportSource.OpenKeyringBackup (backup_item d) ↔
  EncryptedPayload.name (dr_payload d) ≠ "" ∧
  EncryptedPayload.credential_type (dr_payload d) ≠ CredentialType.SecureNote.
Proof.
  unfold valid_item. cbn [get_rules_for_format]. set (name := EncryptedPayload.name (dr_payload d)).
  assert (field "name" (pi_fields (backup_item d)) = name ∧
    field "credential_type" (pi_fields (backup_item d))
    = CredentialType.to_db_str (EncryptedPayload.credential_type (dr_payload d))) as [En Et].
  { destruct d as [id fav exp cr up ver del dat tags p]. subst name.
    destruct p as [? ? ? [] []|? ? ? [] []|? ? [] [] []|? []], exp; vm_compute; done. }
  unfold validate_item, okb_rules, first_failure. cbn [fmap list_fmap vr_field required rule].
  unfold evaluate_rule. cbn [vr_rule_type vr_error_message required rule TargetField.field_key].
  rewrite En, Et. destruct (decide (name = "")) as [->|Hname].
  - cbn. naive_solver.
  - rewrite (bool_decide_eq_false_2 _ Hname).
    destruct (EncryptedPayload.credential_type _); cbn; naive_solver.
Qed.

Lemma import_records_skips (progress : option (nat → nat → string → io W ())) total passed dup :
  Forall (λ b, b = false) dup → ∀ records i t w t' w',
  import_records progress total passed dup i records t w = (t', w') →
  ta_skipped t' = ta_skipped t.
Proof.
  intros Hdup. induction records as [|r records IH]; intros i t w t' w' Hr; cbn in Hr.
  { by injection Hr as <- _. }
  apply io_bind_eq in Hr as (u & w1 & _ & Hr). apply IH in Hr as ->.
  unfold tally_one. destruct (bool_decide (passed !! i = _)); [done|].
  rewrite bool_decide_eq_false_2; [done|]. intros Hi. rewrite Forall_lookup in Hdup.
  by apply Hdup in Hi.
Qed.

Local Abbreviation St := (ImportExportService W ExportScope.t).

Lemma execute_import_skips id notes progress (s : St) w res recs s1 (w1 : W) :
  execute_import (mkImportParams id ∅ notes progress) (s, w) = (Ok (res, recs), (s1, w1)) →
  ir_skipped res = 0.
Proof.
  unfold execute_import. cbn [ip_session_id ip_import_as_notes ip_existing_keys ip_progress_fn].
  intros He. apply ior_bind_ok in He as (session & sw1 & _ & He).
  destruct (negb _); [done|].
  apply ior_bind_ok in He as (u2 & sw2 & _ & He). apply ior_bind_ok in He as (x & sw3 & _ & He).
  apply io_bind_eq in He as (u4 & sw4 & _ & He). apply io_bind_eq in He as (u5 & sw5 & _ & He).
  apply io_bind_eq in He as (start & sw6 & _ & He).
  apply io_bind_eq in He as (t & [s7 w7] & Et & He).
  destruct sw6 as [s6 w6]. unfold world in Et.
  destruct (import_records _ _ _ _ _ _ _ _) as [t' w8] eqn:E in Et. injection Et as -> _ _.
  apply import_records_skips in E.
  - apply io_bind_eq in He as (u8 & sw8 & _ & He). apply io_bind_eq in He as (stop & sw9 & _ & He).
    apply ior_bind_ok in He as (u10 & sw10 & _ & He). by injection He as <- _ _.
  - unfold detect_duplicates. apply Forall_forall. intros b (item & -> & _)%list_elem_of_fmap.
    apply bool_decide_eq_false_2. set_solver.
Qed.

Lemma validated_session_err session_id source path password mapping notes (s : St) w f sw :
  validated_session session_id source path password mapping notes (s, w) = (Err f, sw) →
  ∃ code context key text, f = CommandResult.Error code context key text.
Proof.
  unfold validated_session. destruct session_id; [done|]. intros Hr.
  unfold import_error, service_error in Hr.
  apply io_bind_eq in Hr as ([id|e] & sw1 & E1 & Hr).
  - apply io_bind_eq in Hr as ([p|e] & sw2 & E2 & Hr); [done|]. injection Hr as -> _.
    apply io_bind_eq in E2 as ([?|?] & ? & _ & [= <- _]). by do 4 eexists.
  - injection Hr as -> _. apply io_bind_eq in E1 as ([?|?] & ? & _ & [= <- _]). by do 4 eexists.
Qed.

(** An import never recognises what the vault has.  The command hands no key of the
    vault to the service, so nothing is skipped as a duplicate: importing a file again
    creates all of its records again. *)
Lemma import_never_skips x session_id source path password mapping notes (s : St) w
    imported reviewed skipped failed breakdown s1 w1 :
  handle_execute_import x session_id source path password mapping notes (s, w)
  = (CommandResult.ImportCompleted imported reviewed skipped failed breakdown, (s1, w1)) →
  skipped = 0 ∧ ∀ n, (SkipReason.Duplicate, n) ∉ breakdown.
Proof.
  unfold handle_execute_import. destruct (ex_cancelled x); [done|]. intros Hr.
  apply io_bind_eq in Hr as ([id|f] & [s2 w2] & E2 & Hr).
  2:{ injection Hr as -> _ _. by apply validated_session_err in E2 as (? & ? & ? & ? & ?). }
  apply io_bind_eq in Hr as (outcome & [s3 w3] & E3 & Hr).
  apply io_bind_eq in Hr as (cancelled & [s4 w4] & _ & Hr).
  destruct cancelled; [done|]. destruct outcome as [[res recs]|e]; [|done].
  apply execute_import_skips in E3. unfold world in Hr.
  destruct (finish_import _ _ _ _ _) as [out w5] eqn:Ef in Hr. injection Hr as -> _ _.
  unfold finish_import in Ef. apply io_bind_eq in Ef as ([c|] & w6 & _ & Ef); [|done].
  apply io_bind_eq in Ef as (u & w7 & _ & Ef). apply io_bind_eq in Ef as (b & w8 & _ & Ef).
  injection Ef as _ _ <- _ <- _. split; [done|]. intros n. unfold build_skip_breakdown.
  rewrite E3. cbn. destruct (ir_validation_failed res); [apply not_elem_of_nil|].
  by intros [=]%list_elem_of_singleton.
Qed.

End commands.

(** ** Restoring a database *)

(** A database that was opened is one that this program wrote, and reading a file does not
    change it. *)
Class OpeningLaws (W Conn : Type) `{SqliteLaws W} `{!Connections W Conn} `{!Fs W} : Prop := {
  conn_use_sound (c : Conn) w u w' : conn_use c w = (u, w') → sound w';
  fs_read_tables p w r w' : fs_read_to_string p w = (r, w') → tables w' = tables w;
}.

Section restore.
Context {W Conn : Type} `{LibLaws} `{Runtime} `{Lowercase} `{Uppercase} `{Chrono} `{Regex}.
Context `{UuidErrors} `{ConversionErrors} `{CryptoLibLaws} `{MigrationSql}.
Context `{SqliteLaws W} `{!SecureLaws W} `{!RangeLaws W} `{!Fs W} `{!DirFs W} `{!FsBytes W}.
Context `{!Connections W Conn} `{!OpeningLaws W Conn} `{!SymlinkMetadata W}.
Context `{!Serde Json} `{!Serde PayloadPlaintextDto.t} `{!SerdeLaws PayloadPlaintextDto.t}.
Context `{!JsonText PayloadPlaintextDto.t} `{!PayloadJson} `{!Serde OkbPayload}.
Import ImportExec.

(** A row of the vault that [v] reads as the record of [params]. *)
Definition holds_record (v : VaultServiceImpl) (w : W) (params : CreateRecordParams) (id : Uuid)
  : Prop :=
  ∃ c n t, t_records (tables w) !! uuid_to_string id = Some (new_row (created v params id c n t)) ∧
    holds_payload (vs_crypto v) c n (record_aad id) (cm_current (vs_crypto v)) (cp_payload params).

Lemma holds_record_mono v (w w' : W) params id :
  t_records (tables w) ⊆ t_records (tables w') →
  holds_record v w params id → holds_record v w' params id.
Proof. intros Hsub (c & n & t & Hr & Hp). exists c, n, t. eauto using lookup_weaken. Qed.

Lemma create_record_holds v params (w : W) id w' :
  sound w → Records.create_record v params w = (Ok id, w') →
  holds_record v w' params id ∧ t_records (tables w) ⊆ t_records (tables w') ∧
  t_records (tables w) !! uuid_to_string id = None.
Proof.
  intros [Hwf _] Hc. destruct (create_ok _ _ _ _ _ Hwf Hc) as (_ & _ & c & n & t & Hp & _ & _ & Hn & Hr & _).
  split_and!; [|rewrite Hr; by apply insert_subseteq|done].
  exists c, n, t. by rewrite Hr, lookup_insert_eq.
Qed.

Lemma create_items_errors v items : ∀ k e (w : W) k' e' w',
  create_items v items k e w = ((k', e'), w') → e ≤ e' ∧ k' + e' = k + e + length items.
Proof.
  induction items as [|item items IH]; intros k e w k' e' w' Hr; cbn in Hr.
  { injection Hr as <- <- <-. cbn. lia. }
  apply io_bind_eq in Hr as (r & w1 & _ & Hr). cbn [length].
  destruct r; apply IH in Hr; lia.
Qed.

(** Without an error, every item became a record of its own. *)
Lemma create_items_holds v items : ∀ k e (w : W) k' w',
  sound w → create_items v items k e w = ((k', e), w') →
  t_records (tables w) ⊆ t_records (tables w') ∧
  ∃ ids, Forall2 (λ item id, holds_record v w' (item_params item) id) items ids ∧
    NoDup (uuid_to_string <$> ids) ∧
    Forall (λ id, t_records (tables w) !! uuid_to_string id = None) ids.
Proof.
  induction items as [|item items IH]; intros k e w k' w' Hs Hr; cbn in Hr.
  { injection Hr as <- <-. split; [done|]. exists []. split_and!; constructor. }
  apply io_bind_eq in Hr as (r & w1 & E1 & Hr). destruct r as [id|err].
  2:{ apply create_items_errors in Hr. lia. }
  pose proof (sound_create _ _ _ _ _ E1 Hs) as Hs1.
  destruct (create_record_holds _ _ _ _ _ Hs E1) as (Hh & Hsub & Hnone).
  destruct (IH _ _ _ _ _ Hs1 Hr) as (Hsub' & ids & Hids & Hnd & Hfresh).
  split; [by etrans|]. exists (id :: ids). split_and!.
  - constructor; [by eapply holds_record_mono|done].
  - rewrite fmap_cons. constructor; [|done]. intros (id' & Heq & Hin)%list_elem_of_fmap.
    rewrite Forall_forall in Hfresh. specialize (Hfresh _ Hin). rewrite <- Heq in Hfresh.
    destruct Hh as (c & n & t & Hrow & _). congruence.
  - constructor; [done|]. eapply Forall_impl; [exact Hfresh|]. intros id' Hid'. cbn in Hid'.
    destruct (t_records (tables w) !! uuid_to_string id') eqn:Er; [|done].
    by rewrite (lookup_weaken _ _ _ _ Er Hsub) in Hid'.
Qed.

#[local] Hint Extern 0 (keeps tables (fs_read_to_string _)) => exact (fs_read_tables _) : keeps.

Lemma keeps_derive_locked password salt params : keeps tables (derive_key_locked password salt params).
Proof. unfold derive_key_locked, locked_generate. solve_keeps. Qed.
#[local] Hint Resolve keeps_derive_locked : keeps.

Lemma keeps_unlock v path cmk : keeps tables (VaultServiceImpl.unlock v path cmk).
Proof.
  unfold VaultServiceImpl.unlock, CryptoManager.unlock, KeyStore.unlock, KeyStore.open_document,
    KeyStore.faulty, locked_key. solve_keeps.
Qed.

Lemma begin_sound dir key (w : W) v g w' :
  Pending.begin_ (Conn := Conn) dir key w = (Ok (v, g), w') → sound w'.
Proof.
  unfold Pending.begin_. intros Hb. apply io_bind_eq in Hb as (ex & w1 & _ & Hb).
  apply ior_bind_ok in Hb as (conn & w2 & _ & Hb). apply io_bind_eq in Hb as (v' & w3 & E3 & Hb).
  apply lift_ok in Hb as [_ ->]. unfold VaultServiceImpl.new in E3.
  apply io_bind_eq in E3 as (u & w4 & E4 & E3). apply conn_use_sound in E4.
  apply io_bind_eq in E3 as (stored & w5 & E5 & E3).
  apply (keeps_map_err tables _ _ (query_tables _)) in E5.
  assert (tables w3 = tables w5) as T.
  { destruct (ok stored) as [[id|]|]; [by injection E3 as _ <-| |];
      apply io_bind_eq in E3 as (n & w6 & E6 & E3); apply new_v4_tables in E6;
      by injection E3 as _ <-. }
  unfold sound, on in *. by rewrite T, E5.
Qed.

Lemma read_backup_failed path password (w : W) failed w' :
  read_backup path password w = (Err failed, w') →
  failed ≠ CommandResult.DatabaseRestored DatabaseRecoverySource.Okb.
Proof.
  intros Hr ->. unfold read_backup in Hr.
  apply io_bind_eq in Hr as ([u|f] & w1 & E1 & Hr).
  - apply io_bind_eq in Hr as ([items|f] & w2 & E2 & Hr).
    + by destruct (bool_decide (items = [])).
    + injection Hr as -> _. apply io_bind_eq in E2 as ([?|?] & w3 & _ & E2); by simplify_eq/=.
  - injection Hr as -> _. unfold check_okb_path in E1.
    destruct (bool_decide (path = "")); [done|].
    destruct (negb _); [done|]. by apply io_bind_eq in E1 as ([] & w3 & _ & E1).
Qed.

(** The executor of a handler that did not commit. *)
Definition not_committed (x x' : CommandExecutor) : Prop :=
  ex_vault_runtime x' = ex_vault_runtime x ∨ ex_vault_runtime x' = VaultRuntime.Locked.

(** The vault of a restore that was committed. *)
Definition committed (items : list ParsedItem) (x' : CommandExecutor) (w' : W) : Prop :=
  ∃ v ids, ex_vault_runtime x' = VaultRuntime.Open v ∧ ex_vault_db_file_backed x' = true ∧
    Forall2 (λ item id, holds_record v w' (item_params item) id) items ids ∧
    NoDup (uuid_to_string <$> ids).

Lemma fill_pending_outcome x v g items (w : W) res x' w' :
  sound w → fill_pending x v g items w = ((res, x'), w') →
  (res = CommandResult.DatabaseRestored DatabaseRecoverySource.Okb ∧ items ≠ [] ∧
     committed items x' w') ∨
  (res ≠ CommandResult.DatabaseRestored DatabaseRecoverySource.Okb ∧ not_committed x x').
Proof.
  intros Hs Hf. unfold fill_pending in Hf. apply io_bind_eq in Hf as ([k e] & w1 & E1 & Hf).
  destruct (0 <? e) eqn:Ee; cbn [orb] in Hf; [|destruct (k =? 0) eqn:Ek].
  1, 2: unfold Pending.drop in Hf; apply io_bind_eq in Hf as (x1 & w2 & E2 & Hf);
    injection Hf as <- <- _; right; split; [done|];
    apply io_bind_eq in E2 as (u & w3 & _ & E2); injection E2 as <- _; by right.
  apply Nat.ltb_ge in Ee. apply Nat.eqb_neq in Ek. assert (e = 0) as -> by lia.
  injection Hf as <- <- <-. left. split; [done|].
  pose proof (create_items_errors _ _ _ _ _ _ _ _ E1) as [_ Hk].
  destruct (create_items_holds _ _ _ _ _ _ _ Hs E1) as (_ & ids & Hids & Hnd & _).
  split; [by intros ->; cbn in Hk; lia|]. exists v, ids. done.
Qed.

Lemma restore_into_outcome x pw items (w : W) res x' w' :
  restore_into_pending (Conn := Conn) x pw items w = (Ok (res, x'), w') →
  (res = CommandResult.DatabaseRestored DatabaseRecoverySource.Okb ∧ items ≠ [] ∧
     committed items x' w') ∨
  (res ≠ CommandResult.DatabaseRestored DatabaseRecoverySource.Okb ∧ not_committed x x').
Proof.
  intros Hr. unfold restore_into_pending, on_fault in Hr.
  apply io_bind_eq in Hr as ([ks|[e|]] & w1 & _ & Hr); [|by injection Hr as <- <- _; right; split; [|left]|done].
  apply io_bind_eq in Hr as ([key|e] & w2 & _ & Hr); [|by injection Hr as <- <- _; right; split; [|left]].
  apply io_bind_eq in Hr as ([[v g]|e] & w3 & E3 & Hr); [|by injection Hr as <- <- _; right; split; [|left]].
  apply begin_sound in E3. apply io_bind_eq in Hr as ([v'|f] & w4 & E4 & Hr).
  - apply keeps_unlock in E4. apply io_bind_eq in Hr as ([res' x1] & w5 & E5 & Hr).
    injection Hr as -> -> ->. eapply fill_pending_outcome; [|exact E5].
    unfold sound, on in *. by rewrite E4.
  - apply io_bind_eq in Hr as (x1 & w5 & E5 & Hr). destruct f as [e|]; [|done].
    injection Hr as <- <- _. right. split; [done|]. unfold Pending.drop in E5.
    apply io_bind_eq in E5 as (u & w6 & _ & E5). injection E5 as <- _. by right.
Qed.

(** C18: a restore is all or nothing.  When the handler reports that the database was
    restored, the executor has the new vault open, and every item of the backup is a
    record of its own in it that reads as the payload, the type and the tags of the item.
    With any other report the executor keeps the vault it had or is locked; it never opens
    a vault that was filled in part. *)
Theorem restore_all_or_nothing x path password master_password (w : W) res x' w' :
  handle_restore_database_from_okb (Conn := Conn) x path password master_password w
  = (Ok (res, x'), w') →
  (res = CommandResult.DatabaseRestored DatabaseRecoverySource.Okb ∧
     ∃ items w1, read_backup path password w = (Ok items, w1) ∧ items ≠ [] ∧
       committed items x' w') ∨
  (res ≠ CommandResult.DatabaseRestored DatabaseRecoverySource.Okb ∧ not_committed x x').
Proof.
  intros Hr. unfold handle_restore_database_from_okb in Hr.
  apply io_bind_eq in Hr as ([items|failed] & w1 & E1 & Hr); cycle 1.
  { injection Hr as <- <- _. right. split; [|by left]. by eapply read_backup_failed. }
  set (p := match master_password with Some pw => _ | None => _ end) in Hr.
  assert (ex_vault_runtime p.2 = ex_vault_runtime x) as Hx by by destruct master_password.
  destruct p as [[pw|] x1]; cbn in Hx; [|by injection Hr as <- <- _; right; split; [|left]].
  apply restore_into_outcome in Hr as [(-> & Hne & Hc)|(Hne & Hn)]; [left|right].
  - split; [done|]. exists items, w1. done.
  - split; [done|]. unfold not_committed in *. by rewrite Hx in Hn.
Qed.

End restore.
