(* ===== verification/Health.v ===== *)
(** * Health checks (src/services/health.rs, src/errors/mapping/health.rs,
    src/config/security.rs, src/commands/types.rs)

    The analysis of passwords: weak, duplicate, leaked, expired.  SHA-1, the hexadecimal
    printer and the HTTP client are interfaces. *)

From Stdlib Require Import Ascii.
From S2P Require Import Prelude Text Errors Env Types Pipeline Vault Password Rotation.

(** The crates [sha1] and [hex]. *)
Class HealthLibs : Type := {
  sha1 : bytes → bytes;
  hex_encode_upper : bytes → string;
}.

(** [agent.get(url).call()?.into_body().read_to_vec()?], with the text of the error. *)
Class Http (W : Type) : Type := http_get : string → ior W bytes string.

(** ** Errors *)

Module HealthError.
Inductive t : Set :=
| VaultNotUnlocked
| DecryptionFailed (message : string)
| HibpApiError (message : string)
| HibpRateLimited
| Disabled
| Internal (message : string).

Definition display (e : t) : string :=
  match e with
  | VaultNotUnlocked => "vault not unlocked"
  | DecryptionFailed m => "record decryption failed: " +:+ m
  | HibpApiError m => "HIBP API error: " +:+ m
  | HibpRateLimited => "HIBP rate limited"
  | Disabled => "health check disabled"
  | Internal m => "internal error: " +:+ m
  end.

Definition to_error_code (e : t) : ErrorCode.t :=
  match e with
  | VaultNotUnlocked => ErrorCode.ExecutorVaultLocked
  | DecryptionFailed _ => ErrorCode.CryptoDecryptionFailed
  | HibpApiError _ | Internal _ => ErrorCode.HealthHibpApiError
  | HibpRateLimited => ErrorCode.HealthHibpRateLimited
  | Disabled => ErrorCode.HealthCheckFailed
  end.
End HealthError.

#[export] Instance HealthError_service : ServiceError HealthError.t := {
  to_error_code := HealthError.to_error_code;
  to_error_context _ := ErrorContext.new;
  to_fallback_message := HealthError.display;
}.

(** ** Configuration *)

Module HealthCheckFrequency.
Inductive t : Set := OnStartup | Daily | Weekly.
End HealthCheckFrequency.

Record SecurityConfig : Set := mkSecurityConfig {
  sc_health_check_enabled : bool;
  sc_health_check_frequency : HealthCheckFrequency.t;
  sc_audit_enabled : bool;
  sc_audit_retention_days : Z;
  sc_rotation : RotationConfig;
}.

Definition default_security_config : SecurityConfig :=
  mkSecurityConfig true HealthCheckFrequency.OnStartup true 365 default_config.

(** ** Reports *)

Module HealthReport.

Definition empty : HealthReport := mkHealthReport [] [] [] [] 0.

Definition issues (r : HealthReport) : gset Uuid :=
  list_to_set (hp_weak_passwords r) ∪ list_to_set (concat (hp_duplicate_passwords r))
  ∪ list_to_set (hp_compromised r) ∪ list_to_set (hp_expired r).

Definition issue_count (r : HealthReport) : nat := size (issues r).
Definition has_issues (r : HealthReport) : bool := 0 <? issue_count r.

(** The first group of duplicates that has the record. *)
Definition group_of (r : HealthReport) (id : Uuid) : option (list Uuid) :=
  snd <$> list_find (λ group, id ∈ group) (hp_duplicate_passwords r).

Definition get_issue_for (r : HealthReport) (id : Uuid) : option HealthIssue.t :=
  if bool_decide (id ∈ hp_compromised r) then Some HealthIssue.Compromised
  else if bool_decide (id ∈ hp_weak_passwords r) then Some HealthIssue.Weak
  else
    match group_of r id with
    | Some group => Some (HealthIssue.Duplicate (length group))
    | None =>
        if bool_decide (id ∈ hp_expired r) then Some HealthIssue.Expired else None
    end.

End HealthReport.

(** ** Text *)

(** [str::lines] *)
Fixpoint lines (s : string) : list string :=
  match s with
  | EmptyString => []
  | String c s =>
      if Ascii.eqb c "010" then EmptyString :: lines s
      else if Ascii.eqb c "013" && match s with String d _ => Ascii.eqb d "010" | _ => false end
      then lines s
      else match lines s with
           | [] => [String c EmptyString]
           | l :: ls => String c l :: ls
           end
  end.

(** [line.split(':').next()] *)
Fixpoint before_colon (s : string) : string :=
  match s with
  | EmptyString => EmptyString
  | String c s => if Ascii.eqb c ":" then EmptyString else String c (before_colon s)
  end.

Fixpoint eq_ignore_ascii_case (s t : string) : bool :=
  match s, t with
  | EmptyString, EmptyString => true
  | String c s, String d t => Ascii.eqb (to_lower c) (to_lower d) && eq_ignore_ascii_case s t
  | _, _ => false
  end.

(** ** The analysis *)

Record PasswordEntry : Set := mkPasswordEntry {
  pe_id : Uuid;
  pe_password : string;
}.

Definition is_weak (level : StrengthLevel.t) : bool :=
  match level with
  | StrengthLevel.VeryWeak | StrengthLevel.Weak => true
  | _ => false
  end.

Definition detect_weak_passwords (entries : list PasswordEntry) : list Uuid :=
  pe_id <$> filter (λ e, is_weak (ps_level (evaluate_strength (pe_password e))) = true) entries.

Section analysis.
Context {W : Type} `{Libs} `{HealthLibs} `{Runtime} `{System W} `{Http W}.

Definition hash_group (groups : gmap string (list Uuid)) (e : PasswordEntry)
  : gmap string (list Uuid) :=
  partial_alter (λ group, Some (default [] group ++ [pe_id e])) (sha256 (pe_password e)) groups.

Definition detect_duplicate_passwords (entries : list PasswordEntry) : list (list Uuid) :=
  filter (λ group, 2 ≤ length group) (hash_order (foldl hash_group ∅ entries)).*2.

Definition check_hibp_single_password (password : string) : ior W bool HealthError.t :=
  let hash_hex := hex_encode_upper (sha1 password) in
  let prefix := String.substring 0 5 hash_hex in
  let suffix := String.substring 5 (String.length hash_hex - 5) hash_hex in
  let! body := io_map_err HealthError.HibpApiError
                 (http_get ("https://api.pwnedpasswords.com/range/" +:+ prefix)) in
  let! body_str := lift (map_err HealthError.HibpApiError (from_utf8 body)) in
  lift (Ok (existsb (λ line, eq_ignore_ascii_case (before_colon line) suffix) (lines body_str))).

(** The calls after the first, each after a pause; a failed call is skipped. *)
Fixpoint check_hibp_rest (entries : list PasswordEntry) : io W (list Uuid) :=
  match entries with
  | [] => io_ret []
  | e :: entries =>
      let* _ := sleep (100 * nanos_per_milli) in
      let* r := check_hibp_single_password (pe_password e) in
      let* rest := check_hibp_rest entries in
      io_ret match r with Ok true => pe_id e :: rest | _ => rest end
  end.

Definition check_hibp_batch (entries : list PasswordEntry) : io W (list Uuid) :=
  match entries with
  | [] => io_ret []
  | e :: entries =>
      let* r := check_hibp_single_password (pe_password e) in
      let* rest := check_hibp_rest entries in
      io_ret match r with Ok true => pe_id e :: rest | _ => rest end
  end.

Definition expired_at (n : Instant) (r : StoredRecord) : bool :=
  negb (st_deleted r) && match st_expires_at r with Some e => (e <? n)%Z | None => false end.

Definition detect_expired_records (records : list StoredRecord) : io W (list Uuid) :=
  let* n := now in
  io_ret (st_id <$> filter (λ r, expired_at n r = true) records).

Definition should_run (config : SecurityConfig) (last_check : option Instant) : io W bool :=
  if negb (sc_health_check_enabled config) then io_ret false
  else
    let* n := now in
    io_ret match last_check with
           | None => true
           | Some last =>
               let elapsed := Z.quot (n - last) nanos_per_sec in
               match sc_health_check_frequency config with
               | HealthCheckFrequency.OnStartup => true
               | HealthCheckFrequency.Daily => (24 * 3600 <? elapsed)%Z
               | HealthCheckFrequency.Weekly => (7 * 24 * 3600 <? elapsed)%Z
               end
           end.

(** ** The service: [http_agent] is whether there is an agent *)

Record HealthServiceImpl : Set := mkHealthServiceImpl { http_agent : bool }.

Definition check_hibp_single (service : HealthServiceImpl) (password : string)
  : ior W bool HealthError.t :=
  if http_agent service then check_hibp_single_password password
  else lift (Err (HealthError.HibpApiError "offline mode")).

Definition is_login (r : StoredRecord) : bool :=
  negb (st_deleted r) && bool_decide (st_credential_type r = CredentialType.Login).

(** The passwords that decrypt. *)
Fixpoint decrypt_entries {E} (decrypt : Uuid → ior W string E) (records : list StoredRecord)
  : io W (list PasswordEntry) :=
  match records with
  | [] => io_ret []
  | r :: records =>
      let* password := decrypt (st_id r) in
      let* rest := decrypt_entries decrypt records in
      io_ret match password with
             | Ok password => mkPasswordEntry (st_id r) password :: rest
             | Err _ => rest
             end
  end.

Definition run_full_check (service : HealthServiceImpl) (records : list StoredRecord)
    (decrypt_password : Uuid → ior W string string) : io W HealthReport :=
  let login_records := filter (λ r, is_login r = true) records in
  let* entries := decrypt_entries decrypt_password login_records in
  let* compromised :=
    if http_agent service then check_hibp_batch entries else io_ret [] in
  let* expired := detect_expired_records records in
  io_ret (mkHealthReport (detect_weak_passwords entries) (detect_duplicate_passwords entries)
            compromised expired (length login_records)).

End analysis.

(** ** Properties *)

Lemma filter_ext_in {A} (P Q : A → Prop) `{!∀ x, Decision (P x), !∀ x, Decision (Q x)} (l : list A) :
  (∀ x, x ∈ l → P x ↔ Q x) → filter P l = filter Q l.
Proof.
  induction l as [|x l IH]; intros Hl; [done|]. rewrite !filter_cons.
  rewrite IH by (intros y Hy; apply Hl; by right).
  destruct (decide (P x)) as [HP|HP], (decide (Q x)) as [HQ|HQ]; try done;
    exfalso; apply Hl in HP || apply Hl in HQ; try done; by left.
Qed.

(** The records that have a password. *)
Definition sharing (password : string) (entries : list PasswordEntry) : list Uuid :=
  pe_id <$> filter (λ e, pe_password e = password) entries.

Section properties.
Context `{Libs} `{HR : Runtime} `{!RuntimeLaws}.

Definition with_hash (h : string) (entries : list PasswordEntry) : list Uuid :=
  pe_id <$> filter (λ e, sha256 (pe_password e) = h) entries.

Lemma groups_by_hash entries h :
  foldl hash_group ∅ entries !! h =
    (if bool_decide (with_hash h entries = []) then None else Some (with_hash h entries)).
Proof.
  induction entries as [|e entries IH] using rev_ind; [done|].
  rewrite foldl_snoc. unfold with_hash in *. rewrite filter_app, fmap_app.
  unfold hash_group at 1. destruct (decide (sha256 (pe_password e) = h)) as [Hh|Hh].
  - rewrite <- Hh at 1. rewrite lookup_partial_alter_eq, filter_cons_True, filter_nil by done.
    rewrite Hh, IH. cbn. case_bool_decide as Hnil;
      rewrite bool_decide_eq_false_2 by (by intros [_ ?]%app_eq_nil); [by rewrite Hnil|done].
  - rewrite lookup_partial_alter_ne by done. rewrite filter_cons_False, filter_nil by done.
    cbn. by rewrite app_nil_r.
Qed.

Lemma detected_groups entries g :
  g ∈ detect_duplicate_passwords entries ↔
    ∃ h, g = with_hash h entries ∧ 2 ≤ length g.
Proof.
  unfold detect_duplicate_passwords. rewrite list_elem_of_filter, list_elem_of_fmap. split.
  - intros (Hlen & [h l] & -> & Hin). rewrite hash_order_perm in Hin.
    apply elem_of_map_to_list in Hin. rewrite groups_by_hash in Hin. case_bool_decide; [done|].
    injection Hin as Hin. exists h. by rewrite <- Hin in *.
  - intros (h & -> & Hlen). split; [done|]. exists (h, with_hash h entries). split; [done|].
    rewrite hash_order_perm. apply elem_of_map_to_list. rewrite groups_by_hash.
    case_bool_decide as Hnil; [|done]. rewrite Hnil in Hlen. cbn in Hlen. lia.
Qed.

(** Duplicate detection finds exactly the passwords that are used twice.  As long as no
    two different passwords among the entries collide under SHA-256, the groups reported are
    exactly the records of each password that at least two of the entries have. *)
Lemma duplicate_groups entries g :
  (∀ e1 e2, e1 ∈ entries → e2 ∈ entries →
    sha256 (pe_password e1) = sha256 (pe_password e2) → pe_password e1 = pe_password e2) →
  g ∈ detect_duplicate_passwords entries ↔
    ∃ password, g = sharing password entries ∧ 2 ≤ length g.
Proof.
  intros Hinj.
  assert (∀ e, e ∈ entries → with_hash (sha256 (pe_password e)) entries =
    sharing (pe_password e) entries) as Hsame.
  { intros e He. unfold with_hash, sharing. f_equal. apply filter_ext_in. intros e' He'.
    split; [by intros ?%Hinj|by intros ->]. }
  rewrite detected_groups. split.
  - intros (h & -> & Hlen). destruct (with_hash h entries) as [|i l] eqn:E; [cbn in Hlen; lia|].
    assert (i ∈ with_hash h entries) as Hi by (rewrite E; by left).
    apply list_elem_of_fmap in Hi as (e & -> & [<- He]%list_elem_of_filter).
    exists (pe_password e). split; [|done]. by rewrite <- E, Hsame.
  - intros (password & -> & Hlen). destruct (sharing password entries) as [|i l] eqn:E;
      [cbn in Hlen; lia|].
    assert (i ∈ sharing password entries) as Hi by (rewrite E; by left).
    apply list_elem_of_fmap in Hi as (e & -> & [<- He]%list_elem_of_filter).
    exists (sha256 (pe_password e)). split; [|done]. by rewrite <- E, Hsame.
Qed.

End properties.
