(* ===== verification/HealthExec.v ===== *)
(** * The health commands (src/executor/health.rs, src/executor/execute.rs,
    src/executor/vault.rs, src/executor/record.rs)

    Running a health check in the background, storing its report, and reading it back. *)

From stdpp Require Import sorting.
From S2P Require Import Prelude Errors Env Types Pipeline Crypto Keystore Payload Password.
From S2P Require Import Database Queries Vault Records Logic Integrity Executor Rotation ExecSync Health.

(** A snapshot of a change (src/types/health.rs). *)
Record HealthStateDelta : Set := mkHealthStateDelta {
  hd_record_id : Uuid;
  hd_before : option RecordHealthState;
  hd_after : option RecordHealthState;
}.

(** ** Which records need a call *)

Definition should_skip_hibp (health_state : option RecordHealthState) (record_version : Z) : bool :=
  match health_state with
  | Some state =>
      (hs_record_version state =? record_version)%Z
      && bool_decide (hs_compromised state = Some true)
  | None => false
  end.

Fixpoint partition_entries_for_hibp (entries : list PasswordEntry)
    (record_versions : gmap Uuid Z) (health_states : gmap Uuid RecordHealthState)
  : list Uuid * list PasswordEntry :=
  match entries with
  | [] => ([], [])
  | entry :: entries =>
      let version := default 0%Z (record_versions !! pe_id entry) in
      let '(skipped_ids, entries_to_check) :=
        partition_entries_for_hibp entries record_versions health_states in
      if should_skip_hibp (health_states !! pe_id entry) version
      then (pe_id entry :: skipped_ids, entries_to_check)
      else (skipped_ids, entry :: entries_to_check)
  end.

(** ** From a report to health states *)

(** [map.insert(id, group.len())] for the members of each group, in order. *)
Definition dup_size_map (groups : list (list Uuid)) : gmap Uuid Z :=
  foldl (λ m group, foldl (λ m id, <[id := Z.of_nat (length group)]> m) m group) ∅ groups.

Definition project_record (report : HealthReport) (evaluated_at : Instant) (rec : StoredRecord)
  : RecordHealthState :=
  mkRecordHealthState (st_id rec) (st_version rec) (Some evaluated_at)
    (Some (bool_decide (st_id rec ∈ hp_weak_passwords report)))
    (dup_size_map (hp_duplicate_passwords report) !! st_id rec)
    (Some (bool_decide (st_id rec ∈ hp_compromised report)))
    (Some (bool_decide (st_id rec ∈ hp_expired report))).

Definition project_health_report_to_states (records : list StoredRecord)
    (report : HealthReport) (evaluated_at : Instant) : list RecordHealthState :=
  project_record report evaluated_at <$> records.

Definition health_state_changed (before after : RecordHealthState) : bool :=
  negb (bool_decide (hs_weak_password before = hs_weak_password after))
  || negb (bool_decide (hs_duplicate_group_size before = hs_duplicate_group_size after))
  || negb (bool_decide (hs_compromised before = hs_compromised after))
  || negb (bool_decide (hs_expired before = hs_expired after)).

Definition health_delta (old_map : gmap Uuid RecordHealthState) (after : RecordHealthState)
  : option HealthStateDelta :=
  let before := old_map !! hs_record_id after in
  let changed := match before with Some b => health_state_changed b after | None => true end in
  if changed then Some (mkHealthStateDelta (hs_record_id after) before (Some after)) else None.

(** ** The report in the record list (executor/record.rs) *)

Definition populate_health_fields (records : list TuiRecord) (report : option HealthReport)
  : list TuiRecord :=
  match report with
  | None => records
  | Some report =>
      (λ r, mkTuiRecord (tr_id r) (tr_credential_type r) (tr_name r) (tr_subtitle r)
              (tr_is_favorite r)
              (bool_decide (tr_id r ∈ hp_expired report)) (tr_expires_at r)
              (bool_decide (tr_id r ∈ hp_weak_passwords report))
              (bool_decide (tr_id r ∈ hp_compromised report))
              (Z.of_nat ∘ length <$> HealthReport.group_of report (tr_id r))
              (tr_created_at r) (tr_updated_at r) (tr_deleted r) (tr_deleted_at r)
              (tr_tags r) (tr_sync_status r)) <$> records
  end.

(** What the background task of a check works on. *)
Record HealthTask : Set := mkHealthTask {
  ht_weak_passwords : list Uuid;
  ht_duplicate_passwords : list (list Uuid);
  ht_expired : list Uuid;
  ht_total_checked : nat;
  ht_skipped_compromised : list Uuid;
  ht_entries_to_check : list PasswordEntry;
}.

(** How the task ends: cancelled, given up because nobody listens, or with the signal to the
    executor. *)
Inductive HealthTaskOutcome : Set :=
| TaskCancelled
| TaskAbandoned
| TaskReported (report : HealthReport).

(** [tx.send(Message::HealthCheckProgress { current, total }).await], and whether the
    channel is open. *)
Class ProgressChannel (W : Type) : Type := send_progress : nat → nat → io W bool.

Module HealthExec.
Section s.
Context {W : Type} `{Libs} `{UuidErrors} `{Lowercase} `{ConversionErrors} `{CryptoLibs}.
Context `{Secure W} `{Sqlite W} `{System W} `{Runtime}.
Context `{Serde Json} `{Serde PayloadPlaintextDto.t}.
Context `{HealthLibs} `{Http W} `{CancelToken W} `{ProgressChannel W} `{DateTimeParse}.
Import VaultService.

Definition open_vault (x : CommandExecutor) : result VaultServiceImpl VaultError.t :=
  VaultRuntime.open_vault (ex_vault_runtime x).

Definition list_all_stored_records : ior W (list StoredRecord) VaultError.t :=
  db list_active_records.

(** ** Storing a report *)

Definition persist_health_report (x : CommandExecutor) (report : HealthReport)
    (evaluated_at : Instant) : ior W (list HealthStateDelta) VaultError.t :=
  let! _ := lift (open_vault x) in
  let! records := list_all_stored_records in
  let! old_states := db list_record_health_states in
  let old_map := ExecSync.health_map (Ok old_states) in
  let new_states := project_health_report_to_states records report evaluated_at in
  let deltas := omap (health_delta old_map) new_states in
  let! _ := db (replace_record_health_states new_states) in
  lift (Ok deltas).

Definition schedule_health_resync_for_records (x : CommandExecutor)
    (deltas : list HealthStateDelta) : ior W () VaultError.t :=
  if bool_decide (deltas = []) then lift (Ok ())
  else
    let! _ := lift (open_vault x) in
    Records.mark_records_pending_sync (hd_record_id <$> deltas).

(** A value that is not a timestamp counts as missing. *)
Definition get_last_health_check_at : ior W (option Instant) VaultError.t :=
  let! raw := get_metadata LAST_HEALTH_CHECK_AT_KEY in
  lift (Ok (raw ≫= λ s, ok (datetime_parse s))).

Definition handle_internal_health_check_completed (x : CommandExecutor) (report : HealthReport)
  : io W (CommandResult.t * CommandExecutor) :=
  let* evaluated_at := now in
  let* r := persist_health_report x report evaluated_at in
  let* _ :=
    match r with
    | Ok deltas =>
        let* _ := schedule_health_resync_for_records x deltas in
        match open_vault x with
        | Ok _ => ExecSync.logged (set_last_health_check_at evaluated_at)
        | Err _ => io_ret ()
        end
    | Err _ => io_ret ()
    end in
  let* n := now in
  io_ret (CommandResult.HealthCheckCompleted report,
          x <| ex_health_report := Some report |> <| ex_last_health_check_time := Some n |>).

(** Unlocking schedules a check that is due (the result), or brings the report back. *)
Definition schedule_health_check_after_unlock (security : SecurityConfig) (x : CommandExecutor)
  : io W (bool * CommandExecutor) :=
  match open_vault x with
  | Err _ => io_ret (false, x)
  | Ok _ =>
      let* last := get_last_health_check_at in
      match last with
      | Err _ => io_ret (false, x)
      | Ok last_check =>
          let* due := should_run security last_check in
          if due then
            let* sent := try_send in
            io_ret (sent, x)
          else
            let* report := ExecSync.load_cached_health_report x in
            io_ret (false,
              match report with
              | Ok (Some report) =>
                  x <| ex_health_report := Some report |>
                    <| ex_last_health_check_time := last_check |>
              | _ => x
              end)
      end
  end.

(** ** A check *)

Definition decrypt_password (v : VaultServiceImpl) (id : Uuid) : ior W string VaultError.t :=
  Records.decrypt_field v id FieldSelector.Password.

(** Steps 2 to 4 of the handler: what the task gets. *)
Definition prepare_task (v : VaultServiceImpl) (records : list StoredRecord) : io W HealthTask :=
  let login_records := filter (λ r, is_login r = true) records in
  let* entries := decrypt_entries (decrypt_password v) login_records in
  let* expired := detect_expired_records records in
  let* states := db list_record_health_states in
  let health_map := ExecSync.health_map states in
  let record_versions : gmap Uuid Z :=
    list_to_map (reverse ((λ r, (st_id r, st_version r)) <$> records)) in
  let '(skipped_compromised, entries_to_check) :=
    partition_entries_for_hibp entries record_versions health_map in
  io_ret (mkHealthTask (detect_weak_passwords entries) (detect_duplicate_passwords entries)
            expired (length entries) skipped_compromised entries_to_check).

(** The handler's result, and the task that it spawns. *)
Definition handle_run_health_check (x : CommandExecutor) (security : SecurityConfig)
    (force : bool) : io W (CommandResult.t * option HealthTask) :=
  if ex_cancelled x then io_ret (CommandResult.cancelled "health_check", None)
  else
    let* run :=
      if force then io_ret true else should_run security (ex_last_health_check_time x) in
    if negb run then io_ret (CommandResult.HealthCheckSkipped, None)
    else
      match open_vault x with
      | Err e =>
          io_ret (service_error e "error.vault_not_available"
                    ("Vault is not available: " +:+ VaultError.display e), None)
      | Ok v =>
          let* records := list_all_stored_records in
          match records with
          | Err e =>
              io_ret (service_error e "error.list_records_failed"
                        ("Failed to list records for health check: " +:+ VaultError.display e),
                      None)
          | Ok records =>
              let* task := prepare_task v records in
              io_ret (CommandResult.HealthCheckStarted, Some task)
          end
      end.

(** One call in its own blocking task; an error and a panic count as not compromised. *)
Definition hibp_call (service : HealthServiceImpl) (e : PasswordEntry) : io W bool :=
  if task_panics (uuid_to_string (pe_id e)) then io_ret false
  else
    let* r := check_hibp_single service (pe_password e) in
    io_ret match r with Ok b => b | Err _ => false end.

(** The loop of the task; its ticker, which spaces the calls, only delays. *)
Fixpoint hibp_loop (service : HealthServiceImpl) (total i : nat) (entries : list PasswordEntry)
    (compromised : list Uuid) : io W (result (list Uuid) HealthTaskOutcome) :=
  let* cancelled := token_cancelled in
  if cancelled then io_ret (Err TaskCancelled)
  else
    match entries with
    | [] => io_ret (Ok compromised)
    | entry :: entries =>
        let* leaked := hibp_call service entry in
        let* open := send_progress (i + 1) total in
        if open then
          hibp_loop service total (i + 1) entries
            (if leaked then compromised ++ [pe_id entry] else compromised)
        else io_ret (Err TaskAbandoned)
    end.

Definition run_task (service : HealthServiceImpl) (task : HealthTask) : io W HealthTaskOutcome :=
  let* r := hibp_loop service (length (ht_entries_to_check task)) 0 (ht_entries_to_check task)
              (ht_skipped_compromised task) in
  io_ret match r with
         | Ok compromised =>
             TaskReported (mkHealthReport (ht_weak_passwords task) (ht_duplicate_passwords task)
                             compromised (ht_expired task) (ht_total_checked task))
         | Err outcome => outcome
         end.

Definition hibp_failed (what : string) : CommandResult.t :=
  CommandResult.Error ErrorCode.HealthHibpApiError ErrorContext.new "error.hibp_check_failed" what.

Definition handle_check_hibp (service : HealthServiceImpl) (x : CommandExecutor)
    (record_id : Uuid) : io W CommandResult.t :=
  if ex_cancelled x then io_ret (CommandResult.cancelled "hibp_check")
  else
    let* password :=
      let! v := lift (open_vault x) in
      decrypt_password v record_id in
    match password with
    | Err e =>
        io_ret (CommandResult.Error ErrorCode.CryptoDecryptionFailed ErrorContext.new
                  "error.decrypt_field_failed"
                  ("Failed to decrypt password for HIBP check: " +:+ VaultError.display e))
    | Ok password =>
        if task_panics (uuid_to_string record_id)
        then io_ret (hibp_failed ("HIBP check task panicked: " +:+ join_error))
        else
          let* r := check_hibp_single service password in
          io_ret match r with
                 | Ok c => CommandResult.HibpCheckCompleted record_id c
                 | Err e => hibp_failed ("HIBP check failed: " +:+ HealthError.display e)
                 end
    end.

End s.
End HealthExec.

(** ** Properties *)

Section properties.
Context {W : Type} `{LibLaws} `{UuidErrors} `{Lowercase} `{ConversionErrors}.
Context `{CryptoLibs} `{SqliteLaws W} `{HRt : Runtime} `{!RuntimeLaws}.
Context `{Serde Json} `{Serde PayloadPlaintextDto.t}.
Context `{HealthLibs} `{Http W} `{CancelToken W} `{ProgressChannel W} `{DateTimeParse}.
Import VaultService HealthExec.

(** *** The table of health states *)

Definition state_row (s : RecordHealthState) : string * HealthStateRow :=
  (uuid_to_string (hs_record_id s), health_row s).

Lemma insert_health_err l e : foldl sql_insert_health (Err e) l = Err e.
Proof. by induction l. Qed.

Lemma inserted_health l : ∀ t t',
  foldl sql_insert_health (Ok t) l = Ok t' →
  t_records t' = t_records t ∧
  map_to_list (t_health t') ≡ₚ (state_row <$> l) ++ map_to_list (t_health t).
Proof.
  induction l as [|s l IH]; intros t t'; cbn [foldl]; [by intros [= <-]|].
  destruct (sql_insert_health (Ok t) s) as [t1|e] eqn:E; [|by rewrite insert_health_err].
  intros [Hr Hm]%IH. unfold sql_insert_health, sql_upsert_health, referencing in E. cbn in E.
  case_bool_decide as Hnew; [done|]. case_bool_decide; [|done]. injection E as <-. cbn in *.
  split; [done|]. rewrite Hm, map_to_list_insert by (by apply eq_None_not_Some).
  cbn. apply Permutation_sym, Permutation_middle.
Qed.

Lemma replace_states_ok l w u w' :
  db (replace_record_health_states l) w = (Ok u, w') →
  records w' = records w ∧ map_to_list (t_health (tables w')) ≡ₚ state_row <$> l.
Proof.
  unfold replace_record_health_states, sqlite, db, records.
  intros Hr%io_map_err_ok%io_map_err_ok%execute_ok. unfold sql_replace_health in Hr. inv_ok Hr.
  simplify_eq. match goal with E : foldl _ _ _ = _ |- _ => apply inserted_health in E as [-> Hm] end.
  split; [done|]. rewrite Hm. cbn. by rewrite map_to_list_empty, app_nil_r.
Qed.

Lemma list_states_ok w l w' :
  db list_record_health_states w = (Ok l, w') →
  tables w' = tables w ∧ ∃ rows, rows ≡ₚ map_to_list (t_health (tables w)) ∧
    Forall2 (λ row s, to_health_state row = Ok s) rows l.
Proof.
  unfold list_record_health_states, sqlite, db. intros Hl%io_map_err_ok.
  apply ior_bind_ok in Hl as (rows & w1 & E & Hl). apply lift_ok in Hl as [Hl <-].
  apply io_map_err_ok in E. pose proof (select_tables _ _ _ _ E) as Ht. apply select_ok in E.
  split; [done|]. exists (merge_sort (by_key text_le fst) rows).
  split; [by rewrite merge_sort_Permutation, E|].
  revert Hl. generalize (merge_sort (by_key text_le fst) rows) as k. clear.
  intros k. revert l. induction k as [|row k IH]; intros l; cbn [to_health_states].
  - intros [= <-]. constructor.
  - intros Hl. inv_ok Hl. simplify_eq. constructor; [done|]. by apply IH.
Qed.

(** A state that the columns can hold. *)
Definition storable (s : RecordHealthState) : Prop :=
  (hs_record_id s < 2 ^ 128)%N ∧ is_u64 (hs_record_version s) ∧
  default 0%Z (hs_duplicate_group_size s) = wrap64 (default 0%Z (hs_duplicate_group_size s)).

(** The same state, apart from the fraction of a second of its evaluation. *)
Definition same_state (s s' : RecordHealthState) : Prop :=
  hs_record_id s' = hs_record_id s ∧ hs_record_version s' = hs_record_version s ∧
  hs_weak_password s' = hs_weak_password s ∧
  hs_duplicate_group_size s' = hs_duplicate_group_size s ∧
  hs_compromised s' = hs_compromised s ∧ hs_expired s' = hs_expired s ∧
  (hs_evaluated_at s = None ↔ hs_evaluated_at s' = None).

Lemma wrap_as_i64 z : is_u64 z → wrap64 (as_i64 z) = z.
Proof.
  intros Hz. unfold as_i64, wrap64. unfold is_u64 in Hz. destruct (Z.ltb_spec z (2 ^ 63)).
  - apply Z.mod_small. lia.
  - rewrite <- (Z.mod_small z (2 ^ 64)) at 2 by lia.
    rewrite <- (Z_mod_plus_full (z - 2 ^ 64) 1 (2 ^ 64)). f_equal. lia.
Qed.

Lemma nonzero_b2z b : nonzero (Z.b2z b) = b.
Proof. by destruct b. Qed.

Lemma row_reads s s' : storable s → to_health_state (state_row s) = Ok s' → same_state s s'.
Proof.
  intros (Hid & Hv & Hd) Hr. unfold state_row, to_health_state in Hr. cbn in Hr.
  rewrite uuid_roundtrip in Hr by done. cbn in Hr. inv_ok Hr. simplify_eq.
  unfold same_state. cbn. split_and!; try done.
  - by apply wrap_as_i64.
  - destruct (hs_weak_password s) as [[]|]; done.
  - destruct (hs_duplicate_group_size s) as [d|]; [|done]. cbn in *. f_equal.
    apply wrap_as_i64. rewrite Hd. apply wrap64_range.
  - destruct (hs_compromised s) as [[]|]; done.
  - destruct (hs_expired s) as [[]|]; done.
  - destruct (hs_evaluated_at s) as [n|]; cbn in *; [|by simplify_eq].
    match goal with E : map_err _ _ = Ok _ |- _ => apply map_err_ok in E; unfold transpose in E;
      inv_ok E end. by simplify_eq.
Qed.

(** Replacing the states and reading them back gives them, in some order. *)
Lemma states_roundtrip l w u w1 k w2 :
  Forall storable l → db (replace_record_health_states l) w = (Ok u, w1) →
  db list_record_health_states w1 = (Ok k, w2) →
  ∃ l', l' ≡ₚ l ∧ Forall2 same_state l' k.
Proof.
  intros Hs [_ Hm]%replace_states_ok [_ (rows & Hrows & Hk)]%list_states_ok.
  rewrite Hm in Hrows. apply Permutation_map_inv in Hrows as (l' & -> & Hl').
  exists l'. split; [by symmetry|]. apply Forall2_fmap_l in Hk.
  assert (Forall storable l') as Hs' by by rewrite <- Hl'.
  clear Hl'. induction Hk as [|s s' l' k Hr Hk IH]; [constructor|].
  inversion_clear Hs'. constructor; [|by apply IH]. by apply row_reads.
Qed.

(** *** The records of a check *)

(** The record is in the vault and not in the trash, with this version. *)
Definition active (w : W) (id : Uuid) (version : Z) : Prop :=
  (id < 2 ^ 128)%N ∧ ∃ row, records w !! uuid_to_string id = Some row ∧ row_deleted row = 0%Z ∧
    version = wrap64 (row_version row).

(** The rows behind the list of active records. *)
Lemma active_rows_ok w l w' :
  list_all_stored_records w = (Ok l, w') →
  tables w' = tables w ∧ ∃ rows,
    (∀ row, row ∈ rows ↔ row_deleted row = 0%Z ∧ ∃ key, records w !! key = Some row) ∧
    Forall2 (λ row s, ∃ tags, RecordRow.to_stored_record row tags = Ok s) rows l.
Proof.
  unfold list_all_stored_records, list_active_records, db. intros Hl%io_map_err_ok.
  assert (keeps tables (select_records (W := W) (λ r, (row_deleted r =? 0)%Z)
    (merge_sort (by_key later row_updated_at)))) as Hk.
  { unfold select_records, sqlite. solve_keeps. }
  split; [by eapply Hk|]. clear Hk. unfold select_records, sqlite in Hl.
  apply ior_bind_ok in Hl as (rows & w1 & E & Hl). apply io_map_err_ok, select_ok in E.
  apply stored_records_ok in Hl. eexists. split; [|exact Hl]. intros row.
  rewrite merge_sort_Permutation, E, list_elem_of_filter, Z.eqb_eq, list_elem_of_fmap.
  apply and_iff_compat_l. split.
  - intros ([key row'] & -> & Hin%elem_of_map_to_list). by exists key.
  - intros (key & Hkey). exists (key, row). by rewrite elem_of_map_to_list.
Qed.

Lemma active_records_ok w l w' :
  list_all_stored_records w = (Ok l, w') → map_Forall row_wf (records w) →
  tables w' = tables w ∧ ∀ id version,
    (∃ s, s ∈ l ∧ st_id s = id ∧ st_version s = version) ↔ active w id version.
Proof.
  intros (Hk & rows & Hrows & Hl)%active_rows_ok Hwf. split; [done|].
  assert (∀ row s tags, (∃ key, records w !! key = Some row) →
    RecordRow.to_stored_record row tags = Ok s →
    records w !! uuid_to_string (st_id s) = Some row ∧ (st_id s < 2 ^ 128)%N ∧
    st_version s = wrap64 (row_version row)) as Hst.
  { intros row s tags (key & Hkey) (Hp & _ & _ & _ & _ & _ & _ & _ & Hv)%to_stored_ok.
    destruct (Hwf _ _ Hkey) as (Hid & (u & Hu & ->) & _).
    rewrite Hid, uuid_roundtrip in Hp by done. by injection Hp as <-. }
  intros id version. split.
  - intros (s & (i & Hi)%list_elem_of_lookup & <- & <-).
    destruct (Forall2_lookup_r _ _ _ _ _ Hl Hi) as (row & Hrow & tags & Hs).
    apply list_elem_of_lookup_2, Hrows in Hrow as [Hdel Hkey].
    destruct (Hst _ _ _ Hkey Hs) as (? & ? & ?). split; [done|]. by exists row.
  - intros (Hid & row & Hrow & Hdel & ->).
    assert (row ∈ rows) as Hin by (apply Hrows; eauto).
    apply list_elem_of_lookup in Hin as [i Hi].
    destruct (Forall2_lookup_l _ _ _ _ _ Hl Hi) as (s & Hs & tags & Hto).
    exists s. split; [by eapply list_elem_of_lookup_2|].
    destruct (Hst _ _ _ (ex_intro _ _ Hrow) Hto) as (Hrow' & Hlt & Hv). split; [|done].
    apply to_stored_ok in Hto as [Hp _]. destruct (Hwf _ _ Hrow) as (Hrid & _).
    rewrite Hrid, uuid_roundtrip in Hp by done. by injection Hp as <-.
Qed.

(** *** Groups of duplicates *)

Lemma member_sizes (group : list Uuid) (n : Z) (m : gmap Uuid Z) id :
  foldl (λ m id, <[id := n]> m) m group !! id =
    if bool_decide (id ∈ group) then Some n else m !! id.
Proof.
  revert m. induction group as [|x group IH]; intros m; [done|]. cbn [foldl]. rewrite IH.
  destruct (decide (id ∈ group)) as [Hin|Hout].
  - rewrite !bool_decide_eq_true_2; [done|by right|done].
  - rewrite (bool_decide_eq_false_2 _ Hout). destruct (decide (id = x)) as [->|Hne].
    + rewrite lookup_insert_eq, bool_decide_eq_true_2; [done|by left].
    + rewrite lookup_insert_ne by done. rewrite bool_decide_eq_false_2; [done|].
      by intros [?|?]%elem_of_cons.
Qed.

Lemma dup_size groups id :
  match dup_size_map groups !! id with
  | Some n => ∃ group, group ∈ groups ∧ id ∈ group ∧ n = Z.of_nat (length group)
  | None => ∀ group, group ∈ groups → id ∉ group
  end.
Proof.
  induction groups as [|g groups IH] using rev_ind.
  { unfold dup_size_map. cbn. rewrite lookup_empty. set_solver. }
  unfold dup_size_map in *. rewrite foldl_snoc, member_sizes.
  case_bool_decide as Hin; [exists g; set_solver|].
  destruct (_ !! id) as [n|]; [|set_solver]. destruct IH as (group & ? & ? & ?). set_solver.
Qed.

(** *** Storing a report *)

(** Every group of duplicates is one, and of a size that fits. *)
Definition groups_ok (report : HealthReport) : Prop :=
  ∀ group, group ∈ hp_duplicate_passwords report →
    (2 ≤ Z.of_nat (length group) < 2 ^ 64)%Z.

Lemma projected_storable report t s :
  (st_id s < 2 ^ 128)%N → is_u64 (st_version s) → groups_ok report →
  storable (project_record report t s).
Proof.
  intros Hid Hv Hg. split_and!; [done|done|]. cbn. pose proof (dup_size (hp_duplicate_passwords report) (st_id s)) as Hd.
  destruct (_ !! st_id s) as [n|]; [|done]. destruct Hd as (group & Hin & _ & ->). cbn.
  rewrite wrap64_small; [done|]. apply Hg in Hin. unfold is_u64. lia.
Qed.

(** What the states of the database are after a report was stored: one for each record that
    is not in the trash, with its version and the verdicts of the report. *)
Lemma persisted_states x report t w deltas w1 states w2 :
  map_Forall row_wf (records w) → groups_ok report →
  persist_health_report x report t w = (Ok deltas, w1) →
  db list_record_health_states w1 = (Ok states, w2) →
  records w1 = records w ∧
  ∃ recs, NoDup (st_id <$> recs) ∧ (∀ id version, (∃ s, s ∈ recs ∧ st_id s = id ∧ st_version s = version) ↔
             active w id version) ∧
    Forall2 (λ r s, same_state (project_record report t r) s) recs states.
Proof.
  unfold persist_health_report. intros Hwf Hg Hp Hl.
  apply ior_bind_ok in Hp as (v & w0 & E1 & Hp). apply lift_ok in E1 as [_ <-].
  apply ior_bind_ok in Hp as (recs & w3 & E2 & Hp). apply active_records_ok in E2 as [T2 Hact]; [|done].
  apply ior_bind_ok in Hp as (old & w4 & E3 & Hp). apply list_states_ok in E3 as [T3 _].
  apply ior_bind_ok in Hp as (u & w5 & E4 & Hp). apply lift_ok in Hp as [_ <-].
  assert (Forall storable (project_health_report_to_states recs report t)) as Hs.
  { apply Forall_fmap, Forall_forall. intros s Hs. cbn.
    destruct (proj1 (Hact (st_id s) (st_version s))) as (Hid & row & _ & _ & Hv); [by exists s|].
    apply projected_storable; [done| |done]. rewrite Hv. apply wrap64_range. }
  pose proof (replace_states_ok _ _ _ _ E4) as [R4 M4].
  split; [rewrite R4; unfold records; congruence|].
  destruct (states_roundtrip _ _ _ _ _ _ Hs E4 Hl) as (l' & Hl' & Hk).
  unfold project_health_report_to_states in Hl'. symmetry in Hl'.
  apply symmetry, Permutation_map_inv in Hl' as (recs' & -> & Hrecs).
  exists recs'. split_and!.
  - rewrite <- Hrecs. apply (NoDup_fmap_1 uuid_to_string).
    pose proof (NoDup_fst_map_to_list (t_health (tables w1))) as Hnd. rewrite M4 in Hnd.
    replace (uuid_to_string <$> (st_id <$> recs)) with
      (state_row <$> project_health_report_to_states recs report t).*1; [done|].
    unfold project_health_report_to_states. by rewrite <- !list_fmap_compose.
  - intros id version. rewrite <- Hact. by setoid_rewrite Hrecs.
  - exact (proj1 (Forall2_fmap_l _ _ _ _) Hk).
Qed.

(** *** Reading a report back *)

Definition live (w : W) (id : Uuid) : Prop := ∃ version, active w id version.

(** A list made from the states by a test that tells what the report says. *)
Lemma having_iff (w : W) report t recs states (P : RecordHealthState → Prop)
    `{!∀ s, Decision (P s)} (Q : Uuid → Prop) :
  (∀ id version, (∃ s, s ∈ recs ∧ st_id s = id ∧ st_version s = version) ↔ active w id version) →
  Forall2 (λ r s, same_state (project_record report t r) s) recs states →
  (∀ r s, same_state (project_record report t r) s → P s ↔ Q (st_id r)) →
  ∀ id, id ∈ hs_record_id <$> filter P states ↔ Q id ∧ live w id.
Proof.
  intros Hact Hall HPQ id. rewrite list_elem_of_fmap. split.
  - intros (s & -> & [HP [i Hi]%list_elem_of_lookup]%list_elem_of_filter).
    destruct (Forall2_lookup_r _ _ _ _ _ Hall Hi) as (r & Hr & Hs).
    pose proof Hs as (-> & _). cbn. split; [by apply (HPQ _ _ Hs)|].
    exists (st_version r). apply Hact. exists r. split; [by eapply list_elem_of_lookup_2|done].
  - intros [HQ (version & (r & [i Hi]%list_elem_of_lookup & <- & _)%Hact)].
    destruct (Forall2_lookup_l _ _ _ _ _ Hall Hi) as (s & Hs & Hsame). exists s.
    split; [by destruct Hsame as (-> & _)|]. apply list_elem_of_filter.
    split; [by apply (HPQ _ _ Hsame)|by eapply list_elem_of_lookup_2].
Qed.

Lemma list_find_first {A} (P : A → Prop) `{!∀ x, Decision (P x)} x (l : list A) :
  P x → list_find P (x :: l) = Some (0, x).
Proof. intros Hx. cbn. by rewrite decide_True. Qed.

Lemma in_some_group groups id :
  (∃ n, dup_size_map groups !! id = Some n) ↔ id ∈ concat groups.
Proof.
  rewrite list_elem_of_In, in_concat. setoid_rewrite <- list_elem_of_In. pose proof (dup_size groups id) as Hd.
  destruct (_ !! id) as [n|]; [|naive_solver]. destruct Hd as (g & ? & ? & _). naive_solver.
Qed.

Lemma same_ids report t recs states :
  Forall2 (λ r s, same_state (project_record report t r) s) recs states →
  hs_record_id <$> states = st_id <$> recs.
Proof. induction 1 as [|r s recs states (Hs & _) _ IH]; [done|]. cbn. by rewrite IH, Hs. Qed.

Lemma health_map_lookup states s :
  NoDup (hs_record_id <$> states) → s ∈ states →
  ExecSync.health_map (Ok states) !! hs_record_id s = Some s.
Proof.
  intros Hnd Hs. cbn. apply elem_of_list_to_map_1.
  - by rewrite fmap_reverse, reverse_Permutation, <- list_fmap_compose.
  - apply elem_of_reverse, list_elem_of_fmap. by exists s.
Qed.

(** C37: a health report survives a restart, but for its groups.  A report that was stored and
    is loaded again names the same weak, compromised and expired records, of those that are
    not in the trash.  Of the duplicates there is one group with all of them, so that the list
    of records then shows for each of them the number of all duplicates as the size of its
    group. *)
Theorem report_survives_restart x report t w deltas w1 o w2 :
  map_Forall row_wf (records w) → groups_ok report →
  persist_health_report x report t w = (Ok deltas, w1) →
  ExecSync.load_cached_health_report x w1 = (Ok o, w2) →
  match o with
  | None => ∀ id, ¬ live w id
  | Some r =>
      (∀ id, id ∈ hp_weak_passwords r ↔ id ∈ hp_weak_passwords report ∧ live w id) ∧
      (∀ id, id ∈ hp_compromised r ↔ id ∈ hp_compromised report ∧ live w id) ∧
      (∀ id, id ∈ hp_expired r ↔ id ∈ hp_expired report ∧ live w id) ∧
      ∃ all, NoDup all ∧
        (∀ id, id ∈ all ↔ id ∈ concat (hp_duplicate_passwords report) ∧ live w id) ∧
        hp_duplicate_passwords r = (match all with [] => [] | _ => [all] end) ∧
        ∀ tr, tr_id tr ∈ all →
          tr_duplicate_group_size <$> populate_health_fields [tr] (Some r) =
            [Some (Z.of_nat (length all))]
  end.
Proof.
  intros Hwf Hg Hp Hl. unfold ExecSync.load_cached_health_report in Hl.
  apply ior_bind_ok in Hl as (v & w0 & E1 & Hl). apply lift_ok in E1 as [_ <-].
  apply ior_bind_ok in Hl as (states & w3 & E2 & Hl). apply lift_ok in Hl as [[= <-] _].
  destruct (persisted_states _ _ _ _ _ _ _ _ Hwf Hg Hp E2) as (_ & recs & Hnd & Hact & Hall).
  unfold ExecSync.health_report_of. destruct states as [|s0 states'] eqn:Es.
  { inversion Hall; subst. intros id (version & (s & Hs & _)%Hact). by apply elem_of_nil in Hs. }
  rewrite <- Es in *. clear Es s0 states'. cbn [hp_weak_passwords hp_compromised hp_expired].
  split_and!;
    try (apply (having_iff w report t recs); [done|done|]; intros r s (_ & _ & Ew & _ & Ec & Ee & _);
      cbn in *; rewrite ?Ew, ?Ec, ?Ee, bool_decide_eq_true; rewrite (inj_iff Some);
      by rewrite bool_decide_eq_true).
  set (dup := λ s, match hs_duplicate_group_size s with Some sz => (2 <=? sz)%Z | None => false end).
  set (all := hs_record_id <$> filter (λ s, dup s = true) states).
  assert (∀ id, id ∈ all ↔ id ∈ concat (hp_duplicate_passwords report) ∧ live w id) as Hin.
  { apply (having_iff w report t recs); [done|done|]. intros r s (_ & _ & _ & Ed & _).
    unfold dup. rewrite Ed. cbn. rewrite <- in_some_group.
    pose proof (dup_size (hp_duplicate_passwords report) (st_id r)) as Hd.
    destruct (_ !! st_id r) as [n|]; [|naive_solver]. destruct Hd as (g & Hgr & _ & ->).
    apply Hg in Hgr. rewrite (proj2 (Z.leb_le _ _)) by lia. naive_solver. }
  set (r := mkHealthReport _ _ _ _ _).
  assert (hp_duplicate_passwords r = match all with [] => [] | _ => [all] end) as Hd by reflexivity.
  clearbody r. exists all. split_and!; [|done|done|].
  - apply NoDup_fmap_filter.
    by rewrite (same_ids _ _ _ _ Hall).
  - intros tr Htr. cbn [populate_health_fields fmap list_fmap tr_duplicate_group_size].
    unfold HealthReport.group_of. rewrite Hd. clear Hd.
    destruct all as [|a all']; [by apply elem_of_nil in Htr|]. by rewrite list_find_first.
Qed.

(** *** The background task *)

Lemma loop_keeps_skipped service total i entries : ∀ compromised w l w',
  hibp_loop service total i entries compromised w = (Ok l, w') → compromised ⊆ l.
Proof.
  revert i. induction entries as [|e entries IH]; intros i compromised w l w'; cbn [hibp_loop];
    intros (c & w1 & _ & Hr)%io_bind_eq; destruct c; try done; [by injection Hr as <- _|].
  apply io_bind_eq in Hr as (leaked & w2 & _ & Hr). apply io_bind_eq in Hr as (op & w3 & _ & Hr).
  destruct op; [|done]. apply IH in Hr. destruct leaked; [|done]. set_solver.
Qed.

Lemma run_task_ok service task w r w' :
  run_task service task w = (TaskReported r, w') →
  ∃ compromised w1, hibp_loop service (length (ht_entries_to_check task)) 0
      (ht_entries_to_check task) (ht_skipped_compromised task) w = (Ok compromised, w1) ∧
    r = mkHealthReport (ht_weak_passwords task) (ht_duplicate_passwords task) compromised
          (ht_expired task) (ht_total_checked task).
Proof.
  intros (l & w1 & E & Hr)%io_bind_eq. destruct l as [l|e].
  - injection Hr as <- _. eauto.
  - injection Hr as He _. subst e.
    assert (∀ entries i c w l w', hibp_loop service (length (ht_entries_to_check task)) i entries c w
      = (Err l, w') → ∀ r, l ≠ TaskReported r) as Hno; [|by eapply Hno in E].
    clear. induction entries as [|e entries IH]; intros i c w l w'; cbn [hibp_loop];
      intros (b & w1 & _ & Hr)%io_bind_eq; destruct b; try (by injection Hr as <- _); [done|].
    apply io_bind_eq in Hr as (leaked & w2 & _ & Hr). apply io_bind_eq in Hr as (op & w3 & _ & Hr).
    destruct op; [by eapply IH|]. by injection Hr as <- _.
Qed.

Lemma partition_skips entries versions states e version :
  e ∈ entries → versions !! pe_id e = Some version →
  should_skip_hibp (states !! pe_id e) version = true →
  pe_id e ∈ (partition_entries_for_hibp entries versions states).1.
Proof.
  intros He Hv Hs. induction entries as [|e' entries IH]; [by apply elem_of_nil in He|].
  cbn [partition_entries_for_hibp]. destruct (partition_entries_for_hibp _ _ _) as [skipped check].
  apply elem_of_cons in He as [Heq|He].
  - subst e'. rewrite Hv. change (default 0%Z (Some version)) with version. rewrite Hs. by left.
  - apply IH in He. destruct (should_skip_hibp (_ !! pe_id e') _); [by right|done].
Qed.

Lemma partition_checks entries versions states e :
  e ∈ (partition_entries_for_hibp entries versions states).2 →
  e ∈ entries ∧ should_skip_hibp (states !! pe_id e) (default 0%Z (versions !! pe_id e)) = false.
Proof.
  induction entries as [|e' entries IH]; [intros He; by apply elem_of_nil in He|].
  cbn [partition_entries_for_hibp]. destruct (partition_entries_for_hibp _ _ _) as [skipped check].
  destruct (should_skip_hibp (_ !! pe_id e') _) eqn:E; cbn in *.
  - intros [? ?]%IH. split; [by right|done].
  - intros [->|He]%elem_of_cons; [split; [by left|done]|]. apply IH in He as [? ?].
    split; [by right|done].
Qed.

Lemma failed_call service e w b w' :
  (∀ url w, ∃ e w', http_get url w = (Err e, w')) → hibp_call service e w = (b, w') → b = false.
Proof.
  intros Hoff. unfold hibp_call, check_hibp_single, check_hibp_single_password.
  destruct (task_panics _); [by intros [= <- _]|]. destruct (http_agent service).
  - set (url := "https://api.pwnedpasswords.com/range/" +:+ _).
    destruct (Hoff url w) as (m & w1 & E). unfold io_map_err, ior_bind, io_bind, io_ret, lift, io_ret.
    rewrite E. cbn. by intros [= <- _].
  - by intros [= <- _].
Qed.

Lemma offline_loop service total i entries : ∀ compromised w l w',
  (∀ url w, ∃ e w', http_get url w = (Err e, w')) →
  hibp_loop service total i entries compromised w = (Ok l, w') → l = compromised.
Proof.
  revert i. induction entries as [|e entries IH]; intros i compromised w l w' Hoff; cbn [hibp_loop];
    intros (c & w1 & _ & Hr)%io_bind_eq; destruct c; try done; [by injection Hr as <- _|].
  apply io_bind_eq in Hr as (leaked & w2 & E & Hr). apply failed_call in E as ->; [|done].
  apply io_bind_eq in Hr as (op & w3 & _ & Hr). destruct op; [|done]. by eapply IH.
Qed.

(** A stale verdict sticks to the new password.  A stored report marks a compromised
    record with the version that the record has when the report is stored, whatever version,
    and so whatever password, was checked; from then on every check of that version reports
    the record as compromised without asking. *)
Lemma stale_verdict_sticks x report t w deltas w1 states w2 id version :
  map_Forall row_wf (records w) → groups_ok report →
  persist_health_report x report t w = (Ok deltas, w1) →
  db list_record_health_states w1 = (Ok states, w2) →
  id ∈ hp_compromised report → active w id version →
  ∀ entries e versions skipped to_check service task w3 r w4,
    e ∈ entries → pe_id e = id → versions !! id = Some version →
    partition_entries_for_hibp entries versions (ExecSync.health_map (Ok states)) =
      (skipped, to_check) →
    ht_skipped_compromised task = skipped → ht_entries_to_check task = to_check →
    run_task service task w3 = (TaskReported r, w4) →
    id ∈ hp_compromised r ∧ e ∉ to_check.
Proof.
  intros Hwf Hg Hp Hl Hid Hact entries e versions skipped to_check service task w3 r w4
    He <- Hv Hpart Hsk Hto Hrun.
  destruct (persisted_states _ _ _ _ _ _ _ _ Hwf Hg Hp Hl) as (_ & recs & Hnd & Hrecs & Hall).
  apply Hrecs in Hact as (s & [i Hi]%list_elem_of_lookup & Hsid & Hsv).
  destruct (Forall2_lookup_l _ _ _ _ _ Hall Hi) as (st & Hst & Eid & Ev & _ & _ & Ec & _).
  apply list_elem_of_lookup_2 in Hst. rewrite <- (same_ids _ _ _ _ Hall) in Hnd.
  pose proof (health_map_lookup _ _ Hnd Hst) as Hmap. cbn in Eid, Ev, Ec.
  rewrite Eid, Hsid in Hmap.
  assert (should_skip_hibp (ExecSync.health_map (Ok states) !! pe_id e) version = true) as Hskip.
  { rewrite Hmap. cbn. rewrite Ev, Hsv, Z.eqb_refl, Ec, Hsid.
    by rewrite (bool_decide_eq_true_2 (pe_id e ∈ _)) by done. }
  pose proof (partition_skips _ _ _ _ _ He Hv Hskip) as Hin. split.
  - apply run_task_ok in Hrun as (l & w5 & Hl' & ->). apply loop_keeps_skipped in Hl'.
    apply Hl'. by rewrite Hsk, <- (f_equal fst Hpart : _ = skipped).
  - rewrite <- (f_equal snd Hpart : _ = to_check). intros (_ & Hno)%partition_checks.
    rewrite Hv in Hno. cbn [default from_option id] in Hno. congruence.
Qed.

(** A check that could not be made counts as passed.  Without a connection every call to
    the service fails; a check that completes all the same leaves, for every record that was
    not known before to be compromised, a state that says it was evaluated and is not
    compromised. *)
Lemma failed_call_stored_clean service task w0 report w x t deltas w1 w2 states w3 s :
  (∀ url w, ∃ e w', http_get url w = (Err e, w')) →
  run_task service task w0 = (TaskReported report, w1) →
  map_Forall row_wf (records w) → groups_ok report →
  persist_health_report x report t w = (Ok deltas, w2) →
  db list_record_health_states w2 = (Ok states, w3) → s ∈ states →
  hs_record_id s ∉ ht_skipped_compromised task →
  hs_compromised s = Some false ∧ hs_evaluated_at s ≠ None.
Proof.
  intros Hoff Hrun Hwf Hg Hp Hl [i Hi]%list_elem_of_lookup Hns.
  destruct (persisted_states _ _ _ _ _ _ _ _ Hwf Hg Hp Hl) as (_ & recs & _ & _ & Hall).
  destruct (Forall2_lookup_r _ _ _ _ _ Hall Hi) as (r & _ & Eid & _ & _ & _ & Ec & _ & Ee).
  apply run_task_ok in Hrun as (l & w5 & Hloop & ->). cbn in Ec, Ee, Eid.
  apply offline_loop in Hloop as ->; [|done]. split.
  - rewrite Ec. f_equal. apply bool_decide_eq_false_2. by rewrite <- Eid.
  - by rewrite <- Ee.
Qed.

End properties.
