(* ===== verification/AgentKeys.v ===== *)
(** * The SSH agent: encodings, signers and identities (src/agent/server.rs codec,
    src/agent/signer.rs, src/agent/identity.rs)

    The strings and frames of the agent protocol, the three signers over the crates that
    parse keys and sign, and the identities that are loaded from the vault. *)

From Stdlib Require Import Ascii.
From S2P Require Import Prelude Text Errors Env Types Storage Crypto Keystore Payload Database.
From S2P Require Import Queries Vault Records Formats VaultSync HealthExec.

(** ** Big-endian numbers and strings (server.rs) *)

(** [(n as u32).to_be_bytes()] *)
Definition be32 (n : Z) : bytes :=
  of_bytes [n / 16777216 mod 256; n / 65536 mod 256; n / 256 mod 256; n mod 256]%Z.

Definition length_prefix (s : bytes) : bytes := be32 (Z.of_nat (String.length s)).

(** [u32::from_be_bytes] of the first four bytes, when there are as many. *)
Definition read_u32 (input : bytes) : option (Z * bytes) :=
  match input with
  | String a (String b (String c (String d rest))) =>
      Some ((byte_of a * 16777216 + byte_of b * 65536 + byte_of c * 256 + byte_of d)%Z, rest)
  | _ => None
  end.

Fixpoint split_bytes (n : nat) (s : bytes) : option (bytes * bytes) :=
  match n, s with
  | O, _ => Some ("", s)
  | S n, String c s => prod_map (String c) id <$> split_bytes n s
  | S _, EmptyString => None
  end.

(** The first [n] bytes and the others, when there are as many. *)
Definition take_bytes (n : Z) (s : bytes) : option (bytes * bytes) :=
  if (n <=? Z.of_nat (String.length s))%Z then split_bytes (Z.to_nat n) s else None.

Definition write_string (s : bytes) : bytes := length_prefix s +:+ s.

Definition read_string (input : bytes) : option (bytes * bytes) :=
  '(len, rest) ← read_u32 input; take_bytes len rest.

(** ** Frames *)

Definition MAX_FRAME_LEN : Z := 256 * 1024.

(** What reading a frame from the bytes that a connection still delivers gives: nothing
    more (the peer closed, also within the length), a read error, or a payload. *)
Module Frame.
Inductive t : Set := Eof | Error (message : string) | Payload (payload rest : bytes).
End Frame.

Definition read_frame (input : bytes) : Frame.t :=
  match read_u32 input with
  | None => Frame.Eof
  | Some (len, rest) =>
      if (MAX_FRAME_LEN <? len)%Z
      then Frame.Error ("agent frame length " +:+ pretty len +:+ " exceeds cap "
                          +:+ pretty MAX_FRAME_LEN)
      else
        match take_bytes len rest with
        | Some (payload, rest) => Frame.Payload payload rest
        | None => Frame.Error "early eof"
        end
  end.

(** The bytes of [write_frame]. *)
Definition frame (payload : bytes) : bytes := length_prefix payload +:+ payload.

(** ** Algorithms (signer.rs) *)

Module EcdsaCurve.
Inductive t : Set := P256 | P384 | P521.

#[global] Instance t_eq_dec : EqDecision t.
Proof. solve_decision. Defined.

Definition wire_name (c : t) : string :=
  match c with
  | P256 => "ecdsa-sha2-nistp256" | P384 => "ecdsa-sha2-nistp384" | P521 => "ecdsa-sha2-nistp521"
  end.
End EcdsaCurve.

Record SignFlags : Set := mkSignFlags { rsa_sha2_256 : bool; rsa_sha2_512 : bool }.

Module SshAlgo.
Inductive t : Set := Ed25519 | Rsa | Ecdsa (curve : EcdsaCurve.t).

#[global] Instance t_eq_dec : EqDecision t.
Proof. solve_decision. Defined.

Definition wire_name (a : t) (flags : SignFlags) : string :=
  match a with
  | Ed25519 => "ssh-ed25519"
  | Rsa => if rsa_sha2_512 flags then "rsa-sha2-512" else "rsa-sha2-256"
  | Ecdsa curve => EcdsaCurve.wire_name curve
  end.
End SshAlgo.

(** The sources are errors of [ssh_key], as texts. *)
Module SignerError.
Inductive t : Set :=
| ParseKey (source : string)
| Decrypt (source : string)
| PublicKey (source : string)
| RsaKey (source : string)
| EcdsaKey (source : string)
| EcdsaSign (source : string)
| UnsupportedKeyType (expected : string)
| UnexpectedPassphrase
| MissingPassphrase.

Definition display (e : t) : string :=
  match e with
  | ParseKey _ => "failed to parse OpenSSH private key"
  | Decrypt _ => "failed to decrypt passphrase-protected private key"
  | PublicKey _ => "failed to encode SSH public key"
  | RsaKey _ => "failed to convert SSH RSA keypair into an RSA private key"
  | EcdsaKey _ => "failed to convert SSH ECDSA keypair into an ECDSA signing key"
  | EcdsaSign _ => "ECDSA signing failed"
  | UnsupportedKeyType expected => "unsupported SSH key type: expected " +:+ expected
  | UnexpectedPassphrase => "passphrase provided but the key is not encrypted"
  | MissingPassphrase => "key is encrypted but no passphrase was provided"
  end.
End SignerError.

(** ** The crates

    [ssh_key::private::KeypairData], of an RSA key pair the multi-precision integers and
    of an ECDSA key pair the curve and the private scalar; [Other] is any other type. *)
Module KeypairData.
Inductive t : Set :=
| Ed25519 (seed : bytes)
| Rsa (n e d p q : bytes)
| Ecdsa (curve : EcdsaCurve.t) (scalar : bytes)
| Other.
End KeypairData.

(** [rsa::RsaPrivateKey] by its components *)
Record RsaPrivateKey : Set := mkRsaPrivateKey {
  rsa_n : Z;
  rsa_e : Z;
  rsa_d : Z;
  rsa_primes : list Z;
}.

Module Digest.
Inductive t : Set := Sha256 | Sha512.
End Digest.

(** [Key] is [ssh_key::PrivateKey] and [Public] is [ssh_key::PublicKey], of which the
    algorithm is given as one that the agent knows or by its name.  The last four
    operations are those of the crates [ed25519_dalek], [rsa] and [p256], [p384], [p521]. *)
Class SshKeyLib (Key Public : Type) : Type := {
  key_from_openssh : string → result Key string;
  key_is_encrypted : Key → bool;
  key_decrypt : Key → string → result Key string;
  key_data : Key → KeypairData.t;
  key_public_openssh : Key → result string string;
  public_from_openssh : string → result Public string;
  public_algorithm : Public → result SshAlgo.t string;
  public_to_bytes : Public → result bytes string;
  biguint_try_from : bytes → result Z string;
  rsa_valid : RsaPrivateKey → bool;
  crypto_error : string;
  ed25519_sign : bytes → bytes → bytes;
  rsa_sign : Digest.t → RsaPrivateKey → bytes → bytes;
  ecdsa_valid : EcdsaCurve.t → bytes → bool;
  ecdsa_sign : EcdsaCurve.t → bytes → bytes → option bytes;
}.

(** ** Signers *)

Class SshSigner (Signer : Type) : Type := {
  algorithm : Signer → SshAlgo.t;
  public_key_ssh : Signer → result string SignerError.t;
  sign_data : Signer → bytes → SignFlags → result bytes SignerError.t;
}.

Definition wire_signature (alg : string) (sig : bytes) : bytes :=
  write_string alg +:+ write_string sig.

Definition ed25519_wire_signature (sig : bytes) : bytes := wire_signature "ssh-ed25519" sig.
Definition rsa_wire_signature (alg : string) (sig : bytes) : bytes := wire_signature alg sig.
Definition ecdsa_wire_signature (alg : string) (sig : bytes) : bytes := wire_signature alg sig.

Record Ed25519Signer : Set := mkEd25519Signer { ed_seed : bytes; ed_public_ssh : string }.
Record RsaSigner : Set := mkRsaSigner { rs_key : RsaPrivateKey; rs_public_ssh : string }.

(** [EcdsaSigningKey] is the curve and the scalar. *)
Record EcdsaSigner : Set := mkEcdsaSigner {
  ec_curve : EcdsaCurve.t;
  ec_scalar : bytes;
  ec_public_ssh : string;
}.

Section signers.
Context {Key Public : Type} `{SshKeyLib Key Public}.

(** The first steps of each [from_openssh]: parsing, and decryption when it is needed. *)
Definition open_key (pem : string) (passphrase : option string) : result Key SignerError.t :=
  let? parsed := map_err SignerError.ParseKey (key_from_openssh pem) in
  if key_is_encrypted parsed then
    let? passphrase := ok_or SignerError.MissingPassphrase passphrase in
    map_err SignerError.Decrypt (key_decrypt parsed passphrase)
  else
    match passphrase with
    | Some _ => Err SignerError.UnexpectedPassphrase
    | None => Ok parsed
    end.

Definition public_text (key : Key) : result string SignerError.t :=
  map_err SignerError.PublicKey (key_public_openssh key).

Definition ed25519_from_openssh (pem : string) (passphrase : option string)
  : result Ed25519Signer SignerError.t :=
  let? key := open_key pem passphrase in
  match key_data key with
  | KeypairData.Ed25519 seed =>
      let? public_ssh := public_text key in
      Ok (mkEd25519Signer seed public_ssh)
  | _ => Err (SignerError.UnsupportedKeyType "ed25519")
  end.

Definition MIN_RSA_BITS : Z := 2048.

(** [rsa_key.size()]: the bytes of the modulus *)
Definition rsa_size (k : RsaPrivateKey) : Z :=
  if (rsa_n k <=? 0)%Z then 0%Z else ((Z.log2 (rsa_n k) + 8) / 8)%Z.

Definition biguint (m : bytes) : result Z SignerError.t :=
  map_err SignerError.RsaKey (biguint_try_from m).

Definition rsa_from_openssh (pem : string) (passphrase : option string)
  : result RsaSigner SignerError.t :=
  let? key := open_key pem passphrase in
  match key_data key with
  | KeypairData.Rsa n e d p q =>
      let? n := biguint n in
      let? e := biguint e in
      let? d := biguint d in
      let? p := biguint p in
      let? q := biguint q in
      let rsa_key := mkRsaPrivateKey n e d [p; q] in
      if negb (rsa_valid rsa_key) then Err (SignerError.RsaKey crypto_error)
      else if (rsa_size rsa_key * 8 <? MIN_RSA_BITS)%Z then Err (SignerError.RsaKey crypto_error)
      else
        let? public_ssh := public_text key in
        Ok (mkRsaSigner rsa_key public_ssh)
  | _ => Err (SignerError.UnsupportedKeyType "rsa")
  end.

Definition ecdsa_from_openssh (pem : string) (passphrase : option string)
  : result EcdsaSigner SignerError.t :=
  let? key := open_key pem passphrase in
  match key_data key with
  | KeypairData.Ecdsa curve scalar =>
      if negb (ecdsa_valid curve scalar) then Err (SignerError.EcdsaKey crypto_error)
      else
        let? public_ssh := public_text key in
        Ok (mkEcdsaSigner curve scalar public_ssh)
  | _ => Err (SignerError.UnsupportedKeyType "ecdsa")
  end.

Definition ed25519_sign_data (s : Ed25519Signer) (data : bytes) (flags : SignFlags)
  : result bytes SignerError.t :=
  Ok (ed25519_wire_signature (ed25519_sign (ed_seed s) data)).

(** SHA-512 only when it is asked for, and never SHA-1. *)
Definition rsa_sign_data (s : RsaSigner) (data : bytes) (flags : SignFlags)
  : result bytes SignerError.t :=
  Ok (if rsa_sha2_512 flags
      then rsa_wire_signature "rsa-sha2-512" (rsa_sign Digest.Sha512 (rs_key s) data)
      else rsa_wire_signature "rsa-sha2-256" (rsa_sign Digest.Sha256 (rs_key s) data)).

(** [EcdsaSigningKey::sign_der] *)
Definition sign_der (s : EcdsaSigner) (data : bytes) : result bytes SignerError.t :=
  ok_or (SignerError.EcdsaSign crypto_error) (ecdsa_sign (ec_curve s) (ec_scalar s) data).

Definition ecdsa_sign_data (s : EcdsaSigner) (data : bytes) (flags : SignFlags)
  : result bytes SignerError.t :=
  let? sig := sign_der s data in
  Ok (ecdsa_wire_signature (EcdsaCurve.wire_name (ec_curve s)) sig).

#[export] Instance Ed25519Signer_signer : SshSigner Ed25519Signer := {
  algorithm s := SshAlgo.Ed25519;
  public_key_ssh s := Ok (ed_public_ssh s);
  sign_data := ed25519_sign_data;
}.

#[export] Instance RsaSigner_signer : SshSigner RsaSigner := {
  algorithm s := SshAlgo.Rsa;
  public_key_ssh s := Ok (rs_public_ssh s);
  sign_data := rsa_sign_data;
}.

#[export] Instance EcdsaSigner_signer : SshSigner EcdsaSigner := {
  algorithm s := SshAlgo.Ecdsa (ec_curve s);
  public_key_ssh s := Ok (ec_public_ssh s);
  sign_data := ecdsa_sign_data;
}.

End signers.

(** ** Identities (identity.rs) *)

Record LoadedIdentity : Set := mkLoadedIdentity {
  li_record_id : Uuid;
  li_name : string;
  li_algo : SshAlgo.t;
  li_public_blob : bytes;
}.

(** The expression is the predicate that it matches. *)
Record IdentityFilter : Set := mkIdentityFilter {
  if_only : list string;
  if_allow : option (string → bool);
}.

Definition matches (f : IdentityFilter) (name : string) : bool :=
  if bool_decide (if_only f = []) && negb (bool_decide (is_Some (if_allow f))) then true
  else
    existsb (String.eqb name) (if_only f) ||
    match if_allow f with Some re => re name | None => false end.

Module IdentityError.
Inductive t : Set :=
| Vault (source : VaultError.t)
| ParsePublicKey (source : string)
| EncodePublicKey (source : string)
| UnsupportedAlgorithm (name : string).

Definition display (e : t) : string :=
  match e with
  | Vault _ => "vault access failed while loading SSH identities"
  | ParsePublicKey _ => "failed to parse stored SSH public key as OpenSSH"
  | EncodePublicKey _ => "failed to encode SSH public key to wire format"
  | UnsupportedAlgorithm name => "unsupported SSH key algorithm for agent identity: " +:+ name
  end.
End IdentityError.

Section identities.
Context {Key Public W : Type} `{SshKeyLib Key Public}.
Context `{Libs} `{UuidErrors} `{Lowercase} `{CryptoLibs} `{Secure W} `{System W}.
Context `{Sqlite W} `{Serde Json} `{Serde PayloadPlaintextDto.t}.

(** [map_algorithm] *)
Definition map_algorithm (a : result SshAlgo.t string) : result SshAlgo.t IdentityError.t :=
  map_err IdentityError.UnsupportedAlgorithm a.

Definition parse_public_key (openssh_str : string)
  : result (SshAlgo.t * bytes) IdentityError.t :=
  let? public := map_err IdentityError.ParsePublicKey (public_from_openssh openssh_str) in
  let? algo := map_algorithm (public_algorithm public) in
  let? public_blob := map_err IdentityError.EncodePublicKey (public_to_bytes public) in
  Ok (algo, public_blob).

(** One round of the loop over the records. *)
Definition load_identity (v : VaultServiceImpl) (filter : IdentityFilter) (record : StoredRecord)
  : ior W (option LoadedIdentity) IdentityError.t :=
  if negb (bool_decide (st_credential_type record = CredentialType.Ssh)) then lift (Ok None)
  else
    let! name := io_map_err IdentityError.Vault
                   (VaultSync.decrypt_record_name_for_sync v record) in
    if negb (matches filter name) then lift (Ok None)
    else
      let! public_ssh := io_map_err IdentityError.Vault
          (Records.decrypt_field v (st_id record) FieldSelector.Username) in
      let! key := lift (parse_public_key public_ssh) in
      lift (Ok (Some (mkLoadedIdentity (st_id record) name key.1 key.2))).

Fixpoint load_identities (v : VaultServiceImpl) (filter : IdentityFilter)
    (records : list StoredRecord) : ior W (list LoadedIdentity) IdentityError.t :=
  match records with
  | [] => lift (Ok [])
  | record :: records =>
      let! identity := load_identity v filter record in
      let! rest := load_identities v filter records in
      lift (Ok (option_list identity ++ rest))
  end.

Definition load_ssh_identities (v : VaultServiceImpl) (filter : IdentityFilter)
  : ior W (list LoadedIdentity) IdentityError.t :=
  let! records := io_map_err IdentityError.Vault HealthExec.list_all_stored_records in
  load_identities v filter records.

End identities.

(** ** Lemmas: what is written is read *)

Lemma split_bytes_app s t : split_bytes (String.length s) (s +:+ t) = Some (s, t).
Proof.
  induction s as [|c s IH]; [by destruct t|]. rewrite string_app_cons. cbn. by rewrite IH.
Qed.

Lemma split_bytes_sound n : ∀ s a b,
  split_bytes n s = Some (a, b) → s = a +:+ b ∧ String.length a = n.
Proof.
  induction n as [|n IH]; intros s a b; cbn; [by destruct s; intros [= <- <-]|].
  destruct s as [|c s]; [done|]. intros ([a' b'] & Hs & E)%fmap_Some.
  injection E as -> ->. apply IH in Hs as [-> <-]. by rewrite string_app_cons.
Qed.

Lemma take_bytes_app s t : take_bytes (Z.of_nat (String.length s)) (s +:+ t) = Some (s, t).
Proof.
  unfold take_bytes. rewrite string_length_append, (proj2 (Z.leb_le _ _)) by lia.
  rewrite Nat2Z.id. apply split_bytes_app.
Qed.

Lemma take_bytes_sound n s a b :
  (0 ≤ n)%Z → take_bytes n s = Some (a, b) → s = a +:+ b ∧ Z.of_nat (String.length a) = n.
Proof.
  unfold take_bytes. intros Hn. destruct (_ <=? _)%Z; [|done].
  intros [-> Hl]%split_bytes_sound. split; [done|]. lia.
Qed.

Lemma byte_of_ascii z : (0 ≤ z < 256)%Z → byte_of (ascii_of_byte z) = z.
Proof.
  intros Hz. unfold byte_of, ascii_of_byte. rewrite N_ascii_embedding by lia. lia.
Qed.

Lemma read_be32 n rest : (0 ≤ n < 2 ^ 32)%Z → read_u32 (be32 n +:+ rest) = Some (n, rest).
Proof.
  intros Hn. unfold be32. cbn [of_bytes]. rewrite !string_app_cons. cbn [read_u32].
  rewrite !byte_of_ascii by (apply Z.mod_pos_bound; lia).
  change (EmptyString +:+ rest) with rest. do 2 f_equal.
  Z.to_euclidean_division_equations. lia.
Qed.

Lemma read_u32_bound input n rest :
  read_u32 input = Some (n, rest) → (0 ≤ n < 2 ^ 32)%Z ∧ input = be32 n +:+ rest.
Proof.
  destruct input as [|a [|b [|c [|d input]]]]; try done. cbn [read_u32]. intros [= <- <-].
  assert (∀ x, 0 ≤ byte_of x < 256)%Z as Hb.
  { intros x. unfold byte_of. pose proof (N_ascii_bounded x). lia. }
  pose proof (Hb a). pose proof (Hb b). pose proof (Hb c). pose proof (Hb d).
  split; [lia|]. unfold be32. cbn [of_bytes]. rewrite !string_app_cons.
  change (EmptyString +:+ input) with input.
  assert (∀ x z, z = byte_of x → x = ascii_of_byte z) as Hx by (intros x z ->; by rewrite ascii_of_byte_of).
  repeat f_equal; apply Hx; Z.to_euclidean_division_equations; lia.
Qed.

Lemma read_length_prefix s rest :
  (Z.of_nat (String.length s) < 2 ^ 32)%Z →
  read_u32 (length_prefix s +:+ rest) = Some (Z.of_nat (String.length s), rest).
Proof. intros Hs. apply read_be32. lia. Qed.

Lemma read_write_string s rest :
  (Z.of_nat (String.length s) < 2 ^ 32)%Z → read_string (write_string s +:+ rest) = Some (s, rest).
Proof.
  intros Hs. unfold read_string, write_string. rewrite <- string_app_assoc, read_length_prefix by done.
  cbn. apply take_bytes_app.
Qed.

Lemma read_string_sound input s rest :
  read_string input = Some (s, rest) → input = write_string s +:+ rest.
Proof.
  unfold read_string. intros ([len r] & [Hn ->]%read_u32_bound & Ht)%bind_Some.
  apply take_bytes_sound in Ht as [-> <-]; [|lia].
  unfold write_string, length_prefix. by rewrite string_app_assoc.
Qed.

Lemma read_written_frame payload rest :
  (Z.of_nat (String.length payload) ≤ MAX_FRAME_LEN)%Z →
  read_frame (frame payload +:+ rest) = Frame.Payload payload rest.
Proof.
  intros Hp. unfold read_frame, frame.
  rewrite <- string_app_assoc, read_length_prefix by (unfold MAX_FRAME_LEN in Hp; lia).
  rewrite (proj2 (Z.ltb_ge _ _)) by done. by rewrite take_bytes_app.
Qed.

Lemma read_frame_shorter input payload rest :
  read_frame input = Frame.Payload payload rest → String.length rest < String.length input.
Proof.
  unfold read_frame. destruct (read_u32 input) as [[n r]|] eqn:E; [|done].
  apply read_u32_bound in E as [Hn ->]. destruct (_ <? _)%Z; [done|].
  destruct (take_bytes n r) as [[a b]|] eqn:Et; [|done]. intros [= -> ->].
  apply take_bytes_sound in Et as [-> _]; [|lia].
  rewrite !string_length_append. unfold be32. cbn. lia.
Qed.

(** ** Which identities are loaded *)

Section loaded.
Context {Key Public W : Type} `{SshKeyLib Key Public}.
Context `{Libs} `{UuidErrors} `{Lowercase} `{CryptoLibs} `{Secure W} `{System W}.
Context `{Sqlite W} `{Serde Json} `{Serde PayloadPlaintextDto.t}.

Definition is_ssh (s : StoredRecord) : Prop := st_credential_type s = CredentialType.Ssh.

(** The name of the record was read, and the filter does not let it through. *)
Definition filtered_out (v : VaultServiceImpl) (filter : IdentityFilter) (s : StoredRecord) : Prop :=
  ∃ name w1 w2, VaultSync.decrypt_record_name_for_sync v s w1 = (Ok name, w2) ∧
    matches filter name = false.

Lemma load_identity_ok v filter s (w : W) o w' :
  load_identity v filter s w = (Ok o, w') →
  match o with
  | Some i => li_record_id i = st_id s ∧ is_ssh s ∧ matches filter (li_name i) = true
  | None => is_ssh s → filtered_out v filter s
  end.
Proof.
  unfold load_identity. case_bool_decide as Ht; cbn [negb]; [|by intros [= <- _] ?].
  intros (name & w1 & E%io_map_err_ok & Hl)%ior_bind_ok.
  destruct (matches filter name) eqn:Em; cbn [negb] in Hl.
  - apply ior_bind_ok in Hl as (text & w2 & _ & Hl). apply ior_bind_ok in Hl as (k & w3 & _ & Hl).
    injection Hl as <- _. done.
  - injection Hl as <- _. intros _. by exists name, w, w1.
Qed.

Lemma load_identities_ok v filter l : ∀ (w : W) ids w',
  load_identities v filter l w = (Ok ids, w') →
  Forall (λ i, ∃ s, s ∈ l ∧ li_record_id i = st_id s ∧ is_ssh s ∧
                 matches filter (li_name i) = true) ids ∧
  ∀ s, s ∈ l → is_ssh s → (∃ i, i ∈ ids ∧ li_record_id i = st_id s) ∨ filtered_out v filter s.
Proof.
  induction l as [|s l IH]; intros w ids w' Hl; cbn in Hl.
  { injection Hl as <- _. split; [constructor|]. intros s []%not_elem_of_nil. }
  apply ior_bind_ok in Hl as (o & w1 & Eo%load_identity_ok & Hl).
  apply ior_bind_ok in Hl as (rest & w2 & [IH1 IH2]%IH & Hl). injection Hl as <- _. split.
  - apply Forall_app. split.
    + destruct o as [i|]; [|constructor]. constructor; [|constructor]. exists s. split; [left|done].
    + eapply Forall_impl; [exact IH1|]. intros i (s' & Hs & Hi). exists s'. split; [by right|done].
  - intros s' [->|Hs]%elem_of_cons Ht.
    + destruct o as [i|]; [|right; by apply Eo]. left. exists i. cbn. split; [by left|by apply Eo].
    + destruct (IH2 s' Hs Ht) as [(i & Hi & E)|]; [|by right]. left. exists i.
      split; [|done]. apply elem_of_app. by right.
Qed.

End loaded.
