(* ===== verification/Agent.v ===== *)
(** * The SSH agent: server and command (src/agent/server.rs, lock.rs, paths.rs, cli.rs)

    A request is dispatched to a reply; a connection is the bytes that its peer sends
    before it closes, and is served frame by frame; the server binds its socket, accepts
    connections one after the other and cleans up; the command takes the lock of the
    instance, unlocks the vault and serves. *)

From Stdlib Require Import Ascii.
From S2P Require Import Prelude Text Errors Env Types Storage Checkpoint Crypto Keystore Payload.
From S2P Require Import Database Queries Vault Logic Records Pipeline Integrity Files.
From S2P Require Import Formats VaultSync Executor Opening HealthExec AgentKeys.

(** ** Messages *)

Definition SSH_AGENT_FAILURE : Z := 5.
Definition SSH_AGENTC_REQUEST_IDENTITIES : Z := 11.
Definition SSH_AGENT_IDENTITIES_ANSWER : Z := 12.
Definition SSH_AGENTC_SIGN_REQUEST : Z := 13.
Definition SSH_AGENT_SIGN_RESPONSE : Z := 14.
Definition SSH_AGENT_RSA_SHA2_256 : Z := 2.
Definition SSH_AGENT_RSA_SHA2_512 : Z := 4.

Definition failure : bytes := of_bytes [SSH_AGENT_FAILURE].

Definition answer_identities (identities : list LoadedIdentity) : bytes :=
  of_bytes [SSH_AGENT_IDENTITIES_ANSWER]
    +:+ be32 (Z.of_nat (length identities))
    +:+ foldr (λ i out, write_string (li_public_blob i) +:+ write_string (li_name i) +:+ out) ""
          identities.

Definition BlobIndex : Type := gmap bytes (Uuid * SshAlgo.t).

(** [collect]: of two identities with the same blob the last one counts. *)
Definition blob_index (identities : list LoadedIdentity) : BlobIndex :=
  foldl (λ m i, <[li_public_blob i := (li_record_id i, li_algo i)]> m) ∅ identities.

Definition sign_flags (flags : Z) : SignFlags :=
  mkSignFlags (negb (Z.land flags SSH_AGENT_RSA_SHA2_256 =? 0)%Z)
    (negb (Z.land flags SSH_AGENT_RSA_SHA2_512 =? 0)%Z).

Module SignError.
Inductive t : Set :=
| DecryptPrivateKey (source : VaultError.t)
| BuildSigner (source : SignerError.t)
| Sign (source : SignerError.t).

Definition display (e : t) : string :=
  match e with
  | DecryptPrivateKey _ => "decrypting the private key failed"
  | BuildSigner _ => "building the signer failed"
  | Sign _ => "signing failed"
  end.
End SignError.

Module AgentServerError.
Inductive t : Set :=
| LoadIdentities (source : IdentityError.t)
| Bind (path source : string)
| Pidfile (path source : string)
| Accept (source : string).

Definition display (e : t) : string :=
  match e with
  | LoadIdentities _ => "failed to load SSH identities from vault"
  | Bind path _ => "failed to bind agent socket at " +:+ path
  | Pidfile path _ => "failed to write pidfile at " +:+ path
  | Accept _ => "agent accept loop failed"
  end.
End AgentServerError.

(** The index is the field [blob_index]. *)
Record AgentServer : Type := mkAgentServer {
  as_vault : VaultServiceImpl;
  as_identities : list LoadedIdentity;
  as_blob_index : BlobIndex;
  as_socket_path : string;
}.

(** ** Sockets and processes

    [stream_write] is [write_all] and [flush] on the connection being served; binding
    creates the file of the socket. *)
Class AgentSystem (W : Type) : Type := {
  stream_write : bytes → ior W () string;
  listener_bind : string → ior W () string;
  process_id : io W Z;
  print_line : string → io W ();
  lock_file_open : string → ior W () string;
  try_lock_exclusive : string → ior W bool string;
}.

(** What the accept loop gets from its listener: a connection with the bytes that its peer
    sends, or an error. *)
Module Accepted.
Inductive t : Set := Connection (input : bytes) | Failed (message : string).
End Accepted.

(** The text of the error of a pattern that is no expression. *)
Class RegexError : Type := regex_error : string → string.

(** [idle_timer]: when the timer ends a server that made signatures at the given times. *)
Fixpoint idle_timer (window : Duration) (armed : Instant) (signs : list Instant) : Instant :=
  match signs with
  | [] => (armed + window)%Z
  | t :: signs =>
      if (t <? armed + window)%Z then idle_timer window t signs else (armed + window)%Z
  end.

(** ** Paths (paths.rs) *)

Definition APP_DIR : string := "oak-keyring".
Definition SOCKET_NAME : string := "agent.sock".
Definition PIDFILE_NAME : string := "agent.pid".
Definition LOCK_FILENAME : string := ".agent.lock".

Definition socket_path_from (xdg_runtime_dir tmpdir : option string) : string :=
  let base := default "/tmp" (match xdg_runtime_dir with Some d => Some d | None => tmpdir end) in
  Path.join (Path.join base APP_DIR) SOCKET_NAME.

Definition pidfile_for_socket (socket_path : string) : string :=
  Path.with_file_name socket_path PIDFILE_NAME.

(** [pidfile_path], by the two variables of the environment *)
Definition pidfile_path_from (xdg_runtime_dir tmpdir : option string) : string :=
  Path.with_file_name (socket_path_from xdg_runtime_dir tmpdir) PIDFILE_NAME.

(** [Unlock] carries the text of the error that it was made from. *)
Module AgentLockError.
Inductive t : Set := AlreadyRunning | Io (source : string).

Definition display (e : t) : string :=
  match e with
  | AlreadyRunning => "Another oak-keyring agent instance is already running." +:+ newline
      +:+ "Please stop the existing agent before starting a new one."
  | Io e => "Failed to acquire agent lock: " +:+ e
  end.
End AgentLockError.

Module AgentCliError.
Inductive t : Set :=
| ReadPassword (message : string)
| Unlock (message : string)
| InvalidRegex (source : string)
| Server (source : AgentServerError.t)
| Lock (source : AgentLockError.t).

Definition display (e : t) : string :=
  match e with
  | ReadPassword m => "failed to read master password: " +:+ m
  | Unlock m => "failed to unlock vault: " +:+ m
  | InvalidRegex m => "invalid --allow regex: " +:+ m
  | Server e => AgentServerError.display e
  | Lock e => AgentLockError.display e
  end.
End AgentCliError.

Module Agent.
Section server.
Context {Key Public W : Type} `{SshKeyLib Key Public}.
Context `{Libs} `{UuidErrors} `{Lowercase} `{Runtime} `{CryptoLibs} `{Secure W} `{System W}.
Context `{Sqlite W} `{Serde Json} `{Serde PayloadPlaintextDto.t}.

(** ** Dispatch (server.rs) *)

(** One arm of the algorithms in [sign]: the signer is built, signs and is dropped. *)
Definition sign_with {Signer} `{SshSigner Signer} (signer : result Signer SignerError.t)
    (data : bytes) (flags : SignFlags) : result bytes SignError.t :=
  let? signer := map_err SignError.BuildSigner signer in
  map_err SignError.Sign (sign_data signer data flags).

Definition sign (v : VaultServiceImpl) (record_id : Uuid) (data : bytes) (flags : SignFlags)
    (algo : SshAlgo.t) : ior W bytes SignError.t :=
  let! pem := io_map_err SignError.DecryptPrivateKey
                (Records.decrypt_field_no_audit v record_id FieldSelector.Password) in
  let* field := Records.decrypt_field_no_audit v record_id FieldSelector.Passphrase in
  let passphrase :=
    match ok field with
    | Some s => if bool_decide (s = "") then None else Some s
    | None => None
    end in
  lift (match algo with
        | SshAlgo.Ed25519 => sign_with (ed25519_from_openssh pem passphrase) data flags
        | SshAlgo.Rsa => sign_with (rsa_from_openssh pem passphrase) data flags
        | SshAlgo.Ecdsa _ => sign_with (ecdsa_from_openssh pem passphrase) data flags
        end).

(** The body of a sign request: blob, data and flags; what follows is ignored. *)
Definition parse_sign_request (body : bytes) : option (bytes * bytes * Z) :=
  '(key_blob, rest) ← read_string body;
  '(data, rest) ← read_string rest;
  '(flags, _) ← read_u32 rest;
  Some (key_blob, data, flags).

Definition identity_name (identities : list LoadedIdentity) (record_id : Uuid) : option string :=
  li_name <$> find (λ i, bool_decide (li_record_id i = record_id)) identities.

Definition handle_sign (v : VaultServiceImpl) (identities : list LoadedIdentity)
    (index : BlobIndex) (body : bytes) : io W bytes :=
  match parse_sign_request body with
  | None => io_ret failure
  | Some (key_blob, data, flags) =>
      match index !! key_blob with
      | None => io_ret failure
      | Some (record_id, algo) =>
          let sign_flags := sign_flags flags in
          let* signed := sign v record_id data sign_flags algo in
          match signed with
          | Err _ => io_ret failure
          | Ok sig_blob =>
              let* _ := VaultService.db (insert_audit_entry AuditOperation.SshSign
                  (Some record_id) (identity_name identities record_id)
                  (Some (SshAlgo.wire_name algo sign_flags))) in
              io_ret (of_bytes [SSH_AGENT_SIGN_RESPONSE] +:+ write_string sig_blob)
          end
      end
  end.

Definition dispatch (v : VaultServiceImpl) (identities : list LoadedIdentity)
    (index : BlobIndex) (request : bytes) : io W bytes :=
  match request with
  | EmptyString => io_ret failure
  | String msg_type body =>
      if (byte_of msg_type =? SSH_AGENTC_REQUEST_IDENTITIES)%Z
      then io_ret (answer_identities identities)
      else if (byte_of msg_type =? SSH_AGENTC_SIGN_REQUEST)%Z
      then handle_sign v identities index body
      else io_ret failure
  end.

(** [AgentServer::start] *)
Definition start (v : VaultServiceImpl) (filter : IdentityFilter) (socket_path : string)
  : ior W AgentServer AgentServerError.t :=
  let! identities := io_map_err AgentServerError.LoadIdentities (load_ssh_identities v filter) in
  lift (Ok (mkAgentServer v identities (blob_index identities) socket_path)).

(** ** Connections *)

Context `{AgentSystem W}.

(** The reply to a request, the token for the idle timer, and the write. *)
Definition answer (srv : AgentServer) (request : bytes) : ior W () string :=
  let* response := dispatch (as_vault srv) (as_identities srv) (as_blob_index srv) request in
  let* _ :=
    match response with
    | String c _ => if (byte_of c =? SSH_AGENT_SIGN_RESPONSE)%Z
                    then let* sent := try_send in io_ret () else io_ret ()
    | EmptyString => io_ret ()
    end in
  stream_write (frame response).

(** The inner loop, with the bytes that are left as its measure. *)
Fixpoint serve_frames (fuel : nat) (srv : AgentServer) (input : bytes) : io W () :=
  match fuel with
  | O => io_ret ()
  | S fuel =>
      match read_frame input with
      | Frame.Eof | Frame.Error _ => io_ret ()
      | Frame.Payload request rest =>
          let* written := answer srv request in
          match written with
          | Ok _ => serve_frames fuel srv rest
          | Err _ => io_ret ()
          end
      end
  end.

Definition serve_connection (srv : AgentServer) (input : bytes) : io W () :=
  serve_frames (String.length input) srv input.

(** The accept loop over what it accepts until a signal or the idle timer drops it. *)
Fixpoint accept_loop (srv : AgentServer) (accepted : list Accepted.t)
  : ior W () AgentServerError.t :=
  match accepted with
  | [] => lift (Ok ())
  | Accepted.Failed e :: _ => lift (Err (AgentServerError.Accept e))
  | Accepted.Connection input :: accepted =>
      let* _ := serve_connection srv input in
      accept_loop srv accepted
  end.

(** ** The life of the server *)

Context `{Fs W} `{DirFs W}.

Definition set_mode (path : string) (mode : Z) : ior W () AgentServerError.t :=
  io_map_err (AgentServerError.Bind path) (fs_set_mode path mode).

Definition ensure_parent (socket_path : string) : ior W () AgentServerError.t :=
  match Path.parent socket_path with
  | Some parent =>
      if bool_decide (parent = "") then lift (Ok ())
      else
        let* exists_ := fs_exists parent in
        if exists_ : bool then lift (Ok ())
        else
          let! _ := io_map_err (AgentServerError.Bind parent) (fs_create_dir_all parent) in
          set_mode parent 448
  | None => lift (Ok ())
  end.

(** Removing the pidfile when the socket could not be set up. *)
Definition unless_ready {A} (pidfile_path : string) (m : ior W A AgentServerError.t)
  : ior W A AgentServerError.t :=
  let* r := m in
  match r with
  | Ok a => lift (Ok a)
  | Err e =>
      let* _ := fs_remove_file pidfile_path in
      lift (Err e)
  end.

(** The second condition of each removal only decides about a warning. *)
Definition remove_logged (path : string) : io W () :=
  let* r := fs_remove_file path in
  match r with
  | Ok _ => io_ret ()
  | Err _ => let* _ := fs_exists path in io_ret ()
  end.

(** [serve]: the accept loop ends by itself, or the signal or the timer ends it. *)
Definition serve (srv : AgentServer) (accepted : list Accepted.t)
  : ior W () AgentServerError.t :=
  let socket_path := as_socket_path srv in
  let pidfile_path := pidfile_for_socket socket_path in
  let! _ := ensure_parent socket_path in
  let* _ := fs_remove_file socket_path in
  let* pid := process_id in
  let! _ := io_map_err (AgentServerError.Pidfile pidfile_path)
              (fs_write pidfile_path (pretty pid +:+ newline)) in
  let! _ := unless_ready pidfile_path
              (io_map_err (AgentServerError.Bind socket_path) (listener_bind socket_path)) in
  let! _ := unless_ready pidfile_path (set_mode socket_path 384) in
  let* result := accept_loop srv accepted in
  let* _ := remove_logged socket_path in
  let* _ := remove_logged pidfile_path in
  io_ret result.

(** ** The command (lock.rs, cli.rs) *)

(** [AgentLock::acquire]; the lock is held until its owner returns. *)
Definition acquire (data_dir : string) : ior W () AgentLockError.t :=
  let! _ := io_map_err AgentLockError.Io (fs_create_dir_all data_dir) in
  let lock_path := Path.join data_dir LOCK_FILENAME in
  let! _ := io_map_err AgentLockError.Io (lock_file_open lock_path) in
  let! locked := io_map_err AgentLockError.Io (try_lock_exclusive lock_path) in
  lift (if locked : bool then Ok () else Err AgentLockError.AlreadyRunning).

Definition build_filter `{Regex} `{RegexError} (only : list string) (allow : option string)
  : result IdentityFilter AgentCliError.t :=
  match allow with
  | Some pattern =>
      let? re := ok_or (AgentCliError.InvalidRegex (regex_error pattern)) (regex_new pattern) in
      Ok (mkIdentityFilter only (Some re))
  | None => Ok (mkIdentityFilter only None)
  end.

Context {Conn : Type} `{Connections W Conn} `{MigrationSql}.

Definition unlock_vault (vault_dir password : string) : ior W VaultServiceImpl Fault.t :=
  let failed e := Fault.Failed e in
  let! keystore := KeyStore.unlock vault_dir password in
  let! db_page_key := io_map_err failed (KeyStore.db_page_key keystore) in
  let! conn := io_map_err (λ e, failed (VaultDbError.display e))
                 (open_sqlcipher_vault (Conn := Conn) vault_dir db_page_key) in
  let* v := VaultServiceImpl.new_unlocked conn (CryptoManager.from_unlocked_keystore keystore) in
  lift (Ok v).

(** [unlock_and_serve_with_lock]: the failure is a panic of the key store. *)
Definition unlock_and_serve_with_lock (vault_dir password : string) (filter : IdentityFilter)
    (socket_path : string) (accepted : list Accepted.t)
  : ior W (result () AgentCliError.t) Fault.t :=
  on_fault (unlock_vault vault_dir password)
    (λ e, lift (Ok (Err (AgentCliError.Unlock e))))
    (λ v,
      let* served := io_map_err AgentCliError.Server
        (let! srv := start v filter socket_path in
         let* _ := print_line ("SSH_AUTH_SOCK=" +:+ socket_path) in
         serve srv accepted) in
      lift (Ok served)).

Definition unlock_and_serve (vault_dir password : string) (filter : IdentityFilter)
    (socket_path : string) (accepted : list Accepted.t)
  : ior W (result () AgentCliError.t) Fault.t :=
  let* lock := acquire vault_dir in
  match lock with
  | Err e => lift (Ok (Err (AgentCliError.Lock e)))
  | Ok _ => unlock_and_serve_with_lock vault_dir password filter socket_path accepted
  end.

End server.
End Agent.

(** ** Lemmas *)

(** The timer ends one window after it was armed last, with no signature in between. *)
Lemma idle_timer_ends window signs : ∀ armed,
  (0 ≤ window)%Z →
  ∃ last, last ∈ armed :: signs ∧ idle_timer window armed signs = (last + window)%Z.
Proof.
  induction signs as [|t signs IH]; intros armed Hw; cbn; [by exists armed; split; [left|]|].
  destruct (t <? armed + window)%Z; [|by exists armed; split; [left|]].
  destruct (IH t Hw) as (l & Hl & ->). exists l. split; [by right|done].
Qed.

Lemma blob_index_lookup identities blob id algo :
  blob_index identities !! blob = Some (id, algo) →
  ∃ i, i ∈ identities ∧ li_public_blob i = blob ∧ li_record_id i = id ∧ li_algo i = algo.
Proof.
  unfold blob_index. assert (∀ m : gmap bytes (Uuid * SshAlgo.t),
    foldl (λ m i, <[li_public_blob i := (li_record_id i, li_algo i)]> m) m identities !! blob
      = Some (id, algo) →
    m !! blob = Some (id, algo) ∨
    ∃ i, i ∈ identities ∧ li_public_blob i = blob ∧ li_record_id i = id ∧ li_algo i = algo) as Hf.
  { induction identities as [|i identities IH]; intros m Hm; [by left|]. cbn in Hm.
    apply IH in Hm as [Hm|(i' & Hi & Hi')].
    - destruct (decide (li_public_blob i = blob)) as [<-|Hb].
      + rewrite lookup_insert_eq in Hm. injection Hm as <- <-. right. exists i.
        split; [by left|done].
      + rewrite lookup_insert_ne in Hm by done. by left.
    - right. exists i'. split; [by right|done]. }
  intros [Hm|Hm]%Hf; [discriminate Hm|done].
Qed.

(** *** The list of identities, as a client reads it *)

Fixpoint read_identities (n : nat) (input : bytes) : option (list (bytes * string)) :=
  match n with
  | O => Some []
  | S n =>
      '(blob, rest) ← read_string input;
      '(comment, rest) ← read_string rest;
      l ← read_identities n rest;
      Some ((blob, comment) :: l)
  end.

Definition read_answer (response : bytes) : option (list (bytes * string)) :=
  match response with
  | String c rest =>
      if (byte_of c =? SSH_AGENT_IDENTITIES_ANSWER)%Z
      then '(n, rest) ← read_u32 rest; read_identities (Z.to_nat n) rest
      else None
  | EmptyString => None
  end.

Definition sendable_string (s : bytes) : Prop := (Z.of_nat (String.length s) < 2 ^ 32)%Z.

(** A client reads the identities that the server offers.  The answer to a request for
    the identities, read as the protocol says (a number, then a blob and a comment for
    each), is the public blobs and the names of the loaded identities in their order, as
    long as their number and their lengths fit into 32 bits. *)
Lemma identities_roundtrip identities :
  (Z.of_nat (length identities) < 2 ^ 32)%Z →
  Forall (λ i, sendable_string (li_public_blob i) ∧ sendable_string (li_name i)) identities →
  read_answer (answer_identities identities)
  = Some ((λ i, (li_public_blob i, li_name i)) <$> identities).
Proof.
  intros Hn Hl. unfold answer_identities. cbn [of_bytes]. rewrite string_app_cons. cbn [read_answer].
  rewrite byte_of_ascii by done. cbn [Z.eqb]. change (EmptyString +:+ ?s) with s.
  cbn -[read_u32 be32 read_identities]. rewrite read_be32 by lia. cbn -[read_identities].
  rewrite Nat2Z.id. clear Hn.
  induction Hl as [|i identities [Hb Hc] Hl IH]; [done|].
  cbn -[read_string write_string]. rewrite read_write_string by done. cbn -[read_string write_string].
  rewrite read_write_string by done. cbn -[read_string write_string]. by rewrite IH.
Qed.

(** *** A connection answers its requests in order *)

Section connection.
Context {Key Public W : Type} `{SshKeyLib Key Public}.
Context `{Libs} `{UuidErrors} `{Lowercase} `{Runtime} `{CryptoLibs} `{Secure W} `{System W}.
Context `{Sqlite W} `{Serde Json} `{Serde PayloadPlaintextDto.t} `{AgentSystem W}.
Import Agent.

(** The requests one after the other, until a reply cannot be written. *)
Fixpoint answer_all (srv : AgentServer) (requests : list bytes) : io W () :=
  match requests with
  | [] => io_ret ()
  | request :: requests =>
      let* written := answer srv request in
      match written with
      | Ok _ => answer_all srv requests
      | Err _ => io_ret ()
      end
  end.

Definition frames (requests : list bytes) : bytes :=
  foldr (λ r out, frame r +:+ out) "" requests.

(** The bytes that are left hold no further request. *)
Definition no_request (input : bytes) : Prop :=
  ∀ request rest, read_frame input ≠ Frame.Payload request rest.

Lemma serve_frames_requests srv tail : no_request tail → ∀ requests fuel (w : W),
  Forall (λ r, (Z.of_nat (String.length r) ≤ MAX_FRAME_LEN)%Z) requests →
  String.length (frames requests +:+ tail) ≤ fuel →
  serve_frames fuel srv (frames requests +:+ tail) w = answer_all srv requests w.
Proof.
  intros Ht requests. induction requests as [|r requests IH]; intros fuel w Hr Hf.
  { change (frames [] +:+ tail) with tail. destruct fuel as [|fuel]; [done|].
    cbn [serve_frames answer_all]. destruct (read_frame tail) eqn:E; [done..|].
    by apply Ht in E. }
  apply Forall_cons in Hr as [Hr Hrs]. cbn [frames foldr] in *. rewrite <- string_app_assoc in *.
  change (foldr _ _ requests) with (frames requests) in *.
  pose proof (read_written_frame r (frames requests +:+ tail) Hr) as E.
  apply read_frame_shorter in E as Hlt. destruct fuel as [|fuel]; [lia|].
  cbn [serve_frames answer_all]. rewrite E. unfold io_bind.
  destruct (answer srv r w) as [[[]|e] w1]; [|done]. apply IH; [done|lia].
Qed.

(** C21: a connection answers its requests in order.  Serving the bytes of any requests of
    at most 256 KiB each, followed by anything that is no complete request (the end of the
    connection, a part of a frame, or a length above the limit), is the same as dispatching
    the requests one after the other and writing a reply to each: no bad request ends the
    connection, and nothing but a failed write leaves a request without its reply. *)
Theorem connection_answers_requests srv requests tail (w : W) :
  Forall (λ r, (Z.of_nat (String.length r) ≤ MAX_FRAME_LEN)%Z) requests →
  no_request tail →
  serve_connection srv (frames requests +:+ tail) w = answer_all srv requests w.
Proof. intros Hr Ht. by apply serve_frames_requests. Qed.

End connection.

(** *** What a request can do *)

Section safety.
Context {Key Public W : Type} `{SshKeyLib Key Public}.
Context `{LibLaws} `{UuidErrors} `{Lowercase} `{Runtime} `{ConversionErrors} `{CryptoLibLaws}.
Context `{SqliteLaws W} `{!SecureLaws W} `{!RangeLaws W} `{!Serde Json}.
Context `{!Serde PayloadPlaintextDto.t}.
Import Agent.

Lemma keeps_no_audit v id field : keeps tables (Records.decrypt_field_no_audit v id field).
Proof.
  unfold Records.decrypt_field_no_audit, Records.decrypt_field_with_audit, Records.decrypt_stored,
    Records.check_unlocked, VaultService.crypto. solve_keeps.
Qed.
#[local] Hint Resolve keeps_no_audit : keeps.

Lemma keeps_sign v id data flags algo : keeps tables (sign v id data flags algo).
Proof. unfold sign. solve_keeps. Qed.

Lemma parse_sign_request_sound body blob data flags :
  parse_sign_request body = Some (blob, data, flags) →
  (0 ≤ flags < 2 ^ 32)%Z ∧
  ∃ rest, body = write_string blob +:+ write_string data +:+ be32 flags +:+ rest.
Proof.
  unfold parse_sign_request.
  intros ([b r1] & ->%read_string_sound & ([d r2] & ->%read_string_sound & Hf)%bind_Some)%bind_Some.
  apply bind_Some in Hf as ([f r3] & [Hb ->]%read_u32_bound & [= <- <- <-]).
  split; [done|]. exists r3. done.
Qed.

(** The row of a signature. *)
Definition sign_row (i : LoadedIdentity) (flags : Z) (row : AuditLogRow) : Prop :=
  al_operation row = AuditOperation.to_db_str AuditOperation.SshSign ∧
  al_record_id row = Some (uuid_to_string (li_record_id i)) ∧
  al_detail row = Some (SshAlgo.wire_name (li_algo i) (sign_flags flags)).

Lemma sign_audit_row i flags name (w : W) r w' :
  VaultService.db (insert_audit_entry AuditOperation.SshSign (Some (li_record_id i)) name
    (Some (SshAlgo.wire_name (li_algo i) (sign_flags flags)))) w = (r, w') →
  tables w' = tables w ∨
  ∃ row, sign_row i flags row ∧ tables w' = (tables w) <| t_audit_log ::= λ l, l ++ [row] |>.
Proof.
  unfold VaultService.db, insert_audit_entry, sqlite, io_map_err. intros Hr.
  apply io_bind_eq in Hr as (r1 & w1 & Hr & [= _ <-]).
  apply io_bind_eq in Hr as (n & w2 & En & Hr). apply now_tables in En.
  apply io_bind_eq in Hr as (r3 & w3 & Hr & [= _ <-]). destruct r3 as [[]|e].
  - apply execute_ok in Hr. injection Hr as <-. rewrite En. right. eexists. split; [|done].
    by split_and!.
  - apply execute_err in Hr. left. congruence.
Qed.

(** What a request may do: fail and change nothing, list the identities, or sign. *)
Definition signed (v : VaultServiceImpl) (identities : list LoadedIdentity) (request : bytes)
    (w : W) (response : bytes) (w' : W) : Prop :=
  ∃ i data flags rest sig w1, i ∈ identities ∧ (0 ≤ flags < 2 ^ 32)%Z ∧
    request = of_bytes [SSH_AGENTC_SIGN_REQUEST] +:+ write_string (li_public_blob i)
                +:+ write_string data +:+ be32 flags +:+ rest ∧
    sign v (li_record_id i) data (sign_flags flags) (li_algo i) w = (Ok sig, w1) ∧
    response = of_bytes [SSH_AGENT_SIGN_RESPONSE] +:+ write_string sig ∧
    (tables w' = tables w ∨
     ∃ row, sign_row i flags row ∧ tables w' = (tables w) <| t_audit_log ::= λ l, l ++ [row] |>).

Lemma handle_sign_outcome v identities body (w : W) response w' :
  handle_sign v identities (blob_index identities) body w = (response, w') →
  (response = failure ∧ tables w' = tables w) ∨
  signed v identities (of_bytes [SSH_AGENTC_SIGN_REQUEST] +:+ body) w response w'.
Proof.
  intros Hr. unfold handle_sign in Hr.
  destruct (parse_sign_request body) as [[[blob data] flags]|] eqn:Ep; [|left; by injection Hr as <- <-].
  apply parse_sign_request_sound in Ep as (Hflags & rest & ->).
  destruct (blob_index identities !! blob) as [[id algo]|] eqn:Ei; [|left; by injection Hr as <- <-].
  apply blob_index_lookup in Ei as (i & Hi & <- & <- & <-).
  apply io_bind_eq in Hr as (s & w1 & Es & Hr). apply keeps_sign in Es as Ht.
  destruct s as [sig|e]; [|left; by injection Hr as <- <-].
  apply io_bind_eq in Hr as (u & w2 & Eu & Hr). injection Hr as <- <-.
  apply sign_audit_row in Eu. rewrite Ht in Eu. right.
  exists i, data, flags, rest, sig, w1. done.
Qed.

(** C20: a request cannot do more than it says.  Whatever bytes a client sends, the reply is
    a failure and no table changes; or the request asks for the identities, the reply lists
    them and nothing happens; or the request names the public blob of a loaded identity,
    the reply is the signature of its data with the key of that record, and the database
    changes by at most one row of the audit log, which names the record and the algorithm. *)
Theorem dispatch_safe v identities request (w : W) response w' :
  dispatch v identities (blob_index identities) request w = (response, w') →
  (response = failure ∧ tables w' = tables w) ∨
  ((∃ body, request = of_bytes [SSH_AGENTC_REQUEST_IDENTITIES] +:+ body) ∧
     response = answer_identities identities ∧ w' = w) ∨
  signed v identities request w response w'.
Proof.
  assert (∀ c z body, (byte_of c =? z)%Z = true → String c body = of_bytes [z] +:+ body) as Hc.
  { intros c z body <-%Z.eqb_eq. cbn [of_bytes]. by rewrite ascii_of_byte_of. }
  intros Hr. destruct request as [|c body]; cbn [dispatch] in Hr; [left; by injection Hr as <- <-|].
  destruct (byte_of c =? SSH_AGENTC_REQUEST_IDENTITIES)%Z eqn:E1.
  { right. left. injection Hr as <- <-. split_and!; [|done..]. exists body. by apply Hc. }
  destruct (byte_of c =? SSH_AGENTC_SIGN_REQUEST)%Z eqn:E2; [|left; by injection Hr as <- <-].
  apply handle_sign_outcome in Hr as [Hf|Hs]; [by left|]. right. right. by rewrite (Hc _ _ _ E2).
Qed.

(** A record of type SSH that is in the vault and not in the trash. *)
Definition ssh_row (w : W) (id : Uuid) : Prop :=
  ∃ row, records w !! uuid_to_string id = Some row ∧ row_deleted row = 0%Z ∧
    CredentialType.from_db_str (row_credential_type row) = Ok CredentialType.Ssh.

Lemma ssh_records (w : W) l w' :
  map_Forall row_wf (records w) → HealthExec.list_all_stored_records w = (Ok l, w') →
  (∀ s, s ∈ l → is_ssh s → ssh_row w (st_id s)) ∧
  ∀ id, (id < 2 ^ 128)%N → ssh_row w id → ∃ s, s ∈ l ∧ st_id s = id ∧ is_ssh s.
Proof.
  intros Hwf (_ & rows & Hrows & Hl)%active_rows_ok. split.
  - intros s [i Hi]%list_elem_of_lookup Ht.
    destruct (Forall2_lookup_r _ _ _ _ _ Hl Hi) as (row & Hrow & tags & Hs).
    apply list_elem_of_lookup_2, Hrows in Hrow as [Hdel [key Hkey]].
    destruct (Hwf _ _ Hkey) as (Hid & (u & Hu & Hk) & _).
    apply to_stored_ok in Hs as Hs'. destruct Hs' as (Hp & _).
    rewrite Hid, Hk, uuid_roundtrip in Hp by done. injection Hp as <-. rewrite Hk in Hkey.
    exists row. split_and!; [done..|]. unfold RecordRow.to_stored_record in Hs. inv_ok Hs.
    simplify_eq. by rewrite <- Ht.
  - intros id Hid (row & Hrow & Hdel & Ht).
    assert (row ∈ rows) as [i Hi]%list_elem_of_lookup by (apply Hrows; eauto).
    destruct (Forall2_lookup_l _ _ _ _ _ Hl Hi) as (s & Hs & tags & Hto).
    exists s. split; [by eapply list_elem_of_lookup_2|]. apply to_stored_ok in Hto as Hp.
    destruct Hp as (Hp & _), (Hwf _ _ Hrow) as (Hrid & _).
    rewrite Hrid, uuid_roundtrip in Hp by done. injection Hp as <-. split; [done|].
    unfold RecordRow.to_stored_record in Hto. inv_ok Hto. simplify_eq. unfold is_ssh. cbn. congruence.
Qed.

(** The agent offers what the filter lets through, and nothing else.  Every identity of
    a server that has started belongs to a record of type SSH that is in the vault and not
    in the trash, and its name passes the filter; every such record is offered, unless the
    name read from it is filtered out; and a blob that the server signs for is the public
    key of an offered identity. *)
Lemma offers_allowed_identities v filter socket (w : W) srv w' :
  map_Forall row_wf (records w) →
  start v filter socket w = (Ok srv, w') →
  Forall (λ i, ssh_row w (li_record_id i) ∧ matches filter (li_name i) = true)
    (as_identities srv) ∧
  (∀ id, (id < 2 ^ 128)%N → ssh_row w id →
     (∃ i, i ∈ as_identities srv ∧ li_record_id i = id) ∨
     ∃ s, st_id s = id ∧ filtered_out (W := W) v filter s) ∧
  ∀ blob id algo, as_blob_index srv !! blob = Some (id, algo) →
    ∃ i, i ∈ as_identities srv ∧ li_public_blob i = blob ∧ li_record_id i = id ∧ li_algo i = algo.
Proof.
  intros Hwf (ids & w1 & Hl%io_map_err_ok & Hs)%ior_bind_ok. injection Hs as <- <-. cbn.
  apply ior_bind_ok in Hl as (l & w2 & El%io_map_err_ok & Hl).
  destruct (ssh_records w l w2 Hwf El) as [Hin1 Hin2]. apply load_identities_ok in Hl as [Hi Hc].
  split_and!.
  - eapply Forall_impl; [exact Hi|]. intros i (s & Hin & -> & Ht & Hm). split; [by apply Hin1|done].
  - intros id Hid (s & Hin & <- & Ht)%Hin2; [|done]. destruct (Hc s Hin Ht); [by left|].
    right. by exists s.
  - apply blob_index_lookup.
Qed.

End safety.

(** *** The files of the server *)

(** Binding creates the file of the socket; nothing else changes a file. *)
Class AgentLaws (W : Type) `{FsLaws W} `{System W} `{AgentSystem W} : Prop := {
  bind_ok p w u w' : listener_bind p w = (Ok u, w') →
    ∃ b, fs_files w' = <[p := b]> (fs_files w);
  bind_err p w e w' : listener_bind p w = (Err e, w') → fs_files w' = fs_files w;
  stream_files b w r w' : stream_write b w = (r, w') → fs_files w' = fs_files w;
  process_files w r w' : process_id w = (r, w') → fs_files w' = fs_files w;
  try_send_disk w r w' : try_send w = (r, w') → fs_files w' = fs_files w;
}.

Section lifecycle.
Context {Key Public W : Type} `{SshKeyLib Key Public}.
Context `{Libs} `{UuidErrors} `{Lowercase} `{Runtime} `{CryptoLibs} `{FsLaws W} `{!DirFs W}.
Context `{!Secure W} `{!System W} `{!DirFsLaws W} `{!Sqlite W} `{!SqlFiles W} `{!FsRemoval W}.
Context `{!AgentSystem W} `{!AgentLaws W}.
Context `{!Serde Json} `{!Serde PayloadPlaintextDto.t}.
Import Agent.

#[local] Hint Extern 0 (keeps fs_files try_send) => exact try_send_disk : keeps.
#[local] Hint Extern 0 (keeps fs_files process_id) => exact process_files : keeps.
#[local] Hint Extern 0 (keeps fs_files (stream_write _)) => exact (stream_files _) : keeps.

Lemma data_keeps {A} (r : result A DataError.t) q : keeps (file_at q) (data (W := W) r).
Proof. unfold data. solve_keeps. Qed.
#[local] Hint Resolve data_keeps : keeps.

Lemma field_files v id field q :
  ¬ database_file q → keeps (file_at q) (Records.decrypt_field_no_audit v id field).
Proof.
  intros Hq. unfold Records.decrypt_field_no_audit, Records.decrypt_field_with_audit, Records.decrypt_stored,
    Records.check_unlocked, VaultService.crypto, VaultService.get_stored_record, VaultService.db,
    get_record, decrypt_payload, CryptoManager.decrypt, CryptoManager.get_dek, KeyStore.get_dek,
    locked_key, get_record_tags_inner, sqlite.
  solve_keeps.
Qed.
#[local] Hint Resolve field_files : keeps.

Lemma answer_files srv request q :
  ¬ database_file q → keeps (file_at q) (answer srv request).
Proof.
  intros Hq. unfold answer, dispatch, handle_sign, sign, VaultService.db, insert_audit_entry, sqlite. solve_keeps.
Qed.
#[local] Hint Resolve answer_files : keeps.

Lemma connection_files srv input q :
  ¬ database_file q → keeps (file_at q) (serve_connection srv input).
Proof.
  intros Hq. unfold serve_connection. generalize (String.length input) as n. intros n. revert input.
  induction n as [|n IH]; intros input; cbn [serve_frames]; solve_keeps.
Qed.
#[local] Hint Resolve connection_files : keeps.

Lemma accept_loop_files srv accepted q :
  ¬ database_file q → keeps (file_at q) (accept_loop srv accepted).
Proof. intros Hq. induction accepted as [|[] accepted IH]; cbn [accept_loop]; solve_keeps. Qed.

Lemma set_mode_keeps p m : keeps fs_files (set_mode (W := W) p m).
Proof. unfold set_mode. solve_keeps. Qed.
#[local] Hint Resolve set_mode_keeps : keeps.

Lemma ensure_parent_files p : keeps fs_files (ensure_parent (W := W) p).
Proof. unfold ensure_parent. solve_keeps. Qed.

(** What has happened when the parent is not there. *)
Lemma ensure_parent_err p (w : W) e w' :
  ensure_parent p w = (Err e, w') →
  ∃ parent m, Path.parent p = Some parent ∧ e = AgentServerError.Bind parent m.
Proof.
  unfold ensure_parent. destruct (Path.parent p) as [d|] eqn:Ed; [|discriminate].
  case_bool_decide; [discriminate|]. intros Hr. apply io_bind_eq in Hr as (b & w1 & _ & Hr).
  destruct b; [discriminate|]. unfold ior_bind in Hr.
  apply io_bind_eq in Hr as ([u|e1] & w2 & E & Hr).
  - unfold set_mode, io_map_err in Hr. apply io_bind_eq in Hr as (r & w3 & _ & Hr).
    injection Hr as Hr <-. destruct r; [discriminate|]. injection Hr as <-. by eexists d, _.
  - injection Hr as <- <-. unfold io_map_err in E. apply io_bind_eq in E as (r & w3 & _ & E).
    injection E as E <-. destruct r; [discriminate|]. injection E as <-. by eexists d, _.
Qed.

Lemma remove_logged_gone p (w : W) r w' :
  remove_logged p w = (r, w') → fs_files w' = delete p (fs_files w).
Proof.
  unfold remove_logged. intros (r1 & w1 & E & Hr)%io_bind_eq. apply remove_gone in E as <-.
  destruct r1; [by injection Hr as _ <-|]. apply io_bind_eq in Hr as (b & w2 & Eb & Hr).
  injection Hr as _ <-. by apply fs_exists_files in Eb.
Qed.

(** No file but the two of the server and those of a database has changed. *)
Definition elsewhere (socket_path : string) (w w' : W) : Prop :=
  ∀ q, q ≠ socket_path → q ≠ pidfile_for_socket socket_path → ¬ database_file q →
    fs_files w' !! q = fs_files w !! q.

#[local] Instance elsewhere_refl p : Reflexive (elsewhere p).
Proof. done. Qed.
#[local] Instance elsewhere_trans p : Transitive (elsewhere p).
Proof. intros w1 w2 w3 E1 E2 q Hs Hp Hd. by rewrite E2, E1. Qed.

Lemma elsewhere_delete p q (w w' : W) :
  q = p ∨ q = pidfile_for_socket p → fs_files w' = delete q (fs_files w) → elsewhere p w w'.
Proof. intros Hq E x Hs Hp _. rewrite E. apply lookup_delete_ne. by destruct Hq as [->| ->]. Qed.

Lemma elsewhere_eq p (w w' : W) : fs_files w' = fs_files w → elsewhere p w w'.
Proof. intros E x _ _ _. by rewrite E. Qed.

(** A step that sets the socket up: when it fails, the pidfile is gone. *)
Lemma ready_step {X} p (f : ior W X string) (w : W) r w' :
  (∀ w r w', f w = (r, w') → elsewhere p w w') →
  unless_ready (pidfile_for_socket p) (io_map_err (AgentServerError.Bind p) f) w = (r, w') →
  elsewhere p w w' ∧
  ∀ e, r = Err e →
    (∃ m, e = AgentServerError.Bind p m) ∧ fs_files w' !! pidfile_for_socket p = None.
Proof.
  intros Hf. unfold unless_ready. intros (r1 & w1 & E & Hr)%io_bind_eq.
  unfold io_map_err in E. apply io_bind_eq in E as (r0 & w0 & E%Hf & [= <- <-]).
  destruct r0 as [x|m]; cbn in Hr; [injection Hr as <- <-; by split|].
  apply io_bind_eq in Hr as (u & w2 & E2%remove_gone & Hr). injection Hr as <- <-. split.
  - transitivity w0; [done|]. apply (elsewhere_delete p (pidfile_for_socket p)); [by right|done].
  - intros e [= <-]. split; [by exists m|]. rewrite E2. apply lookup_delete_eq.
Qed.

Lemma bind_elsewhere p (w : W) r w' : listener_bind p w = (r, w') → elsewhere p w w'.
Proof.
  destruct r as [u|e]; intros E; [|by apply elsewhere_eq; eapply bind_err].
  apply bind_ok in E as [b E]. intros q Hq _ _. rewrite E. by apply lookup_insert_ne.
Qed.

Lemma chmod_elsewhere p m (w : W) r w' : fs_set_mode p m w = (r, w') → elsewhere p w w'.
Proof. intros E. eapply elsewhere_eq, set_mode_files, E. Qed.

(** The end of the server: both files are removed, whatever the loop returned. *)
Lemma serve_end srv accepted (w : W) r w' :
  (let* result := accept_loop srv accepted in
   let* _ := remove_logged (as_socket_path srv) in
   let* _ := remove_logged (pidfile_for_socket (as_socket_path srv)) in
   io_ret result) w = (r, w') →
  ∃ w1, accept_loop srv accepted w = (r, w1) ∧ elsewhere (as_socket_path srv) w w1 ∧
    fs_files w' = delete (pidfile_for_socket (as_socket_path srv))
                    (delete (as_socket_path srv) (fs_files w1)).
Proof.
  intros (r1 & w1 & E1 & Hr)%io_bind_eq.
  assert (elsewhere (as_socket_path srv) w w1) as He.
  { intros q _ _ Hq. by eapply accept_loop_files in E1. }
  apply io_bind_eq in Hr as (u2 & w2 & E2 & Hr). apply remove_logged_gone in E2.
  apply io_bind_eq in Hr as (u3 & w3 & E3 & Hr). apply remove_logged_gone in E3.
  injection Hr as <- <-. exists w1. split_and!; [done..|]. by rewrite E3, E2.
Qed.

Lemma accept_loop_error srv accepted : ∀ (w : W) e w',
  accept_loop srv accepted w = (Err e, w') → ∃ m, e = AgentServerError.Accept m.
Proof.
  induction accepted as [|[input|m] accepted IH]; intros w e w' Hr; cbn in Hr; [discriminate| |].
  - apply io_bind_eq in Hr as (u & w1 & _ & Hr). by eapply IH.
  - injection Hr as <- _. by exists m.
Qed.

(** The server leaves nothing behind.  When it has served, because its listener was
    dropped (a signal, the idle timer) or because accepting failed, neither the socket nor
    the pidfile is there; when the socket could not be bound or protected, the pidfile is
    not there; a pidfile that could not be written means that the stale socket is gone.  The
    server never reports another error, and no file but these and those of a database is
    created, changed or removed. *)
Lemma serve_cleans_up srv accepted (w : W) r w' :
  serve srv accepted w = (r, w') →
  let socket := as_socket_path srv in
  let pidfile := pidfile_for_socket socket in
  elsewhere socket w w' ∧
  match r with
  | Ok _ | Err (AgentServerError.Accept _) =>
      fs_files w' !! socket = None ∧ fs_files w' !! pidfile = None
  | Err (AgentServerError.Bind p _) =>
      Path.parent socket = Some p ∨ fs_files w' !! pidfile = None
  | Err (AgentServerError.Pidfile _ _) => pidfile = socket ∨ fs_files w' !! socket = None
  | Err (AgentServerError.LoadIdentities _) => False
  end.
Proof.
  intros Hr. cbv zeta. unfold serve in Hr. set (p := as_socket_path srv) in *.
  apply io_bind_eq in Hr as ([u|e] & w1 & E & Hr); apply ensure_parent_files in E as Hf.
  2: { injection Hr as <- <-. split; [by apply elsewhere_eq|].
       apply ensure_parent_err in E as (d & m & Hd & ->). by left. }
  apply io_bind_eq in Hr as (u2 & w2 & E2 & Hr). apply remove_gone in E2.
  apply io_bind_eq in Hr as (pid & w3 & E3 & Hr). apply process_files in E3.
  assert (elsewhere p w w3) as He.
  { transitivity w1; [by apply elsewhere_eq|]. apply (elsewhere_delete p p); [by left|congruence]. }
  assert (fs_files w3 !! p = None) as Hn by (rewrite E3, E2; apply lookup_delete_eq).
  clear E E2 E3 Hf. apply io_bind_eq in Hr as (r4 & w4 & E4 & Hr).
  unfold io_map_err in E4 at 1. apply io_bind_eq in E4 as (r4' & w4' & E4 & [= Er <-]).
  assert (elsewhere p w w4') as He4.
  { transitivity w3; [done|]. intros q _ Hq _. by eapply fs_write_other. }
  destruct r4' as [u4|m]; cbn in Er; subst r4.
  2: { injection Hr as <- <-. split; [done|]. destruct (decide (pidfile_for_socket p = p)); [by left|].
       right. rewrite <- Hn. by eapply fs_write_other. }
  clear E4 Hn He. apply io_bind_eq in Hr as (r5 & w5 & E5 & Hr).
  apply ready_step in E5 as [He5 H5'];
    [|intros; by eapply bind_elsewhere]. apply (elsewhere_trans p _ _ _ He4) in He5.
  destruct r5 as [u5|e]; [|injection Hr as <- <-; destruct (H5' e eq_refl) as [[m ->] Hg]; auto].
  apply io_bind_eq in Hr as (r6 & w6 & E6 & Hr).
  apply ready_step in E6 as [He6 H6'];
    [|intros; by eapply chmod_elsewhere]. apply (elsewhere_trans p _ _ _ He5) in He6.
  destruct r6 as [u6|e]; [|injection Hr as <- <-; destruct (H6' e eq_refl) as [[m ->] Hg]; auto].
  apply serve_end in Hr as (w7 & E7 & He7 & Hd). split.
  - transitivity w6; [done|]. intros q Hs Hq Hdb. rewrite Hd, !lookup_delete_ne by done. by apply He7.
  - assert (fs_files w' !! p = None ∧ fs_files w' !! pidfile_for_socket p = None) as Hg.
    { rewrite Hd. split; [|apply lookup_delete_eq].
      apply lookup_delete_None. right. apply lookup_delete_eq. }
    destruct r as [|e]; [done|]. apply accept_loop_error in E7 as [m ->]. done.
Qed.

End lifecycle.
