(* ===== verification/Demo.v ===== *)
(** * A concrete environment

    Instances of every interface of [Env], with their laws: codecs that print the bits
    of an encoding, a store kept in memory with a clock, a request counter and an outage
    switch, and a runtime.  The theorems are applied to them in [Witness]. *)

From Stdlib Require Import Ascii.
From stdpp Require Import countable.
From S2P Require Import Prelude Text Errors Env Types CloudRecord CloudMetadata Storage.
From S2P Require Import Conflict Checkpoint Lock Pipeline.

(** ** Numbers in hexadecimal, least significant digit first *)

Definition hex_digit (n : N) : ascii := ascii_of_N (if (n <? 10)%N then 48 + n else 87 + n).

Definition digit_value (c : ascii) : option N :=
  let n := N_of_ascii c in
  if (48 <=? n)%N && (n <? 58)%N then Some (n - 48)%N
  else if (97 <=? n)%N && (n <? 103)%N then Some (n - 87)%N
  else None.

Fixpoint hex (digits : nat) (n : N) : string :=
  match digits with
  | O => ""
  | S digits => String (hex_digit (n mod 16)) (hex digits (n / 16))
  end.

Fixpoint unhex (s : string) : option N :=
  match s with
  | EmptyString => Some 0%N
  | String c s =>
      d ← digit_value c;
      n ← unhex s;
      Some (d + 16 * n)%N
  end.

Lemma digit_value_hex_digit n : (n < 16)%N → digit_value (hex_digit n) = Some n.
Proof.
  intros Hn. rewrite <- (N2Nat.id n) in *. generalize dependent (N.to_nat n). clear n. intros n Hn.
  do 16 (destruct n as [|n]; [by vm_compute|]). lia.
Qed.

Lemma unhex_hex digits n : (n < 16 ^ N.of_nat digits)%N → unhex (hex digits n) = Some n.
Proof.
  revert n. induction digits as [|digits IH]; intros n Hn.
  { cbn in *. f_equal. lia. }
  assert (n / 16 < 16 ^ N.of_nat digits)%N as Hq.
  { rewrite Nat2N.inj_succ, N.pow_succ_r' in Hn. by apply N.Div0.div_lt_upper_bound. }
  cbn [hex unhex]. rewrite digit_value_hex_digit by (by apply N.mod_lt). cbn.
  rewrite IH by done. cbn. f_equal. pose proof (N.div_mod n 16). lia.
Qed.

Lemma hex_length digits n : String.length (hex digits n) = digits.
Proof. revert n. induction digits as [|k IH]; intros n; cbn; [done|]. by rewrite IH. Qed.

#[global] Arguments hex : simpl never.
#[global] Arguments unhex : simpl never.

(** ** The codec crates *)

Definition uuid_suffix : string := "-v4-".

Definition demo_uuid_to_string (u : N) : string := hex 32 u +:+ uuid_suffix.

Definition demo_uuid_parse (s : string) : option N :=
  if (String.length s =? 36)%nat then unhex (String.substring 0 32 s) else None.

(** Instants up to the year 9999, in 17 digits. *)
Definition demo_print (t : Z) : string := hex 17 (Z.to_N t).

Definition demo_parse (s : string) : option Z :=
  if (String.length s =? 17)%nat then Z.of_N <$> unhex s else None.

#[export] Instance demo_libs : Libs := {
  base64_decode s := Ok s;
  base64_encode b := b;
  sha256 b := b;
  hex_encode b := b;
  uuid_parse := demo_uuid_parse;
  uuid_to_string := demo_uuid_to_string;
  rfc3339_parse := demo_parse;
  rfc3339_print := demo_print;
  duration_debug d := pretty d;
}.

Lemma last_byte s c : last (as_bytes (s +:+ String c "")) = Some (byte_of c).
Proof. rewrite as_bytes_app. cbn. by rewrite last_snoc. Qed.

#[export] Instance demo_lib_laws : LibLaws.
Proof.
  split.
  - done.
  - intros u Hu. cbn. unfold demo_uuid_parse, demo_uuid_to_string, uuid_suffix.
    rewrite string_length_append, hex_length. cbn -[String.substring hex].
    rewrite <- (hex_length 32 u) at 1. rewrite substring_app_l. apply unhex_hex.
    change (16 ^ N.of_nat 32)%N with (2 ^ 128)%N. done.
  - done.
  - intros u. cbn. unfold demo_uuid_to_string. by rewrite string_length_append, hex_length.
  - intros u s E. cbn in E. unfold demo_uuid_to_string in E.
    change uuid_suffix with ("-v4" +:+ String "-"%char "") in E.
    change ".json" with (".jso" +:+ String "n"%char "") in E.
    rewrite !string_app_assoc in E. apply (f_equal (λ s, last (as_bytes s))) in E.
    by rewrite !last_byte in E.
  - done.
  - intros t [H0 Ht]. cbn. unfold demo_parse, demo_print. rewrite hex_length. cbn [Nat.eqb].
    rewrite unhex_hex; [cbn; f_equal; lia|].
    change (16 ^ N.of_nat 17)%N with (2 ^ 68)%N. unfold nanos_per_sec in Ht. lia.
Qed.

(** ** JSON

    A value is printed as the bits of its encoding as a binary number, a list of fields
    being flattened into one number. *)

Fixpoint print_bits (p : positive) : string :=
  match p with
  | xH => "."
  | xO p => String "0"%char (print_bits p)
  | xI p => String "1"%char (print_bits p)
  end.

Fixpoint parse_bits (s : string) : option positive :=
  match s with
  | EmptyString => None
  | String c s =>
      if bool_decide (c = "."%char) then (if bool_decide (s = "") then Some xH else None)
      else if bool_decide (c = "0"%char) then xO <$> parse_bits s
      else if bool_decide (c = "1"%char) then xI <$> parse_bits s
      else None
  end.

Lemma parse_print_bits p : parse_bits (print_bits p) = Some p.
Proof. induction p as [p IH|p IH|]; cbn; by rewrite ?IH. Qed.

Lemma print_bits_chars p : Forall is_char (as_bytes (print_bits p)) ∧
  Forall (λ b, 0 ≤ b < 128)%Z (as_bytes (print_bits p)).
Proof.
  induction p as [p [IH1 IH2]|p [IH1 IH2]|]; split; cbn; repeat constructor; try done;
    unfold is_char; cbn; lia.
Qed.

Definition serde_of {A} `{Countable A} : Serde A := {|
  to_json a := Ok (print_bits (encode a));
  from_json s :=
    match parse_bits s ≫= decode with
    | Some a => Ok a
    | None => Err "invalid value"
    end;
|}.

Lemma serde_of_laws {A} `{Countable A} : @SerdeLaws A serde_of.
Proof.
  intros a s. cbn. intros [= <-]. rewrite parse_print_bits. cbn. by rewrite decode_encode.
Qed.

#[export] Instance CredentialType_countable : Countable CredentialType.t.
Proof.
  refine (inj_countable CredentialType.to_db_str (λ s, ok (CredentialType.from_db_str s)) _).
  intros c. by rewrite from_to_db_str.
Defined.

#[export] Instance AadFields_eq_dec : EqDecision AadFields.
Proof. solve_decision. Defined.
#[export] Instance AadFields_countable : Countable AadFields.
Proof.
  refine (inj_countable (λ a, [encode (aad_record_id a); encode (aad_dek_version a)])
    (λ l, match l with
          | [p1; p2] => i ← decode p1; v ← decode p2; Some (mkAadFields i v)
          | _ => None
          end) _).
  intros []; cbn. by rewrite !decode_encode.
Defined.

#[export] Instance RecordHealthMetadata_eq_dec : EqDecision RecordHealthMetadata.
Proof. solve_decision. Defined.
#[export] Instance RecordHealthMetadata_countable : Countable RecordHealthMetadata.
Proof.
  refine (inj_countable (λ h, [encode (hm_evaluated_at h); encode (hm_weak_password h);
      encode (hm_duplicate_group_size h); encode (hm_compromised h); encode (hm_expired h)])
    (λ l, match l with
          | [p1; p2; p3; p4; p5] =>
              a ← decode p1; b ← decode p2; c ← decode p3; d ← decode p4; e ← decode p5;
              Some (mkRecordHealthMetadata a b c d e)
          | _ => None
          end) _).
  intros []; cbn. by rewrite !decode_encode.
Defined.

#[export] Instance EncryptedRecordMetadata_eq_dec : EqDecision EncryptedRecordMetadata.
Proof. solve_decision. Defined.
#[export] Instance EncryptedRecordMetadata_countable : Countable EncryptedRecordMetadata.
Proof.
  refine (inj_countable (λ r, [encode (em_encrypted_data r); encode (em_nonce r); encode (em_dek_version r)])
    (λ l, match l with
          | [p0; p1; p2] =>
              a0 ← decode p0; a1 ← decode p1; a2 ← decode p2;
              Some (mkEncryptedRecordMetadata a0 a1 a2)
          | _ => None
          end) _).
  intros []; cbn. by rewrite !decode_encode.
Defined.

#[export] Instance RecordMetadata_eq_dec : EqDecision RecordMetadata.
Proof. solve_decision. Defined.
#[export] Instance RecordMetadata_countable : Countable RecordMetadata.
Proof.
  refine (inj_countable (λ r, [encode (rm_name r); encode (rm_tags r); encode (rm_updated_at r); encode
      (rm_credential_type r); encode (rm_is_favorite r); encode (rm_expires_at r);
      encode (rm_updated_by r); encode (rm_health r); encode (rm_encrypted_metadata r)])
    (λ l, match l with
          | [p0; p1; p2; p3; p4; p5; p6; p7; p8] =>
              a0 ← decode p0; a1 ← decode p1; a2 ← decode p2; a3 ← decode p3; a4 ←
              decode p4; a5 ← decode p5; a6 ← decode p6; a7 ← decode p7; a8 ← decode p8;
              Some (mkRecordMetadata a0 a1 a2 a3 a4 a5 a6 a7 a8)
          | _ => None
          end) _).
  intros []; cbn. by rewrite !decode_encode.
Defined.

#[export] Instance CloudRecord_eq_dec : EqDecision CloudRecord.
Proof. solve_decision. Defined.
#[export] Instance CloudRecord_countable : Countable CloudRecord.
Proof.
  refine (inj_countable (λ r, [encode (cr_id r); encode (cr_version r); encode (cr_encrypted_data r); encode
      (cr_nonce r); encode (cr_dek_version r); encode (cr_aad r); encode (cr_metadata
      r); encode (cr_deleted r); encode (cr_deleted_at r)])
    (λ l, match l with
          | [p0; p1; p2; p3; p4; p5; p6; p7; p8] =>
              a0 ← decode p0; a1 ← decode p1; a2 ← decode p2; a3 ← decode p3; a4 ←
              decode p4; a5 ← decode p5; a6 ← decode p6; a7 ← decode p7; a8 ← decode p8;
              Some (mkCloudRecord a0 a1 a2 a3 a4 a5 a6 a7 a8)
          | _ => None
          end) _).
  intros []; cbn. by rewrite !decode_encode.
Defined.

#[export] Instance ConflictPayload_eq_dec : EqDecision ConflictPayload.
Proof. solve_decision. Defined.
#[export] Instance ConflictPayload_countable : Countable ConflictPayload.
Proof.
  refine (inj_countable (λ r, [encode (cp_cloud_record r); encode (cp_checksum r)])
    (λ l, match l with
          | [p0; p1] =>
              a0 ← decode p0; a1 ← decode p1;
              Some (mkConflictPayload a0 a1)
          | _ => None
          end) _).
  intros []; cbn. by rewrite !decode_encode.
Defined.

#[export] Instance DeviceInfo_eq_dec : EqDecision DeviceInfo.
Proof. solve_decision. Defined.
#[export] Instance DeviceInfo_countable : Countable DeviceInfo.
Proof.
  refine (inj_countable (λ r, [encode (dev_device_id r); encode (dev_platform r); encode (dev_device_name r);
      encode (dev_last_seen r); encode (dev_sync_count r)])
    (λ l, match l with
          | [p0; p1; p2; p3; p4] =>
              a0 ← decode p0; a1 ← decode p1; a2 ← decode p2; a3 ← decode p3; a4 ←
              decode p4;
              Some (mkDeviceInfo a0 a1 a2 a3 a4)
          | _ => None
          end) _).
  intros []; cbn. by rewrite !decode_encode.
Defined.

#[export] Instance RecordVersionInfo_eq_dec : EqDecision RecordVersionInfo.
Proof. solve_decision. Defined.
#[export] Instance RecordVersionInfo_countable : Countable RecordVersionInfo.
Proof.
  refine (inj_countable (λ r, [encode (ri_version r); encode (ri_updated_at r); encode (ri_updated_by r); encode
      (ri_checksum r); encode (ri_private_metadata_checksum r); encode (ri_deleted r)])
    (λ l, match l with
          | [p0; p1; p2; p3; p4; p5] =>
              a0 ← decode p0; a1 ← decode p1; a2 ← decode p2; a3 ← decode p3; a4 ←
              decode p4; a5 ← decode p5;
              Some (mkRecordVersionInfo a0 a1 a2 a3 a4 a5)
          | _ => None
          end) _).
  intros []; cbn. by rewrite !decode_encode.
Defined.

#[export] Instance CloudMetadata_eq_dec : EqDecision CloudMetadata.
Proof. solve_decision. Defined.
#[export] Instance CloudMetadata_countable : Countable CloudMetadata.
Proof.
  refine (inj_countable (λ r, [encode (cm_version r); encode (cm_schema_version r); encode
      (cm_current_dek_version r); encode (cm_min_supported_dek_version r); encode
      (cm_vault_identity_token r); encode (cm_metadata_version r); encode (cm_created_at
      r); encode (cm_updated_at r); encode (cm_devices r); encode (cm_records r)])
    (λ l, match l with
          | [p0; p1; p2; p3; p4; p5; p6; p7; p8; p9] =>
              a0 ← decode p0; a1 ← decode p1; a2 ← decode p2; a3 ← decode p3; a4 ←
              decode p4; a5 ← decode p5; a6 ← decode p6; a7 ← decode p7; a8 ← decode p8;
              a9 ← decode p9;
              Some (mkCloudMetadata a0 a1 a2 a3 a4 a5 a6 a7 a8 a9)
          | _ => None
          end) _).
  intros []; cbn. by rewrite !decode_encode.
Defined.

#[export] Instance LockFileData_eq_dec : EqDecision LockFileData.
Proof. solve_decision. Defined.
#[export] Instance LockFileData_countable : Countable LockFileData.
Proof.
  refine (inj_countable (λ r, [encode (lf_device_id r); encode (lf_acquired_at r); encode (lf_expires_at r)])
    (λ l, match l with
          | [p0; p1; p2] =>
              a0 ← decode p0; a1 ← decode p1; a2 ← decode p2;
              Some (mkLockFileData a0 a1 a2)
          | _ => None
          end) _).
  intros []; cbn. by rewrite !decode_encode.
Defined.

#[export] Instance PendingConflict_countable : Countable PendingConflict.
Proof.
  refine (inj_countable (λ r, [encode (pc_record_id r); encode (pc_local_version r); encode (pc_remote_version r)])
    (λ l, match l with
          | [p0; p1; p2] =>
              a0 ← decode p0; a1 ← decode p1; a2 ← decode p2;
              Some (mkPendingConflict a0 a1 a2)
          | _ => None
          end) _).
  intros []; cbn. by rewrite !decode_encode.
Defined.

#[export] Instance SyncCheckpoint_eq_dec : EqDecision SyncCheckpoint.
Proof. solve_decision. Defined.
#[export] Instance SyncCheckpoint_countable : Countable SyncCheckpoint.
Proof.
  refine (inj_countable (λ r, [encode (ck_vault_dir r); encode (ck_push_completed_ids r); encode
      (ck_pull_completed_ids r); encode (ck_detect_completed r); encode
      (ck_pending_conflicts r)])
    (λ l, match l with
          | [p0; p1; p2; p3; p4] =>
              a0 ← decode p0; a1 ← decode p1; a2 ← decode p2; a3 ← decode p3; a4 ←
              decode p4;
              Some (mkSyncCheckpoint a0 a1 a2 a3 a4)
          | _ => None
          end) _).
  intros []; cbn. by rewrite !decode_encode.
Defined.

#[export] Instance demo_serde_record : Serde CloudRecord := serde_of.
#[export] Instance demo_serde_metadata : Serde CloudMetadata := serde_of.
#[export] Instance demo_serde_payload : Serde ConflictPayload := serde_of.
#[export] Instance demo_serde_private : Serde EncryptedRecordMetadata := serde_of.
#[export] Instance demo_serde_aad : Serde AadFields := serde_of.
#[export] Instance demo_serde_lock : Serde LockFileData := serde_of.

(** [#[serde(skip)]] on the directory of a checkpoint. *)
#[export] Instance demo_serde_checkpoint : Serde SyncCheckpoint := {|
  to_json c := @to_json _ serde_of (c <| ck_vault_dir := "" |>);
  from_json s := @from_json _ serde_of s;
|}.

#[export] Instance demo_record_laws : SerdeLaws CloudRecord := serde_of_laws.
#[export] Instance demo_metadata_laws : SerdeLaws CloudMetadata := serde_of_laws.
#[export] Instance demo_payload_laws : SerdeLaws ConflictPayload := serde_of_laws.
#[export] Instance demo_lock_laws : SerdeLaws LockFileData := serde_of_laws.
#[export] Instance demo_checkpoint_laws : CheckpointSerdeLaws.
Proof. intros c s. apply serde_of_laws. Qed.

Lemma utf8_print_bits p : from_utf8 (print_bits p) = Ok (print_bits p).
Proof.
  assert (∃ l, Forall is_char l ∧ print_bits p = of_chars l) as (l & Hl & ->);
    [|by apply from_utf8_of_chars].
  induction p as [p (l & Hl & E)|p (l & Hl & E)|]; cbn [print_bits].
  - exists (49%Z :: l). split; [constructor; [by left|done]|]. by rewrite E.
  - exists (48%Z :: l). split; [constructor; [by left|done]|]. by rewrite E.
  - exists [46%Z]. split; [constructor; [by left|constructor]|done].
Qed.

#[export] Instance demo_metadata_text : JsonText CloudMetadata.
Proof. intros m s. cbn. intros [= <-]. apply utf8_print_bits. Qed.

(** ** A world with a store, a disk, a clock and a generator *)

Record World : Type := mkWorld {
  w_files : gmap string bytes;
  w_disk : gmap string bytes;
  w_clock : Instant;
  w_uuids : N;
  w_offline : bool;
}.

#[export] Instance eta_World : Eta World := λ w,
  mkWorld (w_files w) (w_disk w) (w_clock w) (w_uuids w) (w_offline w).

Definition start_time : Instant := seconds 1800000000.
Definition empty_world : World := mkWorld ∅ ∅ start_time 1 false.

Definition request_time : Duration := nanos_per_milli.

(** A request takes a millisecond, and times out when the world is offline. *)
Definition request {A} (f : World → result A OpError * World) : ior World A OpError := λ w,
  let w := w <| w_clock ::= λ t, (t + request_time)%Z |> in
  if w_offline w then (Err (mkOpError OpErrorKind.RateLimited "offline"), w) else f w.

Definition not_found {A} (p : string) : result A OpError :=
  Err (mkOpError OpErrorKind.NotFound ("no such file: " +:+ p)).

#[export] Instance demo_operator : Operator World := {
  op_read p := request (λ w,
    (match w_files w !! p with Some b => Ok b | None => not_found p end, w));
  op_write p b := request (λ w, (Ok (), w <| w_files ::= insert p b |>));
  op_rename p q := request (λ w,
    match w_files w !! p with
    | Some b => (Ok (), w <| w_files ::= λ fs, <[q := b]> (delete p fs) |>)
    | None => (not_found p, w)
    end);
  op_delete p := request (λ w, (Ok (), w <| w_files ::= delete p |>));
  op_stat p := request (λ w,
    (match w_files w !! p with Some _ => Ok () | None => not_found p end, w));
  op_list p := request (λ w,
    (Ok (filter (λ q, String.prefix p q = true) (map_to_list (w_files w)).*1), w));
}.

#[export] Instance demo_system : System World := {
  now w := (w_clock w, w);
  new_v4 w := (w_uuids w, w <| w_uuids ::= N.succ |>);
  sleep d w := ((), w <| w_clock ::= λ t, (t + Z.max 0 d)%Z |>);
  monotonic_now w := (w_clock w, w);
  random_range lo hi w := (lo, w);
  try_send w := (true, w);
}.

Ltac run_request :=
  cbn; unfold request, not_found; intros; repeat case_match; simplify_eq/=; try done; auto.

#[export] Instance demo_operator_laws : OperatorLaws World.
Proof.
  refine {| files := w_files |}; run_request.
  - by rewrite lookup_insert_ne.
  - by rewrite lookup_delete_ne.
Defined.

#[export] Instance demo_system_laws : SystemLaws World.
Proof. split; cbn; intros; simplify_eq/=; try done; lia. Qed.

#[export] Instance demo_clock_laws : ClockLaws World.
Proof.
  refine {| clock := w_clock; latency := request_time |};
    cbn; unfold request; intros; repeat case_match; simplify_eq/=; unfold request_time,
      nanos_per_milli in *; try done; lia.
Defined.

(** The disk never fails. *)
#[export] Instance demo_fs : Fs World := {
  fs_write p b w := (Ok (), w <| w_disk ::= insert p b |>);
  fs_rename p q w :=
    match w_disk w !! p with
    | Some b => (Ok (), w <| w_disk ::= λ fs, <[q := b]> (delete p fs) |>)
    | None => (Err "no such file", w)
    end;
  fs_read_to_string p w :=
    (match w_disk w !! p with Some b => Ok b | None => Err "no such file" end, w);
  fs_exists p w := (bool_decide (is_Some (w_disk w !! p)), w);
  fs_remove_file p w := (Ok (), w <| w_disk ::= delete p |>);
}.

#[export] Instance demo_fs_laws : FsLaws World.
Proof.
  refine {| fs_files := w_disk |}; cbn; intros; repeat case_match; simplify_eq/=; try done; auto.
  - by rewrite lookup_insert_ne.
  - reflect_bools. by apply eq_None_not_Some.
  - by rewrite lookup_delete_ne.
Defined.

(** Tasks finish in the reverse of the order they were spawned in. *)
#[export] Instance demo_runtime : Runtime := {
  hash_order A m := map_to_list m;
  task_schedule l := rev l;
  task_panics _ := false;
  join_error := "";
  temp_dir := "/tmp";
}.

#[export] Instance demo_runtime_laws : RuntimeLaws.
Proof. split; cbn; [done|]. intros l. by rewrite <- Permutation_rev. Qed.

(** ** Sample data *)

Definition sample_id : Uuid := 42.
Definition sample_uuid : string := uuid_to_string sample_id.
Definition other_uuid : string := uuid_to_string 43.
Definition sample_nonce : string := "012345678901234567890123".

Definition sample_record (id : string) (version : Z) (data : string) : CloudRecord :=
  mkCloudRecord id version data sample_nonce 1 (mkAadFields id 1)
    (mkRecordMetadata "mail" ["work"] (rfc3339_print start_time) (Some CredentialType.Login)
       (Some false) None (Some "laptop") None None)
    None None.

Definition storage : CloudStorage := mkCloudStorage "webdav".
Definition token : string := "vault-token".
