(* ===== verification/Clipboard.v ===== *)
(** * The clipboard (src/services/clipboard.rs, src/errors/mapping/clipboard.rs)

    A service that copies secrets to the system's clipboard, remembers the hash of what it
    copied, and clears the clipboard after a time if it still holds that.  The clipboard
    itself is a backend: the crate [arboard], a command of the platform, or none.  No code
    panics while it holds a lock of the service, so that the locks are never poisoned. *)

From S2P Require Import Prelude Text Errors Env Types Storage Checkpoint Files ImportService.

Module ClipboardError.

Inductive t : Set :=
| AccessDenied
| ContentTooLong (max_bytes actual_bytes : Z)
| ContentMismatch
| PlatformUnavailable (message : string)
| LockPoisoned
| Io (message : string).

Definition display (e : t) : string :=
  match e with
  | AccessDenied => "Clipboard access denied"
  | ContentTooLong max actual =>
      "Content too long: " +:+ pretty actual +:+ " bytes (max " +:+ pretty max +:+ ")"
  | ContentMismatch => "Clipboard content changed since copy — skipping clear"
  | PlatformUnavailable m => "Clipboard unavailable: " +:+ m
  | LockPoisoned => "Clipboard lock poisoned"
  | Io m => "Clipboard I/O error: " +:+ m
  end.

Definition error_code (e : t) : ErrorCode.t :=
  match e with
  | AccessDenied | PlatformUnavailable _ => ErrorCode.ClipboardUnavailable
  | _ => ErrorCode.ClipboardCopyFailed
  end.

Definition error_context (e : t) : ErrorContext :=
  match e with
  | ContentTooLong max actual =>
      ErrorContext.attempt_count (wrap32 max)
        (ErrorContext.record_name (pretty actual +:+ " bytes") ErrorContext.new)
  | _ => ErrorContext.new
  end.

End ClipboardError.

#[export] Instance ClipboardError_service : ServiceError ClipboardError.t := {
  to_error_code := ClipboardError.error_code;
  to_error_context := ClipboardError.error_context;
  to_fallback_message := ClipboardError.display;
}.

(** ** Backends *)

Class ClipboardBackend (W : Type) : Type := {
  set_text : string → ior W () ClipboardError.t;
  get_text : ior W string ClipboardError.t;
  is_available : io W bool;
}.

(** *** Commands of the platform *)

Module CommandPlatform.
Inductive t : Set := Macos | Linux | Unsupported.
End CommandPlatform.

Record ClipboardCommandSpec : Set := mkClipboardCommandSpec {
  cs_program : string;
  cs_args : list string;
}.

Definition without_args (program : string) : ClipboardCommandSpec :=
  mkClipboardCommandSpec program [].

Record CommandBackendPlan : Set := mkCommandBackendPlan {
  bp_name : string;
  bp_copy : ClipboardCommandSpec;
  bp_read : ClipboardCommandSpec;
  bp_clear : ClipboardCommandSpec;
}.

Definition required_programs (p : CommandBackendPlan) : list string :=
  [cs_program (bp_copy p); cs_program (bp_read p); cs_program (bp_clear p)].

Definition command_backend_plans_for (platform : CommandPlatform.t) : list CommandBackendPlan :=
  match platform with
  | CommandPlatform.Macos =>
      [mkCommandBackendPlan "pbcopy" (without_args "pbcopy") (without_args "pbpaste")
         (without_args "pbcopy")]
  | CommandPlatform.Linux =>
      [mkCommandBackendPlan "wl-copy"
         (mkClipboardCommandSpec "wl-copy" ["--type"; "text/plain;charset=utf-8"])
         (without_args "wl-paste") (mkClipboardCommandSpec "wl-copy" ["--clear"]);
       mkCommandBackendPlan "xclip"
         (mkClipboardCommandSpec "xclip" ["-selection"; "clipboard"; "-in"])
         (mkClipboardCommandSpec "xclip" ["-selection"; "clipboard"; "-out"])
         (mkClipboardCommandSpec "xclip" ["-selection"; "clipboard"; "-in"]);
       mkCommandBackendPlan "xsel"
         (mkClipboardCommandSpec "xsel" ["--clipboard"; "--input"])
         (mkClipboardCommandSpec "xsel" ["--clipboard"; "--output"])
         (mkClipboardCommandSpec "xsel" ["--clipboard"; "--delete"])]
  | CommandPlatform.Unsupported => []
  end.

(** How far a command came: an error when it is started, when its input is written or when
    it is waited for, or its status and its standard output. *)
Inductive ProcessRun : Set :=
| SpawnFailed (error : string)
| WriteFailed (error : string)
| WaitFailed (error : string)
| Exited (success : bool) (status : string) (stdout : bytes).

(** Processes: a command with its input, if it gets one; the files that can be executed; the
    directories of a search path. *)
Class Processes (W : Type) : Type := {
  run_command : string → list string → option string → io W ProcessRun;
  is_executable : string → io W bool;
  split_paths : string → list string;
  env_var : string → io W (option string);
}.

Section commands.
Context {W : Type} `{Libs} `{Processes W}.

Fixpoint any_executable (program : string) (dirs : list string) : io W bool :=
  match dirs with
  | [] => io_ret false
  | dir :: dirs =>
      let* b := is_executable (Path.join dir program) in
      if b : bool then io_ret true else any_executable program dirs
  end.

Definition executable_in_path (program search_path : string) : io W bool :=
  any_executable program (split_paths search_path).

Fixpoint all_executable (programs : list string) (search_path : string) : io W bool :=
  match programs with
  | [] => io_ret true
  | program :: programs =>
      let* b := executable_in_path program search_path in
      if b : bool then all_executable programs search_path else io_ret false
  end.

(** The first plan of which every program can be run. *)
Fixpoint find_plan (plans : list CommandBackendPlan) (search_path : string)
  : io W (option CommandBackendPlan) :=
  match plans with
  | [] => io_ret None
  | plan :: plans =>
      let* b := all_executable (required_programs plan) search_path in
      if b : bool then io_ret (Some plan) else find_plan plans search_path
  end.

Definition command_backend_from_search_path (platform : CommandPlatform.t) (search_path : string)
  : io W (option CommandBackendPlan) :=
  find_plan (command_backend_plans_for platform) search_path.

Definition command_backend_new (platform : CommandPlatform.t)
  : ior W CommandBackendPlan ClipboardError.t :=
  let* path := env_var "PATH" in
  match path with
  | None =>
      lift (Err (ClipboardError.PlatformUnavailable
                   "PATH is not set for clipboard command fallback"))
  | Some path =>
      let* plan := command_backend_from_search_path platform path in
      lift (ok_or (ClipboardError.PlatformUnavailable
                     "No complete clipboard command backend found") plan)
  end.

Definition command_error (spec : ClipboardCommandSpec) (action error : string)
  : ClipboardError.t :=
  ClipboardError.Io ("failed to " +:+ action +:+ " for clipboard command " +:+ cs_program spec +:+
    ": " +:+ error).

Definition exited_with (spec : ClipboardCommandSpec) (status : string) : ClipboardError.t :=
  ClipboardError.Io (cs_program spec +:+ " exited with status " +:+ status).

Definition run_with_stdin (spec : ClipboardCommandSpec) (input : string)
  : ior W () ClipboardError.t :=
  let* r := run_command (cs_program spec) (cs_args spec) (Some input) in
  lift (match r with
        | SpawnFailed e => Err (command_error spec "spawn" e)
        | WriteFailed e => Err (command_error spec "write stdin" e)
        | WaitFailed e => Err (command_error spec "wait" e)
        | Exited success status _ =>
            if success : bool then Ok () else Err (exited_with spec status)
        end).

Definition capture_stdout (spec : ClipboardCommandSpec) : ior W string ClipboardError.t :=
  let* r := run_command (cs_program spec) (cs_args spec) None in
  lift (match r with
        | SpawnFailed e | WriteFailed e | WaitFailed e =>
            Err (command_error spec "capture stdout" e)
        | Exited success status stdout =>
            if success : bool then
              map_err (λ _, ClipboardError.Io
                (cs_program spec +:+ " returned non-UTF-8 clipboard text")) (from_utf8 stdout)
            else Err (exited_with spec status)
        end).

Definition command_set_text (plan : CommandBackendPlan) (text : string)
  : ior W () ClipboardError.t :=
  if bool_decide (text = "") then run_with_stdin (bp_clear plan) ""
  else run_with_stdin (bp_copy plan) text.

Definition command_get_text (plan : CommandBackendPlan) : ior W string ClipboardError.t :=
  capture_stdout (bp_read plan).

(** [is_headless] of each platform but Windows, which never is *)
Definition is_headless (platform : CommandPlatform.t) : io W bool :=
  let* ci := env_var "CI" in
  if bool_decide (is_Some ci) then io_ret true
  else
    let none a b :=
      let* x := env_var a in
      let* y := if bool_decide (is_Some x) then io_ret None else env_var b in
      io_ret (negb (bool_decide (is_Some x)) && negb (bool_decide (is_Some y))) in
    match platform with
    | CommandPlatform.Macos => none "SECURITYSESSIONID" "TERM_PROGRAM"
    | CommandPlatform.Linux => none "DISPLAY" "WAYLAND_DISPLAY"
    | CommandPlatform.Unsupported => io_ret true
    end.

End commands.

(** What [new_safe] chooses: the crate, a command, or a backend that is unavailable. *)
Module Backend.
Inductive t : Set :=
| Arboard
| Command (plan : CommandBackendPlan)
| Unavailable (reason : string).
End Backend.

(** The crate: the system clipboard of this process. *)
Class Arboard (W : Type) : Type := {
  arboard_new : ior W () string;
  arboard_set_text : string → ior W () string;
  arboard_get_text : ior W string string;
}.

Section choice.
Context {W : Type} `{Libs} `{Processes W} `{Arboard W}.

Definition arboard_backend_new : ior W () ClipboardError.t :=
  io_map_err ClipboardError.PlatformUnavailable arboard_new.

Definition backend_set_text (b : Backend.t) (text : string) : ior W () ClipboardError.t :=
  match b with
  | Backend.Arboard => io_map_err ClipboardError.Io (arboard_set_text text)
  | Backend.Command plan => command_set_text plan text
  | Backend.Unavailable reason => lift (Err (ClipboardError.PlatformUnavailable reason))
  end.

Definition backend_get_text (b : Backend.t) : ior W string ClipboardError.t :=
  match b with
  | Backend.Arboard => io_map_err ClipboardError.Io arboard_get_text
  | Backend.Command plan => command_get_text plan
  | Backend.Unavailable reason => lift (Err (ClipboardError.PlatformUnavailable reason))
  end.

Definition backend_is_available (b : Backend.t) : bool :=
  match b with
  | Backend.Arboard | Backend.Command _ => true
  | Backend.Unavailable _ => false
  end.

Definition new_safe (platform : CommandPlatform.t) : ior W Backend.t ClipboardError.t :=
  let* headless := is_headless platform in
  if headless : bool then
    let* command := command_backend_new platform in
    lift (Ok (match command with
              | Ok plan => Backend.Command plan
              | Err _ => Backend.Unavailable
                  "Headless environment detected — clipboard unavailable"
              end))
  else
    let* r := arboard_backend_new in
    match r with
    | Ok _ => lift (Ok Backend.Arboard)
    | Err (ClipboardError.PlatformUnavailable reason) =>
        let* command := command_backend_new platform in
        lift (Ok (match command with
                  | Ok plan => Backend.Command plan
                  | Err _ => Backend.Unavailable reason
                  end))
    | Err e => lift (Err e)
    end.

End choice.

(** ** The service *)

Definition MAX_CONTENT_BYTES : Z := 1024.

(** [hash_content], in hexadecimal digits *)
Definition hash_content `{Libs} (content : string) : string := hex_encode (sha256 content).

(** The task of [start_clear_timer]: when it wakes up, and the hash that it looks for. *)
Record ClearTimer : Set := mkClearTimer {
  ct_due : Instant;
  ct_expected_hash : option string;
}.

Record ClipboardService : Set := mkClipboardService {
  cl_clear_timeout : Z;
  cl_active_timer : option ClearTimer;
  cl_last_hash : option string;
}.

#[export] Instance eta_ClipboardService : Eta ClipboardService := λ s,
  mkClipboardService (cl_clear_timeout s) (cl_active_timer s) (cl_last_hash s).

Module Clipboard.
Section s.
Context {W : Type} `{Libs} `{System W} `{ClipboardBackend W}.

Local Abbreviation St := (ClipboardService * W)%type.

Definition with_backend (clear_timeout : Z) : ClipboardService :=
  mkClipboardService clear_timeout None None.

Definition cancel_timer : io St () := set_state (λ s, s <| cl_active_timer := None |>).

Definition has_active_timer (s : ClipboardService) : bool :=
  bool_decide (is_Some (cl_active_timer s)).

Definition start_clear_timer : io St () :=
  let* n := world monotonic_now in
  set_state (λ s, s <| cl_active_timer :=
    Some (mkClearTimer (n + seconds (cl_clear_timeout s)) (cl_last_hash s)) |>).

Definition copy (text : string) : ior St Z ClipboardError.t :=
  let byte_len := Z.of_nat (String.length text) in
  if (MAX_CONTENT_BYTES <? byte_len)%Z
  then lift (Err (ClipboardError.ContentTooLong MAX_CONTENT_BYTES byte_len))
  else
    let* _ := cancel_timer in
    let* _ := set_state (λ s, s <| cl_last_hash := Some (hash_content text) |>) in
    let! _ := world (set_text text) in
    let* s := get_state in
    let timeout := cl_clear_timeout s in
    let* _ := if (0 <? timeout)%Z then start_clear_timer else io_ret () in
    lift (Ok timeout).

Definition clear : ior St () ClipboardError.t :=
  let* _ := cancel_timer in
  world (set_text "").

Definition smart_clear : ior St bool ClipboardError.t :=
  let* s := get_state in
  match cl_last_hash s with
  | None => lift (Ok false)
  | Some expected_hash =>
      let! current_content := world get_text in
      if bool_decide (hash_content current_content = expected_hash) then
        let! _ := world (set_text "") in
        let* _ := set_state (λ s, s <| cl_last_hash := None |>) in
        lift (Ok true)
      else
        let* _ := set_state (λ s, s <| cl_last_hash := None |>) in
        lift (Ok false)
  end.

Definition set_clear_timeout (seconds : Z) : io St () :=
  let* _ := set_state (λ s, s <| cl_clear_timeout := seconds |>) in
  let* s := get_state in
  if bool_decide (is_Some (cl_last_hash s)) then
    let* _ := cancel_timer in
    if (0 <? seconds)%Z then start_clear_timer else io_ret ()
  else io_ret ().

(** The task of a timer, when it wakes up; the handle of the task stays where it is. *)
Definition timer_wakes (t : ClearTimer) : io W () :=
  match ct_expected_hash t with
  | None => io_ret ()
  | Some hash =>
      let* content := get_text in
      match content with
      | Ok content =>
          if bool_decide (hash_content content = hash)
          then let* _ := set_text "" in io_ret ()
          else io_ret ()
      | Err _ => io_ret ()
      end
  end.

End s.
End Clipboard.

(** ** Properties *)

(** The content of the clipboard, and what changes it.  [paste] is any other program that
    copies something. *)
Class ClipboardLaws (W : Type) `{System W} `{ClipboardBackend W} : Type := {
  clip : W → string;
  paste : string → io W ();
  set_text_ok t w u w' : set_text t w = (Ok u, w') → clip w' = t;
  set_text_err t w e w' : set_text t w = (Err e, w') → clip w' = clip w;
  set_text_length t w m a w' : set_text t w ≠ (Err (ClipboardError.ContentTooLong m a), w');
  get_text_clip w r w' : get_text w = (r, w') → clip w' = clip w;
  get_text_ok w s w' : get_text w = (Ok s, w') → s = clip w;
  paste_clip t w u w' : paste t w = (u, w') → clip w' = t;
  monotonic_clip w t w' : monotonic_now w = (t, w') → clip w' = clip w;
}.

Section properties.
Context {W : Type} `{Libs} `{ClipboardLaws W}.
Import Clipboard.

Local Abbreviation St := (ClipboardService * W)%type.

Lemma start_timer_run (s : ClipboardService) (w : W) u (s' : ClipboardService) w' :
  start_clear_timer (s, w) = (u, (s', w')) →
  clip w' = clip w ∧ ∃ due, s' = s <| cl_active_timer := Some (mkClearTimer due (cl_last_hash s)) |>.
Proof.
  unfold start_clear_timer, io_bind, world, set_state. destruct (monotonic_now w) as [n w1] eqn:E.
  intros [= _ <- <-]. apply monotonic_clip in E. eauto.
Qed.

(** What [copy] has done when it returns. *)
Lemma copy_outcome text (s : ClipboardService) (w : W) r (s' : ClipboardService) w' :
  copy text (s, w) = (r, (s', w')) →
  match r with
  | Ok n => n = cl_clear_timeout s ∧ clip w' = text ∧ cl_clear_timeout s' = n ∧
      cl_last_hash s' = Some (hash_content text) ∧
      ((0 < n)%Z → ∃ due, cl_active_timer s' = Some (mkClearTimer due (Some (hash_content text))))
  | Err (ClipboardError.ContentTooLong _ _) => s' = s ∧ w' = w
  | Err _ => clip w' = clip w ∧ cl_active_timer s' = None ∧
      cl_last_hash s' = Some (hash_content text)
  end.
Proof.
  unfold copy. destruct (_ <? _)%Z; [by intros [= <- <- <-]|].
  intros (u1 & [s1 w1] & [= _ <- <-] & Hr)%io_bind_eq.
  apply io_bind_eq in Hr as (u2 & [s2 w2] & [= _ <- <-] & Hr).
  unfold ior_bind in Hr. apply io_bind_eq in Hr as (r3 & [s3 w3] & E3 & Hr).
  unfold world in E3. destruct (set_text text w) as [r4 w4] eqn:Es. injection E3 as <- <- <-.
  destruct r4 as [u4|e].
  - apply set_text_ok in Es. apply io_bind_eq in Hr as (s5 & [s6 w5] & [= <- <- <-] & Hr).
    apply io_bind_eq in Hr as (u7 & [s7 w7] & E7 & Hr). injection Hr as <- <- <-. cbn in E7.
    destruct (0 <? cl_clear_timeout s)%Z eqn:Et.
    + apply start_timer_run in E7 as (Hc & due & ->). cbn. split_and!; [done|congruence|done..|].
      intros _. by exists due.
    + injection E7 as _ <- <-. cbn. split_and!; [done..|]. apply Z.ltb_ge in Et. lia.
  - apply set_text_err in Es as Hc. injection Hr as <- <- <-.
    destruct e; try done. by apply set_text_length in Es.
Qed.

(** The clipboard cannot be read now, or cannot be written after it was read. *)
Definition clearing_fails (w : W) : Prop :=
  ∃ e, (get_text w).1 = Err e ∨ (set_text "" (get_text w).2).1 = Err e.

(** What a timer does when it wakes up. *)
Lemma timer_wakes_outcome hash due (w : W) u w' :
  timer_wakes (mkClearTimer due (Some hash)) w = (u, w') →
  (clip w' = clip w ∧
     (hash_content (clip w) = hash → clearing_fails w)) ∨
  (clip w' = "" ∧ hash_content (clip w) = hash).
Proof.
  unfold timer_wakes. cbn. intros (r & w1 & Eg & Hr)%io_bind_eq. destruct r as [content|e].
  - apply get_text_clip in Eg as Hc. apply get_text_ok in Eg as Ht. subst content. case_bool_decide as Hh.
    + apply io_bind_eq in Hr as ([u2|e] & w2 & Es & Hr); injection Hr as _ <-.
      * apply set_text_ok in Es. by right.
      * apply set_text_err in Es as He. left. split; [congruence|]. intros _. exists e. right.
        by rewrite Eg; cbn; rewrite Es.
    + injection Hr as _ <-. by left.
  - injection Hr as _ <-. left. split; [by eapply get_text_clip|]. intros _. exists e. left.
    by rewrite Eg.
Qed.

(** C23: a copied secret is cleared, and nothing else is.  After a copy with a time to clear,
    a timer is set; when it wakes up, whatever happened in between, a clipboard that still
    holds the secret is emptied, unless the clipboard cannot be read or written, and one
    that holds something of another hash is left alone. *)
Theorem copied_secret_cleared text (s : ClipboardService) (w : W) n (s1 : ClipboardService) w1 :
  copy text (s, w) = (Ok n, (s1, w1)) → (0 < n)%Z →
  clip w1 = text ∧
  ∃ t, cl_active_timer s1 = Some t ∧ ∀ w2 u w3, timer_wakes t w2 = (u, w3) →
    (clip w2 = text → clip w3 = "" ∨ clearing_fails w2) ∧
    (hash_content (clip w2) ≠ hash_content text → clip w3 = clip w2).
Proof.
  intros (-> & Hc & _ & _ & Ht)%copy_outcome Hn. split; [done|].
  destruct (Ht Hn) as (due & ->). eexists. split; [done|]. intros w2 u w3 Hw.
  apply timer_wakes_outcome in Hw as [[He Hf]|[He Hh]].
  - split; [|done]. intros <-. right. by apply Hf.
  - split; [by left|done].
Qed.

(** *** Sequences of operations *)

Inductive ClipOp : Set :=
| Copy (text : string) | Clear | SmartClear | SetTimeout (seconds : Z) | Paste (text : string).

(** One operation; the error is a failure of the backend. *)
Definition run_op (o : ClipOp) : ior St () ClipboardError.t :=
  match o with
  | Copy text =>
      let* r := copy text in
      lift (match r with
            | Ok _ | Err (ClipboardError.ContentTooLong _ _) => Ok ()
            | Err e => Err e
            end)
  | Clear => clear
  | SmartClear => let! _ := smart_clear in lift (Ok ())
  | SetTimeout seconds => let* _ := set_clear_timeout seconds in lift (Ok ())
  | Paste text => let* _ := world (paste text) in lift (Ok ())
  end.

Fixpoint run_ops (l : list ClipOp) : ior St () ClipboardError.t :=
  match l with
  | [] => lift (Ok ())
  | o :: l => let! _ := run_op o in run_ops l
  end.

(** A content that the service tracks has a timer that looks for it, as long as contents are
    to be cleared. *)
Definition guarded (s : ClipboardService) (w : W) : Prop :=
  ∀ h, cl_last_hash s = Some h → hash_content (clip w) = h → clip w ≠ "" →
    (0 < cl_clear_timeout s)%Z →
    ∃ due, cl_active_timer s = Some (mkClearTimer due (Some h)).

Lemma set_clear_timeout_outcome n (s : ClipboardService) (w : W) u (s' : ClipboardService) w' :
  set_clear_timeout n (s, w) = (u, (s', w')) →
  cl_last_hash s' = cl_last_hash s ∧ clip w' = clip w ∧ cl_clear_timeout s' = n ∧
  ∀ h, cl_last_hash s = Some h → (0 < n)%Z →
    ∃ due, cl_active_timer s' = Some (mkClearTimer due (Some h)).
Proof.
  unfold set_clear_timeout. intros (u1 & [s1 w1] & [= _ <- <-] & Hr)%io_bind_eq.
  apply io_bind_eq in Hr as (s2 & [s3 w2] & [= <- <- <-] & Hr). cbn in Hr.
  case_bool_decide as Hh.
  - apply io_bind_eq in Hr as (u4 & [s4 w4] & [= _ <- <-] & Hr). destruct (0 <? n)%Z eqn:En.
    + apply start_timer_run in Hr as (Hc & due & ->). cbn. split_and!; [done..|].
      intros h -> _. by exists due.
    + injection Hr as _ <- <-. cbn. split_and!; [done..|]. apply Z.ltb_ge in En. lia.
  - injection Hr as _ <- <-. cbn. split_and!; [done..|]. intros h E. rewrite E in Hh.
    by contradiction Hh.
Qed.

(** The hashes of what the operations copy. *)
Definition copies (l : list ClipOp) (h : string) : Prop :=
  ∃ text, Copy text ∈ l ∧ h = hash_content text.

Lemma op_guarded o l (s : ClipboardService) (w : W) u (s' : ClipboardService) w' :
  o ∈ l → (∀ text, o = Paste text → ¬ copies l (hash_content text)) →
  (∀ h, cl_last_hash s = Some h → copies l h) → guarded s w →
  run_op o (s, w) = (Ok u, (s', w')) →
  guarded s' w' ∧ ∀ h, cl_last_hash s' = Some h → copies l h.
Proof.
  intros Ho Hp Hh Hg Hr. destruct o as [text| | |n|text]; cbn [run_op] in Hr.
  - apply io_bind_eq in Hr as (r & [s1 w1] & E%copy_outcome & Hr). destruct r as [n|[]]; try done.
    + injection Hr as _ <- <-. destruct E as (-> & Hc & Et & Hl & Ht). split.
      * intros h E _ _ Hn. rewrite Hl in E. injection E as <-. apply Ht. lia.
      * intros h E. rewrite Hl in E. injection E as <-. by exists text.
    + injection Hr as _ <- <-. by destruct E as [-> ->].
  - unfold clear in Hr. apply io_bind_eq in Hr as (u1 & [s1 w1] & [= _ <- <-] & Hr).
    unfold world in Hr. destruct (set_text "" w) as [r w2] eqn:E. injection Hr as -> <- <-.
    apply set_text_ok in E. split; [intros h _ _ Hc; by rewrite E in Hc|exact Hh].
  - apply ior_bind_ok in Hr as (b & [s1 w1] & Hr & [= _ <- <-]). unfold smart_clear in Hr.
    apply io_bind_eq in Hr as (s2 & [s3 w2] & [= <- <- <-] & Hr).
    destruct (cl_last_hash s) as [h|] eqn:El; [|injection Hr as _ <- <-; by rewrite El].
    apply ior_bind_ok in Hr as (c & [s4 w4] & _ & Hr). case_bool_decide.
    + apply ior_bind_ok in Hr as (u5 & [s5 w5] & _ & Hr).
      apply io_bind_eq in Hr as (u6 & [s6 w6] & [= _ <- <-] & [= _ <- <-]). by split.
    + apply io_bind_eq in Hr as (u6 & [s6 w6] & [= _ <- <-] & [= _ <- <-]). by split.
  - apply io_bind_eq in Hr as (u1 & [s1 w1] & E & [= _ <- <-]).
    apply set_clear_timeout_outcome in E as (El & Hc & Et & Ht). split.
    + intros h E _ _ Hn. rewrite El in E. apply Ht; [done|lia].
    + intros h E. apply Hh. congruence.
  - apply io_bind_eq in Hr as (u1 & [s1 w1] & E & [= _ <- <-]). unfold world in E.
    destruct (paste text w) as [r w2] eqn:Ep. injection E as _ <- <-. apply paste_clip in Ep.
    split; [|exact Hh]. intros h E Ec. rewrite Ep in Ec. subst h.
    exfalso. eapply Hp; [done|by apply Hh].
Qed.

Lemma ops_guarded l all : ∀ (s : ClipboardService) (w : W) u (s' : ClipboardService) w',
  l ⊆ all → (∀ text, Paste text ∈ l → ¬ copies all (hash_content text)) →
  (∀ h, cl_last_hash s = Some h → copies all h) → guarded s w →
  run_ops l (s, w) = (Ok u, (s', w')) → guarded s' w'.
Proof.
  induction l as [|o l IH]; intros s w u s' w' Hl Hp Hh Hg Hr; [by injection Hr as _ <- <-|].
  cbn in Hr. apply ior_bind_ok in Hr as (u1 & [s1 w1] & E & Hr).
  eapply op_guarded in E as [Hg1 Hh1]; [eapply IH, Hr|..]; try done.
  - set_solver.
  - intros text Ht. apply Hp. by right.
  - apply Hl. left.
  - intros text ->. apply Hp. left.
Qed.

(** What the service copied does not stay.  After any copies, clearings, changes of the
    time and contents that other programs copied in between, as long as the backend worked:
    a clipboard that still holds what the service copied last has a timer that will look
    for it, provided that contents are to be cleared at all. *)
Lemma tracked_content_has_timer timeout l (w : W) u (s : ClipboardService) w' :
  (∀ text, Paste text ∈ l → ¬ copies l (hash_content text)) →
  run_ops l (with_backend timeout, w) = (Ok u, (s, w')) → guarded s w'.
Proof. intros Hp. apply (ops_guarded l l); try done. Qed.

(** A copy that the backend refuses leaves the content that was there, and no timer. *)
Lemma refused_copy_forgets text (s : ClipboardService) (w : W) m (s' : ClipboardService) w' :
  copy text (s, w) = (Err (ClipboardError.Io m), (s', w')) →
  clip w' = clip w ∧ cl_active_timer s' = None ∧ cl_last_hash s' = Some (hash_content text).
Proof. apply copy_outcome. Qed.

End properties.
