(* ===== verification/RecordExec.v ===== *)
(** * The executor: records, tags and the clipboard (src/executor/record.rs, clipboard.rs)

    The handlers of the commands on records.  Each calls the vault service, which must be
    open, and reports its outcome; those that change what a health check would find
    schedule one. *)

From S2P Require Import Prelude Text Errors Env Types Storage Checkpoint Pipeline Crypto Keystore.
From S2P Require Import Payload Database Queries Vault Records Tags Password Health Listing.
From S2P Require Import Executor Rotation HealthExec Clipboard.

(** The clipboard that the executor holds; it returns the seconds until it is cleared. *)
Class ClipboardPort (W : Type) : Type := clipboard_copy : string → ior W Z ClipboardError.t.

(** [vault_error] of record.rs *)
Definition record_error (e : VaultError.t) (msg : string) : CommandResult.t :=
  CommandResult.Error (to_error_code e) (to_error_context e) "error.record_operation"
    (msg +:+ ": " +:+ to_fallback_message e).

Definition compute_password_strength (record : DecryptedRecord) : option PasswordStrength :=
  match dr_payload record with
  | EncryptedPayload.Login _ _ password _ _ => Some (evaluate_strength password)
  | EncryptedPayload.Api _ _ secret_key _ _ => Some (evaluate_strength secret_key)
  | EncryptedPayload.Ssh _ _ _ _ _ | EncryptedPayload.SecureNote _ _ => None
  end.

Module RecordExec.
Section s.
Context {W : Type} `{Libs} `{UuidErrors} `{Lowercase} `{ConversionErrors} `{Runtime}.
Context `{CryptoLibs} `{Secure W} `{Sqlite W} `{System W}.
Context `{Serde Json} `{Serde PayloadPlaintextDto.t}.
Import Records Tags Trash Listing.

(** [executor.vault_mut().and_then(|v| ..)] *)
Definition with_vault {A} (x : CommandExecutor) (f : VaultServiceImpl → ior W A VaultError.t)
  : ior W A VaultError.t :=
  let! v := lift (VaultRuntime.open_vault (ex_vault_runtime x)) in
  f v.

(** The result of a call of the vault, as a result of the command. *)
Definition report {A} (m : ior W A VaultError.t) (msg : string) (k : A → io W CommandResult.t)
  : io W CommandResult.t :=
  let* r := m in
  match r with
  | Ok a => k a
  | Err e => io_ret (record_error e msg)
  end.

Definition schedule_health_scan : io W () := let* _ := try_send in io_ret ().

Definition scanned (r : CommandResult.t) : io W CommandResult.t :=
  let* _ := schedule_health_scan in io_ret r.

Definition attempt_lazy_migration (v : VaultServiceImpl) (id : Uuid) : io W () :=
  let* stored := VaultService.get_stored_record id in
  match stored with
  | Err _ => io_ret ()
  | Ok stored =>
      if (st_dek_version stored <? cm_current (vs_crypto v))%Z then
        let* _ := lazy_migrate_record (vs_crypto v) id (st_dek_version stored) in io_ret ()
      else io_ret ()
  end.

(** ** One record *)

Definition handle_create_record (x : CommandExecutor) (params : CreateRecordParams)
  : io W CommandResult.t :=
  report (with_vault x (λ v, create_record v params)) "Failed to create record"
    (λ id, scanned (CommandResult.RecordCreated id)).

Definition handle_update_record (x : CommandExecutor) (params : UpdateRecordParams)
  : io W CommandResult.t :=
  report (with_vault x (λ v, update_record v params)) "Failed to update record"
    (λ _, scanned (CommandResult.RecordUpdated (up_id params))).

Definition handle_soft_delete_record (x : CommandExecutor) (id : Uuid) : io W CommandResult.t :=
  report (with_vault x (λ v, soft_delete_record v id)) "Failed to delete record"
    (λ _, scanned (CommandResult.RecordDeleted id)).

Definition handle_restore_record (x : CommandExecutor) (id : Uuid) : io W CommandResult.t :=
  report (with_vault x (λ v, restore_record v id)) "Failed to restore record"
    (λ _, scanned (CommandResult.RecordRestored id)).

Definition handle_hard_delete_record (x : CommandExecutor) (id : Uuid) : io W CommandResult.t :=
  report (with_vault x (λ v, hard_delete_record v id)) "Failed to destroy record"
    (λ _, scanned (CommandResult.RecordDestroyed id)).

Definition handle_toggle_favorite (x : CommandExecutor) (id : Uuid) (is_favorite : bool)
  : io W CommandResult.t :=
  report (with_vault x (λ v, toggle_favorite v id is_favorite)) "Failed to toggle favorite"
    (λ _, io_ret (CommandResult.FavoriteToggled id is_favorite)).

(** ** Lists and details *)

Definition load_record_list_page_with_counts (x : CommandExecutor) (filter : RecordFilter.t)
    (sort : RecordSort) (limit offset : nat)
  : ior W (list TuiRecord * nat * RecordCategoryCounts) VaultError.t :=
  let! (records, total) := with_vault x (λ v, list_records_page v filter sort limit offset) in
  let records := populate_health_fields records (ex_health_report x) in
  let! category_counts := with_vault x (λ _, category_counts) in
  lift (Ok (records, total, category_counts)).

Definition handle_load_record_list_page (x : CommandExecutor) (filter : RecordFilter.t)
    (sort : RecordSort) (limit offset : nat) : io W CommandResult.t :=
  report (load_record_list_page_with_counts x filter sort limit offset)
    "Failed to load record list"
    (λ '(records, total, counts), io_ret (CommandResult.RecordListLoaded records total counts)).

Definition handle_load_record_list (x : CommandExecutor) (filter : RecordFilter.t)
    (sort : RecordSort) : io W CommandResult.t :=
  handle_load_record_list_page x filter sort DEFAULT_RECORD_LIST_PAGE_SIZE 0.

(** A record of an older key is migrated before it is read, when that works. *)
Definition migrate_first (x : CommandExecutor) (id : Uuid) : io W () :=
  match VaultRuntime.open_vault (ex_vault_runtime x) with
  | Ok v => attempt_lazy_migration v id
  | Err _ => io_ret ()
  end.

Definition handle_load_record_detail (x : CommandExecutor) (id : Uuid) : io W CommandResult.t :=
  let* _ := migrate_first x id in
  report (with_vault x (λ v, get_decrypted_record v id)) "Failed to load record detail"
    (λ record,
      io_ret (CommandResult.RecordDetailLoaded record (compute_password_strength record)
                (ex_health_report x ≫= λ r, HealthReport.get_issue_for r (dr_id record)))).

Definition handle_load_record_for_edit (x : CommandExecutor) (id : Uuid) : io W CommandResult.t :=
  let* _ := migrate_first x id in
  report (with_vault x (λ v, get_decrypted_record v id)) "Failed to load record for edit"
    (λ record, io_ret (CommandResult.RecordForEditLoaded record)).

Definition handle_decrypt_field (x : CommandExecutor) (id : Uuid) (field : FieldSelector.t)
  : io W CommandResult.t :=
  report (with_vault x (λ v, decrypt_field v id field)) "Failed to decrypt field"
    (λ value, io_ret (CommandResult.FieldDecrypted id field value)).

(** An entry that cannot be decrypted is shown as three stars. *)
Fixpoint history_views (x : CommandExecutor) (entries : list PasswordHistory)
  : io W (list PasswordHistoryView) :=
  match entries with
  | [] => io_ret []
  | entry :: entries =>
      let* password := with_vault x (λ v, decrypt_history_password v (ph_id entry)) in
      let* views := history_views x entries in
      io_ret (mkPasswordHistoryView (ph_id entry)
                (match password with Ok p => p | Err _ => "***" end) (ph_changed_at entry) :: views)
  end.

Definition handle_load_password_history (x : CommandExecutor) (record_id : Uuid)
  : io W CommandResult.t :=
  report (with_vault x (λ v, Records.get_password_history v record_id))
    "Failed to load password history"
    (λ entries,
      let* views := history_views x entries in
      io_ret (CommandResult.PasswordHistoryLoaded views)).

(** ** Tags and batches *)

Definition handle_load_tags (x : CommandExecutor) : io W CommandResult.t :=
  report (with_vault x (λ _, list_tags_with_stats)) "Failed to load tags"
    (λ tags_with_stats,
      io_ret (CommandResult.TagsLoaded tags_with_stats.*1
        (foldl (λ m '(t, meta), <[tag_id t := meta]> m) ∅ tags_with_stats))).

Definition handle_rename_tag (x : CommandExecutor) (old_name new_name : string)
  : io W CommandResult.t :=
  report (with_vault x (λ _, rename_tag old_name new_name)) "Failed to rename tag"
    (λ _, io_ret (CommandResult.TagRenamed old_name new_name)).

Definition handle_delete_tag (x : CommandExecutor) (name : string) : io W CommandResult.t :=
  report (with_vault x (λ _, delete_tag name)) "Failed to delete tag"
    (λ _, io_ret (CommandResult.TagDeleted name)).

Definition handle_batch_add_tag (x : CommandExecutor) (record_ids : list Uuid) (tag_name : string)
  : io W CommandResult.t :=
  report (with_vault x (λ _, batch_add_tag record_ids tag_name)) "Failed to add tag to records"
    (λ count, io_ret (CommandResult.BatchTagAdded count)).

Definition handle_batch_remove_tag (x : CommandExecutor) (record_ids : list Uuid)
    (tag_name : string) : io W CommandResult.t :=
  report (with_vault x (λ _, batch_remove_tag record_ids tag_name))
    "Failed to remove tag from records"
    (λ count, io_ret (CommandResult.BatchTagRemoved count)).

Definition handle_batch_soft_delete (x : CommandExecutor) (record_ids : list Uuid)
  : io W CommandResult.t :=
  report (with_vault x (λ v, batch_soft_delete v record_ids)) "Failed to batch delete records"
    (λ count, io_ret (CommandResult.BatchDeleted count)).

Definition handle_batch_restore (x : CommandExecutor) (record_ids : list Uuid)
  : io W CommandResult.t :=
  report (with_vault x (λ v, batch_restore v record_ids)) "Failed to batch restore records"
    (λ count, scanned (CommandResult.BatchRestored count)).

Definition handle_batch_hard_delete (x : CommandExecutor) (record_ids : list Uuid)
  : io W CommandResult.t :=
  report (with_vault x (λ v, batch_hard_delete v record_ids)) "Failed to batch destroy records"
    (λ count, scanned (CommandResult.BatchDestroyed count)).

Definition handle_empty_trash (x : CommandExecutor) : io W CommandResult.t :=
  report (with_vault x empty_trash) "Failed to empty trash"
    (λ count, io_ret (CommandResult.TrashEmptied count)).

(** ** Copying (clipboard.rs) *)

Context `{ClipboardPort W}.

(** The second half of each handler. *)
Definition copy_plaintext (plaintext : string) (k : Z → CommandResult.t) : io W CommandResult.t :=
  let* clear_after := clipboard_copy plaintext in
  io_ret (match clear_after with
          | Ok secs => k secs
          | Err e => service_error e "error.clipboard_copy_failed"
                       ("Failed to copy to clipboard: " +:+ ClipboardError.display e)
          end).

Definition decryption_failed (key text : string) (e : VaultError.t) : CommandResult.t :=
  CommandResult.Error ErrorCode.CryptoDecryptionFailed ErrorContext.new key
    (text +:+ VaultError.display e).

Definition handle_copy_to_clipboard (x : CommandExecutor) (id : Uuid) (field : FieldSelector.t)
  : io W CommandResult.t :=
  let* plaintext := with_vault x (λ v, decrypt_field_for_copy v id field) in
  match plaintext with
  | Err e => io_ret (decryption_failed "error.decrypt_field_failed" "Failed to decrypt field: " e)
  | Ok plaintext => copy_plaintext plaintext (CommandResult.CopiedToClipboard field)
  end.

Definition handle_copy_raw_to_clipboard (value : string) : io W CommandResult.t :=
  copy_plaintext value (CommandResult.CopiedToClipboard FieldSelector.Password).

Definition handle_copy_history_password (x : CommandExecutor) (history_id : Z)
  : io W CommandResult.t :=
  let* plaintext := with_vault x (λ v, decrypt_history_password v history_id) in
  match plaintext with
  | Err e => io_ret (decryption_failed "error.decrypt_history_failed"
                       "Failed to decrypt history password: " e)
  | Ok plaintext => copy_plaintext plaintext CommandResult.HistoryPasswordCopied
  end.

End s.
End RecordExec.
