(* ===== verification/Config.v ===== *)
(** * The configuration (src/config, src/executor/config_impl)

    The settings with their defaults, the TOML file that keeps them, its validation, the
    manager that holds the current settings, the watcher of the file, and the services that
    are told about a change.  The syntax of TOML is a library's; what the derived
    serializers make of each setting is written out. *)

From S2P Require Import Prelude Text Errors Env Checkpoint Crypto Keystore Files Rotation Health Payload Backup ImportExec.

Module ConfigError.

Inductive t : Set := Io (message : string) | Parse (message : string) | Validation (message : string).

Definition display (e : t) : string :=
  match e with
  | Io m => "config I/O error: " +:+ m
  | Parse m => "config parse error: " +:+ m
  | Validation m => "config validation error: " +:+ m
  end.

Definition error_code (e : t) : ErrorCode.t :=
  match e with
  | Io _ | Parse _ => ErrorCode.ConfigLoadFailed
  | Validation _ => ErrorCode.ConfigValidationFailed
  end.

End ConfigError.

#[export] Instance ConfigError_service : ServiceError ConfigError.t := {
  to_error_code := ConfigError.error_code;
  to_error_context _ := ErrorContext.new;
  to_fallback_message := ConfigError.display;
}.

(** ** Settings *)

Module AnimationMode.
Inductive t : Set := Auto | On | Off.
End AnimationMode.

Record GeneralConfig : Set := mkGeneralConfig {
  gc_auto_lock_seconds : Z;
  gc_clipboard_clear_seconds : Z;
  gc_trash_retention_days : Z;
  gc_animation : AnimationMode.t;
  gc_language : string;
}.

Definition default_general_config : GeneralConfig :=
  mkGeneralConfig 300 30 30 AnimationMode.Auto "auto".

Module PasswordGenerationStyle.
Inductive t : Set := Random | Memorable | Pin.
End PasswordGenerationStyle.

Record PasswordDefaultsConfig : Set := mkPasswordDefaultsConfig {
  pd_style : PasswordGenerationStyle.t;
  pd_length : Z;
  pd_include_lowercase : bool;
  pd_include_digits : bool;
  pd_include_uppercase : bool;
  pd_include_special : bool;
  pd_memorable_word_count : Z;
  pd_memorable_capitalize : bool;
  pd_memorable_separator : string;
  pd_pin_length : Z;
}.

Definition default_password_config : PasswordDefaultsConfig :=
  mkPasswordDefaultsConfig PasswordGenerationStyle.Random 16 true true true true 4 true "-" 6.

Module SyncProvider.
Inductive t : Set :=
| Disabled | ICloud | GoogleDrive | Dropbox | OneDrive | WebDav | Sftp | S3 | AliyunDrive
| AliyunOss | TencentCos | HuaweiObs | Upyun.
End SyncProvider.

Module SyncMode.
Inductive t : Set := Auto | Manual.
End SyncMode.

Module SftpHostCheck.
Inductive t : Set := Strict | Accept | Add.
End SftpHostCheck.

Module AliyunDriveType.
Inductive t : Set := Default | Backup | Resource.
End AliyunDriveType.

Record GoogleDriveConfig : Set := mkGoogleDriveConfig {
  gd_access_token : string;
  gd_refresh_token : string;
  gd_root_path : string;
  gd_client_id : string;
  gd_client_secret : string;
}.

Definition default_gdrive_root : string := ".oak-keyring/".

(** [client_id], [client_secret], [refresh_token] and [root_path], of Dropbox and OneDrive *)
Record DropboxConfig : Set := mkDropboxConfig {
  db_client_id : string;
  db_client_secret : string;
  db_refresh_token : string;
  db_root_path : string;
}.

Record OneDriveConfig : Set := mkOneDriveConfig {
  od_client_id : string;
  od_client_secret : string;
  od_refresh_token : string;
  od_root_path : string;
}.

Record WebDavConfig : Set := mkWebDavConfig {
  wd_endpoint : string;
  wd_root_path : string;
  wd_username : option string;
  wd_password : option string;
  wd_bearer_token : option string;
}.

Record SftpConfig : Set := mkSftpConfig {
  sf_server : string;
  sf_root_path : string;
  sf_ssh_key_path : string;
  sf_host_check : SftpHostCheck.t;
}.

Record S3Config : Set := mkS3Config {
  s3_endpoint : option string;
  s3_bucket : string;
  s3_region : option string;
  s3_access_key_id : string;
  s3_secret_access_key : string;
  s3_root_path : string;
}.

Record AliyunDriveConfig : Set := mkAliyunDriveConfig {
  ad_client_id : string;
  ad_client_secret : string;
  ad_refresh_token : string;
  ad_drive_type : AliyunDriveType.t;
  ad_root_path : string;
}.

Record AliyunOssConfig : Set := mkAliyunOssConfig {
  ao_endpoint : string;
  ao_bucket : string;
  ao_access_key_id : string;
  ao_access_key_secret : string;
  ao_root_path : string;
}.

Record TencentCosConfig : Set := mkTencentCosConfig {
  tc_endpoint : string;
  tc_bucket : string;
  tc_secret_id : string;
  tc_secret_key : string;
  tc_root_path : string;
}.

Record HuaweiObsConfig : Set := mkHuaweiObsConfig {
  ho_endpoint : string;
  ho_bucket : string;
  ho_access_key_id : string;
  ho_secret_access_key : string;
  ho_root_path : string;
}.

Record UpyunConfig : Set := mkUpyunConfig {
  uy_bucket : string;
  uy_operator : string;
  uy_operator_password : string;
  uy_root_path : string;
}.

Module ProviderConfig.
Inductive t : Set :=
| ICloud
| GoogleDrive (c : GoogleDriveConfig)
| Dropbox (c : DropboxConfig)
| OneDrive (c : OneDriveConfig)
| WebDav (c : WebDavConfig)
| Sftp (c : SftpConfig)
| S3 (c : S3Config)
| AliyunDrive (c : AliyunDriveConfig)
| AliyunOss (c : AliyunOssConfig)
| TencentCos (c : TencentCosConfig)
| HuaweiObs (c : HuaweiObsConfig)
| Upyun (c : UpyunConfig).
End ProviderConfig.

Definition default_root : string := "/".

Record SyncConfig : Set := mkSyncConfig {
  yc_provider : SyncProvider.t;
  yc_sync_mode : SyncMode.t;
  yc_auto_interval_seconds : Z;
  yc_provider_config : option ProviderConfig.t;
}.

Definition default_sync_config : SyncConfig :=
  mkSyncConfig SyncProvider.Disabled SyncMode.Auto 600 None.

Record AppConfig : Set := mkAppConfig {
  ac_general : GeneralConfig;
  ac_sync : SyncConfig;
  ac_security : SecurityConfig;
  ac_password : PasswordDefaultsConfig;
}.

Definition default_app_config : AppConfig :=
  mkAppConfig default_general_config default_sync_config default_security_config
    default_password_config.

#[export] Instance eta_SyncConfig : Eta SyncConfig := λ c,
  mkSyncConfig (yc_provider c) (yc_sync_mode c) (yc_auto_interval_seconds c)
    (yc_provider_config c).

#[export] Instance eta_AppConfig : Eta AppConfig := λ c,
  mkAppConfig (ac_general c) (ac_sync c) (ac_security c) (ac_password c).

(** *** Decidable equality, as [PartialEq] *)

#[export] Instance AnimationMode_eq : EqDecision AnimationMode.t.
Proof. solve_decision. Defined.
#[export] Instance PasswordGenerationStyle_eq : EqDecision PasswordGenerationStyle.t.
Proof. solve_decision. Defined.
#[export] Instance SyncProvider_eq : EqDecision SyncProvider.t.
Proof. solve_decision. Defined.
#[export] Instance SyncMode_eq : EqDecision SyncMode.t.
Proof. solve_decision. Defined.
#[export] Instance SftpHostCheck_eq : EqDecision SftpHostCheck.t.
Proof. solve_decision. Defined.
#[export] Instance AliyunDriveType_eq : EqDecision AliyunDriveType.t.
Proof. solve_decision. Defined.
#[export] Instance GoogleDriveConfig_eq : EqDecision GoogleDriveConfig.
Proof. solve_decision. Defined.
#[export] Instance DropboxConfig_eq : EqDecision DropboxConfig.
Proof. solve_decision. Defined.
#[export] Instance OneDriveConfig_eq : EqDecision OneDriveConfig.
Proof. solve_decision. Defined.
#[export] Instance WebDavConfig_eq : EqDecision WebDavConfig.
Proof. solve_decision. Defined.
#[export] Instance SftpConfig_eq : EqDecision SftpConfig.
Proof. solve_decision. Defined.
#[export] Instance S3Config_eq : EqDecision S3Config.
Proof. solve_decision. Defined.
#[export] Instance AliyunDriveConfig_eq : EqDecision AliyunDriveConfig.
Proof. solve_decision. Defined.
#[export] Instance AliyunOssConfig_eq : EqDecision AliyunOssConfig.
Proof. solve_decision. Defined.
#[export] Instance TencentCosConfig_eq : EqDecision TencentCosConfig.
Proof. solve_decision. Defined.
#[export] Instance HuaweiObsConfig_eq : EqDecision HuaweiObsConfig.
Proof. solve_decision. Defined.
#[export] Instance UpyunConfig_eq : EqDecision UpyunConfig.
Proof. solve_decision. Defined.
#[export] Instance ProviderConfig_eq : EqDecision ProviderConfig.t.
Proof. solve_decision. Defined.
#[export] Instance HealthCheckFrequency_eq : EqDecision HealthCheckFrequency.t.
Proof. solve_decision. Defined.


(** *** What the settings mean *)

Definition has_oauth_token (c : GoogleDriveConfig) : bool :=
  negb (bool_decide (trim (gd_refresh_token c) = ""))
  || negb (bool_decide (trim (gd_access_token c) = "")).

Definition has_google_drive_authorization (c : SyncConfig) : bool :=
  match yc_provider c, yc_provider_config c with
  | SyncProvider.GoogleDrive, Some (ProviderConfig.GoogleDrive cfg) => has_oauth_token cfg
  | _, _ => false
  end.

Definition is_runtime_configured (c : SyncConfig) : bool :=
  match yc_provider c with
  | SyncProvider.Disabled => false
  | SyncProvider.GoogleDrive => has_google_drive_authorization c
  | _ => bool_decide (is_Some (yc_provider_config c))
  end.

(** *** Validation *)

Definition provider_config_matches (pc : ProviderConfig.t) (p : SyncProvider.t) : bool :=
  match pc, p with
  | ProviderConfig.ICloud, SyncProvider.ICloud
  | ProviderConfig.GoogleDrive _, SyncProvider.GoogleDrive
  | ProviderConfig.Dropbox _, SyncProvider.Dropbox
  | ProviderConfig.OneDrive _, SyncProvider.OneDrive
  | ProviderConfig.WebDav _, SyncProvider.WebDav
  | ProviderConfig.Sftp _, SyncProvider.Sftp
  | ProviderConfig.S3 _, SyncProvider.S3
  | ProviderConfig.AliyunDrive _, SyncProvider.AliyunDrive
  | ProviderConfig.AliyunOss _, SyncProvider.AliyunOss
  | ProviderConfig.TencentCos _, SyncProvider.TencentCos
  | ProviderConfig.HuaweiObs _, SyncProvider.HuaweiObs
  | ProviderConfig.Upyun _, SyncProvider.Upyun => true
  | _, _ => false
  end.

Definition provider_config_variant_name (pc : ProviderConfig.t) : string :=
  match pc with
  | ProviderConfig.ICloud => "ICloud"
  | ProviderConfig.GoogleDrive _ => "GoogleDrive"
  | ProviderConfig.Dropbox _ => "Dropbox"
  | ProviderConfig.OneDrive _ => "OneDrive"
  | ProviderConfig.WebDav _ => "WebDav"
  | ProviderConfig.Sftp _ => "Sftp"
  | ProviderConfig.S3 _ => "S3"
  | ProviderConfig.AliyunDrive _ => "AliyunDrive"
  | ProviderConfig.AliyunOss _ => "AliyunOss"
  | ProviderConfig.TencentCos _ => "TencentCos"
  | ProviderConfig.HuaweiObs _ => "HuaweiObs"
  | ProviderConfig.Upyun _ => "Upyun"
  end.

(** [format!("{:?}", p)], the name of the constructor *)
Definition provider_debug (p : SyncProvider.t) : string :=
  match p with
  | SyncProvider.Disabled => "Disabled"
  | SyncProvider.ICloud => "ICloud"
  | SyncProvider.GoogleDrive => "GoogleDrive"
  | SyncProvider.Dropbox => "Dropbox"
  | SyncProvider.OneDrive => "OneDrive"
  | SyncProvider.WebDav => "WebDav"
  | SyncProvider.Sftp => "Sftp"
  | SyncProvider.S3 => "S3"
  | SyncProvider.AliyunDrive => "AliyunDrive"
  | SyncProvider.AliyunOss => "AliyunOss"
  | SyncProvider.TencentCos => "TencentCos"
  | SyncProvider.HuaweiObs => "HuaweiObs"
  | SyncProvider.Upyun => "Upyun"
  end.

Definition validate_provider_consistency (c : AppConfig) : result () ConfigError.t :=
  let provider := yc_provider (ac_sync c) in
  if bool_decide (provider = SyncProvider.Disabled) then Ok ()
  else
    match yc_provider_config (ac_sync c) with
    | None => Ok ()
    | Some pc =>
        if negb (provider_config_matches pc provider) then
          Err (ConfigError.Validation
                 ("sync.provider is " +:+ provider_debug provider +:+ " but provider_config is "
                    +:+ provider_config_variant_name pc +:+ " — they must match"))
        else Ok ()
    end.

Definition validate (c : AppConfig) : result () ConfigError.t := validate_provider_consistency c.

(** ** What is printed for debugging *)

Section debug.
Context `{DebugText}.

Definition redacted (len : nat) : string :=
  text_debug (if (len =? 0)%nat then "<empty>" else "<redacted>").

Definition hidden (s : string) : string := redacted (String.length s).

Definition option_debug (f : string → string) (o : option string) : string :=
  match o with None => "None" | Some s => "Some(" +:+ f s +:+ ")" end.

Definition host_check_debug (c : SftpHostCheck.t) : string :=
  match c with
  | SftpHostCheck.Strict => "Strict"
  | SftpHostCheck.Accept => "Accept"
  | SftpHostCheck.Add => "Add"
  end.

Definition drive_type_debug (c : AliyunDriveType.t) : string :=
  match c with
  | AliyunDriveType.Default => "Default"
  | AliyunDriveType.Backup => "Backup"
  | AliyunDriveType.Resource => "Resource"
  end.

(** [debug_struct] with its fields *)
Definition debug_struct (name : string) (fields : list (string * string)) : string :=
  name +:+ " { " +:+ join ", " (map (λ f, f.1 +:+ ": " +:+ f.2) fields) +:+ " }".

Definition google_drive_debug (c : GoogleDriveConfig) : string :=
  debug_struct "GoogleDriveConfig"
    [("access_token", hidden (gd_access_token c)); ("refresh_token", hidden (gd_refresh_token c));
       ("root_path", text_debug (gd_root_path c))].

Definition dropbox_debug (c : DropboxConfig) : string :=
  debug_struct "DropboxConfig"
    [("client_id", hidden (db_client_id c)); ("client_secret", hidden (db_client_secret c));
       ("refresh_token", hidden (db_refresh_token c)); ("root_path", text_debug (db_root_path c))].

Definition one_drive_debug (c : OneDriveConfig) : string :=
  debug_struct "OneDriveConfig"
    [("client_id", hidden (od_client_id c)); ("client_secret", hidden (od_client_secret c));
       ("refresh_token", hidden (od_refresh_token c)); ("root_path", text_debug (od_root_path c))].

Definition webdav_debug (c : WebDavConfig) : string :=
  debug_struct "WebDavConfig"
    [("endpoint", text_debug (wd_endpoint c)); ("root_path", text_debug (wd_root_path c));
       ("username", option_debug text_debug (wd_username c));
       ("password", option_debug hidden (wd_password c));
       ("bearer_token", option_debug hidden (wd_bearer_token c))].

Definition sftp_debug (c : SftpConfig) : string :=
  debug_struct "SftpConfig"
    [("server", text_debug (sf_server c)); ("root_path", text_debug (sf_root_path c));
       ("ssh_key_path", text_debug (sf_ssh_key_path c));
       ("host_check", host_check_debug (sf_host_check c))].

Definition s3_debug (c : S3Config) : string :=
  debug_struct "S3Config"
    [("endpoint", option_debug text_debug (s3_endpoint c)); ("bucket", text_debug (s3_bucket c));
       ("region", option_debug text_debug (s3_region c));
       ("access_key_id", hidden (s3_access_key_id c));
       ("secret_access_key", hidden (s3_secret_access_key c));
       ("root_path", text_debug (s3_root_path c))].

Definition aliyun_drive_debug (c : AliyunDriveConfig) : string :=
  debug_struct "AliyunDriveConfig"
    [("client_id", hidden (ad_client_id c)); ("client_secret", hidden (ad_client_secret c));
       ("refresh_token", hidden (ad_refresh_token c));
       ("drive_type", drive_type_debug (ad_drive_type c));
       ("root_path", text_debug (ad_root_path c))].

Definition aliyun_oss_debug (c : AliyunOssConfig) : string :=
  debug_struct "AliyunOssConfig"
    [("endpoint", text_debug (ao_endpoint c)); ("bucket", text_debug (ao_bucket c));
       ("access_key_id", hidden (ao_access_key_id c));
       ("access_key_secret", hidden (ao_access_key_secret c));
       ("root_path", text_debug (ao_root_path c))].

Definition tencent_cos_debug (c : TencentCosConfig) : string :=
  debug_struct "TencentCosConfig"
    [("endpoint", text_debug (tc_endpoint c)); ("bucket", text_debug (tc_bucket c));
       ("secret_id", hidden (tc_secret_id c)); ("secret_key", hidden (tc_secret_key c));
       ("root_path", text_debug (tc_root_path c))].

Definition huawei_obs_debug (c : HuaweiObsConfig) : string :=
  debug_struct "HuaweiObsConfig"
    [("endpoint", text_debug (ho_endpoint c)); ("bucket", text_debug (ho_bucket c));
       ("access_key_id", hidden (ho_access_key_id c));
       ("secret_access_key", hidden (ho_secret_access_key c));
       ("root_path", text_debug (ho_root_path c))].

Definition upyun_debug (c : UpyunConfig) : string :=
  debug_struct "UpyunConfig"
    [("bucket", text_debug (uy_bucket c)); ("operator", text_debug (uy_operator c));
       ("operator_password", hidden (uy_operator_password c));
       ("root_path", text_debug (uy_root_path c))].

Definition provider_config_debug (pc : ProviderConfig.t) : string :=
  let variant name body := name +:+ "(" +:+ body +:+ ")" in
  match pc with
  | ProviderConfig.ICloud => "ICloud"
  | ProviderConfig.GoogleDrive c => variant "GoogleDrive" (google_drive_debug c)
  | ProviderConfig.Dropbox c => variant "Dropbox" (dropbox_debug c)
  | ProviderConfig.OneDrive c => variant "OneDrive" (one_drive_debug c)
  | ProviderConfig.WebDav c => variant "WebDav" (webdav_debug c)
  | ProviderConfig.Sftp c => variant "Sftp" (sftp_debug c)
  | ProviderConfig.S3 c => variant "S3" (s3_debug c)
  | ProviderConfig.AliyunDrive c => variant "AliyunDrive" (aliyun_drive_debug c)
  | ProviderConfig.AliyunOss c => variant "AliyunOss" (aliyun_oss_debug c)
  | ProviderConfig.TencentCos c => variant "TencentCos" (tencent_cos_debug c)
  | ProviderConfig.HuaweiObs c => variant "HuaweiObs" (huawei_obs_debug c)
  | ProviderConfig.Upyun c => variant "Upyun" (upyun_debug c)
  end.

End debug.

(** ** TOML

    The values of the library.  Only the four kinds that the settings use matter: another
    one is the text of a float or a date. *)

Inductive Toml : Type :=
| TString (s : string)
| TInteger (n : Z)
| TBoolean (b : bool)
| TOther (text : string)
| TArray (l : list Toml)
| TTable (m : gmap string Toml).

(** The library: [to_string_pretty] of a value and [from_str] of a text, the error of a
    text whose value is no configuration, and chrono's form of an instant. *)
Class TomlLib : Type := {
  toml_print : Toml → result string string;
  toml_parse : string → result Toml string;
  toml_rejected : string → string;
  datetime_ser : Instant → string;
  datetime_de : string → option Instant;
}.

Class TomlLaws `{TomlLib} : Prop := {
  toml_roundtrip v s : toml_print v = Ok s → toml_parse s = Ok v;
  datetime_serde t : printable_instant t → datetime_de (datetime_ser t) = Some t;
}.

(** A structure, whose fields of value [None] are left out, and its fields as they are read:
    one that must be there, one with a default, and one of an optional type. *)
Definition table (fields : list (string * option Toml)) : Toml :=
  TTable (list_to_map (omap (λ f, v ← f.2; Some (f.1, v)) fields)).

Definition as_table (v : Toml) : option (gmap string Toml) :=
  match v with TTable m => Some m | _ => None end.

Definition required {A} (m : gmap string Toml) (k : string) (de : Toml → option A) : option A :=
  m !! k ≫= de.

Definition defaulted {A} (m : gmap string Toml) (k : string) (de : Toml → option A) (d : A)
  : option A :=
  match m !! k with Some v => de v | None => Some d end.

Definition optional {A} (m : gmap string Toml) (k : string) (de : Toml → option A)
  : option (option A) :=
  match m !! k with Some v => Some <$> de v | None => Some None end.

Definition de_string (v : Toml) : option string :=
  match v with TString s => Some s | _ => None end.

Definition de_bool (v : Toml) : option bool :=
  match v with TBoolean b => Some b | _ => None end.

(** An unsigned integer of [bits] bits *)
Definition de_uint (bits : Z) (v : Toml) : option Z :=
  match v with
  | TInteger n => if (0 <=? n)%Z && (n <? 2 ^ bits)%Z then Some n else None
  | _ => None
  end.

(** A variant is its name, or a table of one entry; a variant without data may be the
    table of an empty table or array. *)
Definition de_variant (v : Toml) : option (string * option Toml) :=
  match v with
  | TString s => Some (s, None)
  | TTable m => match map_to_list m with [(k, v)] => Some (k, Some v) | _ => None end
  | _ => None
  end.

Definition no_data (v : option Toml) : bool :=
  match v with
  | None => true
  | Some (TTable m) => bool_decide (map_to_list m = [])
  | Some (TArray []) => true
  | _ => false
  end.

(** The derived serializers of an enumeration without data *)
Class Variants (A : Type) : Type := {
  variants : list A;
  variant_name : A → string;
}.

Definition ser_unit `{Variants A} (a : A) : Toml := TString (variant_name a).

Definition de_unit `{Variants A} (v : Toml) : option A :=
  '(name, data) ← de_variant v;
  if no_data data then find (λ a, String.eqb (variant_name a) name) variants else None.

#[export] Instance animation_variants : Variants AnimationMode.t := {
  variants := [AnimationMode.Auto; AnimationMode.On; AnimationMode.Off];
  variant_name m := match m with
    | AnimationMode.Auto => "Auto" | AnimationMode.On => "On" | AnimationMode.Off => "Off" end;
}.

#[export] Instance style_variants : Variants PasswordGenerationStyle.t := {
  variants := [PasswordGenerationStyle.Random; PasswordGenerationStyle.Memorable;
    PasswordGenerationStyle.Pin];
  variant_name m := match m with
    | PasswordGenerationStyle.Random => "Random"
    | PasswordGenerationStyle.Memorable => "Memorable"
    | PasswordGenerationStyle.Pin => "Pin" end;
}.

#[export] Instance provider_variants : Variants SyncProvider.t := {
  variants := [SyncProvider.Disabled; SyncProvider.ICloud; SyncProvider.GoogleDrive;
    SyncProvider.Dropbox; SyncProvider.OneDrive; SyncProvider.WebDav; SyncProvider.Sftp;
    SyncProvider.S3; SyncProvider.AliyunDrive; SyncProvider.AliyunOss; SyncProvider.TencentCos;
    SyncProvider.HuaweiObs; SyncProvider.Upyun];
  variant_name := provider_debug;
}.

#[export] Instance mode_variants : Variants SyncMode.t := {
  variants := [SyncMode.Auto; SyncMode.Manual];
  variant_name m := match m with SyncMode.Auto => "Auto" | SyncMode.Manual => "Manual" end;
}.

#[export] Instance host_check_variants : Variants SftpHostCheck.t := {
  variants := [SftpHostCheck.Strict; SftpHostCheck.Accept; SftpHostCheck.Add];
  variant_name := host_check_debug;
}.

#[export] Instance drive_type_variants : Variants AliyunDriveType.t := {
  variants := [AliyunDriveType.Default; AliyunDriveType.Backup; AliyunDriveType.Resource];
  variant_name := drive_type_debug;
}.

#[export] Instance frequency_variants : Variants HealthCheckFrequency.t := {
  variants := [HealthCheckFrequency.OnStartup; HealthCheckFrequency.Daily;
    HealthCheckFrequency.Weekly];
  variant_name m := match m with
    | HealthCheckFrequency.OnStartup => "OnStartup"
    | HealthCheckFrequency.Daily => "Daily"
    | HealthCheckFrequency.Weekly => "Weekly" end;
}.

(** *** The derived serializers of the settings *)

Definition text (s : string) : option Toml := Some (TString s).
Definition number (n : Z) : option Toml := Some (TInteger n).
Definition flag (b : bool) : option Toml := Some (TBoolean b).

Definition general_ser (c : GeneralConfig) : Toml :=
  table [("auto_lock_seconds", number (gc_auto_lock_seconds c));
         ("clipboard_clear_seconds", number (gc_clipboard_clear_seconds c));
         ("trash_retention_days", number (gc_trash_retention_days c));
         ("animation", Some (ser_unit (gc_animation c)));
         ("language", text (gc_language c))].

Definition general_de (v : Toml) : option GeneralConfig :=
  m ← as_table v;
  auto_lock ← defaulted m "auto_lock_seconds" (de_uint 64) 300%Z;
  clipboard ← defaulted m "clipboard_clear_seconds" (de_uint 64) 30%Z;
  trash ← defaulted m "trash_retention_days" (de_uint 32) 30%Z;
  animation ← defaulted m "animation" de_unit AnimationMode.Auto;
  language ← defaulted m "language" de_string "auto";
  Some (mkGeneralConfig auto_lock clipboard trash animation language).

Definition password_ser (c : PasswordDefaultsConfig) : Toml :=
  table [("style", Some (ser_unit (pd_style c)));
         ("length", number (pd_length c));
         ("include_lowercase", flag (pd_include_lowercase c));
         ("include_digits", flag (pd_include_digits c));
         ("include_uppercase", flag (pd_include_uppercase c));
         ("include_special", flag (pd_include_special c));
         ("memorable_word_count", number (pd_memorable_word_count c));
         ("memorable_capitalize", flag (pd_memorable_capitalize c));
         ("memorable_separator", text (pd_memorable_separator c));
         ("pin_length", number (pd_pin_length c))].

Definition password_de (v : Toml) : option PasswordDefaultsConfig :=
  m ← as_table v;
  style ← defaulted m "style" de_unit PasswordGenerationStyle.Random;
  length ← defaulted m "length" (de_uint 64) 16%Z;
  lowercase ← defaulted m "include_lowercase" de_bool true;
  digits ← defaulted m "include_digits" de_bool true;
  uppercase ← defaulted m "include_uppercase" de_bool true;
  special ← defaulted m "include_special" de_bool true;
  words ← defaulted m "memorable_word_count" (de_uint 64) 4%Z;
  capitalize ← defaulted m "memorable_capitalize" de_bool true;
  separator ← defaulted m "memorable_separator" de_string "-";
  pin ← defaulted m "pin_length" (de_uint 64) 6%Z;
  Some (mkPasswordDefaultsConfig style length lowercase digits uppercase special words capitalize
          separator pin).

Section dates.
Context `{TomlLib}.

Definition de_datetime (v : Toml) : option Instant :=
  match v with TString s => datetime_de s | _ => None end.

Definition rotation_ser (c : RotationConfig) : Toml :=
  table [("auto_rotate", flag (rt_auto_rotate c));
         ("rotate_after_days", TInteger <$> rt_rotate_after_days c);
         ("rotate_after_records", TInteger <$> rt_rotate_after_records c);
         ("last_rotation_at", TString ∘ datetime_ser <$> rt_last_rotation_at c);
         ("current_dek_record_count", number (rt_current_dek_record_count c))].

Definition rotation_de (v : Toml) : option RotationConfig :=
  m ← as_table v;
  auto_rotate ← required m "auto_rotate" de_bool;
  days ← optional m "rotate_after_days" (de_uint 32);
  records ← optional m "rotate_after_records" (de_uint 32);
  last ← optional m "last_rotation_at" de_datetime;
  count ← required m "current_dek_record_count" (de_uint 32);
  Some (mkRotationConfig auto_rotate days records last count).

Definition security_ser (c : SecurityConfig) : Toml :=
  table [("health_check_enabled", flag (sc_health_check_enabled c));
         ("health_check_frequency", Some (ser_unit (sc_health_check_frequency c)));
         ("audit_enabled", flag (sc_audit_enabled c));
         ("audit_retention_days", number (sc_audit_retention_days c));
         ("rotation", Some (rotation_ser (sc_rotation c)))].

Definition security_de (v : Toml) : option SecurityConfig :=
  m ← as_table v;
  enabled ← defaulted m "health_check_enabled" de_bool true;
  frequency ← defaulted m "health_check_frequency" de_unit HealthCheckFrequency.OnStartup;
  audit ← defaulted m "audit_enabled" de_bool true;
  days ← defaulted m "audit_retention_days" (de_uint 32) 365%Z;
  rotation ← defaulted m "rotation" rotation_de default_config;
  Some (mkSecurityConfig enabled frequency audit days rotation).

End dates.

(** The tokens of Google Drive are skipped. *)
Definition google_drive_ser (c : GoogleDriveConfig) : Toml :=
  table [("root_path", text (gd_root_path c)); ("client_id", text (gd_client_id c));
         ("client_secret", text (gd_client_secret c))].

Definition google_drive_de (v : Toml) : option GoogleDriveConfig :=
  m ← as_table v;
  root ← defaulted m "root_path" de_string default_gdrive_root;
  id ← defaulted m "client_id" de_string "";
  secret ← defaulted m "client_secret" de_string "";
  Some (mkGoogleDriveConfig "" "" root id secret).

Definition dropbox_ser (c : DropboxConfig) : Toml :=
  table [("client_id", text (db_client_id c)); ("client_secret", text (db_client_secret c));
         ("refresh_token", text (db_refresh_token c)); ("root_path", text (db_root_path c))].

Definition dropbox_de (v : Toml) : option DropboxConfig :=
  m ← as_table v;
  id ← required m "client_id" de_string;
  secret ← required m "client_secret" de_string;
  token ← required m "refresh_token" de_string;
  root ← defaulted m "root_path" de_string default_root;
  Some (mkDropboxConfig id secret token root).

Definition one_drive_ser (c : OneDriveConfig) : Toml :=
  table [("client_id", text (od_client_id c)); ("client_secret", text (od_client_secret c));
         ("refresh_token", text (od_refresh_token c)); ("root_path", text (od_root_path c))].

Definition one_drive_de (v : Toml) : option OneDriveConfig :=
  m ← as_table v;
  id ← required m "client_id" de_string;
  secret ← required m "client_secret" de_string;
  token ← required m "refresh_token" de_string;
  root ← defaulted m "root_path" de_string default_root;
  Some (mkOneDriveConfig id secret token root).

Definition webdav_ser (c : WebDavConfig) : Toml :=
  table [("endpoint", text (wd_endpoint c)); ("root_path", text (wd_root_path c));
         ("username", TString <$> wd_username c); ("password", TString <$> wd_password c);
         ("bearer_token", TString <$> wd_bearer_token c)].

Definition webdav_de (v : Toml) : option WebDavConfig :=
  m ← as_table v;
  endpoint ← required m "endpoint" de_string;
  root ← defaulted m "root_path" de_string default_root;
  username ← optional m "username" de_string;
  password ← optional m "password" de_string;
  token ← optional m "bearer_token" de_string;
  Some (mkWebDavConfig endpoint root username password token).

Definition sftp_ser (c : SftpConfig) : Toml :=
  table [("server", text (sf_server c)); ("root_path", text (sf_root_path c));
         ("ssh_key_path", text (sf_ssh_key_path c));
         ("host_check", Some (ser_unit (sf_host_check c)))].

Definition sftp_de (v : Toml) : option SftpConfig :=
  m ← as_table v;
  server ← required m "server" de_string;
  root ← defaulted m "root_path" de_string default_root;
  key ← required m "ssh_key_path" de_string;
  check ← defaulted m "host_check" de_unit SftpHostCheck.Strict;
  Some (mkSftpConfig server root key check).

Definition s3_ser (c : S3Config) : Toml :=
  table [("endpoint", TString <$> s3_endpoint c); ("bucket", text (s3_bucket c));
         ("region", TString <$> s3_region c); ("access_key_id", text (s3_access_key_id c));
         ("secret_access_key", text (s3_secret_access_key c)); ("root_path", text (s3_root_path c))].

Definition s3_de (v : Toml) : option S3Config :=
  m ← as_table v;
  endpoint ← optional m "endpoint" de_string;
  bucket ← required m "bucket" de_string;
  region ← optional m "region" de_string;
  id ← required m "access_key_id" de_string;
  secret ← required m "secret_access_key" de_string;
  root ← defaulted m "root_path" de_string default_root;
  Some (mkS3Config endpoint bucket region id secret root).

Definition aliyun_drive_ser (c : AliyunDriveConfig) : Toml :=
  table [("client_id", text (ad_client_id c)); ("client_secret", text (ad_client_secret c));
         ("refresh_token", text (ad_refresh_token c));
         ("drive_type", Some (ser_unit (ad_drive_type c))); ("root_path", text (ad_root_path c))].

Definition aliyun_drive_de (v : Toml) : option AliyunDriveConfig :=
  m ← as_table v;
  id ← required m "client_id" de_string;
  secret ← required m "client_secret" de_string;
  token ← required m "refresh_token" de_string;
  type ← defaulted m "drive_type" de_unit AliyunDriveType.Default;
  root ← defaulted m "root_path" de_string default_root;
  Some (mkAliyunDriveConfig id secret token type root).

Definition aliyun_oss_ser (c : AliyunOssConfig) : Toml :=
  table [("endpoint", text (ao_endpoint c)); ("bucket", text (ao_bucket c));
         ("access_key_id", text (ao_access_key_id c));
         ("access_key_secret", text (ao_access_key_secret c)); ("root_path", text (ao_root_path c))].

Definition aliyun_oss_de (v : Toml) : option AliyunOssConfig :=
  m ← as_table v;
  endpoint ← required m "endpoint" de_string;
  bucket ← required m "bucket" de_string;
  id ← required m "access_key_id" de_string;
  secret ← required m "access_key_secret" de_string;
  root ← defaulted m "root_path" de_string default_root;
  Some (mkAliyunOssConfig endpoint bucket id secret root).

Definition tencent_cos_ser (c : TencentCosConfig) : Toml :=
  table [("endpoint", text (tc_endpoint c)); ("bucket", text (tc_bucket c));
         ("secret_id", text (tc_secret_id c)); ("secret_key", text (tc_secret_key c));
         ("root_path", text (tc_root_path c))].

Definition tencent_cos_de (v : Toml) : option TencentCosConfig :=
  m ← as_table v;
  endpoint ← required m "endpoint" de_string;
  bucket ← required m "bucket" de_string;
  id ← required m "secret_id" de_string;
  key ← required m "secret_key" de_string;
  root ← defaulted m "root_path" de_string default_root;
  Some (mkTencentCosConfig endpoint bucket id key root).

Definition huawei_obs_ser (c : HuaweiObsConfig) : Toml :=
  table [("endpoint", text (ho_endpoint c)); ("bucket", text (ho_bucket c));
         ("access_key_id", text (ho_access_key_id c));
         ("secret_access_key", text (ho_secret_access_key c)); ("root_path", text (ho_root_path c))].

Definition huawei_obs_de (v : Toml) : option HuaweiObsConfig :=
  m ← as_table v;
  endpoint ← required m "endpoint" de_string;
  bucket ← required m "bucket" de_string;
  id ← required m "access_key_id" de_string;
  secret ← required m "secret_access_key" de_string;
  root ← defaulted m "root_path" de_string default_root;
  Some (mkHuaweiObsConfig endpoint bucket id secret root).

Definition upyun_ser (c : UpyunConfig) : Toml :=
  table [("bucket", text (uy_bucket c)); ("operator", text (uy_operator c));
         ("operator_password", text (uy_operator_password c)); ("root_path", text (uy_root_path c))].

Definition upyun_de (v : Toml) : option UpyunConfig :=
  m ← as_table v;
  bucket ← required m "bucket" de_string;
  operator ← required m "operator" de_string;
  password ← required m "operator_password" de_string;
  root ← defaulted m "root_path" de_string default_root;
  Some (mkUpyunConfig bucket operator password root).

Definition provider_config_ser (pc : ProviderConfig.t) : Toml :=
  let variant v := table [(provider_config_variant_name pc, Some v)] in
  match pc with
  | ProviderConfig.ICloud => TString "ICloud"
  | ProviderConfig.GoogleDrive c => variant (google_drive_ser c)
  | ProviderConfig.Dropbox c => variant (dropbox_ser c)
  | ProviderConfig.OneDrive c => variant (one_drive_ser c)
  | ProviderConfig.WebDav c => variant (webdav_ser c)
  | ProviderConfig.Sftp c => variant (sftp_ser c)
  | ProviderConfig.S3 c => variant (s3_ser c)
  | ProviderConfig.AliyunDrive c => variant (aliyun_drive_ser c)
  | ProviderConfig.AliyunOss c => variant (aliyun_oss_ser c)
  | ProviderConfig.TencentCos c => variant (tencent_cos_ser c)
  | ProviderConfig.HuaweiObs c => variant (huawei_obs_ser c)
  | ProviderConfig.Upyun c => variant (upyun_ser c)
  end.

Definition provider_config_de (v : Toml) : option ProviderConfig.t :=
  '(name, data) ← de_variant v;
  if String.eqb name "ICloud" then if no_data data then Some ProviderConfig.ICloud else None
  else
    c ← data;
    if String.eqb name "GoogleDrive" then ProviderConfig.GoogleDrive <$> google_drive_de c
    else if String.eqb name "Dropbox" then ProviderConfig.Dropbox <$> dropbox_de c
    else if String.eqb name "OneDrive" then ProviderConfig.OneDrive <$> one_drive_de c
    else if String.eqb name "WebDav" then ProviderConfig.WebDav <$> webdav_de c
    else if String.eqb name "Sftp" then ProviderConfig.Sftp <$> sftp_de c
    else if String.eqb name "S3" then ProviderConfig.S3 <$> s3_de c
    else if String.eqb name "AliyunDrive" then ProviderConfig.AliyunDrive <$> aliyun_drive_de c
    else if String.eqb name "AliyunOss" then ProviderConfig.AliyunOss <$> aliyun_oss_de c
    else if String.eqb name "TencentCos" then ProviderConfig.TencentCos <$> tencent_cos_de c
    else if String.eqb name "HuaweiObs" then ProviderConfig.HuaweiObs <$> huawei_obs_de c
    else if String.eqb name "Upyun" then ProviderConfig.Upyun <$> upyun_de c
    else None.

Definition sync_ser (c : SyncConfig) : Toml :=
  table [("provider", Some (ser_unit (yc_provider c)));
         ("sync_mode", Some (ser_unit (yc_sync_mode c)));
         ("auto_interval_seconds", number (yc_auto_interval_seconds c));
         ("provider_config", provider_config_ser <$> yc_provider_config c)].

Definition sync_de (v : Toml) : option SyncConfig :=
  m ← as_table v;
  provider ← defaulted m "provider" de_unit SyncProvider.Disabled;
  mode ← defaulted m "sync_mode" de_unit SyncMode.Auto;
  interval ← defaulted m "auto_interval_seconds" (de_uint 64) 600%Z;
  provider_config ← optional m "provider_config" provider_config_de;
  Some (mkSyncConfig provider mode interval provider_config).

Section files.
Context `{TomlLib}.

Definition app_ser (c : AppConfig) : Toml :=
  table [("general", Some (general_ser (ac_general c))); ("sync", Some (sync_ser (ac_sync c)));
         ("security", Some (security_ser (ac_security c)));
         ("password", Some (password_ser (ac_password c)))].

Definition app_de (v : Toml) : option AppConfig :=
  m ← as_table v;
  general ← defaulted m "general" general_de default_general_config;
  sync ← defaulted m "sync" sync_de default_sync_config;
  security ← defaulted m "security" security_de default_security_config;
  password ← defaulted m "password" password_de default_password_config;
  Some (mkAppConfig general sync security password).

Definition from_toml (content : string) : result AppConfig ConfigError.t :=
  match toml_parse content with
  | Err e => Err (ConfigError.Parse e)
  | Ok v =>
      match app_de v with
      | Some c => Ok c
      | None => Err (ConfigError.Parse (toml_rejected content))
      end
  end.

(** ** The file *)

Context {W : Type} `{Fs W} `{DirFs W}.

Definition config_path (config_dir : string) : string := path_join config_dir "config.toml".

(** [with_extension("toml.tmp")] *)
Definition config_temp_path (config_dir : string) : string := config_path config_dir +:+ ".tmp".

Definition load_config (config_dir : string) : ior W AppConfig ConfigError.t :=
  let path := config_path config_dir in
  let* exists_ := fs_exists path in
  if negb exists_ then lift (Ok default_app_config)
  else
    let! content := io_map_err ConfigError.Io (fs_read_to_string path) in
    let! config := lift (from_toml content) in
    let! _ := lift (validate config) in
    lift (Ok config).

(** [set_permissions] gets the permissions of the file that was written, with mode 0600. *)
Definition save_config (config : AppConfig) (config_dir : string) : ior W () ConfigError.t :=
  let! _ := lift (validate config) in
  let! _ := io_map_err ConfigError.Io (fs_create_dir_all config_dir) in
  let path := config_path config_dir in
  let! toml_str := lift (map_err ConfigError.Parse (toml_print (app_ser config))) in
  let tmp_path := config_temp_path config_dir in
  let! _ := io_map_err ConfigError.Io (fs_write tmp_path toml_str) in
  let! _ := io_map_err ConfigError.Io (fs_set_mode tmp_path 384) in
  let! _ := io_map_err ConfigError.Io (fs_rename tmp_path path) in
  lift (Ok ()).

Definition load_or_auto_generate (config_dir data_dir : string)
  : ior W AppConfig ConfigError.t :=
  let key_path := path_join data_dir "wrapped_secret_key.json" in
  let db_path := path_join data_dir "vault.db" in
  let* there := fs_exists (config_path config_dir) in
  let* key := if there : bool then io_ret false else fs_exists key_path in
  let* db := if key : bool then fs_exists db_path else io_ret false in
  if db : bool then
    let config := default_app_config in
    let! _ := save_config config config_dir in
    lift (Ok config)
  else load_config config_dir.

End files.

(** ** Properties *)

(** *** Round trips *)

(** The widths of the fields, which their types guarantee. *)
Definition u32 (n : Z) : Prop := (0 ≤ n < 2 ^ 32)%Z.
Definition u64 (n : Z) : Prop := (0 ≤ n < 2 ^ 64)%Z.

Definition rotation_fits (c : RotationConfig) : Prop :=
  (∀ n, rt_rotate_after_days c = Some n → u32 n) ∧
  (∀ n, rt_rotate_after_records c = Some n → u32 n) ∧
  (∀ t, rt_last_rotation_at c = Some t → printable_instant t) ∧
  u32 (rt_current_dek_record_count c).

Record config_fits (c : AppConfig) : Prop := {
  fits_lock : u64 (gc_auto_lock_seconds (ac_general c));
  fits_clipboard : u64 (gc_clipboard_clear_seconds (ac_general c));
  fits_trash : u32 (gc_trash_retention_days (ac_general c));
  fits_interval : u64 (yc_auto_interval_seconds (ac_sync c));
  fits_audit : u32 (sc_audit_retention_days (ac_security c));
  fits_rotation : rotation_fits (sc_rotation (ac_security c));
  fits_length : u64 (pd_length (ac_password c));
  fits_words : u64 (pd_memorable_word_count (ac_password c));
  fits_pin : u64 (pd_pin_length (ac_password c));
}.

(** What the file keeps of a configuration. *)
Definition without_tokens (pc : ProviderConfig.t) : ProviderConfig.t :=
  match pc with
  | ProviderConfig.GoogleDrive c => ProviderConfig.GoogleDrive
      (mkGoogleDriveConfig "" "" (gd_root_path c) (gd_client_id c) (gd_client_secret c))
  | _ => pc
  end.

Definition persisted (c : AppConfig) : AppConfig :=
  c <| ac_sync ::= λ s, s <| yc_provider_config := without_tokens <$> yc_provider_config s |> |>.

Create HintDb toml.

Lemma de_uint_ok bits n : (0 ≤ n < 2 ^ bits)%Z → de_uint bits (TInteger n) = Some n.
Proof.
  intros [? ?]. unfold de_uint. rewrite (proj2 (Z.leb_le 0 n)), (proj2 (Z.ltb_lt n _)) by lia.
  done.
Qed.

Lemma u32_ok n : u32 n → de_uint 32 (TInteger n) = Some n.
Proof. apply de_uint_ok. Qed.

Lemma u64_ok n : u64 n → de_uint 64 (TInteger n) = Some n.
Proof. apply de_uint_ok. Qed.
#[local] Hint Resolve u32_ok u64_ok : toml.

Lemma read_table {B} l (f : gmap string Toml → option B) r :
  f (list_to_map (omap (λ f, v ← f.2; Some (f.1, v)) l)) = r → (as_table (table l) ≫= f) = r.
Proof. done. Qed.

(** A structure is read back field by field, in the order in which the fields are read. *)
Lemma read_required {A B} m k v (de : Toml → option A) a (f : A → option B) r :
  m !! k = Some v → de v = Some a → f a = r → (required m k de ≫= f) = r.
Proof. unfold required. by intros -> Ha; cbn; rewrite Ha. Qed.

Lemma read_defaulted {A B} m k v (de : Toml → option A) d a (f : A → option B) r :
  m !! k = Some v → de v = Some a → f a = r → (defaulted m k de d ≫= f) = r.
Proof. unfold defaulted. by intros -> ->. Qed.

Lemma read_optional {A B} m k v (de : Toml → option A) a (f : option A → option B) r :
  m !! k = Some v → de v = Some a → f (Some a) = r → (optional m k de ≫= f) = r.
Proof. unfold optional. by intros -> Ha; cbn; rewrite Ha. Qed.

Lemma read_missing {A B} m k (de : Toml → option A) (f : option A → option B) r :
  m !! k = None → f None = r → (optional m k de ≫= f) = r.
Proof. unfold optional. by intros ->. Qed.

Lemma de_string_ok s : de_string (TString s) = Some s.
Proof. done. Qed.

Lemma de_bool_ok b : de_bool (TBoolean b) = Some b.
Proof. done. Qed.

Class VariantLaws (A : Type) `{Variants A} : Prop := de_unit_ok a : de_unit (ser_unit a) = Some a.

#[export] Instance animation_laws : VariantLaws AnimationMode.t.
Proof. by intros []. Qed.
#[export] Instance style_laws : VariantLaws PasswordGenerationStyle.t.
Proof. by intros []. Qed.
#[export] Instance provider_laws : VariantLaws SyncProvider.t.
Proof. by intros []. Qed.
#[export] Instance mode_laws : VariantLaws SyncMode.t.
Proof. by intros []. Qed.
#[export] Instance host_check_laws : VariantLaws SftpHostCheck.t.
Proof. by intros []. Qed.
#[export] Instance drive_type_laws : VariantLaws AliyunDriveType.t.
Proof. by intros []. Qed.
#[export] Instance frequency_laws : VariantLaws HealthCheckFrequency.t.
Proof. by intros []. Qed.
#[local] Hint Resolve de_string_ok de_bool_ok : toml.
#[local] Hint Extern 1 (de_unit _ = _) => apply de_unit_ok : toml.

Ltac read_field :=
  first [ eapply read_required; [reflexivity|solve [eauto with toml]|cbn beta]
        | eapply read_defaulted; [reflexivity|solve [eauto with toml]|cbn beta]
        | eapply read_optional; [reflexivity|solve [eauto with toml]|cbn beta]
        | eapply read_missing; [reflexivity|cbn beta] ].

(** [c] is what the serializer was given. *)
Ltac read_struct c := apply read_table; cbn beta; repeat read_field; by destruct c.

Lemma general_roundtrip c :
  u64 (gc_auto_lock_seconds c) → u64 (gc_clipboard_clear_seconds c) →
  u32 (gc_trash_retention_days c) → general_de (general_ser c) = Some c.
Proof. intros. unfold general_de, general_ser. read_struct c. Qed.

Lemma password_roundtrip c :
  u64 (pd_length c) → u64 (pd_memorable_word_count c) → u64 (pd_pin_length c) →
  password_de (password_ser c) = Some c.
Proof. intros. unfold password_de, password_ser. read_struct c. Qed.

Lemma dropbox_roundtrip c : dropbox_de (dropbox_ser c) = Some c.
Proof. unfold dropbox_de, dropbox_ser. read_struct c. Qed.

Lemma one_drive_roundtrip c : one_drive_de (one_drive_ser c) = Some c.
Proof. unfold one_drive_de, one_drive_ser. read_struct c. Qed.

Lemma webdav_roundtrip c : webdav_de (webdav_ser c) = Some c.
Proof.
  unfold webdav_de, webdav_ser.
  destruct c as [endpoint root [u|] [p|] [t|]]; apply read_table; cbn beta; by repeat read_field.
Qed.

Lemma sftp_roundtrip c : sftp_de (sftp_ser c) = Some c.
Proof. unfold sftp_de, sftp_ser. read_struct c. Qed.

Lemma s3_roundtrip c : s3_de (s3_ser c) = Some c.
Proof.
  unfold s3_de, s3_ser.
  destruct c as [[e|] bucket [g|] id secret root]; apply read_table; cbn beta; by repeat read_field.
Qed.

Lemma aliyun_drive_roundtrip c : aliyun_drive_de (aliyun_drive_ser c) = Some c.
Proof. unfold aliyun_drive_de, aliyun_drive_ser. read_struct c. Qed.

Lemma aliyun_oss_roundtrip c : aliyun_oss_de (aliyun_oss_ser c) = Some c.
Proof. unfold aliyun_oss_de, aliyun_oss_ser. read_struct c. Qed.

Lemma tencent_cos_roundtrip c : tencent_cos_de (tencent_cos_ser c) = Some c.
Proof. unfold tencent_cos_de, tencent_cos_ser. read_struct c. Qed.

Lemma huawei_obs_roundtrip c : huawei_obs_de (huawei_obs_ser c) = Some c.
Proof. unfold huawei_obs_de, huawei_obs_ser. read_struct c. Qed.

Lemma upyun_roundtrip c : upyun_de (upyun_ser c) = Some c.
Proof. unfold upyun_de, upyun_ser. read_struct c. Qed.

Lemma google_drive_roundtrip c :
  google_drive_de (google_drive_ser c) =
  Some (mkGoogleDriveConfig "" "" (gd_root_path c) (gd_client_id c) (gd_client_secret c)).
Proof. unfold google_drive_de, google_drive_ser. read_struct c. Qed.

Lemma variant_of_table k v : de_variant (table [(k, Some v)]) = Some (k, Some v).
Proof. unfold de_variant, table. cbn. by rewrite insert_empty, map_to_list_singleton. Qed.

Lemma provider_config_roundtrip pc :
  provider_config_de (provider_config_ser pc) = Some (without_tokens pc).
Proof.
  unfold provider_config_de, provider_config_ser.
  destruct pc; [done|..]; rewrite variant_of_table;
    cbn [mbind option_bind provider_config_variant_name];
    by rewrite ?google_drive_roundtrip, ?dropbox_roundtrip, ?one_drive_roundtrip,
      ?webdav_roundtrip, ?sftp_roundtrip, ?s3_roundtrip, ?aliyun_drive_roundtrip,
      ?aliyun_oss_roundtrip, ?tencent_cos_roundtrip, ?huawei_obs_roundtrip, ?upyun_roundtrip.
Qed.
#[local] Hint Resolve provider_config_roundtrip : toml.

Lemma sync_roundtrip c :
  u64 (yc_auto_interval_seconds c) →
  sync_de (sync_ser c) = Some (c <| yc_provider_config := without_tokens <$> yc_provider_config c |>).
Proof.
  intros. unfold sync_de, sync_ser.
  destruct c as [p m i [pc|]]; apply read_table; cbn beta; by repeat read_field.
Qed.

Section properties.
Context `{TomlLaws}.

Lemma datetime_ok t : printable_instant t → de_datetime (TString (datetime_ser t)) = Some t.
Proof. apply datetime_serde. Qed.
#[local] Hint Resolve datetime_ok : toml.

Lemma rotation_roundtrip c : rotation_fits c → rotation_de (rotation_ser c) = Some c.
Proof.
  intros (Hd & Hr & Ht & Hc). unfold rotation_de, rotation_ser.
  destruct c as [a [d|] [r|] [t|] n]; apply read_table; cbn beta; by repeat read_field.
Qed.
#[local] Hint Resolve rotation_roundtrip : toml.

Lemma security_roundtrip c :
  u32 (sc_audit_retention_days c) → rotation_fits (sc_rotation c) →
  security_de (security_ser c) = Some c.
Proof. intros. unfold security_de, security_ser. read_struct c. Qed.
#[local] Hint Resolve general_roundtrip password_roundtrip sync_roundtrip security_roundtrip : toml.

Lemma app_roundtrip c : config_fits c → app_de (app_ser c) = Some (persisted c).
Proof. intros []. unfold app_de, app_ser. read_struct c. Qed.

Lemma from_toml_printed c s :
  config_fits c → toml_print (app_ser c) = Ok s → from_toml s = Ok (persisted c).
Proof. intros Hc E%toml_roundtrip. unfold from_toml. by rewrite E, app_roundtrip. Qed.

Lemma validate_persisted c : validate (persisted c) = validate c.
Proof.
  unfold validate, validate_provider_consistency. cbn.
  destruct (yc_provider_config (ac_sync c)) as [[]|]; try done; cbn; by destruct (yc_provider _).
Qed.

(** *** Saving and loading *)

Context {W : Type} `{FsLaws W} `{!DirFs W} `{!Secure W} `{!System W} `{!DirFsLaws W}.

Lemma config_paths_differ dir : config_temp_path dir ≠ config_path dir.
Proof.
  intros E. apply (f_equal String.length) in E. unfold config_temp_path in E.
  rewrite string_length_append in E. cbn in E. lia.
Qed.

(** What saving does to the files: nothing but the temporary file changes, or the
    configuration is there in whole. *)
Lemma save_config_files c dir (w : W) r w' :
  save_config c dir w = (r, w') →
  (∀ q, q ≠ config_path dir → q ≠ config_temp_path dir → fs_files w' !! q = fs_files w !! q) ∧
  match r with
  | Ok _ => validate c = Ok () ∧ ∃ s, toml_print (app_ser c) = Ok s ∧
      fs_files w' !! config_path dir = Some s
  | Err _ => fs_files w' !! config_path dir = fs_files w !! config_path dir
  end.
Proof.
  pose proof (config_paths_differ dir) as Hne. intros Hs. unfold save_config in Hs.
  run_io; repeat match goal with
  | E : fs_create_dir_all _ _ = _ |- _ => apply create_dir_files in E
  | E : fs_set_mode _ _ _ = _ |- _ => apply set_mode_files in E
  end; fs_facts.
  1: { match goal with E : fs_rename _ _ ?w2 = (Ok _, _), F : fs_files ?w1 = <[_ := ?b]> _,
         G : fs_files ?w2 = fs_files ?w1 |- _ =>
         pose proof (fs_rename_ok _ _ _ _ _ b E) as Hr; rewrite G, F in Hr end.
       specialize (Hr (lookup_insert_eq _ _ _)). rewrite Hr.
       split; [intros q ? ?; rewrite_files; by simplify_map_eq|]. split; [done|].
       eexists. split; [done|]. by simplify_map_eq. }
  all: split; [intros q ? ?|].
  all: repeat match goal with
    | E : ∀ q, _ → fs_files ?w' !! q = _ |- context [fs_files ?w' !! _] => rewrite E by done
    | E : fs_files ?w' = _ |- context [fs_files ?w'] => rewrite E
    end; by simplify_map_eq.
Qed.

(** Loading reads the file if it is there, and changes none. *)
Lemma load_config_files dir (w : W) r w' :
  load_config dir w = (r, w') →
  fs_files w' = fs_files w ∧
  (fs_files w !! config_path dir = None → r = Ok default_app_config ∨ ∃ m, r = Err (ConfigError.Io m)) ∧
  ∀ s, fs_files w !! config_path dir = Some s →
    r = (let? c := from_toml s in let? _ := validate c in Ok c) ∨ ∃ m, r = Err (ConfigError.Io m).
Proof.
  unfold load_config. intros (b & w1 & Eb & Hr)%io_bind_eq.
  pose proof (fs_exists_files _ _ _ _ Eb) as Hf. destruct b; cbn [negb] in Hr.
  - clear Eb. unfold ior_bind in Hr. apply io_bind_eq in Hr as (rc & w2 & Ec & Hr).
    unfold io_map_err in Ec. apply io_bind_eq in Ec as (rs & w3 & Es & Ec). injection Ec as <- <-.
    pose proof (fs_read_files _ _ _ _ Es) as Hg. destruct rs as [s|m]; cbn in Hr.
    + apply fs_read_ok in Es. rewrite Hf in Es.
      enough (w' = w3 ∧ r = (let? c := from_toml s in let? _ := validate c in Ok c)) as [-> ->].
      { split_and!; [congruence|congruence|]. intros s' E. left. congruence. }
      unfold res_bind. destruct (from_toml s) as [c|]; cbn in Hr; [|by injection Hr as <- <-].
      destruct (validate c); cbn in Hr; injection Hr as <- <-; done.
    + injection Hr as <- <-. split_and!; [congruence|eauto..].
  - apply fs_exists_false in Eb. injection Hr as <- <-. split_and!; [done|eauto|].
    intros s E. congruence.
Qed.

(** C24: what is saved is what is loaded.  A configuration that could be saved is loaded again
    as it was, without the tokens of Google Drive, unless its file cannot be read; one that
    could not be saved leaves the file as it was, so that no failure loses the settings; and
    no other file changes but the temporary one. *)
Theorem saved_config_loads c dir (w : W) r w1 r2 w2 :
  config_fits c → save_config c dir w = (r, w1) → load_config dir w1 = (r2, w2) →
  (∀ q, q ≠ config_path dir → q ≠ config_temp_path dir → fs_files w2 !! q = fs_files w !! q) ∧
  match r with
  | Ok _ => r2 = Ok (persisted c) ∨ ∃ m, r2 = Err (ConfigError.Io m)
  | Err _ => fs_files w2 !! config_path dir = fs_files w !! config_path dir
  end.
Proof.
  intros Hc [Hq Hs]%save_config_files (Hf & _ & Hl)%load_config_files. rewrite Hf.
  split; [exact Hq|]. destruct r as [u|e]; [|exact Hs].
  destruct Hs as (Hv & s & Hp & Hs). destruct (Hl s Hs) as [->|Hm]; [left|by right].
  rewrite (from_toml_printed c s Hc Hp). cbn. by rewrite validate_persisted, Hv.
Qed.

End properties.

(** *** Secrets *)

Definition mask (s : string) : string := if (String.length s =? 0)%nat then "" else "x".

(** The same settings with other secrets, empty where they are. *)
Definition masked (pc : ProviderConfig.t) : ProviderConfig.t :=
  match pc with
  | ProviderConfig.ICloud => ProviderConfig.ICloud
  | ProviderConfig.GoogleDrive c => ProviderConfig.GoogleDrive
      (mkGoogleDriveConfig (mask (gd_access_token c)) (mask (gd_refresh_token c)) (gd_root_path c)
         (mask (gd_client_id c)) (mask (gd_client_secret c)))
  | ProviderConfig.Dropbox c => ProviderConfig.Dropbox
      (mkDropboxConfig (mask (db_client_id c)) (mask (db_client_secret c))
         (mask (db_refresh_token c)) (db_root_path c))
  | ProviderConfig.OneDrive c => ProviderConfig.OneDrive
      (mkOneDriveConfig (mask (od_client_id c)) (mask (od_client_secret c))
         (mask (od_refresh_token c)) (od_root_path c))
  | ProviderConfig.WebDav c => ProviderConfig.WebDav
      (mkWebDavConfig (wd_endpoint c) (wd_root_path c) (wd_username c) (mask <$> wd_password c)
         (mask <$> wd_bearer_token c))
  | ProviderConfig.Sftp c => ProviderConfig.Sftp c
  | ProviderConfig.S3 c => ProviderConfig.S3
      (mkS3Config (s3_endpoint c) (s3_bucket c) (s3_region c) (mask (s3_access_key_id c))
         (mask (s3_secret_access_key c)) (s3_root_path c))
  | ProviderConfig.AliyunDrive c => ProviderConfig.AliyunDrive
      (mkAliyunDriveConfig (mask (ad_client_id c)) (mask (ad_client_secret c))
         (mask (ad_refresh_token c)) (ad_drive_type c) (ad_root_path c))
  | ProviderConfig.AliyunOss c => ProviderConfig.AliyunOss
      (mkAliyunOssConfig (ao_endpoint c) (ao_bucket c) (mask (ao_access_key_id c))
         (mask (ao_access_key_secret c)) (ao_root_path c))
  | ProviderConfig.TencentCos c => ProviderConfig.TencentCos
      (mkTencentCosConfig (tc_endpoint c) (tc_bucket c) (mask (tc_secret_id c))
         (mask (tc_secret_key c)) (tc_root_path c))
  | ProviderConfig.HuaweiObs c => ProviderConfig.HuaweiObs
      (mkHuaweiObsConfig (ho_endpoint c) (ho_bucket c) (mask (ho_access_key_id c))
         (mask (ho_secret_access_key c)) (ho_root_path c))
  | ProviderConfig.Upyun c => ProviderConfig.Upyun
      (mkUpyunConfig (uy_bucket c) (uy_operator c) (mask (uy_operator_password c)) (uy_root_path c))
  end.

Lemma hidden_mask `{DebugText} s : hidden (mask s) = hidden s.
Proof. by destruct s. Qed.

Lemma option_hidden_mask `{DebugText} o : option_debug hidden (mask <$> o) = option_debug hidden o.
Proof. destruct o as [s|]; [|done]. cbn [fmap option_fmap option_map option_debug]. by rewrite hidden_mask. Qed.

(** What is printed of a provider's settings shows none of its secrets.  The text says of
    each whether it is empty, and is the same whatever they are otherwise. *)
Lemma debug_hides_secrets `{DebugText} pc pc' :
  masked pc = masked pc' → provider_config_debug pc = provider_config_debug pc'.
Proof.
  enough (Hm : ∀ pc, provider_config_debug (masked pc) = provider_config_debug pc).
  { intros E. by rewrite <- (Hm pc), E, Hm. }
  clear. intros [|c|c|c|c|c|c|c|c|c|c|c]; cbn [masked provider_config_debug]; try done.
  1: unfold google_drive_debug. 2: unfold dropbox_debug. 3: unfold one_drive_debug.
  4: unfold webdav_debug. 5: unfold s3_debug. 6: unfold aliyun_drive_debug.
  7: unfold aliyun_oss_debug. 8: unfold tencent_cos_debug. 9: unfold huawei_obs_debug.
  10: unfold upyun_debug.
  all: cbn -[hidden mask]; by rewrite ?hidden_mask, ?option_hidden_mask.
Qed.
