(* ===== verification/Providers.v ===== *)
(** * Cloud providers (src/cloud/provider.rs, src/cloud/adapters)

    What each provider asks of its settings and the storage that is made of them.  Of the
    adapters only those of iCloud and Google Drive make one; the modules for S3 and SFTP are
    not part of the build.  The library that opens a storage is an interface. *)

From S2P Require Import Prelude Text Errors Env Storage Payload Files Config.

(** The builders of OpenDAL that the adapters configure. *)
Module OperatorConfig.
Inductive t : Set :=
| LocalFs (root : string)
| Gdrive (client_id client_secret : string) (refresh_token access_token root : option string).
End OperatorConfig.

(** [Operator::new], the home directory, and the built-in credentials, which a build script
    generates. *)
Class Opendal : Type := {
  operator_new : OperatorConfig.t → result () string;
  home_dir : option string;
  google_client_id : string;
  google_client_secret : string;
}.

Definition empty_field (field reason : string) : SyncError.t :=
  SyncError.ConfigValidationFailed field reason.

(** [s.trim().is_empty()] *)
Definition blank (s : string) : bool := bool_decide (trim s = "").

(** The checks of a list of fields, in order: the first that is blank is reported. *)
Fixpoint nonblank (fields : list (string * string)) : result () SyncError.t :=
  match fields with
  | [] => Ok ()
  | (field, value) :: fields =>
      if blank value then Err (empty_field field (field +:+ " cannot be empty"))
      else nonblank fields
  end.

Definition expected (provider variant : string) : SyncError.t :=
  SyncError.ProviderError provider ("expected " +:+ variant +:+ " config").

Definition not_supported {A} (provider : string) : result A SyncError.t :=
  Err (SyncError.ProviderNotSupported provider).

Section adapters.
Context `{Opendal}.

(** A built operator, or the error of the library *)
Definition build_operator (provider : string) (c : OperatorConfig.t)
  : result OperatorConfig.t SyncError.t :=
  match operator_new c with
  | Ok _ => Ok c
  | Err e => Err (SyncError.ProviderError provider ("failed to create operator: " +:+ e))
  end.

(** ** WebDAV *)

Definition webdav_validate (pc : ProviderConfig.t) : result () SyncError.t :=
  match pc with
  | ProviderConfig.WebDav c =>
      if blank (wd_endpoint c) then Err (empty_field "endpoint" "endpoint cannot be empty")
      else
        let has_bearer := bool_decide (is_Some (wd_bearer_token c)) in
        let has_basic :=
          bool_decide (is_Some (wd_username c)) && bool_decide (is_Some (wd_password c)) in
        if negb has_bearer && negb has_basic then
          Err (empty_field "authentication"
                 "either bearer_token or (username + password) must be provided")
        else Ok ()
  | _ => Err (expected "webdav" "WebDav")
  end.

Definition webdav_create (pc : ProviderConfig.t) : result OperatorConfig.t SyncError.t :=
  match pc with
  | ProviderConfig.WebDav _ => not_supported "webdav"
  | _ => Err (expected "webdav" "WebDav")
  end.

(** ** iCloud *)

Definition document_dir : option string := (λ h, Path.join h "Documents") <$> home_dir.
Definition data_dir_fallback : string := Path.join "." "oak-keyring".

Definition icloud_path : string :=
  Path.join (Path.join (Path.join (default data_dir_fallback document_dir) "..") "Library")
    "Mobile Documents".

Definition icloud_validate (pc : ProviderConfig.t) : result () SyncError.t :=
  match pc with
  | ProviderConfig.ICloud => Ok ()
  | _ => Err (expected "icloud" "ICloud")
  end.

Definition icloud_create (pc : ProviderConfig.t) : result OperatorConfig.t SyncError.t :=
  match pc with
  | ProviderConfig.ICloud => build_operator "icloud" (OperatorConfig.LocalFs icloud_path)
  | _ => Err (expected "icloud" "ICloud")
  end.

(** ** Providers with OAuth2 *)

Definition google_drive_validate (pc : ProviderConfig.t) : result () SyncError.t :=
  match pc with
  | ProviderConfig.GoogleDrive c =>
      if blank (gd_refresh_token c) then
        Err (empty_field "refresh_token" "refresh_token 不能为空，请先完成授权")
      else Ok ()
  | _ => Err (expected "google_drive" "GoogleDrive")
  end.

(** [refresh_token] if there is one, or else [access_token] *)
Definition google_drive_operator (c : GoogleDriveConfig) : OperatorConfig.t :=
  let given s := if bool_decide (s = "") then None else Some s in
  OperatorConfig.Gdrive google_client_id google_client_secret (given (gd_refresh_token c))
    (if bool_decide (gd_refresh_token c = "") then given (gd_access_token c) else None)
    (given (gd_root_path c)).

Definition google_drive_create (pc : ProviderConfig.t) : result OperatorConfig.t SyncError.t :=
  match pc with
  | ProviderConfig.GoogleDrive c => build_operator "google_drive" (google_drive_operator c)
  | _ => Err (expected "google_drive" "GoogleDrive")
  end.

Definition dropbox_validate (pc : ProviderConfig.t) : result () SyncError.t :=
  match pc with
  | ProviderConfig.Dropbox c =>
      nonblank [("client_id", db_client_id c); ("client_secret", db_client_secret c)]
  | _ => Err (expected "dropbox" "Dropbox")
  end.

Definition dropbox_create (pc : ProviderConfig.t) : result OperatorConfig.t SyncError.t :=
  match pc with
  | ProviderConfig.Dropbox _ => not_supported "dropbox"
  | _ => Err (expected "dropbox" "Dropbox")
  end.

Definition one_drive_validate (pc : ProviderConfig.t) : result () SyncError.t :=
  match pc with
  | ProviderConfig.OneDrive c =>
      nonblank [("client_id", od_client_id c); ("client_secret", od_client_secret c)]
  | _ => Err (expected "onedrive" "OneDrive")
  end.

Definition one_drive_create (pc : ProviderConfig.t) : result OperatorConfig.t SyncError.t :=
  match pc with
  | ProviderConfig.OneDrive _ => not_supported "onedrive"
  | _ => Err (expected "onedrive" "OneDrive")
  end.

Definition aliyun_drive_validate (pc : ProviderConfig.t) : result () SyncError.t :=
  match pc with
  | ProviderConfig.AliyunDrive c =>
      nonblank [("client_id", ad_client_id c); ("client_secret", ad_client_secret c)]
  | _ => Err (expected "aliyun_drive" "AliyunDrive")
  end.

Definition aliyun_drive_create (pc : ProviderConfig.t) : result OperatorConfig.t SyncError.t :=
  match pc with
  | ProviderConfig.AliyunDrive _ => not_supported "aliyun_drive"
  | _ => Err (expected "aliyun_drive" "AliyunDrive")
  end.

(** ** The others (unsupported.rs) *)

Definition unsupported_validate (pc : ProviderConfig.t) : result () SyncError.t := Ok ().

Definition unsupported_create (provider : string) (pc : ProviderConfig.t)
  : result OperatorConfig.t SyncError.t :=
  not_supported provider.

(** ** The factory *)

Definition provider_id (p : SyncProvider.t) : string :=
  match p with
  | SyncProvider.Disabled => "disabled"
  | SyncProvider.ICloud => "icloud"
  | SyncProvider.GoogleDrive => "google_drive"
  | SyncProvider.Dropbox => "dropbox"
  | SyncProvider.OneDrive => "onedrive"
  | SyncProvider.WebDav => "webdav"
  | SyncProvider.Sftp => "sftp"
  | SyncProvider.S3 => "s3"
  | SyncProvider.AliyunDrive => "aliyun_drive"
  | SyncProvider.AliyunOss => "aliyun_oss"
  | SyncProvider.TencentCos => "tencent_cos"
  | SyncProvider.HuaweiObs => "huawei_obs"
  | SyncProvider.Upyun => "upyun"
  end.

(** One arm of the factory: the settings must be there, valid and enough for an operator. *)
Definition with_adapter (c : SyncConfig)
    (validate : ProviderConfig.t → result () SyncError.t)
    (create : ProviderConfig.t → result OperatorConfig.t SyncError.t)
  : result (CloudStorage * OperatorConfig.t) SyncError.t :=
  match yc_provider_config c with
  | None => Err (empty_field "provider_config"
                   (provider_debug (yc_provider c) +:+ " provider requires provider_config"))
  | Some pc =>
      let? _ := validate pc in
      let? operator := create pc in
      Ok (mkCloudStorage (provider_id (yc_provider c)), operator)
  end.

Definition create_cloud_storage (c : SyncConfig)
  : result (CloudStorage * OperatorConfig.t) SyncError.t :=
  match yc_provider c with
  | SyncProvider.Disabled => not_supported (provider_id (yc_provider c))
  | SyncProvider.WebDav => with_adapter c webdav_validate webdav_create
  | SyncProvider.ICloud => with_adapter c icloud_validate icloud_create
  | SyncProvider.S3 => with_adapter c unsupported_validate (unsupported_create "s3")
  | SyncProvider.AliyunOss => with_adapter c unsupported_validate (unsupported_create "aliyun_oss")
  | SyncProvider.TencentCos =>
      with_adapter c unsupported_validate (unsupported_create "tencent_cos")
  | SyncProvider.HuaweiObs => with_adapter c unsupported_validate (unsupported_create "huawei_obs")
  | SyncProvider.Upyun => with_adapter c unsupported_validate (unsupported_create "upyun")
  | SyncProvider.Sftp => with_adapter c unsupported_validate (unsupported_create "sftp")
  | SyncProvider.GoogleDrive => with_adapter c google_drive_validate google_drive_create
  | SyncProvider.Dropbox => with_adapter c dropbox_validate dropbox_create
  | SyncProvider.OneDrive => with_adapter c one_drive_validate one_drive_create
  | SyncProvider.AliyunDrive => with_adapter c aliyun_drive_validate aliyun_drive_create
  end.

(** ** Properties *)

(** The operator that the settings of a usable provider ask for. *)
Definition usable (c : SyncConfig) (o : OperatorConfig.t) : Prop :=
  match yc_provider c, yc_provider_config c with
  | SyncProvider.ICloud, Some ProviderConfig.ICloud => o = OperatorConfig.LocalFs icloud_path
  | SyncProvider.GoogleDrive, Some (ProviderConfig.GoogleDrive g) =>
      blank (gd_refresh_token g) = false ∧ o = google_drive_operator g
  | _, _ => False
  end.

Lemma with_adapter_ok c v create st o :
  with_adapter c v create = Ok (st, o) ↔
  ∃ pc, yc_provider_config c = Some pc ∧ v pc = Ok () ∧ create pc = Ok o ∧
    st = mkCloudStorage (provider_id (yc_provider c)).
Proof.
  unfold with_adapter. destruct (yc_provider_config c) as [pc|]; cycle 1.
  { split; [done|by intros (? & ? & _)]. }
  destruct (v pc) as [[]|] eqn:Ev; cbn; cycle 1.
  { split; [done|intros (? & [= <-] & E & _); congruence]. }
  destruct (create pc) as [q|] eqn:Ec; cbn; cycle 1.
  { split; [done|intros (? & [= <-] & _ & E & _); congruence]. }
  split; [intros [= <- <-]; by exists pc|]. intros (? & [= <-] & _ & E & ->). congruence.
Qed.

Lemma build_operator_ok p q o :
  build_operator p q = Ok o ↔ operator_new q = Ok () ∧ o = q.
Proof.
  unfold build_operator. destruct (operator_new q) as [[]|]; [|by split; intros E; simplify_eq; destruct E].
  split; [by intros [= <-]|by intros [_ ->]].
Qed.

(** The providers without an adapter of their own never have a storage. *)
Lemma never_created c v create st o :
  (∀ pc, is_ok (create pc) = false) → with_adapter c v create = Ok (st, o) → False.
Proof. intros Hn (pc & _ & _ & E & _)%with_adapter_ok. specialize (Hn pc). by rewrite E in Hn. Qed.

Lemma storage_created_usable c st o :
  create_cloud_storage c = Ok (st, o) ↔
  usable c o ∧ operator_new o = Ok () ∧ st = mkCloudStorage (provider_id (yc_provider c)).
Proof.
  unfold create_cloud_storage, usable.
  destruct (yc_provider c) eqn:Ep.
  all: try (split; [intros E; exfalso; revert E; try done; apply never_created; by intros []|
                    
                    by destruct (yc_provider_config c) as [[]|]; intros [[] _]]).
  - rewrite with_adapter_ok, Ep. split.
    + intros (pc & -> & Hv & Hc & ->). destruct pc; try done.
      apply build_operator_ok in Hc as [Hn ->]. by split_and!.
    + destruct (yc_provider_config c) as [[]|]; try by intros [[] _].
      intros (-> & Hn & ->). eexists. split_and!; try done. by apply build_operator_ok.
  - rewrite with_adapter_ok, Ep. split.
    + intros (pc & -> & Hv & Hc & ->). destruct pc as [|g| | | | | | | | | |]; try done.
      apply build_operator_ok in Hc as [Hn ->]. cbn in Hv.
      destruct (blank (gd_refresh_token g)); [done|]. by split_and!.
    + destruct (yc_provider_config c) as [[|g| | | | | | | | | |]|]; try by intros [[] _].
      intros ([Hb ->] & Hn & ->). eexists. split_and!; try done; cbn; [by rewrite Hb|].
      by apply build_operator_ok.
Qed.

(** When there is a storage.  The factory makes one exactly for iCloud, and for Google
    Drive once its refresh token is there, if the library accepts the operator; it is named
    after the provider and opened with the settings' own token. *)
Lemma storage_created c st o :
  create_cloud_storage c = Ok (st, o) ↔
  usable c o ∧ operator_new o = Ok () ∧ st = mkCloudStorage (provider_id (yc_provider c)).
Proof. apply storage_created_usable. Qed.

(** A storage is made for configured providers only; the converse fails, even for the
    provider that the interface shows as authorized. *)
Lemma storage_configured c st o :
  create_cloud_storage c = Ok (st, o) → is_runtime_configured c = true.
Proof.
  intros (Hu & _ & _)%storage_created_usable. unfold usable in Hu.
  unfold is_runtime_configured, has_google_drive_authorization.
  destruct (yc_provider c), (yc_provider_config c) as [[]|]; try done.
  destruct Hu as [Hb _]. unfold has_oauth_token. unfold blank in Hb. by rewrite Hb.
Qed.

Lemma access_token_not_enough c g :
  yc_provider c = SyncProvider.GoogleDrive →
  yc_provider_config c = Some (ProviderConfig.GoogleDrive g) →
  blank (gd_refresh_token g) = true → blank (gd_access_token g) = false →
  is_runtime_configured c = true ∧ is_ok (create_cloud_storage c) = false.
Proof.
  intros Hp Hc Hr Ha. unfold is_runtime_configured, has_google_drive_authorization.
  unfold create_cloud_storage, with_adapter. rewrite Hp, Hc. cbn. rewrite Hr. split; [|done].
  unfold has_oauth_token. unfold blank in Ha. by rewrite Ha, orb_true_r.
Qed.

End adapters.
