(* ===== verification/OAuth.v ===== *)
(** * Authorization of Google Drive (src/cloud/oauth2, src/cloud/providers)

    The browser flow: a request with a challenge, the callback of the browser on a local
    port, the exchange of the code for tokens, and the file that keeps them.  The browser,
    the socket, the server and the parser of addresses are interfaces. *)

From Stdlib Require Import Ascii.
From S2P Require Import Prelude Text Errors Env Storage Checkpoint Crypto Keystore Files Database Backup.
From S2P Require Import Listing Config Providers.

Module OAuth2Error.

Inductive t : Set :=
| Timeout
| MissingCode
| TokenExchange (message : string)
| PortInUse (port : Z)
| BrowserOpen (message : string)
| Cancelled
| TokenStore (message : string)
| ProviderNotAuthorized (provider : string).

Definition display (e : t) : string :=
  match e with
  | Timeout => "授权超时，请重试"
  | MissingCode => "回调中未收到 authorization code"
  | TokenExchange m => "Token 交换失败: " +:+ m
  | PortInUse port => "端口 " +:+ pretty port +:+ " 被占用"
  | BrowserOpen m => "无法打开浏览器: " +:+ m
  | Cancelled => "用户取消授权"
  | TokenStore m => "Token 存储失败: " +:+ m
  | ProviderNotAuthorized p => "提供商 '" +:+ p +:+ "' 未授权"
  end.

End OAuth2Error.

Record OAuth2Token : Set := mkOAuth2Token {
  tk_access_token : string;
  tk_refresh_token : option string;
  tk_expires_at : option Instant;
  tk_token_type : string;
}.

(** ** The file of the tokens *)

Module TokenStore.
Section s.
Context {W : Type} `{Serde OAuth2Token} `{Fs W} `{DirFs W}.

(** A store is the path of its directory. *)
Definition token_path (base_path provider_id : string) : string :=
  path_join base_path (provider_id +:+ ".token.json").

Definition failed {A} (what : string) (m : ior W A string) : ior W A OAuth2Error.t :=
  io_map_err (λ e, OAuth2Error.TokenStore (what +:+ ": " +:+ e)) m.

(** The permissions are restricted after the file was written, if that works. *)
Definition save (base_path provider_id : string) (token : OAuth2Token)
  : ior W () OAuth2Error.t :=
  let! _ := failed ("failed to create token directory " +:+ base_path)
              (fs_create_dir_all base_path) in
  let path := token_path base_path provider_id in
  let! json := failed "failed to serialize token" (lift (to_json token)) in
  let! _ := failed ("failed to write token to " +:+ path) (fs_write path json) in
  let* _ := fs_set_mode path 384 in
  lift (Ok ()).

Definition load (base_path provider_id : string)
  : ior W (option OAuth2Token) OAuth2Error.t :=
  let path := token_path base_path provider_id in
  let* exists_ := fs_exists path in
  if negb exists_ then lift (Ok None)
  else
    let! json := failed ("failed to read token from " +:+ path) (fs_read_to_string path) in
    let! token := failed "failed to deserialize token" (lift (from_json json)) in
    lift (Ok (Some token)).

Definition delete (base_path provider_id : string) : ior W bool OAuth2Error.t :=
  let path := token_path base_path provider_id in
  let* exists_ := fs_exists path in
  if exists_ : bool then
    let! _ := failed ("failed to delete token " +:+ path) (fs_remove_file path) in
    lift (Ok true)
  else lift (Ok false).

End s.
End TokenStore.

(** [is_expired] with five minutes to spare, and [can_refresh] *)
Definition is_expired {W} `{System W} (t : OAuth2Token) : io W bool :=
  let* n := now in
  io_ret (match tk_expires_at t with
          | Some e => (e <=? n + seconds 300)%Z
          | None => true
          end).

Definition can_refresh (t : OAuth2Token) : bool := bool_decide (is_Some (tk_refresh_token t)).

(** ** Forms *)

(** [b'A'..=b'Z' | b'a'..=b'z' | b'0'..=b'9' | b'-' | b'_' | b'.' | b'~'] *)
Definition unreserved (c : ascii) : bool :=
  let n := byte_of c in
  within 65 90 n || within 97 122 n || within 48 57 n || (n =? 45)%Z || (n =? 95)%Z
  || (n =? 46)%Z || (n =? 126)%Z.

(** A digit of [{:02X}] *)
Definition upper_hex (n : Z) : ascii := ascii_of_byte (if (n <? 10)%Z then 48 + n else 55 + n).

Definition escape (c : ascii) : string :=
  String "%"%char (String (upper_hex (byte_of c / 16))
    (String (upper_hex (byte_of c mod 16)) "")).

Fixpoint urlencoding_encode (s : string) : string :=
  match s with
  | EmptyString => ""
  | String c s => (if unreserved c then String c "" else escape c) +:+ urlencoding_encode s
  end.

(** ** The provider *)

Record OAuth2Provider : Set := mkOAuth2Provider {
  op_provider_id : string;
  op_display_name : string;
  op_client_id : string;
  op_client_secret : string;
  op_auth_url : string;
  op_token_url : string;
  op_scopes : list string;
  op_redirect_uri : string;
}.

Definition GoogleDriveProvider `{Opendal} : OAuth2Provider :=
  mkOAuth2Provider "google_drive" "Google Drive" google_client_id google_client_secret
    "https://accounts.google.com/o/oauth2/auth" "https://oauth2.googleapis.com/token"
    ["https://www.googleapis.com/auth/drive.file"] "http://localhost:8879".

(** What the browser's callback comes to: the port is taken, the user cancels, ten minutes
    pass, the socket fails, or it is a request. *)
Module Callback.
Inductive t : Set :=
| PortBusy
| Cancelled
| TimedOut
| AcceptFailed (error : string)
| ReadFailed (error : string)
| Request (request : bytes).
End Callback.

(** The answer of the token server: no answer, a body that cannot be read, or its text. *)
Module PostResult.
Inductive t : Set := Failed (error : string) | Unreadable (error : string) | Body (text : string).
End PostResult.

Class OAuthWorld (W : Type) : Type := {
  open_url : string → ior W () string;
  wait_callback : io W Callback.t;
  respond : Z → io W ();
  post_form : string → string → io W PostResult.t;
  random_bytes_32 : io W bytes;
}.

(** [Url::parse] with [query_pairs], [String::from_utf8_lossy] and [BASE64_URL_SAFE_NO_PAD] *)
Class UrlLib : Type := {
  query_pairs : string → option (list (string * string));
  utf8_lossy : bytes → string;
  base64_url : bytes → string;
}.

(** A panic of the clock's arithmetic, in the task that runs the flow. *)
Module Exchange.
Inductive t : Set := Failed (e : OAuth2Error.t) | Panicked.
End Exchange.

Section flow.
Context {W : Type} `{Libs} `{Serde OAuth2Token} `{Serde Json} `{Fs W} `{DirFs W} `{System W}.
Context `{OAuthWorld W} `{UrlLib}.

Definition generate_pkce : io W (string * string) :=
  let* verifier_bytes := random_bytes_32 in
  let verifier := base64_url verifier_bytes in
  io_ret (verifier, base64_url (sha256 verifier)).

Definition build_auth_url (p : OAuth2Provider) (challenge : string) : string :=
  op_auth_url p +:+ "?response_type=code&client_id=" +:+ urlencoding_encode (op_client_id p)
    +:+ "&redirect_uri=" +:+ urlencoding_encode (op_redirect_uri p)
    +:+ "&scope=" +:+ urlencoding_encode (join " " (op_scopes p))
    +:+ "&state=oak-state&access_type=offline&prompt=consent&code_challenge=" +:+ challenge
    +:+ "&code_challenge_method=S256".

(** *** The callback *)

Definition CALLBACK_PORT : Z := 8879.

Definition extract_code_from_url (url : string) : option string :=
  snd <$> (query_pairs url ≫= find (λ p, String.eqb p.1 "code")).

(** The path of the request line *)
Definition request_path (request : bytes) : string :=
  let first_line := default "" (head (split_at (ascii_of_byte 10) (utf8_lossy request))) in
  default "" (split_whitespace first_line !! 1).

Definition wait_for_callback : ior W string OAuth2Error.t :=
  let* c := wait_callback in
  match c with
  | Callback.PortBusy => lift (Err (OAuth2Error.PortInUse CALLBACK_PORT))
  | Callback.Cancelled => lift (Err OAuth2Error.Cancelled)
  | Callback.TimedOut => lift (Err OAuth2Error.Timeout)
  | Callback.AcceptFailed e =>
      lift (Err (OAuth2Error.TokenExchange ("failed to accept connection: " +:+ e)))
  | Callback.ReadFailed e =>
      lift (Err (OAuth2Error.TokenExchange ("failed to read request: " +:+ e)))
  | Callback.Request request =>
      let full_url :=
        "http://localhost:" +:+ pretty CALLBACK_PORT +:+ request_path request in
      match extract_code_from_url full_url with
      | Some code => let* _ := respond 200 in lift (Ok code)
      | None => let* _ := respond 400 in lift (Err OAuth2Error.MissingCode)
      end
  end.

(** *** The exchange *)

(** The parameters of the request, in order *)
Definition exchange_parameters (p : OAuth2Provider) (code verifier : string)
  : list (string * string) :=
  [("grant_type", "authorization_code"); ("code", code); ("redirect_uri", op_redirect_uri p);
   ("client_id", op_client_id p); ("client_secret", op_client_secret p);
   ("code_verifier", verifier)].

Definition form_body (parameters : list (string * string)) : string :=
  join "&" (map (λ q, q.1 +:+ "=" +:+ urlencoding_encode q.2) parameters).

(** [Duration::seconds], which panics past the milliseconds of 64 bits, added to [now], which
    panics past chrono's range; [n as i64] wraps. *)
Definition expires_at (n : Instant) (expires_in : Z) : option Instant :=
  let secs := if (expires_in <? 2 ^ 63)%Z then expires_in else (expires_in - 2 ^ 64)%Z in
  if (Z.abs secs <=? (2 ^ 63 - 1) / 1000)%Z then
    let t := (n + seconds secs)%Z in
    if (seconds min_timestamp <=? t)%Z && (t <? seconds (max_timestamp + 1))%Z then Some t
    else None
  else None.

Definition parse_token_response (response_text : string) : ior W OAuth2Token Exchange.t :=
  let failed m := Exchange.Failed (OAuth2Error.TokenExchange m) in
  match from_json (A := Json) response_text with
  | Err e => lift (Err (failed ("failed to parse JSON response: " +:+ e)))
  | Ok json =>
      match as_str (json_get json "error") with
      | Some error =>
          let desc := default "unknown" (as_str (json_get json "error_description")) in
          lift (Err (failed (error +:+ ": " +:+ desc)))
      | None =>
          match as_str (json_get json "access_token") with
          | None => lift (Err (failed "missing access_token in response"))
          | Some access_token =>
              let refresh_token := as_str (json_get json "refresh_token") in
              let expires_in := default 3600%Z (as_u64 (json_get json "expires_in")) in
              let* n := now in
              match expires_at n expires_in with
              | None => lift (Err Exchange.Panicked)
              | Some t =>
                  let token_type := default "Bearer" (as_str (json_get json "token_type")) in
                  lift (Ok (mkOAuth2Token access_token refresh_token (Some t) token_type))
              end
          end
      end
  end.

Definition exchange_code_for_token (p : OAuth2Provider) (code verifier : string)
  : ior W OAuth2Token Exchange.t :=
  let failed m := Exchange.Failed (OAuth2Error.TokenExchange m) in
  let* r := post_form (op_token_url p) (form_body (exchange_parameters p code verifier)) in
  match r with
  | PostResult.Failed e => lift (Err (failed e))
  | PostResult.Unreadable e => lift (Err (failed ("failed to read response: " +:+ e)))
  | PostResult.Body text => parse_token_response text
  end.

Definition authorize (p : OAuth2Provider) (token_store : string)
  : ior W OAuth2Token Exchange.t :=
  let* (verifier, challenge) := generate_pkce in
  let auth_url := build_auth_url p challenge in
  let! _ := io_map_err (λ m, Exchange.Failed (OAuth2Error.BrowserOpen m)) (open_url auth_url) in
  let! code := io_map_err Exchange.Failed wait_for_callback in
  let! token := exchange_code_for_token p code verifier in
  let! _ := io_map_err Exchange.Failed (TokenStore.save token_store (op_provider_id p) token) in
  lift (Ok token).

Definition revoke (provider_id token_store : string) : ior W bool OAuth2Error.t :=
  TokenStore.delete token_store provider_id.

(** ** The tokens at the next start (src/executor/mod.rs) *)

Definition tokens_dir (config_dir : string) : string := path_join config_dir "tokens".

Definition load_oauth2_tokens_into_config (c : AppConfig) (config_dir : string) : io W AppConfig :=
  if negb (bool_decide (yc_provider (ac_sync c) = SyncProvider.GoogleDrive)) then io_ret c
  else
    let* r := TokenStore.load (tokens_dir config_dir) "google_drive" in
    match r with
    | Ok (Some tokens) =>
        match yc_provider_config (ac_sync c) with
        | Some (ProviderConfig.GoogleDrive g) =>
            let g := match tk_refresh_token tokens with
                     | Some rt => mkGoogleDriveConfig (gd_access_token g) rt (gd_root_path g)
                                    (gd_client_id g) (gd_client_secret g)
                     | None => mkGoogleDriveConfig (tk_access_token tokens) (gd_refresh_token g)
                                 (gd_root_path g) (gd_client_id g) (gd_client_secret g)
                     end in
            io_ret (c <| ac_sync ::= λ s, s <| yc_provider_config :=
                      Some (ProviderConfig.GoogleDrive g) |> |>)
        | _ => io_ret c
        end
    | Ok None | Err _ => io_ret c
    end.

End flow.

(** ** Properties *)

(** *** Forms

    The reading of a form that RFC 1866 and RFC 3986 describe: parts at [&], a name up to
    [=], and [%] before two digits. *)

Definition hex_value (c : ascii) : option Z :=
  let n := byte_of c in
  if within 48 57 n then Some (n - 48)%Z
  else if within 65 70 n then Some (n - 55)%Z
  else if within 97 102 n then Some (n - 87)%Z
  else None.

Fixpoint percent_decode (s : string) : string :=
  match s with
  | EmptyString => ""
  | String c rest =>
      if bool_decide (c = "%"%char) then
        match rest with
        | String a (String b rest) =>
            match hex_value a, hex_value b with
            | Some x, Some y => String (ascii_of_byte (16 * x + y)) (percent_decode rest)
            | _, _ => String c (String a (String b (percent_decode rest)))
            end
        | _ => s
        end
      else String c (percent_decode rest)
  end.

Definition parse_form (body : string) : list (string * string) :=
  map (λ part,
    match split_at "="%char part with
    | name :: value => (name, percent_decode (join "=" value))
    | [] => ("", "")
    end) (split_at "&"%char body).

Fixpoint avoids (c : ascii) (s : string) : Prop :=
  match s with EmptyString => True | String d s => d ≠ c ∧ avoids c s end.

Lemma split_part c s t : avoids c s → split_at c (s +:+ String c t) = s :: split_at c t.
Proof.
  induction s as [|d s IH].
  - intros _. change (split_at c (String c t) = "" :: split_at c t). cbn [split_at].
    by rewrite bool_decide_eq_true_2.
  - intros [Hd Hs]. change (String d s +:+ ?u) with (String d (s +:+ u)). cbn [split_at].
    rewrite bool_decide_eq_false_2 by done. by rewrite IH.
Qed.

Lemma split_one c s : avoids c s → split_at c s = [s].
Proof.
  induction s as [|d s IH]; [done|]. intros [Hd Hs]. cbn [split_at].
  rewrite bool_decide_eq_false_2 by done. by rewrite IH.
Qed.

Lemma split_join c l : l ≠ [] → Forall (avoids c) l → split_at c (join (String c "") l) = l.
Proof.
  intros Hl Hf. induction Hf as [|s l Hs Hf IH]; [done|]. destruct l as [|t l].
  - by apply split_one.
  - change (join (String c "") (s :: t :: l)) with (s +:+ String c (join (String c "") (t :: l))).
    rewrite split_part by done. by rewrite IH.
Qed.

Lemma avoids_app c s t : avoids c s → avoids c t → avoids c (s +:+ t).
Proof. induction s as [|d s IH]; [done|]. intros [Hd Hs] Ht. split; [done|]. by apply IH. Qed.

Lemma encode_avoids s : avoids "&"%char (urlencoding_encode s) ∧ avoids "="%char (urlencoding_encode s).
Proof.
  induction s as [|c s [IH1 IH2]]; [done|]. cbn [urlencoding_encode].
  split; apply avoids_app; try done; by destruct c as [[] [] [] [] [] [] [] []].
Qed.

Lemma percent_roundtrip s : percent_decode (urlencoding_encode s) = s.
Proof.
  induction s as [|c s IH]; [done|]. rewrite <- IH at 2. cbn [urlencoding_encode].
  generalize (urlencoding_encode s) as t. clear.
  intros t. by destruct c as [[] [] [] [] [] [] [] []].
Qed.

Lemma parse_form_body l :
  l ≠ [] → Forall (λ q : string * string, avoids "&"%char q.1 ∧ avoids "="%char q.1) l →
  parse_form (form_body l) = l.
Proof.
  intros Hl Hf. unfold parse_form, form_body. rewrite split_join.
  - rewrite map_map. induction Hf as [|[k v] l [Hk1 Hk2] Hf IH]; [done|]. cbn.
    destruct (decide (l = [])) as [->|Hne]; cbn.
    + change (k +:+ "=" +:+ urlencoding_encode v) with (k +:+ String "="%char (urlencoding_encode v)).
      rewrite split_part by done. rewrite split_one by apply encode_avoids. cbn. by rewrite percent_roundtrip.
    + rewrite IH by done.
      change (k +:+ "=" +:+ urlencoding_encode v) with (k +:+ String "="%char (urlencoding_encode v)).
      rewrite split_part by done. rewrite split_one by apply encode_avoids. cbn. by rewrite percent_roundtrip.
  - by destruct l.
  - apply Forall_map. eapply Forall_impl; [exact Hf|]. intros [k v] [Hk _].
    apply avoids_app; [done|]. split; [done|]. apply encode_avoids.
Qed.

(** No parameter of the exchange reaches into another.  A reader of forms finds in the
    body exactly the six parameters of the request, each with its value as it was, whatever
    the browser returned as the code. *)
Lemma exchange_form_roundtrip p code verifier :
  parse_form (form_body (exchange_parameters p code verifier)) =
  exchange_parameters p code verifier.
Proof. apply parse_form_body; [done|]. by repeat constructor; repeat split. Qed.

(** *** From the authorization to the storage *)

Section properties.
Context {W : Type} `{Libs} `{SerdeLaws OAuth2Token} `{Serde Json} `{FsLaws W} `{!DirFs W}.
Context `{!Secure W} `{!System W} `{!DirFsLaws W} `{OAuthWorld W} `{UrlLib} `{Opendal}.

(** A saved token is in its file. *)
Lemma save_token_ok base id token (w : W) u w' :
  TokenStore.save base id token w = (Ok u, w') →
  ∃ json, to_json token = Ok json ∧ fs_files w' !! TokenStore.token_path base id = Some json.
Proof.
  unfold TokenStore.save, TokenStore.failed. intros Hs.
  apply ior_bind_ok in Hs as (u1 & w1 & E1 & Hs).
  apply ior_bind_ok in Hs as (json & w2 & E2 & Hs). apply io_map_err_ok, lift_ok in E2 as [E2 ->].
  apply ior_bind_ok in Hs as (u3 & w3 & E3 & Hs). apply io_map_err_ok, fs_write_ok in E3.
  apply io_bind_eq in Hs as (r4 & w4 & E4%set_mode_files & Hs). injection Hs as _ <-.
  exists json. split; [done|]. rewrite E4, E3. apply lookup_insert_eq.
Qed.

(** The token that is in the file is what loading gives, unless the file cannot be read. *)
Lemma load_token_ok base id token json (w : W) r w' :
  to_json token = Ok json → fs_files w !! TokenStore.token_path base id = Some json →
  TokenStore.load base id w = (r, w') →
  r = Ok (Some token) ∨ ∃ e, r = Err (OAuth2Error.TokenStore e).
Proof.
  unfold TokenStore.load. intros Hj Hf (b & w1 & Eb & Hr)%io_bind_eq.
  pose proof (fs_exists_files _ _ _ _ Eb) as Hw. destruct b; cbn [negb] in Hr; cycle 1.
  { apply fs_exists_false in Eb. congruence. }
  apply io_bind_eq in Hr as (rs & w2 & Es & Hr). unfold TokenStore.failed, io_map_err in Es.
  apply io_bind_eq in Es as (rf & w3 & Ef & Es). injection Es as <- <-.
  destruct rf as [s|e]; cbn in Hr; [|injection Hr as <- <-; eauto].
  apply fs_read_ok in Ef. assert (s = json) as -> by congruence.
  rewrite (serde_roundtrip _ _ Hj) in Hr. cbn in Hr. injection Hr as <- <-. by left.
Qed.

(** What an authorization leaves behind. *)
Lemma authorize_saved p base (w : W) token w' :
  authorize p base w = (Ok token, w') →
  ∃ json, to_json token = Ok json ∧
    fs_files w' !! TokenStore.token_path base (op_provider_id p) = Some json.
Proof.
  unfold authorize. intros ([v c] & w1 & _ & Hr)%io_bind_eq.
  apply ior_bind_ok in Hr as (u2 & w2 & _ & Hr).
  apply ior_bind_ok in Hr as (code & w3 & _ & Hr).
  apply ior_bind_ok in Hr as (t & w4 & _ & Hr).
  apply ior_bind_ok in Hr as (u5 & w5 & E5 & Hr). apply lift_ok in Hr as [[= <-] ->].
  apply io_map_err_ok in E5. by eapply save_token_ok.
Qed.

(** An authorization lasts.  After the browser flow succeeded, a start that can read the
    token file puts the granted refresh token in the settings of Google Drive, and a token
    that is not blank is enough for a storage opened with it; without a refresh token the
    access token is put there, and no storage can be made. *)
Lemma authorization_enables_storage dir c g (w : W) token w1 c' w2 :
  authorize GoogleDriveProvider (tokens_dir dir) w = (Ok token, w1) →
  load_oauth2_tokens_into_config c dir w1 = (c', w2) →
  yc_provider (ac_sync c) = SyncProvider.GoogleDrive →
  yc_provider_config (ac_sync c) = Some (ProviderConfig.GoogleDrive g) →
  blank (gd_refresh_token g) = true →
  (∃ e, (TokenStore.load (tokens_dir dir) "google_drive" w1).1 = Err (OAuth2Error.TokenStore e)) ∨
  ∃ g', yc_provider_config (ac_sync c') = Some (ProviderConfig.GoogleDrive g') ∧
    match tk_refresh_token token with
    | Some rt => gd_refresh_token g' = rt ∧
        (blank rt = false → operator_new (google_drive_operator g') = Ok () →
         create_cloud_storage (ac_sync c') =
           Ok (mkCloudStorage "google_drive", google_drive_operator g'))
    | None => gd_access_token g' = tk_access_token token ∧
        is_ok (create_cloud_storage (ac_sync c')) = false
    end.
Proof.
  intros (json & Hj & Hf)%authorize_saved Hl Hp Hc Hb. unfold load_oauth2_tokens_into_config in Hl.
  rewrite Hp in Hl. cbn in Hl. apply io_bind_eq in Hl as (r & w3 & Er & Hl). rewrite Er.
  destruct (load_token_ok _ _ _ _ _ _ _ Hj Hf Er) as [->|[e ->]]; [|by left; exists e].
  rewrite Hc in Hl. right. injection Hl as <- <-.
  destruct (tk_refresh_token token) as [rt|]; cbn; eexists; (split; [done|]).
  - split; [done|]. intros Hrt Ho. apply storage_created_usable. unfold usable. cbn. rewrite Hp.
    by split_and!.
  - split; [done|]. unfold create_cloud_storage. cbn. rewrite Hp. unfold with_adapter. cbn.
    by rewrite Hb.
Qed.

End properties.
