(* ===== verification/ConfigExec.v ===== *)
(** * The executor: settings (src/executor/config.rs, config_impl/handler.rs, timer.rs)

    The settings in memory and in their file, what a change of them does to the services
    and the timers, the test of a connection, and the start of an authorization. *)

From S2P Require Import Prelude Text Errors Env Storage Checkpoint Crypto Keystore Files Database.
From S2P Require Import Backup ImportService Rotation Health Listing Clipboard Executor Config.
From S2P Require Import Providers OAuth Redaction Queries Vault Opening ImportExec.

(** The results of these handlers, next to those of the others. *)
Module AppResult.
Inductive t : Set :=
| Command (r : CommandResult.t)
| ConfigLoaded (config : AppConfig)
| ConfigSaved (config : AppConfig) (warnings : list string)
| SyncConnectionTested (success : bool) (message : string)
| OAuth2Authorized (provider access_token : string) (refresh_token : option string)
| OAuth2Failed (provider error : string).
End AppResult.

(** ** Timers and activity (timer.rs) *)

(** An interval is its period in seconds. *)
Record ExecutorTimers : Set := mkExecutorTimers {
  tm_sync_interval : option Z;
  tm_auto_lock_interval : option Z;
  tm_sync_active : bool;
  tm_auto_lock_active : bool;
}.

Definition timers_new (c : AppConfig) (sync_service_available : bool) : ExecutorTimers :=
  let sync_enabled :=
    sync_service_available
    && negb (bool_decide (yc_provider (ac_sync c) = SyncProvider.Disabled))
    && bool_decide (yc_sync_mode (ac_sync c) = SyncMode.Auto)
    && (0 <? yc_auto_interval_seconds (ac_sync c))%Z in
  let sync_interval :=
    if sync_enabled then Some (yc_auto_interval_seconds (ac_sync c)) else None in
  let auto_lock_interval :=
    if (0 <? gc_auto_lock_seconds (ac_general c))%Z
    then Some (gc_auto_lock_seconds (ac_general c)) else None in
  mkExecutorTimers sync_interval auto_lock_interval (bool_decide (is_Some sync_interval))
    (bool_decide (is_Some auto_lock_interval)).

Definition timers_rebuild (c : AppConfig) (sync_service_available : bool) (_ : ExecutorTimers)
  : ExecutorTimers :=
  timers_new c sync_service_available.

(** A tracker is the second of the last activity. *)
Definition now_secs {W} `{System W} : io W Z :=
  let* n := now in io_ret (Z.div n nanos_per_sec).

Definition touch {W} `{System W} : io W Z := now_secs.

Definition idle_seconds {W} `{System W} (last_active : Z) : io W Z :=
  let* n := now_secs in io_ret (n - last_active)%Z.

(** ** The settings in memory (config_impl/handler.rs) *)

Module ConfigManager.
Section s.
Context {W : Type} `{TomlLib} `{DebugText} `{Fs W} `{DirFs W}.

Local Abbreviation St := (AppConfig * W)%type.

Definition load (config_dir : string) : ior St AppConfig ConfigError.t :=
  let! config := world (load_config config_dir) in
  let* _ := set_state (λ _, config) in
  lift (Ok config).

Definition save (config : AppConfig) (config_dir : string) : ior St () ConfigError.t :=
  let! _ := world (save_config config config_dir) in
  let* _ := set_state (λ _, config) in
  lift (Ok ()).

Definition reload (config_dir : string) : ior St AppConfig ConfigError.t := load config_dir.

Definition get_config : io St AppConfig := get_state.

End s.
End ConfigManager.

(** ** Watching the file *)

(** [std::fs::metadata(..).ok()?.modified().ok()] *)
Class Mtime (W : Type) : Type := fs_modified : string → io W (option Instant).

Record ConfigWatcherImpl : Set := mkConfigWatcherImpl {
  cw_config_path : string;
  cw_last_mtime : option Instant;
}.

Module ConfigWatcher.
Section s.
Context {W : Type} `{Mtime W}.

Definition new (config_path : string) : ConfigWatcherImpl := mkConfigWatcherImpl config_path None.

Definition current_mtime (c : ConfigWatcherImpl) : io W (option Instant) :=
  fs_modified (cw_config_path c).

Definition needs_reload (c : ConfigWatcherImpl) : io W bool :=
  let* current := current_mtime c in
  io_ret match current, cw_last_mtime c with
         | Some now, Some last => (last <? now)%Z
         | Some _, None => true
         | None, _ => false
         end.

Definition last_modified (c : ConfigWatcherImpl) : io W (option Instant) := current_mtime c.

Definition update_mtime (c : ConfigWatcherImpl) : io W ConfigWatcherImpl :=
  let* m := current_mtime c in
  io_ret (mkConfigWatcherImpl (cw_config_path c) m).

End s.
End ConfigWatcher.

(** ** Services that reload *)

Record ConfigReloadable (S : Type) : Type := mkConfigReloadable {
  rl_service_id : string;
  rl_reload : AppConfig → ior S () ConfigError.t;
}.
Arguments mkConfigReloadable {S}.
Arguments rl_service_id {S}.
Arguments rl_reload {S}.

Module ServiceNotification.
Section s.
Context {S : Type}.

Definition notified (changed_fields : list string) (service : ConfigReloadable S) : bool :=
  bool_decide (changed_fields = []) || bool_decide (rl_service_id service ∈ changed_fields).

Fixpoint notify_config_change (services : list (ConfigReloadable S)) (config : AppConfig)
    (changed_fields : list string) : io S (list (result () ConfigError.t)) :=
  match services with
  | [] => io_ret []
  | service :: services =>
      if notified changed_fields service then
        let* r := rl_reload service config in
        let* rest := notify_config_change services config changed_fields in
        io_ret (r :: rest)
      else notify_config_change services config changed_fields
  end.

Definition register_service (service : ConfigReloadable S) (services : list (ConfigReloadable S))
  : list (ConfigReloadable S) :=
  services ++ [service].

Definition unregister_service (service_id : string) (services : list (ConfigReloadable S))
  : list (ConfigReloadable S) :=
  filter (λ s, rl_service_id s ≠ service_id) services.

End s.
End ServiceNotification.

Definition ClipboardConfigAdapter {W} `{Libs} `{System W} `{ClipboardBackend W}
  : ConfigReloadable (ClipboardService * W) :=
  mkConfigReloadable "clipboard" (λ config,
    let* _ := Clipboard.set_clear_timeout (gc_clipboard_clear_seconds (ac_general config)) in
    lift (Ok ())).

(** ** The executor with its settings

    [CommandExecutor] of Executor.v with the rest of what the code's has: the settings and
    their directory, the services that are told of a change, the clipboard, whether the
    timers are to be made again, and the directory of the tokens once there is a store. *)
Record App (W : Type) : Type := mkApp {
  ap_executor : CommandExecutor;
  ap_config : AppConfig;
  ap_config_dir : string;
  ap_notifier : list (ConfigReloadable (ClipboardService * W));
  ap_clipboard : ClipboardService;
  ap_timer_rebuild_pending : bool;
  ap_token_store : option string;
}.
Arguments mkApp {W}.
Arguments ap_executor {W}.
Arguments ap_config {W}.
Arguments ap_config_dir {W}.
Arguments ap_notifier {W}.
Arguments ap_clipboard {W}.
Arguments ap_timer_rebuild_pending {W}.
Arguments ap_token_store {W}.

#[export] Instance eta_App {W} : Eta (App W) := λ x,
  mkApp (ap_executor x) (ap_config x) (ap_config_dir x) (ap_notifier x) (ap_clipboard x)
    (ap_timer_rebuild_pending x) (ap_token_store x).

(** A part of the executor as the state of a computation. *)
Definition on_config {W A} (m : io (AppConfig * W) A) : io (App W * W) A := λ '(x, w),
  let '(a, (c, w')) := m (ap_config x, w) in (a, (x <| ap_config := c |>, w')).

Definition on_clipboard {W A} (m : io (ClipboardService * W) A) : io (App W * W) A := λ '(x, w),
  let '(a, (s, w')) := m (ap_clipboard x, w) in (a, (x <| ap_clipboard := s |>, w')).

(** The sync service that is there from now on: a new one over the storage, or none; the
    old one is dropped. *)
Class SyncSlot (W : Type) : Type :=
  sync_set : option (CloudStorage * OperatorConfig.t) → io W ().

(** The connection tests: [check_connectivity] over the storage of the configured service
    or over another one, which is dropped when the operation is cancelled first. *)
Class ConnectionTest (W : Type) : Type := {
  test_current : io W (option (result () SyncError.t));
  test_storage : CloudStorage * OperatorConfig.t → io W (option (result () SyncError.t));
}.

Module ConfigExec.
Section s.
Context {W : Type} `{TomlLib} `{DebugText} `{Fs W} `{DirFs W} `{Opendal} `{SyncSlot W}.

Local Abbreviation St := (App W * W)%type.

Definition handle_load_config : io St AppResult.t :=
  let* config := on_config ConfigManager.get_config in
  io_ret (AppResult.ConfigLoaded config).

(** *** What a change is *)

Definition differs {A} `{EqDecision A} (a b : A) : bool := negb (bool_decide (a = b)).

Definition sync_differs (old new : SyncConfig) : bool :=
  differs (yc_provider old) (yc_provider new)
  || differs (yc_auto_interval_seconds old) (yc_auto_interval_seconds new)
  || differs (yc_provider_config old) (yc_provider_config new).

Definition security_differs (old new : SecurityConfig) : bool :=
  differs (sc_health_check_enabled old) (sc_health_check_enabled new)
  || differs (sc_health_check_frequency old) (sc_health_check_frequency new)
  || differs (sc_audit_enabled old) (sc_audit_enabled new)
  || differs (sc_audit_retention_days old) (sc_audit_retention_days new).

Definition password_differs (old new : PasswordDefaultsConfig) : bool :=
  differs (pd_length old) (pd_length new)
  || differs (pd_include_digits old) (pd_include_digits new)
  || differs (pd_include_uppercase old) (pd_include_uppercase new)
  || differs (pd_include_special old) (pd_include_special new).

Definition changed_if (b : bool) (field : string) : list string := if b then [field] else [].

Definition detect_changed_fields (old new : AppConfig) : list string :=
  let g := ac_general old in
  let h := ac_general new in
  changed_if (differs (gc_language g) (gc_language h)) "general.language"
  ++ changed_if (differs (gc_auto_lock_seconds g) (gc_auto_lock_seconds h))
       "general.auto_lock_seconds"
  ++ changed_if (differs (gc_clipboard_clear_seconds g) (gc_clipboard_clear_seconds h))
       "general.clipboard_clear_seconds"
  ++ changed_if (sync_differs (ac_sync old) (ac_sync new)) "sync"
  ++ changed_if (security_differs (ac_security old) (ac_security new)) "security"
  ++ changed_if (password_differs (ac_password old) (ac_password new)) "password".

(** *** What it does *)

Definition set_sync (storage : option (CloudStorage * OperatorConfig.t)) : io St () :=
  let* _ := world (sync_set storage) in
  set_state (λ x, x <| ap_executor ::= λ e, e <| ex_sync := bool_decide (is_Some storage) |> |>).

Definition rebuild_sync (new_config : AppConfig) : io St (list string) :=
  match create_cloud_storage (ac_sync new_config) with
  | Ok storage => let* _ := set_sync (Some storage) in io_ret []
  | Err e =>
      let message := redact_sensitive_values (SyncError.display e) in
      let* _ := set_sync None in
      io_ret ["Sync service rebuild failed: " +:+ message]
  end.

Definition rebuild_timers : io St () :=
  set_state (λ x, x <| ap_timer_rebuild_pending := true |>).

(** The fields that no service reloads. *)
Definition apply_field (new_config : AppConfig) (field : string) : io St (list string) :=
  if String.eqb field "general.auto_lock_seconds" then let* _ := rebuild_timers in io_ret []
  else if String.eqb field "sync" then let* _ := rebuild_timers in rebuild_sync new_config
  else io_ret [].

Fixpoint apply_fields (new_config : AppConfig) (changed : list string) : io St (list string) :=
  match changed with
  | [] => io_ret []
  | field :: changed =>
      let* warnings := apply_field new_config field in
      let* rest := apply_fields new_config changed in
      io_ret (warnings ++ rest)
  end.

Definition reload_warning (r : result () ConfigError.t) : option string :=
  match r with
  | Ok _ => None
  | Err e => Some ("Service reload failed: "
                     +:+ redact_sensitive_values (ConfigError.display e))
  end.

Definition notify_services (new_config : AppConfig) (changed : list string)
  : io St (list string) :=
  if bool_decide (changed = []) then io_ret []
  else
    let* x := get_state in
    let* results := on_clipboard
      (ServiceNotification.notify_config_change (ap_notifier x) new_config []) in
    io_ret (omap reload_warning results).

Definition apply_config_changes (changed : list string) (new_config : AppConfig)
  : io St (list string) :=
  let* warnings := notify_services new_config changed in
  let* rest := apply_fields new_config changed in
  io_ret (warnings ++ rest).

(** [executor.config.save(&config, &executor.config_dir)] *)
Definition save_settings (config : AppConfig) : ior St () ConfigError.t :=
  let* x := get_state in
  on_config (ConfigManager.save config (ap_config_dir x)).

Definition config_save_failed (text : string) : CommandResult.t :=
  CommandResult.Error ErrorCode.ConfigSaveFailed ErrorContext.new "error.config_save_failed" text.

Definition handle_save_config (config : AppConfig) : io St AppResult.t :=
  let* old_config := on_config ConfigManager.get_config in
  let changed := detect_changed_fields old_config config in
  let* saved := save_settings config in
  match saved with
  | Ok _ =>
      let* warnings := apply_config_changes changed config in
      io_ret (AppResult.ConfigSaved config warnings)
  | Err e =>
      io_ret (AppResult.Command
        (config_save_failed ("Failed to save config: " +:+ ConfigError.display e)))
  end.

(** What the loop of the executor does after each of its steps (src/executor/mod.rs). *)
Definition settle_timers (timers : ExecutorTimers) (x : App W) : ExecutorTimers * App W :=
  if ap_timer_rebuild_pending x then
    (timers_rebuild (ap_config x) (ex_sync (ap_executor x)) timers,
     x <| ap_timer_rebuild_pending := false |>)
  else (timers, x).

(** *** Connections *)

Context `{ConnectionTest W}.

(** [connection_test_result_with_cancel] of [test_connection] *)
Definition connection_test_result (m : io W (option (result () SyncError.t)))
  : io St AppResult.t :=
  let* r := world m in
  io_ret match r with
         | None => AppResult.Command (CommandResult.cancelled "sync_connection_test")
         | Some (Ok _) => AppResult.SyncConnectionTested true "OK"
         | Some (Err e) => AppResult.SyncConnectionTested false (SyncError.display e)
         end.

Definition handle_test_sync_connection (provider_config : option ProviderConfig.t)
  : io St AppResult.t :=
  let* x := get_state in
  if ex_cancelled (ap_executor x)
  then io_ret (AppResult.Command (CommandResult.cancelled "sync_connection_test"))
  else
    match provider_config with
    | Some pc =>
        let* current := on_config ConfigManager.get_config in
        let test_sync := (ac_sync current) <| yc_provider_config := Some pc |> in
        match create_cloud_storage test_sync with
        | Ok storage => connection_test_result (test_storage storage)
        | Err e => io_ret (AppResult.SyncConnectionTested false (SyncError.display e))
        end
    | None =>
        if ex_sync (ap_executor x) then connection_test_result test_current
        else io_ret (AppResult.Command
               (CommandResult.Error ErrorCode.SyncNotConfigured ErrorContext.new
                  "error.sync_not_configured" "Sync is not configured."))
    end.

(** *** Authorization *)

(** The store of the tokens, made when it is first used. *)
Definition get_token_store : io St string :=
  let* x := get_state in
  match ap_token_store x with
  | Some store => io_ret store
  | None =>
      let store := tokens_dir (ap_config_dir x) in
      let* _ := set_state (λ x, x <| ap_token_store := Some store |>) in
      io_ret store
  end.

(** The result at once, and the directory that the spawned task gets. *)
Definition handle_oauth2_authorize_google_drive : io St (AppResult.t * string) :=
  let* store := get_token_store in
  let* config := on_config ConfigManager.get_config in
  io_ret (AppResult.ConfigLoaded config, store).

(** The task: its message, and none when it panics. *)
Definition authorization_task `{Libs} `{Serde OAuth2Token} `{Serde Json} `{System W}
    `{OAuthWorld W} `{UrlLib} (store : string) : io W (option AppResult.t) :=
  let* r := authorize GoogleDriveProvider store in
  io_ret match r with
         | Ok token =>
             Some (AppResult.OAuth2Authorized "google_drive" (tk_access_token token)
                     (tk_refresh_token token))
         | Err (Exchange.Failed e) =>
             Some (AppResult.OAuth2Failed "google_drive" (OAuth2Error.display e))
         | Err Exchange.Panicked => None
         end.

(** *** The audit log *)

Definition handle_load_audit_log `{Libs} `{UuidErrors} `{ConversionErrors} `{Sqlite W}
    `{System W} (x : CommandExecutor) (filter : AuditFilter) : io W CommandResult.t :=
  let* r :=
    let! _ := lift (VaultRuntime.open_vault (ex_vault_runtime x)) in
    AuditLog.query_audit_log filter in
  io_ret match r with
         | Ok (entries, total) => CommandResult.AuditLogLoaded entries total
         | Err e => service_error e "error.audit_log_failed"
                      ("Failed to load audit log: " +:+ VaultError.display e)
         end.

End s.
End ConfigExec.

(** ** Properties *)

Section properties.
Context {W : Type} `{TomlLib} `{DebugText} `{Fs W} `{DirFs W} `{Opendal} `{SyncSlot W}.
Import ConfigExec.

Lemma changed_if_in b f g : g ∈ changed_if b f ↔ b = true ∧ g = f.
Proof. destruct b; set_solver. Qed.

Lemma differs_spec {A} `{EqDecision A} (a b : A) : differs a b = true ↔ a ≠ b.
Proof. unfold differs. by rewrite negb_true_iff, bool_decide_eq_false. Qed.

Lemma sync_detected old new :
  "sync" ∈ detect_changed_fields old new ↔ sync_differs (ac_sync old) (ac_sync new) = true.
Proof. unfold detect_changed_fields. rewrite !elem_of_app, !changed_if_in. naive_solver. Qed.

Lemma auto_lock_detected old new :
  "general.auto_lock_seconds" ∈ detect_changed_fields old new ↔
  gc_auto_lock_seconds (ac_general old) ≠ gc_auto_lock_seconds (ac_general new).
Proof.
  unfold detect_changed_fields. rewrite !elem_of_app, !changed_if_in, !differs_spec. naive_solver.
Qed.

(** What the inline part of a change does. *)
Record fields_applied (c : AppConfig) (l : list string) (x x' : App W) : Prop := {
  fa_config : ap_config x' = ap_config x;
  fa_clipboard : ap_clipboard x' = ap_clipboard x;
  fa_timers : ap_timer_rebuild_pending x' =
    ap_timer_rebuild_pending x || bool_decide ("general.auto_lock_seconds" ∈ l)
    || bool_decide ("sync" ∈ l);
  fa_sync : ex_sync (ap_executor x') =
    if bool_decide ("sync" ∈ l) then is_ok (create_cloud_storage (ac_sync c))
    else ex_sync (ap_executor x);
}.

Lemma rebuild_sync_run c (x : App W) (w : W) ws x' w' :
  rebuild_sync c (x, w) = (ws, (x', w')) →
  x' = x <| ap_executor ::= λ e,
    e <| ex_sync := is_ok (create_cloud_storage (ac_sync c)) |> |>.
Proof.
  unfold rebuild_sync, set_sync, io_bind, world, set_state, io_ret.
  destruct (create_cloud_storage (ac_sync c)); destruct (sync_set _ w); by intros [= _ <- _].
Qed.

Lemma apply_field_run c f (x : App W) (w : W) ws x' w' :
  apply_field c f (x, w) = (ws, (x', w')) → fields_applied c [f] x x'.
Proof.
  unfold apply_field. destruct (String.eqb_spec f "general.auto_lock_seconds") as [->|Hl].
  { unfold rebuild_timers, io_bind, set_state, io_ret. intros [= _ <- _].
    split; cbn; try done. by rewrite orb_true_r. }
  destruct (String.eqb_spec f "sync") as [->|Hs].
  { unfold rebuild_timers, io_bind at 1, set_state. intros Hr%rebuild_sync_run. subst x'.
    split; cbn; try done. by rewrite !orb_true_r. }
  intros [= _ <- _]. split; try done; rewrite ?bool_decide_eq_false_2 by set_solver; try done.
  by rewrite !orb_false_r.
Qed.

Lemma fields_applied_cons c f l x x1 x' :
  fields_applied c [f] x x1 → fields_applied c l x1 x' → fields_applied c (f :: l) x x'.
Proof.
  assert (∀ g, bool_decide (g ∈ f :: l) = bool_decide (g ∈ [f]) || bool_decide (g ∈ l)) as Hc.
  { intros g. apply eq_bool_prop_intro. rewrite orb_True, !bool_decide_spec. set_solver. }
  intros [C1 K1 T1 S1] [C2 K2 T2 S2]. split; try congruence.
  - rewrite T2, T1, !Hc. repeat case_bool_decide; by rewrite ?orb_true_r, ?orb_false_r.
  - rewrite S2, S1, !Hc. by repeat case_bool_decide.
Qed.

Lemma apply_fields_run c l : ∀ (x : App W) (w : W) ws x' w',
  apply_fields c l (x, w) = (ws, (x', w')) → fields_applied c l x x'.
Proof.
  induction l as [|f l IH]; intros x w ws x' w' Hr.
  - injection Hr as _ <- _. split; try done. by rewrite !orb_false_r.
  - cbn in Hr. apply io_bind_eq in Hr as (ws1 & [x1 w1] & E1 & Hr).
    apply io_bind_eq in Hr as (ws2 & [x2 w2] & E2 & Hr). injection Hr as _ <- _.
    eapply fields_applied_cons; [by eapply apply_field_run|by eapply IH].
Qed.

(** Saving writes the file first: nothing else happens when that fails. *)
Lemma save_settings_run c (x : App W) (w : W) r x' w' :
  save_settings c (x, w) = (r, (x', w')) →
  ∃ s, save_config c (ap_config_dir x) w = (s, w') ∧ is_ok s = is_ok r ∧
    x' = if is_ok r then x <| ap_config := c |> else x.
Proof.
  unfold save_settings, io_bind at 1, get_state, on_config, ConfigManager.save, ior_bind, world.
  unfold io_bind, set_state, lift, io_ret.
  destruct (save_config c (ap_config_dir x) w) as [[[]|e] w1]; intros [= <- <- <-]; eexists;
    split_and!; try done. by destruct x.
Qed.

Context `{Libs} `{System W} `{ClipboardBackend W}.

Lemma clipboard_reloaded c (s : ClipboardService) (w : W) rs s' w' :
  ServiceNotification.notify_config_change [ClipboardConfigAdapter] c [] (s, w) = (rs, (s', w')) →
  cl_clear_timeout s' = gc_clipboard_clear_seconds (ac_general c) ∧ omap reload_warning rs = [].
Proof.
  cbn. unfold Clipboard.set_clear_timeout, Clipboard.cancel_timer, Clipboard.start_clear_timer.
  unfold io_bind, set_state, get_state, world, lift, io_ret. cbn.
  case_bool_decide; cbn; [|by intros [= <- <- _]].
  destruct (0 <? gc_clipboard_clear_seconds (ac_general c))%Z; cbn; [|by intros [= <- <- _]].
  destruct (monotonic_now w). by intros [= <- <- _].
Qed.

Lemma notify_services_run c l (x : App W) (w : W) ws x' w' :
  ap_notifier x = [ClipboardConfigAdapter] → notify_services c l (x, w) = (ws, (x', w')) →
  ws = [] ∧ ∃ s, x' = x <| ap_clipboard := s |> ∧
    cl_clear_timeout s = if bool_decide (l = []) then cl_clear_timeout (ap_clipboard x)
                         else gc_clipboard_clear_seconds (ac_general c).
Proof.
  intros Hn. unfold notify_services. case_bool_decide as Hl.
  { intros [= <- <- _]. split; [done|]. exists (ap_clipboard x). by destruct x. }
  unfold io_bind, get_state, on_clipboard, io_ret. rewrite Hn.
  destruct (ServiceNotification.notify_config_change _ _ _ _) as [rs [s w1]] eqn:E.
  apply clipboard_reloaded in E as [Ht Hr]. intros [= <- <- _]. by eauto.
Qed.

(** What saving the settings does.  When the file could be written, the settings in memory
    are the saved ones; if a watched field changed, the clipboard is cleared after the new
    time; if the auto-lock or the synchronization changed, the timers are made again; and
    if the synchronization changed there is a sync service exactly when the new settings
    make a storage, while otherwise the service stays.  When the file could not be written
    nothing changes at all. *)
Lemma settings_saved c (x : App W) (w : W) r x' w' :
  ap_notifier x = [ClipboardConfigAdapter] → handle_save_config c (x, w) = (r, (x', w')) →
  let old := ap_config x in
  match r with
  | AppResult.ConfigSaved c' _ =>
      (∃ w1, save_config c (ap_config_dir x) w = (Ok (), w1)) ∧ c' = c ∧ ap_config x' = c ∧
      cl_clear_timeout (ap_clipboard x') =
        (if bool_decide (detect_changed_fields old c = [])
         then cl_clear_timeout (ap_clipboard x) else gc_clipboard_clear_seconds (ac_general c)) ∧
      ap_timer_rebuild_pending x' =
        (ap_timer_rebuild_pending x
         || differs (gc_auto_lock_seconds (ac_general old)) (gc_auto_lock_seconds (ac_general c))
         || sync_differs (ac_sync old) (ac_sync c)) ∧
      ex_sync (ap_executor x') =
        (if sync_differs (ac_sync old) (ac_sync c)
         then is_ok (create_cloud_storage (ac_sync c)) else ex_sync (ap_executor x))
  | _ => x' = x ∧ ∃ e, save_config c (ap_config_dir x) w = (Err e, w')
  end.
Proof.
  intros Hn Hh. unfold handle_save_config, io_bind at 1, on_config at 1 in Hh. cbn in Hh.
  replace (x <| ap_config := ap_config x |>) with x in Hh by (by destruct x).
  apply io_bind_eq in Hh as (s & [x1 w1] & E & Hh).
  apply save_settings_run in E as (s' & Hs & Hok & ->). destruct s as [[]|e]; cbn in Hh, Hok.
  - destruct s' as [[]|]; [|done]. apply io_bind_eq in Hh as (ws & [x2 w2] & E & Hh).
    injection Hh as <- <- <-. unfold apply_config_changes in E.
    apply io_bind_eq in E as (ws1 & [x3 w3] & E1 & E). apply io_bind_eq in E as (ws2 & [x4 w4] & E2 & E).
    injection E as _ <- _. apply notify_services_run in E1 as (_ & s & -> & Ht); [|exact Hn].
    apply apply_fields_run in E2 as [C K T S]. cbn in C, K, T, S, Ht.
    split_and!; [by eauto|done|done|by rewrite K, Ht| |].
    + rewrite T. f_equal; [f_equal|]; apply eq_bool_prop_intro; rewrite bool_decide_spec.
      * by rewrite auto_lock_detected, Is_true_true, differs_spec.
      * by rewrite sync_detected, Is_true_true.
    + rewrite S. case_bool_decide as D; rewrite sync_detected in D; [by rewrite D|].
      by apply not_true_is_false in D as ->.
  - destruct s' as [|e']; [done|]. injection Hh as <- <- <-. eauto.
Qed.

(** Two configurations between which no change is seen. *)
Lemma unwatched old new :
  detect_changed_fields old new = [] ↔
  gc_language (ac_general old) = gc_language (ac_general new) ∧
  gc_auto_lock_seconds (ac_general old) = gc_auto_lock_seconds (ac_general new) ∧
  gc_clipboard_clear_seconds (ac_general old) = gc_clipboard_clear_seconds (ac_general new) ∧
  sync_differs (ac_sync old) (ac_sync new) = false ∧
  security_differs (ac_security old) (ac_security new) = false ∧
  password_differs (ac_password old) (ac_password new) = false.
Proof.
  unfold detect_changed_fields, changed_if, differs.
  repeat case_bool_decide; cbn; repeat case_match; cbn; naive_solver.
Qed.

(** Switching to manual synchronization does not stop the automatic one.  When only the mode
    differs, saving succeeds and reports no warning, but the change is not seen: the timers
    stay what they were, so that one that synchronizes at an interval goes on to do so,
    although timers made of the new settings would not. *)
Lemma manual_mode_keeps_syncing timers (x : App W) (w : W) w1 r x' w' :
  ap_notifier x = [ClipboardConfigAdapter] → ap_timer_rebuild_pending x = false →
  let c := (ap_config x) <| ac_sync ::= λ s, s <| yc_sync_mode := SyncMode.Manual |> |> in
  save_config c (ap_config_dir x) w = (Ok (), w1) →
  handle_save_config c (x, w) = (r, (x', w')) →
  r = AppResult.ConfigSaved c [] ∧ ap_config x' = c ∧ settle_timers timers x' = (timers, x') ∧
  ∀ available, tm_sync_active (timers_new (ap_config x') available) = false.
Proof.
  intros Hn Hp c Hs Hh. unfold handle_save_config, io_bind at 1, on_config at 1 in Hh.
  cbn [ConfigManager.get_config get_state] in Hh.
  replace (x <| ap_config := ap_config x |>) with x in Hh by (by destruct x).
  apply io_bind_eq in Hh as (s & [x1 w2] & E & Hh).
  apply save_settings_run in E as (s' & Hs' & Hok & ->). rewrite Hs in Hs'. injection Hs' as <- <-.
  destruct s; [|done]. cbn [is_ok] in Hh.
  assert (detect_changed_fields (ap_config x) c = []) as E.
  { apply unwatched. subst c. unfold sync_differs, security_differs, password_differs, differs.
    cbn. split_and!; try done; by rewrite !bool_decide_eq_true_2. }
  rewrite E in Hh. injection Hh as <- <- <-. unfold settle_timers. cbn. rewrite Hp.
  split_and!; try done. intros available. unfold timers_new. cbn.
  rewrite (bool_decide_eq_false_2 (SyncMode.Manual = _)) by done. by rewrite andb_false_r.
Qed.

End properties.
