(* ===== verification/CloudRestore.v ===== *)
(** * Restoring a vault from the cloud (src/services/sync.rs, src/executor/sync.rs)

    The pull of everything the cloud holds, each record checked against the metadata, and
    the handler that fills a new database with it.  Nothing is ever written to the cloud. *)

From stdpp Require Import sorting.
From S2P Require Import Prelude Text Errors Env Types CloudRecord CloudMetadata Storage.
From S2P Require Import Checkpoint Pipeline Push SyncTask Crypto Keystore Payload Database Queries.
From S2P Require Import Vault Logic Records Integrity VaultSync VaultOps Lifecycle CloudTrip Executor ExecSync Files Config Providers.
From S2P Require Import OAuth Redaction Opening ImportService ImportExec Transfer ConfigExec.

(** ** The pull *)

Module Restore.
Section s.
Context {W : Type} `{Libs} `{Operator W} `{System W} `{Runtime}.
Context `{Serde CloudMetadata} `{Serde CloudRecord} `{Serde EncryptedRecordMetadata}.

(** The keys of the metadata, parsed and sorted *)
Fixpoint record_ids (keys : list string) : result (list string) SyncError.t :=
  match keys with
  | [] => Ok []
  | id :: keys =>
      match uuid_parse id with
      | Some _ => let? ids := record_ids keys in Ok (id :: ids)
      | None =>
          Err (SyncError.DeserializationFailed ("metadata record key must be a UUID: " +:+ id))
      end
  end.

(** The checks of a record against its entry *)
Definition check_entry (record_id : string) (record : CloudRecord) (info : RecordVersionInfo)
  : result () SyncError.t :=
  if negb (cr_version record =? ri_version info)%Z
  then Err (SyncError.MetadataVersionConflict (ri_version info) (cr_version record))
  else
    let? computed := CloudRecord.checksum record in
    if negb (bool_decide (computed = ri_checksum info))
    then Err (SyncError.ChecksumMismatch (ri_checksum info) computed record_id)
    else
      match ri_private_metadata_checksum info with
      | None => Ok ()
      | Some expected =>
          let? private := CloudRecord.compute_private_metadata_checksum record in
          match private with
          | Some computed =>
              if bool_decide (computed = expected) then Ok ()
              else Err (SyncError.ChecksumMismatch expected computed record_id)
          | None =>
              Err (SyncError.ChecksumMismatch expected "missing private metadata" record_id)
          end
      end.

Definition check_record (m : CloudMetadata) (record_id : string) (record : CloudRecord)
  : result () SyncError.t :=
  if negb (bool_decide (cr_id record = record_id))
  then Err (SyncError.AadInconsistent "record_id" record_id (cr_id record))
  else
    let? _ := CloudRecord.validate record in
    match cm_records m !! record_id with
    | Some info => check_entry record_id record info
    | None => Ok ()
    end.

(** What the pull collects: records, health states, and the records without one. *)
Record Pulled : Type := mkPulled {
  pu_records : list CloudRecord;
  pu_health_states : list RecordHealthState;
  pu_health_deleted : list Uuid;
}.

Definition take_record (record_id : string) (record : CloudRecord) (p : Pulled) : Pulled :=
  let records := pu_records p ++ [record] in
  match CloudRecord.to_health_state record with
  | Some state => mkPulled records (pu_health_states p ++ [state]) (pu_health_deleted p)
  | None =>
      if negb (CloudRecord.has_encrypted_private_metadata record) then
        match uuid_parse record_id with
        | Some id => mkPulled records (pu_health_states p) (pu_health_deleted p ++ [id])
        | None => mkPulled records (pu_health_states p) (pu_health_deleted p)
        end
      else mkPulled records (pu_health_states p) (pu_health_deleted p)
  end.

Fixpoint collect (m : CloudMetadata) (downloads : list (string * result (option CloudRecord) SyncError.t)) (p : Pulled)
  : result Pulled SyncError.t :=
  match downloads with
  | [] => Ok p
  | (record_id, r) :: downloads =>
      let? found := r in
      match found with
      | None => Err (SyncError.RecordNotFound record_id)
      | Some record =>
          let? _ := check_record m record_id record in
          collect m downloads (take_record record_id record p)
      end
  end.

Definition restore_pull_only (st : CloudStorage) : ior W SyncResult SyncError.t :=
  let! _ := check_connectivity st in
  let! found := download_metadata st in
  match found with
  | None => lift (Err (SyncError.RecordNotFound METADATA_FILENAME))
  | Some metadata =>
      let! _ := lift (CloudMetadata.validate metadata) in
      let! ids := lift (record_ids (hash_order (cm_records metadata)).*1) in
      let* downloads := batch_download_records task_schedule task_panics join_error st
                          (merge_sort text_le ids) in
      let! p := lift (collect metadata downloads (mkPulled [] [] [])) in
      lift (Ok (mkSyncResult (mkSyncReport 0 (SyncTask.len_u32 (pu_records p)) 0 0 0)
                  (pu_health_states p) (pu_health_deleted p) (pu_records p) [] ∅ (Some metadata)))
  end.

End s.
End Restore.

(** ** The handler (executor/sync.rs) *)

(** [sync.restore_pull_only()] of the configured service. *)
Class CloudPull (W : Type) : Type := ss_restore_pull_only : ior W SyncResult SyncError.t.

(** The master password of a restore, and whether it is the executor's cached one. *)
Module RestoreMasterPassword.
Inductive t : Set := Provided (password : string) | Cached (password : string).

Definition password (p : t) : string := match p with Provided pw | Cached pw => pw end.

Definition restore_cache_on_failure (p : t) (x : CommandExecutor) : CommandExecutor :=
  match p with
  | Provided _ => x
  | Cached pw => x <| ex_verified_master_password := Some pw |>
  end.

(** [take_restore_master_password] *)
Definition take (provided : option string) (x : CommandExecutor)
  : option t * CommandExecutor :=
  match provided with
  | Some pw => (Some (Provided pw), x)
  | None =>
      (Cached <$> ex_verified_master_password x, x <| ex_verified_master_password := None |>)
  end.
End RestoreMasterPassword.

Module CloudExec.
Section s.
Context {W Conn : Type} `{Libs} `{Runtime} `{UuidErrors} `{Lowercase} `{ConversionErrors}.
Context `{CryptoLibs} `{MigrationSql} `{Secure W} `{Sqlite W} `{System W} `{Fs W} `{DirFs W}.
Context `{Connections W Conn} `{SymlinkMetadata W} `{Serde Json}.
Context `{Serde PayloadPlaintextDto.t} `{Serde CloudPrivateMetadata} `{Serde CloudMetadata}.
Context `{SyncService W} `{CloudPull W}.
Import VaultService VaultSync.

Definition ensure_cloud_restore_has_records : ior W () CommandResult.t :=
  let failed key text := Err (ImportExec.error_of ErrorCode.SyncProviderError key text) in
  let* m := ss_download_metadata in
  lift match m with
       | Ok (Some metadata) =>
           if bool_decide (cm_records metadata = ∅)
           then failed "error.cloud_restore_empty"
                  "No recoverable cloud sync data was found. Try restoring from a .okb backup."
           else Ok ()
       | Ok None =>
           failed "error.cloud_restore_empty"
             "No recoverable cloud sync data was found. Try restoring from a .okb backup."
       | Err e =>
           failed "error.cloud_restore_failed"
             ("Cloud database restore failed: " +:+ SyncError.display e)
       end.

(** *** What is stored, up to the first failure *)

Fixpoint apply_records (v : VaultServiceImpl) (records : list CloudRecord)
  : ior W () VaultError.t :=
  match records with
  | [] => lift (Ok ())
  | c :: records =>
      let! _ := apply_downloaded_cloud_record v c in
      apply_records v records
  end.

Fixpoint apply_health (states : list RecordHealthState) : ior W () VaultError.t :=
  match states with
  | [] => lift (Ok ())
  | s :: states =>
      let! _ := db (upsert_record_health_state s) in
      apply_health states
  end.

Definition persist_restored_cloud_data (v : VaultServiceImpl) (res : SyncResult)
  : ior W () VaultError.t :=
  let! _ := apply_records v (sy_downloaded_records res) in
  let! _ := apply_health (sy_downloaded_health_states res) in
  let! _ :=
    if bool_decide (sy_downloaded_health_deleted res = []) then lift (Ok ())
    else ior_map (λ _, ()) (db (delete_record_health_states (sy_downloaded_health_deleted res))) in
  match sy_remote_metadata res with
  | Some m => ExecSync.store_metadata m
  | None => lift (Ok ())
  end.

Definition cloud_restore_local_error_result (e : VaultError.t) : CommandResult.t :=
  CommandResult.Error (VaultError.error_code e) (VaultError.error_context e)
    "error.db_restore_failed"
    ("Failed to apply cloud restore locally: " +:+ VaultError.display e).

(** *** The pending database *)

(** The guard is dropped, and the password cached again if it was. *)
Definition abandon (x : CommandExecutor) (guard : Guard) (pw : RestoreMasterPassword.t)
    (r : CommandResult.t) : io W (CommandResult.t * CommandExecutor) :=
  let* x := Pending.drop guard x in
  io_ret (r, RestoreMasterPassword.restore_cache_on_failure pw x).

(** [PendingFileBackedVaultDb::restore_pull_only] *)
Definition pull (x : CommandExecutor) : ior W SyncResult SyncError.t :=
  if ex_sync x then ss_restore_pull_only
  else lift (Err (SyncError.ProviderError "none" "Sync service not configured")).

Definition fill_from_cloud (x : CommandExecutor) (v : VaultServiceImpl) (guard : Guard)
    (pw : RestoreMasterPassword.t) : io W (CommandResult.t * CommandExecutor) :=
  let* pulled := pull x in
  match pulled with
  | Ok res =>
      let* stored := persist_restored_cloud_data v res in
      match stored with
      | Ok _ => io_ret (CommandResult.DatabaseRestored DatabaseRecoverySource.Cloud,
                        Pending.commit v x)
      | Err e => abandon x guard pw (cloud_restore_local_error_result e)
      end
  | Err e =>
      abandon x guard pw
        (service_error e "error.sync_failed"
           ("Cloud restore failed: " +:+ SyncError.display e))
  end.

Definition restore_into_pending (x : CommandExecutor) (pw : RestoreMasterPassword.t)
  : ior W (CommandResult.t * CommandExecutor) Fault.t :=
  let password := RestoreMasterPassword.password pw in
  on_fault (KeyStore.unlock (ex_vault_dir x) password)
    (λ _, lift (Ok (ImportExec.error_of ErrorCode.CryptoEncryptionFailed "error.keystore_unlock_failed"
                      "Failed to unlock keystore for restore.", x)))
    (λ keystore,
      let* key := KeyStore.db_page_key keystore in
      match key with
      | Err e =>
          lift (Ok (ImportExec.error_of ErrorCode.CryptoKeyDerivationFailed "error.db_key_derivation_failed"
                      ("Failed to derive database page key: " +:+ e), x))
      | Ok key =>
          let* pending := Pending.begin_ (Conn := Conn) (ex_vault_dir x) key in
          match pending with
          | Err e =>
              lift (Ok (ImportExec.error_of ErrorCode.VaultDatabaseIoError "error.db_reopen_failed"
                          ("Failed to create vault database: " +:+ VaultDbError.display e), x))
          | Ok (v, guard) =>
              let* unlocked := VaultServiceImpl.unlock v (ex_vault_dir x) password in
              match unlocked with
              | Ok v => let* r := fill_from_cloud x v guard pw in lift (Ok r)
              | Err (Fault.Failed e) =>
                  let* r := abandon x guard pw
                    (ImportExec.error_of ErrorCode.CryptoEncryptionFailed "error.unlock_failed"
                       ("Failed to unlock vault: "
                          +:+ VaultError.display (VaultError.CryptoError e))) in
                  lift (Ok r)
              | Err Fault.Panic =>
                  let* _ := Pending.drop guard x in
                  lift (Err Fault.Panic)
              end
          end
      end).

(** The handler once there is a sync service. *)
Definition restore_with_service (x : CommandExecutor) (master_password : option string)
  : ior W (CommandResult.t * CommandExecutor) Fault.t :=
  let* checked := ensure_cloud_restore_has_records in
  match checked with
  | Err failed => lift (Ok (failed, x))
  | Ok _ =>
      let '(pw, x) := RestoreMasterPassword.take master_password x in
      match pw with
      | None =>
          lift (Ok (ImportExec.error_of ErrorCode.ExecutorMasterPasswordRequired "error.password_required"
            "Master password is required to unlock the recovered vault.", x))
      | Some pw => restore_into_pending x pw
      end
  end.

(** *** The service of a restore *)

Context `{TomlLib} `{DebugText} `{Opendal} `{SyncSlot W} `{Serde OAuth2Token}.

Local Abbreviation St := (App W * W)%type.

(** The settings that a restore switches on. *)
Definition restore_config (config : AppConfig) (refresh_token : string) : AppConfig :=
  let g := match yc_provider_config (ac_sync config) with
           | Some (ProviderConfig.GoogleDrive g) => g
           | _ => mkGoogleDriveConfig "" "" default_gdrive_root "" ""
           end in
  let g := mkGoogleDriveConfig "" refresh_token (gd_root_path g) (gd_client_id g)
             (gd_client_secret g) in
  config <| ac_sync ::= λ s, s <| yc_provider := SyncProvider.GoogleDrive |>
                               <| yc_provider_config := Some (ProviderConfig.GoogleDrive g) |> |>.

Definition configure_drive (refresh_token : string) : ior St () CommandResult.t :=
  let* x := get_state in
  let config := restore_config (ap_config x) refresh_token in
  match create_cloud_storage (ac_sync config) with
  | Ok storage =>
      let! _ := io_map_err (λ e, ConfigExec.config_save_failed
        ("Failed to enable Google Drive sync after restore: " +:+ ConfigError.display e))
        (ConfigExec.save_settings config) in
      let* _ := ConfigExec.set_sync (Some storage) in
      lift (Ok ())
  | Err e =>
      lift (Err (service_error e "error.sync_provider_failed"
        ("Failed to initialize Google Drive sync: "
           +:+ redact_sensitive_values (SyncError.display e))))
  end.

Definition ensure_cloud_restore_sync_service : ior St () CommandResult.t :=
  let* x := get_state in
  if ex_sync (ap_executor x) then lift (Ok ())
  else
    let* token_store := ConfigExec.get_token_store in
    let* token := world (TokenStore.load token_store "google_drive") in
    match token with
    | Ok (Some token) =>
        match tk_refresh_token token with
        | Some refresh_token => configure_drive refresh_token
        | None => lift (Err CommandResult.DatabaseRestoreNeedsOAuth)
        end
    | Ok None => lift (Err CommandResult.DatabaseRestoreNeedsOAuth)
    | Err e =>
        lift (Err (ImportExec.error_of ErrorCode.SyncAuthenticationFailed "error.sync_auth_failed"
          ("Failed to load Google Drive authorization: " +:+ OAuth2Error.display e)))
    end.

(** A handler of the executor alone, within the executor with its settings. *)
Definition on_executor (f : CommandExecutor → ior W (CommandResult.t * CommandExecutor) Fault.t)
  : ior St CommandResult.t Fault.t := λ '(x, w),
  match f (ap_executor x) w with
  | (Ok (r, e), w') => (Ok r, (x <| ap_executor := e |>, w'))
  | (Err fault, w') => (Err fault, (x, w'))
  end.

Definition handle_restore_database_from_cloud (master_password : option string)
  : ior St CommandResult.t Fault.t :=
  let* ensured := ensure_cloud_restore_sync_service in
  match ensured with
  | Err failed => lift (Ok failed)
  | Ok _ => on_executor (λ x, restore_with_service x master_password)
  end.

End s.
End CloudExec.

(** ** Properties *)

Section properties.
Context {W : Type} `{L : Libs} `{SystemLaws W} `{Runtime}.
Context `{Serde CloudMetadata} `{Serde CloudRecord} `{Serde EncryptedRecordMetadata}.
Import Restore.

(** What a restored record was checked for. *)
Record verified (fs : gmap string bytes) (m : CloudMetadata) (r : CloudRecord) : Prop := {
  verified_stored : ∃ json, fs !! record_path (cr_id r) = Some json ∧ from_json json = Ok r;
  verified_valid : CloudRecord.validate r = Ok ();
  verified_entry info : cm_records m !! cr_id r = Some info →
    cr_version r = ri_version info ∧ CloudRecord.checksum r = Ok (ri_checksum info) ∧
    ∀ c, ri_private_metadata_checksum info = Some c →
      CloudRecord.compute_private_metadata_checksum r = Ok (Some c);
}.

Lemma check_entry_ok id r info :
  check_entry id r info = Ok () →
  cr_version r = ri_version info ∧ CloudRecord.checksum r = Ok (ri_checksum info) ∧
  ∀ c, ri_private_metadata_checksum info = Some c →
    CloudRecord.compute_private_metadata_checksum r = Ok (Some c).
Proof.
  unfold check_entry. intros Hc. repeat (simplify_res; case_match; simplify_res); reflect_bools;
    subst; split_and!; intros; simplify_eq; auto.
Qed.

Lemma check_record_ok fs m id r :
  check_record m id r = Ok () → download_outcome fs id (Ok (Some r)) →
  cr_id r = id ∧ verified fs m r.
Proof.
  unfold check_record. intros Hc Hd. case_bool_decide as Hi; [|done]. cbn [negb] in Hc. subst id.
  split; [done|]. destruct (CloudRecord.validate r) as [[]|] eqn:Hv; [|done].
  split; [exact Hd|done|]. intros info Hm. rewrite Hm in Hc. by eapply check_entry_ok.
Qed.

Lemma take_record_appends id r p : pu_records (take_record id r p) = pu_records p ++ [r].
Proof. unfold take_record. by repeat case_match. Qed.

Lemma collect_ok fs m downloads : ∀ p q,
  collect m downloads p = Ok q → Forall (λ d, download_outcome fs d.1 d.2) downloads →
  ∃ l, pu_records q = pu_records p ++ l ∧ cr_id <$> l = downloads.*1 ∧ Forall (verified fs m) l.
Proof.
  induction downloads as [|[id r] downloads IH]; intros p q Hc Hf.
  - injection Hc as <-. exists []. by rewrite app_nil_r.
  - apply Forall_cons in Hf as [Hd Hf]. cbn in Hc, Hd.
    destruct r as [[r|]|e]; cbn in Hc; [|done..].
    destruct (check_record m id r) as [[]|] eqn:Hr; [|done]. cbn in Hc.
    destruct (check_record_ok fs _ _ _ Hr Hd) as [Hi Hv].
    destruct (IH _ _ Hc Hf) as (l & Hl & Hids & Hfl). exists (r :: l).
    rewrite Hl, take_record_appends, <- app_assoc. split_and!; [done| |by constructor].
    by rewrite !fmap_cons, Hids, Hi.
Qed.

Lemma record_ids_ok keys ids :
  record_ids keys = Ok ids → ids = keys ∧ Forall (λ k, is_Some (uuid_parse k)) keys.
Proof.
  revert ids. induction keys as [|k keys IH]; intros ids Hr; cbn in Hr.
  - injection Hr as <-. by split.
  - destruct (uuid_parse k) eqn:Hk; [|done]. destruct (record_ids keys) as [l|]; [|done].
    injection Hr as <-. destruct (IH l eq_refl) as [-> Hf]. split; [done|]. constructor; [done|].
    exact Hf.
Qed.

Lemma check_connectivity_files st w r w' :
  check_connectivity st w = (r, w') → files w' = files w.
Proof. unfold check_connectivity, mapped, ior_map. intros. run_io; by op_facts. Qed.

(** A pull that succeeds only read: no file of the cloud has changed and nothing is
    reported as uploaded.  The result carries the metadata that the cloud holds and exactly
    one record for each of its entries, in the order of their identifiers; each of them is
    the content of its file, is valid, and has the version and the checksums that the
    metadata gives for it.  So nothing of a cloud that was tampered with or half written
    gets into a restored database. *)
Lemma restored_records_verified st w res w' :
  restore_pull_only st w = (Ok res, w') →
  files w' = files w ∧ sy_uploaded_ids res = [] ∧
  ∃ m, stored_metadata (files w) = Some m ∧ sy_remote_metadata res = Some m ∧
    (cr_id <$> sy_downloaded_records res) = merge_sort text_le (hash_order (cm_records m)).*1 ∧
    Forall (verified (files w) m) (sy_downloaded_records res).
Proof.
  unfold restore_pull_only. intros Hr.
  apply ior_bind_ok in Hr as (? & w1 & E1%check_connectivity_files & Hr).
  apply ior_bind_ok in Hr as ([m|] & w2 & E2 & Hr); [|done].
  pose proof (download_metadata_files _ _ _ _ E2) as F2.
  apply download_metadata_outcome in E2. rewrite E1 in *.
  apply ior_bind_ok in Hr as ([] & ? & [? ->]%lift_ok & Hr).
  apply ior_bind_ok in Hr as (ids & ? & [[-> _]%record_ids_ok ->]%lift_ok & Hr).
  apply io_bind_eq in Hr as (ds & w3 & E3 & Hr).
  apply ior_bind_ok in Hr as (p & ? & [Hc ->]%lift_ok & Hr). apply lift_ok in Hr as [[= <-] ->].
  apply batch_download_effect in E3 as F3. apply batch_download_spec in E3 as [Hids Hf].
  rewrite F2 in *. destruct (collect_ok _ _ _ _ _ Hc Hf) as (l & Hl & Hi & Hv).
  split; [done|]. split; [done|]. exists m. cbn in Hl |- *. subst l. by rewrite Hi, Hids.
Qed.

End properties.

(** *** The records of the new database *)

Section presence.
Context {W : Type} `{Libs} `{UuidErrors} `{Lowercase} `{ConversionErrors} `{CryptoLibs}.
Context `{SqliteLaws W} `{!RangeLaws W}.
Context `{Serde Json} `{Serde PayloadPlaintextDto.t} `{Serde CloudPrivateMetadata}.
Context `{Serde CloudMetadata}.
Import VaultService Records VaultSync CloudExec.

(** The records with these identifiers are there. *)
Definition present (K : gset string) : W → Prop := on (λ t, K ⊆ dom (t_records t)).

Definition grows {A} (f : Tables → result (A * Tables) SqlError) : Prop :=
  ∀ t a t', f t = Ok (a, t') → dom (t_records t) ⊆ dom (t_records t').

Lemma execute_grows {A} K (f : Tables → result (A * Tables) SqlError) :
  grows f → preserves (present K) (sql_execute f).
Proof.
  intros Hf w [a|e] w' Hr Hw; unfold present, on in *.
  - apply execute_ok in Hr. etrans; [exact Hw|by eapply Hf].
  - by rewrite (execute_err _ _ _ _ Hr).
Qed.

Lemma same_grows {A} (f : Tables → result (A * Tables) SqlError) :
  (∀ t a t', f t = Ok (a, t') → t_records t' = t_records t) → grows f.
Proof. intros Hf t a t' Hr. by rewrite (Hf _ _ _ Hr). Qed.

Lemma tag_record_same id name t t' :
  sql_tag_record id (Ok t) name = Ok t' → t_records t' = t_records t.
Proof.
  unfold sql_tag_record, sql_ensure_tag, sql_insert_tag, sql_link, sql_new_tag. intros Ht. inv_ok Ht.
  repeat case_match; by simplify_eq.
Qed.

Lemma tag_records_same id l : ∀ t t',
  foldl (sql_tag_record id) (Ok t) l = Ok t' → t_records t' = t_records t.
Proof.
  induction l as [|name l IH]; intros t t'; cbn [foldl]; [by intros [= ->]|].
  destruct (sql_tag_record id (Ok t) name) as [t1|e] eqn:E; [|by rewrite foldl_tag_record_err].
  intros ->%IH. by eapply tag_record_same.
Qed.

Lemma insert_record_row r t u t' :
  sql_insert_record r t = Ok (u, t') →
  t_records t' = <[uuid_to_string (st_id r) := new_row r]> (t_records t).
Proof.
  unfold sql_insert_record. intros Hi. inv_ok Hi. simplify_eq.
  destruct (sql_insert_row r t) as [t1|e] eqn:E; [|by rewrite foldl_tag_record_err in *].
  match goal with E : foldl _ _ _ = _ |- _ => apply tag_records_same in E as -> end.
  unfold sql_insert_row in E. case_match; by simplify_eq.
Qed.

#[local] Hint Extern 0 (preserves (present _) (sql_query _)) =>
  apply (keeps_preserves _ tables); [unfold present, on; by intros ?? ->|exact (query_tables _)]
  : preserves.
#[local] Hint Extern 0 (preserves (present _) (sql_select _)) =>
  apply (keeps_preserves _ tables); [unfold present, on; by intros ?? ->|exact (select_tables _)]
  : preserves.
#[local] Hint Extern 0 (preserves (present _) now) =>
  apply (keeps_preserves _ tables); [unfold present, on; by intros ?? ->|exact now_tables]
  : preserves.

Lemma present_keeps {A} K (m : io W A) : keeps records m → preserves (present K) m.
Proof. apply keeps_preserves. unfold present, on, records. by intros w w' ->. Qed.

#[local] Hint Extern 1 (preserves (present _) _) =>
  apply present_keeps, tagged_keeps_records; solve [auto with keeps] : preserves.
#[local] Hint Extern 2 (preserves (present _) _) =>
  apply present_keeps, keeps_records; solve [auto with keeps] : preserves.

(** Each statement of [m], by what it does to the rows. *)
Ltac by_rows :=
  unfold execute_, execute, sqlite, data, timestamp_now, crypto, db in *;
  repeat first [step_preserves | apply execute_grows; intros ?t ?a ?t' ?Hr].

Lemma present_insert K r : preserves (present K) (Queries.insert_record r).
Proof. unfold Queries.insert_record. by_rows. rewrite (insert_record_row _ _ _ _ Hr). set_solver. Qed.


Lemma present_update K r v : preserves (present K) (Database.update_record r v).
Proof.
  unfold Database.update_record. by_rows. unfold sql_update_record in Hr.
  repeat case_match; simplify_eq; cbn; set_solver.
Qed.

Lemma present_deleted K id d a : preserves (present K) (update_record_deleted_state id d a).
Proof.
  unfold update_record_deleted_state, execute_, execute, sql_alter_record. by_rows.
  repeat case_match; simplify_eq; cbn; set_solver.
Qed.

Lemma present_attach K id tags : preserves (present K) (attach_tags id tags).
Proof.
  induction tags as [|name tags IH]; cbn [attach_tags]; unfold db; repeat step_preserves;
    try done; apply present_keeps; [apply get_or_create_tag_keeps|apply attach_tag_keeps].
Qed.

#[local] Hint Resolve present_insert present_update present_deleted present_attach : preserves.
#[local] Hint Extern 1 (preserves (present _) (detach_all_tags_for_record _)) =>
  apply present_keeps, detach_all_keeps : preserves.

Lemma present_store K r existing : preserves (present K) (store_downloaded r existing).
Proof.
  unfold store_downloaded, mark_record_list_index_dirty, set_metadata, db.
  repeat step_preserves.
Qed.

Lemma present_rest {A} K (m : ior W A VaultError.t) : keeps tagged m → preserves (present K) m.
Proof. intros Hm. by apply present_keeps, tagged_keeps_records. Qed.

#[local] Hint Extern 1 (preserves (present _) (store_health _ _)) =>
  apply present_rest, keeps_store_health : preserves.
#[local] Hint Extern 1 (preserves (present _) (index_downloaded _ _ _ _)) =>
  apply present_rest, keeps_index : preserves.
#[local] Hint Resolve present_store keeps_private_metadata : preserves keeps.

Lemma keeps_check_payload v r : keeps tables (check_payload v r).
Proof. unfold check_payload, decrypt_stored, crypto. solve_keeps. Qed.
#[local] Hint Resolve keeps_check_payload : keeps.

Lemma present_apply K v c : preserves (present K) (apply_downloaded_cloud_record v c).
Proof.
  unfold apply_downloaded_cloud_record, mark_record_list_index_clean, set_metadata, db.
  repeat step_preserves.
Qed.

(** What is stored of a download is there. *)
Lemma stored_present r existing (w w' : W) :
  (∀ local, existing = Some local → uuid_to_string (st_id r) ∈ dom (records w)) →
  store_downloaded r existing w = (Ok (), w') →
  present {[uuid_to_string (st_id r)]} w'.
Proof.
  intros He Hs. destruct existing as [local|].
  - apply (present_store _ _ _ _ _ _ Hs). unfold present, on.
    apply singleton_subseteq_l. exact (He _ eq_refl).
  - unfold store_downloaded in Hs. apply ior_bind_ok in Hs as (u & w1 & _ & Hs).
    unfold db, Queries.insert_record, sqlite in Hs. apply io_map_err_ok, io_map_err_ok, execute_ok in Hs.
    apply insert_record_row in Hs. unfold present, on. rewrite Hs. set_solver.
Qed.

Lemma preserves_run {A} (P : W → Prop) (m : io W A) w r w' :
  preserves P m → m w = (r, w') → P w → P w'.
Proof. intros Hm. apply Hm. Qed.

Lemma applied_present v c (w : W) b w' :
  apply_downloaded_cloud_record v c w = (Ok b, w') →
  ∃ id, uuid_parse (cr_id c) = Some id ∧ present {[uuid_to_string id]} w'.
Proof.
  intros Ha. unfold apply_downloaded_cloud_record in Ha.
  apply ior_bind_ok in Ha as (id & ? & [Hid ->]%lift_ok & Ha).
  apply ior_bind_ok in Ha as (data & ? & [_ ->]%lift_ok & Ha).
  apply ior_bind_ok in Ha as (nonce & ? & [_ ->]%lift_ok & Ha).
  apply ior_bind_ok in Ha as (existing & w1 & E1 & Ha). unfold db in E1. apply io_map_err_ok in E1.
  apply io_bind_eq in Ha as (n & w2 & E2%now_tables & Ha).
  apply ior_bind_ok in Ha as (pm & w3 & E3%keeps_private_metadata & Ha).
  apply ior_bind_ok in Ha as (u & ? & [_ ->]%lift_ok & Ha).
  apply ior_bind_ok in Ha as (u1 & w4 & E4%keeps_check_payload & Ha).
  apply ior_bind_ok in Ha as ([] & w5 & E5 & Ha).
  exists id. split; [by destruct (uuid_parse (cr_id c)); simplify_eq/=|].
  apply stored_present in E5; cycle 1.
  { intros local ->. pose proof (keeps_get_record _ _ _ _ E1) as T.
    apply get_record_ok in E1 as (row & tags & Hrow & _).
    apply elem_of_dom. exists row. unfold records. by rewrite E4, E3, E2, T. }
  refine (preserves_run _ _ _ _ _ _ Ha E5).
  unfold mark_record_list_index_clean, set_metadata, db. repeat step_preserves.
Qed.

(** The rows of some downloads. *)
Definition holds (records : list CloudRecord) (w : W) : Prop :=
  Forall (λ c, ∃ id, uuid_parse (cr_id c) = Some id ∧ present {[uuid_to_string id]} w) records.

Lemma preserves_holds {A} l (m : io W A) :
  (∀ K, preserves (present K) m) → preserves (holds l) m.
Proof.
  intros Hm w r w' Hr Hl. eapply Forall_impl; [exact Hl|]. intros c (id & Hid & Hp).
  exists id. split; [done|]. by eapply Hm.
Qed.

Lemma present_apply_records K v l : preserves (present K) (apply_records v l).
Proof.
  induction l as [|c l IH]; cbn [apply_records]; [apply preserves_lift|].
  apply preserves_ior_bind; [apply present_apply|done].
Qed.

Lemma apply_records_holds v l : ∀ (w w' : W), apply_records v l w = (Ok (), w') → holds l w'.
Proof.
  induction l as [|c l IH]; intros w w' Hr; cbn [apply_records] in Hr; [constructor|].
  apply ior_bind_ok in Hr as (b & w1 & E1 & Hr). apply applied_present in E1.
  constructor; [|by eapply IH]. destruct E1 as (id & Hid & Hp). exists id. split; [done|].
  by eapply present_apply_records.
Qed.

Lemma keeps_apply_health l : keeps (W := W) tagged (apply_health l).
Proof. induction l as [|s l IH]; cbn [apply_health]; unfold db; solve_keeps; exact IH. Qed.

(** When everything could be stored, there is a row for each record. *)
Lemma persisted_holds v res (w w' : W) :
  persist_restored_cloud_data v res w = (Ok (), w') → holds (sy_downloaded_records res) w'.
Proof.
  intros Hp. unfold persist_restored_cloud_data in Hp.
  apply ior_bind_ok in Hp as ([] & w1 & E1%apply_records_holds & Hp).
  refine (preserves_run _ _ _ _ _ _ Hp E1). apply preserves_holds. intros K.
  apply present_rest. apply keeps_ior_bind; [apply keeps_apply_health|intros _].
  apply keeps_ior_bind; [unfold ior_map, db; by repeat case_match; solve_keeps|intros _].
  unfold ExecSync.store_metadata, set_metadata, db. solve_keeps.
Qed.

End presence.

(** *** The handler *)

Section handler.
Context {W Conn : Type} `{Libs} `{Runtime} `{UuidErrors} `{Lowercase} `{ConversionErrors}.
Context `{CryptoLibs} `{MigrationSql} `{SqliteLaws W} `{!RangeLaws W} `{Fs W}.
Context `{DirFs W} `{Connections W Conn} `{SymlinkMetadata W} `{Serde Json}.
Context `{Serde PayloadPlaintextDto.t} `{Serde CloudPrivateMetadata} `{Serde CloudMetadata}.
Context `{SyncService W} `{CloudPull W} `{TomlLib} `{DebugText} `{Opendal} `{SyncSlot W}.
Context `{Serde OAuth2Token}.
Import CloudExec.

Definition restored : CommandResult.t :=
  CommandResult.DatabaseRestored DatabaseRecoverySource.Cloud.

(** The steps of this run from the executor [x] in [w] up to its pull, which starts in [wp]
    and is for the vault [v]. *)
Definition reaches_pull (x : CommandExecutor) (pw : option string) (w : W)
    (v : VaultServiceImpl) (wp : W) : Prop :=
  ∃ p y w1 keystore w2 key w3 v0 g w4,
    ensure_cloud_restore_has_records w = (Ok (), w1) ∧
    RestoreMasterPassword.take pw x = (Some p, y) ∧
    let password := RestoreMasterPassword.password p in
    KeyStore.unlock (ex_vault_dir y) password w1 = (Ok keystore, w2) ∧
    KeyStore.db_page_key keystore w2 = (Ok key, w3) ∧
    Pending.begin_ (Conn := Conn) (ex_vault_dir y) key w3 = (Ok (v0, g), w4) ∧
    VaultServiceImpl.unlock v0 (ex_vault_dir y) password w4 = (Ok v, wp).

(** A restore that was committed: the vault of this run is open, everything that the pull of
    this run returned was stored in it, and so there is a row for each record pulled. *)
Definition filled (x : CommandExecutor) (pw : option string) (w : W)
    (x' : CommandExecutor) (w' : W) : Prop :=
  ∃ v wp res wq, reaches_pull x pw w v wp ∧
    ss_restore_pull_only wp = (Ok res, wq) ∧
    persist_restored_cloud_data v res wq = (Ok (), w') ∧
    ex_vault_runtime x' = VaultRuntime.Open v ∧ ex_vault_db_file_backed x' = true ∧
    holds (sy_downloaded_records res) w'.

Definition all_or_nothing (x : CommandExecutor) (pw : option string) (w : W)
    (r : CommandResult.t) (x' : CommandExecutor) (w' : W) : Prop :=
  (r = restored ∧ filled x pw w x' w') ∨ (r ≠ restored ∧ not_committed x x').

Lemma abandon_outcome x g pw r (w : W) r' x' w' :
  abandon x g pw r w = ((r', x'), w') → r' = r ∧ ex_vault_runtime x' = VaultRuntime.Locked.
Proof.
  unfold abandon, Pending.drop. intros Hg. apply io_bind_eq in Hg as (x1 & w1 & E & Hg).
  apply io_bind_eq in E as (u & w2 & _ & E). injection E as <- _. injection Hg as <- <- _.
  by destruct pw.
Qed.

Lemma fill_from_cloud_outcome x v g pw (w : W) r x' w' :
  fill_from_cloud x v g pw w = ((r, x'), w') →
  (r = restored ∧ x' = Pending.commit v x ∧ ∃ res wq, ss_restore_pull_only w = (Ok res, wq) ∧
     persist_restored_cloud_data v res wq = (Ok (), w')) ∨
  (r ≠ restored ∧ ex_vault_runtime x' = VaultRuntime.Locked).
Proof.
  unfold fill_from_cloud. intros Hf. apply io_bind_eq in Hf as ([res|e] & w1 & E1 & Hf).
  - apply io_bind_eq in Hf as ([[]|e] & w2 & E2 & Hf).
    + injection Hf as <- <- <-. left. split; [done|]. split; [done|]. unfold pull in E1.
      destruct (ex_sync x); [|done]. by exists res, w1.
    + apply abandon_outcome in Hf as [-> Hl]. by right.
  - apply abandon_outcome in Hf as [-> Hl]. by right.
Qed.

Lemma restore_with_service_outcome x pw (w : W) r x' w' :
  restore_with_service (Conn := Conn) x pw w = (Ok (r, x'), w') → all_or_nothing x pw w r x' w'.
Proof.
  assert (∀ a y, a ≠ restored → ex_vault_runtime y = ex_vault_runtime x →
    all_or_nothing x pw w a y w') as Hkeep by (intros; right; split; [done|by left]).
  unfold restore_with_service. intros Hr. apply io_bind_eq in Hr as ([u|e] & w1 & E1 & Hr); cycle 1.
  { injection Hr as <- <- <-. apply Hkeep; [|done]. unfold ensure_cloud_restore_has_records in E1.
    apply io_bind_eq in E1 as ([[m|]|?] & w2 & _ & E1); cbn in E1; unfold lift, io_ret in E1;
      try case_bool_decide; by simplify_eq. }
  destruct (RestoreMasterPassword.take pw x) as [[p|] y] eqn:Et; cycle 1.
  { injection Hr as <- <- <-. destruct pw; [done|]. apply Hkeep; [done|]. by injection Et as _ <-. }
  assert (ex_vault_runtime y = ex_vault_runtime x) as Hy by (destruct pw; by injection Et as _ <-).
  unfold restore_into_pending, on_fault in Hr.
  apply io_bind_eq in Hr as ([ks|[e|]] & w2 & E2 & Hr); [|by injection Hr as <- <- <-; apply Hkeep|done].
  apply io_bind_eq in Hr as ([key|e] & w3 & E3 & Hr); [|by injection Hr as <- <- <-; apply Hkeep].
  apply io_bind_eq in Hr as ([[v g]|e] & w4 & E4 & Hr); [|by injection Hr as <- <- <-; apply Hkeep].
  apply io_bind_eq in Hr as ([v'|[e|]] & w5 & E5 & Hr).
  - apply io_bind_eq in Hr as ([r1 x1] & w6 & E6 & Hr). injection Hr as -> -> ->.
    apply fill_from_cloud_outcome in E6 as [(-> & -> & res & wq & Hpull & Hst)|[Hne Hl]].
    + left. split; [done|]. exists v', w5, res, wq. destruct u.
      split_and!; [by exists p, y, w1, ks, w2, key, w3, v, g, w4|done..|].
      by eapply persisted_holds.
    + right. split; [done|by right].
  - apply io_bind_eq in Hr as ([r1 x1] & w6 & E6 & Hr). injection Hr as -> -> ->.
    apply abandon_outcome in E6 as [-> Hl]. right. split; [done|by right].
  - by apply io_bind_eq in Hr as (x1 & w6 & _ & Hr).
Qed.

Ltac refused H := injection H as <- <- _; by split; [|intros ? [= <-]].

(** Making a service for the restore leaves the vault alone. *)
Lemma ensure_keeps_vault (x : App W) (w : W) r x' w' :
  ensure_cloud_restore_sync_service (x, w) = (r, (x', w')) →
  ex_vault_runtime (ap_executor x') = ex_vault_runtime (ap_executor x) ∧
  ∀ failed, r = Err failed → failed ≠ restored.
Proof.
  unfold ensure_cloud_restore_sync_service, io_bind at 1, get_state.
  destruct (ex_sync (ap_executor x)); [by intros [= <- <- _]|]. intros Hr.
  apply io_bind_eq in Hr as (store & [x1 w1] & E1 & Hr).
  assert (ap_executor x1 = ap_executor x) as Hx.
  { unfold ConfigExec.get_token_store, io_bind, get_state, set_state, io_ret in E1.
    by destruct (ap_token_store x); simplify_eq/=. }
  apply io_bind_eq in Hr as (token & [x2 w2] & E2 & Hr). unfold world in E2.
  destruct (TokenStore.load _ _ _) in E2. simplify_eq. rewrite <- Hx.
  destruct token as [[token|]|e]; [|refused Hr..].
  destruct (tk_refresh_token token) as [rt|]; [|refused Hr].
  unfold configure_drive, io_bind at 1, get_state in Hr.
  destruct (create_cloud_storage _) as [storage|e]; [|refused Hr].
  apply io_bind_eq in Hr as (saved & [x3 w3] & E3 & Hr).
  apply io_bind_eq in E3 as (s & [x4 w4] & E4 & E3).
  apply save_settings_run in E4 as (s' & _ & _ & ->).
  destruct s as [[]|e]; cbn in E3; injection E3 as <- <- <-; cbn in Hr; [|refused Hr].
  unfold ConfigExec.set_sync, io_bind, world, set_state, lift, io_ret in Hr.
  destruct (sync_set _ _) in Hr. simplify_eq/=. by split.
Qed.

(** C25: A restore from the cloud is all or nothing.  When the handler reports that the database
    was restored, the executor has open the vault that this run created and unlocked,
    everything that the pull of this run returned was stored without an error, and each
    record of it has a row.  With any other report the executor keeps the vault it had or
    is locked; it never opens a vault that was filled in part. *)
Theorem cloud_restore_all_or_nothing pw (x : App W) (w : W) r x' w' :
  handle_restore_database_from_cloud (Conn := Conn) pw (x, w) = (Ok r, (x', w')) →
  (r = restored ∧ ∃ x1 w1, ensure_cloud_restore_sync_service (x, w) = (Ok (), (x1, w1)) ∧
     filled (ap_executor x1) pw w1 (ap_executor x') w') ∨
  (r ≠ restored ∧ not_committed (ap_executor x) (ap_executor x')).
Proof.
  unfold handle_restore_database_from_cloud. intros Hr.
  apply io_bind_eq in Hr as (e & [x1 w1] & E1 & Hr).
  pose proof (ensure_keeps_vault _ _ _ _ _ E1) as [Hv Hf].
  destruct e as [[]|failed].
  - unfold on_executor in Hr. destruct (restore_with_service _ _ _) as [[[r1 e1]|f] w2] eqn:E; [|done].
    injection Hr as <- <- <-. apply restore_with_service_outcome in E as [[-> Hfill]|[Hne Hn]].
    + left. split; [done|]. by exists x1, w1.
    + right. split; [done|]. unfold not_committed in *. by rewrite <- Hv.
  - injection Hr as <- <- <-. right. split; [by apply Hf|by left].
Qed.

(** A wrong password is lost.  When the cached password of the executor does not open the
    key file, the handler fails without putting it back, unlike after every later failure. *)
Lemma wrong_password_forgotten x pw (w w1 w2 : W) e :
  ex_verified_master_password x = Some pw →
  ensure_cloud_restore_has_records w = (Ok (), w1) →
  KeyStore.unlock (ex_vault_dir x) pw w1 = (Err (Fault.Failed e), w2) →
  ∃ r, restore_with_service (Conn := Conn) x None w
    = (Ok (r, x <| ex_verified_master_password := None |>), w2).
Proof.
  intros Hp He Hk. unfold restore_with_service. rewrite (io_bind_run _ _ _ _ _ He).
  unfold RestoreMasterPassword.take. rewrite Hp. cbn [fmap option_fmap option_map].
  unfold restore_into_pending, on_fault. eexists. by rewrite (io_bind_run _ _ _ _ _ Hk).
Qed.

End handler.
