(* ===== verification/SyncActor.v ===== *)
(** * The sync service (src/services/sync.rs)

    The front of the sync task: a request is a command in a channel, its answer the first
    fitting event of another one, waited for up to a deadline or until it is cancelled.

    The task runs besides the service.  What it does is cut into its rounds, the iterations
    of its loop, and a wait is given the turns that happen while it lasts: rounds that take
    a command, rounds that wake up for a retry, the deadline, the cancellation.  Rounds
    between two requests are the first turns of the next wait.  Both channels hold sixteen
    messages; a full one delays its sender, which leaves the order of the rounds and of the
    messages as it is, so the queues of the model have no bound.  The clipped [try_send] of
    the task is the operation of [System]. *)

From S2P Require Import Prelude Text Errors StateMachine Env Types CloudRecord CloudMetadata.
From S2P Require Import Storage Conflict Checkpoint Retry Pipeline Push SyncTask Executor.
From S2P Require Import ImportService CloudRestore.

(** In seconds *)
Definition SYNC_TIMEOUT : Z := 60.
Definition CONFLICT_TIMEOUT : Z := 30.
Definition PAUSE_TIMEOUT : Z := 30.
Definition RESUME_TIMEOUT : Z := 10.

Module Turn.
Inductive t : Set := Command | Timer | TimedOut | Cancelled.
End Turn.

(** The turns of a wait of so many seconds; one that ends without an answer and without
    [TimedOut] timed out as well. *)
Class Waiting (W : Type) : Type := turns : Z → io W (list Turn.t).

(** The channel of the commands, the task with the log of its events, how many of them were
    received, and whether the task has not ended. *)
Record SyncServiceImpl : Type := mkSyncServiceImpl {
  sv_commands : list SyncCommand.t;
  sv_task : SyncTask;
  sv_received : nat;
  sv_running : bool;
  sv_storage : CloudStorage;
}.

#[export] Instance eta_SyncServiceImpl : Eta SyncServiceImpl := λ s,
  mkSyncServiceImpl (sv_commands s) (sv_task s) (sv_received s) (sv_running s) (sv_storage s).

(** What the event channel holds. *)
Definition unread (s : SyncServiceImpl) : list SyncEvent.t :=
  drop (sv_received s) (tk_events (sv_task s)).

(** *** What the requests wait for *)

Definition is_sync_answer (e : SyncEvent.t) : bool :=
  match e with
  | SyncEvent.Completed _ _ _ _ _ _ _ | SyncEvent.Failed _ _ => true
  | _ => false
  end.

Definition is_conflict_resolved (e : SyncEvent.t) : bool :=
  match e with SyncEvent.ConflictResolved _ => true | _ => false end.

Definition is_all_resolved (e : SyncEvent.t) : bool :=
  match e with SyncEvent.AllConflictsResolved _ => true | _ => false end.

Definition is_metadata_answer (e : SyncEvent.t) : bool :=
  match e with SyncEvent.MetadataDownloaded _ | SyncEvent.Failed _ _ => true | _ => false end.

Definition is_push_answer (e : SyncEvent.t) : bool :=
  match e with SyncEvent.MetadataPushed | SyncEvent.Failed _ _ => true | _ => false end.

Definition is_paused (e : SyncEvent.t) : bool :=
  match e with SyncEvent.Paused => true | _ => false end.

Definition is_resumed (e : SyncEvent.t) : bool :=
  match e with SyncEvent.Resumed => true | _ => false end.

Definition is_shutdown_complete (e : SyncEvent.t) : bool :=
  match e with SyncEvent.ShutdownComplete => true | _ => false end.

(** [SyncError::ProviderError { provider: "sync", message }] *)
Definition sync_failed (message : string) : SyncError.t := SyncError.ProviderError "sync" message.

Module SyncServiceImpl.
Section s.
Context {W : Type} `{Libs} `{Operator W} `{System W} `{Runtime}.
Context `{Serde CloudMetadata} `{Serde CloudRecord} `{Serde ConflictPayload}.
Context `{Serde EncryptedRecordMetadata} `{Serde AadFields}.
Context `{Waiting W} `{CancelToken W}.

Local Abbreviation St := (SyncServiceImpl * W)%type.

Definition new (storage : CloudStorage) : SyncServiceImpl :=
  mkSyncServiceImpl [] (SyncTask.new storage (SyncStateMachine.new 5)) 0 true storage.

(** *** The channels *)

Definition send (name : string) (c : SyncCommand.t) : ior St () SyncError.t :=
  let* s := get_state in
  if sv_running s then
    let* _ := set_state (λ s, s <| sv_commands ::= λ l, l ++ [c] |>) in
    lift (Ok ())
  else lift (Err (sync_failed ("failed to send " +:+ name +:+ " command"))).

(** An iteration of the loop of the task *)
Definition round (i : SyncTask.input) : io St () := λ '(s, w),
  let '((go, t), w') := SyncTask.step i (sv_task s) w in
  ((), (s <| sv_task := t |> <| sv_running := go |>, w')).

Definition take_command : io St () :=
  let* s := get_state in
  match sv_commands s with
  | c :: commands =>
      let* _ := set_state (λ s, s <| sv_commands := commands |>) in
      round (SyncTask.Command c)
  | [] => io_ret ()
  end.

(** The first event that fits, with those before it dropped. *)
Definition receive (predicate : SyncEvent.t → bool) : io St (option SyncEvent.t) :=
  let* s := get_state in
  match list_find (λ e, predicate e = true) (unread s) with
  | Some (n, e) =>
      let* _ := set_state (λ s, s <| sv_received ::= λ k, k + S n |>) in
      io_ret (Some e)
  | None =>
      let* _ := set_state (λ s, s <| sv_received := length (tk_events (sv_task s)) |>) in
      io_ret None
  end.

Definition timed_out (timeout : Z) : SyncError.t :=
  SyncError.NetworkTimeout ("wait_for_event timed out after " +:+ pretty timeout +:+ "s").

(** [cancel] is the operation whose cancellation ends the wait. *)
Fixpoint wait (timeout : Z) (cancel : option string) (predicate : SyncEvent.t → bool)
    (l : list Turn.t) : ior St SyncEvent.t SyncError.t :=
  let* found := receive predicate in
  match found with
  | Some e => lift (Ok e)
  | None =>
      let* s := get_state in
      if negb (sv_running s) then lift (Err (sync_failed "event channel closed unexpectedly"))
      else
        match l with
        | [] | Turn.TimedOut :: _ => lift (Err (timed_out timeout))
        | Turn.Command :: l =>
            let* _ := take_command in
            wait timeout cancel predicate l
        | Turn.Timer :: l =>
            let* _ := round SyncTask.Timer in
            wait timeout cancel predicate l
        | Turn.Cancelled :: l =>
            match cancel with
            | Some operation => lift (Err (SyncError.Cancelled operation))
            | None => wait timeout cancel predicate l
            end
        end
  end.

Definition wait_for_event (timeout : Z) (predicate : SyncEvent.t → bool)
  : ior St SyncEvent.t SyncError.t :=
  let* l := world (turns timeout) in
  wait timeout None predicate l.

Definition wait_for_event_or_cancel (timeout : Z) (operation : string)
    (predicate : SyncEvent.t → bool) : ior St SyncEvent.t SyncError.t :=
  let* l := world (turns timeout) in
  wait timeout (Some operation) predicate l.

(** *** The requests

    An event that the predicate of a wait excludes is [unreachable!()] in the code. *)

Definition unreachable {A} : result A SyncError.t := Err (sync_failed "unreachable").

Definition sync_answer (e : SyncEvent.t) : result SyncResult SyncError.t :=
  match e with
  | SyncEvent.Completed report states deleted records uploaded conflicts metadata =>
      Ok (mkSyncResult report states deleted records uploaded conflicts metadata)
  | SyncEvent.Failed error _ => Err (sync_failed error)
  | _ => unreachable
  end.

Definition sync_with_cancel (vault_data : option SyncVaultData)
  : ior St SyncResult SyncError.t :=
  let* cancelled := world token_cancelled in
  if cancelled : bool then lift (Err (SyncError.Cancelled "sync"))
  else
    let! _ := send "TriggerSync" (SyncCommand.TriggerSync vault_data) in
    let! event := wait_for_event_or_cancel SYNC_TIMEOUT "sync" is_sync_answer in
    lift (sync_answer event).

Definition resolved_answer (record_id : string) (e : SyncEvent.t) : result () SyncError.t :=
  match e with
  | SyncEvent.ConflictResolved actual =>
      if bool_decide (actual = record_id) then Ok ()
      else Err (sync_failed ("record_id mismatch: expected " +:+ record_id +:+ ", got "
                               +:+ actual))
  | _ => unreachable
  end.

Definition resolve_conflict (record_id : string) (strategy : ResolutionStrategy.t)
  : ior St () SyncError.t :=
  let! _ := send "ResolveConflict" (SyncCommand.ResolveConflict record_id strategy) in
  let! event := wait_for_event CONFLICT_TIMEOUT is_conflict_resolved in
  lift (resolved_answer record_id event).

Definition all_resolved_answer (e : SyncEvent.t) : result nat SyncError.t :=
  match e with SyncEvent.AllConflictsResolved count => Ok count | _ => unreachable end.

Definition resolve_all_conflicts (strategy : ResolutionStrategy.t) : ior St nat SyncError.t :=
  let! _ := send "ResolveAllConflicts" (SyncCommand.ResolveAllConflicts strategy) in
  let! event := wait_for_event SYNC_TIMEOUT is_all_resolved in
  lift (all_resolved_answer event).

Definition metadata_answer (e : SyncEvent.t) : result (option CloudMetadata) SyncError.t :=
  match e with
  | SyncEvent.MetadataDownloaded m => Ok m
  | SyncEvent.Failed error _ => Err (sync_failed error)
  | _ => unreachable
  end.

Definition download_metadata : ior St (option CloudMetadata) SyncError.t :=
  let! _ := send "DownloadMetadata" SyncCommand.DownloadMetadata in
  let! event := wait_for_event SYNC_TIMEOUT is_metadata_answer in
  lift (metadata_answer event).

Definition push_answer (e : SyncEvent.t) : result () SyncError.t :=
  match e with
  | SyncEvent.MetadataPushed => Ok ()
  | SyncEvent.Failed error _ => Err (sync_failed error)
  | _ => unreachable
  end.

Definition push_metadata_atomic (metadata : CloudMetadata) (expected_version : Z)
  : ior St () SyncError.t :=
  let! _ := send "PushMetadataAtomic" (SyncCommand.PushMetadataAtomic metadata expected_version) in
  let! event := wait_for_event SYNC_TIMEOUT is_push_answer in
  lift (push_answer event).

Definition test_connection (s : SyncServiceImpl) : ior W (bool * string) SyncError.t :=
  let* r := check_connectivity (sv_storage s) in
  io_ret match r with
         | Ok _ => Ok (true, "OK")
         | Err e => Ok (false, SyncError.display e)
         end.

Definition pause : ior St () SyncError.t :=
  let! _ := send "Pause" SyncCommand.Pause in
  let! _ := wait_for_event PAUSE_TIMEOUT is_paused in
  lift (Ok ()).

Definition resume : ior St () SyncError.t :=
  let! _ := send "Resume" SyncCommand.Resume in
  let! _ := wait_for_event RESUME_TIMEOUT is_resumed in
  lift (Ok ()).

Definition restore_pull_only : ior St SyncResult SyncError.t :=
  let* s := get_state in
  world (Restore.restore_pull_only (sv_storage s)).

(** The task has ended once it reported so; joining it fails when it panicked. *)
Definition shutdown : ior St () SyncError.t :=
  let! _ := send "Shutdown" SyncCommand.Shutdown in
  let! _ := wait_for_event RESUME_TIMEOUT is_shutdown_complete in
  lift (Ok ()).

End s.
End SyncServiceImpl.

(** The trait of the executor, implemented. *)
#[export] Instance sync_service_impl {W} `{Libs} `{Operator W} `{System W} `{Runtime}
    `{Serde CloudMetadata} `{Serde CloudRecord} `{Serde ConflictPayload}
    `{Serde EncryptedRecordMetadata} `{Serde AadFields} `{Waiting W} `{CancelToken W}
  : SyncService (SyncServiceImpl * W) := {
  ss_sync := SyncServiceImpl.sync_with_cancel;
  ss_resolve_conflict := SyncServiceImpl.resolve_conflict;
  ss_resolve_all_conflicts := SyncServiceImpl.resolve_all_conflicts;
  ss_pause := SyncServiceImpl.pause;
  ss_resume := SyncServiceImpl.resume;
  ss_download_metadata := SyncServiceImpl.download_metadata;
  ss_push_metadata_atomic := SyncServiceImpl.push_metadata_atomic;
}.

(** ** Properties *)

Import SyncServiceImpl.

(** A service with nothing in its channels, over a task that runs. *)
Record at_rest (s : SyncServiceImpl) : Prop := {
  ar_running : sv_running s = true;
  ar_commands : sv_commands s = [];
  ar_received : sv_received s = length (tk_events (sv_task s));
  ar_task : task_inv (sv_task s);
}.

Section waits.
Context {W : Type} `{Libs} `{Operator W} `{System W} `{Runtime}.
Context `{Serde CloudMetadata} `{Serde CloudRecord} `{Serde ConflictPayload}.
Context `{Serde EncryptedRecordMetadata} `{Serde AadFields}.
Context `{Waiting W} `{CancelToken W}.

Lemma receive_found p s (w : W) l e :
  unread s = l ++ [e] → Forall (λ x, p x = false) l → p e = true →
  receive p (s, w) = (Some e, (s <| sv_received := (sv_received s + S (length l))%nat |>, w)).
Proof.
  intros Hu Hl He. unfold receive, get_state, set_state, io_bind, io_ret.
  assert (list_find (λ e, p e = true) (unread s) = Some (length l, e)) as ->; [|done].
  rewrite Hu. apply list_find_Some. split_and!; [|done|].
  - rewrite lookup_app_r, Nat.sub_diag by lia. done.
  - intros j y Hj Hlt. rewrite lookup_app_l in Hj by done.
    rewrite Forall_lookup in Hl. apply Hl in Hj. by rewrite Hj.
Qed.

Lemma receive_none p s (w : W) :
  Forall (λ x, p x = false) (unread s) →
  receive p (s, w) = (None, (s <| sv_received := length (tk_events (sv_task s)) |>, w)).
Proof.
  intros Hl. unfold receive, get_state, set_state, io_bind, io_ret.
  assert (list_find (λ e, p e = true) (unread s) = None) as ->; [|done].
  apply list_find_None. eapply Forall_impl; [exact Hl|]. intros e ->. done.
Qed.

Lemma wait_eq timeout cancel p l (x : SyncServiceImpl * W) :
  wait timeout cancel p l x =
  (let* found := receive p in
   match found with
   | Some e => lift (Ok e)
   | None =>
       let* s := get_state in
       if negb (sv_running s) then lift (Err (sync_failed "event channel closed unexpectedly"))
       else
         match l with
         | [] | Turn.TimedOut :: _ => lift (Err (timed_out timeout))
         | Turn.Command :: l =>
             let* _ := take_command in
             wait timeout cancel p l
         | Turn.Timer :: l =>
             let* _ := round SyncTask.Timer in
             wait timeout cancel p l
         | Turn.Cancelled :: l =>
             match cancel with
             | Some operation => lift (Err (SyncError.Cancelled operation))
             | None => wait timeout cancel p l
             end
         end
   end) x.
Proof. by destruct l. Qed.

Lemma unread_nil s : sv_received s = length (tk_events (sv_task s)) → unread s = [].
Proof. intros E. unfold unread. rewrite E. apply drop_ge. lia. Qed.

(** The round of the first command in the channel. *)
Lemma wait_round c cs timeout cancel p l s (w : W) go t' w' :
  sv_running s = true → sv_received s = length (tk_events (sv_task s)) →
  sv_commands s = c :: cs → SyncTask.step (SyncTask.Command c) (sv_task s) w = ((go, t'), w') →
  wait timeout cancel p (Turn.Command :: l) (s, w) =
  wait timeout cancel p l
    (mkSyncServiceImpl cs t' (sv_received s) go (sv_storage s), w').
Proof.
  intros Hr Hn Hc Hs. rewrite wait_eq. unfold io_bind at 1.
  rewrite receive_none by (by rewrite unread_nil).
  destruct s as [cmds t n ru st]. cbn in *. subst. cbn.
  unfold io_bind, take_command, get_state, set_state, round, io_bind. cbn. by rewrite Hs.
Qed.

(** A wait of which the first round answers. *)
Lemma wait_answered c cs timeout cancel p l s (w : W) go t' w' pre e :
  sv_running s = true → sv_received s = length (tk_events (sv_task s)) →
  sv_commands s = c :: cs → SyncTask.step (SyncTask.Command c) (sv_task s) w = ((go, t'), w') →
  tk_events t' = tk_events (sv_task s) ++ pre ++ [e] →
  Forall (λ x, p x = false) pre → p e = true →
  wait timeout cancel p (Turn.Command :: l) (s, w) =
  (Ok e, (mkSyncServiceImpl cs t' (length (tk_events t')) go (sv_storage s), w')).
Proof.
  intros Hr Hn Hc Hs Ht Hp He. rewrite (wait_round c cs _ _ _ _ _ _ _ _ _ Hr Hn Hc Hs).
  rewrite wait_eq. unfold io_bind at 1.
  rewrite (receive_found _ _ _ pre e);
    [|unfold unread; cbn; by rewrite Ht, Hn, drop_app_length|done|done].
  assert (length (tk_events t') = sv_received s + S (length pre))%nat as ->
    by (rewrite Ht, !length_app, Hn; cbn; lia).
  done.
Qed.

(** A wait of which the first round does not answer and the second turn is the deadline. *)
Lemma wait_unanswered c cs timeout p l s (w : W) t' w' pre :
  sv_running s = true → sv_received s = length (tk_events (sv_task s)) →
  sv_commands s = c :: cs → SyncTask.step (SyncTask.Command c) (sv_task s) w = ((true, t'), w') →
  tk_events t' = tk_events (sv_task s) ++ pre → Forall (λ x, p x = false) pre →
  wait timeout None p (Turn.Command :: Turn.TimedOut :: l) (s, w) =
  (Err (timed_out timeout),
   (mkSyncServiceImpl cs t' (length (tk_events t')) true (sv_storage s), w')).
Proof.
  intros Hr Hn Hc Hs Ht Hp. rewrite (wait_round c cs _ _ _ _ _ _ _ _ _ Hr Hn Hc Hs).
  rewrite wait_eq. unfold io_bind at 1.
  rewrite receive_none by (unfold unread; cbn; by rewrite Ht, Hn, drop_app_length).
  done.
Qed.

End waits.

(** *** What the rounds log *)

Section rounds.
Context {W : Type} `{L : Libs} `{SystemLaws W} `{HRt : Runtime}.
Context `{HSm : Serde CloudMetadata} `{HSr : Serde CloudRecord} `{Serde ConflictPayload}.
Context `{Serde EncryptedRecordMetadata} `{Serde AadFields}.

(** The text of the failure of a cycle names the error. *)
Lemma handle_error_events e t (w : W) t' w' :
  running t → SyncTask.handle_error e t w = (t', w') →
  ∃ pre suffix st, tk_events t' =
    tk_events t ++ pre ++ [SyncEvent.Failed (SyncError.display e +:+ suffix) st] ∧
    Forall (λ x, is_sync_answer x = false) pre.
Proof.
  intros Hrun He. destruct (handle_error_spec _ _ _ _ _ Hrun He) as (_ & Ha' & _).
  destruct t as [[st att mx le] sto timer pa nr vd pc ev pk].
  destruct Hrun as [Hs Hr Hp Ha]. unfold SyncTask.current_state in Hs. cbn in *. subst.
  revert He. unfold SyncTask.handle_error. cbn [tk_backoff_timer]. rewrite error_trigger_eq.
  destruct (BackoffTimer.should_retry timer e) eqn:Esr.
  - rewrite andb_false_r. cbn -[SyncTask.schedule_retry BackoffTimer.should_retry].
    cbn [tk_backoff_timer] in *. unfold io_bind, io_ret. rewrite Esr.
    rewrite bool_decide_eq_true_2 by done. cbn [orb].
    destruct (SyncTask.schedule_retry _ w) as [t1 w1] eqn:E.
    apply schedule_retry_spec in E as (timer' & now & w2 & d & Hp' & <- & Hd & ->); [|done].
    cbn. intros [= <- <-]. cbn. exists [SyncEvent.StateChanged SyncState.Pulling SyncState.Error], EmptyString, SyncState.Error.
    split; [|by repeat constructor]. rewrite string_app_nil_r. by rewrite <- (assoc_L (++)).
  - rewrite andb_true_r. destruct (transient e) eqn:Et;
      cbn -[SyncTask.schedule_retry BackoffTimer.should_retry]; unfold io_bind, io_ret;
      cbn [tk_backoff_timer]; rewrite ?Esr; intros [= <- <-]; cbn.
    + eexists [], _, _. by split.
    + exists [SyncEvent.StateChanged SyncState.Pulling SyncState.Error], EmptyString,
        SyncState.Error.
      split; [|by repeat constructor]. rewrite string_app_nil_r. by rewrite <- (assoc_L (++)).
Qed.

End rounds.

(** *** Requests and what they promise *)

Inductive request : Type → Type :=
| Sync (vault_data : option SyncVaultData) : request SyncResult
| ResolveAll (strategy : ResolutionStrategy.t) : request nat
| Download : request (option CloudMetadata)
| Push (metadata : CloudMetadata) (expected_version : Z) : request ()
| PauseSync : request ()
| ResumeSync : request ().

Definition command {A} (r : request A) : SyncCommand.t :=
  match r with
  | Sync data => SyncCommand.TriggerSync data
  | ResolveAll strategy => SyncCommand.ResolveAllConflicts strategy
  | Download => SyncCommand.DownloadMetadata
  | Push m v => SyncCommand.PushMetadataAtomic m v
  | PauseSync => SyncCommand.Pause
  | ResumeSync => SyncCommand.Resume
  end.

Definition time_limit {A} (r : request A) : Z :=
  match r with
  | PauseSync => PAUSE_TIMEOUT
  | ResumeSync => RESUME_TIMEOUT
  | _ => SYNC_TIMEOUT
  end.

(** An answer that names the error of the work. *)
Definition agrees {A} (work answer : result A SyncError.t) : Prop :=
  match work, answer with
  | Ok a, Ok b => a = b
  | Err e, Err e' => ∃ suffix, e' = sync_failed (SyncError.display e +:+ suffix)
  | _, _ => False
  end.

Section requests.
Context {W : Type} `{L : Libs} `{SystemLaws W} `{HRt : Runtime}.
Context `{HSm : Serde CloudMetadata} `{HSr : Serde CloudRecord} `{Serde ConflictPayload}.
Context `{Serde EncryptedRecordMetadata} `{Serde AadFields}.
Context `{Waiting W} `{CancelToken W}.

Local Abbreviation St := (SyncServiceImpl * W)%type.

Definition call {A} (r : request A) : ior St A SyncError.t :=
  match r with
  | Sync data => sync_with_cancel data
  | ResolveAll strategy => resolve_all_conflicts strategy
  | Download => download_metadata
  | Push m v => push_metadata_atomic m v
  | PauseSync => pause
  | ResumeSync => resume
  end.

(** The work itself, without a task between: the pipeline over the task's storage and the
    given data, the operations of the storage, the resolutions. *)
Definition cycle (t : SyncTask) : ior W SyncResult SyncError.t :=
  let! _ := check_connectivity (tk_storage t) in
  let* start := monotonic_now in
  let* (r, c) := execute (SyncTask.cycle_context t) in
  let o := SyncTask.outcome_of r c in
  let* now := monotonic_now in
  let ms := wrap64 (Z.quot (now - start) nanos_per_milli) in
  let finished uploaded downloaded conflicts :=
    lift (Ok (mkSyncResult
      (mkSyncReport uploaded downloaded conflicts (po_failed_count o) ms)
      (po_downloaded_health_states o) (po_downloaded_health_deleted o)
      (po_downloaded_records o) (po_uploaded_ids o) (po_conflict_data o)
      (po_final_metadata o))) in
  let up := SyncTask.len_u32 (po_uploaded_ids o) in
  let down := SyncTask.len_u32 (po_downloaded_records o) in
  match r with
  | PipelineResult.Completed => finished up down 0
  | PipelineResult.NoChanges => finished 0 0 0
  | PipelineResult.ConflictsDetected ids => finished up down (SyncTask.len_u32 ids)
  | PipelineResult.Error e => lift (Err e)
  end%Z.

Definition work {A} (r : request A) (t : SyncTask) : ior W A SyncError.t :=
  match r with
  | Sync data => cycle (t <| tk_vault_data := data |>)
  | ResolveAll strategy =>
      let items := tk_pending_conflicts t in
      let* (n, _) := SyncTask.resolve_items (t <| tk_pending_conflicts := [] |>) strategy
        (zip (ConflictManager.resolve_all_batch items strategy) items) in
      lift (Ok n)
  | Download => Storage.download_metadata (tk_storage t)
  | Push m v => Storage.push_metadata_atomic (tk_storage t) m v
  | PauseSync | ResumeSync => lift (Ok ())
  end.

(** A task that takes the request: a sync needs an idle one that is not paused, and the two
    switches need room for their answer. *)
Definition accepts {A} (r : request A) (t : SyncTask) (w : W) : Prop :=
  match r with
  | Sync _ => tk_paused t = false ∧ SyncTask.current_state t = SyncState.Idle
  | PauseSync | ResumeSync => (try_send w).1 = true
  | _ => True
  end.

End requests.

Section answers.
Context {W : Type} `{L : Libs} `{SystemLaws W} `{HRt : Runtime}.
Context `{HSm : Serde CloudMetadata} `{HSr : Serde CloudRecord} `{Serde ConflictPayload}.
Context `{Serde EncryptedRecordMetadata} `{Serde AadFields}.
Context `{Waiting W} `{CancelToken W}.

(** A round that logs some events of which only the last one fits, with the answer. *)
Definition logs {A} (p : SyncEvent.t → bool) (answer : SyncEvent.t → result A SyncError.t)
    (r : result A SyncError.t) (t t' : SyncTask) : Prop :=
  ∃ pre e, tk_events t' = tk_events t ++ pre ++ [e] ∧ Forall (λ x, p x = false) pre ∧
    p e = true ∧ agrees r (answer e).

Lemma logs_one {A} p answer (r : result A SyncError.t) e t t' :
  tk_events t' = tk_events t ++ [e] → p e = true → agrees r (answer e) →
  logs p answer r t t'.
Proof. intros E Hp Ha. exists [], e. by split_and!. Qed.

Lemma agrees_failed {A} e : agrees (A := A) (Err e) (Err (sync_failed (SyncError.display e))).
Proof. exists EmptyString. by rewrite string_app_nil_r. Qed.

Lemma handle_error_logs e t (w : W) t' w' :
  running t → SyncTask.handle_error e t w = (t', w') → logs is_sync_answer sync_answer (Err e) t t'.
Proof.
  intros Hr (pre & suffix & st & E & Hp)%handle_error_events; [|done].
  eexists pre, _. split_and!; [exact E|done..|by exists suffix].
Qed.

Lemma finish_cycle_logs report o t :
  logs is_sync_answer sync_answer
    (Ok (mkSyncResult report (po_downloaded_health_states o) (po_downloaded_health_deleted o)
      (po_downloaded_records o) (po_uploaded_ids o) (po_conflict_data o) (po_final_metadata o)))
    t (SyncTask.finish_cycle report o t).
Proof.
  unfold SyncTask.finish_cycle. eexists [_], _. cbn. split_and!; [by rewrite <- (assoc_L (++))|..].
  1: by constructor. all: done.
Qed.

Lemma logs_same {A} p answer (r : result A SyncError.t) t0 t t' :
  tk_events t0 = tk_events t → logs p answer r t t' → logs p answer r t0 t'.
Proof. intros E (pre & e & Hl). exists pre, e. by rewrite E. Qed.

(** A cycle logs the outcome of the pipeline, or its error. *)
Lemma run_cycle_logs t (w : W) t' w' :
  running t → SyncTask.run_cycle t w = (t', w') →
  logs is_sync_answer sync_answer (cycle t w).1 t t'.
Proof.
  intros Hrun. unfold SyncTask.run_cycle, cycle, ior_bind, io_bind, lift, io_ret.
  destruct (check_connectivity _ w) as [[u|e] w1]; [|by apply handle_error_logs].
  destruct (monotonic_now w1) as [start w2].
  destruct (SyncTask.execute_pipeline t w2) as [[o t1] w3] eqn:E.
  pose proof (execute_pipeline_running _ _ _ _ _ Hrun E) as Hrun1.
  unfold SyncTask.execute_pipeline, io_bind, io_ret in E.
  destruct (execute _ w2) as [[r c] w4]. injection E as <- E <-.
  assert (tk_events t = tk_events t1) as Hev by (subst; by case_match). clear E.
  unfold SyncTask.handle_pipeline_result, io_bind, io_ret.
  destruct (monotonic_now w4) as [now w5]. cbn [po_result SyncTask.outcome_of].
  intros Hp. apply (logs_same _ _ _ _ _ _ Hev). revert Hp.
  destruct r; [intros [= <- <-]; apply finish_cycle_logs..|by apply handle_error_logs].
Qed.

Lemma trigger_sync_logs data t (w : W) t' w' :
  task_inv t → tk_paused t = false → SyncTask.current_state t = SyncState.Idle →
  SyncTask.handle_command (SyncCommand.TriggerSync data) t w = (t', w') →
  logs is_sync_answer sync_answer (work (Sync data) t w).1 t t'.
Proof.
  intros [Hp Ha Hs] Hpa Hst. rewrite Hst in Hs.
  destruct t as [[st att mx le] sto timer pa nr vd pc ev pk].
  unfold SyncTask.current_state in Hst. cbn in *. subst.
  unfold SyncTask.handle_trigger_sync, SyncTask.start_sync. cbn -[SyncTask.run_cycle].
  intros (pre & e & E & Hpre & He & Hans)%run_cycle_logs; [|by split].
  exists (SyncEvent.StateChanged SyncState.Idle SyncState.Pulling :: pre), e.
  split_and!; [|by constructor|done|exact Hans]. cbn in E. rewrite E. by rewrite <- (assoc_L (++)).
Qed.

End answers.

Section requests_answered.
Context {W : Type} `{L : Libs} `{SystemLaws W} `{HRt : Runtime}.
Context `{HSm : Serde CloudMetadata} `{HSr : Serde CloudRecord} `{Serde ConflictPayload}.
Context `{Serde EncryptedRecordMetadata} `{Serde AadFields}.
Context `{Waiting W} `{CancelToken W}.

Lemma send_run name c s (w : W) :
  sv_running s = true →
  send name c (s, w) = (Ok (), (s <| sv_commands ::= λ l, l ++ [c] |>, w)).
Proof. intros Hr. unfold send, get_state, io_bind. by rewrite Hr. Qed.

(** Sending, waiting and reading the answer, when the round of the oldest command answers. *)
Lemma exchange {A} name c c1 cs timeout cancel p answer (r : result A SyncError.t) s (w : W) l w0
    go t' w' :
  sv_running s = true → sv_received s = length (tk_events (sv_task s)) →
  sv_commands s ++ [c] = c1 :: cs → turns timeout w = (Turn.Command :: l, w0) →
  SyncTask.step (SyncTask.Command c1) (sv_task s) w0 = ((go, t'), w') →
  logs p answer r (sv_task s) t' →
  ∃ reply,
    (let! _ := send name c in
     let! e := (let* l := world (turns timeout) in wait timeout cancel p l) in
     lift (answer e)) (s, w) =
      (reply, (mkSyncServiceImpl cs t' (length (tk_events t')) go (sv_storage s), w')) ∧
    agrees r reply.
Proof.
  intros Hr Hn Hc Ht Hs (pre & e & E & Hp & He & Ha). exists (answer e). split; [|done].
  rewrite (ior_bind_run _ _ _ _ _ (send_run _ _ _ _ Hr)).
  destruct s as [cmds t n ru st]. cbn in *.
  erewrite ior_bind_run; [reflexivity|]. unfold world, io_bind. rewrite Ht.
  exact (wait_answered c1 cs _ _ _ _ (mkSyncServiceImpl (cmds ++ [c]) t n ru st)
    _ _ _ _ pre e Hr Hn Hc Hs E Hp He).
Qed.

Lemma step_command c t (w : W) t' w' :
  task_inv t → c ≠ SyncCommand.Shutdown → SyncTask.handle_command c t w = (t', w') →
  SyncTask.step (SyncTask.Command c) t w = ((true, t'), w') ∧ task_inv t'.
Proof.
  intros Hi Hc Hh.
  assert (SyncTask.step (SyncTask.Command c) t w = ((negb (tk_panicked t'), t'), w')) as Hs.
  { unfold SyncTask.step, io_bind, io_ret. rewrite Hh. by destruct c. }
  pose proof (step_inv _ _ _ _ _ _ Hi Hs) as Hi'. by rewrite Hs, (inv_alive _ Hi').
Qed.

Definition fitting {A} (r : request A) : SyncEvent.t → bool :=
  match r with
  | Sync _ => is_sync_answer
  | ResolveAll _ => is_all_resolved
  | Download => is_metadata_answer
  | Push _ _ => is_push_answer
  | PauseSync => is_paused
  | ResumeSync => is_resumed
  end.

Definition answer {A} (r : request A) : SyncEvent.t → result A SyncError.t :=
  match r with
  | Sync _ => sync_answer
  | ResolveAll _ => all_resolved_answer
  | Download => metadata_answer
  | Push _ _ => push_answer
  | PauseSync | ResumeSync => λ _, Ok ()
  end.

(** The round of a request logs its answer. *)
Lemma command_logs {A} (r : request A) t (w : W) t' w' :
  task_inv t → accepts r t w → SyncTask.handle_command (command r) t w = (t', w') →
  logs (fitting r) (answer r) (work r t w).1 t t'.
Proof.
  intros Hi Ha. destruct r; cbn [command fitting answer].
  - destruct Ha as [Hp Hs]. by apply trigger_sync_logs.
  - cbn [SyncTask.handle_command work]. unfold SyncTask.handle_resolve_all, io_bind, io_ret, lift.
    destruct (Nat.eqb_spec (length (tk_pending_conflicts t)) 0) as [Hl|Hl].
    + apply length_zero_iff_nil in Hl. rewrite Hl. intros [= <- <-].
      by eapply logs_one.
    + destruct (SyncTask.resolve_items _ _ _ w) as [[n kept] w1]. intros [= <- <-].
      by eapply logs_one.
  - cbn [SyncTask.handle_command work]. unfold SyncTask.handle_download_metadata, io_bind, io_ret.
    destruct (Storage.download_metadata _ w) as [[m|e] w1]; intros [= <- <-];
      eapply logs_one; try done. apply agrees_failed.
  - cbn [SyncTask.handle_command work].
    unfold SyncTask.handle_push_metadata_atomic, io_bind, io_ret.
    destruct (Storage.push_metadata_atomic _ _ _ w) as [[u|e] w1]; intros [= <- <-];
      eapply logs_one; try done; [by destruct u|apply agrees_failed].
  - cbn [SyncTask.handle_command work accepts] in *.
    unfold SyncTask.handle_pause, SyncTask.send_if_room, io_bind, io_ret.
    destruct (try_send w) as [room w1]. cbn in Ha. subst. intros [= <- <-]. by eapply logs_one.
  - cbn [SyncTask.handle_command work accepts] in *.
    unfold SyncTask.handle_resume, SyncTask.send_if_room, io_bind, io_ret.
    destruct (try_send w) as [room w1]. cbn in Ha. subst. intros [= <- <-]. by eapply logs_one.
Qed.

(** C26: Requests are answered.  A service at rest, of which the task gets to the request
    before anything else happens and accepts it, answers with the outcome of the work
    itself, done in the environment of that moment: the pipeline for a sync, the operation
    of the storage for the metadata, the number of resolved conflicts.  An error becomes a
    provider error that names it.  Afterwards the task is what the command makes of it, and
    the service is at rest again, so that the next answer belongs to the next request. *)
Theorem request_answered {A} (r : request A) s (w : W) l w0 t' w' :
  at_rest s → token_cancelled w = (false, w) →
  turns (time_limit r) w = (Turn.Command :: l, w0) → accepts r (sv_task s) w0 →
  SyncTask.handle_command (command r) (sv_task s) w0 = (t', w') →
  ∃ reply s', call r (s, w) = (reply, (s', w')) ∧
    agrees (work r (sv_task s) w0).1 reply ∧ at_rest s' ∧ sv_task s' = t'.
Proof.
  intros [Hr Hc Hn Hi] Htok Ht Ha Hh.
  pose proof (command_logs r _ _ _ _ Hi Ha Hh) as Hl.
  assert (command r ≠ SyncCommand.Shutdown) as Hne by by destruct r.
  destruct (step_command _ _ _ _ _ Hi Hne Hh) as [Hs Hi'].
  assert (sv_commands s ++ [command r] = [command r]) as Hq by by rewrite Hc.
  destruct (exchange
    (match r with Sync _ => "TriggerSync" | ResolveAll _ => "ResolveAllConflicts"
     | Download => "DownloadMetadata" | Push _ _ => "PushMetadataAtomic"
     | PauseSync => "Pause" | ResumeSync => "Resume" end)
    _ _ _ _ (match r with Sync _ => Some "sync" | _ => None end) _ _ _ _ _ _ _ _ _ _
    Hr Hn Hq Ht Hs Hl) as (reply & E & Hag).
  exists reply, (mkSyncServiceImpl [] t' (length (tk_events t')) true (sv_storage s)).
  split; [|split; [exact Hag|split; [by apply Build_at_rest|reflexivity]]].
  destruct r; cbn [call]; try exact E.
  unfold sync_with_cancel, io_bind at 1, world at 1. rewrite Htok. exact E.
Qed.

End requests_answered.

(** *** Requests that are not answered in time *)

Section late.
Context {W : Type} `{L : Libs} `{SystemLaws W} `{HRt : Runtime}.
Context `{HSm : Serde CloudMetadata} `{HSr : Serde CloudRecord} `{Serde ConflictPayload}.
Context `{Serde EncryptedRecordMetadata} `{Serde AadFields}.
Context `{Waiting W} `{CancelToken W}.

(** A sync that is cancelled before the task took its command leaves the command behind. *)
Lemma cancelled_sync data s (w : W) l w0 :
  at_rest s → token_cancelled w = (false, w) →
  turns SYNC_TIMEOUT w = (Turn.Cancelled :: l, w0) →
  sync_with_cancel data (s, w) =
    (Err (SyncError.Cancelled "sync"),
     (s <| sv_commands := [SyncCommand.TriggerSync data] |>, w0)).
Proof.
  intros [Hr Hc Hn Hi] Htok Ht. unfold sync_with_cancel, io_bind at 1, world at 1. rewrite Htok.
  rewrite (ior_bind_run _ _ _ _ _ (send_run _ _ _ _ Hr)). apply ior_bind_fail.
  unfold wait_for_event_or_cancel, io_bind, world. rewrite Ht. rewrite wait_eq.
  unfold io_bind at 1. rewrite receive_none by (by rewrite unread_nil).
  destruct s as [cmds t n ru st]. cbn in *. by subst.
Qed.

(** The next sync then gets the answer to it, and leaves its own command behind: from then
    on every sync gets the answer to the one before. *)
Lemma late_answer data data' s (w : W) l w0 t' w' :
  sv_running s = true → sv_received s = length (tk_events (sv_task s)) → task_inv (sv_task s) →
  sv_commands s = [SyncCommand.TriggerSync data] → token_cancelled w = (false, w) →
  turns SYNC_TIMEOUT w = (Turn.Command :: l, w0) → accepts (Sync data) (sv_task s) w0 →
  SyncTask.handle_command (SyncCommand.TriggerSync data) (sv_task s) w0 = (t', w') →
  ∃ reply s', sync_with_cancel data' (s, w) = (reply, (s', w')) ∧
    agrees (work (Sync data) (sv_task s) w0).1 reply ∧
    sv_running s' = true ∧ sv_received s' = length (tk_events (sv_task s')) ∧
    task_inv (sv_task s') ∧ sv_commands s' = [SyncCommand.TriggerSync data'].
Proof.
  intros Hr Hn Hi Hc Htok Ht Ha Hh.
  pose proof (command_logs (Sync data) _ _ _ _ Hi Ha Hh) as Hl.
  destruct (step_command (SyncCommand.TriggerSync data) _ _ _ _ Hi ltac:(done) Hh) as [Hs Hi'].
  assert (sv_commands s ++ [SyncCommand.TriggerSync data'] =
    SyncCommand.TriggerSync data :: [SyncCommand.TriggerSync data']) as Hq by by rewrite Hc.
  destruct (exchange "TriggerSync" _ _ _ _ (Some "sync") _ _ _ _ _ _ _ _ _ _
    Hr Hn Hq Ht Hs Hl) as (reply & E & Hag).
  exists reply, (mkSyncServiceImpl [SyncCommand.TriggerSync data'] t' (length (tk_events t')) true
    (sv_storage s)).
  split; [|by split_and!].
  unfold sync_with_cancel, io_bind at 1, world at 1. rewrite Htok. exact E.
Qed.

(** The failure of a resolution does not reach its caller: only a resolved conflict ends the
    wait, so the answer is that the time is over. *)
Lemma failed_resolution_times_out id strategy s (w : W) l w0 t' w' error state :
  at_rest s → turns CONFLICT_TIMEOUT w = (Turn.Command :: Turn.TimedOut :: l, w0) →
  SyncTask.handle_command (SyncCommand.ResolveConflict id strategy) (sv_task s) w0 = (t', w') →
  tk_events t' = tk_events (sv_task s) ++ [SyncEvent.Failed error state] →
  ∃ s', resolve_conflict id strategy (s, w) = (Err (timed_out CONFLICT_TIMEOUT), (s', w')) ∧
    at_rest s'.
Proof.
  intros [Hr Hc Hn Hi] Ht Hh He.
  destruct (step_command (SyncCommand.ResolveConflict id strategy) _ _ _ _ Hi ltac:(done) Hh)
    as [Hs Hi'].
  exists (mkSyncServiceImpl [] t' (length (tk_events t')) true (sv_storage s)).
  split; [|by apply Build_at_rest].
  unfold resolve_conflict. rewrite (ior_bind_run _ _ _ _ _ (send_run _ _ _ _ Hr)).
  apply ior_bind_fail. unfold wait_for_event, io_bind, world. rewrite Ht.
  destruct s as [cmds t n ru st]. cbn in Hr, Hc, Hn, Hs, He. subst cmds.
  apply (wait_unanswered (SyncCommand.ResolveConflict id strategy) [] _ _ _
    (mkSyncServiceImpl [SyncCommand.ResolveConflict id strategy] t n ru st) _ _ _
    [SyncEvent.Failed error state]); [done|exact Hn|done|exact Hs|exact He|by constructor].
Qed.

(** After a shutdown there is no task, and every request fails at once. *)
Lemma shutdown_ends s (w : W) l w0 :
  at_rest s → turns RESUME_TIMEOUT w = (Turn.Command :: l, w0) →
  ∃ s', shutdown (s, w) = (Ok (), (s', w0)) ∧
    ∀ name c (w1 : W), send name c (s', w1) =
      (Err (sync_failed ("failed to send " +:+ name +:+ " command")), (s', w1)).
Proof.
  intros [Hr Hc Hn Hi] Ht.
  set (t' := SyncTask.handle_shutdown (sv_task s)).
  exists (mkSyncServiceImpl [] t' (length (tk_events t')) false (sv_storage s)).
  split; [|done]. unfold shutdown.
  rewrite (ior_bind_run _ _ _ _ _ (send_run _ _ _ _ Hr)).
  assert (SyncTask.step (SyncTask.Command SyncCommand.Shutdown) (sv_task s) w0 = ((false, t'), w0))
    as Hs by done.
  erewrite ior_bind_run; [reflexivity|]. unfold wait_for_event, io_bind, world. rewrite Ht.
  destruct s as [cmds t n ru st]. cbn in Hr, Hc, Hn, Hs, t'. subst cmds.
  eapply (wait_answered SyncCommand.Shutdown [] _ _ _ _
    (mkSyncServiceImpl [SyncCommand.Shutdown] t n ru st) _ _ _ _
    [SyncEvent.StateChanged (SyncTask.current_state t)
       (SyncTask.current_state (SyncTask.transition SyncTrigger.Shutdown t).2)]
    SyncEvent.ShutdownComplete); [done|exact Hn|done|exact Hs|..].
  - unfold t', SyncTask.handle_shutdown.
    destruct (SyncTask.transition SyncTrigger.Shutdown t) as [r u] eqn:E. cbn.
    assert (tk_events u = tk_events t) as ->; [|by rewrite <- (assoc_L (++))].
    revert E. unfold SyncTask.transition.
    destruct (SyncStateMachine.transition _ _). by intros [= _ <-].
  - by constructor.
  - done.
Qed.

End late.
