(* ===== verification/Recovery.v ===== *)
(** * Recovery words (src/types/recovery_words.rs, src/crypto/bip39.rs, and the handlers of
    src/executor/vault.rs that read them)

    The 24 words from which the secret key of a vault is derived.  Word lists, checksums
    and seeds are those of the crate [bip39]. *)

From Stdlib Require Import Ascii.
From S2P Require Import Prelude Text Errors Env Types Storage Crypto Keystore Database Queries.
From S2P Require Import Vault Records Pipeline Files Formats Backup.

(** ** The words (recovery_words.rs) *)

Module RecoveryWordsError.
Inductive t : Set := InvalidWordCount (expected actual : nat) | EmptyWord (index : nat).
End RecoveryWordsError.

Definition WORD_COUNT : nat := 24.

Record RecoveryWords : Set := mkRecoveryWords { rw_inner : list string }.

Module RecoveryWords.

Definition new (words : list string) : result RecoveryWords RecoveryWordsError.t :=
  if negb (length words =? WORD_COUNT)%nat
  then Err (RecoveryWordsError.InvalidWordCount WORD_COUNT (length words))
  else
    match list_find (λ w, w = "") words with
    | Some (index, _) => Err (RecoveryWordsError.EmptyWord index)
    | None => Ok (mkRecoveryWords words)
    end.

Definition len (w : RecoveryWords) : nat := length (rw_inner w).
Definition is_empty (w : RecoveryWords) : bool := bool_decide (rw_inner w = []).
Definition word (w : RecoveryWords) (index : nat) : option string := rw_inner w !! index.

(** The words of a phrase, in their order. *)
Definition phrase (w : RecoveryWords) : string := String.concat " " (rw_inner w).

End RecoveryWords.

(** ** Passkeys (bip39.rs)

    [Mnemonic] is [bip39::Mnemonic]. *)
Class Bip39 (W Mnemonic : Type) : Type := {
  mnemonic_generate_in : MnemonicLanguage.t → nat → ior W Mnemonic string;
  mnemonic_parse_in : MnemonicLanguage.t → string → result Mnemonic string;
  mnemonic_words : Mnemonic → list string;
  mnemonic_to_seed : Mnemonic → string → bytes;
  find_word : MnemonicLanguage.t → string → option nat;
}.

Record Passkey (Mnemonic : Type) : Type := mkPasskey { pk_mnemonic : Mnemonic }.
Arguments mkPasskey {_}.
Arguments pk_mnemonic {_}.

Definition display_name (l : MnemonicLanguage.t) : string :=
  match l with
  | MnemonicLanguage.English => "English"
  | MnemonicLanguage.ChineseSimplified => "中文(简体)"
  end.

Definition all_languages : list MnemonicLanguage.t :=
  [MnemonicLanguage.English; MnemonicLanguage.ChineseSimplified].

Module Passkey.
Section s.
Context {W Mnemonic : Type} `{Bip39 W Mnemonic}.

Definition generate (word_count : nat) (language : MnemonicLanguage.t)
  : ior W (Passkey Mnemonic) string :=
  if negb (word_count =? 24)%nat then lift (Err "Only 24-word mnemonics are supported")
  else
    let! mnemonic := mnemonic_generate_in language word_count in
    lift (Ok (mkPasskey mnemonic)).

Definition from_recovery_words (words : RecoveryWords) (language : MnemonicLanguage.t)
  : result (Passkey Mnemonic) string :=
  let? mnemonic := mnemonic_parse_in language (RecoveryWords.phrase words) in
  Ok (mkPasskey mnemonic).

Definition to_recovery_words (p : Passkey Mnemonic) : result RecoveryWords RecoveryWordsError.t :=
  RecoveryWords.new (mnemonic_words (pk_mnemonic p)).

(** The 64 bytes of the seed; it never fails. *)
Definition to_seed (p : Passkey Mnemonic) (passphrase : option string) : result bytes string :=
  Ok (mnemonic_to_seed (pk_mnemonic p) (default "" passphrase)).

(** [PasskeySeed::to_secret_key] *)
Definition to_secret_key (seed : bytes) : bytes := String.substring 0 32 seed.

Definition is_valid_word (word : string) (language : MnemonicLanguage.t) : bool :=
  bool_decide (is_Some (find_word language word)).

(** Both hashes are compared in constant time. *)
Definition verify_recovery_key `{Libs} (input expected : string) : bool :=
  bool_decide (sha256 input = sha256 expected).

(** ** Reading words in either language (executor/vault.rs) *)

Fixpoint is_ascii_text (s : string) : bool :=
  match s with
  | EmptyString => true
  | String c s => (byte_of c <? 128)%Z && is_ascii_text s
  end.

(** English is tried first, then Chinese; the error is the one of the likelier language. *)
Definition reconstruct_passkey (words : RecoveryWords) : result (Passkey Mnemonic) string :=
  match from_recovery_words words MnemonicLanguage.English with
  | Ok passkey => Ok passkey
  | Err english_error =>
      match from_recovery_words words MnemonicLanguage.ChineseSimplified with
      | Ok passkey => Ok passkey
      | Err chinese_error =>
          if forallb is_ascii_text (rw_inner words) then Err english_error
          else Err chinese_error
      end
  end.

End s.
End Passkey.

(** [error[start..end].parse::<usize>()] of the text between the marker and the bracket. *)
Definition parse_usize (s : string) : option Z :=
  let digits := match s with String "+"%char rest => rest | _ => s end in
  if bool_decide (digits = "") then None
  else decimal 0 digits ≫= λ z, if (z <=? u64_max)%Z then Some z else None.

Definition parse_bip39_word_index (error : string) : option Z :=
  let marker := "(word " in
  start ← String.index 0 marker error;
  let rest := slice_from (start + String.length marker) error in
  stop ← String.index 0 ")" rest;
  parse_usize (slice 0 stop rest).

Definition format_invalid_recovery_key_error (error : string) : string :=
  match parse_bip39_word_index error with
  | Some index =>
      "Invalid recovery key: word " +:+ pretty (index + 1)%Z
        +:+ " is not in the recovery word list."
  | None =>
      if contains_lower "checksum" error
      then "Invalid recovery key: the words are valid, but the checksum does not match. Check the word order."
      else "Invalid recovery key. Check that all 24 words are correct and in order."
  end.

(** A seed has 64 bytes, of which the secret key is the first half. *)
Class Bip39Laws (W Mnemonic : Type) `{Bip39 W Mnemonic} : Prop :=
  seed_length (m : Mnemonic) (p : string) : String.length (mnemonic_to_seed m p) = 64.

Lemma prefix_length n : ∀ s, n ≤ String.length s → String.length (String.substring 0 n s) = n.
Proof. induction n as [|n IH]; intros [|c s] Hs; cbn in *; [done..|lia|]. f_equal. apply IH. lia. Qed.
