(* ===== verification/VaultExec.v ===== *)
(** * The executor: unlocking, locking and making vaults (src/executor/vault.rs)

    The handlers that open the vault with its password or its recovery words, lock it,
    change the password, make a new vault and rebuild the key file of a recovered one.
    Each returns its result and the executor that it leaves. *)

From S2P Require Import Prelude Text Errors Env Types CloudRecord CloudMetadata Storage Checkpoint.
From S2P Require Import Pipeline SyncTask Crypto Keystore Payload Database Queries Vault Records.
From S2P Require Import Password Health Files Formats ImportService Listing Executor Rotation.
From S2P Require Import Opening ExecSync HealthExec Recovery.

(** [artifact_existed_before] of the key file, the database and its two companions. *)
Record Artifacts : Set := mkArtifacts {
  at_key : bool;
  at_db : bool;
  at_wal : bool;
  at_shm : bool;
}.

Definition vault_error (code : ErrorCode.t) (key text : string) : CommandResult.t :=
  CommandResult.Error code ErrorContext.new key text.

Definition key_derivation (key text : string) : CommandResult.t :=
  vault_error ErrorCode.CryptoKeyDerivationFailed key text.

Definition vault_db_error_result (e : VaultDbError.t) : CommandResult.t :=
  let io := vault_error ErrorCode.VaultDatabaseIoError in
  match e with
  | VaultDbError.PlaintextDatabaseUnsupported =>
      io "error.plaintext_database_unsupported"
        "Plaintext SQLite vault databases are not supported. This vault cannot be opened with SQLCipher."
  | VaultDbError.WrongDbPageKey =>
      vault_error ErrorCode.CryptoEncryptionFailed "error.wrong_db_key"
        "The database page key does not match. The vault database may be from a different master password or may be corrupt."
  | VaultDbError.CorruptDatabase m =>
      io "error.corrupt_database" ("The vault database is corrupt: " +:+ m)
  | VaultDbError.UnsupportedSchemaVersion current supported =>
      io "error.unsupported_schema"
        ("Database schema version " +:+ pretty current
           +:+ " is newer than this build supports (" +:+ pretty supported +:+ ")")
  | VaultDbError.DbOpenIo m => io "error.db_open_io" ("Failed to open vault database: " +:+ m)
  | VaultDbError.DbMigrationFailed m =>
      io "error.db_migration_failed" ("Database migration failed: " +:+ m)
  | VaultDbError.DbRollbackFailed m =>
      io "error.db_rollback_failed" ("Database rollback failed: " +:+ m)
  end.

Module VaultExec.
Section s.
Context {W Conn Mnemonic : Type} `{Libs} `{UuidErrors} `{Lowercase} `{ConversionErrors}.
Context `{CryptoLibs} `{Secure W} `{Fs W} `{DirFs W} `{System W} `{Sqlite W} `{Serde Json}.
Context `{Connections W Conn} `{MigrationSql} `{SymlinkMetadata W} `{Bip39 W Mnemonic}.
Context `{DateTimeParse} `{Serde RotationTrigger.t} `{Serde RotationCheckpoint}.
Context `{Serde RotationConfig} `{SyncService W}.

(** What a handler does to its executor; it can panic where the key store does. *)
Definition handler : Type := ior W (CommandResult.t * CommandExecutor) Fault.t.

Definition done (r : CommandResult.t) (x : CommandExecutor) : handler := lift (Ok (r, x)).

(** ** Files of a failed initialisation *)

Definition artifact_existed_before (p : string) : io W bool := fs_symlink_exists p.

Definition existing_artifacts (vault_dir : string) : io W Artifacts :=
  let* key := artifact_existed_before (KeyStore.file_path vault_dir) in
  let* db := artifact_existed_before (vault_db_path vault_dir) in
  let* wal := artifact_existed_before (path_join vault_dir "vault.db-wal") in
  let* shm := artifact_existed_before (path_join vault_dir "vault.db-shm") in
  io_ret (mkArtifacts key db wal shm).

(** The failures of the removal are only logged. *)
Definition remove_initialized_artifact (p : string) : io W () :=
  let* _ := fs_remove_file p in io_ret ().

Definition remove_unless (existed : bool) (p : string) : io W () :=
  if existed then io_ret () else remove_initialized_artifact p.

Definition cleanup_failed_new_vault_initialization (vault_dir : string) (before : Artifacts)
  : io W () :=
  let* _ := remove_unless (at_key before) (KeyStore.file_path vault_dir) in
  if at_db before then io_ret ()
  else
    let* _ := remove_unless false (vault_db_path vault_dir) in
    let* _ := remove_unless (at_wal before) (path_join vault_dir "vault.db-wal") in
    remove_unless (at_shm before) (path_join vault_dir "vault.db-shm").

(** ** Helpers *)

Definition write_system_audit (x : CommandExecutor) (operation : AuditOperation.t)
    (detail : option string) : io W () :=
  match VaultRuntime.open_vault (ex_vault_runtime x) with
  | Ok _ =>
      let* _ := VaultService.db (insert_audit_entry operation None None detail) in io_ret ()
  | Err _ => io_ret ()
  end.

Definition derive_db_page_key_for_pending (vault_dir master_password : string)
  : ior W bytes Fault.t :=
  let! keystore := KeyStore.unlock vault_dir master_password in
  io_map_err Fault.Failed (KeyStore.db_page_key keystore).

Definition opened (v : VaultServiceImpl) (x : CommandExecutor) : CommandExecutor :=
  x <| ex_vault_runtime := VaultRuntime.Open v |> <| ex_vault_db_file_backed := true |>.

(** ** Unlocking *)

(** The end of both ways to unlock. *)
Definition with_database (x : CommandExecutor) (key : bytes)
    (k : Conn → handler) : handler :=
  let* conn := open_sqlcipher_vault (Conn := Conn) (ex_vault_dir x) key in
  match conn with
  | Err e => done (vault_db_error_result e) x
  | Ok conn => k conn
  end.

Definition handle_unlock (security : SecurityConfig) (x : CommandExecutor)
    (master_password : string) : handler :=
  on_fault (KeyStore.unlock (ex_vault_dir x) master_password)
    (λ _, done (CommandResult.VaultUnlockFailed None) x)
    (λ keystore,
      let* key := KeyStore.db_page_key keystore in
      match key with
      | Err e =>
          done (key_derivation "error.db_key_derivation_failed"
                  ("Failed to derive database page key: " +:+ e)) x
      | Ok key =>
          with_database x key (λ conn,
            let* v := VaultServiceImpl.new_unlocked conn
                        (CryptoManager.from_unlocked_keystore keystore) in
            let x := opened v x in
            let* _ := write_system_audit x AuditOperation.VaultUnlock None in
            let* (_, x) := HealthExec.schedule_health_check_after_unlock security x in
            done CommandResult.VaultUnlocked x)
      end).

(** [match e { Err(e) => return CommandResult::Error { .. } }] of a key derivation. *)
Definition or_failed {A} (r : ior W A string) (key text : string) (x : CommandExecutor)
    (k : A → handler) : handler :=
  let* a := r in
  match a with
  | Err e => done (key_derivation key (text +:+ e)) x
  | Ok a => k a
  end.

(** After a recovery an interrupted rotation is resumed, or else a new one is made; whether
    that works does not matter. *)
Definition rotate_after_recovery (x : CommandExecutor) : io W () :=
  let* rotation_result := handle_resume_rotation x in
  match rotation_result with
  | CommandResult.RotationTriggerChecked _ _ =>
      let* _ := handle_trigger_rotation x in io_ret ()
  | _ => io_ret ()
  end.

Definition derived (r : result bytes CryptoError.t) : ior W bytes string :=
  lift (map_err CryptoError.display r).

Definition handle_unlock_with_recovery_key (security : SecurityConfig) (x : CommandExecutor)
    (words : RecoveryWords) : handler :=
  match Passkey.reconstruct_passkey (W := W) (Mnemonic := Mnemonic) words with
  | Err e => done (key_derivation "error.invalid_recovery_key" ("Invalid recovery key: " +:+ e)) x
  | Ok passkey =>
      or_failed (lift (Passkey.to_seed passkey None)) "error.seed_derivation_failed"
        "Failed to derive seed from recovery key: " x (λ seed,
      let sk_bytes := Passkey.to_secret_key seed in
      or_failed (derived (derive_kek sk_bytes)) "error.kek_derivation_failed"
        "Failed to derive key encryption key: " x (λ kek_bytes,
      or_failed (derived (derive_db_page_key kek_bytes)) "error.db_key_derivation_failed"
        "Failed to derive database page key: " x (λ k,
      or_failed (locked_key k) "error.db_key_derivation_failed"
        "Failed to wrap database page key: " x (λ db_page_key,
      with_database x db_page_key (λ conn,
      or_failed (locked_key sk_bytes) "error.secret_key_failed"
        "Failed to wrap secret key: " x (λ secret_key,
      or_failed (locked_key kek_bytes) "error.kek_failed"
        "Failed to wrap key encryption key: " x (λ kek,
        let* device_id := new_v4 in
        let ks := mkKeyStore (Some secret_key) (Some kek) 1 (uuid_to_string device_id)
                    MnemonicLanguage.English in
        let* v := VaultServiceImpl.new_unlocked conn (CryptoManager.from_unlocked_keystore ks) in
        let x := opened v x in
        let* _ := write_system_audit x AuditOperation.VaultUnlock (Some "recovery_key") in
        let* _ := rotate_after_recovery x in
        let* (_, x) := HealthExec.schedule_health_check_after_unlock security x in
        done CommandResult.RecoveryKeyUnlocked x)))))))
  end.

Definition handle_lock (x : CommandExecutor) : handler :=
  let* _ := write_system_audit x AuditOperation.VaultLock None in
  done CommandResult.VaultLocked
    (x <| ex_verified_master_password := None |>
       <| ex_vault_runtime := VaultRuntime.Locked |>
       <| ex_vault_db_file_backed := false |>).

(** ** The master password *)

Definition handle_verify_master_password (x : CommandExecutor) (password : string) : handler :=
  on_fault (KeyStore.unlock (ex_vault_dir x) password)
    (λ _, done (vault_error ErrorCode.ExecutorMasterPasswordRequired
                  "error.password_verification_failed" "Master password verification failed.") x)
    (λ _, done CommandResult.MasterPasswordVerified
            (x <| ex_verified_master_password := Some password |>)).

(** The password that is given, or else the verified one, which is taken. *)
Definition take_password (password : option string) (x : CommandExecutor)
  : option string * CommandExecutor :=
  match password with
  | Some pw => (Some pw, x)
  | None => (ex_verified_master_password x, x <| ex_verified_master_password := None |>)
  end.

(** An open vault is unlocked again with the new password; whether that works does not
    matter. *)
Definition unlock_again (x : CommandExecutor) (new_password : string) : handler :=
  match ex_vault_runtime x with
  | VaultRuntime.Open v =>
      if VaultServiceImpl.is_unlocked v then
        on_fault (VaultServiceImpl.unlock v (ex_vault_dir x) new_password)
          (λ _, done CommandResult.MasterPasswordChanged x)
          (λ v, done CommandResult.MasterPasswordChanged
                  (x <| ex_vault_runtime := VaultRuntime.Open v |>))
      else done CommandResult.MasterPasswordChanged x
  | _ => done CommandResult.MasterPasswordChanged x
  end.

Definition handle_change_master_password (x : CommandExecutor)
    (current_password : option string) (new_password : string) : handler :=
  let '(current, x) := take_password current_password x in
  match current with
  | None =>
      done (vault_error ErrorCode.ExecutorMasterPasswordRequired
              "error.password_verification_failed"
              "Current master password not available. Please verify first.") x
  | Some current =>
      on_fault (KeyStore.change_cmk (ex_vault_dir x) current new_password)
        (λ e, done (vault_error ErrorCode.CryptoEncryptionFailed "error.change_password_failed"
                      ("Failed to change master password: " +:+ e)) x)
        (λ _,
          let* _ := write_system_audit x AuditOperation.MasterPasswordChange None in
          unlock_again x new_password)
  end.

(** ** A new vault *)

(** Step 1: the words that are given, or new ones in the configured language. *)
Definition obtain_passkey (language : MnemonicLanguage.t) (recovery_words : option RecoveryWords)
  : ior W (Passkey Mnemonic) CommandResult.t :=
  match recovery_words with
  | Some words =>
      lift (map_err (λ e, vault_error ErrorCode.CryptoDecryptionFailed
                            "error.passkey_reconstruction_failed"
                            ("Failed to reconstruct recovery key: " +:+ e))
              (Passkey.reconstruct_passkey (W := W) words))
  | None =>
      io_map_err (λ e, vault_error ErrorCode.CryptoEncryptionFailed
                         "error.passkey_generation_failed"
                         ("Failed to generate recovery key: " +:+ e))
        (Passkey.generate 24 language)
  end.

(** Step 4, with the key of the database. *)
Definition commit_new_vault (x : CommandExecutor) (before : Artifacts) (key : bytes)
    (master_password : string) : handler :=
  let* pending := Pending.begin_ (Conn := Conn) (ex_vault_dir x) key in
  match pending with
  | Err e =>
      let* _ := cleanup_failed_new_vault_initialization (ex_vault_dir x) before in
      done (vault_error ErrorCode.VaultDatabaseIoError "error.db_reopen_failed"
              ("Failed to create vault database: " +:+ VaultDbError.display e)) x
  | Ok (v, guard) =>
      let* unlocked := VaultServiceImpl.unlock v (ex_vault_dir x) master_password in
      match unlocked with
      | Ok v => done CommandResult.VaultInitialized (Pending.commit v x)
      | Err f =>
          let* x := Pending.drop guard x in
          match f with
          | Fault.Failed e =>
              let* _ := cleanup_failed_new_vault_initialization (ex_vault_dir x) before in
              done (vault_error ErrorCode.CryptoEncryptionFailed "error.unlock_failed"
                      ("Failed to unlock vault: "
                         +:+ VaultError.display (VaultError.CryptoError e))) x
          | Fault.Panic => lift (Err Fault.Panic)
          end
      end
  end.

Definition keystore_init_failed (what e : string) : CommandResult.t :=
  vault_error ErrorCode.CryptoEncryptionFailed "error.keystore_init_failed" (what +:+ e).

(** Steps 3 and 3a: the key file, and the key that it gives with the password. *)
Definition initialize_with_key (x : CommandExecutor) (sk_bytes : bytes)
    (language : MnemonicLanguage.t) (master_password : string) : handler :=
  let vault_path := ex_vault_dir x in
  let* before := existing_artifacts vault_path in
  let* initialized := KeyStore.initialize vault_path sk_bytes master_password
                        Argon2Params.medium language in
  match initialized with
  | Err e => done (keystore_init_failed "Failed to initialize keystore: " e) x
  | Ok _ =>
      on_fault (derive_db_page_key_for_pending vault_path master_password)
        (λ e,
          let* _ := cleanup_failed_new_vault_initialization vault_path before in
          done (key_derivation "error.db_key_derivation_failed"
                  ("Failed to derive database page key after initialization: " +:+ e)) x)
        (λ key, commit_new_vault x before key master_password)
  end.

Definition handle_initialize_vault (config_language : string) (x : CommandExecutor)
    (master_password : string) (recovery_words : option RecoveryWords) : handler :=
  let language := MnemonicLanguage.from_config_language config_language in
  let* passkey := obtain_passkey language recovery_words in
  match passkey with
  | Err failed => done failed x
  | Ok passkey =>
      or_failed (lift (Passkey.to_seed passkey None)) "error.seed_derivation_failed"
        "Failed to derive seed: " x (λ seed,
          initialize_with_key x (Passkey.to_secret_key seed) language master_password)
  end.

(** ** Recovery of the key file *)

Definition invalid_recovery_key (text : string) : CommandResult.t :=
  key_derivation "error.invalid_recovery_key" text.

Definition handle_validate_recovery_words (words : RecoveryWords) : CommandResult.t :=
  if negb (RecoveryWords.len words =? 24)%nat
  then invalid_recovery_key "Recovery key must contain 24 words."
  else
    match Passkey.reconstruct_passkey (W := W) (Mnemonic := Mnemonic) words with
    | Ok _ => CommandResult.RecoveryWordsValidated
    | Err e => invalid_recovery_key (format_invalid_recovery_key_error e)
    end.

Definition handle_rebuild_keyfile_from_recovery (x : CommandExecutor) (master_password : string)
    (recovery_words : RecoveryWords) : handler :=
  match Passkey.reconstruct_passkey (W := W) (Mnemonic := Mnemonic) recovery_words with
  | Err e => done (invalid_recovery_key (format_invalid_recovery_key_error e)) x
  | Ok passkey =>
      or_failed (lift (Passkey.to_seed passkey None)) "error.seed_derivation_failed"
        "Failed to derive seed: " x (λ seed,
          let* initialized := KeyStore.initialize (ex_vault_dir x) (Passkey.to_secret_key seed)
            master_password Argon2Params.medium MnemonicLanguage.English in
          match initialized with
          | Ok _ => done CommandResult.KeyFileRebuilt
                      (x <| ex_verified_master_password := Some master_password |>)
          | Err e => done (keystore_init_failed "Failed to rebuild key file: " e) x
          end)
  end.

Definition validation_failed (reason : string) (x : CommandExecutor) : handler :=
  done (CommandResult.DatabaseValidationFailed reason) x.

Definition handle_validate_restored_database (x : CommandExecutor) : handler :=
  let* exists_ := fs_exists (vault_db_path (ex_vault_dir x)) in
  if negb exists_ then validation_failed "vault.db was not found." x
  else
    let '(password, x) := take_password None x in
    match password with
    | None => validation_failed "Master password not available for validation." x
    | Some master_password =>
        on_fault (derive_db_page_key_for_pending (ex_vault_dir x) master_password)
          (λ e, validation_failed
                  ("Failed to derive database page key for validation: " +:+ e) x)
          (λ key,
            let* conn := open_sqlcipher_vault (Conn := Conn) (ex_vault_dir x) key in
            match conn with
            | Ok _ => done (CommandResult.DatabaseRestored DatabaseRecoverySource.Okb) x
            | Err e =>
                validation_failed ("Restored database does not match current key: "
                                     +:+ VaultDbError.display e) x
            end)
    end.

End s.
End VaultExec.

(** ** Properties *)

Section properties.
Context {W Conn Mnemonic : Type} `{LibLaws} `{UuidErrors} `{Lowercase} `{ConversionErrors}.
Context `{CryptoLibLaws} `{FsLaws W} `{!DirFs W} `{!Secure W} `{!System W} `{!DirFsLaws W}.
Context `{!SecureLaws W} `{!Sqlite W} `{!SqlFiles W} `{!FsRemoval W} `{!Serde Json} `{!JsonLaws}.
Context `{!Connections W Conn} `{!MigrationSql} `{!SymlinkMetadata W} `{!ConnFiles W Conn}.
Context `{!Bip39 W Mnemonic} `{!Bip39Laws W Mnemonic}.
Context `{!DateTimeParse} `{!Serde RotationTrigger.t} `{!Serde RotationCheckpoint}.
Context `{!Serde RotationConfig} `{!SyncService W}.
Import VaultExec.

(** The secret key that the words stand for. *)
Definition words_key (words : RecoveryWords) (sk : bytes) : Prop :=
  ∃ passkey seed, Passkey.reconstruct_passkey (W := W) (Mnemonic := Mnemonic) words = Ok passkey ∧
    Passkey.to_seed passkey None = Ok seed ∧ sk = Passkey.to_secret_key seed.

(** The vault that is open has these keys. *)
Definition open_with (x : CommandExecutor) (sk kek : bytes) : Prop :=
  ∃ v ks, ex_vault_runtime x = VaultRuntime.Open v ∧ cm_keystore (vs_crypto v) = Some ks ∧
    ks_sk ks = Some sk ∧ ks_kek ks = Some kek.

Lemma keeps_locked_key key : keeps fs_files (locked_key key).
Proof. unfold locked_key. solve_keeps. Qed.
#[local] Hint Resolve keeps_locked_key : keeps.
#[local] Hint Extern 0 (keeps fs_files (KeyStore.open_document _ _)) =>
  exact (keeps_open_document _ _) : keeps.

Lemma keeps_unlocking path cmk : keeps fs_files (KeyStore.unlock path cmk).
Proof. unfold KeyStore.unlock, KeyStore.faulty. solve_keeps. Qed.

Lemma keeps_page_key ks : keeps fs_files (KeyStore.db_page_key ks).
Proof. unfold KeyStore.db_page_key. solve_keeps. Qed.
#[local] Hint Resolve keeps_unlocking keeps_page_key : keeps.

Lemma keeps_derive_pending path cmk : keeps fs_files (derive_db_page_key_for_pending path cmk).
Proof. unfold derive_db_page_key_for_pending. solve_keeps. Qed.

Lemma keeps_existing paths : keeps fs_files (Pending.existing (W := W) paths).
Proof. induction paths; cbn [Pending.existing]; solve_keeps. Qed.

#[local] Hint Resolve keeps_existing : keeps.

Lemma keeps_run_pending (c : Conn) q l :
  ¬ database_file q → keeps (file_at q) (run_pending c l).
Proof. intros Hq. induction l; cbn [run_pending]; solve_keeps. Qed.
#[local] Hint Resolve keeps_run_pending : keeps.

Lemma keeps_migrate (c : Conn) q : ¬ database_file q → keeps (file_at q) (migrate_and_validate c).
Proof.
  intros Hq. unfold migrate_and_validate, read_current_version, run_migrations, run_quick_check,
    run_foreign_key_check, read_current_version. solve_keeps.
Qed.
#[local] Hint Resolve keeps_migrate : keeps.

Lemma keeps_open_keyed path key b q :
  ¬ database_file q →
  keeps (file_at q) (open_keyed_connection (Conn := Conn) (vault_db_path path) key b).
Proof. intros Hq. unfold open_keyed_connection, apply_key, apply_pragmas. solve_keeps. Qed.
#[local] Hint Resolve keeps_open_keyed : keeps.

Lemma keeps_begin path key q :
  ¬ database_file q → keeps (file_at q) (Pending.begin_ (Conn := Conn) path key).
Proof.
  intros Hq.
  unfold Pending.begin_, create_sqlcipher_vault, VaultServiceImpl.new, Database.get_metadata, sqlite.
  solve_keeps.
Qed.

(** *** The same vault by password and by words *)

Lemma medium_u32 : u32_params Argon2Params.medium.
Proof. repeat split; by vm_compute. Qed.

Lemma secret_key_length words sk : words_key words sk → String.length sk = 32.
Proof.
  intros (p & seed & _ & [= <-] & ->). unfold Passkey.to_secret_key.
  pose proof (seed_length (pk_mnemonic p) "") as Hs. revert Hs. cbn.
  generalize (mnemonic_to_seed (W := W) (pk_mnemonic p) ""). intros s Hs.
  apply prefix_length. lia.
Qed.

Lemma or_failed_ok {A} (r : ior W A string) key text x k (w : W) x' res w' :
  or_failed r key text x k w = (Ok (res, x'), w') →
  (∃ a w1, r w = (Ok a, w1) ∧ k a w1 = (Ok (res, x'), w')) ∨
  (∃ e, res = key_derivation key (text +:+ e)).
Proof.
  unfold or_failed. intros (r1 & w1 & E & Hr)%io_bind_eq. destruct r1 as [a|e]; [left; eauto|].
  right. exists e. by injection Hr as <- _ _.
Qed.

(** The end of an initialisation that succeeds. *)
Lemma commit_keys x before key pw (w : W) x' w' content sk lang kek :
  opens content pw sk lang → fs_files w !! KeyStore.file_path (ex_vault_dir x) = Some content →
  derive_kek sk = Ok kek →
  commit_new_vault (Conn := Conn) x before key pw w = (Ok (CommandResult.VaultInitialized, x'), w') →
  open_with x' sk kek ∧ ex_vault_dir x' = ex_vault_dir x ∧
  fs_files w' !! KeyStore.file_path (ex_vault_dir x) = Some content.
Proof.
  intros Ho Hf Hk Hc. unfold commit_new_vault in Hc.
  apply io_bind_eq in Hc as ([[v guard]|e] & w1 & E1 & Hc);
    apply (keeps_begin _ _ _ (key_file_no_database (ex_vault_dir x))) in E1.
  2: { apply io_bind_eq in Hc as (u & w2 & _ & Hc). discriminate. }
  apply io_bind_eq in Hc as ([v'|f] & w2 & E2 & Hc).
  2: { apply io_bind_eq in Hc as (x2 & w3 & _ & Hc). destruct f as [e|]; [|discriminate].
       apply io_bind_eq in Hc as (u & w4 & _ & Hc). discriminate. }
  injection Hc as <- <-. unfold VaultServiceImpl.unlock, CryptoManager.unlock in E2.
  apply ior_bind_ok in E2 as (m & w3 & E3 & E2). injection E2 as <- <-.
  apply ior_bind_ok in E3 as (ks & w4 & E4 & E3). injection E3 as <- <-.
  unfold file_at in E1. rewrite <- E1 in Hf. apply keeps_unlocking in E4 as Hw.
  eapply unlock_opens in E4 as [(e & ? & _)|(ks' & d & [= <-] & Hs & Hkek & _)]; [done| |done..].
  split_and!; [|done|by rewrite Hw]. eexists _, ks. by split_and!.
Qed.

Lemma initialize_keys x sk lang pw (w : W) x' w' :
  String.length sk = 32 →
  initialize_with_key (Conn := Conn) x sk lang pw w
    = (Ok (CommandResult.VaultInitialized, x'), w') →
  ∃ kek content, derive_kek sk = Ok kek ∧ open_with x' sk kek ∧
    ex_vault_dir x' = ex_vault_dir x ∧
    fs_files w' !! KeyStore.file_path (ex_vault_dir x) = Some content ∧
    opens content pw sk (MnemonicLanguage.to_keystore_value lang).
Proof.
  intros Hsk Hi. unfold initialize_with_key in Hi.
  apply io_bind_eq in Hi as (before & w1 & _ & Hi).
  apply io_bind_eq in Hi as ([ks|e] & w2 & E2 & Hi); [|discriminate].
  apply initialize_ok in E2 as (kek & content & _ & _ & Hk & Hf & Ho); [|apply medium_u32|done].
  unfold on_fault in Hi. apply io_bind_eq in Hi as ([key|f] & w3 & E3 & Hi).
  2: { destruct f as [e|]; [|discriminate]. by apply io_bind_eq in Hi as (u & w4 & _ & [=]). }
  apply keeps_derive_pending in E3. rewrite <- E3 in Hf.
  eapply commit_keys in Hi as (Hx & Hd & Hf'); [|done..]. exists kek, content. by split_and!.
Qed.

Lemma schedule_runtime security x (w : W) b x' w' :
  HealthExec.schedule_health_check_after_unlock security x w = ((b, x'), w') →
  ex_vault_runtime x' = ex_vault_runtime x.
Proof.
  unfold HealthExec.schedule_health_check_after_unlock. intros Hs.
  destruct (HealthExec.open_vault x); [|by injection Hs as _ <- _].
  apply io_bind_eq in Hs as ([last|e] & w1 & _ & Hs); [|by injection Hs as _ <- _].
  apply io_bind_eq in Hs as (due & w2 & _ & Hs). destruct due.
  - apply io_bind_eq in Hs as (sent & w3 & _ & Hs). by injection Hs as _ <- _.
  - apply io_bind_eq in Hs as ([[report|]|e] & w3 & _ & Hs); by injection Hs as _ <- _.
Qed.

(** The vault of a connection, whose keys are those of the key store. *)
Lemma new_unlocked_keys (c : Conn) ks (w : W) v w' :
  VaultServiceImpl.new_unlocked c (CryptoManager.from_unlocked_keystore ks) w = (v, w') →
  cm_keystore (vs_crypto v) = Some ks.
Proof.
  unfold VaultServiceImpl.new_unlocked. intros (u & w1 & _ & Hn)%io_bind_eq. by injection Hn as <- _.
Qed.

Lemma opened_keys (c : Conn) ks security x (w : W) v w1 w2 b x' w' sk kek :
  VaultServiceImpl.new_unlocked c (CryptoManager.from_unlocked_keystore ks) w = (v, w1) →
  HealthExec.schedule_health_check_after_unlock security (opened v x) w2 = ((b, x'), w') →
  ks_sk ks = Some sk → ks_kek ks = Some kek → open_with x' sk kek.
Proof.
  intros Hv%new_unlocked_keys Hs%schedule_runtime ? ?. exists v, ks. by rewrite Hs.
Qed.

Lemma recovery_keys security x words (w : W) x' w' :
  handle_unlock_with_recovery_key (Conn := Conn) (Mnemonic := Mnemonic) security x words w
    = (Ok (CommandResult.RecoveryKeyUnlocked, x'), w') →
  ∃ sk kek, words_key words sk ∧ derive_kek sk = Ok kek ∧ open_with x' sk kek.
Proof.
  unfold handle_unlock_with_recovery_key, with_database, derived. intros Hr.
  destruct (Passkey.reconstruct_passkey words) as [passkey|e] eqn:Ep; [|discriminate].
  apply or_failed_ok in Hr as [(seed & w1 & [Es _]%lift_ok & Hr)|[e He]]; [|discriminate].
  apply or_failed_ok in Hr as [(kek & w2 & [Ek%map_err_ok _]%lift_ok & Hr)|[e He]]; [|discriminate].
  do 2 (apply or_failed_ok in Hr as [(? & ? & _ & Hr)|[e He]]; [|discriminate]).
  apply io_bind_eq in Hr as ([conn|e] & w5 & _ & Hr); [|by destruct e].
  apply or_failed_ok in Hr as [(sk' & w6 & [-> _]%locked_key_ok & Hr)|[e He]]; [|discriminate].
  apply or_failed_ok in Hr as [(kek' & w7 & [-> _]%locked_key_ok & Hr)|[e He]]; [|discriminate].
  apply io_bind_eq in Hr as (id & w8 & _ & Hr). apply io_bind_eq in Hr as (v & w9 & Ev & Hr).
  apply io_bind_eq in Hr as (u & w10 & _ & Hr). apply io_bind_eq in Hr as (u' & w11 & _ & Hr).
  apply io_bind_eq in Hr as ([b y2] & w12 & Ex & Hr). injection Hr as <- <-.
  exists (Passkey.to_secret_key seed), kek. split_and!; [by exists passkey, seed|done|].
  by eapply opened_keys.
Qed.

Lemma password_keys security x pw (w : W) res x' w' content sk lang kek :
  opens content pw sk lang → fs_files w !! KeyStore.file_path (ex_vault_dir x) = Some content →
  derive_kek sk = Ok kek →
  handle_unlock (Conn := Conn) security x pw w = (Ok (res, x'), w') →
  (res = CommandResult.VaultUnlocked → open_with x' sk kek) ∧
  (∀ n, res = CommandResult.VaultUnlockFailed n → ∃ e, system_error (W := W) (ex_vault_dir x) e).
Proof.
  intros Ho Hf Hk Hr. unfold handle_unlock, on_fault, with_database in Hr.
  apply io_bind_eq in Hr as (r & w1 & E & Hr).
  eapply unlock_opens in E as [(e & -> & He)|(ks & d & -> & Hs & Hkek & _)]; [| |done..].
  { injection Hr as <- <- <-. split; [done|eauto]. }
  apply io_bind_eq in Hr as ([key|e] & w2 & _ & Hr); [|by injection Hr as <- <- <-].
  apply io_bind_eq in Hr as ([conn|e] & w3 & _ & Hr); [|destruct e; by injection Hr as <- <- <-].
  apply io_bind_eq in Hr as (v & w4 & Ev & Hr). apply io_bind_eq in Hr as (u & w5 & _ & Hr).
  apply io_bind_eq in Hr as ([b y2] & w6 & Ex & Hr). injection Hr as <- <- <-.
  split; [|done]. intros _. by eapply opened_keys.
Qed.

(** C22: the password and the recovery words open the same vault.  A vault that was made from
    recovery words is open with the secret key of these words; whenever the words unlock a
    vault later, it is with the same keys; and as long as its key file is unchanged, the
    password unlocks it with the same keys, and is refused only when the system fails to
    read the file or to lock memory. *)
Theorem words_and_password_agree config_language x pw words (w : W) x1 w1 :
  handle_initialize_vault (Conn := Conn) (Mnemonic := Mnemonic) config_language x pw (Some words) w
    = (Ok (CommandResult.VaultInitialized, x1), w1) →
  ∃ sk kek content, words_key words sk ∧ open_with x1 sk kek ∧
    fs_files w1 !! KeyStore.file_path (ex_vault_dir x1) = Some content ∧
    (∀ security y w2 y' w3,
       handle_unlock_with_recovery_key (Conn := Conn) (Mnemonic := Mnemonic) security y words w2
         = (Ok (CommandResult.RecoveryKeyUnlocked, y'), w3) → open_with y' sk kek) ∧
    (∀ security y w2 res y' w3, ex_vault_dir y = ex_vault_dir x1 →
       fs_files w2 !! KeyStore.file_path (ex_vault_dir y) = Some content →
       handle_unlock (Conn := Conn) security y pw w2 = (Ok (res, y'), w3) →
       (res = CommandResult.VaultUnlocked → open_with y' sk kek) ∧
       (∀ n, res = CommandResult.VaultUnlockFailed n →
          ∃ e, system_error (W := W) (ex_vault_dir y) e)).
Proof.
  unfold handle_initialize_vault, obtain_passkey. intros Hi.
  apply io_bind_eq in Hi as (r & w2 & E & Hi). injection E as <- <-.
  destruct (Passkey.reconstruct_passkey words) as [passkey|e] eqn:Ep; [|discriminate].
  cbn [map_err] in Hi.
  apply or_failed_ok in Hi as [(seed & w3 & [Es _]%lift_ok & Hi)|[e He]]; [|discriminate].
  assert (words_key words (Passkey.to_secret_key seed)) as Hw by by exists passkey, seed.
  apply initialize_keys in Hi as (kek & content & Hk & Hx & Hd & Hf & Ho);
    [|by eapply secret_key_length].
  exists (Passkey.to_secret_key seed), kek, content. rewrite Hd. split_and!; [done..| |].
  - intros security y w4 y' w5 (sk' & kek' & (p' & seed' & Ep' & Es' & ->) & Hk' & Hy)%recovery_keys.
    rewrite Ep in Ep'. injection Ep' as <-. rewrite Es in Es'. injection Es' as <-.
    rewrite Hk in Hk'. by injection Hk' as <-.
  - intros security y w4 res y' w5 _ Hf' Hu. by eapply password_keys.
Qed.

(** *** Initialisations that fail *)

Definition artifact_paths (vault_dir : string) : list string :=
  [KeyStore.file_path vault_dir; vault_db_path vault_dir; path_join vault_dir "vault.db-wal";
   path_join vault_dir "vault.db-shm"].

(** There is nothing where the artifacts of a vault would be. *)
Definition no_vault (vault_dir : string) (w : W) : Prop :=
  ∀ p w0, p ∈ artifact_paths vault_dir → fs_files w0 = fs_files w →
    (fs_symlink_exists p w0).1 = false.

Definition nothing_left (vault_dir : string) (w : W) : Prop :=
  ∀ p, p ∈ artifact_paths vault_dir → fs_files w !! p = None.

Lemma no_artifacts vault_dir (w : W) before w' :
  no_vault vault_dir w → existing_artifacts vault_dir w = (before, w') →
  before = mkArtifacts false false false false.
Proof.
  intros Hn. unfold existing_artifacts, artifact_existed_before. intros He.
  do 4 (apply io_bind_eq in He as (? & ? & ? & He)).
  assert (∀ p w0 b w1, p ∈ artifact_paths vault_dir → fs_files w0 = fs_files w →
    fs_symlink_exists p w0 = (b, w1) → b = false ∧ fs_files w1 = fs_files w) as Hp.
  { intros p w0 b w1 Hp Hw E. pose proof (Hn p w0 Hp Hw) as Hf. rewrite E in Hf.
    apply symlink_files in E. split; [done|congruence]. }
  injection He as <- _.
  repeat match goal with
  | E : fs_symlink_exists ?p _ = _ |- _ =>
      apply Hp in E as [-> ?]; [|unfold artifact_paths; set_solver|done]
  end. done.
Qed.

Lemma removed_gone b p (w : W) r w' :
  remove_unless b p w = (r, w') → b = false → fs_files w' = delete p (fs_files w).
Proof.
  intros Hr ->. unfold remove_unless, remove_initialized_artifact in Hr.
  apply io_bind_eq in Hr as (u & w1 & E & [= _ <-]). by apply remove_gone in E.
Qed.

Lemma cleanup_leaves_nothing vault_dir (w : W) u w' :
  cleanup_failed_new_vault_initialization vault_dir (mkArtifacts false false false false) w
    = (u, w') →
  nothing_left vault_dir w'.
Proof.
  unfold cleanup_failed_new_vault_initialization. cbn [at_key at_db at_wal at_shm]. intros Hc.
  do 3 (apply io_bind_eq in Hc as (? & ? & ?%removed_gone & Hc); [|done]).
  apply removed_gone in Hc; [|done]. intros p Hp. unfold artifact_paths in Hp.
  rewrite Hc. repeat match goal with E : fs_files _ = _ |- _ => rewrite E; clear E end.
  set_unfold in Hp. rewrite !lookup_delete_None. naive_solver.
Qed.

(** An initialisation that fails leaves nothing behind.  Where there was no vault, an
    initialisation that does not report a new vault leaves neither a key file nor a
    database with its companions, so that the next start finds no half of a vault; the one
    exception is a failure while the key file itself is made. *)
Lemma failed_initialization_cleaned_up x sk language pw (w : W) res x' w' :
  no_vault (ex_vault_dir x) w →
  initialize_with_key (Conn := Conn) x sk language pw w = (Ok (res, x'), w') →
  res = CommandResult.VaultInitialized ∨ nothing_left (ex_vault_dir x) w' ∨
  ∃ e, res = keystore_init_failed "Failed to initialize keystore: " e.
Proof.
  intros Hn Hi. unfold initialize_with_key in Hi.
  apply io_bind_eq in Hi as (before & w1 & E1 & Hi). apply no_artifacts in E1 as ->; [|done].
  apply io_bind_eq in Hi as ([ks|e] & w2 & E2 & Hi); [|injection Hi as <- _ _; eauto].
  unfold on_fault in Hi. apply io_bind_eq in Hi as ([key|f] & w3 & _ & Hi).
  - unfold commit_new_vault in Hi. apply io_bind_eq in Hi as ([[v guard]|e] & w4 & _ & Hi).
    + apply io_bind_eq in Hi as ([v'|f] & w5 & _ & Hi); [injection Hi as <- _ _; by left|].
      apply io_bind_eq in Hi as (x2 & w6 & Ed & Hi). destruct f as [e|]; [|discriminate].
      apply io_bind_eq in Hi as (u & w7 & Ec & Hi). injection Hi as _ _ <-.
      unfold Pending.drop in Ed. apply io_bind_eq in Ed as (u' & w8 & _ & [= <- _]).
      right. left. by eapply cleanup_leaves_nothing.
    + apply io_bind_eq in Hi as (u & w5 & Ec & Hi). injection Hi as _ _ <-.
      right. left. by eapply cleanup_leaves_nothing.
  - destruct f as [e|]; [|discriminate]. apply io_bind_eq in Hi as (u & w4 & Ec & Hi).
    injection Hi as _ _ <-. right. left. by eapply cleanup_leaves_nothing.
Qed.

End properties.
