(* ===== verification/Dispatch.v ===== *)
(** * The command executor (src/commands/command.rs, src/executor/execute.rs,
    src/executor/mod.rs)

    Every command of the interface with its handler, what is checked before and recorded
    after it.  The loop around it is in RunLoop.v.

    What leaves the executor is a log: the results that it sends to the interface, and the
    tasks that it spawns, which answer by a signal or by a result of their own. *)

From S2P Require Import Prelude Text Errors Env Types CloudRecord CloudMetadata Storage.
From S2P Require Import Checkpoint Conflict Pipeline SyncTask Crypto Keystore Payload Database Queries.
From S2P Require Import Vault Records Password VaultSync Rotation Health HealthExec Files Formats.
From S2P Require Import Backup Foreign ImportService Listing Executor ExecSync Opening ImportExec.
From S2P Require Import Generator Clipboard RecordExec Config Providers OAuth ConfigExec.
From S2P Require Import CloudRestore Recovery VaultExec.

Module Command.

Inductive t : Type :=
| UnlockVault (master_password : string)
| UnlockWithRecoveryKey (words : RecoveryWords)
| LockVault
| VerifyMasterPassword (password : string)
| ChangeMasterPassword (current_password : option string) (new_password : string)
| ClearVerifiedPassword
| InitializeVault (master_password : string) (recovery_words : option RecoveryWords)
| CreateRecord (credential_type : CredentialType.t) (payload : EncryptedPayload.t)
    (tags : list string) (is_favorite : bool) (expires_at : option Instant)
| UpdateRecord (id : Uuid) (payload : EncryptedPayload.t) (tags : list string)
    (is_favorite : bool) (expires_at : option Instant) (expected_version : Z)
| SoftDeleteRecord (id : Uuid)
| RestoreRecord (id : Uuid)
| HardDeleteRecord (id : Uuid)
| ToggleFavorite (id : Uuid) (is_favorite : bool)
| LoadRecordList (filter : RecordFilter.t) (sort : RecordSort) (limit offset : nat)
| LoadRecordDetail (id : Uuid)
| LoadRecordForEdit (id : Uuid)
| DecryptField (id : Uuid) (field : FieldSelector.t)
| CopyToClipboard (id : Uuid) (field : FieldSelector.t)
| CopyRawToClipboard (value : string)
| LoadPasswordHistory (record_id : Uuid)
| CopyHistoryPassword (history_id : Z)
| LoadTags
| RenameTag (old_name new_name : string)
| DeleteTag (name : string)
| BatchAddTag (record_ids : list Uuid) (tag_name : string)
| BatchRemoveTag (record_ids : list Uuid) (tag_name : string)
| BatchSoftDelete (record_ids : list Uuid)
| BatchRestore (record_ids : list Uuid)
| BatchHardDelete (record_ids : list Uuid)
| EmptyTrash
| GeneratePassword (length : nat) (include_digits include_uppercase include_special : bool)
| GenerateMemorablePassword (word_count : nat)
| GeneratePin (length : nat)
| RunHealthCheck (force : bool)
| CheckHibp (record_id : Uuid)
| TriggerSync
| ResolveConflict (record_id : Uuid) (resolution : ExecSync.ConflictResolution)
| ResolveAllConflicts (resolution : ExecSync.ConflictResolution)
| ValidateImportFile (source : ImportSource.t) (path : string) (password : option string)
| ExecuteImport (session_id : option Uuid) (source : ImportSource.t) (path : string)
    (password : option string) (column_mapping : option CsvColumnMapping)
    (import_as_notes : bool)
| ExecuteExport (scope : ExportScope.t) (output_path export_password master_password : string)
    (format : ExportFormat.t)
| LoadConfig
| SaveConfig (config : AppConfig)
| TestSyncConnection (provider_config : option ProviderConfig.t)
| OAuth2AuthorizeGoogleDrive
| LoadAuditLog (filter : AuditFilter)
| NavigateToRecord (record_id : Uuid)
| TriggerRotation
| CheckRotationTrigger
| ValidateRecoveryWords (words : RecoveryWords)
| RebuildKeyFileFromRecovery (master_password : string) (recovery_words : RecoveryWords)
| RestoreDatabaseFromOkb (path password : string) (master_password : option string)
| RestoreDatabaseFromCloud (master_password : option string)
| ValidateRestoredDatabase.

(** [needs_unlock] of [pre_check] *)
Definition needs_unlock (c : t) : bool :=
  match c with
  | UnlockVault _ | UnlockWithRecoveryKey _ | InitializeVault _ _ | LoadConfig | SaveConfig _
  | ValidateRecoveryWords _ | RebuildKeyFileFromRecovery _ _ | RestoreDatabaseFromOkb _ _ _
  | RestoreDatabaseFromCloud _ | ValidateRestoredDatabase | CopyRawToClipboard _ => false
  | _ => true
  end.

End Command.

(** src/commands/internal_command.rs *)
Module InternalCommand.
Inductive t : Set := HealthCheckCompleted (report : HealthReport) | ScheduleHealthCheck (force : bool).

Definition resets_auto_lock (c : t) : bool :=
  match c with HealthCheckCompleted _ => false | ScheduleHealthCheck _ => false end.
End InternalCommand.

(** What the executor sends or starts; [OperationsCancelled] is the cancellation of the
    tasks that run. *)
Module Output.
Inductive t : Type :=
| Completed (r : AppResult.t)
| HealthTaskSpawned (task : HealthTask)
| AuthorizationSpawned (token_store : string)
| OperationsCancelled.
End Output.

(** The executor with all its services: [App] of ConfigExec.v, the sessions of imports and
    exports, the health service, whether the shutdown was signalled, and the log. *)
Record Session (W : Type) : Type := mkSession {
  se_app : App W;
  se_imports : ImportExportService W ExportScope.t;
  se_health : HealthServiceImpl;
  se_shutdown : bool;
  se_log : list Output.t;
}.
Arguments mkSession {W}.
Arguments se_app {W}.
Arguments se_imports {W}.
Arguments se_health {W}.
Arguments se_shutdown {W}.
Arguments se_log {W}.

#[export] Instance eta_Session {W} : Eta (Session W) := λ s,
  mkSession (se_app s) (se_imports s) (se_health s) (se_shutdown s) (se_log s).

(** ** Parts of the executor as states *)

Section parts.
Context {S W : Type}.

#[local] Instance beside_sqlite `{Sqlite W} : Sqlite (S * W) := {
  sql_query A f := world (sql_query f);
  sql_select A f := world (sql_select f);
  sql_execute A f := world (sql_execute f);
  sql_some_rows A f := world (sql_some_rows f);
  sql_choose A l := sql_choose (W := W) l;
}.

#[local] Instance beside_system `{System W} : System (S * W) := {
  now := world now;
  new_v4 := world new_v4;
  sleep d := world (sleep d);
  monotonic_now := world monotonic_now;
  random_range lo hi := world (random_range lo hi);
  try_send := world try_send;
}.

#[local] Instance beside_secure `{Secure W} : Secure (S * W) := {
  os_random n := world (os_random n);
  lock_pages := world lock_pages;
}.

End parts.

(** The executor's clipboard, as its handlers see it. *)
Definition own_clipboard {W} `{Libs} `{System W} `{ClipboardBackend W}
  : ClipboardPort (ClipboardService * W) := Clipboard.copy.

Section state.
Context {W : Type}.
Local Abbreviation St := (Session W * W)%type.

Definition on_app {A} (m : io (App W * W) A) : io St A := λ '(s, w),
  let '(a, (x, w')) := m (se_app s, w) in (a, (s <| se_app := x |>, w')).

Definition on_imports {A} (m : io (ImportExportService W ExportScope.t * W) A) : io St A :=
  λ '(s, w), let '(a, (i, w')) := m (se_imports s, w) in (a, (s <| se_imports := i |>, w')).

(** The executor in the state that a handler finds *)
Definition executor (s : Session W) : CommandExecutor := ap_executor (se_app s).

Definition emit (o : Output.t) : io St () := set_state (λ s, s <| se_log ::= λ l, l ++ [o] |>).

Definition set_executor (f : CommandExecutor → CommandExecutor) : io St () :=
  set_state (λ s, s <| se_app ::= λ x, x <| ap_executor ::= f |> |>).

(** A handler that reads the executor. *)
Definition reading (m : CommandExecutor → io W CommandResult.t) : ior St AppResult.t Fault.t :=
  let* s := get_state in
  let* r := world (m (executor s)) in
  lift (Ok (AppResult.Command r)).

(** One that changes it, and one that can panic as well. *)
Definition changing (m : CommandExecutor → io W (CommandResult.t * CommandExecutor))
  : ior St AppResult.t Fault.t :=
  let* s := get_state in
  let* (r, x) := world (m (executor s)) in
  let* _ := set_executor (λ _, x) in
  lift (Ok (AppResult.Command r)).

Definition handling (m : CommandExecutor → ior W (CommandResult.t * CommandExecutor) Fault.t)
  : ior St AppResult.t Fault.t :=
  let! r := on_app (CloudExec.on_executor m) in
  lift (Ok (AppResult.Command r)).

Definition settings (m : io (App W * W) AppResult.t) : ior St AppResult.t Fault.t :=
  let* r := on_app m in
  lift (Ok r).

Definition copying (m : CommandExecutor → io (ClipboardService * W) CommandResult.t)
  : ior St AppResult.t Fault.t :=
  let* s := get_state in
  let* r := on_app (on_clipboard (m (executor s))) in
  lift (Ok (AppResult.Command r)).

Definition importing (m : CommandExecutor → io (ImportExportService W ExportScope.t * W)
    CommandResult.t) : ior St AppResult.t Fault.t :=
  let* s := get_state in
  let* r := on_imports (m (executor s)) in
  lift (Ok (AppResult.Command r)).

End state.

(** ** The handlers (execute.rs) *)

Section execute.
Context {W Conn Mnemonic : Type} `{Libs} `{Runtime} `{UuidErrors} `{Lowercase} `{Uppercase}.
Context `{ConversionErrors} `{Chrono} `{Regex} `{DebugText} `{DateTimeParse} `{HealthLibs}.
Context `{CryptoLibs} `{Csv} `{MigrationSql} `{TomlLib} `{Opendal}.
Context `{Secure W} `{Sqlite W} `{System W} `{Fs W} `{DirFs W} `{FsBytes W} `{Rng W} `{Http W}.
Context `{CancelToken W} `{ProgressChannel W} `{ClipboardBackend W} `{Connections W Conn}.
Context `{SymlinkMetadata W} `{Bip39 W Mnemonic} `{SyncService W} `{CloudPull W} `{SyncSlot W}.
Context `{ConnectionTest W}.
Context `{Serde Json} `{Serde PayloadPlaintextDto.t} `{Serde ExportPayload} `{Serde OkbPayload}.
Context `{Serde CloudPrivateMetadata} `{Serde CloudMetadata} `{Serde RotationTrigger.t}.
Context `{Serde RotationCheckpoint} `{Serde RotationConfig} `{Serde OAuth2Token}.

Local Abbreviation St := (Session W * W)%type.

#[local] Existing Instances beside_sqlite beside_system beside_secure own_clipboard.

(** *** Before and after *)

Definition vault_locked : CommandResult.t :=
  CommandResult.Error ErrorCode.ExecutorVaultLocked ErrorContext.new "error.vault_locked"
    "Vault is locked. Please unlock first.".

Definition is_open (r : VaultRuntime.t) : bool :=
  match r with VaultRuntime.Open _ => true | _ => false end.

(** [self.vault().map(|v| v.is_unlocked()).unwrap_or(false)] *)
Definition vault_unlocked (x : CommandExecutor) : bool :=
  match VaultRuntime.open_vault (ex_vault_runtime x) with
  | Ok v => VaultServiceImpl.is_unlocked v
  | Err _ => false
  end.

Definition is_unlocked (x : CommandExecutor) : bool :=
  is_open (ex_vault_runtime x) && vault_unlocked x.

Definition is_deferred_in_memory (x : CommandExecutor) : bool :=
  is_open (ex_vault_runtime x) && negb (ex_vault_db_file_backed x).

Definition pre_check (x : CommandExecutor) (c : Command.t) : option CommandResult.t :=
  if Command.needs_unlock c && negb (is_deferred_in_memory x) && negb (vault_unlocked x)
  then Some vault_locked else None.

Definition post_hook (r : AppResult.t) : io St () :=
  match r with
  | AppResult.Command (CommandResult.HealthCheckCompleted report) =>
      let* n := world now in
      set_executor (λ x,
        x <| ex_health_report := Some report |> <| ex_last_health_check_time := Some n |>)
  | _ => io_ret ()
  end.

(** *** The commands that do more than call a handler *)

(** The running operations are cancelled, and the next ones get a fresh token. *)
Definition lock_vault : ior St AppResult.t Fault.t :=
  let* _ := emit Output.OperationsCancelled in
  let* s := get_state in
  let* _ := set_executor (λ x, x <| ex_cancelled := se_shutdown s |>) in
  handling VaultExec.handle_lock.

Definition clear_verified_password : ior St AppResult.t Fault.t :=
  let* _ := set_executor (λ x, x <| ex_verified_master_password := None |>) in
  lift (Ok (AppResult.Command CommandResult.Void)).

Definition run_health_check (force : bool) : io St CommandResult.t :=
  let* s := get_state in
  let* (r, task) := world (HealthExec.handle_run_health_check (executor s)
                             (ac_security (ap_config (se_app s))) force) in
  let* _ := match task with
            | Some task => emit (Output.HealthTaskSpawned task)
            | None => io_ret ()
            end in
  io_ret r.

Definition authorize_google_drive : ior St AppResult.t Fault.t :=
  let* (r, store) := on_app ConfigExec.handle_oauth2_authorize_google_drive in
  let* _ := emit (Output.AuthorizationSpawned store) in
  lift (Ok r).

Definition execute_export (scope : ExportScope.t)
    (output_path export_password master_password : string) (format : ExportFormat.t)
  : ior St AppResult.t Fault.t :=
  let* s := get_state in
  let! r := on_imports (ImportExec.handle_execute_export (executor s) scope output_path
                          export_password master_password format) in
  lift (Ok (AppResult.Command r)).

(** The settings that a handler reads with the executor. *)
Definition with_config (m : AppConfig → ior St AppResult.t Fault.t) : ior St AppResult.t Fault.t :=
  let* s := get_state in m (ap_config (se_app s)).

Definition check_hibp (record_id : Uuid) : ior St AppResult.t Fault.t :=
  let* s := get_state in
  reading (λ x, HealthExec.handle_check_hibp (se_health s) x record_id).

(** *** All commands *)

Definition dispatch (c : Command.t) : ior St AppResult.t Fault.t :=
  match c with
  | Command.UnlockVault password =>
      with_config (λ config,
        handling (λ x, VaultExec.handle_unlock (Conn := Conn) (ac_security config) x password))
  | Command.UnlockWithRecoveryKey words =>
      with_config (λ config,
        handling (λ x, VaultExec.handle_unlock_with_recovery_key (Conn := Conn)
          (Mnemonic := Mnemonic) (ac_security config) x words))
  | Command.LockVault => lock_vault
  | Command.VerifyMasterPassword password =>
      handling (λ x, VaultExec.handle_verify_master_password x password)
  | Command.ChangeMasterPassword current_password new_password =>
      handling (λ x, VaultExec.handle_change_master_password x current_password new_password)
  | Command.ClearVerifiedPassword => clear_verified_password
  | Command.InitializeVault password recovery_words =>
      with_config (λ config,
        handling (λ x, VaultExec.handle_initialize_vault (Conn := Conn) (Mnemonic := Mnemonic)
          (gc_language (ac_general config)) x password recovery_words))
  | Command.CreateRecord credential_type payload tags is_favorite expires_at =>
      reading (λ x, RecordExec.handle_create_record x
        (mkCreateRecordParams credential_type payload tags is_favorite expires_at))
  | Command.UpdateRecord id payload tags is_favorite expires_at expected_version =>
      reading (λ x, RecordExec.handle_update_record x
        (mkUpdateRecordParams id payload tags is_favorite expires_at expected_version))
  | Command.SoftDeleteRecord id => reading (λ x, RecordExec.handle_soft_delete_record x id)
  | Command.RestoreRecord id => reading (λ x, RecordExec.handle_restore_record x id)
  | Command.HardDeleteRecord id => reading (λ x, RecordExec.handle_hard_delete_record x id)
  | Command.ToggleFavorite id is_favorite =>
      reading (λ x, RecordExec.handle_toggle_favorite x id is_favorite)
  | Command.LoadRecordList filter sort limit offset =>
      reading (λ x, RecordExec.handle_load_record_list_page x filter sort limit offset)
  | Command.LoadRecordDetail id => reading (λ x, RecordExec.handle_load_record_detail x id)
  | Command.LoadRecordForEdit id => reading (λ x, RecordExec.handle_load_record_for_edit x id)
  | Command.DecryptField id field => reading (λ x, RecordExec.handle_decrypt_field x id field)
  | Command.CopyToClipboard id field =>
      copying (λ x, RecordExec.handle_copy_to_clipboard x id field)
  | Command.CopyRawToClipboard value =>
      copying (λ _, RecordExec.handle_copy_raw_to_clipboard value)
  | Command.LoadPasswordHistory record_id =>
      reading (λ x, RecordExec.handle_load_password_history x record_id)
  | Command.CopyHistoryPassword history_id =>
      copying (λ x, RecordExec.handle_copy_history_password x history_id)
  | Command.LoadTags => reading RecordExec.handle_load_tags
  | Command.RenameTag old_name new_name =>
      reading (λ x, RecordExec.handle_rename_tag x old_name new_name)
  | Command.DeleteTag name => reading (λ x, RecordExec.handle_delete_tag x name)
  | Command.BatchAddTag record_ids tag_name =>
      reading (λ x, RecordExec.handle_batch_add_tag x record_ids tag_name)
  | Command.BatchRemoveTag record_ids tag_name =>
      reading (λ x, RecordExec.handle_batch_remove_tag x record_ids tag_name)
  | Command.BatchSoftDelete record_ids =>
      reading (λ x, RecordExec.handle_batch_soft_delete x record_ids)
  | Command.BatchRestore record_ids => reading (λ x, RecordExec.handle_batch_restore x record_ids)
  | Command.BatchHardDelete record_ids =>
      reading (λ x, RecordExec.handle_batch_hard_delete x record_ids)
  | Command.EmptyTrash => reading RecordExec.handle_empty_trash
  | Command.GeneratePassword length include_digits include_uppercase include_special =>
      reading (λ _, handle_generate_password length include_digits include_uppercase
                      include_special)
  | Command.GenerateMemorablePassword word_count =>
      reading (λ _, handle_generate_memorable_password word_count)
  | Command.GeneratePin length => reading (λ _, handle_generate_pin length)
  | Command.RunHealthCheck force =>
      let* r := run_health_check force in
      lift (Ok (AppResult.Command r))
  | Command.CheckHibp record_id => check_hibp record_id
  | Command.TriggerSync => changing ExecSync.handle_trigger_sync
  | Command.ResolveConflict record_id resolution =>
      reading (λ x, ExecSync.handle_resolve_conflict x record_id resolution)
  | Command.ResolveAllConflicts resolution =>
      reading (λ x, ExecSync.handle_resolve_all_conflicts x resolution)
  | Command.ValidateImportFile source path password =>
      importing (λ x, ImportExec.handle_validate_import_file x source path password)
  | Command.ExecuteImport session_id source path password column_mapping import_as_notes =>
      importing (λ x, ImportExec.handle_execute_import x session_id source path password
        column_mapping import_as_notes)
  | Command.ExecuteExport scope output_path export_password master_password format =>
      execute_export scope output_path export_password master_password format
  | Command.LoadConfig => settings ConfigExec.handle_load_config
  | Command.SaveConfig config => settings (ConfigExec.handle_save_config config)
  | Command.TestSyncConnection provider_config =>
      settings (ConfigExec.handle_test_sync_connection provider_config)
  | Command.OAuth2AuthorizeGoogleDrive => authorize_google_drive
  | Command.LoadAuditLog filter => reading (λ x, ConfigExec.handle_load_audit_log x filter)
  | Command.NavigateToRecord record_id =>
      reading (λ x, RecordExec.handle_load_record_detail x record_id)
  | Command.TriggerRotation => reading handle_trigger_rotation
  | Command.CheckRotationTrigger => reading handle_check_rotation_trigger
  | Command.ValidateRecoveryWords words =>
      reading (λ _, io_ret (VaultExec.handle_validate_recovery_words (W := W)
        (Mnemonic := Mnemonic) words))
  | Command.RebuildKeyFileFromRecovery password recovery_words =>
      handling (λ x, VaultExec.handle_rebuild_keyfile_from_recovery (Mnemonic := Mnemonic) x
        password recovery_words)
  | Command.RestoreDatabaseFromOkb path password master_password =>
      handling (λ x, ImportExec.handle_restore_database_from_okb (Conn := Conn) x path password
        master_password)
  | Command.RestoreDatabaseFromCloud master_password =>
      let! r := on_app (CloudExec.handle_restore_database_from_cloud (Conn := Conn)
                          master_password) in
      lift (Ok (AppResult.Command r))
  | Command.ValidateRestoredDatabase =>
      handling (VaultExec.handle_validate_restored_database (Conn := Conn))
  end.

Definition send_result (r : AppResult.t) : io St () := emit (Output.Completed r).

(** A handler that panics takes the executor with it. *)
Definition execute (c : Command.t) : ior St () Fault.t :=
  let* s := get_state in
  match pre_check (executor s) c with
  | Some failed =>
      let* _ := send_result (AppResult.Command failed) in
      lift (Ok ())
  | None =>
      let! r := dispatch c in
      let* _ := post_hook r in
      let* _ := send_result r in
      lift (Ok ())
  end.

(** *** Internal signals (mod.rs) *)

Definition health_check_completed (report : HealthReport) : io St CommandResult.t :=
  let* s := get_state in
  let* (r, x) := world (HealthExec.handle_internal_health_check_completed (executor s) report) in
  let* _ := set_executor (λ _, x) in
  io_ret r.

Definition execute_internal (c : InternalCommand.t) : io St () :=
  match c with
  | InternalCommand.HealthCheckCompleted report =>
      let* r := health_check_completed report in
      send_result (AppResult.Command r)
  | InternalCommand.ScheduleHealthCheck force =>
      let* r := run_health_check force in
      let* _ := post_hook (AppResult.Command r) in
      send_result (AppResult.Command r)
  end.

End execute.

(** ** Properties *)

(** *** A locked vault *)

(** There is a vault, and it is not unlocked. *)
Definition sealed (x : CommandExecutor) : Prop :=
  is_deferred_in_memory x = false ∧ vault_unlocked x = false.

Lemma locked_sealed x : ex_vault_runtime x = VaultRuntime.Locked → sealed x.
Proof. intros E. unfold sealed, is_deferred_in_memory, vault_unlocked. by rewrite E. Qed.

Section locked.
Context {W Conn Mnemonic : Type} `{Libs} `{Runtime} `{UuidErrors} `{Lowercase} `{Uppercase}.
Context `{ConversionErrors} `{Chrono} `{Regex} `{DebugText} `{DateTimeParse} `{HealthLibs}.
Context `{CryptoLibs} `{Csv} `{MigrationSql} `{TomlLib} `{Opendal}.
Context `{Secure W} `{Sqlite W} `{System W} `{Fs W} `{DirFs W} `{FsBytes W} `{Rng W} `{Http W}.
Context `{CancelToken W} `{ProgressChannel W} `{ClipboardBackend W} `{Connections W Conn}.
Context `{SymlinkMetadata W} `{Bip39 W Mnemonic} `{SyncService W} `{CloudPull W} `{SyncSlot W}.
Context `{ConnectionTest W}.
Context `{Serde Json} `{Serde PayloadPlaintextDto.t} `{Serde ExportPayload} `{Serde OkbPayload}.
Context `{Serde CloudPrivateMetadata} `{Serde CloudMetadata} `{Serde RotationTrigger.t}.
Context `{Serde RotationCheckpoint} `{Serde RotationConfig} `{Serde OAuth2Token}.

Local Abbreviation St := (Session W * W)%type.
Local Abbreviation execute := (execute (Conn := Conn) (Mnemonic := Mnemonic)).
Local Abbreviation dispatch := (dispatch (Conn := Conn) (Mnemonic := Mnemonic)).

Definition refused (s : Session W) : Session W :=
  s <| se_log ::= λ l, l ++ [Output.Completed (AppResult.Command vault_locked)] |>.

Lemma sealed_refuses c (s : Session W) (w : W) :
  sealed (executor s) → Command.needs_unlock c = true →
  execute c (s, w) = (Ok (), (refused s, w)).
Proof.
  intros [Hd Hu] Hc. unfold Dispatch.execute, io_bind, get_state, pre_check.
  by rewrite Hc, Hd, Hu.
Qed.

Lemma handling_run m (s : Session W) (w : W) r s' w' :
  handling m (s, w) = (Ok r, (s', w')) →
  ∃ cr x, m (executor s) w = (Ok (cr, x), w') ∧ r = AppResult.Command cr ∧
    s' = s <| se_app ::= λ a, a <| ap_executor := x |> |>.
Proof.
  unfold handling, on_app, CloudExec.on_executor, ior_bind, io_bind, lift, io_ret, executor.
  destruct s as [app imports health sd log]. cbn.
  destruct (m (ap_executor app) w) as [[[cr x]|f] w1] eqn:E; [|done].
  intros [= <- <- <-]. by exists cr, x.
Qed.

Lemma lock_vault_locks (s : Session W) (w : W) r s' w' :
  lock_vault (s, w) = (Ok r, (s', w')) →
  r = AppResult.Command CommandResult.VaultLocked ∧
  ex_vault_runtime (executor s') = VaultRuntime.Locked ∧
  ex_verified_master_password (executor s') = None.
Proof.
  unfold lock_vault, emit, set_executor, set_state, get_state. unfold io_bind at 1 2 3. cbn.
  intros (cr & x & E & -> & ->)%handling_run. unfold VaultExec.handle_lock, io_bind in E.
  destruct (VaultExec.write_system_audit _ _ _ w) as [u w1]. by injection E as <- <- <-.
Qed.

(** C27: A locked vault stays locked.  However a lock was asked for, and unless the handler
    panicked, the vault is locked afterwards: it was locked already, or it is now, with the
    verified master password forgotten.  From then on every command but the eleven that are
    meant for a locked vault is answered with the same error, whatever the environment has
    become, and changes nothing: not the executor, not the database, not a file. *)
Theorem locked_vault_refuses (s : Session W) (w : W) u s1 w1 :
  execute Command.LockVault (s, w) = (Ok u, (s1, w1)) →
  sealed (executor s1) ∧
  ∀ (s2 : Session W) c (w2 : W), sealed (executor s2) → Command.needs_unlock c = true →
    execute c (s2, w2) = (Ok (), (refused s2, w2)) ∧ sealed (executor (refused s2)).
Proof.
  intros He. split.
  - unfold Dispatch.execute in He. unfold io_bind at 1, get_state in He.
    destruct (pre_check _ _) as [failed|] eqn:Ep.
    + unfold pre_check in Ep. cbn in Ep.
      destruct (is_deferred_in_memory (executor s)) eqn:Hd; [done|].
      destruct (vault_unlocked (executor s)) eqn:Hu; [done|]. injection He as _ <- _. done.
    + apply ior_bind_ok in He as (r & [s0 w0] & Hl & Hp). cbn [Dispatch.dispatch] in Hl.
      apply lock_vault_locks in Hl as (-> & Hl & _). cbn in Hp.
      injection Hp as _ <- _. by apply locked_sealed.
  - intros s2 c w2 Hs Hc. split; [by apply sealed_refuses|done].
Qed.

End locked.

(** *** One answer to each command *)

(** What a handler may put in the log before the answer. *)
Definition spawned (o : Output.t) : Prop :=
  match o with Output.Completed _ => False | _ => True end.

Section silent.
Context {W : Type}.
Local Abbreviation St := (Session W * W)%type.

(** A computation that answers nothing. *)
Definition silent {A} (m : io St A) : Prop := ∀ s w a s' w',
  m (s, w) = (a, (s', w')) → ∃ l, se_log s' = se_log s ++ l ∧ Forall spawned l.

Lemma silent_same {A} (m : io St A) :
  (∀ s w a s' w', m (s, w) = (a, (s', w')) → se_log s' = se_log s) → silent m.
Proof. intros Hm s w a s' w' E%Hm. exists []. rewrite app_nil_r. by split. Qed.

Lemma silent_ret {A} (a : A) : silent (io_ret a).
Proof. apply silent_same. by intros s w a' s' w' [= _ <- _]. Qed.

Lemma silent_lift {A E} (r : result A E) : silent (lift r).
Proof. apply silent_ret. Qed.

Lemma silent_bind {A B} (m : io St A) (k : A → io St B) :
  silent m → (∀ a, silent (k a)) → silent (io_bind m k).
Proof.
  intros Hm Hk s w b s' w' (a & [s1 w1] & (l & E & Hl)%Hm & (l' & E' & Hl')%Hk)%io_bind_eq.
  exists (l ++ l'). rewrite E', E, <- (assoc_L (++)). split; [done|by apply Forall_app].
Qed.

Lemma silent_try {A B E} (m : ior St A E) (k : A → ior St B E) :
  silent m → (∀ a, silent (k a)) → silent (ior_bind m k).
Proof. intros Hm Hk. apply silent_bind; [done|]. intros []; [apply Hk|apply silent_ret]. Qed.

Lemma silent_world {A} (m : io W A) : silent (world m).
Proof.
  apply silent_same. intros s w a s' w'. unfold world. destruct (m w) as [b w1].
  by intros [= _ <- _].
Qed.

Lemma silent_get : silent get_state.
Proof. apply silent_same. by intros s w a s' w' [= _ <- _]. Qed.

Lemma silent_executor f : silent (set_executor (W := W) f).
Proof. apply silent_same. by intros s w a s' w' [= _ <- _]. Qed.

Lemma silent_emit o : spawned o → silent (emit (W := W) o).
Proof. intros Ho s w a s' w' [= _ <- _]. exists [o]. split; [done|by constructor]. Qed.

Lemma silent_app {A} (m : io (App W * W) A) : silent (on_app m).
Proof.
  apply silent_same. intros s w a s' w'. unfold on_app. destruct (m _) as [b [x w1]].
  by intros [= _ <- _].
Qed.

Lemma silent_imports {A} (m : io (ImportExportService W ExportScope.t * W) A) :
  silent (on_imports m).
Proof.
  apply silent_same. intros s w a s' w'. unfold on_imports. destruct (m _) as [b [x w1]].
  by intros [= _ <- _].
Qed.

End silent.

Create HintDb answers.
#[export] Hint Resolve silent_ret silent_lift silent_world silent_get silent_executor silent_app
  silent_imports : answers.
#[export] Hint Extern 1 (silent (io_bind _ _)) => apply silent_bind; [|intros ?] : answers.
#[export] Hint Extern 1 (silent (ior_bind _ _)) => apply silent_try; [|intros ?] : answers.
#[export] Hint Extern 1 (silent (emit _)) => apply silent_emit; exact I : answers.

Section combinators.
Context {W : Type}.
Local Abbreviation St := (Session W * W)%type.

Lemma silent_reading (m : CommandExecutor → io W CommandResult.t) : silent (reading m).
Proof. unfold reading. auto with answers. Qed.

Lemma silent_changing (m : CommandExecutor → io W (CommandResult.t * CommandExecutor)) :
  silent (changing m).
Proof.
  unfold changing. apply silent_bind; [auto with answers|]. intros s.
  apply silent_bind; [auto with answers|]. intros [r x]. auto with answers.
Qed.

Lemma silent_handling (m : CommandExecutor → ior W (CommandResult.t * CommandExecutor) Fault.t) :
  silent (handling m).
Proof. unfold handling. auto with answers. Qed.

Lemma silent_settings (m : io (App W * W) AppResult.t) : silent (settings m).
Proof. unfold settings. auto with answers. Qed.

Lemma silent_copying (m : CommandExecutor → io (ClipboardService * W) CommandResult.t) :
  silent (copying m).
Proof. unfold copying. auto with answers. Qed.

Lemma silent_importing (m : CommandExecutor →
    io (ImportExportService W ExportScope.t * W) CommandResult.t) :
  silent (importing m).
Proof. unfold importing. auto with answers. Qed.

Lemma silent_config (m : AppConfig → ior St AppResult.t Fault.t) :
  (∀ c, silent (m c)) → silent (with_config m).
Proof. unfold with_config. auto with answers. Qed.

End combinators.

#[export] Hint Resolve silent_reading silent_changing silent_handling silent_settings
  silent_copying silent_importing silent_config : answers.

Section answered.
Context {W Conn Mnemonic : Type} `{Libs} `{Runtime} `{UuidErrors} `{Lowercase} `{Uppercase}.
Context `{ConversionErrors} `{Chrono} `{Regex} `{DebugText} `{DateTimeParse} `{HealthLibs}.
Context `{CryptoLibs} `{Csv} `{MigrationSql} `{TomlLib} `{Opendal}.
Context `{Secure W} `{Sqlite W} `{System W} `{Fs W} `{DirFs W} `{FsBytes W} `{Rng W} `{Http W}.
Context `{CancelToken W} `{ProgressChannel W} `{ClipboardBackend W} `{Connections W Conn}.
Context `{SymlinkMetadata W} `{Bip39 W Mnemonic} `{SyncService W} `{CloudPull W} `{SyncSlot W}.
Context `{ConnectionTest W}.
Context `{Serde Json} `{Serde PayloadPlaintextDto.t} `{Serde ExportPayload} `{Serde OkbPayload}.
Context `{Serde CloudPrivateMetadata} `{Serde CloudMetadata} `{Serde RotationTrigger.t}.
Context `{Serde RotationCheckpoint} `{Serde RotationConfig} `{Serde OAuth2Token}.

Local Abbreviation St := (Session W * W)%type.
Local Abbreviation execute := (execute (Conn := Conn) (Mnemonic := Mnemonic)).
Local Abbreviation dispatch := (dispatch (Conn := Conn) (Mnemonic := Mnemonic)).

Lemma silent_health_check force : silent (W := W) (run_health_check force).
Proof.
  unfold run_health_check. apply silent_bind; [auto with answers|]. intros s.
  apply silent_bind; [auto with answers|]. intros [r [task|]]; auto with answers.
Qed.

Lemma silent_authorize : silent (W := W) authorize_google_drive.
Proof.
  unfold authorize_google_drive. apply silent_bind; [auto with answers|].
  intros [r store]. auto with answers.
Qed.

#[local] Hint Resolve silent_health_check silent_authorize : answers.

Lemma silent_dispatch c : silent (dispatch c).
Proof.
  destruct c; cbn [Dispatch.dispatch];
    unfold lock_vault, clear_verified_password, execute_export, check_hibp; auto 12 with answers.
Qed.

Lemma silent_post_hook r : silent (W := W) (post_hook r).
Proof. unfold post_hook. repeat case_match; auto with answers. Qed.

(** C28: Every command is answered, once.  An execution that does not panic ends with exactly
    one result for the interface, after whatever tasks the command started; a handler sends
    nothing itself. *)
Theorem command_answered_once c (s : Session W) (w : W) u s' w' :
  execute c (s, w) = (Ok u, (s', w')) →
  ∃ tasks r, se_log s' = se_log s ++ tasks ++ [Output.Completed r] ∧ Forall spawned tasks.
Proof.
  unfold Dispatch.execute. unfold io_bind at 1, get_state.
  destruct (pre_check _ _) as [failed|].
  - intros [= _ <- _]. exists [], (AppResult.Command failed). by split.
  - intros (r & [s1 w1] & Hd & Hp)%ior_bind_ok. apply io_bind_eq in Hp as (u1 & [s2 w2] & Hp & Hs).
    apply silent_dispatch in Hd as (l & E & Hl). apply silent_post_hook in Hp as (l' & E' & Hl').
    injection Hs as _ <- _. exists (l ++ l'), r. cbn. rewrite E', E, <- !(assoc_L (++)).
    split; [done|by apply Forall_app].
Qed.

End answered.
