(* ===== verification/RunLoop.v ===== *)
(** * The loop of the executor (src/executor/mod.rs, src/executor/builder.rs)

    How an executor is made, the loop that takes commands, internal signals and ticks of
    its timers one at a time, and the shutdown that ends it. *)

From S2P Require Import Prelude Text Errors Env Types CloudRecord CloudMetadata Storage.
From S2P Require Import Checkpoint Conflict Pipeline SyncTask Crypto Keystore Payload Database Queries.
From S2P Require Import Vault Records Password VaultSync Rotation Health HealthExec Files Formats.
From S2P Require Import Backup Foreign ImportService Listing Executor ExecSync Opening ImportExec.
From S2P Require Import Generator Clipboard RecordExec Config Providers OAuth ConfigExec.
From S2P Require Import CloudRestore Recovery VaultExec Dispatch.

(** ** The loop

    The loop of an executor: its session, the timers and, for the timer that locks, when it
    ticks next.  What [select!] wakes up for is its input; the branches of a tick are taken
    when it is due. *)

Module Wake.
Inductive t : Type :=
| ShutdownSignal
| Received (c : option Command.t)
| Signalled (c : InternalCommand.t)
| SyncTick
| LockTick.
End Wake.

Record Loop (W : Type) : Type := mkLoop {
  lp_session : Session W;
  lp_timers : ExecutorTimers;
  lp_lock_due : option Instant;
}.
Arguments mkLoop {W}.
Arguments lp_session {W}.
Arguments lp_timers {W}.
Arguments lp_lock_due {W}.

#[export] Instance eta_Loop {W} : Eta (Loop W) := λ l,
  mkLoop (lp_session l) (lp_timers l) (lp_lock_due l).

(** The second of the last input of the user, which the interface stores. *)
Class Activity (W : Type) : Type := last_active : io W Z.

Module ShutdownStepStatus.
Inductive t : Set := NotApplicable | Completed | Failed (message : string) | TimedOut.

Definition has_failure (s : t) : bool :=
  match s with Failed _ | TimedOut => true | _ => false end.
End ShutdownStepStatus.

Record ShutdownReport : Set := mkShutdownReport {
  sr_clipboard_clear : ShutdownStepStatus.t;
  sr_sync_shutdown : ShutdownStepStatus.t;
  sr_wal_checkpoint : ShutdownStepStatus.t;
}.

Module DbStartupMode.
Inductive t : Set := FileBacked | DeferredInMemory.

Definition from_vault_state (has_vault vault_has_db_only : bool) : t :=
  if has_vault || vault_has_db_only then FileBacked else DeferredInMemory.

Definition is_file_backed (m : t) : bool :=
  match m with FileBacked => true | DeferredInMemory => false end.
End DbStartupMode.

(** The end of a sync service within a second, or none when it takes longer; and the
    checkpoint of the log of the database. *)
Class SyncShutdown (W : Type) : Type := sync_shutdown : io W (option (result () SyncError.t)).
Class WalCheckpoint (W : Type) : Type := wal_checkpoint : ior W () SqlError.

(** [init_db_in_memory] *)
Class MemoryDb (W Conn : Type) : Type := init_db_in_memory : ior W Conn string.

Section loop.
Context {W Conn Mnemonic : Type} `{Libs} `{Runtime} `{UuidErrors} `{Lowercase} `{Uppercase}.
Context `{ConversionErrors} `{Chrono} `{Regex} `{DebugText} `{DateTimeParse} `{HealthLibs}.
Context `{CryptoLibs} `{Csv} `{MigrationSql} `{TomlLib} `{Opendal}.
Context `{Secure W} `{Sqlite W} `{System W} `{Fs W} `{DirFs W} `{FsBytes W} `{Rng W} `{Http W}.
Context `{CancelToken W} `{ProgressChannel W} `{ClipboardBackend W} `{Connections W Conn}.
Context `{SymlinkMetadata W} `{Bip39 W Mnemonic} `{SyncService W} `{CloudPull W} `{SyncSlot W}.
Context `{ConnectionTest W} `{SyncShutdown W} `{WalCheckpoint W} `{Activity W} `{MemoryDb W Conn}.
Context `{Serde Json} `{Serde PayloadPlaintextDto.t} `{Serde ExportPayload} `{Serde OkbPayload}.
Context `{Serde CloudPrivateMetadata} `{Serde CloudMetadata} `{Serde RotationTrigger.t}.
Context `{Serde RotationCheckpoint} `{Serde RotationConfig} `{Serde OAuth2Token}.

Local Abbreviation St := (Session W * W)%type.
Local Abbreviation LoopSt := (Loop W * W)%type.

Local Abbreviation execute := (execute (Conn := Conn) (Mnemonic := Mnemonic)).

(** *** Making an executor *)

(** [ExecutorBuilder::build] with what the production code sets. *)
Definition build (runtime : VaultRuntime.t) (file_backed sync : bool) (config : AppConfig)
    (vault_dir config_dir : string) (registry : FormatParserRegistry W) : Session W :=
  let x := mkCommandExecutor false runtime file_backed sync vault_dir None None None in
  mkSession
    (mkApp x config config_dir (ServiceNotification.register_service ClipboardConfigAdapter [])
       (Clipboard.with_backend (gc_clipboard_clear_seconds (ac_general config))) false None)
    (ImportExport.new registry) (mkHealthServiceImpl true) false [].

Definition startup_vault (mode : DbStartupMode.t) : ior W VaultRuntime.t string :=
  match mode with
  | DbStartupMode.FileBacked => lift (Ok VaultRuntime.Locked)
  | DbStartupMode.DeferredInMemory =>
      let! conn := init_db_in_memory in
      let* v := VaultServiceImpl.new conn in
      lift (Ok (VaultRuntime.Open v))
  end.

Definition startup_sync (config : AppConfig) : io W bool :=
  match create_cloud_storage (ac_sync config) with
  | Ok storage => let* _ := sync_set (Some storage) in io_ret true
  | Err _ => io_ret false
  end.

(** [CommandExecutor::new] *)
Definition new (config : AppConfig) (vault_dir config_dir : string) (mode : DbStartupMode.t)
    (registry : FormatParserRegistry W) : ior W (Session W) string :=
  let! runtime := startup_vault mode in
  let* config := load_oauth2_tokens_into_config config config_dir in
  let* sync := startup_sync config in
  lift (Ok (build runtime (DbStartupMode.is_file_backed mode) sync config
              vault_dir config_dir registry)).

(** *** Timers *)

Definition should_run_timer (x : CommandExecutor) : bool :=
  ex_vault_db_file_backed x && is_unlocked x.

(** [Interval::reset] and the next tick of a new interval, which is at once. *)
Definition lock_after (n : Instant) (t : ExecutorTimers) : option Instant :=
  (λ period, n + seconds period)%Z <$> tm_auto_lock_interval t.

Definition reset_auto_lock : io LoopSt () :=
  let* n := world monotonic_now in
  set_state (λ l, l <| lp_lock_due := lock_after n (lp_timers l) |>).

Definition timers_of (s : Session W) : ExecutorTimers :=
  timers_new (ap_config (se_app s)) (ex_sync (executor s)).

Definition on_session {A} (m : io St A) : io LoopSt A := λ '(l, w),
  let '(a, (s, w')) := m (lp_session l, w) in (a, (l <| lp_session := s |>, w')).

(** [tick] of the interval: the next one is a period after this one was due. *)
Definition tick_lock (due : Instant) : io LoopSt () :=
  set_state (λ l, l <| lp_lock_due := lock_after due (lp_timers l) |>).

Definition sync_tick : ior LoopSt () Fault.t :=
  let* l := get_state in
  if tm_sync_active (lp_timers l) && should_run_timer (executor (lp_session l))
  then on_session (execute Command.TriggerSync)
  else lift (Ok ()).

(** The branch of a tick that is due. *)
Definition auto_lock : ior LoopSt () Fault.t :=
  let* l := get_state in
  if should_run_timer (executor (lp_session l)) then
    let configured := as_i64 (gc_auto_lock_seconds (ac_general (ap_config (se_app (lp_session l))))) in
    let* active := world last_active in
    let* idle := world (idle_seconds active) in
    if (configured <=? idle)%Z then on_session (execute Command.LockVault)
    else let* _ := reset_auto_lock in lift (Ok ())
  else lift (Ok ()).

Definition lock_tick : ior LoopSt () Fault.t :=
  let* l := get_state in
  match lp_lock_due l with
  | Some due =>
      let* n := world monotonic_now in
      if tm_auto_lock_active (lp_timers l) && (due <=? n)%Z then
        let* _ := tick_lock due in
        auto_lock
      else lift (Ok ())
  | None => lift (Ok ())
  end.

(** *** Rounds *)

(** Whether the loop goes on. *)
Definition wake (i : Wake.t) : ior LoopSt bool Fault.t :=
  match i with
  | Wake.ShutdownSignal =>
      let* _ := on_session (emit Output.OperationsCancelled) in
      let* _ := on_session (set_state (λ s, s <| se_shutdown := true |>)) in
      let* _ := on_session (set_executor (λ x, x <| ex_cancelled := true |>)) in
      lift (Ok false)
  | Wake.Received (Some c) =>
      let! _ := on_session (execute c) in
      let* _ := reset_auto_lock in
      lift (Ok true)
  | Wake.Received None => lift (Ok false)
  | Wake.Signalled c =>
      let* _ := on_session (execute_internal c) in
      let* _ := if InternalCommand.resets_auto_lock c then reset_auto_lock else io_ret () in
      lift (Ok true)
  | Wake.SyncTick => let! _ := sync_tick in lift (Ok true)
  | Wake.LockTick => let! _ := lock_tick in lift (Ok true)
  end.

(** The timers of changed settings. *)
Definition rebuild_if_pending : io LoopSt () :=
  let* l := get_state in
  let '(timers, x) := ConfigExec.settle_timers (lp_timers l) (se_app (lp_session l)) in
  if ap_timer_rebuild_pending (se_app (lp_session l)) then
    let* n := world monotonic_now in
    set_state (λ l, mkLoop ((lp_session l) <| se_app := x |>) timers
                      ((λ _, n) <$> tm_auto_lock_interval timers))
  else io_ret ().

Definition iteration (i : Wake.t) : ior LoopSt bool Fault.t :=
  let! go := wake i in
  if go then let* _ := rebuild_if_pending in lift (Ok true) else lift (Ok false).

(** *** The end *)

Definition status {E} (display : E → string) (r : result () E) : ShutdownStepStatus.t :=
  match r with
  | Ok _ => ShutdownStepStatus.Completed
  | Err e => ShutdownStepStatus.Failed (display e)
  end.

Definition stop_sync : io St ShutdownStepStatus.t :=
  let* s := get_state in
  if ex_sync (executor s) then
    let* _ := set_executor (λ x, x <| ex_sync := false |>) in
    let* r := world sync_shutdown in
    io_ret match r with
           | Some r => status SyncError.display r
           | None => ShutdownStepStatus.TimedOut
           end
  else io_ret ShutdownStepStatus.NotApplicable.

Definition checkpoint_database : io St ShutdownStepStatus.t :=
  let* s := get_state in
  if ex_vault_db_file_backed (executor s) then
    match VaultRuntime.open_vault (ex_vault_runtime (executor s)) with
    | Ok _ =>
        let* r := world (io_map_err VaultError.DatabaseError wal_checkpoint) in
        io_ret (status VaultError.display r)
    | Err _ => io_ret ShutdownStepStatus.NotApplicable
    end
  else io_ret ShutdownStepStatus.NotApplicable.

Definition shutdown_gracefully : io St ShutdownReport :=
  let* _ := emit Output.OperationsCancelled in
  let* _ := set_executor (λ x, x <| ex_cancelled := true |>) in
  let* cleared := on_app (on_clipboard Clipboard.clear) in
  let* sync := stop_sync in
  let* checkpoint := checkpoint_database in
  let* _ := set_executor (λ x, x <| ex_vault_runtime := VaultRuntime.Locked |>
                                  <| ex_vault_db_file_backed := false |>) in
  io_ret (mkShutdownReport (status ClipboardError.display cleared) sync checkpoint).

Fixpoint iterate (inputs : list Wake.t) : ior LoopSt () Fault.t :=
  match inputs with
  | [] => lift (Ok ())
  | i :: inputs =>
      let! go := iteration i in
      if go : bool then iterate inputs else lift (Ok ())
  end.

(** A computation with a state of its own, and the state it leaves. *)
Definition from_state {S A} (s : S) (m : io (S * W) A) : io W (A * S) := λ w,
  let '(a, (s', w')) := m (s, w) in ((a, s'), w').

(** [CommandExecutor::run]; the first tick of the timer that locks is at once. *)
Definition run (s : Session W) (inputs : list Wake.t)
  : ior W (ShutdownReport * Session W) Fault.t :=
  let* n := monotonic_now in
  let timers := timers_of s in
  let* (r, l) := from_state (mkLoop s timers ((λ _, n) <$> tm_auto_lock_interval timers))
                   (iterate inputs) in
  match r with
  | Err fault => lift (Err fault)
  | Ok _ =>
      let* out := from_state (lp_session l) shutdown_gracefully in
      lift (Ok out)
  end.

End loop.

(** ** Properties *)

Section loop_properties.
Context {W Conn Mnemonic : Type} `{Libs} `{Runtime} `{UuidErrors} `{Lowercase} `{Uppercase}.
Context `{ConversionErrors} `{Chrono} `{Regex} `{DebugText} `{DateTimeParse} `{HealthLibs}.
Context `{CryptoLibs} `{Csv} `{MigrationSql} `{TomlLib} `{Opendal}.
Context `{Secure W} `{Sqlite W} `{System W} `{Fs W} `{DirFs W} `{FsBytes W} `{Rng W} `{Http W}.
Context `{CancelToken W} `{ProgressChannel W} `{ClipboardBackend W} `{Connections W Conn}.
Context `{SymlinkMetadata W} `{Bip39 W Mnemonic} `{SyncService W} `{CloudPull W} `{SyncSlot W}.
Context `{ConnectionTest W} `{SyncShutdown W} `{WalCheckpoint W} `{Activity W}.
Context `{Serde Json} `{Serde PayloadPlaintextDto.t} `{Serde ExportPayload} `{Serde OkbPayload}.
Context `{Serde CloudPrivateMetadata} `{Serde CloudMetadata} `{Serde RotationTrigger.t}.
Context `{Serde RotationCheckpoint} `{Serde RotationConfig} `{Serde OAuth2Token}.

Local Abbreviation lock_tick := (lock_tick (Conn := Conn) (Mnemonic := Mnemonic)).
Local Abbreviation run := (run (Conn := Conn) (Mnemonic := Mnemonic)).
Local Abbreviation execute := (execute (Conn := Conn) (Mnemonic := Mnemonic)).

Definition auto_lock_seconds (l : Loop W) : Z :=
  gc_auto_lock_seconds (ac_general (ap_config (se_app (lp_session l)))).

(** A lock of an unlocked vault locks it. *)
Lemma lock_command_locks (s : Session W) (w : W) u s' w' :
  vault_unlocked (executor s) = true → execute Command.LockVault (s, w) = (Ok u, (s', w')) →
  ex_vault_runtime (executor s') = VaultRuntime.Locked.
Proof.
  intros Hu. unfold Dispatch.execute. unfold io_bind at 1, get_state, pre_check. rewrite Hu.
  rewrite andb_false_r. intros (r & [s0 w0] & Hl & Hp)%ior_bind_ok.
  cbn [Dispatch.dispatch] in Hl. apply lock_vault_locks in Hl as (-> & Hl & _). cbn in Hp.
  by injection Hp as _ <- _.
Qed.

(** What a tick of the timer does to an unlocked vault.  When the user was idle for the time
    of the settings, the vault is locked.  When he was not, nothing changes but the timer:
    it ticks again only after the whole time, counted from this moment and not from the last
    input, so that a vault can stay open for nearly twice the time of the settings. *)
Lemma lock_tick_outcome (l : Loop W) (w : W) due n w1 active w2 idle w3 r l' w' :
  lp_lock_due l = Some due → monotonic_now w = (n, w1) → (due ≤ n)%Z →
  tm_auto_lock_active (lp_timers l) = true → should_run_timer (executor (lp_session l)) = true →
  last_active w1 = (active, w2) → idle_seconds active w2 = (idle, w3) →
  lock_tick (l, w) = (r, (l', w')) →
  (if (as_i64 (auto_lock_seconds l) <=? idle)%Z
   then is_ok r = true → ex_vault_runtime (executor (lp_session l')) = VaultRuntime.Locked
   else r = Ok () ∧ lp_session l' = lp_session l ∧
        lp_lock_due l' = lock_after (monotonic_now w3).1 (lp_timers l)).
Proof.
  intros Hd Hn Hle Ha Hrun Hl Hi. unfold RunLoop.lock_tick.
  unfold io_bind at 1, get_state. rewrite Hd. unfold io_bind at 1, world at 1. rewrite Hn, Ha.
  rewrite (proj2 (Z.leb_le _ _) Hle). cbn [andb]. unfold io_bind at 1, tick_lock, set_state.
  destruct l as [s timers d]. cbn -[Dispatch.execute] in *. subst.
  unfold RunLoop.auto_lock. unfold io_bind at 1, get_state. cbn -[Dispatch.execute]. rewrite Hrun.
  unfold io_bind at 1, world at 1. rewrite Hl. unfold io_bind at 1, world at 1. rewrite Hi.
  unfold auto_lock_seconds. cbn -[Dispatch.execute]. destruct (_ <=? idle)%Z.
  - unfold on_session. cbn -[Dispatch.execute]. destruct (execute _ _) as [r1 [s1 w4]] eqn:E.
    intros [= <- <- <-] Hr. destruct r1 as [u|f]; [|done]. cbn.
    eapply lock_command_locks, E. unfold should_run_timer, is_unlocked in Hrun.
    by apply andb_prop in Hrun as [_ [_ Hu]%andb_prop].
  - unfold reset_auto_lock, io_bind, world, set_state, lift, io_ret. cbn.
    destruct (monotonic_now w3) as [n' w4]. by intros [= <- <- _].
Qed.

(** However the loop ends, unless by a panic: the executor holds no vault and no sync
    service, operations are cancelled, and no timer of the clipboard is left. *)
Lemma run_ends_locked (s : Session W) inputs (w : W) report s' w' :
  run s inputs w = (Ok (report, s'), w') →
  ex_vault_runtime (executor s') = VaultRuntime.Locked ∧ ex_cancelled (executor s') = true ∧
  cl_active_timer (ap_clipboard (se_app s')) = None ∧
  (ex_sync (executor s') = true → False).
Proof.
  unfold RunLoop.run, io_bind at 1. destruct (monotonic_now w) as [n w1].
  unfold io_bind at 1, from_state. destruct (iterate _ _) as [r [l w2]].
  destruct r as [u|f]; [|done]. unfold io_bind at 1, from_state.
  destruct (shutdown_gracefully _) as [rep [s1 w3]] eqn:E. intros [= <- <- <-].
  unfold shutdown_gracefully in E.
  apply io_bind_eq in E as (u1 & [s2 w4] & E1 & E). injection E1 as _ <- <-.
  apply io_bind_eq in E as (u2 & [s2 w4] & E1 & E). injection E1 as _ <- <-.
  apply io_bind_eq in E as (c & [s2 w4] & E1 & E).
  assert (ex_cancelled (executor s2) = true ∧ cl_active_timer (ap_clipboard (se_app s2)) = None)
    as [Hc Ht].
  { revert E1. unfold on_app, on_clipboard, Clipboard.clear, io_bind, world, set_state. cbn.
    destruct (set_text _ _) as [r1 w5]. by intros [= _ <- _]. }
  clear E1. apply io_bind_eq in E as (st & [s3 w5] & E1 & E).
  assert (ex_cancelled (executor s3) = true ∧ ex_sync (executor s3) = false ∧
    cl_active_timer (ap_clipboard (se_app s3)) = None) as (Hc3 & Hs3 & Ht3).
  { revert E1. unfold stop_sync, io_bind, get_state.
    destruct (ex_sync (executor s2)) eqn:Es; [|by intros [= _ <- _]].
    unfold set_executor, set_state, world, io_ret. destruct (sync_shutdown w4) as [o w6].
    by intros [= _ <- _]. }
  clear E1. apply io_bind_eq in E as (ck & [s4 w6] & E1 & E).
  assert (s4 = s3) as ->.
  { revert E1. unfold checkpoint_database, io_bind, get_state, io_ret.
    destruct (ex_vault_db_file_backed _); [|by intros [= _ <- _]].
    destruct (VaultRuntime.open_vault _); [|by intros [= _ <- _]].
    unfold world. destruct (io_map_err _ _ _) as [o w7]. by intros [= _ <- _]. }
  apply io_bind_eq in E as (u5 & [s5 w7] & E2 & E). injection E2 as _ <- _.
  injection E as _ <- _. cbn. split_and!; [done|exact Hc3|exact Ht3|].
  unfold executor in Hs3. cbn. by rewrite Hs3.
Qed.

End loop_properties.
