(* ===== verification/Watcher.v ===== *)
(** * The file watcher of the sync service (src/sync/watcher.rs)

    Changes of record files in the watched directory are gathered until none has come for
    an interval; then the sync service is told to pull.

    The library [notify] calls back with its events; what it answers when the watcher is
    made is an argument.  The events of [debounce_loop] carry the instants at which they
    entered its channel. *)

From Stdlib Require Import Ascii.
From stdpp Require Import sorting.
From S2P Require Import Prelude Text Errors Env Files Listing Conflict SyncTask.

Module WatchEventKind.
Inductive t : Set := Created | Modified | Deleted.
#[global] Instance t_eq_dec : EqDecision t.
Proof. solve_decision. Defined.
End WatchEventKind.

Record WatchEvent : Set := mkWatchEvent {
  we_path : string;
  we_kind : WatchEventKind.t;
}.

(** [notify::EventKind] without the details of its variants, and [notify::Event]. *)
Module EventKind.
Inductive t : Set := Any | Access | Create | Modify | Remove | Other.
End EventKind.

Record NotifyEvent : Set := mkNotifyEvent {
  ne_kind : EventKind.t;
  ne_paths : list string;
}.

(** [Path::components], by the text of each. *)
Fixpoint names_of (word : list ascii) (l : list ascii) : list (list ascii) :=
  match l with
  | [] => [rev word]
  | c :: l =>
      if bool_decide (c = "/"%char) then rev word :: names_of [] l else names_of (c :: word) l
  end.

Definition components (p : string) : list string :=
  let parts := String.string_of_list_ascii <$> names_of [] (String.list_ascii_of_string p) in
  let root := match parts with EmptyString :: _ :: _ => ["/"] | _ => [] end in
  let first := match parts with "." :: _ => ["."] | _ => [] end in
  root ++ first ++ filter (λ name, name ≠ "" ∧ name ≠ ".") parts.

Definition is_records_json_file (path : string) : bool :=
  match Path.extension path with
  | Some ext => bool_decide (ext = "json") && bool_decide ("records" ∈ components path)
  | None => false
  end.

Definition process_notify_event (event : NotifyEvent) : option WatchEvent :=
  kind ← (match ne_kind event with
          | EventKind.Create => Some WatchEventKind.Created
          | EventKind.Modify => Some WatchEventKind.Modified
          | EventKind.Remove => Some WatchEventKind.Deleted
          | _ => None
          end);
  path ← head (filter (λ path, is_records_json_file path = true) (ne_paths event));
  Some (mkWatchEvent path kind).

(** The callback sends on what concerns a record, and drops the errors of [notify]. *)
Definition on_notify {E} (result : result NotifyEvent E) : option WatchEvent :=
  match result with Ok event => process_notify_event event | Err _ => None end.

(** ** The loop

    [interval] and instants are in a common unit; a command that is sent at [t] is in the
    channel of the service at [delivered t], which may have been full; [event_first t] is
    the choice of [select!] when the timer of [t] and an event are both ready; the channel
    of the events is [closed] when the watcher is dropped, after the last of them. *)
Section debounce.
Context (interval : Z) (delivered : Z → Z) (event_first : Z → bool) (closed : option Z).

(** An event or the end of the channel, from [now] on, before the timer of [deadline]. *)
Definition comes_first (deadline now : Z) : bool :=
  (now <? deadline)%Z || (now =? deadline)%Z && event_first deadline.

(** The inner loop after an event received at [last]: the instants at which [PullOnly] is
    sent.  When the timer has fired the outer loop waits for the next event. *)
Fixpoint debouncing (last : Z) (events : list Z) : list Z :=
  let deadline := (last + interval)%Z in
  match events with
  | t :: events =>
      if comes_first deadline (Z.max last t) then debouncing (Z.max last t) events
      else deadline :: debouncing (Z.max (delivered deadline) t) events
  | [] =>
      match closed with
      | Some c => if comes_first deadline (Z.max last c) then [] else [deadline]
      | None => [deadline]
      end
  end.

Definition debounce_loop (events : list Z) : list (Z * SyncCommand.t) :=
  (λ t, (t, SyncCommand.PullOnly)) <$>
    match events with
    | t :: events => debouncing t events
    | [] => []
    end.

End debounce.

(** ** Making a watcher *)

Definition notify_error (message : string) : SyncError.t :=
  SyncError.ProviderError "notify" message.

(** [created] is the answer of [RecommendedWatcher::new], [watched] that of [watch]. *)
Definition SyncWatcher_new (watch_dir : string) (created watched : result () string)
  : result () SyncError.t :=
  let? _ := map_err notify_error created in
  map_err (λ e, notify_error ("failed to watch " +:+ watch_dir +:+ ": " +:+ e)) watched.

(** [stop] does nothing. *)
Definition SyncWatcher_stop : result () SyncError.t := Ok tt.

(** ** Properties *)

Lemma comes_first_spec event_first deadline now :
  comes_first event_first deadline now = true → (now ≤ deadline)%Z.
Proof. unfold comes_first. intros H. reflect_bools; lia. Qed.

Lemma comes_late_spec event_first deadline now :
  comes_first event_first deadline now = false → (deadline ≤ now)%Z.
Proof. unfold comes_first. intros H. destruct (Z.ltb_spec now deadline); [done|lia]. Qed.

Section loop.
Context (interval : Z) (delivered : Z → Z) (event_first : Z → bool).
Context (Hinterval : (0 < interval)%Z) (Hdelivered : ∀ t, (t ≤ delivered t)%Z).

(** The timer restarts with each event: what is sent is sent an interval after the
    events before it, and those not yet received come no earlier. *)
Lemma debouncing_quiet closed events : ∀ last p,
  Sorted Z.le events → p ∈ debouncing interval delivered event_first closed last events →
  (last + interval ≤ p)%Z ∧ Forall (λ t, t ≤ p - interval ∨ p ≤ t)%Z events.
Proof.
  induction events as [|t events IH]; intros last p Hs Hp; cbn in Hp.
  - split; [|done]. destruct closed as [c|]; [destruct (comes_first _ _ _)|];
      [by apply elem_of_nil in Hp| |]; apply list_elem_of_singleton in Hp; lia.
  - assert (Sorted Z.le events) as Hs' by by inversion Hs.
    destruct (comes_first _ _ _) eqn:E.
    + destruct (IH _ _ Hs' Hp) as [? ?]. split; [lia|]. constructor; [lia|done].
    + apply comes_late_spec in E. rewrite elem_of_cons in Hp.
      apply Sorted_StronglySorted in Hs; [|intros ???; lia].
      inversion Hs as [|?? _ Hall]; subst.
      destruct Hp as [->|Hp].
      * split; [lia|]. constructor; [lia|]. eapply Forall_impl; [exact Hall|].
        intros x Hx. cbn in *. lia.
      * destruct (IH _ _ Hs' Hp) as [? ?]. specialize (Hdelivered (last + interval)).
        split; [lia|]. constructor; [lia|done].
Qed.

Lemma debouncing_covers events : ∀ last,
  (∃ p, p ∈ debouncing interval delivered event_first None last events ∧ (last ≤ p)%Z) ∧
  Forall (λ t, ∃ p, p ∈ debouncing interval delivered event_first None last events ∧ (t ≤ p)%Z)
    events.
Proof.
  induction events as [|t events IH]; intros last; cbn.
  - split; [|done]. exists (last + interval)%Z. rewrite list_elem_of_singleton. lia.
  - destruct (comes_first _ _ _) eqn:E.
    + destruct (IH (Z.max last t)) as [(p & Hp & ?) Hall]. split; [by exists p; split; [|lia]|].
      constructor; [by exists p; split; [|lia]|done].
    + destruct (IH (Z.max (delivered (last + interval)) t)) as [(p & Hp & ?) Hall].
      split.
      * exists (last + interval)%Z. rewrite elem_of_cons. split; [by left|lia].
      * constructor; [exists p; rewrite elem_of_cons; split; [by right|lia]|].
        eapply Forall_impl; [exact Hall|]. intros x (q & ? & ?).
        exists q. rewrite elem_of_cons. split; [by right|done].
Qed.

Lemma debouncing_count closed events : ∀ last,
  length (debouncing interval delivered event_first closed last events) ≤ S (length events).
Proof.
  induction events as [|t events IH]; intros last; cbn.
  - destruct closed; [destruct (comes_first _ _ _)|]; cbn; lia.
  - destruct (comes_first _ _ _); cbn.
    + specialize (IH (Z.max last t)). lia.
    + specialize (IH (Z.max (delivered (last + interval)) t)). lia.
Qed.

End loop.

(** C33: Every change of a record file is pulled, by a command sent after it; none is sent
    within the interval after a change, and there are no more commands than changes. *)
Theorem changes_pulled_once interval delivered event_first events :
  (0 < interval)%Z → (∀ t, t ≤ delivered t)%Z → Sorted Z.le events →
  let pulls := debounce_loop interval delivered event_first None events in
  Forall (λ c, c.2 = SyncCommand.PullOnly) pulls ∧
  Forall (λ t, ∃ p, p ∈ pulls.*1 ∧ (t ≤ p)%Z) events ∧
  Forall (λ p, Forall (λ t, t ≤ p - interval ∨ p ≤ t)%Z events) pulls.*1 ∧
  length pulls ≤ length events.
Proof.
  intros Hi Hd Hs. cbn zeta. unfold debounce_loop. destruct events as [|t events]; [done|].
  rewrite length_fmap, <-list_fmap_compose, (list_fmap_ext _ id), list_fmap_id by done.
  assert (Sorted Z.le events) as Hs' by by inversion Hs.
  destruct (debouncing_covers interval delivered event_first Hi events t) as [Hfirst Hall].
  split_and!.
  - apply Forall_fmap, Forall_true. done.
  - by constructor.
  - apply Forall_forall. intros p Hp.
    destruct (debouncing_quiet interval delivered event_first Hi Hd None events t p Hs' Hp).
    constructor; [lia|done].
  - apply debouncing_count.
Qed.
