(* ===== verification/ListPanel.v ===== *)
(** * The list of records on the main screen (src/tui/state/list_state/state.rs,
    src/tui/terminal.rs, src/tui/screens/main/layout.rs, src/tui/screens/main/list/mod.rs)

    The state of the list panel with its operations, and the geometry by which it is
    drawn: which records are shown, and where the selected one is.

    A [HashSet] of identifiers is a [gset]; it is iterated in the order of [elements].
    Coordinates are of 16 bits; the sums of the code stay within a terminal. *)

From S2P Require Import Prelude Text Env Types Payload Queries Vault Records Listing.

(** ** The terminal (tui/terminal.rs) *)

Definition MIN_WIDTH : Z := 80.
Definition MIN_HEIGHT : Z := 24.
Definition BREAKPOINT_FULL : Z := 120.
Definition BREAKPOINT_MEDIUM : Z := 100.

Module WidthTier.
Inductive t : Set := Full | Medium | Minimum | TooSmall.

#[global] Instance t_eq_dec : EqDecision t.
Proof. solve_decision. Defined.

Definition from_width (w : Z) : t :=
  if (w <? MIN_WIDTH)%Z then TooSmall
  else if (w <? BREAKPOINT_MEDIUM)%Z then Minimum
  else if (w <? BREAKPOINT_FULL)%Z then Medium
  else Full.
End WidthTier.

Definition sidebar_width (tier : WidthTier.t) : Z :=
  match tier with
  | WidthTier.Full => 36
  | WidthTier.Medium => 40
  | WidthTier.Minimum => 30
  | WidthTier.TooSmall => 0
  end.

(** [ratatui::layout::Rect] *)
Record Rect : Set := mkRect { re_x : Z; re_y : Z; re_width : Z; re_height : Z }.

Definition saturating_sub (a b : Z) : Z := Z.max 0 (a - b).
Definition saturating_add (a b : Z) : Z := Z.min (2 ^ 16 - 1) (a + b).

(** ** The layout (tui/screens/main/layout.rs) *)

Record MainLayoutAreas : Set := mkMainLayoutAreas {
  la_sidebar : Rect;
  la_sidebar_list_separator : Rect;
  la_list : Rect;
  la_list_detail_separator : Rect;
  la_detail : Rect;
  la_status_separator : Rect;
  la_status_bar : Rect;
}.

Definition calculate_layout (area : Rect) (terminal_width : Z) : MainLayoutAreas :=
  let sw := sidebar_width (WidthTier.from_width terminal_width) in
  let main_height := saturating_sub (re_height area) 2 in
  let separator_width := if (0 <? sw)%Z then 2%Z else 0%Z in
  let content_width := saturating_sub (saturating_sub (re_width area) sw) separator_width in
  let list_width := (content_width * 40 / 100)%Z in
  let detail_width := saturating_sub content_width list_width in
  let one := Z.min separator_width 1 in
  let list_x := (re_x area + sw + one)%Z in
  let detail_x := (list_x + list_width + one)%Z in
  mkMainLayoutAreas
    (mkRect (re_x area) (re_y area) sw main_height)
    (mkRect (re_x area + sw) (re_y area) one main_height)
    (mkRect list_x (re_y area) list_width main_height)
    (mkRect (list_x + list_width) (re_y area) one main_height)
    (mkRect detail_x (re_y area) detail_width main_height)
    (mkRect (re_x area) (re_y area + main_height) (re_width area) 1)
    (mkRect (re_x area) (re_y area + main_height + 1) (re_width area) 1).

(** ** States (tui/state/list_state/state.rs) *)

Record SearchSnapshot : Set := mkSearchSnapshot {
  ss_records : list TuiRecord;
  ss_selected_index : option nat;
  ss_scroll_offset : nat;
}.

Record SearchState : Set := mkSearchState {
  sh_query : string;
  sh_cursor : nat;
  sh_pre_search : option SearchSnapshot;
}.

#[export] Instance eta_SearchState : Eta SearchState := λ s,
  mkSearchState (sh_query s) (sh_cursor s) (sh_pre_search s).

Module ListMode.
Inductive t : Set :=
| Normal
| Search (state : SearchState)
| Visual (selected_ids : gset Uuid).
End ListMode.

Record ListPanelState : Set := mkListPanelState {
  ls_records : list TuiRecord;
  ls_selected_index : option nat;
  ls_scroll_offset : nat;
  ls_mode : ListMode.t;
  ls_sort : RecordSort;
  ls_total_count : nat;
  ls_pending_load_offset : option nat;
  ls_visible_height : nat;
  ls_committed_search_snapshot : option SearchSnapshot;
}.

#[export] Instance eta_ListPanelState : Eta ListPanelState := λ s,
  mkListPanelState (ls_records s) (ls_selected_index s) (ls_scroll_offset s) (ls_mode s)
    (ls_sort s) (ls_total_count s) (ls_pending_load_offset s) (ls_visible_height s)
    (ls_committed_search_snapshot s).

Module ListPanelState.

(** [Default] *)
Definition initial : ListPanelState :=
  mkListPanelState [] None 0 ListMode.Normal
    (mkRecordSort SortField.CreatedAt SortDirection.Desc) 0 None 0 None.

Definition with_records (records : list TuiRecord) : ListPanelState :=
  initial <| ls_records := records |> <| ls_total_count := length records |>
    <| ls_selected_index := match records with [] => None | _ => Some 0 end |>.

Definition selected_record (s : ListPanelState) : option TuiRecord :=
  ls_selected_index s ≫= λ idx, ls_records s !! idx.

Definition visible_items_count (s : ListPanelState) : nat :=
  if 0 <? ls_visible_height s then ls_visible_height s else 8.

Definition set_visible_height (height : Z) (s : ListPanelState) : ListPanelState :=
  s <| ls_visible_height := Z.to_nat height |>.

Definition adjust_scroll (s : ListPanelState) : ListPanelState :=
  let visible := visible_items_count s in
  if visible =? 0 then s
  else
    match ls_selected_index s with
    | Some idx =>
        let offset := if idx <? ls_scroll_offset s then idx else ls_scroll_offset s in
        let last_visible := offset + visible - 1 in
        s <| ls_scroll_offset := if last_visible <? idx then idx - visible + 1 else offset |>
    | None => s
    end.

Definition move_down (s : ListPanelState) : ListPanelState :=
  match ls_records s with
  | [] => s
  | _ =>
      let current := default 0 (ls_selected_index s) in
      let next := Nat.min (current + 1) (length (ls_records s) - 1) in
      adjust_scroll (s <| ls_selected_index := Some next |>)
  end.

Definition move_up (s : ListPanelState) : ListPanelState :=
  match ls_records s with
  | [] => s
  | _ =>
      let current := default 0 (ls_selected_index s) in
      adjust_scroll (s <| ls_selected_index := Some (current - 1) |>)
  end.

Definition toggle_sort_direction (s : ListPanelState) : ListPanelState :=
  s <| ls_sort ::= λ o, mkRecordSort (so_field o)
         match so_direction o with
         | SortDirection.Asc => SortDirection.Desc
         | SortDirection.Desc => SortDirection.Asc
         end |>.

Definition cycle_sort_field (s : ListPanelState) : ListPanelState :=
  s <| ls_sort ::= λ o, mkRecordSort
         match so_field o with
         | SortField.CreatedAt => SortField.UpdatedAt
         | SortField.UpdatedAt => SortField.Name
         | SortField.Name => SortField.UsageFrequency
         | SortField.UsageFrequency => SortField.CreatedAt
         end (so_direction o) |>.

(** *** Modes *)

Definition enter_search (s : ListPanelState) : ListPanelState :=
  let snapshot := mkSearchSnapshot (ls_records s) (ls_selected_index s) (ls_scroll_offset s) in
  s <| ls_mode := ListMode.Search (mkSearchState "" 0 (Some snapshot)) |>.

Definition commit_search (s : ListPanelState) : ListPanelState :=
  let s :=
    match ls_mode s with
    | ListMode.Search state => s <| ls_committed_search_snapshot := sh_pre_search state |>
    | _ => s
    end in
  s <| ls_mode := ListMode.Normal |>.

(** The list of a snapshot again, with the identifier of its selected record. *)
Definition restored (snapshot : SearchSnapshot) (s : ListPanelState)
  : ListPanelState * option Uuid :=
  (s <| ls_records := ss_records snapshot |>
     <| ls_selected_index := ss_selected_index snapshot |>
     <| ls_scroll_offset := ss_scroll_offset snapshot |>,
   tr_id <$> (ss_selected_index snapshot ≫= λ idx, ss_records snapshot !! idx)).

Definition restore_committed_search (s : ListPanelState) : ListPanelState * option Uuid :=
  match ls_committed_search_snapshot s with
  | Some snapshot => restored snapshot (s <| ls_committed_search_snapshot := None |>)
  | None => (s, None)
  end.

Definition cancel_search_restore (s : ListPanelState) : ListPanelState * option Uuid :=
  match ls_mode s with
  | ListMode.Search (mkSearchState _ _ (Some snapshot)) =>
      restored snapshot (s <| ls_mode := ListMode.Normal |>)
  | _ => (s <| ls_mode := ListMode.Normal |>, None)
  end.

Definition enter_visual (s : ListPanelState) : ListPanelState :=
  s <| ls_mode := ListMode.Visual ∅ |>.

Definition exit_visual (s : ListPanelState) : ListPanelState := s <| ls_mode := ListMode.Normal |>.

Definition toggle_select_current (s : ListPanelState) : ListPanelState :=
  match tr_id <$> selected_record s with
  | Some id =>
      let s :=
        match ls_mode s with
        | ListMode.Visual ids =>
            s <| ls_mode := ListMode.Visual
                   (if bool_decide (id ∈ ids) then ids ∖ {[id]} else {[id]} ∪ ids) |>
        | _ => s
        end in
      move_down s
  | None => s
  end.

Definition select_all (s : ListPanelState) : ListPanelState :=
  match ls_mode s with
  | ListMode.Visual _ => s <| ls_mode := ListMode.Visual (list_to_set (tr_id <$> ls_records s)) |>
  | _ => s
  end.

Definition deselect_all (s : ListPanelState) : ListPanelState :=
  match ls_mode s with
  | ListMode.Visual _ => s <| ls_mode := ListMode.Visual ∅ |>
  | _ => s
  end.

Definition is_searching (s : ListPanelState) : bool :=
  match ls_mode s with ListMode.Search _ => true | _ => false end.

Definition is_visual (s : ListPanelState) : bool :=
  match ls_mode s with ListMode.Visual _ => true | _ => false end.

Definition visual_selected_ids (s : ListPanelState) : list Uuid :=
  match ls_mode s with ListMode.Visual ids => elements ids | _ => [] end.

(** *** Searching *)

Section search.
Context `{Lowercase}.

Definition search_terms (s : ListPanelState) : option (list string) :=
  match ls_mode s with
  | ListMode.Search state =>
      if bool_decide (trim (sh_query state) = "") then None
      else Some (split_whitespace (to_lowercase (trim (sh_query state))))
  | _ => None
  end.

Definition shows_term (record : TuiRecord) (term : string) : bool :=
  contains_text term (to_lowercase (tr_name record))
  || contains_text term (to_lowercase (tr_subtitle record)).

Definition apply_search_filter (s : ListPanelState) (all_records : list TuiRecord)
  : list TuiRecord :=
  match search_terms s with
  | Some (term :: terms) =>
      filter (λ record, forallb (shows_term record) (term :: terms) = true) all_records
  | _ => all_records
  end.

(** [MainScreenState::apply_search_filter_to_records]: the filtered snapshot, the selected
    record again if it is still shown. *)
Definition apply_search_filter_to_records (s : ListPanelState) : ListPanelState * option Uuid :=
  match ls_mode s with
  | ListMode.Search (mkSearchState _ _ (Some snapshot)) =>
      let filtered := apply_search_filter s (ss_records snapshot) in
      let first := match filtered with [] => None | _ => Some 0 end in
      let index :=
        match tr_id <$> selected_record s with
        | Some prev_id =>
            match list_find (λ r, tr_id r = prev_id) filtered with
            | Some (idx, _) => Some idx
            | None => first
            end
        | None => first
        end in
      let s := adjust_scroll (s <| ls_records := filtered |> <| ls_selected_index := index |>) in
      (s, tr_id <$> selected_record s)
  | _ => (s, None)
  end.

End search.

Definition update_search_query (query : string) (s : ListPanelState) : ListPanelState :=
  match ls_mode s with
  | ListMode.Search state =>
      s <| ls_mode := ListMode.Search (mkSearchState query (String.length query) (sh_pre_search state)) |>
  | _ => s
  end.

(** *** After a batch *)

Definition cleanup_after_batch (removed_ids : list Uuid) (s : ListPanelState) : ListPanelState :=
  let records := filter (λ r, tr_id r ∉ removed_ids) (ls_records s) in
  let s := s <| ls_records := records |>
             <| ls_total_count ::= λ n, n - length removed_ids |> in
  let s :=
    match records with
    | [] => s <| ls_selected_index := None |> <| ls_scroll_offset := 0 |>
    | _ =>
        match ls_selected_index s with
        | Some idx =>
            if length records <=? idx then s <| ls_selected_index := Some (length records - 1) |>
            else s
        | None => s
        end
    end in
  if is_visual s then exit_visual s else s.

End ListPanelState.

(** ** Records in the trash *)

Module TrashWarningTier.
Inductive t : Set := Safe | Moderate | Urgent | Critical.
End TrashWarningTier.

Definition trash_warning_tier (remaining_days : Z) : TrashWarningTier.t :=
  if (15 <? remaining_days)%Z then TrashWarningTier.Safe
  else if (7 <=? remaining_days)%Z then TrashWarningTier.Moderate
  else if (3 <=? remaining_days)%Z then TrashWarningTier.Urgent
  else TrashWarningTier.Critical.

(** The number of the day of an instant in the time zone of the terminal. *)
Class LocalTime : Type := local_day : Instant → Z.

Definition calculate_remaining_days `{LocalTime} (now deleted_at : Instant) (retention_days : Z)
  : option Z :=
  if (retention_days =? 0)%Z then None
  else Some (retention_days - (local_day now - local_day deleted_at))%Z.

(** ** Drawing (tui/screens/main/list/mod.rs)

    [panel] is the area of the panel, of which the bar takes two rows. *)
Definition item_height (width : Z) : Z :=
  if bool_decide (WidthTier.from_width width = WidthTier.Minimum) then 2 else 3.

Definition rendered_items (list_area : Rect) : nat :=
  Z.to_nat (Z.max (re_height list_area / item_height (re_width list_area)) 1).

(** [top_padded] *)
Definition top_padded (area : Rect) (padding : Z) : Rect :=
  let applied := Z.min padding (re_height area) in
  mkRect (re_x area) (re_y area + applied) (re_width area)
    (saturating_sub (re_height area) applied).

Definition list_body (panel : Rect) : Rect :=
  let bar_height := Z.min 2 (re_height panel) in
  mkRect (re_x panel) (re_y panel + bar_height) (re_width panel)
    (saturating_sub (re_height panel) bar_height).

(** The first record shown where [visible] are, and the row of the selected one. *)
Definition first_rendered (visible : nat) (s : ListPanelState) : nat :=
  Nat.min (ls_scroll_offset s) (length (ls_records s) - visible).

Definition selected_in_view (visible : nat) (s : ListPanelState) : option nat :=
  idx ← ls_selected_index s;
  let offset := first_rendered visible s in
  if idx <? offset then None
  else if idx - offset <? visible then Some (idx - offset) else None.

Definition rendered_records (visible : nat) (s : ListPanelState) : list TuiRecord :=
  take visible (drop (first_rendered visible s) (ls_records s)).

(** ** Sequences of operations

    The methods of the panel state.  Pages that arrive, clicks and rows that the screen
    removes are in [MainScreen]. *)

Module ListOp.
Inductive t : Set :=
| MoveDown | MoveUp | ToggleSortDirection | CycleSortField
| EnterSearch | CommitSearch | RestoreCommittedSearch | CancelSearchRestore
| UpdateSearchQuery (query : string) | ApplySearchFilter
| EnterVisual | ExitVisual | ToggleSelectCurrent | SelectAll | DeselectAll
| CleanupAfterBatch (removed_ids : list Uuid).
End ListOp.

Section run.
Context `{Lowercase}.
Import ListPanelState.

Definition run_op (op : ListOp.t) (s : ListPanelState) : ListPanelState :=
  match op with
  | ListOp.MoveDown => move_down s
  | ListOp.MoveUp => move_up s
  | ListOp.ToggleSortDirection => toggle_sort_direction s
  | ListOp.CycleSortField => cycle_sort_field s
  | ListOp.EnterSearch => enter_search s
  | ListOp.CommitSearch => commit_search s
  | ListOp.RestoreCommittedSearch => (restore_committed_search s).1
  | ListOp.CancelSearchRestore => (cancel_search_restore s).1
  | ListOp.UpdateSearchQuery query => update_search_query query s
  | ListOp.ApplySearchFilter => (apply_search_filter_to_records s).1
  | ListOp.EnterVisual => enter_visual s
  | ListOp.ExitVisual => exit_visual s
  | ListOp.ToggleSelectCurrent => toggle_select_current s
  | ListOp.SelectAll => select_all s
  | ListOp.DeselectAll => deselect_all s
  | ListOp.CleanupAfterBatch removed_ids => cleanup_after_batch removed_ids s
  end.

Definition run_ops (ops : list ListOp.t) (s : ListPanelState) : ListPanelState :=
  foldl (λ s op, run_op op s) s ops.

End run.

(** ** Properties *)

(** The selected record exists, and is among the [visible] ones from the first shown. *)
Definition in_window (visible : nat) (records : list TuiRecord) (selected : option nat)
    (scroll : nat) : Prop :=
  ∀ i, selected = Some i →
    i < length records ∧ Nat.min scroll (length records - visible) ≤ i ∧
    i < Nat.min scroll (length records - visible) + visible.

Definition snapshot_ok (visible : nat) (p : option SearchSnapshot) : Prop :=
  ∀ sn, p = Some sn →
    in_window visible (ss_records sn) (ss_selected_index sn) (ss_scroll_offset sn).

Definition pre_search (m : ListMode.t) : option SearchSnapshot :=
  match m with ListMode.Search state => sh_pre_search state | _ => None end.

Record list_ok (s : ListPanelState) : Prop := {
  lo_window : in_window (ListPanelState.visible_items_count s) (ls_records s)
                (ls_selected_index s) (ls_scroll_offset s);
  lo_pre_search : snapshot_ok (ListPanelState.visible_items_count s) (pre_search (ls_mode s));
  lo_committed : snapshot_ok (ListPanelState.visible_items_count s)
                   (ls_committed_search_snapshot s);
}.

Import ListPanelState.

Lemma visible_positive s : 0 < visible_items_count s.
Proof. unfold visible_items_count. case_match; [by apply Nat.ltb_lt|lia]. Qed.

Lemma in_window_none v rs n : in_window v rs None n.
Proof. by intros i ?. Qed.

Lemma snapshot_ok_none v : snapshot_ok v None.
Proof. by intros i ?. Qed.

#[local] Hint Resolve in_window_none snapshot_ok_none : core.

Lemma scroll_shows i scroll len visible : i < len → 0 < visible →
  let offset := if i <? scroll then i else scroll in
  let scroll' := if offset + visible - 1 <? i then i - visible + 1 else offset in
  Nat.min scroll' (len - visible) ≤ i < Nat.min scroll' (len - visible) + visible.
Proof.
  intros ??; cbn zeta. destruct (Nat.ltb_spec i scroll);
    match goal with |- context [?a <? ?b] => destruct (Nat.ltb_spec a b) end; lia.
Qed.

(** Scrolling to a selection within the records shows it. *)
Lemma adjust_scroll_ok s :
  (∀ i, ls_selected_index s = Some i → i < length (ls_records s)) →
  snapshot_ok (visible_items_count s) (pre_search (ls_mode s)) →
  snapshot_ok (visible_items_count s) (ls_committed_search_snapshot s) →
  list_ok (adjust_scroll s).
Proof.
  intros Hb Hp Hc. pose proof (visible_positive s) as Hv. unfold adjust_scroll.
  destruct (visible_items_count s =? 0) eqn:E; [apply Nat.eqb_eq in E; lia|].
  destruct (ls_selected_index s) as [i|] eqn:Ei.
  - specialize (Hb _ eq_refl). pose proof (scroll_shows i (ls_scroll_offset s) _ _ Hb Hv) as Hs.
    destruct s; cbn in Ei, Hs, Hp, Hc |- *. subst. constructor; [|done..].
    intros j [= <-]. split; [done|exact Hs].
  - constructor; [rewrite Ei|..]; auto.
Qed.

Lemma with_selected_ok s i : i < length (ls_records s) → list_ok s →
  list_ok (adjust_scroll (s <| ls_selected_index := Some i |>)).
Proof.
  destruct s. intros Hi []. apply adjust_scroll_ok; try done. by intros ? [= <-].
Qed.

(** Moving keeps a selection that is within the records. *)
Lemma move_down_ok s : list_ok s → list_ok (move_down s).
Proof.
  intros H. unfold move_down. destruct (ls_records s) eqn:E; [done|]. rewrite <-E.
  apply with_selected_ok; [|done]. rewrite E; cbn; lia.
Qed.

Lemma move_up_ok s : list_ok s → list_ok (move_up s).
Proof.
  intros H. unfold move_up. destruct (ls_records s) eqn:E; [done|].
  apply with_selected_ok; [|done]. rewrite E.
  destruct (ls_selected_index s) eqn:Ei; [|cbn; lia].
  destruct (lo_window _ H _ Ei). rewrite E in *. cbn in *. lia.
Qed.

Lemma restored_ok sn s : snapshot_ok (visible_items_count s) (Some sn) → list_ok s →
  list_ok (restored sn s).1.
Proof. destruct s. intros Hsn []. constructor; cbn in *; [by apply (Hsn sn)|done..]. Qed.

Lemma list_ok_mode s m : list_ok s →
  snapshot_ok (visible_items_count s) (pre_search m) → list_ok (s <| ls_mode := m |>).
Proof. destruct s. by intros [] ?; constructor. Qed.

Lemma list_ok_committed s p : list_ok s → snapshot_ok (visible_items_count s) p →
  list_ok (s <| ls_committed_search_snapshot := p |>).
Proof. destruct s. by intros [] ?; constructor. Qed.

(** Leaving records out, with a selection behind them at the last one. *)
Lemma in_window_shrink v rs rs' i n : 0 < v → length rs' ≤ length rs → rs' ≠ [] →
  in_window v rs (Some i) n →
  in_window v rs' (Some (if length rs' <=? i then length rs' - 1 else i)) n.
Proof.
  intros Hv Hl Hne H j [= <-]. destruct (H i eq_refl) as (? & ? & ?).
  assert (0 < length rs') by (destruct rs'; [done|cbn; lia]).
  destruct (Nat.leb_spec (length rs') i); lia.
Qed.

Lemma list_ok_leave_visual s : list_ok s → list_ok (if is_visual s then exit_visual s else s).
Proof. intros H. destruct (is_visual s); [|done]. by apply list_ok_mode. Qed.

Lemma cleanup_ok ids s : list_ok s → list_ok (cleanup_after_batch ids s).
Proof.
  intros H. pose proof (visible_positive s) as Hv. destruct H as [Hw Hp Hc].
  unfold cleanup_after_batch. apply list_ok_leave_visual.
  pose proof (length_filter (λ r, tr_id r ∉ ids) (ls_records s)) as Hl.
  destruct s as [rs sel scroll mode sort total pend vis com]; cbn in Hw, Hp, Hc, Hl, Hv |- *.
  destruct (filter _ rs) as [|r rs'] eqn:E; [by constructor|].
  destruct sel as [i|]; [|by constructor].
  pose proof (in_window_shrink _ _ (r :: rs') i scroll Hv Hl ltac:(done) Hw) as Hs.
  destruct (length (r :: rs') <=? i); constructor; first [exact Hs|exact Hp|exact Hc].
Qed.

Section preserved.
Context `{Lowercase}.

Lemma apply_filter_ok s : list_ok s → list_ok (apply_search_filter_to_records s).1.
Proof.
  intros H'. unfold apply_search_filter_to_records.
  destruct (ls_mode s) as [|[q c [sn|]]|] eqn:E; try done.
  destruct H' as [_ Hp Hc]. set (filtered := apply_search_filter s _).
  assert (∀ i, match filtered with [] => None | _ => Some 0 end = Some i →
    i < length filtered) as Hfirst by (destruct filtered; intros i [= <-]; cbn; lia).
  cbn -[list_find]. apply adjust_scroll_ok; [|destruct s; done..].
  intros i. destruct s; cbn -[list_find].
  destruct (tr_id <$> _); [|apply Hfirst].
  destruct (list_find _ _) as [[j r]|] eqn:L; [|apply Hfirst].
  intros [= <-]. apply list_find_Some in L as [L _]. by apply lookup_lt_Some in L.
Qed.

Lemma run_op_ok op s : list_ok s → list_ok (run_op op s).
Proof.
  intros H'. destruct op; cbn [run_op].
  - by apply move_down_ok.
  - by apply move_up_ok.
  - by destruct s, H'.
  - by destruct s, H'.
  - apply list_ok_mode; [done|]. intros sn [= <-]. apply H'.
  - unfold commit_search. destruct (ls_mode s) eqn:E; apply list_ok_mode; auto.
    apply list_ok_committed; [done|]. pose proof (lo_pre_search _ H') as Hp. by rewrite E in Hp.
  - unfold restore_committed_search. destruct (ls_committed_search_snapshot s) eqn:E; [|done].
    apply restored_ok; [|by apply list_ok_committed; auto].
    pose proof (lo_committed _ H') as Hc. rewrite E in Hc. by destruct s.
  - unfold cancel_search_restore. destruct (ls_mode s) as [|[q c [sn|]]|] eqn:E;
      try (apply list_ok_mode; by auto).
    apply restored_ok; [|apply list_ok_mode; by auto].
    pose proof (lo_pre_search _ H') as Hp. rewrite E in Hp. by destruct s.
  - unfold update_search_query. destruct (ls_mode s) eqn:E; [done| |done].
    apply list_ok_mode; [done|]. pose proof (lo_pre_search _ H') as Hp. by rewrite E in Hp.
  - by apply apply_filter_ok.
  - apply list_ok_mode; by auto.
  - apply list_ok_mode; by auto.
  - unfold toggle_select_current. destruct (tr_id <$> _); [|done]. apply move_down_ok.
    destruct (ls_mode s); try done. apply list_ok_mode; by auto.
  - unfold select_all. destruct (ls_mode s); try done. apply list_ok_mode; by auto.
  - unfold deselect_all. destruct (ls_mode s); try done. apply list_ok_mode; by auto.
  - by apply cleanup_ok.
Qed.

Lemma adjust_scroll_height s : ls_visible_height (adjust_scroll s) = ls_visible_height s.
Proof. unfold adjust_scroll. by repeat case_match; destruct s. Qed.

Lemma run_op_height op s : ls_visible_height (run_op op s) = ls_visible_height s.
Proof.
  destruct op; cbn [run_op];
    unfold move_down, move_up, commit_search, restore_committed_search, cancel_search_restore,
      update_search_query, apply_search_filter_to_records, toggle_select_current, select_all,
      deselect_all, cleanup_after_batch, is_visual, move_down; destruct s; cbn -[list_find];
    repeat (case_match; cbn -[list_find]); by rewrite ?adjust_scroll_height.
Qed.

Lemma run_ops_ok ops s : list_ok s → list_ok (run_ops ops s).
Proof. revert s. induction ops as [|op ops IH]; intros s H'; [done|]. apply IH, run_op_ok, H'. Qed.

Lemma run_ops_height ops s : visible_items_count (run_ops ops s) = visible_items_count s.
Proof.
  unfold visible_items_count. assert (ls_visible_height (run_ops ops s) = ls_visible_height s) as ->.
  { revert s. induction ops as [|op ops IH]; intros s; [done|]. etransitivity; [apply IH|].
    apply run_op_height. }
  done.
Qed.

End preserved.

Lemma with_records_ok records : list_ok (with_records records).
Proof. constructor; try apply snapshot_ok_none. destruct records; intros i [= <-]. cbn. lia. Qed.

(** The state counts on eight rows, since the height of the panel is never set; a panel
    that draws fewer can leave its selection out. *)
Lemma in_window_rendered s visible i : list_ok s → visible_items_count s ≤ visible →
  ls_selected_index s = Some i →
  ∃ row, selected_in_view visible s = Some row ∧
    rendered_records visible s !! row = selected_record s ∧ is_Some (selected_record s).
Proof.
  intros H Hv Hi. destruct (lo_window _ H _ Hi) as (Hlen & Hlo & Hhi).
  pose proof (visible_positive s).
  unfold selected_in_view, rendered_records, selected_record, first_rendered. rewrite Hi.
  cbn -[Nat.ltb Nat.sub Nat.min].
  set (off := Nat.min (ls_scroll_offset s) (length (ls_records s) - visible)).
  assert (off ≤ i ∧ i - off < visible) as [? ?] by (subst off; lia).
  exists (i - off). destruct (Nat.ltb_spec i off); [lia|].
  destruct (Nat.ltb_spec (i - off) visible); [|lia].
  split; [done|]. rewrite lookup_take_lt, lookup_drop by lia.
  replace (off + (i - off)) with i by lia. split; [done|]. by apply lookup_lt_is_Some.
Qed.

(** Whatever methods of the panel state run on a list that was loaded, the moves, the
    sorting, the search and its snapshots, the selection of several records and the cleanup
    after a batch, the selected record exists and is drawn, in the row that is marked, when
    the panel draws at least the eight rows that the state counts on.  (Where the screen
    itself takes rows out of the list, after a record was restored or destroyed, the
    selection is not corrected.) *)
Theorem selection_stays_visible `{Lowercase} records ops visible i :
  let s := run_ops ops (with_records records) in
  8 ≤ visible → ls_selected_index s = Some i →
  ∃ row, selected_in_view visible s = Some row ∧
    rendered_records visible s !! row = selected_record s ∧ is_Some (selected_record s).
Proof.
  intros s Hv Hi. apply in_window_rendered with (i := i);
    [|by unfold s; rewrite run_ops_height|done].
  apply run_ops_ok, with_records_ok.
Qed.

(** In a terminal of the minimal size six records are drawn: six steps down mark none. *)
Lemma minimal_terminal_hides_selection records : 7 ≤ length records →
  let layout := calculate_layout (mkRect 0 0 MIN_WIDTH MIN_HEIGHT) MIN_WIDTH in
  let visible := rendered_items (list_body (top_padded (la_list layout) 1)) in
  let s := Nat.iter 6 move_down (with_records records) in
  visible = 6 ∧ ls_selected_index s = Some 6 ∧ selected_in_view visible s = None.
Proof.
  intros H. do 7 (destruct records as [|? records]; [cbn in H; lia|]).
  split; [by vm_compute|]. by destruct records.
Qed.

(** ** Searching and leaving the search *)

(** The operations of a search. *)
Definition searches (op : ListOp.t) : bool :=
  match op with
  | ListOp.UpdateSearchQuery _ | ListOp.ApplySearchFilter | ListOp.MoveDown | ListOp.MoveUp => true
  | _ => false
  end.

Lemma adjust_scroll_mode s :
  ls_mode (adjust_scroll s) = ls_mode s.
Proof. unfold adjust_scroll. by repeat case_match; destruct s. Qed.

Lemma search_op_keeps `{Lowercase} op s sn :
  searches op = true → is_searching s = true → pre_search (ls_mode s) = Some sn →
  is_searching (run_op op s) = true ∧ pre_search (ls_mode (run_op op s)) = Some sn.
Proof.
  unfold is_searching. intros Hop Hs Hp.
  assert (∀ s', ls_mode s' = ls_mode s →
    match ls_mode s' with ListMode.Search _ => true | _ => false end = true ∧
    pre_search (ls_mode s') = Some sn) as Hsame by by intros ? ->.
  destruct op; try done; cbn [run_op].
  - apply Hsame. unfold move_down. destruct (ls_records s); [done|].
    rewrite adjust_scroll_mode. by destruct s.
  - apply Hsame. unfold move_up. destruct (ls_records s); [done|].
    rewrite adjust_scroll_mode. by destruct s.
  - unfold update_search_query. destruct (ls_mode s) eqn:E; try done.
  - apply Hsame. unfold apply_search_filter_to_records.
    destruct (ls_mode s) as [|[q c [sn'|]]|] eqn:E; try done. cbn -[list_find].
    rewrite adjust_scroll_mode. by destruct s.
Qed.

(** The list is as it was, in its records, selection and scroll offset. *)
Definition shows_again (s s' : ListPanelState) : Prop :=
  ls_records s' = ls_records s ∧ ls_selected_index s' = ls_selected_index s ∧
  ls_scroll_offset s' = ls_scroll_offset s ∧ ls_mode s' = ListMode.Normal.

(** C31: After a search of any queries and moves, escape shows the list of before it, at
    once or after the search was committed, and names the record that is selected again. *)
Theorem escape_restores_list `{Lowercase} ops s :
  Forall (λ op, searches op = true) ops →
  let found := run_ops ops (enter_search s) in
  let cancelled := cancel_search_restore found in
  let committed := restore_committed_search (commit_search found) in
  shows_again s cancelled.1 ∧ cancelled.2 = tr_id <$> selected_record s ∧
  shows_again s committed.1 ∧ committed.2 = tr_id <$> selected_record s.
Proof.
  intros Hops. cbn zeta.
  set (sn := mkSearchSnapshot (ls_records s) (ls_selected_index s) (ls_scroll_offset s)).
  assert (is_searching (run_ops ops (enter_search s)) = true ∧
    pre_search (ls_mode (run_ops ops (enter_search s))) = Some sn) as [Hs Hp].
  { assert (is_searching (enter_search s) = true ∧
      pre_search (ls_mode (enter_search s)) = Some sn) as [H1 H2] by by destruct s.
    revert H1 H2. generalize (enter_search s).
    induction Hops as [|op ops Hop Hops IH]; intros s1 H1 H2; [done|].
    destruct (search_op_keeps op s1 sn Hop H1 H2). by apply IH. }
  unfold is_searching in Hs. generalize dependent (run_ops ops (enter_search s)).
  intros s1 Hs Hp. unfold cancel_search_restore, commit_search, restore_committed_search.
  destruct (ls_mode s1) as [|[q c p]|]; try done. cbn in Hp. subst p. by destruct s1, s.
Qed.

Lemma cleanup_keeps_snapshot ids s :
  ls_committed_search_snapshot (cleanup_after_batch ids s) = ls_committed_search_snapshot s.
Proof.
  unfold cleanup_after_batch, is_visual. destruct s; cbn. by repeat (case_match; cbn).
Qed.

(** What a committed search goes back to is not told of records that were deleted since. *)
Lemma committed_search_brings_back ids s :
  ls_records (restore_committed_search
    (cleanup_after_batch ids (commit_search (enter_search s)))).1 = ls_records s.
Proof.
  unfold restore_committed_search. rewrite cleanup_keeps_snapshot. by destruct s.
Qed.
