(* ===== verification/Sidebar.v ===== *)
(** * The sidebar of the main screen (src/tui/state/main_state/state.rs,
    src/tui/state/tag_management.rs)

    The categories and tags by which records are filtered, the selection among them, the
    scrolling of the tags and where they are drawn, and the box in which a tag is renamed. *)

From stdpp Require Import sorting.
From S2P Require Import Prelude Text Env Types Payload Queries Vault Records Tags Listing.
From S2P Require Import ListPanel.

(** ** Renaming a tag (tui/state/tag_management.rs) *)

Module TagSortOrder.
Inductive t : Set := Frequency | Alphabetical | RecentlyUsed.

#[global] Instance t_eq_dec : EqDecision t.
Proof. solve_decision. Defined.

Definition cycle (o : t) : t :=
  match o with
  | Frequency => Alphabetical
  | Alphabetical => RecentlyUsed
  | RecentlyUsed => Frequency
  end.

Definition all : list t := [Frequency; Alphabetical; RecentlyUsed].
End TagSortOrder.

(** [cursor] counts bytes of [text]. *)
Record InlineEditState : Set := mkInlineEditState {
  ie_original_name : string;
  ie_text : string;
  ie_cursor : nat;
  ie_conflict : bool;
}.

#[export] Instance eta_InlineEditState : Eta InlineEditState := λ e,
  mkInlineEditState (ie_original_name e) (ie_text e) (ie_cursor e) (ie_conflict e).

Module InlineEditState.

Definition new (tag_name : string) : InlineEditState :=
  mkInlineEditState tag_name tag_name (String.length tag_name) false.

(** [&text[..cursor]] and [&text[cursor..]] *)
Definition before (e : InlineEditState) : string := String.substring 0 (ie_cursor e) (ie_text e).
Definition behind (e : InlineEditState) : string :=
  String.substring (ie_cursor e) (String.length (ie_text e) - ie_cursor e) (ie_text e).

(** The start of the last character before the cursor. *)
Definition prev_start (e : InlineEditState) : nat :=
  match last (chars (before e)) with
  | Some c => ie_cursor e - String.length (encode_char c)
  | None => 0
  end.

Definition insert_char (ch : Z) (e : InlineEditState) : InlineEditState :=
  if (MAX_TAG_CHARS <=? char_count (ie_text e))%N then e
  else
    e <| ie_text := before e +:+ encode_char ch +:+ behind e |>
      <| ie_cursor ::= λ n, n + String.length (encode_char ch) |>
      <| ie_conflict := false |>.

Definition backspace (e : InlineEditState) : InlineEditState :=
  if 0 <? ie_cursor e then
    let prev := prev_start e in
    e <| ie_text := String.substring 0 prev (ie_text e) +:+ behind e |>
      <| ie_cursor := prev |> <| ie_conflict := false |>
  else e.

Definition cursor_left (e : InlineEditState) : InlineEditState :=
  if 0 <? ie_cursor e then e <| ie_cursor := prev_start e |> else e.

Definition cursor_right (e : InlineEditState) : InlineEditState :=
  if ie_cursor e <? String.length (ie_text e) then
    e <| ie_cursor :=
      match chars (behind e) with
      | c :: _ :: _ => ie_cursor e + String.length (encode_char c)
      | _ => String.length (ie_text e)
      end |>
  else e.

Definition confirm (e : InlineEditState) : string := trim (ie_text e).

Definition check_conflict `{Lowercase} (existing_tags : list string) (e : InlineEditState)
  : InlineEditState :=
  let trimmed := to_lowercase (trim (ie_text e)) in
  e <| ie_conflict :=
    existsb (λ t, bool_decide (to_lowercase t = trimmed)
                  && negb (bool_decide (t = ie_original_name e))) existing_tags |>.

End InlineEditState.

Record TagManagementState : Set := mkTagManagementState {
  tg_sort_order : TagSortOrder.t;
  tg_inline_edit : option InlineEditState;
}.

#[export] Instance eta_TagManagementState : Eta TagManagementState := λ s,
  mkTagManagementState (tg_sort_order s) (tg_inline_edit s).

Module TagManagementState.

Definition new : TagManagementState := mkTagManagementState TagSortOrder.Frequency None.

Definition start_rename (tag_name : string) (s : TagManagementState) : TagManagementState :=
  s <| tg_inline_edit := Some (InlineEditState.new tag_name) |>.

Definition cancel_rename (s : TagManagementState) : TagManagementState :=
  s <| tg_inline_edit := None |>.

Definition is_renaming (s : TagManagementState) : bool := bool_decide (is_Some (tg_inline_edit s)).

Definition take_rename (s : TagManagementState) : option InlineEditState * TagManagementState :=
  (tg_inline_edit s, s <| tg_inline_edit := None |>).

End TagManagementState.

(** ** The items (tui/state/main_state/state.rs) *)

Module SidebarCategory.
Inductive t : Set := All | Favorites | Expired | HealthIssues | Trash.

#[global] Instance t_eq_dec : EqDecision t.
Proof. solve_decision. Defined.

Definition index (c : t) : nat :=
  match c with All => 0 | Favorites => 1 | Expired => 2 | HealthIssues => 3 | Trash => 4 end.

Definition to_filter (c : t) : RecordFilter.t :=
  match c with
  | All => RecordFilter.All
  | Favorites => RecordFilter.Favorites
  | Expired => RecordFilter.Expired
  | HealthIssues => RecordFilter.HealthIssues
  | Trash => RecordFilter.Trash
  end.
End SidebarCategory.

Module SidebarItem.
Inductive t : Set :=
| Spacer | Brand | Category (c : SidebarCategory.t) | Separator | TagHeader
| Tag (name : string) (record_count : nat) | Generator | Config.

#[global] Instance t_eq_dec : EqDecision t.
Proof. solve_decision. Defined.

Definition is_selectable (i : t) : bool :=
  match i with Spacer | Brand | Separator => false | _ => true end.

Definition is_tag (i : t) : bool := match i with Tag _ _ => true | _ => false end.
End SidebarItem.

Record CategoryCounts : Set := mkCategoryCounts {
  cc_all : nat;
  cc_favorites : nat;
  cc_expired : nat;
  cc_health_issues : nat;
  cc_trash : nat;
}.

Record SidebarState : Set := mkSidebarState {
  sb_items : list SidebarItem.t;
  sb_selected_index : nat;
  sb_tags_expanded : bool;
  sb_tag_scroll_offset : nat;
  sb_tag_management_mode : bool;
  sb_tag_management : TagManagementState;
  sb_tags : list Tags.Tag;
  sb_tag_metadata : gmap Z TagSortMeta;
  sb_category_counts : CategoryCounts;
}.

#[export] Instance eta_SidebarState : Eta SidebarState := λ s,
  mkSidebarState (sb_items s) (sb_selected_index s) (sb_tags_expanded s)
    (sb_tag_scroll_offset s) (sb_tag_management_mode s) (sb_tag_management s) (sb_tags s)
    (sb_tag_metadata s) (sb_category_counts s).

(** [items.iter().position(|item| ...)] *)
Definition position {A} (p : A → bool) (l : list A) : option nat :=
  fst <$> list_find (λ x, p x = true) l.

Module SidebarState.

Definition fixed_items : list SidebarItem.t := [
  SidebarItem.Spacer; SidebarItem.Brand; SidebarItem.Separator;
  SidebarItem.Category SidebarCategory.All; SidebarItem.Separator;
  SidebarItem.Category SidebarCategory.Favorites; SidebarItem.Separator;
  SidebarItem.Category SidebarCategory.Expired; SidebarItem.Separator;
  SidebarItem.Category SidebarCategory.HealthIssues; SidebarItem.Separator;
  SidebarItem.Category SidebarCategory.Trash; SidebarItem.Separator; SidebarItem.TagHeader].

Definition footer_items : list SidebarItem.t := [
  SidebarItem.Separator; SidebarItem.Generator; SidebarItem.Separator; SidebarItem.Config].

Definition tag_items (s : SidebarState) (tag : Tags.Tag) : list SidebarItem.t :=
  let count := from_option tm_record_count 0 (sb_tag_metadata s !! tag_id tag) in
  [SidebarItem.Separator; SidebarItem.Tag (Tags.tag_name tag) count].

Definition build_items (s : SidebarState) : list SidebarItem.t :=
  fixed_items ++ (if sb_tags_expanded s then sb_tags s ≫= tag_items s else []) ++ footer_items.

Definition item (s : SidebarState) (index : nat) : option SidebarItem.t := sb_items s !! index.

Definition selectable_at (s : SidebarState) (index : nat) : bool :=
  from_option SidebarItem.is_selectable false (item s index).

(** The first selectable index on the way around from [start]. *)
Definition next_selectable_from (s : SidebarState) (start : nat) : option nat :=
  let len := length (sb_items s) in
  head (filter (λ idx, selectable_at s idx = true)
          ((λ offset, (start + offset) mod len) <$> seq 0 len)).

Definition prev_selectable_from (s : SidebarState) (start : nat) : option nat :=
  let len := length (sb_items s) in
  head (filter (λ idx, selectable_at s idx = true)
          ((λ offset, (start + len - offset) mod len) <$> seq 0 len)).

Definition footer_start_index (s : SidebarState) : nat :=
  match position (λ i, bool_decide (i = SidebarItem.Generator)) (sb_items s) with
  | Some (S idx) => idx
  | _ => length (sb_items s)
  end.

Definition tag_header_index (s : SidebarState) : option nat :=
  position (λ i, bool_decide (i = SidebarItem.TagHeader)) (sb_items s).

Definition select (index : option nat) (s : SidebarState) : SidebarState :=
  match index with Some idx => s <| sb_selected_index := idx |> | None => s end.

Definition rebuild (s : SidebarState) : SidebarState :=
  let s := s <| sb_items := build_items s |> in
  let s := s <| sb_tag_scroll_offset ::= λ n, Nat.min n (footer_start_index s) |> in
  let s := if length (sb_items s) <=? sb_selected_index s then s <| sb_selected_index := 0 |>
           else s in
  if selectable_at s (sb_selected_index s) then s
  else select (next_selectable_from s (sb_selected_index s)) s.

(** [Default] *)
Definition initial : SidebarState :=
  rebuild (mkSidebarState [] 0 true 0 false TagManagementState.new [] ∅
             (mkCategoryCounts 0 0 0 0 0)).

(** *** Scrolling the tags *)

Definition tag_scroll_start_index (s : SidebarState) : nat :=
  Nat.min (match tag_header_index s with
           | Some index => index + 1
           | None => footer_start_index s
           end) (footer_start_index s).

Definition tag_scroll_item_count (s : SidebarState) : nat :=
  footer_start_index s - tag_scroll_start_index s.

Definition item_render_height (s : SidebarState) (index : nat) : nat :=
  match item s index with
  | None => 1
  | Some i =>
      if (sb_selected_index s =? index) && SidebarItem.is_selectable i then
        match i with SidebarItem.Generator | SidebarItem.Config => 1 | _ => 3 end
      else 1
  end.

Definition heights (s : SidebarState) (start end_ : nat) : nat :=
  sum_list (item_render_height s <$> seq start (end_ - start)).

Definition fixed_top_height (s : SidebarState) : nat := heights s 0 (tag_scroll_start_index s).

Definition footer_render_height (s : SidebarState) : nat :=
  heights s (footer_start_index s) (length (sb_items s)).

Definition nav_visible_items_for_height (s : SidebarState) (sidebar_height : Z) : nat :=
  let footer_height := Nat.min (footer_render_height s) (Z.to_nat sidebar_height) in
  let remaining := Z.to_nat sidebar_height - footer_height in
  let top_height := Nat.min (fixed_top_height s) remaining in
  Nat.max (remaining - top_height) 1.

Definition max_tag_scroll_offset (s : SidebarState) (visible_items : nat) : nat :=
  tag_scroll_item_count s - Nat.max visible_items 1.

Definition scroll_tags_by (delta : Z) (visible_items : nat) (s : SidebarState) : SidebarState :=
  if (delta <? 0)%Z then s <| sb_tag_scroll_offset ::= λ n, n - Z.abs_nat delta |>
  else s <| sb_tag_scroll_offset ::= λ n,
         Nat.min (n + Z.to_nat delta) (max_tag_scroll_offset s visible_items) |>.

Definition ensure_selected_visible (visible_items : nat) (s : SidebarState) : SidebarState :=
  let scroll_start := tag_scroll_start_index s in
  let scroll_end := footer_start_index s in
  if (sb_selected_index s <? scroll_start) || (scroll_end <=? sb_selected_index s) then s
  else
    let visible_items := Nat.max visible_items 1 in
    let relative_index := sb_selected_index s - scroll_start in
    let offset := sb_tag_scroll_offset s in
    let offset :=
      if relative_index <? offset then relative_index
      else if offset + visible_items <=? relative_index
      then relative_index + 1 - visible_items
      else offset in
    s <| sb_tag_scroll_offset := Nat.min offset (max_tag_scroll_offset s visible_items) |>.

(** *** Selecting *)

Definition next_selectable (s : SidebarState) : SidebarState :=
  let start := if sb_selected_index s + 1 <? length (sb_items s) then sb_selected_index s + 1
               else 0 in
  select (next_selectable_from s start) s.

Definition prev_selectable (s : SidebarState) : SidebarState :=
  let start := if 0 <? sb_selected_index s then sb_selected_index s - 1
               else length (sb_items s) - 1 in
  select (prev_selectable_from s start) s.

Definition move_down (s : SidebarState) : SidebarState := next_selectable s.
Definition move_up (s : SidebarState) : SidebarState := prev_selectable s.

Definition current_filter (s : SidebarState) : RecordFilter.t :=
  match item s (sb_selected_index s) with
  | Some (SidebarItem.Category cat) => SidebarCategory.to_filter cat
  | Some (SidebarItem.Tag name _) => RecordFilter.Tag name
  | _ => RecordFilter.All
  end.

Definition select_category (category : SidebarCategory.t) (s : SidebarState) : SidebarState :=
  select (position (λ i, bool_decide (i = SidebarItem.Category category)) (sb_items s)) s.

Definition select_tag_header (s : SidebarState) : SidebarState := select (tag_header_index s) s.

Definition select_first_tag (s : SidebarState) : SidebarState :=
  select (position SidebarItem.is_tag (sb_items s)) s.

Definition toggle_tags (s : SidebarState) : SidebarState :=
  let s := rebuild (s <| sb_tags_expanded ::= negb |>) in
  if sb_tags_expanded s then s else select_tag_header s.

Definition enter_tag_management (s : SidebarState) : SidebarState :=
  let s := s <| sb_tag_management_mode := true |> in
  if bool_decide (item s (sb_selected_index s) = Some SidebarItem.TagHeader)
  then select_first_tag s else s.

Definition exit_tag_management (s : SidebarState) : SidebarState :=
  s <| sb_tag_management_mode := false |>
    <| sb_tag_management ::= TagManagementState.cancel_rename |>.

Definition selected_tag_name (s : SidebarState) : option string :=
  match item s (sb_selected_index s) with Some (SidebarItem.Tag name _) => Some name | _ => None end.

Section sort.
Context `{Lowercase}.

Definition name_le (a b : Tags.Tag) : bool :=
  bool_decide (text_le (to_lowercase (Tags.tag_name a)) (to_lowercase (Tags.tag_name b))).

(** Whether the comparison of a sort does not put [b] before [a]. *)
Definition tag_le (order : TagSortOrder.t) (meta : gmap Z TagSortMeta) (a b : Tags.Tag) : bool :=
  match order with
  | TagSortOrder.Frequency =>
      let count t := from_option tm_record_count 0 (meta !! tag_id t) in
      (count b <? count a) || (count a =? count b) && name_le a b
  | TagSortOrder.Alphabetical => name_le a b
  | TagSortOrder.RecentlyUsed =>
      let time t := from_option tm_last_used_at 0%Z (meta !! tag_id t) in
      if (time a =? 0)%Z then (time b =? 0)%Z && name_le a b
      else
        (time b =? 0)%Z || (time b <? time a)%Z || (time a =? time b)%Z && name_le a b
  end.

Definition tag_before (order : TagSortOrder.t) (meta : gmap Z TagSortMeta) (a b : Tags.Tag)
  : Prop := tag_le order meta a b = true.

#[global] Instance tag_before_dec order meta : RelDecision (tag_before order meta).
Proof. intros a b. unfold tag_before. apply _. Defined.

Definition sort_tags_by_current_order (s : SidebarState) : SidebarState :=
  let order := tg_sort_order (sb_tag_management s) in
  rebuild (s <| sb_tags ::= merge_sort (tag_before order (sb_tag_metadata s)) |>).

End sort.

(** *** The item at a row of the terminal *)

(** [relative_row] rows into the items from [start] to [end_]. *)
Fixpoint index_in_range (s : SidebarState) (indices : list nat) (relative_row y : nat)
  : option nat :=
  match indices with
  | index :: indices =>
      let y' := y + item_render_height s index in
      if relative_row <? y' then Some index else index_in_range s indices relative_row y'
  | [] => None
  end.

Definition item_index_in_range (s : SidebarState) (start end_ relative_row : nat) : option nat :=
  index_in_range s (seq start (end_ - start)) relative_row 0.

Definition item_index_at (s : SidebarState) (rect : Rect) (row : Z) : option nat :=
  if (row <? re_y rect)%Z || (saturating_add (re_y rect) (re_height rect) <=? row)%Z then None
  else
    let footer_start := footer_start_index s in
    let footer_height := Z.min (Z.of_nat (footer_render_height s)) (re_height rect) in
    let footer_top := saturating_add (re_y rect) (saturating_sub (re_height rect) footer_height) in
    if (footer_top <=? row)%Z then
      item_index_in_range s footer_start (length (sb_items s))
        (Z.to_nat (saturating_sub row footer_top))
    else
      let scroll_start := tag_scroll_start_index s in
      let top_height :=
        Z.min (Z.of_nat (fixed_top_height s)) (saturating_sub footer_top (re_y rect)) in
      let top_bottom := saturating_add (re_y rect) top_height in
      if (row <? top_bottom)%Z then
        item_index_in_range s 0 scroll_start (Z.to_nat (saturating_sub row (re_y rect)))
      else
        let tag_area_height := saturating_sub footer_top top_bottom in
        if (tag_area_height =? 0)%Z then None
        else
          let visible_items := Z.to_nat (Z.max tag_area_height 1) in
          let offset := Nat.min (sb_tag_scroll_offset s) (max_tag_scroll_offset s visible_items) in
          item_index_in_range s (scroll_start + offset) footer_start
            (Z.to_nat (saturating_sub row top_bottom)).

Definition tag_scroll_region_contains (s : SidebarState) (rect : Rect) (row : Z) : bool :=
  match item_index_at s rect row with
  | Some index => (tag_scroll_start_index s <=? index) && (index <? footer_start_index s)
  | None => false
  end.

End SidebarState.

(** ** Properties of the box

    The text before and behind the cursor, as characters. *)

Definition shows (l r : list Z) (e : InlineEditState) : Prop :=
  Forall is_char l ∧ Forall is_char r ∧ ie_text e = of_chars (l ++ r) ∧
  ie_cursor e = String.length (of_chars l).

Module EditKey.
Inductive t : Set := Char (c : Z) | Backspace | Left | Right.

Definition ok (k : t) : Prop := match k with Char c => is_char c | _ => True end.
End EditKey.

Definition edit (k : EditKey.t) (e : InlineEditState) : InlineEditState :=
  match k with
  | EditKey.Char c => InlineEditState.insert_char c e
  | EditKey.Backspace => InlineEditState.backspace e
  | EditKey.Left => InlineEditState.cursor_left e
  | EditKey.Right => InlineEditState.cursor_right e
  end.

(** The same on the characters: those before the cursor, from it on backwards, and those
    behind. *)
Definition edit_chars (k : EditKey.t) (z : list Z * list Z) : list Z * list Z :=
  let '(l, r) := z in
  match k with
  | EditKey.Char c => if length l + length r <? N.to_nat MAX_TAG_CHARS then (c :: l, r) else z
  | EditKey.Backspace => (tail l, r)
  | EditKey.Left => match l with c :: l => (l, c :: r) | [] => z end
  | EditKey.Right => match r with c :: r => (c :: l, r) | [] => z end
  end.

Lemma substring_front s t : String.substring 0 (String.length s) (s +:+ t) = s.
Proof. apply substring_app_l. Qed.

Section box.
Import InlineEditState.
Context (l r : list Z) (e : InlineEditState) (H : shows l r e).

Lemma shows_before : before e = of_chars l.
Proof.
  destruct H as (_ & _ & Ht & Hc). unfold before.
  by rewrite Ht, Hc, of_chars_app, substring_app_l.
Qed.

Lemma shows_behind : behind e = of_chars r.
Proof.
  destruct H as (_ & _ & Ht & Hc). unfold behind.
  rewrite Ht, Hc, of_chars_app, string_length_append.
  replace (String.length (of_chars l) + String.length (of_chars r) - String.length (of_chars l))
    with (String.length (of_chars r)) by lia. apply substring_app_r.
Qed.

Lemma shows_count : char_count (ie_text e) = N.of_nat (length l + length r).
Proof.
  destruct H as (Hl & Hr & -> & _). unfold char_count.
  by rewrite chars_of_chars, length_app by by apply Forall_app.
Qed.

Lemma shows_valid : Forall is_char (l ++ r).
Proof. destruct H as (? & ? & _). by apply Forall_app. Qed.

End box.

Lemma prev_start_last l c r e : shows (l ++ [c]) r e →
  InlineEditState.prev_start e = String.length (of_chars l).
Proof.
  intros H. unfold InlineEditState.prev_start. rewrite (shows_before _ _ _ H).
  destruct H as (Hl & Hr & _ & Hc). rewrite chars_of_chars, last_snoc, Hc by done.
  rewrite of_chars_app, string_length_append. cbn. rewrite string_length_append. cbn. lia.
Qed.

Lemma of_chars_empty l : of_chars l = "" → l = [].
Proof.
  destruct l as [|c l]; [done|]. intros E. pose proof (of_chars_length (c :: l)) as Hl.
  rewrite E in Hl. cbn in Hl. lia.
Qed.

Lemma cursor_at_start l r e : shows l r e → (0 <? ie_cursor e) = false → l = [].
Proof.
  intros (_ & _ & _ & ->) Hz%Nat.ltb_ge. pose proof (of_chars_length l).
  destruct l; [done|]. cbn in *. lia.
Qed.

Lemma insert_shows c l r e : is_char c → shows l r e →
  length l + length r < N.to_nat MAX_TAG_CHARS →
  shows (l ++ [c]) r (InlineEditState.insert_char c e).
Proof.
  intros Hc H Hlen. unfold InlineEditState.insert_char. rewrite (shows_count _ _ _ H).
  destruct (N.leb_spec MAX_TAG_CHARS (N.of_nat (length l + length r))); [lia|].
  rewrite (shows_before _ _ _ H), (shows_behind _ _ _ H). destruct H as (Hl & Hr & Ht & Hn).
  destruct e; cbn in *. split_and!; [by apply Forall_app; auto|done| |]; cbn.
  - rewrite !of_chars_app. cbn. by rewrite !string_app_assoc, string_app_nil_r.
  - rewrite of_chars_app, string_length_append, Hn. cbn. rewrite string_length_append. cbn. lia.
Qed.

Lemma insert_full c l r e : shows l r e → N.to_nat MAX_TAG_CHARS ≤ length l + length r →
  InlineEditState.insert_char c e = e.
Proof.
  intros H Hlen. unfold InlineEditState.insert_char. rewrite (shows_count _ _ _ H).
  destruct (N.leb_spec MAX_TAG_CHARS (N.of_nat (length l + length r))); [done|lia].
Qed.

Lemma nonempty_cursor l c r e : shows (l ++ [c]) r e → (0 <? ie_cursor e) = true.
Proof.
  intros (_ & _ & _ & ->). apply Nat.ltb_lt. rewrite of_chars_app, string_length_append. cbn.
  rewrite string_length_append. pose proof (encode_char_length c). lia.
Qed.

Lemma backspace_shows l c r e : shows (l ++ [c]) r e → shows l r (InlineEditState.backspace e).
Proof.
  intros H. unfold InlineEditState.backspace. rewrite (nonempty_cursor _ _ _ _ H).
  rewrite (prev_start_last _ _ _ _ H), (shows_behind _ _ _ H).
  destruct H as (Hl & Hr & Ht & Hn). apply Forall_app in Hl as [Hl _].
  destruct e; cbn in *. subst. split_and!; cbn; try done.
  by rewrite <-app_assoc, !of_chars_app, substring_app_l.
Qed.

Lemma left_shows l c r e : shows (l ++ [c]) r e → shows l (c :: r) (InlineEditState.cursor_left e).
Proof.
  intros H. unfold InlineEditState.cursor_left. rewrite (nonempty_cursor _ _ _ _ H).
  rewrite (prev_start_last _ _ _ _ H). destruct H as (Hl & Hr & Ht & Hn).
  apply Forall_app in Hl as [Hl Hc]. destruct e; cbn in *. subst.
  split_and!; cbn; try done; [by inversion Hc; constructor|]. by rewrite <-app_assoc.
Qed.

Lemma right_shows l c r e : shows l (c :: r) e →
  shows (l ++ [c]) r (InlineEditState.cursor_right e).
Proof.
  intros H. unfold InlineEditState.cursor_right. rewrite (shows_behind _ _ _ H).
  destruct H as (Hl & Hr & Ht & Hn). pose proof (encode_char_length c).
  apply Forall_cons in Hr as [Hc Hr].
  assert (chars (of_chars (c :: r)) = c :: r) as -> by (apply chars_of_chars; by constructor).
  assert ((ie_cursor e <? String.length (ie_text e)) = true) as ->.
  { rewrite Ht, Hn, of_chars_app, string_length_append. apply Nat.ltb_lt. cbn.
    rewrite string_length_append. lia. }
  destruct e as [o t n q]; cbn in Ht, Hn |- *. subst.
  split_and!; cbn; try done; [by apply Forall_app; auto|by rewrite <-app_assoc|].
  rewrite !of_chars_app, !string_length_append. cbn. rewrite !string_length_append. cbn.
  destruct r; cbn; lia.
Qed.

Lemma right_at_end l e : shows l [] e → InlineEditState.cursor_right e = e.
Proof.
  intros (_ & _ & Ht & Hn). unfold InlineEditState.cursor_right.
  rewrite Ht, Hn, app_nil_r, Nat.ltb_irrefl. done.
Qed.

Lemma left_at_start r e : shows [] r e → InlineEditState.cursor_left e = e.
Proof. intros (_ & _ & _ & Hn). unfold InlineEditState.cursor_left. by rewrite Hn. Qed.

Lemma backspace_at_start r e : shows [] r e → InlineEditState.backspace e = e.
Proof. intros (_ & _ & _ & Hn). unfold InlineEditState.backspace. by rewrite Hn. Qed.

Lemma edit_shows k e l r : EditKey.ok k → shows (reverse l) r e →
  shows (reverse (edit_chars k (l, r)).1) (edit_chars k (l, r)).2 (edit k e) ∧
  length (edit_chars k (l, r)).1 + length (edit_chars k (l, r)).2
    ≤ Nat.max (length l + length r) (N.to_nat MAX_TAG_CHARS).
Proof.
  intros Hk H. destruct k as [c| | |]; cbn -[Nat.ltb N.to_nat].
  - destruct (Nat.ltb_spec (length l + length r) (N.to_nat MAX_TAG_CHARS)).
    + split; [|cbn [fst snd length]; lia]. cbn [fst snd]. rewrite reverse_cons.
      apply insert_shows; [done..|].
      by rewrite length_reverse.
    + split; [|cbn [fst snd]; lia]. rewrite (insert_full _ (reverse l) r); [done..|].
      by rewrite length_reverse.
  - destruct l as [|c l]; cbn [fst snd tail length]; (split; [|lia]).
    + by rewrite (backspace_at_start r).
    + rewrite reverse_cons in H. by eapply backspace_shows.
  - destruct l as [|c l]; cbn [fst snd length]; (split; [|lia]).
    + by rewrite (left_at_start r).
    + rewrite reverse_cons in H. by eapply left_shows.
  - destruct r as [|c r]; cbn [fst snd length]; (split; [|lia]).
    + by rewrite (right_at_end (reverse l)).
    + rewrite reverse_cons. by apply right_shows.
Qed.

Lemma edits_show keys : ∀ e z, Forall EditKey.ok keys → shows (reverse z.1) z.2 e →
  let z' := foldl (λ z k, edit_chars k z) z keys in
  shows (reverse z'.1) z'.2 (foldl (λ e k, edit k e) e keys) ∧
  length z'.1 + length z'.2 ≤ Nat.max (length z.1 + length z.2) (N.to_nat MAX_TAG_CHARS).
Proof.
  induction keys as [|k keys IH]; intros e z Hk H; cbn [foldl]; [split; [done|lia]|].
  apply Forall_cons in Hk as [Hk Hks]. destruct z as [l r].
  destruct (edit_shows k e l r Hk H) as [H1 Hlen].
  destruct (IH _ _ Hks H1) as [? ?]. cbn [fst snd] in *. split; [done|lia].
Qed.

(** C32: The box in which a tag is renamed edits characters, although its cursor counts
    bytes: whatever is typed, the cursor stays between two characters, and the keys do what
    they do on characters around a gap, at most fifty unless the name was longer. *)
Theorem rename_box_edits_chars keys e l r :
  Forall EditKey.ok keys → shows l r e →
  let z := foldl (λ z k, edit_chars k z) (reverse l, r) keys in
  shows (reverse z.1) z.2 (foldl (λ e k, edit k e) e keys) ∧
  length z.1 + length z.2 ≤ Nat.max (length l + length r) (N.to_nat MAX_TAG_CHARS).
Proof.
  intros Hk H. rewrite <-(length_reverse l). apply (edits_show keys e (reverse l, r) Hk).
  cbn [fst snd]. by rewrite reverse_involutive.
Qed.

(** A box starts with the name and the cursor behind it. *)
Lemma new_shows l : Forall is_char l → shows l [] (InlineEditState.new (of_chars l)).
Proof. intros H. split_and!; [done..| |done]. cbn. by rewrite app_nil_r. Qed.

(** ** Properties of the selection *)

Import SidebarState.

(** The items are those of the tags, and the selected one can be selected. *)
Record sidebar_ok (s : SidebarState) : Prop := {
  so_items : sb_items s = build_items s;
  so_selected : selectable_at s (sb_selected_index s) = true;
}.

Lemma next_selectable_spec s start idx :
  next_selectable_from s start = Some idx → selectable_at s idx = true.
Proof.
  unfold next_selectable_from. intros Hh. apply head_Some_elem_of in Hh.
  by apply list_elem_of_filter in Hh as [? _].
Qed.

Lemma prev_selectable_spec s start idx :
  prev_selectable_from s start = Some idx → selectable_at s idx = true.
Proof.
  unfold prev_selectable_from. intros Hh. apply head_Some_elem_of in Hh.
  by apply list_elem_of_filter in Hh as [? _].
Qed.

Lemma position_spec {A} (p : A → bool) l i : position p l = Some i →
  ∃ x, l !! i = Some x ∧ p x = true.
Proof.
  unfold position. destruct (list_find _ l) as [[j x]|] eqn:E; [|done]. intros [= <-].
  apply list_find_Some in E as (? & ? & _). eauto.
Qed.

Lemma select_ok i s : (∀ idx, i = Some idx → selectable_at s idx = true) → sidebar_ok s →
  sidebar_ok (select i s).
Proof.
  intros Hi [He Hs]. destruct i as [idx|]; [|done]. specialize (Hi _ eq_refl).
  by destruct s; split.
Qed.

Lemma around_complete s start : 0 < length (sb_items s) → start < length (sb_items s) →
  (∃ idx, selectable_at s idx = true) → is_Some (next_selectable_from s start).
Proof.
  intros Hl Hs [idx Hi]. unfold next_selectable_from.
  assert (idx < length (sb_items s)) as Hlt.
  { unfold selectable_at, item in Hi. destruct (sb_items s !! idx) eqn:E; [|done].
    by eapply lookup_lt_Some. }
  set (l := filter _ _). assert (idx ∈ l) as Hin.
  { apply list_elem_of_filter. split; [done|]. apply list_elem_of_fmap.
    set (len := length (sb_items s)) in *.
    exists ((idx + len - start) mod len). split.
    - rewrite Nat.Div0.add_mod_idemp_r.
      replace (start + (idx + len - start)) with (idx + 1 * len) by lia.
      by rewrite Nat.Div0.mod_add, Nat.mod_small.
    - apply elem_of_seq. pose proof (Nat.mod_upper_bound (idx + len - start) len). lia. }
  destruct l; [by apply elem_of_nil in Hin|by eexists].
Qed.

(** After the items were built again the selection is on one that can be selected. *)
Lemma rebuild_ok s : sidebar_ok (rebuild s).
Proof.
  unfold rebuild. set (s1 := s <| sb_items := build_items s |>).
  set (s2 := s1 <| sb_tag_scroll_offset ::= _ |>).
  set (s3 := if _ : bool then _ else s2).
  assert (sb_items s3 = build_items s3) as He by (subst s3; case_match; by destruct s).
  assert (0 < length (sb_items s3) ∧ sb_selected_index s3 < length (sb_items s3)) as [Hl Hlt].
  { assert (0 < length (sb_items s3)) by (rewrite He; cbn; lia). split; [done|]. subst s3.
    destruct (Nat.leb_spec (length (sb_items s2)) (sb_selected_index s2)) as [_|]; [|done].
    cbn in *. lia. }
  destruct (selectable_at s3 (sb_selected_index s3)) eqn:E; [done|].
  destruct (around_complete s3 (sb_selected_index s3) Hl Hlt) as [idx Hidx].
  { exists 3. unfold selectable_at, item. by rewrite He. }
  rewrite Hidx. apply next_selectable_spec in Hidx. by destruct s3; split.
Qed.

Module SidebarOp.
Inductive t : Set :=
| TagsLoaded (tags : list Tags.Tag) (tag_stats : gmap Z TagSortMeta)
| CountsLoaded (counts : CategoryCounts)
| MoveDown | MoveUp | ToggleTags | EnterTagManagement | ExitTagManagement | CycleSort
| SelectCategory (c : SidebarCategory.t) | SelectTagHeader | SelectFirstTag
| Click (index : nat)
| ScrollTagsBy (delta : Z) (visible_items : nat)
| EnsureSelectedVisible (visible_items : nat).
End SidebarOp.

Section run.
Context `{Lowercase}.

Definition run_sidebar (op : SidebarOp.t) (s : SidebarState) : SidebarState :=
  match op with
  | SidebarOp.TagsLoaded tags tag_stats =>
      sort_tags_by_current_order (s <| sb_tags := tags |> <| sb_tag_metadata := tag_stats |>)
  | SidebarOp.CountsLoaded counts => rebuild (s <| sb_category_counts := counts |>)
  | SidebarOp.MoveDown => move_down s
  | SidebarOp.MoveUp => move_up s
  | SidebarOp.ToggleTags => toggle_tags s
  | SidebarOp.EnterTagManagement => enter_tag_management s
  | SidebarOp.ExitTagManagement => exit_tag_management s
  | SidebarOp.CycleSort =>
      sort_tags_by_current_order
        (s <| sb_tag_management ::= λ m, m <| tg_sort_order ::= TagSortOrder.cycle |> |>)
  | SidebarOp.SelectCategory c => select_category c s
  | SidebarOp.SelectTagHeader => select_tag_header s
  | SidebarOp.SelectFirstTag => select_first_tag s
  | SidebarOp.Click index =>
      if selectable_at s index then s <| sb_selected_index := index |> else s
  | SidebarOp.ScrollTagsBy delta visible_items => scroll_tags_by delta visible_items s
  | SidebarOp.EnsureSelectedVisible visible_items => ensure_selected_visible visible_items s
  end.

Lemma selectable_position p s i : position p (sb_items s) = Some i →
  (∀ x, p x = true → SidebarItem.is_selectable x = true) → selectable_at s i = true.
Proof.
  intros (x & Hx & Hp)%position_spec Hsel. unfold selectable_at, item. rewrite Hx. by apply Hsel.
Qed.

Lemma select_position_ok p s : (∀ x, p x = true → SidebarItem.is_selectable x = true) →
  sidebar_ok s → sidebar_ok (select (position p (sb_items s)) s).
Proof. intros Hp. apply select_ok. intros idx Hi. by eapply selectable_position. Qed.

Lemma select_header_ok s : sidebar_ok s → sidebar_ok (select_tag_header s).
Proof. apply select_position_ok. by intros x ->%bool_decide_eq_true_1. Qed.

Lemma select_first_tag_ok s : sidebar_ok s → sidebar_ok (select_first_tag s).
Proof. apply select_position_ok. by intros []. Qed.

Lemma run_sidebar_ok op s : sidebar_ok s → sidebar_ok (run_sidebar op s).
Proof.
  intros Hs. destruct op; cbn [run_sidebar].
  - apply rebuild_ok.
  - apply rebuild_ok.
  - apply select_ok; [|done]. intros ?. apply next_selectable_spec.
  - apply select_ok; [|done]. intros ?. apply prev_selectable_spec.
  - unfold toggle_tags. case_match; [apply rebuild_ok|]. apply select_header_ok, rebuild_ok.
  - unfold enter_tag_management.
    assert (sidebar_ok (s <| sb_tag_management_mode := true |>)) by by destruct s, Hs.
    case_bool_decide; [by apply select_first_tag_ok|done].
  - by destruct s, Hs.
  - apply rebuild_ok.
  - apply select_position_ok; [|done]. by intros x ->%bool_decide_eq_true_1.
  - by apply select_header_ok.
  - by apply select_first_tag_ok.
  - destruct (selectable_at s index) eqn:E; [|done]. destruct Hs. by destruct s; split.
  - unfold scroll_tags_by. case_match; by destruct s, Hs.
  - unfold ensure_selected_visible. case_match; [done|]. by destruct s, Hs.
Qed.

End run.

Lemma initial_ok : sidebar_ok initial.
Proof. apply rebuild_ok. Qed.

(** Before the tags every item has its place. *)
Lemma select_category_filter c s : sb_items s = build_items s →
  current_filter (select_category c s) = SidebarCategory.to_filter c.
Proof.
  intros He. unfold select_category, current_filter, item. rewrite He. unfold build_items.
  destruct s, c; cbn in *; by rewrite He.
Qed.

(** Whatever tags are loaded, sorted, folded and clicked, the selection of the sidebar
    is on a category, a tag, their header or a shortcut, and choosing a category shows its
    records. *)
Lemma sidebar_selection `{Lowercase} ops :
  let s := foldl (λ s op, run_sidebar op s) initial ops in
  (∃ i, item s (sb_selected_index s) = Some i ∧ SidebarItem.is_selectable i = true) ∧
  ∀ c, current_filter (select_category c s) = SidebarCategory.to_filter c.
Proof.
  intros s. assert (sidebar_ok s) as [He Hs].
  { subst s. generalize initial_ok. generalize initial.
    induction ops as [|op ops IH]; intros s Hs; [done|]. apply IH, run_sidebar_ok, Hs. }
  split; [|intros c; by apply select_category_filter].
  unfold selectable_at in Hs. destruct (item s (sb_selected_index s)) as [i|]; [|done]. eauto.
Qed.

(** A selected tag is scrolled into the rows of the tags. *)
Lemma selected_tag_visible visible_items s :
  let s' := ensure_selected_visible visible_items s in
  let first := tag_scroll_start_index s + sb_tag_scroll_offset s' in
  tag_scroll_start_index s ≤ sb_selected_index s < footer_start_index s →
  first ≤ sb_selected_index s < first + Nat.max visible_items 1.
Proof.
  cbn zeta. intros [H1 H2]. unfold ensure_selected_visible, max_tag_scroll_offset,
    tag_scroll_item_count.
  destruct (Nat.ltb_spec (sb_selected_index s) (tag_scroll_start_index s)); [lia|].
  destruct (Nat.leb_spec (footer_start_index s) (sb_selected_index s)); [lia|]. cbn [orb].
  set (start := tag_scroll_start_index s) in *. set (stop := footer_start_index s) in *.
  destruct s as [? sel ? off]; cbn -[Nat.ltb Nat.leb Nat.min Nat.max] in *.
  repeat match goal with
    | |- context [?a <? ?b] => destruct (Nat.ltb_spec a b)
    | |- context [?a <=? ?b] => destruct (Nat.leb_spec a b)
    end; lia.
Qed.
