(* ===== verification/DetailPanel.v ===== *)
(** * The details of a record on the main screen (src/tui/state/detail_state/state.rs)

    What is shown of a record, the masks over its secrets, and the focus on its fields and
    their buttons.  The labels come from [t!], the translations. *)

From S2P Require Import Prelude Text Env Types Payload Password Vault Records.

(** [t!] of the crate [rust_i18n]: the text of a key in the language in use. *)
Class Translations : Type := translate : string → string.

Module FieldValue.
Inductive t : Set := Plain (value : string) | Masked | Revealed (value : string).
#[global] Instance t_eq_dec : EqDecision t.
Proof. solve_decision. Defined.
End FieldValue.

Module DetailFieldKind.
Inductive t : Set :=
| Username | Password | Url | AppId | SecretKey | PublicKey | PrivateKey | Passphrase | Notes.
#[global] Instance t_eq_dec : EqDecision t.
Proof. solve_decision. Defined.
End DetailFieldKind.

Record DetailField : Set := mkDetailField {
  df_label : string;
  df_value : FieldValue.t;
  df_copyable : bool;
  df_toggleable : bool;
  df_kind : DetailFieldKind.t;
}.

#[export] Instance eta_DetailField : Eta DetailField := λ f,
  mkDetailField (df_label f) (df_value f) (df_copyable f) (df_toggleable f) (df_kind f).

Module DetailActionKind.
Inductive t : Set := Copy | ToggleSecret.
#[global] Instance t_eq_dec : EqDecision t.
Proof. solve_decision. Defined.
End DetailActionKind.

Record DetailActionFocus : Set := mkDetailActionFocus {
  fo_field_index : nat;
  fo_kind : DetailActionKind.t;
}.

#[global] Instance DetailActionFocus_eq_dec : EqDecision DetailActionFocus.
Proof. solve_decision. Defined.

Definition is_interactive (f : DetailField) : bool := df_copyable f || df_toggleable f.

(** Eight bullets for a masked value. *)
Definition display_value (f : DetailField) : string :=
  match df_value f with
  | FieldValue.Plain s | FieldValue.Revealed s => s
  | FieldValue.Masked => of_chars (replicate 8 8226%Z)
  end.

Module ExpiryStatus.
Inductive t : Set := None | Valid | ExpiringSoon | Expired.

Definition from_date (now : Instant) (expires_at : option Instant) : t :=
  match expires_at with
  | Datatypes.None => None
  | Some dt =>
      if (dt <? now)%Z then Expired
      else if (dt <? now + 30 * 86400 * nanos_per_sec)%Z then ExpiringSoon
      else Valid
  end.
End ExpiryStatus.

Record DetailViewData : Set := mkDetailViewData {
  dv_id : Uuid;
  dv_name : string;
  dv_subtitle : string;
  dv_credential_type : CredentialType.t;
  dv_is_favorite : bool;
  dv_expires_at : option Instant;
  dv_expiry_status : ExpiryStatus.t;
  dv_tags : list string;
  dv_notes : option string;
  dv_created_at : Instant;
  dv_updated_at : Instant;
  dv_fields : list DetailField;
  dv_password_strength : option StrengthLevel.t;
  dv_deleted_at : option Instant;
}.

#[export] Instance eta_DetailViewData : Eta DetailViewData := λ v,
  mkDetailViewData (dv_id v) (dv_name v) (dv_subtitle v) (dv_credential_type v)
    (dv_is_favorite v) (dv_expires_at v) (dv_expiry_status v) (dv_tags v) (dv_notes v)
    (dv_created_at v) (dv_updated_at v) (dv_fields v) (dv_password_strength v)
    (dv_deleted_at v).

Record DetailPanelState : Set := mkDetailPanelState {
  dp_record : option DetailViewData;
  dp_focused_field : nat;
  dp_focused_action : option DetailActionFocus;
  dp_password_visible : bool;
  dp_health_issue : option HealthIssue.t;
  dp_is_trash : bool;
  dp_trash_retention_days : Z;
}.

#[export] Instance eta_DetailPanelState : Eta DetailPanelState := λ s,
  mkDetailPanelState (dp_record s) (dp_focused_field s) (dp_focused_action s)
    (dp_password_visible s) (dp_health_issue s) (dp_is_trash s) (dp_trash_retention_days s).

Module DetailPanelState.

(** [Default], which is also what [clear] leaves. *)
Definition initial : DetailPanelState := mkDetailPanelState None 0 None false None false 30.

Definition with_record (record : DetailViewData) : DetailPanelState :=
  initial <| dp_record := Some record |>.

Definition clear (s : DetailPanelState) : DetailPanelState := initial.

Definition set_trash_context (is_trash : bool) (retention_days : Z) (s : DetailPanelState)
  : DetailPanelState :=
  s <| dp_is_trash := is_trash |> <| dp_trash_retention_days := retention_days |>.

(** The fields shown; none without a record. *)
Definition fields (s : DetailPanelState) : list DetailField :=
  match dp_record s with Some record => dv_fields record | None => [] end.

Definition interactive_fields (s : DetailPanelState) : list (nat * DetailField) :=
  filter (λ x, is_interactive x.2 = true) (imap pair (fields s)).

Definition current_field (s : DetailPanelState) : option DetailField :=
  fields s !! dp_focused_field s.

(** The buttons of a field. *)
Definition field_actions (field_index : nat) (field : DetailField) : list DetailActionFocus :=
  (if df_toggleable field then [mkDetailActionFocus field_index DetailActionKind.ToggleSecret]
   else []) ++
  (if df_copyable field then [mkDetailActionFocus field_index DetailActionKind.Copy] else []).

Definition available_actions (s : DetailPanelState) : list DetailActionFocus :=
  concat (imap field_actions (fields s)).

Definition actions_for_field (s : DetailPanelState) (field_index : nat)
  : list DetailActionFocus :=
  match fields s !! field_index with
  | Some field => field_actions field_index field
  | None => []
  end.

Definition focus_on (action : DetailActionFocus) (s : DetailPanelState) : DetailPanelState :=
  s <| dp_focused_field := fo_field_index action |> <| dp_focused_action := Some action |>.

Definition focus_first_action (s : DetailPanelState) : DetailPanelState * bool :=
  match available_actions s with
  | action :: _ => (focus_on action s, true)
  | [] => (s, false)
  end.

Definition clear_action_focus (s : DetailPanelState) : DetailPanelState :=
  s <| dp_focused_action := None |>.

(** The loop over the fields below or above: the button of the same kind of the first field
    that has any, or its first one. *)
Definition action_in (kind : DetailActionKind.t) (s : DetailPanelState) (indices : list nat)
  : option DetailActionFocus :=
  index ← head (filter (λ index, actions_for_field s index ≠ []) indices);
  let actions := actions_for_field s index in
  match list_find (λ action, fo_kind action = kind) actions with
  | Some (_, action) => Some action
  | None => head actions
  end.

Definition move_action_vertical (down : bool) (s : DetailPanelState) : DetailPanelState * bool :=
  match dp_focused_action s with
  | None => focus_first_action s
  | Some current =>
      let at_ := fo_field_index current in
      let indices :=
        if down then seq (S at_) (length (fields s) - S at_)
        else
          (* above the end there is nothing to look at *)
          if at_ <=? length (fields s) then rev (seq 0 at_) else [] in
      match action_in (fo_kind current) s indices with
      | Some action => (focus_on action s, true)
      | None => (s, false)
      end
  end.

Definition move_action_down (s : DetailPanelState) := move_action_vertical true s.
Definition move_action_up (s : DetailPanelState) := move_action_vertical false s.

Definition move_action_horizontal (right : bool) (s : DetailPanelState)
  : DetailPanelState * bool :=
  match dp_focused_action s with
  | None => focus_first_action s
  | Some current =>
      let actions := actions_for_field s (fo_field_index current) in
      match list_find (λ action, action = current) actions with
      | None => (s, false)
      | Some (current_index, _) =>
          match (if right then Some (current_index + 1) else
                   match current_index with O => None | S i => Some i end) with
          | None => (clear_action_focus s, true)
          | Some next_index =>
              match actions !! next_index with
              | Some action => (focus_on action s, true)
              | None => (s, false)
              end
          end
      end
  end.

Definition move_action_right (s : DetailPanelState) := move_action_horizontal true s.
Definition move_action_left (s : DetailPanelState) := move_action_horizontal false s.

Definition set_action_focus (action : DetailActionFocus) (s : DetailPanelState)
  : DetailPanelState * bool :=
  if bool_decide (action ∈ available_actions s) then (focus_on action s, true) else (s, false).

(** The first index of those that is of an interactive field. *)
Definition interactive_in (s : DetailPanelState) (indices : list nat) : option nat :=
  head (filter (λ i, from_option is_interactive false (fields s !! i) = true) indices).

Definition focus_field (index : option nat) (s : DetailPanelState) : DetailPanelState * bool :=
  match index with
  | Some i => (s <| dp_focused_field := i |> <| dp_focused_action := None |>, true)
  | None => (s, false)
  end.

Definition move_field_down (s : DetailPanelState) : DetailPanelState * bool :=
  let start := dp_focused_field s + 1 in
  focus_field (interactive_in s (seq start (length (fields s) - start))) s.

(** Upwards from a focus behind the fields the code indexes out of bounds: [None]. *)
Definition move_field_up (s : DetailPanelState) : option (DetailPanelState * bool) :=
  match dp_record s with
  | None => Some (s, false)
  | Some record =>
      if dp_focused_field s =? 0 then Some (s, false)
      else if length (dv_fields record) <? dp_focused_field s then None
      else Some (focus_field (interactive_in s (rev (seq 0 (dp_focused_field s)))) s)
  end.

Definition mask (f : DetailField) : DetailField :=
  if df_toggleable f then
    match df_value f with
    | FieldValue.Revealed _ => f <| df_value := FieldValue.Masked |>
    | _ => f
    end
  else f.

(** Whether the secrets are to be decrypted now. *)
Definition toggle_password (s : DetailPanelState) : DetailPanelState * bool :=
  if dp_password_visible s then
    (s <| dp_record ::= fmap (λ r, r <| dv_fields ::= fmap mask |>) |>
       <| dp_password_visible := false |>, false)
  else (s <| dp_password_visible := true |>, true).

Definition find_field (kinds : list DetailFieldKind.t) (s : DetailPanelState)
  : option DetailField :=
  snd <$> list_find (λ f, df_kind f ∈ kinds) (fields s).

Definition password_field (s : DetailPanelState) : option DetailField :=
  find_field [DetailFieldKind.Password; DetailFieldKind.SecretKey; DetailFieldKind.PrivateKey] s.

Definition current_toggleable_field (s : DetailPanelState) : option DetailField :=
  f ← current_field s;
  if df_toggleable f then Some f else password_field s.

Definition username_field (s : DetailPanelState) : option DetailField :=
  find_field [DetailFieldKind.Username; DetailFieldKind.AppId; DetailFieldKind.PublicKey] s.

Section build.
Context `{Translations}.

Definition plain (label value : string) (copyable : bool) (kind : DetailFieldKind.t)
  : DetailField :=
  mkDetailField (translate label) (FieldValue.Plain value) copyable false kind.

Definition masked (label : string) (kind : DetailFieldKind.t) : DetailField :=
  mkDetailField (translate label) FieldValue.Masked true true kind.

Definition if_some {A} (f : string → A) (o : option string) : list A :=
  match o with Some v => [f v] | None => [] end.

Definition url_label : string := "tui.password_detail.url_label".
Definition notes_label : string := "tui.password_detail.notes_label".

Definition build_fields (payload : EncryptedPayload.t) : list DetailField :=
  match payload with
  | EncryptedPayload.Login _ username _ url notes =>
      [plain "tui.password_detail.username_label" username true DetailFieldKind.Username;
       masked "tui.password_detail.password_label" DetailFieldKind.Password]
      ++ if_some (λ u, plain url_label u true DetailFieldKind.Url) url
      ++ if_some (λ n, plain notes_label n true DetailFieldKind.Notes) notes
  | EncryptedPayload.Api _ app_id _ url notes =>
      [plain "tui.password_detail.app_id_label" app_id true DetailFieldKind.AppId;
       masked "tui.password_detail.secret_key_label" DetailFieldKind.SecretKey]
      ++ if_some (λ u, plain url_label u true DetailFieldKind.Url) url
      ++ if_some (λ n, plain notes_label n false DetailFieldKind.Notes) notes
  | EncryptedPayload.Ssh _ public_key _ _ notes =>
      [plain "tui.password_detail.public_key_label" public_key true DetailFieldKind.PublicKey;
       masked "tui.password_detail.private_key_label" DetailFieldKind.PrivateKey;
       masked "tui.password_detail.passphrase_label" DetailFieldKind.Passphrase]
      ++ if_some (λ n, plain notes_label n true DetailFieldKind.Notes) notes
  | EncryptedPayload.SecureNote _ notes =>
      if_some (λ n, plain notes_label n true DetailFieldKind.Notes) notes
  end.

(** The subtitle and the notes of a payload, and whether its strength is shown. *)
Definition build_subtitle (payload : EncryptedPayload.t) : string :=
  match payload with
  | EncryptedPayload.Login _ _ _ url _ | EncryptedPayload.Api _ _ _ url _ => default "" url
  | EncryptedPayload.Ssh _ _ _ _ _ | EncryptedPayload.SecureNote _ _ => ""
  end.

Definition build_notes (payload : EncryptedPayload.t) : option string :=
  match payload with
  | EncryptedPayload.Login _ _ _ _ notes | EncryptedPayload.Api _ _ _ _ notes
  | EncryptedPayload.Ssh _ _ _ _ notes | EncryptedPayload.SecureNote _ notes => notes
  end.

Definition build_from_record (now : Instant) (record : DecryptedRecord)
    (strength : option PasswordStrength) : DetailViewData :=
  let payload := dr_payload record in
  let type := EncryptedPayload.credential_type payload in
  mkDetailViewData (dr_id record) (EncryptedPayload.name payload) (build_subtitle payload) type
    (dr_is_favorite record) (dr_expires_at record)
    (ExpiryStatus.from_date now (dr_expires_at record)) (dr_tags record)
    (build_notes payload) (dr_created_at record) (dr_updated_at record)
    (build_fields payload)
    (if bool_decide (type = CredentialType.SecureNote) then None else ps_level <$> strength)
    None.

End build.

End DetailPanelState.

(** ** Properties *)

Import DetailPanelState.

(** A record with its secrets left out. *)
Definition without_secrets (r : DecryptedRecord) : DecryptedRecord :=
  mkDecryptedRecord (dr_id r) (dr_is_favorite r) (dr_expires_at r) (dr_created_at r)
    (dr_updated_at r) (dr_version r) (dr_deleted r) (dr_deleted_at r) (dr_tags r)
    match dr_payload r with
    | EncryptedPayload.Login name username _ url notes =>
        EncryptedPayload.Login name username "" url notes
    | EncryptedPayload.Api name app_id _ url notes =>
        EncryptedPayload.Api name app_id "" url notes
    | EncryptedPayload.Ssh name public_key _ _ notes =>
        EncryptedPayload.Ssh name public_key None None notes
    | EncryptedPayload.SecureNote name notes => EncryptedPayload.SecureNote name notes
    end.

Definition is_secret (k : DetailFieldKind.t) : bool :=
  bool_decide (k ∈ [DetailFieldKind.Password; DetailFieldKind.SecretKey;
                    DetailFieldKind.PrivateKey; DetailFieldKind.Passphrase]).

(** A field hides what it is: masked exactly when it is a secret, which can be shown. *)
Definition hidden (f : DetailField) : Prop :=
  df_toggleable f = is_secret (df_kind f) ∧
  (if is_secret (df_kind f) then df_value f = FieldValue.Masked
   else ∃ v, df_value f = FieldValue.Plain v).

(** The value of a secret is out of sight or shown on request. *)
Definition field_ok (f : DetailField) : Prop :=
  df_toggleable f = is_secret (df_kind f) ∧
  (if is_secret (df_kind f) then df_value f = FieldValue.Masked ∨ ∃ v, df_value f = FieldValue.Revealed v
   else ∃ v, df_value f = FieldValue.Plain v).

Lemma mask_hidden f : field_ok f → hidden (mask f).
Proof.
  destruct f as [l v c t k]; unfold field_ok, hidden, mask; cbn. intros [-> H].
  destruct (is_secret k) eqn:E; [|by cbn; rewrite ?E].
  by destruct H as [->|[x ->]]; cbn; rewrite ?E.
Qed.

Lemma hidden_ok f : hidden f → field_ok f.
Proof. unfold hidden, field_ok. intros [? H]. split; [done|]. destruct (is_secret _); auto. Qed.

Section built.
Context `{Translations}.

Lemma build_fields_hidden payload : Forall hidden (build_fields payload).
Proof.
  assert (∀ l v c k, is_secret k = false → hidden (plain l v c k)) as Hplain.
  { intros l v c k Hk. split; cbn; rewrite Hk; [done|by eexists]. }
  assert (∀ f o, (∀ v, hidden (f v)) → Forall hidden (if_some f o)) as Hopt
    by (intros f [v|] Hf; [apply Forall_cons_2; [apply Hf|constructor]|constructor]).
  destruct payload; cbn; repeat first
    [apply Forall_nil_2 | apply Forall_cons_2 | apply Forall_app_2 | apply Hopt; intros ?
    |by apply Hplain | done].
Qed.

End built.

(** What is shown of a record does not depend on its passwords, keys and passphrases;
    each of them has a mask.  Hiding the secrets masks again whatever was revealed. *)
Lemma secrets_masked `{Translations} now record strength s :
  build_from_record now record strength
    = build_from_record now (without_secrets record) strength ∧
  Forall hidden (dv_fields (build_from_record now record strength)) ∧
  (dp_password_visible s = true → Forall field_ok (fields s) →
   Forall hidden (fields (toggle_password s).1) ∧ (toggle_password s).2 = false).
Proof.
  split_and!.
  - destruct record as [? ? ? ? ? ? ? ? ? []]; done.
  - apply build_fields_hidden.
  - intros Hv Hok. unfold toggle_password. rewrite Hv. split; [|done].
    destruct s as [[r|] ? ? ? ? ? ?]; cbn in *; [|constructor].
    destruct r; cbn in *. apply Forall_fmap. eapply Forall_impl; [exact Hok|].
    intros f. apply mask_hidden.
Qed.

(** ** Focus *)

(** A focused button is one of the buttons shown, in the focused field. *)
Definition focus_ok (s : DetailPanelState) : Prop :=
  match dp_focused_action s with
  | Some action => action ∈ available_actions s ∧ dp_focused_field s = fo_field_index action
  | None => True
  end.

Lemma elem_of_available s a :
  a ∈ available_actions s ↔
  ∃ f, fields s !! fo_field_index a = Some f ∧ a ∈ field_actions (fo_field_index a) f.
Proof.
  unfold available_actions. rewrite list_elem_of_In, in_concat. split.
  - intros (l & Hl & Ha). apply list_elem_of_In, elem_of_lookup_imap in Hl as (i & f & -> & Hf).
    apply list_elem_of_In in Ha. assert (fo_field_index a = i) as ->; [|by exists f].
    revert Ha. unfold field_actions. destruct (df_toggleable f), (df_copyable f); cbn;
      rewrite ?elem_of_cons, ?elem_of_nil; intuition (subst; done).
  - intros (f & Hf & Ha). exists (field_actions (fo_field_index a) f).
    rewrite <-!list_elem_of_In. split; [|done]. apply elem_of_lookup_imap. eauto.
Qed.

Lemma actions_available s i a : a ∈ actions_for_field s i → a ∈ available_actions s.
Proof.
  unfold actions_for_field. destruct (fields s !! i) as [f|] eqn:E; [|by intros ?%elem_of_nil].
  intros Ha. apply elem_of_available. assert (fo_field_index a = i) as ->; [|eauto].
  revert Ha. unfold field_actions. destruct (df_toggleable f), (df_copyable f); cbn;
    rewrite ?elem_of_cons, ?elem_of_nil; intuition (subst; done).
Qed.

Lemma focus_on_ok a s : a ∈ available_actions s → focus_ok (focus_on a s).
Proof. by destruct s; cbn. Qed.

Lemma focus_first_ok s : focus_ok s → focus_ok (focus_first_action s).1.
Proof.
  intros H. unfold focus_first_action. destruct (available_actions s) as [|a l] eqn:E; [done|].
  apply focus_on_ok. rewrite E. by left.
Qed.

Lemma action_in_available kind s indices a :
  action_in kind s indices = Some a → a ∈ available_actions s.
Proof.
  unfold action_in. destruct (head _) as [i|]; [|done]. cbn -[list_find].
  destruct (list_find _ _) as [[j x]|] eqn:E.
  - intros [= ->]. apply list_find_Some in E as [E _].
    by eapply actions_available, list_elem_of_lookup_2.
  - intros Hh. eapply actions_available with (i := i). destruct (actions_for_field s i); [done|].
    injection Hh as ->. by left.
Qed.

(** The movements of the focus. *)
Module FocusOp.
Inductive t : Set :=
| First | Clear | ActionDown | ActionUp | ActionRight | ActionLeft
| Set_ (action : DetailActionFocus) | FieldDown | FieldUp | TogglePassword.
End FocusOp.

Definition run_focus (op : FocusOp.t) (s : DetailPanelState) : DetailPanelState :=
  match op with
  | FocusOp.First => (focus_first_action s).1
  | FocusOp.Clear => clear_action_focus s
  | FocusOp.ActionDown => (move_action_down s).1
  | FocusOp.ActionUp => (move_action_up s).1
  | FocusOp.ActionRight => (move_action_right s).1
  | FocusOp.ActionLeft => (move_action_left s).1
  | FocusOp.Set_ action => (set_action_focus action s).1
  | FocusOp.FieldDown => (move_field_down s).1
  | FocusOp.FieldUp => match move_field_up s with Some (s, _) => s | None => s end
  | FocusOp.TogglePassword => (toggle_password s).1
  end.

Lemma mask_actions i f : field_actions i (mask f) = field_actions i f.
Proof. unfold mask. destruct f as [l [] c [] k]; done. Qed.

Lemma focus_field_ok i s : focus_ok s → focus_ok (focus_field i s).1.
Proof. intros H. destruct i; [by destruct s|done]. Qed.

(** Every movement keeps the focus on a button that there is. *)
Lemma run_focus_ok op s : focus_ok s → focus_ok (run_focus op s).
Proof.
  intros H. destruct op; cbn [run_focus].
  - by apply focus_first_ok.
  - by destruct s.
  - unfold move_action_down, move_action_vertical. case_match; [|by apply focus_first_ok].
    case_match eqn:E; [|done]. by eapply focus_on_ok, action_in_available.
  - unfold move_action_up, move_action_vertical. case_match; [|by apply focus_first_ok].
    case_match eqn:E; [|done]. by eapply focus_on_ok, action_in_available.
  - unfold move_action_right, move_action_horizontal. case_match; [|by apply focus_first_ok].
    case_match; [|done]. case_match; cbn. case_match eqn:E; [|done].
    by eapply focus_on_ok, actions_available, list_elem_of_lookup_2.
  - unfold move_action_left, move_action_horizontal. case_match; [|by apply focus_first_ok].
    case_match; [|done]. case_match. destruct n; [by destruct s|]. case_match eqn:E; [|done].
    by eapply focus_on_ok, actions_available, list_elem_of_lookup_2.
  - unfold set_action_focus. case_bool_decide; [|done]. by apply focus_on_ok.
  - by apply focus_field_ok.
  - unfold move_field_up. destruct (dp_record s) as [d|]; [|done].
    destruct (dp_focused_field s =? 0); [done|].
    destruct (length (dv_fields d) <? dp_focused_field s); [done|].
    pose proof (focus_field_ok (interactive_in s (rev (seq 0 (dp_focused_field s)))) s H) as Hf.
    by destruct (focus_field (interactive_in _ _) s).
  - unfold toggle_password. destruct (dp_password_visible s); [|by destruct s].
    destruct s as [[r|] i [a|] ? ? ? ?]; try done. revert H. unfold focus_ok.
    cbn -[available_actions]. rewrite !elem_of_available. destruct r; cbn.
    intros [(f & Hf & Ha) ?]. split; [|done].
    exists (mask f). rewrite list_lookup_fmap, Hf. split; [done|]. by rewrite mask_actions.
Qed.

(** The focus is not behind the fields, so that going up never indexes out of bounds. *)
Definition field_in_range (s : DetailPanelState) : Prop :=
  match dp_record s with
  | Some record => dp_focused_field s ≤ length (dv_fields record)
  | None => True
  end.

Lemma in_range_up s : field_in_range s → is_Some (move_field_up s).
Proof.
  unfold field_in_range, move_field_up. destruct (dp_record s); [|by eauto]. intros H.
  destruct (dp_focused_field s =? 0); [by eauto|].
  destruct (Nat.ltb_spec (length (dv_fields d)) (dp_focused_field s)); [lia|by eauto].
Qed.

Lemma with_record_field record : field_in_range (with_record record).
Proof. apply Nat.le_0_l. Qed.

Lemma focus_on_field a s : a ∈ available_actions s → field_in_range (focus_on a s).
Proof.
  intros (f & Hf & _)%elem_of_available. unfold field_in_range, fields in *.
  destruct s as [[r|] ? ? ? ? ? ?]; cbn in *; [|done]. apply lookup_lt_Some in Hf. lia.
Qed.

Lemma interactive_field s indices : field_in_range s → field_in_range (focus_field (interactive_in s indices) s).1.
Proof.
  unfold interactive_in. intros H. destruct (head _) as [i|] eqn:E; [|done].
  assert (i ∈ filter (λ i, from_option is_interactive false (fields s !! i) = true) indices) as Hi
    by (destruct (filter _ indices); [done|injection E as ->; by left]).
  apply list_elem_of_filter in Hi as [Hi _]. unfold field_in_range, fields in *.
  destruct s as [[r|] ? ? ? ? ? ?]; cbn in *; [|done].
  destruct (dv_fields r !! i) eqn:El; [|done]. apply lookup_lt_Some in El. lia.
Qed.

Lemma focus_first_field s : field_in_range s → field_in_range (focus_first_action s).1.
Proof.
  intros H. unfold focus_first_action. destruct (available_actions s) as [|a l] eqn:E; [done|].
  apply focus_on_field. rewrite E. by left.
Qed.

Lemma run_focus_field op s : field_in_range s → field_in_range (run_focus op s).
Proof.
  intros H. destruct op; cbn [run_focus].
  - by apply focus_first_field.
  - by destruct s.
  - unfold move_action_down, move_action_vertical. case_match; [|by apply focus_first_field].
    case_match eqn:E; [|done]. by eapply focus_on_field, action_in_available.
  - unfold move_action_up, move_action_vertical. case_match; [|by apply focus_first_field].
    case_match eqn:E; [|done]. by eapply focus_on_field, action_in_available.
  - unfold move_action_right, move_action_horizontal. case_match; [|by apply focus_first_field].
    case_match; [|done]. case_match; cbn. case_match eqn:E; [|done].
    by eapply focus_on_field, actions_available, list_elem_of_lookup_2.
  - unfold move_action_left, move_action_horizontal. case_match; [|by apply focus_first_field].
    case_match; [|done]. case_match. destruct n; [by destruct s|]. case_match eqn:E; [|done].
    by eapply focus_on_field, actions_available, list_elem_of_lookup_2.
  - unfold set_action_focus. case_bool_decide; [|done]. by apply focus_on_field.
  - by apply interactive_field.
  - pose proof (interactive_field s (rev (seq 0 (dp_focused_field s))) H) as Hf.
    unfold move_field_up. destruct (dp_record s); [|done].
    destruct (dp_focused_field s =? 0); [done|].
    destruct (length (dv_fields d) <? dp_focused_field s); [done|].
    by destruct (focus_field (interactive_in _ _) s).
  - unfold toggle_password. destruct s as [[r|] i a [] ? ? ?]; try done.
    unfold field_in_range in *. cbn in *. by rewrite length_fmap.
Qed.
