(* ===== verification/Overlays.v ===== *)
(** * The dialogs of the main screen (src/tui/screens/main/overlay/, src/tui/state/overlay_state.rs,
    src/commands/types.rs)

    Which dialog is open over the main screen, and what it makes of the keys: the password
    history, the confirmations, the tags of several records, errors, and the password
    generator of Generator.v. *)

From stdpp Require Import sorting.
From S2P Require Import Prelude Text Errors Env Types Payload Queries Vault Records Password.
From S2P Require Import Executor Generator.

(** [crossterm::event::KeyCode]; a character is a code point. *)
Module KeyCode.
Inductive t : Set :=
| Backspace | Enter | Left | Right | Up | Down | Tab | BackTab | Esc
| Delete | F (n : Z) | Char (c : Z) | Other.

#[global] Instance t_eq_dec : EqDecision t.
Proof. solve_decision. Defined.
End KeyCode.

(** The code point of a character of ASCII. *)
Definition ch (s : string) : Z := default 0%Z (head (as_bytes s)).
Definition is_key (s : string) (key : KeyCode.t) : bool := bool_decide (key = KeyCode.Char (ch s)).

(** ** Dialogs (commands/types.rs, tui/state/overlay_state.rs) *)

Module ConfirmVariant.
Inductive t : Set :=
| SoftDelete (record_id : Uuid) (record_name : string) (auto_delete_days : option Z)
| HardDelete (record_id : Uuid) (record_name : string)
| EmptyTrash (count : nat)
| BatchSoftDelete (record_ids : list Uuid) (record_names : list string)
| BatchRestore (record_ids : list Uuid) (record_names : list string)
| BatchHardDelete (record_ids : list Uuid) (record_names : list string)
| TagDelete (tag_name : string) (affected_count : nat)
| Restore (record_id : Uuid) (record_name : string)
| QuitApp.

#[global] Instance t_eq_dec : EqDecision t.
Proof. solve_decision. Defined.
End ConfirmVariant.

Module ConfirmButton.
Inductive t : Set := Cancel | Confirm.
#[global] Instance t_eq_dec : EqDecision t.
Proof. solve_decision. Defined.
End ConfirmButton.

Record ConfirmDialogState : Set := mkConfirmDialogState {
  cd_variant : ConfirmVariant.t;
  cd_focused_button : ConfirmButton.t;
}.

Record BatchTagPanelState : Set := mkBatchTagPanelState {
  bt_record_ids : list Uuid;
  bt_selected_record_names : list string;
  bt_current_tag : string;
  bt_current_tags : list string;
  bt_available_tags : list string;
}.

Record ErrorDialogState : Set := mkErrorDialogState {
  ed_title : string;
  ed_message : string;
  ed_detail : option string;
}.

Module Overlay.
Inductive t : Set :=
| Help
| PasswordHistory (record_id : Uuid)
| PasswordGenerator
| ConfirmDialog (state : ConfirmDialogState)
| BatchTagPanel (state : BatchTagPanelState)
| ErrorDialog (state : ErrorDialogState).
End Overlay.

Record HistoryEntry : Set := mkHistoryEntry {
  he_id : Z;
  he_changed_at : Instant;
  he_description : string;
}.

Record PasswordHistoryState : Set := mkPasswordHistoryState {
  hs_record_id : Uuid;
  hs_record_name : string;
  hs_entries : list HistoryEntry;
  hs_selected_index : nat;
}.

#[export] Instance eta_PasswordHistoryState : Eta PasswordHistoryState := λ s,
  mkPasswordHistoryState (hs_record_id s) (hs_record_name s) (hs_entries s)
    (hs_selected_index s).

Module TagPanelFocus.
Inductive t : Set := Input | CurrentTags | AvailableTags | DoneButton.

Definition next (f : t) : t :=
  match f with
  | Input => CurrentTags
  | CurrentTags => AvailableTags
  | AvailableTags => DoneButton
  | DoneButton => Input
  end.

Definition prev (f : t) : t :=
  match f with
  | Input => DoneButton
  | CurrentTags => Input
  | AvailableTags => CurrentTags
  | DoneButton => AvailableTags
  end.
End TagPanelFocus.

Record BatchTagPanelFullState : Set := mkBatchTagPanelFullState {
  bf_selected_record_ids : list Uuid;
  bf_selected_record_names : list string;
  bf_input_text : string;
  bf_current_tags : list string;
  bf_available_tags : list string;
  bf_focus : TagPanelFocus.t;
  bf_tag_cursor : nat;
  bf_current_tag : string;
}.

#[export] Instance eta_BatchTagPanelFullState : Eta BatchTagPanelFullState := λ s,
  mkBatchTagPanelFullState (bf_selected_record_ids s) (bf_selected_record_names s)
    (bf_input_text s) (bf_current_tags s) (bf_available_tags s) (bf_focus s) (bf_tag_cursor s)
    (bf_current_tag s).

Module ErrorActions.
Inductive t : Set := RetryQuit | QuitOnly.
End ErrorActions.

Record ErrorDialogFullState : Set := mkErrorDialogFullState {
  ef_title : string;
  ef_message : string;
  ef_detail : option string;
  ef_actions : ErrorActions.t;
  ef_focused_button : nat;
}.

#[export] Instance eta_ErrorDialogFullState : Eta ErrorDialogFullState := λ s,
  mkErrorDialogFullState (ef_title s) (ef_message s) (ef_detail s) (ef_actions s)
    (ef_focused_button s).

Module ActiveOverlay.
Inductive t : Set :=
| Help
| PasswordHistory (state : PasswordHistoryState)
| ConfirmDialog (variant : ConfirmVariant.t) (focused_button : ConfirmButton.t)
| BatchTagPanel (state : BatchTagPanelFullState)
| ErrorDialog (state : ErrorDialogFullState)
| PasswordGenerator (state : GeneratorState).
End ActiveOverlay.

Module FocusRestoreTarget.
Inductive t : Set :=
| PreOpenPosition | ListPanelNextItem | ListPanelNextItemAfterDelete | ListPanelEmpty
| ListPanelNormalMode | SidebarNextTag | DetailPanelPasswordField.
End FocusRestoreTarget.

Module OverlayKeyResult.
Inductive t : Set :=
| Consumed
| Close (restore : FocusRestoreTarget.t)
| None
| ConfirmAction (variant : ConfirmVariant.t)
| CopyHistoryPassword (history_id : Z)
| CopyGeneratedPassword (password : string)
| BatchAddTag (record_ids : list Uuid) (tag_name : string)
| BatchRemoveTag (record_ids : list Uuid) (tag_name : string)
| ErrorRetry
| ErrorQuit.
End OverlayKeyResult.

(** ** Keys of the password history (overlay/password_history.rs) *)

Module HistoryAction.
Inductive t : Set := None | MoveUp | MoveDown | CopySelected | Close.
End HistoryAction.

Definition history_handle_key (key : KeyCode.t) (s : PasswordHistoryState)
  : PasswordHistoryState * HistoryAction.t :=
  if bool_decide (key = KeyCode.Up) || is_key "k" key then
    (if 0 <? hs_selected_index s then s <| hs_selected_index ::= pred |> else s,
     HistoryAction.MoveUp)
  else if bool_decide (key = KeyCode.Down) || is_key "j" key then
    (if hs_selected_index s <? length (hs_entries s) - 1 then s <| hs_selected_index ::= S |>
     else s, HistoryAction.MoveDown)
  else if bool_decide (key = KeyCode.Enter) || is_key "c" key then
    (s, match hs_entries s with [] => HistoryAction.None | _ => HistoryAction.CopySelected end)
  else if bool_decide (key = KeyCode.Esc) || is_key "H" key then (s, HistoryAction.Close)
  else (s, HistoryAction.None).

(** ** Keys of a confirmation (overlay/confirm.rs)

    Whether the action is confirmed, or the dialog left. *)
Definition confirm_handle_key (key : KeyCode.t) (focused : ConfirmButton.t)
  : ConfirmButton.t * option bool :=
  match key with
  | KeyCode.Tab | KeyCode.Right | KeyCode.Left =>
      (match focused with
       | ConfirmButton.Cancel => ConfirmButton.Confirm
       | ConfirmButton.Confirm => ConfirmButton.Cancel
       end, None)
  | KeyCode.Enter => (focused, Some (bool_decide (focused = ConfirmButton.Confirm)))
  | KeyCode.Esc => (focused, Some false)
  | _ =>
      if is_key "y" key then (focused, Some true)
      else if is_key "n" key then (focused, Some false)
      else (focused, None)
  end.

(** ** Keys of the tags (overlay/batch_tag.rs) *)

Module BatchTagAction.
Inductive t : Set := None | AddTag (tag : string) | RemoveTag (tag : string) | Close.
End BatchTagAction.

(** A cursor behind the end moves to the last tag. *)
Definition clamp_cursor (count cursor : nat) : nat :=
  if count <=? cursor then count - 1 else cursor.

Definition add_current_tag (s : BatchTagPanelFullState) (tag : string)
  : BatchTagPanelFullState * option string :=
  let tag := trim tag in
  if bool_decide (tag = "") || bool_decide (tag ∈ bf_current_tags s) then (s, None)
  else
    let available := filter (λ existing, existing ≠ tag) (bf_available_tags s) in
    (s <| bf_current_tags := merge_sort text_le (bf_current_tags s ++ [tag]) |>
       <| bf_available_tags := available |>
       <| bf_tag_cursor ::= clamp_cursor (length available) |>, Some tag).

Definition remove_current_tag (s : BatchTagPanelFullState) (tag : string)
  : BatchTagPanelFullState * option string :=
  match list_find (λ existing, existing = tag) (bf_current_tags s) with
  | None => (s, None)
  | Some (position, tag) =>
      let current := delete position (bf_current_tags s) in
      let available :=
        if bool_decide (tag ∈ bf_available_tags s) then bf_available_tags s
        else merge_sort text_le (bf_available_tags s ++ [tag]) in
      (s <| bf_current_tags := current |> <| bf_available_tags := available |>
         <| bf_tag_cursor ::= clamp_cursor (length current) |>, Some tag)
  end.

Definition added (r : BatchTagPanelFullState * option string)
  : BatchTagPanelFullState * BatchTagAction.t :=
  (r.1, match r.2 with Some tag => BatchTagAction.AddTag tag | None => BatchTagAction.None end).

Definition removed (r : BatchTagPanelFullState * option string)
  : BatchTagPanelFullState * BatchTagAction.t :=
  (r.1, match r.2 with Some tag => BatchTagAction.RemoveTag tag | None => BatchTagAction.None end).

Definition next_focus (s : BatchTagPanelFullState) : BatchTagPanelFullState :=
  s <| bf_focus ::= TagPanelFocus.next |> <| bf_tag_cursor := 0 |>.

Definition prev_focus (s : BatchTagPanelFullState) : BatchTagPanelFullState :=
  s <| bf_focus ::= TagPanelFocus.prev |> <| bf_tag_cursor := 0 |>.

(** [String::pop] *)
Definition pop (s : string) : string :=
  let l := chars s in of_chars (take (length l - 1) l).

Definition push (s : string) (c : Z) : string := s +:+ encode_char c.

Definition handle_input_focus (key : KeyCode.t) (s : BatchTagPanelFullState)
  : BatchTagPanelFullState * BatchTagAction.t :=
  match key with
  | KeyCode.Char c => (s <| bf_input_text ::= λ t, push t c |>, BatchTagAction.None)
  | KeyCode.Backspace => (s <| bf_input_text ::= pop |>, BatchTagAction.None)
  | KeyCode.Enter =>
      let tag := trim (bf_input_text s) in
      if bool_decide (tag = "") then (s, BatchTagAction.None)
      else added (add_current_tag (s <| bf_input_text := "" |>) tag)
  | KeyCode.Tab => (next_focus s, BatchTagAction.None)
  | KeyCode.Esc => (s, BatchTagAction.Close)
  | _ => (s, BatchTagAction.None)
  end.

(** The keys that the two lists of tags and the button share. *)
Definition move_focus (key : KeyCode.t) (s : BatchTagPanelFullState)
  : BatchTagPanelFullState * BatchTagAction.t :=
  match key with
  | KeyCode.Tab => (next_focus s, BatchTagAction.None)
  | KeyCode.BackTab => (prev_focus s, BatchTagAction.None)
  | KeyCode.Esc => (s, BatchTagAction.Close)
  | _ => (s, BatchTagAction.None)
  end.

Definition move_left (s : BatchTagPanelFullState) : BatchTagPanelFullState :=
  if 0 <? bf_tag_cursor s then s <| bf_tag_cursor ::= pred |> else s.

Definition move_right (count : nat) (s : BatchTagPanelFullState) : BatchTagPanelFullState :=
  if bf_tag_cursor s + 1 <? count then s <| bf_tag_cursor ::= S |> else s.

Definition handle_current_tags_focus (key : KeyCode.t) (s : BatchTagPanelFullState)
  : BatchTagPanelFullState * BatchTagAction.t :=
  if bool_decide (key = KeyCode.Left) || is_key "h" key then (move_left s, BatchTagAction.None)
  else if bool_decide (key = KeyCode.Right) || is_key "l" key then
    (move_right (length (bf_current_tags s)) s, BatchTagAction.None)
  else if bool_decide (key = KeyCode.Backspace) || is_key "d" key then
    match bf_current_tags s !! bf_tag_cursor s with
    | Some tag => removed (remove_current_tag s tag)
    | None => (s, BatchTagAction.None)
    end
  else move_focus key s.

Definition handle_available_tags_focus (key : KeyCode.t) (s : BatchTagPanelFullState)
  : BatchTagPanelFullState * BatchTagAction.t :=
  if bool_decide (key = KeyCode.Left) || is_key "h" key then (move_left s, BatchTagAction.None)
  else if bool_decide (key = KeyCode.Right) || is_key "l" key then
    (move_right (length (bf_available_tags s)) s, BatchTagAction.None)
  else if is_key " " key || bool_decide (key = KeyCode.Enter) then
    match bf_available_tags s !! bf_tag_cursor s with
    | Some tag => added (add_current_tag s tag)
    | None => (s, BatchTagAction.None)
    end
  else move_focus key s.

Definition handle_done_button_focus (key : KeyCode.t) (s : BatchTagPanelFullState)
  : BatchTagPanelFullState * BatchTagAction.t :=
  if bool_decide (key = KeyCode.Enter) then (s, BatchTagAction.Close) else move_focus key s.

Definition batch_tag_handle_key (key : KeyCode.t) (s : BatchTagPanelFullState)
  : BatchTagPanelFullState * BatchTagAction.t :=
  match bf_focus s with
  | TagPanelFocus.Input => handle_input_focus key s
  | TagPanelFocus.CurrentTags => handle_current_tags_focus key s
  | TagPanelFocus.AvailableTags => handle_available_tags_focus key s
  | TagPanelFocus.DoneButton => handle_done_button_focus key s
  end.

(** ** Keys of an error (overlay/error_dialog.rs) *)

Module ErrorDialogAction.
Inductive t : Set := None | Retry | Quit.
End ErrorDialogAction.

Definition error_handle_key (key : KeyCode.t) (s : ErrorDialogFullState)
  : ErrorDialogFullState * ErrorDialogAction.t :=
  match key, ef_actions s with
  | KeyCode.Esc, _ => (s, ErrorDialogAction.Quit)
  | (KeyCode.Tab | KeyCode.Right | KeyCode.Left), ErrorActions.RetryQuit =>
      (s <| ef_focused_button ::= λ b, if b =? 0 then 1 else 0 |>, ErrorDialogAction.None)
  | KeyCode.Enter, ErrorActions.RetryQuit =>
      (s, if ef_focused_button s =? 0 then ErrorDialogAction.Retry else ErrorDialogAction.Quit)
  | KeyCode.Enter, ErrorActions.QuitOnly => (s, ErrorDialogAction.Quit)
  | _, _ => (s, ErrorDialogAction.None)
  end.

(** ** Keys of the generator (overlay/generator.rs) *)

Module GeneratorAction.
Inductive t : Set := None | Regenerate | CopyToClipboard | Close.
End GeneratorAction.

Section generator.
Context {W : Type} `{Rng W}.
Import GeneratorState.

Definition set_separator (separator : string) (s : GeneratorState) : io W GeneratorState :=
  regenerate (s <| gs_memorable_config ::= λ c, c <| mc_separator := separator |> |>).

Definition toggle_focused_option (idx : nat) (s : GeneratorState) : io W GeneratorState :=
  match gs_style s with
  | GenerationStyle.Random => toggle_char_type idx s
  | GenerationStyle.Memorable =>
      if idx =? 0 then
        regenerate (s <| gs_memorable_config ::= λ c, c <| mc_capitalize ::= negb |> |>)
      else io_ret s
  | GenerationStyle.Pin => io_ret s
  end.

(** A state after an action of its own, without one for the caller. *)
Definition then_none (m : io W GeneratorState) : io W (GeneratorState * GeneratorAction.t) :=
  let* s := m in io_ret (s, GeneratorAction.None).

Definition then_regenerated (s : GeneratorState) : io W (GeneratorState * GeneratorAction.t) :=
  let* s := regenerate s in io_ret (s, GeneratorAction.Regenerate).

(** The keys that depend on the focus alone. *)
Definition focused_key (key : KeyCode.t) (s : GeneratorState)
  : io W (GeneratorState * GeneratorAction.t) :=
  match gs_focus s, key with
  | GeneratorFocus.StyleSelector, KeyCode.Left =>
      match gs_style s with
      | GenerationStyle.Random => io_ret (s, GeneratorAction.None)
      | GenerationStyle.Memorable => then_none (set_style GenerationStyle.Random s)
      | GenerationStyle.Pin => then_none (set_style GenerationStyle.Memorable s)
      end
  | GeneratorFocus.StyleSelector, KeyCode.Right =>
      match gs_style s with
      | GenerationStyle.Random => then_none (set_style GenerationStyle.Memorable s)
      | GenerationStyle.Memorable => then_none (set_style GenerationStyle.Pin s)
      | GenerationStyle.Pin => io_ret (s, GeneratorAction.None)
      end
  | GeneratorFocus.LengthSlider, KeyCode.Left => then_none (decrement_length s)
  | GeneratorFocus.LengthSlider, KeyCode.Right => then_none (increment_length s)
  | (GeneratorFocus.Toggle _ | GeneratorFocus.SeparatorInput), KeyCode.Left =>
      io_ret (focus_prev_toggle s, GeneratorAction.None)
  | (GeneratorFocus.Toggle _ | GeneratorFocus.SeparatorInput), KeyCode.Right =>
      io_ret (focus_next_toggle s, GeneratorAction.None)
  | GeneratorFocus.SeparatorInput, KeyCode.Char c => then_none (set_separator (encode_char c) s)
  | GeneratorFocus.SeparatorInput, KeyCode.Backspace => then_none (set_separator "-" s)
  | GeneratorFocus.RegenerateButton, KeyCode.Right =>
      io_ret (s <| gs_focus := GeneratorFocus.ActionButton |>, GeneratorAction.None)
  | GeneratorFocus.ActionButton, KeyCode.Left =>
      io_ret (s <| gs_focus := GeneratorFocus.RegenerateButton |>, GeneratorAction.None)
  | _, _ => io_ret (s, GeneratorAction.None)
  end.

(** Enter, and the space bar. *)
Definition press_key (s : GeneratorState) : io W (GeneratorState * GeneratorAction.t) :=
  match gs_focus s with
  | GeneratorFocus.ActionButton => io_ret (s, GeneratorAction.CopyToClipboard)
  | GeneratorFocus.RegenerateButton => then_regenerated s
  | GeneratorFocus.Toggle idx => then_none (toggle_focused_option idx s)
  | _ => io_ret (s, GeneratorAction.None)
  end.

Definition generator_handle_key (key : KeyCode.t) (s : GeneratorState)
  : io W (GeneratorState * GeneratorAction.t) :=
  let in_separator := bool_decide (gs_focus s = GeneratorFocus.SeparatorInput) in
  match key with
  | KeyCode.Down => io_ret (focus_section_down s, GeneratorAction.None)
  | KeyCode.Up => io_ret (focus_section_up s, GeneratorAction.None)
  | KeyCode.Tab => io_ret (focus_next s, GeneratorAction.None)
  | KeyCode.BackTab => io_ret (focus_prev s, GeneratorAction.None)
  | KeyCode.Esc => io_ret (s, GeneratorAction.Close)
  | KeyCode.Enter => press_key s
  | _ =>
      if is_key "r" key then then_regenerated s
      else if is_key "c" key then
        if in_separator then then_none (set_separator "c" s)
        else io_ret (s, GeneratorAction.CopyToClipboard)
      else if is_key "+" key || is_key "=" key then
        then_none (if in_separator then set_separator "+" s else increment_length s)
      else if is_key "-" key then
        then_none (if in_separator then set_separator "-" s else decrement_length s)
      else if is_key " " key then press_key s
      else focused_key key s
  end.

End generator.

(** ** The manager (overlay/mod.rs)

    At most one dialog is open; the state is [active]. *)

(** The button that has the focus when a confirmation opens: that of a caller is not used. *)
Definition default_confirm_button (variant : ConfirmVariant.t) : ConfirmButton.t :=
  match variant with
  | ConfirmVariant.HardDelete _ _ | ConfirmVariant.EmptyTrash _ | ConfirmVariant.TagDelete _ _
  | ConfirmVariant.BatchHardDelete _ _ | ConfirmVariant.QuitApp => ConfirmButton.Cancel
  | ConfirmVariant.SoftDelete _ _ _ | ConfirmVariant.BatchSoftDelete _ _
  | ConfirmVariant.BatchRestore _ _ | ConfirmVariant.Restore _ _ => ConfirmButton.Confirm
  end.

Record OverlayManager : Set := mkOverlayManager { om_active : option ActiveOverlay.t }.

Module OverlayManager.

Definition new : OverlayManager := mkOverlayManager None.

Definition is_active (m : OverlayManager) : bool := bool_decide (is_Some (om_active m)).

Definition close (m : OverlayManager) : OverlayManager := mkOverlayManager None.

Section s.
Context {W : Type} `{Rng W}.

Definition into_active (overlay : Overlay.t) : io W ActiveOverlay.t :=
  match overlay with
  | Overlay.Help => io_ret ActiveOverlay.Help
  | Overlay.PasswordHistory record_id =>
      io_ret (ActiveOverlay.PasswordHistory (mkPasswordHistoryState record_id "" [] 0))
  | Overlay.ConfirmDialog state =>
      io_ret (ActiveOverlay.ConfirmDialog (cd_variant state)
                (default_confirm_button (cd_variant state)))
  | Overlay.BatchTagPanel state =>
      io_ret (ActiveOverlay.BatchTagPanel (mkBatchTagPanelFullState (bt_record_ids state)
                (bt_selected_record_names state) "" (bt_current_tags state)
                (bt_available_tags state) TagPanelFocus.Input 0 (bt_current_tag state)))
  | Overlay.ErrorDialog state =>
      io_ret (ActiveOverlay.ErrorDialog (mkErrorDialogFullState (ed_title state)
                (ed_message state) (ed_detail state) ErrorActions.RetryQuit 0))
  | Overlay.PasswordGenerator =>
      let* g := GeneratorState.new in
      io_ret (ActiveOverlay.PasswordGenerator g)
  end.

Definition open (overlay : Overlay.t) (m : OverlayManager) : io W (OverlayManager * bool) :=
  if is_active m then io_ret (m, false)
  else
    let* active := into_active overlay in
    io_ret (mkOverlayManager (Some active), true).

Definition open_password_generator (config : PasswordDefaultsConfig) (m : OverlayManager)
  : io W (OverlayManager * bool) :=
  if is_active m then io_ret (m, false)
  else
    let* g := GeneratorState.from_config config in
    io_ret (mkOverlayManager (Some (ActiveOverlay.PasswordGenerator g)), true).

Definition handle_active (key : KeyCode.t) (overlay : ActiveOverlay.t)
  : io W (ActiveOverlay.t * OverlayKeyResult.t) :=
  match overlay with
  | ActiveOverlay.Help =>
      io_ret (overlay,
        if bool_decide (key = KeyCode.F 1) || bool_decide (key = KeyCode.Esc)
        then OverlayKeyResult.Close FocusRestoreTarget.PreOpenPosition
        else OverlayKeyResult.Consumed)
  | ActiveOverlay.PasswordHistory state =>
      let '(state, action) := history_handle_key key state in
      io_ret (ActiveOverlay.PasswordHistory state,
        match action with
        | HistoryAction.Close => OverlayKeyResult.Close FocusRestoreTarget.DetailPanelPasswordField
        | HistoryAction.CopySelected =>
            match hs_entries state !! hs_selected_index state with
            | Some entry => OverlayKeyResult.CopyHistoryPassword (he_id entry)
            | None => OverlayKeyResult.Consumed
            end
        | HistoryAction.None | HistoryAction.MoveUp | HistoryAction.MoveDown =>
            OverlayKeyResult.Consumed
        end)
  | ActiveOverlay.ConfirmDialog variant focused_button =>
      let '(focused_button, result) := confirm_handle_key key focused_button in
      io_ret (ActiveOverlay.ConfirmDialog variant focused_button,
        match result with
        | Some true => OverlayKeyResult.ConfirmAction variant
        | Some false => OverlayKeyResult.Close FocusRestoreTarget.PreOpenPosition
        | None => OverlayKeyResult.Consumed
        end)
  | ActiveOverlay.BatchTagPanel state =>
      let '(state, action) := batch_tag_handle_key key state in
      io_ret (ActiveOverlay.BatchTagPanel state,
        match action with
        | BatchTagAction.Close => OverlayKeyResult.Close FocusRestoreTarget.PreOpenPosition
        | BatchTagAction.AddTag tag_name =>
            OverlayKeyResult.BatchAddTag (bf_selected_record_ids state) tag_name
        | BatchTagAction.RemoveTag tag_name =>
            OverlayKeyResult.BatchRemoveTag (bf_selected_record_ids state) tag_name
        | BatchTagAction.None => OverlayKeyResult.Consumed
        end)
  | ActiveOverlay.ErrorDialog state =>
      let '(state, action) := error_handle_key key state in
      io_ret (ActiveOverlay.ErrorDialog state,
        match action with
        | ErrorDialogAction.Retry => OverlayKeyResult.ErrorRetry
        | ErrorDialogAction.Quit => OverlayKeyResult.ErrorQuit
        | ErrorDialogAction.None => OverlayKeyResult.Consumed
        end)
  | ActiveOverlay.PasswordGenerator state =>
      let* r := generator_handle_key key state in
      let '(state, action) := r in
      match action with
      | GeneratorAction.Close =>
          io_ret (ActiveOverlay.PasswordGenerator state,
                  OverlayKeyResult.Close FocusRestoreTarget.PreOpenPosition)
      | GeneratorAction.CopyToClipboard =>
          let '(password, state) := GeneratorState.take_preview state in
          io_ret (ActiveOverlay.PasswordGenerator state,
                  OverlayKeyResult.CopyGeneratedPassword password)
      | GeneratorAction.Regenerate | GeneratorAction.None =>
          io_ret (ActiveOverlay.PasswordGenerator state, OverlayKeyResult.Consumed)
      end
  end.

Definition handle_key (key : KeyCode.t) (m : OverlayManager)
  : io W (OverlayManager * OverlayKeyResult.t) :=
  match om_active m with
  | None => io_ret (m, OverlayKeyResult.None)
  | Some overlay =>
      let* r := handle_active key overlay in
      io_ret (mkOverlayManager (Some r.1), r.2)
  end.

End s.
End OverlayManager.

(** ** Properties *)

(** What an action of a dialog does that cannot be taken back. *)
Definition irreversible (v : ConfirmVariant.t) : bool :=
  match v with
  | ConfirmVariant.HardDelete _ _ | ConfirmVariant.EmptyTrash _ | ConfirmVariant.TagDelete _ _
  | ConfirmVariant.BatchHardDelete _ _ => true
  | _ => false
  end.

Section manager.
Context {W : Type} `{Rng W}.
Import OverlayManager.

(** An action is confirmed only in the dialog that asks for it, by the key for yes or with
    the focus on its button. *)
Lemma confirmed_from key m w m' v w' :
  handle_key key m w = ((m', OverlayKeyResult.ConfirmAction v), w') →
  ∃ b, om_active m = Some (ActiveOverlay.ConfirmDialog v b) ∧
    (key = KeyCode.Char (ch "y") ∨ key = KeyCode.Enter ∧ b = ConfirmButton.Confirm).
Proof.
  unfold handle_key. destruct (om_active m) as [[]|] eqn:E; cbn; try (intros [= <- <-]; done).
  - destruct (bool_decide _ || _); by intros [= ].
  - destruct (history_handle_key key state) as [s' []]; cbn; try by intros [= ].
    destruct (hs_entries s' !! hs_selected_index s'); by intros [= ].
  - destruct (confirm_handle_key key focused_button) as [b' [[]|]] eqn:Ec; cbn; intros [= ? ? ?];
      try done. subst. exists focused_button. split; [done|].
    unfold confirm_handle_key, is_key in Ec. destruct key; simplify_eq; try done.
    + right. split; [done|]. by case_bool_decide.
    + left. repeat case_bool_decide; simplify_eq; done.
  - destruct (batch_tag_handle_key key state) as [s' []]; cbn; by intros [= ].
  - destruct (error_handle_key key state) as [s' []]; cbn; by intros [= ].
  - unfold io_bind. destruct (generator_handle_key key state w) as [[s' []] w1]; cbn; try by intros [= ].
Qed.

(** A dialog that was opened does not open another. *)
Lemma nesting_blocked overlay m w : is_active m = true → open overlay m w = ((m, false), w).
Proof. unfold open. by intros ->. Qed.

Lemma opened_default v b m w m' w' : open (Overlay.ConfirmDialog (mkConfirmDialogState v b)) m w
    = ((m', true), w') →
  om_active m' = Some (ActiveOverlay.ConfirmDialog v (default_confirm_button v)) ∧ w' = w.
Proof. unfold open. destruct (is_active m); cbn; [done|]. by intros [= <- <-]. Qed.

End manager.

(** *** The tags of a batch *)

(** Each tag is in one of two sorted lists, of which the records have the first. *)
Record batch_ok (s : BatchTagPanelFullState) : Prop := {
  bo_current : NoDup (bf_current_tags s);
  bo_available : NoDup (bf_available_tags s);
  bo_disjoint : ∀ tag, tag ∈ bf_current_tags s → tag ∉ bf_available_tags s;
}.

Lemma add_current_tag_ok s tag : batch_ok s → batch_ok (add_current_tag s tag).1.
Proof.
  intros [Hc Ha Hd]. unfold add_current_tag.
  destruct (bool_decide (trim tag = "") || _) eqn:E; [done|].
  apply orb_false_iff in E as [_ Hnew%bool_decide_eq_false].
  destruct s as [ids names inp cur av f n c]; cbn in *. split; cbn.
  - rewrite merge_sort_Permutation. apply NoDup_app. split; [done|].
    split; [|apply NoDup_singleton]. intros x Hx ->%list_elem_of_singleton. done.
  - by apply NoDup_filter.
  - intros x. rewrite merge_sort_Permutation, elem_of_app, list_elem_of_singleton.
    rewrite list_elem_of_filter. intros [Hx| ->] [? ?]; [by eapply Hd|done].
Qed.

Lemma remove_current_tag_ok s tag : batch_ok s → batch_ok (remove_current_tag s tag).1.
Proof.
  intros [Hc Ha Hd]. unfold remove_current_tag.
  destruct (list_find _ _) as [[i x]|] eqn:E; [|done].
  apply list_find_Some in E as (Hi & -> & _).
  destruct s as [ids names inp cur av f n c]; cbn in *.
  assert (tag ∈ cur) as Hin by by eapply list_elem_of_lookup_2.
  rewrite bool_decide_false by by apply Hd.
  pose proof (delete_Permutation _ _ _ Hi) as Hp. rewrite Hp in Hc.
  apply NoDup_cons in Hc as [Hnot Hc].
  split; cbn; [done| |].
  - rewrite merge_sort_Permutation. apply NoDup_app. split; [done|].
    split; [|apply NoDup_singleton]. intros y Hy ->%list_elem_of_singleton. by eapply Hd.
  - intros y Hy. rewrite merge_sort_Permutation, elem_of_app, list_elem_of_singleton.
    intros [Hy'| ->]; [|done]. eapply Hd; [|done]. rewrite Hp. by right.
Qed.

(** Whatever is typed, no tag is offered that the records are shown to have. *)
Lemma batch_keys_ok keys s : batch_ok s →
  batch_ok (foldl (λ s key, (batch_tag_handle_key key s).1) s keys).
Proof.
  revert s. induction keys as [|key keys IH]; intros s Hs; [done|]. apply IH.
  assert (∀ s', bf_current_tags s' = bf_current_tags s →
    bf_available_tags s' = bf_available_tags s → batch_ok s') as Hsame.
  { intros s' E1 E2. destruct Hs. split; by rewrite ?E1, ?E2. }
  assert (∀ key, batch_ok (move_focus key s).1) as Hmove.
  { intros k. unfold move_focus. destruct k; try done; apply Hsame; by destruct s. }
  assert (batch_ok (move_left s) ∧ ∀ n, batch_ok (move_right n s)) as [Hl Hr].
  { unfold move_left, move_right. split; [|intros n]; case_match; apply Hsame; by destruct s. }
  unfold batch_tag_handle_key. destruct (bf_focus s).
  - unfold handle_input_focus. destruct key; try done; try (apply Hsame; by destruct s).
    case_bool_decide; [done|]. apply add_current_tag_ok, Hsame; by destruct s.
  - unfold handle_current_tags_focus. repeat case_match; try done; try apply Hmove; try apply Hr.
    by apply remove_current_tag_ok.
  - unfold handle_available_tags_focus. repeat case_match; try done; try apply Hmove; try apply Hr.
    by apply add_current_tag_ok.
  - unfold handle_done_button_focus. case_match; [done|apply Hmove].
Qed.
