(* ===== verification/MainScreen.v ===== *)
(** * The main screen (src/tui/state/main_state/state.rs, src/tui/traits/screen.rs,
    src/commands/message.rs, src/commands/types.rs)

    The state of the screen with its sidebar, list, details and dialogs, and what the
    messages of the executor do to it.  Its keys and its mouse follow, and [update] at the
    end is the whole screen. *)

From stdpp Require Import sorting.
From S2P Require Import Prelude Text Errors Env Types Payload Queries Vault Records Tags Password.
From S2P Require Import Listing Executor Generator Health Config ConfigExec Dispatch ListPanel.
From S2P Require Import Sidebar DetailPanel Overlays.

#[export] Instance eta_TuiRecord : Eta TuiRecord := λ r,
  mkTuiRecord (tr_id r) (tr_credential_type r) (tr_name r) (tr_subtitle r) (tr_is_favorite r)
    (tr_is_expired r) (tr_expires_at r) (tr_has_weak_password r) (tr_is_compromised r)
    (tr_duplicate_group_size r) (tr_created_at r) (tr_updated_at r) (tr_deleted r)
    (tr_deleted_at r) (tr_tags r) (tr_sync_status r).

(** ** Messages and screens (commands/types.rs, commands/message.rs) *)

Module Screen.
Inductive t : Set :=
| Unlock | Onboarding | KeyRecovery | DatabaseRecovery | Main | CreateRecord
| EditRecord (id : Uuid) | Config | ImportExport | AuditLog | SyncConflict
| ChangeMasterPassword | SetNewMasterPassword | PasswordGenerator.

#[global] Instance t_eq_dec : EqDecision t.
Proof. solve_decision. Defined.
End Screen.

Module PanelId.
Inductive t : Set := Sidebar | List | Detail.

#[global] Instance t_eq_dec : EqDecision t.
Proof. solve_decision. Defined.

(** [MainScreen::cycle_focus] and [cycle_focus_reverse] *)
Definition next (p : t) : t :=
  match p with Sidebar => List | List => Detail | Detail => Sidebar end.
Definition prev (p : t) : t :=
  match p with Sidebar => Detail | List => Sidebar | Detail => List end.
End PanelId.

(** [crossterm]: the modifiers that are held, and the events of keys and of the mouse. *)
Record KeyModifiers : Set := mkKeyModifiers {
  km_shift : bool;
  km_control : bool;
  km_alt : bool;
  km_super : bool;
  km_meta : bool;
}.

Record KeyEvent : Set := mkKeyEvent { ke_code : KeyCode.t; ke_modifiers : KeyModifiers }.

Module MouseEventKind.
Inductive t : Set := Moved | DownLeft | ScrollUp | ScrollDown | Other.
End MouseEventKind.

Record MouseEvent : Set := mkMouseEvent {
  me_kind : MouseEventKind.t;
  me_column : Z;
  me_row : Z;
}.

(** The messages that the screens look at; they pass over the rest of the enumeration. *)
Module Message.
Inductive t : Type :=
| CommandCompleted (result : AppResult.t)
| KeyEvent (key : KeyEvent)
| MouseEvent (event : MouseEvent)
| Resize (width height : Z)
| ShowOverlay (overlay : Overlay.t)
| CloseOverlay
| HealthCheckProgress (current total : nat)
| Tick
| Other.
End Message.

(** tui/traits/screen.rs *)
Module ScreenResult.
Inductive t : Type :=
| Continue
| NavigateTo (screen : Screen.t)
| PopScreen
| Command (c : Dispatch.Command.t)
| ExitApp.
End ScreenResult.

(** The queue of commands to the executor, whether it took one. *)
Class CommandQueue (W : Type) : Type := command_tx_try_send : Dispatch.Command.t → io W bool.

Definition send_system_command {W} `{CommandQueue W} (cmd : Command.t) : io W () :=
  let* _ := command_tx_try_send cmd in io_ret tt.

(** Whether there is an error to show. *)
Definition send_user_command {W} `{CommandQueue W} (cmd : Command.t) : io W bool :=
  let* sent := command_tx_try_send cmd in io_ret (negb sent).

Module EffectKind.
Inductive t : Set :=
| UnlockTransition | LockTransition | PageSwitch | ModalAppear | ModalDismiss | BrandDissolve
| OnboardingIntro | OnboardingForward | OnboardingBack | ScreenIn | ScreenOut.
End EffectKind.

(** ** The status bar and the title *)

Module SyncIndicator.
Inductive t : Set := NotConfigured | Configured | Synced | Syncing | Failed | Offline.
End SyncIndicator.

Module StatusMessage.
Inductive t : Set :=
| RecordCount (n : nat)
| ClipboardCountdown (field : string) (seconds : Z)
| Temporary (text : string) (ttl : Z)
| Search (query : string).
End StatusMessage.

Module HealthCheckPhase.
Inductive t : Set :=
| Inactive | Checking | NeedsAttention (weak compromised duplicate_groups : nat) | AllSecure
| Skipped.
End HealthCheckPhase.

Record StatusBarState : Set := mkStatusBarState {
  bar_clipboard_countdown : option Z;
  bar_sync_status : SyncIndicator.t;
  bar_status_message : option StatusMessage.t;
  bar_temp_message_timer : option Z;
  bar_record_count : nat;
  bar_health_check_progress : option (nat * nat);
  bar_health_check_phase : HealthCheckPhase.t;
}.

#[export] Instance eta_StatusBarState : Eta StatusBarState := λ s,
  mkStatusBarState (bar_clipboard_countdown s) (bar_sync_status s) (bar_status_message s)
    (bar_temp_message_timer s) (bar_record_count s) (bar_health_check_progress s)
    (bar_health_check_phase s).

Definition default_status_bar : StatusBarState :=
  mkStatusBarState None SyncIndicator.NotConfigured None None 0 None HealthCheckPhase.Inactive.

Record TerminalTitleState : Set := mkTerminalTitleState {
  tt_current_title : string;
  tt_pending_restore : option string;
}.

#[export] Instance eta_TerminalTitleState : Eta TerminalTitleState := λ s,
  mkTerminalTitleState (tt_current_title s) (tt_pending_restore s).

Module TerminalTitleState.

Definition max_name_len : nat := 35.

Definition set_for_main (record_name : option string) (s : TerminalTitleState)
  : TerminalTitleState :=
  s <| tt_current_title :=
    match record_name with
    | None => "OK"
    | Some name =>
        if max_name_len <? length (chars name)
        then "OK | " +:+ of_chars (take max_name_len (chars name)) +:+ "..."
        else "OK | " +:+ name
    end |>.

Definition clear (s : TerminalTitleState) : TerminalTitleState := s <| tt_current_title := "" |>.

Definition save_for_restore (s : TerminalTitleState) : TerminalTitleState :=
  s <| tt_pending_restore := Some (tt_current_title s) |>.

Definition restore (s : TerminalTitleState) : TerminalTitleState :=
  match tt_pending_restore s with
  | Some title => mkTerminalTitleState title None
  | None => s
  end.

End TerminalTitleState.

(** The settings of passwords as the dialog of Generator.v has them; they are one type. *)
Definition generator_defaults (c : Config.PasswordDefaultsConfig)
  : Generator.PasswordDefaultsConfig :=
  Generator.mkPasswordDefaultsConfig
    match Config.pd_style c with
    | PasswordGenerationStyle.Random => GenerationStyle.Random
    | PasswordGenerationStyle.Memorable => GenerationStyle.Memorable
    | PasswordGenerationStyle.Pin => GenerationStyle.Pin
    end
    (Z.to_nat (Config.pd_length c)) (Config.pd_include_lowercase c)
    (Config.pd_include_digits c) (Config.pd_include_uppercase c)
    (Config.pd_include_special c) (Z.to_nat (Config.pd_memorable_word_count c))
    (Config.pd_memorable_capitalize c) (Config.pd_memorable_separator c)
    (Z.to_nat (Config.pd_pin_length c)).

(** ** The state

    [pre_lock_snapshot] is a placeholder that nothing sets, and left out. *)
Record MainScreenState : Set := mkMainScreenState {
  ms_sidebar : SidebarState;
  ms_list : ListPanelState;
  ms_detail : DetailPanelState;
  ms_status_bar : StatusBarState;
  ms_terminal_title : TerminalTitleState;
  ms_current_filter : RecordFilter.t;
  ms_current_sort : RecordSort;
  ms_focused_panel : PanelId.t;
  ms_unicode_capable : bool;
  ms_trash_retention_days : Z;
  ms_password_defaults : Generator.PasswordDefaultsConfig;
  ms_overlay_manager : OverlayManager;
  ms_pending_animation : option EffectKind.t;
  ms_list_auto_select : bool;
  ms_pending_detail_refresh : option Uuid;
  ms_pending_reveal_fields : list (Uuid * FieldSelector.t);
  ms_terminal_area : Rect;
}.

#[export] Instance eta_MainScreenState : Eta MainScreenState := λ s,
  mkMainScreenState (ms_sidebar s) (ms_list s) (ms_detail s) (ms_status_bar s)
    (ms_terminal_title s) (ms_current_filter s) (ms_current_sort s) (ms_focused_panel s)
    (ms_unicode_capable s) (ms_trash_retention_days s) (ms_password_defaults s)
    (ms_overlay_manager s) (ms_pending_animation s) (ms_list_auto_select s)
    (ms_pending_detail_refresh s) (ms_pending_reveal_fields s) (ms_terminal_area s).

(** tui/state/screen_restore.rs *)
Record MainRestoreState : Set := mkMainRestoreState {
  mr_focused_panel : PanelId.t;
  mr_sidebar_selected_index : nat;
  mr_sidebar_tags_expanded : bool;
  mr_sidebar_tag_scroll_offset : nat;
  mr_list_selected_index : option nat;
  mr_list_scroll_offset : nat;
  mr_current_filter : RecordFilter.t;
  mr_current_sort : RecordSort;
  mr_detail_focused_field : nat;
}.

Module MainScreenState.

Definition new : MainScreenState :=
  mkMainScreenState SidebarState.initial ListPanelState.initial DetailPanelState.initial
    default_status_bar (mkTerminalTitleState "" None) RecordFilter.All
    (mkRecordSort SortField.CreatedAt SortDirection.Desc) PanelId.Sidebar true 30
    Generator.default_password_config OverlayManager.new None false None [] (mkRect 0 0 100 24).

Definition sync_from_app (focused_panel : PanelId.t) (unicode_capable : bool)
    (terminal_size : Z * Z) (s : MainScreenState) : MainScreenState :=
  s <| ms_focused_panel := focused_panel |> <| ms_unicode_capable := unicode_capable |>
    <| ms_terminal_area := mkRect 0 0 terminal_size.1 terminal_size.2 |>.

Definition to_restore_state (focused_panel : PanelId.t) (s : MainScreenState)
  : MainRestoreState :=
  mkMainRestoreState focused_panel (sb_selected_index (ms_sidebar s))
    (sb_tags_expanded (ms_sidebar s)) (sb_tag_scroll_offset (ms_sidebar s))
    (ls_selected_index (ms_list s)) (ls_scroll_offset (ms_list s)) (ms_current_filter s)
    (ms_current_sort s) (dp_focused_field (ms_detail s)).

Definition restore_from (r : MainRestoreState) (s : MainScreenState) : MainScreenState :=
  let sidebar :=
    SidebarState.rebuild
      ((ms_sidebar s) <| sb_tags_expanded := mr_sidebar_tags_expanded r |>
                      <| sb_tag_scroll_offset := mr_sidebar_tag_scroll_offset r |>) in
  s <| ms_sidebar := sidebar <| sb_selected_index :=
         Nat.min (mr_sidebar_selected_index r) (length (sb_items sidebar) - 1) |> |>
    <| ms_list ::= λ l, l <| ls_selected_index := mr_list_selected_index r |>
                          <| ls_scroll_offset := mr_list_scroll_offset r |>
                          <| ls_sort := mr_current_sort r |> |>
    <| ms_current_filter := mr_current_filter r |>
    <| ms_current_sort := mr_current_sort r |>
    <| ms_detail ::= λ d, d <| dp_focused_field := mr_detail_focused_field r |> |>
    <| ms_focused_panel := mr_focused_panel r |>.

(** *** Loading the list *)

Definition load_record_list_command (offset : nat) (s : MainScreenState)
  : MainScreenState * Command.t :=
  (s <| ms_list ::= λ l, l <| ls_pending_load_offset := Some offset |> |>,
   Command.LoadRecordList (ms_current_filter s) (ms_current_sort s)
     DEFAULT_RECORD_LIST_PAGE_SIZE offset).

Definition reload_record_list_command (s : MainScreenState) : MainScreenState * Command.t :=
  load_record_list_command 0 s.

(** The next page, when the selection comes near the end of what is loaded. *)
Definition maybe_load_more_records_command (s : MainScreenState)
  : option (MainScreenState * Command.t) :=
  let loaded := length (ls_records (ms_list s)) in
  if bool_decide (is_Some (ls_pending_load_offset (ms_list s)))
     || (ls_total_count (ms_list s) <=? loaded) || (loaded =? 0) then None
  else
    selected ← ls_selected_index (ms_list s);
    if loaded - (selected + 1) <=? Nat.max (ListPanelState.visible_items_count (ms_list s)) 1
    then Some (load_record_list_command loaded s)
    else None.

Definition clear_detail (s : MainScreenState) : MainScreenState :=
  s <| ms_detail ::= DetailPanelState.clear |>.

(** Whether the details are those of a record. *)
Definition shows_detail (id : Uuid) (s : MainScreenState) : bool :=
  match dp_record (ms_detail s) with Some r => bool_decide (dv_id r = id) | None => false end.

Definition clear_detail_of (id : Uuid) (s : MainScreenState) : MainScreenState :=
  if shows_detail id s then clear_detail s else s.

Definition without_record (id : Uuid) (s : MainScreenState) : MainScreenState :=
  s <| ms_list ::= λ l, l <| ls_records ::= filter (λ r, tr_id r ≠ id) |> |>.

Definition selected_id (s : MainScreenState) : option Uuid :=
  tr_id <$> ListPanelState.selected_record (ms_list s).

Definition batch_tag_panel_open (s : MainScreenState) : bool :=
  match om_active (ms_overlay_manager s) with
  | Some (ActiveOverlay.BatchTagPanel _) => true
  | _ => false
  end.

(** ** Results (the [CommandCompleted] arm of [update]) *)

Section results.
Context {W : Type} `{CommandQueue W} `{Rng W} `{System W} `{Translations} `{Lowercase}.

Definition Step : Type := MainScreenState * ScreenResult.t.

Definition continue_ (s : MainScreenState) : io W Step := io_ret (s, ScreenResult.Continue).

Definition reload (s : MainScreenState) : io W MainScreenState :=
  let '(s, cmd) := reload_record_list_command s in
  let* _ := send_system_command cmd in io_ret s.

Definition reload_with_tags (s : MainScreenState) : io W MainScreenState :=
  let* _ := send_system_command Command.LoadTags in reload s.

Definition load_detail (id : Uuid) : io W () := send_system_command (Command.LoadRecordDetail id).

(** After the list was loaded anew the record that was selected is looked for. *)
Definition recover_selection (prev_selected_id : option Uuid) (s : MainScreenState)
  : MainScreenState :=
  let index :=
    prev_id ← prev_selected_id;
    Some (default 0 (fst <$> list_find (λ r, tr_id r = prev_id) (ls_records (ms_list s)))) in
  s <| ms_list ::= λ l, ListPanelState.adjust_scroll (l <| ls_selected_index := index |>) |>
    <| ms_list_auto_select := false |>.

(** A refresh that was put off until the list is loaded. *)
Definition refresh_detail (s : MainScreenState) : io W MainScreenState :=
  match ms_pending_detail_refresh s with
  | Some refresh_id =>
      let s := s <| ms_pending_detail_refresh := None |> in
      if bool_decide (refresh_id ∈ (tr_id <$> ls_records (ms_list s))) then
        let* _ := load_detail refresh_id in io_ret s
      else io_ret (clear_detail s)
  | None => io_ret s
  end.

Definition with_counts (total : nat) (counts : RecordCategoryCounts) (s : MainScreenState)
  : MainScreenState :=
  s <| ms_list ::= λ l, l <| ls_pending_load_offset := None |> <| ls_total_count := total |> |>
    <| ms_status_bar ::= λ b, b <| bar_record_count := total |> |>
    <| ms_sidebar ::= λ sb, SidebarState.rebuild (sb <| sb_category_counts :=
         mkCategoryCounts (rc_all counts) (rc_favorites counts) (rc_expired counts)
           (rc_health_issues counts) (rc_trash counts) |>) |>.

Definition on_record_list_loaded (records : list TuiRecord) (total : nat)
    (counts : RecordCategoryCounts) (s : MainScreenState) : io W Step :=
  let loaded_offset := default 0 (ls_pending_load_offset (ms_list s)) in
  let prev_selected_id := selected_id s in
  let s := with_counts total counts s in
  if 0 <? loaded_offset then
    let existing := tr_id <$> ls_records (ms_list s) in
    continue_ (s <| ms_list ::= λ l,
      l <| ls_records ::= λ rs, rs ++ filter (λ r, tr_id r ∉ existing) records |> |>)
  else
    let s := s <| ms_list ::= λ l, l <| ls_records := records |> |> in
    let* s :=
      match records with
      | [] =>
          io_ret (clear_detail
            (s <| ms_list ::= λ l, l <| ls_selected_index := None |> <| ls_scroll_offset := 0 |> |>
               <| ms_list_auto_select := false |>))
      | first :: _ =>
          if ms_list_auto_select s then
            let* _ := load_detail (tr_id first) in
            io_ret (s <| ms_list ::= λ l,
                           l <| ls_selected_index := Some 0 |> <| ls_scroll_offset := 0 |> |>
                      <| ms_list_auto_select := false |>)
          else
            let s := recover_selection prev_selected_id s in
            if bool_decide (selected_id s = prev_selected_id) then io_ret s
            else
              match selected_id s with
              | Some id => let* _ := load_detail id in io_ret s
              | None => io_ret (clear_detail s)
              end
      end in
    let* s := refresh_detail s in
    continue_ s.

(** *** Fields that were decrypted *)

(** Which field of the details a selector means. *)
Definition target_kind (field : FieldSelector.t) (type : CredentialType.t)
  : option DetailFieldKind.t :=
  match field, type with
  | FieldSelector.Username, (CredentialType.Login | CredentialType.Ssh) =>
      Some DetailFieldKind.Username
  | FieldSelector.Username, CredentialType.Api => Some DetailFieldKind.AppId
  | FieldSelector.Password, CredentialType.Login => Some DetailFieldKind.Password
  | FieldSelector.Password, CredentialType.Api => Some DetailFieldKind.SecretKey
  | FieldSelector.Password, CredentialType.Ssh => Some DetailFieldKind.PrivateKey
  | FieldSelector.Passphrase, _ => Some DetailFieldKind.Passphrase
  | _, _ => None
  end.

(** The first field of the kind that can be shown. *)
Fixpoint reveal (kind : DetailFieldKind.t) (value : string) (fields : list DetailField)
  : list DetailField :=
  match fields with
  | f :: fields =>
      if bool_decide (df_kind f = kind) && df_toggleable f
      then f <| df_value := FieldValue.Revealed value |> :: fields
      else f :: reveal kind value fields
  | [] => []
  end.

Definition reveal_field (id : Uuid) (field : FieldSelector.t) (value : string)
    (d : DetailPanelState) : DetailPanelState :=
  d <| dp_password_visible := true |>
    <| dp_record ::= fmap (λ r,
         if bool_decide (dv_id r = id) then
           match target_kind field (dv_credential_type r) with
           | Some kind => r <| dv_fields ::= reveal kind value |>
           | None => r
           end
         else r) |>.

Definition on_field_decrypted (id : Uuid) (field : FieldSelector.t) (value : string)
    (s : MainScreenState) : io W Step :=
  let s := s <| ms_detail ::= reveal_field id field value |> in
  match list_find (λ x, x.1 = id) (ms_pending_reveal_fields s) with
  | Some (pos, (_, next_field)) =>
      let s := s <| ms_pending_reveal_fields ::= delete pos |> in
      let* _ := send_system_command (Command.DecryptField id next_field) in
      continue_ s
  | None => continue_ s
  end.

(** *** Other results *)

Definition field_name (f : FieldSelector.t) : string :=
  translate match f with
            | FieldSelector.Password => "tui.field_selector.password"
            | FieldSelector.Username => "tui.field_selector.username"
            | FieldSelector.Url => "tui.field_selector.url"
            | FieldSelector.Notes => "tui.field_selector.notes"
            | FieldSelector.Passphrase => "tui.field_selector.passphrase"
            end.

Definition show_countdown (name : string) (clear_after_seconds : Z) (s : MainScreenState)
  : MainScreenState :=
  let seconds := wrap32 clear_after_seconds in
  s <| ms_status_bar ::= λ b,
         b <| bar_status_message := Some (StatusMessage.ClipboardCountdown name seconds) |>
           <| bar_clipboard_countdown := Some seconds |> |>.

Definition on_health_check_completed (report : HealthReport) (s : MainScreenState)
  : io W Step :=
  let weak := length (hp_weak_passwords report) in
  let compromised := length (hp_compromised report) in
  let duplicate_groups := length (hp_duplicate_passwords report) in
  let phase :=
    if (0 <? compromised) || (0 <? weak) || (0 <? duplicate_groups)
    then HealthCheckPhase.NeedsAttention weak compromised duplicate_groups
    else HealthCheckPhase.AllSecure in
  let s := s <| ms_status_bar ::= λ b, b <| bar_health_check_progress := None |>
                                         <| bar_health_check_phase := phase |> |> in
  let* s := reload s in
  let* _ := match selected_id s with Some id => load_detail id | None => io_ret tt end in
  continue_ s.

Definition on_favorite_toggled (id : Uuid) (is_favorite : bool) (s : MainScreenState)
  : MainScreenState :=
  let mark (l : ListPanelState) :=
    match list_find (λ r, tr_id r = id) (ls_records l) with
    | Some (i, r) => l <| ls_records ::= <[i := r <| tr_is_favorite := is_favorite |>]> |>
    | None => l
    end in
  let s := s <| ms_list ::= mark |>
             <| ms_detail ::= λ d, d <| dp_record ::= fmap (λ r,
                  if bool_decide (dv_id r = id) then r <| dv_is_favorite := is_favorite |>
                  else r) |> |> in
  if bool_decide (ms_current_filter s = RecordFilter.Favorites) && negb is_favorite then
    let s := without_record id s in
    s <| ms_list ::= λ l, l <| ls_selected_index :=
           match ls_records l with
           | [] => None
           | rs => Some (Nat.min (default 0 (ls_selected_index l)) (length rs - 1))
           end |> |>
  else s.

Definition on_detail_loaded (record : DecryptedRecord) (strength : option PasswordStrength)
    (issue : option HealthIssue.t) (s : MainScreenState) : io W Step :=
  let* time := now in
  let view := DetailPanelState.build_from_record time record strength in
  continue_ (s <| ms_pending_reveal_fields := [] |>
    <| ms_detail := (DetailPanelState.with_record view)
         <| dp_health_issue := issue |>
         <| dp_is_trash := bool_decide (ms_current_filter s = RecordFilter.Trash) |>
         <| dp_password_visible := false |> |>).

Definition history_entry (entry : PasswordHistoryView) : HistoryEntry :=
  mkHistoryEntry (pv_id entry) (pv_changed_at entry) (translate "tui.entry.password_label").

Definition on_history_loaded (history : list PasswordHistoryView) (s : MainScreenState)
  : io W Step :=
  match dp_record (ms_detail s) with
  | Some r =>
      let* opened :=
        OverlayManager.open (Overlay.PasswordHistory (dv_id r)) (ms_overlay_manager s) in
      let m := opened.1 in
      let active :=
        match om_active m with
        | Some (ActiveOverlay.PasswordHistory state) =>
            Some (ActiveOverlay.PasswordHistory
              (state <| hs_entries := history_entry <$> history |>
                     <| hs_record_name := dv_name r |>))
        | active => active
        end in
      continue_ (s <| ms_overlay_manager := mkOverlayManager active |>)
  | None => continue_ s
  end.

(** After tags were added to or removed from several records. *)
Definition on_batch_tagged (s : MainScreenState) : io W Step :=
  let panel_open := batch_tag_panel_open s in
  let s := if ListPanelState.is_visual (ms_list s) && negb panel_open
           then s <| ms_list ::= ListPanelState.exit_visual |> else s in
  let* s := reload_with_tags s in
  continue_ (if panel_open then s else clear_detail s).

Definition cleaned_up (s : MainScreenState) : MainScreenState :=
  let removed_ids := ListPanelState.visual_selected_ids (ms_list s) in
  clear_detail (s <| ms_list ::= ListPanelState.cleanup_after_batch removed_ids |>).

Definition on_removed (id : Uuid) (s : MainScreenState) : io W Step :=
  let* s := reload (without_record id (clear_detail_of id s)) in continue_ s.

Definition on_trash_emptied (s : MainScreenState) : io W Step :=
  let* s := reload (clear_detail (s <| ms_list ::= λ l,
    l <| ls_records := [] |> <| ls_selected_index := None |> <| ls_scroll_offset := 0 |> |>)) in
  continue_ s.

(** Everything secret goes with the lock. *)
Definition on_vault_locked (s : MainScreenState) : io W Step :=
  io_ret (clear_detail
    (s <| ms_pending_reveal_fields := [] |>
       <| ms_list ::= λ l, l <| ls_mode := ListMode.Normal |> <| ls_records := [] |>
                             <| ls_selected_index := None |> <| ls_scroll_offset := 0 |> |>
       <| ms_overlay_manager ::= OverlayManager.close |>
       <| ms_status_bar ::= λ b, b <| bar_record_count := 0 |> |>),
   ScreenResult.NavigateTo Screen.Unlock).

Definition on_result (r : CommandResult.t) (s : MainScreenState) : io W Step :=
  match r with
  | CommandResult.HealthCheckStarted =>
      continue_ (s <| ms_status_bar ::= λ b,
        b <| bar_health_check_progress := Some (0, 0) |>
          <| bar_health_check_phase := HealthCheckPhase.Checking |> |>)
  | CommandResult.HealthCheckCompleted report => on_health_check_completed report s
  | CommandResult.HealthCheckSkipped =>
      continue_ (s <| ms_status_bar ::= λ b,
        b <| bar_health_check_progress := None |>
          <| bar_health_check_phase := HealthCheckPhase.Skipped |> |>)
  | CommandResult.CopiedToClipboard field seconds =>
      continue_ (show_countdown (field_name field) seconds s)
  | CommandResult.HistoryPasswordCopied seconds =>
      continue_ (show_countdown (translate "tui.field_selector.history_password") seconds s)
  | CommandResult.RecordCreated _ =>
      let* s := reload (s <| ms_list_auto_select := true |>) in continue_ s
  | CommandResult.RecordUpdated id =>
      let was_showing_detail := shows_detail id s in
      let* s := reload s in
      continue_ (if was_showing_detail then s <| ms_pending_detail_refresh := Some id |> else s)
  | CommandResult.RecordListLoaded records total counts =>
      on_record_list_loaded records total counts s
  | CommandResult.RecordDeleted id =>
      let s := without_record id (clear_detail_of id s) in
      let* s := reload (s <| ms_list ::= ListPanelState.cleanup_after_batch [id] |>) in
      continue_ s
  | CommandResult.RecordRestored id => on_removed id s
  | CommandResult.RecordDestroyed id => on_removed id s
  | CommandResult.FavoriteToggled id is_favorite =>
      continue_ (on_favorite_toggled id is_favorite s)
  | CommandResult.RecordDetailLoaded record strength issue =>
      on_detail_loaded record strength issue s
  | CommandResult.FieldDecrypted id field value => on_field_decrypted id field value s
  | CommandResult.PasswordHistoryLoaded history => on_history_loaded history s
  | CommandResult.TagsLoaded tags tag_stats =>
      continue_ (s <| ms_sidebar ::= λ sb, SidebarState.sort_tags_by_current_order
        (sb <| sb_tags := tags |> <| sb_tag_metadata := tag_stats |>) |>)
  | CommandResult.TagRenamed _ _ | CommandResult.TagDeleted _ =>
      let* s := reload_with_tags s in continue_ s
  | CommandResult.BatchTagAdded _ | CommandResult.BatchTagRemoved _ => on_batch_tagged s
  | CommandResult.BatchDeleted _ | CommandResult.BatchRestored _ =>
      let* s := reload_with_tags (cleaned_up s) in continue_ s
  | CommandResult.BatchDestroyed _ => let* s := reload (cleaned_up s) in continue_ s
  | CommandResult.TrashEmptied _ => on_trash_emptied s
  | CommandResult.VaultLocked => on_vault_locked s
  | _ => continue_ s
  end.

(** [on_mount] *)
Definition on_mount (config : AppConfig) (s : MainScreenState) : io W MainScreenState :=
  let days := gc_trash_retention_days (ac_general config) in
  let s := s <| ms_trash_retention_days := days |>
             <| ms_password_defaults := generator_defaults (ac_password config) |>
             <| ms_detail ::= λ d, d <| dp_trash_retention_days := days |> |> in
  let s := if sc_health_check_enabled (ac_security config) then s
           else s <| ms_status_bar ::= λ b,
                       b <| bar_health_check_phase := HealthCheckPhase.Skipped |> |> in
  let* s := reload s in
  let* _ := send_system_command Command.LoadTags in
  io_ret s.

Definition show_overlay (config : AppConfig) (overlay : Overlay.t) (s : MainScreenState)
  : io W Step :=
  let* opened :=
    match overlay with
    | Overlay.PasswordGenerator =>
        OverlayManager.open_password_generator (generator_defaults (ac_password config))
          (ms_overlay_manager s)
    | _ => OverlayManager.open overlay (ms_overlay_manager s)
    end in
  continue_ (s <| ms_overlay_manager := opened.1 |>).

End results.

End MainScreenState.

(** * Keys and the mouse on the main screen (src/tui/state/main_state/state.rs,
    src/tui/screens/main/mod.rs, src/tui/screens/main/detail.rs)

    [handle_key] asks, in this order, the dialog that is open, the search, the global
    shortcuts of navigation, the panel with the focus, the other global shortcuts, and at
    last the keys of the panels of screens/main/mod.rs.  [update] is the whole screen. *)

Import MainScreenState.

(** [key.modifiers.is_empty()] *)
Definition unmodified (m : KeyModifiers) : bool :=
  negb (km_shift m || km_control m || km_alt m || km_super m || km_meta m).

Definition held_control (key : KeyEvent) : bool := km_control (ke_modifiers key).

Definition is_search_shortcut (key : KeyEvent) : bool :=
  is_key "k" (ke_code key)
  && (held_control key || km_super (ke_modifiers key) || km_meta (ke_modifiers key)).

Definition is_down (key : KeyCode.t) : bool := is_key "j" key || bool_decide (key = KeyCode.Down).
Definition is_up (key : KeyCode.t) : bool := is_key "k" key || bool_decide (key = KeyCode.Up).

(** [detail_field_kind_to_selector] *)
Definition detail_field_kind_to_selector (kind : DetailFieldKind.t) : FieldSelector.t :=
  match kind with
  | DetailFieldKind.Username | DetailFieldKind.AppId | DetailFieldKind.PublicKey =>
      FieldSelector.Username
  | DetailFieldKind.Password | DetailFieldKind.SecretKey | DetailFieldKind.PrivateKey =>
      FieldSelector.Password
  | DetailFieldKind.Passphrase => FieldSelector.Passphrase
  | DetailFieldKind.Url => FieldSelector.Url
  | DetailFieldKind.Notes => FieldSelector.Notes
  end.

(** [rotate_left] *)
Definition rotate_left {A} (n : nat) (l : list A) : list A := drop n l ++ take n l.

(** The fields to reveal, from the focused one on if it is one of them. *)
Definition reveal_field_selectors (d : DetailPanelState) : list FieldSelector.t :=
  let ordered :=
    (λ x, (x.1, detail_field_kind_to_selector (df_kind x.2))) <$>
      filter (λ x, df_toggleable x.2 = true) (imap pair (DetailPanelState.fields d)) in
  let current_pos := fst <$> list_find (λ x, x.1 = dp_focused_field d) ordered in
  snd <$> rotate_left (default 0 current_pos) ordered.

Section keys.
Context {W : Type} `{CommandQueue W} `{Rng W} `{System W} `{Translations} `{Lowercase}.

Definition command_ (c : Command.t) (s : MainScreenState) : io W Step :=
  io_ret (s, ScreenResult.Command c).

Definition navigate (screen : Screen.t) (s : MainScreenState) : io W Step :=
  io_ret (s, ScreenResult.NavigateTo screen).

(** The details of a record, or nothing. *)
Definition detail_or_continue (id : option Uuid) (s : MainScreenState) : io W Step :=
  match id with
  | Some id => command_ (Command.LoadRecordDetail id) s
  | None => continue_ s
  end.

Definition detail_or_clear (id : option Uuid) (s : MainScreenState) : io W Step :=
  match id with
  | Some id => command_ (Command.LoadRecordDetail id) s
  | None => continue_ (clear_detail s)
  end.

Definition on_list (f : ListPanelState → ListPanelState) (s : MainScreenState) : MainScreenState :=
  s <| ms_list ::= f |>.
Definition on_sidebar (f : SidebarState → SidebarState) (s : MainScreenState)
  : MainScreenState := s <| ms_sidebar ::= f |>.
Definition on_detail (f : DetailPanelState → DetailPanelState) (s : MainScreenState)
  : MainScreenState := s <| ms_detail ::= f |>.

(** A dialog that a key opens appears with an animation. *)
Definition appear (s : MainScreenState) : MainScreenState :=
  s <| ms_pending_animation := Some EffectKind.ModalAppear |>.

Definition open_overlay (overlay : Overlay.t) (s : MainScreenState) : io W Step :=
  let* opened := OverlayManager.open overlay (ms_overlay_manager s) in
  continue_ (appear (s <| ms_overlay_manager := opened.1 |>)).

Definition open_generator (s : MainScreenState) : io W Step :=
  let* opened :=
    OverlayManager.open_password_generator (ms_password_defaults s) (ms_overlay_manager s) in
  continue_ (appear (s <| ms_overlay_manager := opened.1 |>)).

Definition confirm_dialog (variant : ConfirmVariant.t) (button : ConfirmButton.t) : Overlay.t :=
  Overlay.ConfirmDialog (mkConfirmDialogState variant button).

(** ** The dialog that is open *)

Definition dismissed (s : MainScreenState) : MainScreenState :=
  s <| ms_overlay_manager ::= OverlayManager.close |>
    <| ms_pending_animation := Some EffectKind.ModalDismiss |>.

Definition confirmed_action (variant : ConfirmVariant.t) : ScreenResult.t :=
  match variant with
  | ConfirmVariant.SoftDelete record_id _ _ =>
      ScreenResult.Command (Command.SoftDeleteRecord record_id)
  | ConfirmVariant.Restore record_id _ => ScreenResult.Command (Command.RestoreRecord record_id)
  | ConfirmVariant.HardDelete record_id _ =>
      ScreenResult.Command (Command.HardDeleteRecord record_id)
  | ConfirmVariant.BatchSoftDelete record_ids _ =>
      ScreenResult.Command (Command.BatchSoftDelete record_ids)
  | ConfirmVariant.BatchRestore record_ids _ =>
      ScreenResult.Command (Command.BatchRestore record_ids)
  | ConfirmVariant.BatchHardDelete record_ids _ =>
      ScreenResult.Command (Command.BatchHardDelete record_ids)
  | ConfirmVariant.EmptyTrash _ => ScreenResult.Command Command.EmptyTrash
  | ConfirmVariant.TagDelete tag_name _ => ScreenResult.Command (Command.DeleteTag tag_name)
  | ConfirmVariant.QuitApp => ScreenResult.ExitApp
  end.

Definition handle_overlay_result (result : OverlayKeyResult.t) (s : MainScreenState) : Step :=
  match result with
  | OverlayKeyResult.Consumed | OverlayKeyResult.None => (s, ScreenResult.Continue)
  | OverlayKeyResult.Close _ | OverlayKeyResult.ErrorRetry | OverlayKeyResult.ErrorQuit =>
      (dismissed s, ScreenResult.Continue)
  | OverlayKeyResult.CopyGeneratedPassword password =>
      (dismissed s, ScreenResult.Command (Command.CopyRawToClipboard password))
  | OverlayKeyResult.CopyHistoryPassword history_id =>
      (dismissed s, ScreenResult.Command (Command.CopyHistoryPassword history_id))
  | OverlayKeyResult.ConfirmAction variant => (dismissed s, confirmed_action variant)
  | OverlayKeyResult.BatchAddTag record_ids tag_name =>
      (s, ScreenResult.Command (Command.BatchAddTag record_ids tag_name))
  | OverlayKeyResult.BatchRemoveTag record_ids tag_name =>
      (s, ScreenResult.Command (Command.BatchRemoveTag record_ids tag_name))
  end.

Definition overlay_key (key : KeyCode.t) (s : MainScreenState) : io W Step :=
  let* r := OverlayManager.handle_key key (ms_overlay_manager s) in
  io_ret (handle_overlay_result r.2 (s <| ms_overlay_manager := r.1 |>)).

(** ** The search, which takes every key *)

Definition search_query (s : MainScreenState) : string :=
  match ls_mode (ms_list s) with ListMode.Search state => sh_query state | _ => "" end.

Definition search_for (query : string) (s : MainScreenState) : io W Step :=
  let '(l, id) := ListPanelState.apply_search_filter_to_records
                    (ListPanelState.update_search_query query (ms_list s)) in
  detail_or_clear id (s <| ms_list := l |>).

Definition search_key (key : KeyEvent) (s : MainScreenState) : io W Step :=
  let m := ke_modifiers key in
  match ke_code key with
  | KeyCode.Enter => detail_or_continue (selected_id s) (on_list ListPanelState.commit_search s)
  | KeyCode.Esc =>
      let '(l, id) := ListPanelState.cancel_search_restore (ms_list s) in
      detail_or_continue id (s <| ms_list := l |>)
  | KeyCode.Backspace => search_for (pop (search_query s)) s
  | KeyCode.Char c =>
      if km_control m || km_alt m || km_super m || km_meta m then continue_ s
      else search_for (push (search_query s) c) s
  | KeyCode.Down =>
      let s := on_list ListPanelState.move_down s in detail_or_clear (selected_id s) s
  | KeyCode.Up =>
      let s := on_list ListPanelState.move_up s in detail_or_clear (selected_id s) s
  | _ => continue_ s
  end.

(** ** Navigation *)

(** Another filter shows another list, from its first record on. *)
Definition set_filter (filter : RecordFilter.t) (s : MainScreenState) : io W Step :=
  let '(s, cmd) := reload_record_list_command
    (clear_detail (s <| ms_current_filter := filter |>) <| ms_list_auto_select := true |>) in
  command_ cmd s.

Definition focus_left (p : PanelId.t) : PanelId.t :=
  match p with
  | PanelId.Sidebar | PanelId.List => PanelId.Sidebar
  | PanelId.Detail => PanelId.List
  end.

Definition category_key (c : Z) : option SidebarCategory.t :=
  if (c =? ch "1")%Z then Some SidebarCategory.All
  else if (c =? ch "2")%Z then Some SidebarCategory.Favorites
  else if (c =? ch "3")%Z then Some SidebarCategory.Expired
  else if (c =? ch "4")%Z then Some SidebarCategory.HealthIssues
  else if (c =? ch "5")%Z then Some SidebarCategory.Trash
  else None.

Definition is_renaming (s : MainScreenState) : bool :=
  sb_tag_management_mode (ms_sidebar s)
  && TagManagementState.is_renaming (sb_tag_management (ms_sidebar s)).

Definition focus (p : PanelId.t) (s : MainScreenState) : MainScreenState :=
  s <| ms_focused_panel := p |>.

Definition navigate_left (s : MainScreenState) : io W Step :=
  if bool_decide (ms_focused_panel s = PanelId.Detail)
     && bool_decide (is_Some (dp_focused_action (ms_detail s)))
  then continue_ (on_detail (λ d, (DetailPanelState.move_action_left d).1) s)
  else continue_ (focus (focus_left (ms_focused_panel s)) s).

Definition navigate_right (s : MainScreenState) : io W Step :=
  match ms_focused_panel s with
  | PanelId.Detail =>
      if bool_decide (is_Some (dp_focused_action (ms_detail s)))
      then continue_ (on_detail (λ d, (DetailPanelState.move_action_right d).1) s)
      else continue_ (on_detail (λ d, (DetailPanelState.focus_first_action d).1) s)
  | PanelId.Sidebar =>
      let s := focus PanelId.List s in
      if bool_decide (ls_selected_index (ms_list s) = None)
         && negb (bool_decide (ls_records (ms_list s) = []))
      then
        let s := on_list (λ l,
          ListPanelState.adjust_scroll (l <| ls_selected_index := Some 0 |>)) s in
        detail_or_continue (selected_id s) s
      else continue_ s
  | PanelId.List => continue_ (focus PanelId.Detail s)
  end.

(** [None] where the key is not one of navigation. *)
Definition handle_global_navigation_key (key : KeyEvent) (s : MainScreenState)
  : option (io W Step) :=
  if is_renaming s then None
  else if negb (unmodified (ke_modifiers key)) then None
  else
    match ke_code key with
    | KeyCode.Left => Some (navigate_left s)
    | KeyCode.Right => Some (navigate_right s)
    | KeyCode.Char c =>
        if (c =? ch "0")%Z then
          Some (continue_ (on_sidebar SidebarState.select_tag_header (focus PanelId.Sidebar s)))
        else if (c =? ch "6")%Z then Some (open_generator s)
        else if (c =? ch "7")%Z then Some (navigate Screen.Config s)
        else
          category ← category_key c;
          let s := on_sidebar (SidebarState.select_category category)
                     (focus PanelId.Sidebar s) in
          let filter := SidebarCategory.to_filter category in
          Some (if bool_decide (filter = ms_current_filter s) then continue_ s
                else set_filter filter s)
    | _ => None
    end.

(** ** The panel with the focus *)

Definition ensure_sidebar_selection_visible (s : MainScreenState) : MainScreenState :=
  let layout := calculate_layout (ms_terminal_area s) (re_width (ms_terminal_area s)) in
  let visible :=
    SidebarState.nav_visible_items_for_height (ms_sidebar s) (re_height (la_sidebar layout)) in
  on_sidebar (SidebarState.ensure_selected_visible visible) s.

Definition leave_visual (s : MainScreenState) : MainScreenState :=
  if ListPanelState.is_visual (ms_list s) then on_list ListPanelState.exit_visual s else s.

(** A move of the selection in the sidebar, which may change the filter. *)
Definition sidebar_move (move : SidebarState → SidebarState) (s : MainScreenState) : io W Step :=
  let old_filter := SidebarState.current_filter (ms_sidebar s) in
  let s := leave_visual (ensure_sidebar_selection_visible (on_sidebar move s)) in
  let new_filter := SidebarState.current_filter (ms_sidebar s) in
  if bool_decide (new_filter = old_filter) then continue_ s else set_filter new_filter s.

Definition sidebar_key (key : KeyCode.t) (s : MainScreenState) : option (io W Step) :=
  if is_renaming s then None
  else if is_down key then Some (sidebar_move SidebarState.move_down s)
  else if is_up key then Some (sidebar_move SidebarState.move_up s)
  else None.

Definition list_key (key : KeyCode.t) (s : MainScreenState) : option (io W Step) :=
  if ListPanelState.is_searching (ms_list s) || ListPanelState.is_visual (ms_list s) then None
  else if is_down key then
    let s := on_list ListPanelState.move_down s in
    Some match maybe_load_more_records_command s with
         | Some (s, cmd) => command_ cmd s
         | None => detail_or_continue (selected_id s) s
         end
  else if is_up key then
    let s := on_list ListPanelState.move_up s in Some (detail_or_continue (selected_id s) s)
  else None.

Definition execute_detail_action (id : Uuid) (action : DetailActionFocus) (s : MainScreenState)
  : io W Step :=
  match DetailPanelState.fields (ms_detail s) !! fo_field_index action with
  | None => continue_ s
  | Some field =>
      let selector := detail_field_kind_to_selector (df_kind field) in
      match fo_kind action with
      | DetailActionKind.Copy => command_ (Command.CopyToClipboard id selector) s
      | DetailActionKind.ToggleSecret =>
          if df_toggleable field then
            let '(d, needs_decrypt) := DetailPanelState.toggle_password (ms_detail s) in
            let s := s <| ms_detail := d |> in
            if needs_decrypt then command_ (Command.DecryptField id selector) s else continue_ s
          else continue_ s
      end
  end.

(** The key p in the details: the first field is decrypted now, the others one by one when
    the one before them was. *)
Definition toggle_all (id : Uuid) (s : MainScreenState) : io W Step :=
  match reveal_field_selectors (ms_detail s) with
  | [] => continue_ s
  | selector :: remaining =>
      let '(d, needs_decrypt) := DetailPanelState.toggle_password (ms_detail s) in
      let s := s <| ms_detail := d |> in
      if needs_decrypt then
        command_ (Command.DecryptField id selector)
          (s <| ms_pending_reveal_fields := (λ field, (id, field)) <$> remaining |>)
      else continue_ (s <| ms_pending_reveal_fields := [] |>)
  end.

Definition copy_field (id : Uuid) (field : option DetailField) (s : MainScreenState)
  : io W Step :=
  match field with
  | Some field =>
      command_ (Command.CopyToClipboard id (detail_field_kind_to_selector (df_kind field))) s
  | None => continue_ s
  end.

(** A step of the focus in the details.  The focus is never behind the fields, where the
    code would panic ([run_focus_field] and [in_range_up] of [DetailPanel]). *)
Definition field_up (d : DetailPanelState) : DetailPanelState :=
  match DetailPanelState.move_field_up d with Some (d, _) => d | None => d end.

Definition detail_key (key : KeyCode.t) (s : MainScreenState) : option (io W Step) :=
  record ← dp_record (ms_detail s);
  let id := dv_id record in
  let on_action := bool_decide (is_Some (dp_focused_action (ms_detail s))) in
  match key, dp_focused_action (ms_detail s) with
  | KeyCode.Enter, Some action => Some (execute_detail_action id action s)
  | KeyCode.Enter, None =>
      Some (copy_field id (DetailPanelState.current_field (ms_detail s)) s)
  | _, _ =>
      if is_key "p" key then Some (toggle_all id s)
      else if is_key "c" key then
        Some (copy_field id (DetailPanelState.password_field (ms_detail s)) s)
      else if is_key "u" key then
        Some (copy_field id (DetailPanelState.username_field (ms_detail s)) s)
      else if is_key "f" key then
        Some (command_ (Command.ToggleFavorite id (negb (dv_is_favorite record))) s)
      else if is_key "d" key then
        Some (open_overlay (confirm_dialog (ConfirmVariant.SoftDelete id (dv_name record) None)
                              ConfirmButton.Cancel) s)
      else if is_key "H" key then Some (command_ (Command.LoadPasswordHistory id) s)
      else if is_up key then
        Some (continue_ (on_detail (λ d,
          if on_action then (DetailPanelState.move_action_up d).1 else field_up d) s))
      else if is_down key then
        Some (continue_ (on_detail (λ d,
          if on_action then (DetailPanelState.move_action_down d).1
          else (DetailPanelState.move_field_down d).1) s))
      else None
  end.

End keys.

(** ** The keys of the panels (screens/main/mod.rs)

    The messages that the result also carries are dropped by the caller, and left out. *)

Record MainKeyResult : Type := mkMainKeyResult {
  mk_overlay : option Overlay.t;
  mk_command : option Command.t;
  mk_focused_panel : option PanelId.t;
}.

Module MainScreen.
Section s.
Context `{Lowercase}.

Definition nothing : MainKeyResult := mkMainKeyResult None None None.
Definition opens (o : Overlay.t) : MainKeyResult := mkMainKeyResult (Some o) None None.
Definition sends (c : Command.t) : MainKeyResult := mkMainKeyResult None (Some c) None.

Definition opens_if (o : option Overlay.t) : MainKeyResult := mkMainKeyResult o None None.
Definition sends_if (c : option Command.t) : MainKeyResult := mkMainKeyResult None c None.

Definition Routed : Type := MainScreenState * MainKeyResult.

(** *** The box in which a tag is renamed *)

Definition on_box (f : InlineEditState → InlineEditState) (s : MainScreenState)
  : MainScreenState :=
  on_sidebar (λ sb, sb <| sb_tag_management ::= λ m, m <| tg_inline_edit ::= fmap f |> |>) s.

Definition confirm_rename (s : MainScreenState) : Routed :=
  let existing_tags := Tags.tag_name <$> sb_tags (ms_sidebar s) in
  let s := on_box (InlineEditState.check_conflict existing_tags) s in
  match tg_inline_edit (sb_tag_management (ms_sidebar s)) with
  | Some edit =>
      if negb (ie_conflict edit) && negb (bool_decide (trim (ie_text edit) = "")) then
        (on_sidebar (λ sb, sb <| sb_tag_management ::= TagManagementState.cancel_rename |>) s,
         sends (Command.RenameTag (ie_original_name edit) (InlineEditState.confirm edit)))
      else (s, nothing)
  | None => (s, nothing)
  end.

Definition rename_key (key : KeyCode.t) (s : MainScreenState) : Routed :=
  match key with
  | KeyCode.Char c => (on_box (InlineEditState.insert_char c) s, nothing)
  | KeyCode.Backspace => (on_box InlineEditState.backspace s, nothing)
  | KeyCode.Left => (on_box InlineEditState.cursor_left s, nothing)
  | KeyCode.Right => (on_box InlineEditState.cursor_right s, nothing)
  | KeyCode.Enter => confirm_rename s
  | KeyCode.Esc =>
      (on_sidebar (λ sb, sb <| sb_tag_management ::= TagManagementState.cancel_rename |>) s,
       nothing)
  | _ => (s, nothing)
  end.

(** *** The list *)

(** The identifiers of the selection of several records, if there are any, and the names. *)
Definition visual_dialog (variant : list Uuid → list string → ConfirmVariant.t)
    (button : ConfirmButton.t) (s : MainScreenState) : option Overlay.t :=
  match ListPanelState.visual_selected_ids (ms_list s) with
  | [] => None
  | ids =>
      let names := tr_name <$> filter (λ r, tr_id r ∈ ids) (ls_records (ms_list s)) in
      Some (confirm_dialog (variant ids names) button)
  end.

Definition record_dialog (variant : Uuid → string → ConfirmVariant.t) (s : MainScreenState)
  : option Overlay.t :=
  record ← ListPanelState.selected_record (ms_list s);
  Some (confirm_dialog (variant (tr_id record) (tr_name record)) ConfirmButton.Cancel).

Definition selected_detail (s : MainScreenState) : option Command.t :=
  Command.LoadRecordDetail <$> selected_id s.

Definition handle_trash_keys (key : KeyCode.t) (s : MainScreenState) : Routed :=
  let visual := ListPanelState.is_visual (ms_list s) in
  if is_key "r" key then
    (s, opens_if
      (if visual then visual_dialog ConfirmVariant.BatchRestore ConfirmButton.Confirm s
       else record_dialog ConfirmVariant.Restore s))
  else if is_key "D" key then
    (s, opens_if
      (if visual then visual_dialog ConfirmVariant.BatchHardDelete ConfirmButton.Cancel s
       else record_dialog ConfirmVariant.HardDelete s))
  else if is_key "a" key then
    let count := length (ls_records (ms_list s)) in
    (s, if 0 <? count
        then opens (confirm_dialog (ConfirmVariant.EmptyTrash count) ConfirmButton.Cancel)
        else nothing)
  else if is_down key then
    let s := on_list ListPanelState.move_down s in (s, sends_if (selected_detail s))
  else if is_up key then
    let s := on_list ListPanelState.move_up s in (s, sends_if (selected_detail s))
  else (s, nothing).

(** A [BTreeSet] of texts, as a list. *)
Definition sorted_set (l : list string) : list string := merge_sort text_le (remove_dups l).

Definition batch_tag_panel_state (record_ids : list Uuid) (s : MainScreenState)
  : BatchTagPanelState :=
  let selected_records := filter (λ r, tr_id r ∈ record_ids) (ls_records (ms_list s)) in
  let current_tags := sorted_set (selected_records ≫= tr_tags) in
  let available_tags :=
    sorted_set (filter (λ tag, tag ∉ current_tags) (Tags.tag_name <$> sb_tags (ms_sidebar s))) in
  let current_tag :=
    match ms_current_filter s with RecordFilter.Tag name => name | _ => "" end in
  mkBatchTagPanelState record_ids (tr_name <$> selected_records) current_tag current_tags
    available_tags.

Definition batch_tag_dialog (s : MainScreenState) : option Overlay.t :=
  match ListPanelState.visual_selected_ids (ms_list s) with
  | [] => None
  | ids => Some (Overlay.BatchTagPanel (batch_tag_panel_state ids s))
  end.

(** Both sort keys send the order on, with the list from its start. *)
Definition resorted (s : MainScreenState) : Routed :=
  let '(s, cmd) := reload_record_list_command s in (s, sends cmd).

Definition sort_direction (s : MainScreenState) : MainScreenState :=
  let s := on_list ListPanelState.toggle_sort_direction s in
  s <| ms_current_sort ::= λ o, mkRecordSort (so_field o) (so_direction (ls_sort (ms_list s))) |>.

Definition sort_field (s : MainScreenState) : MainScreenState :=
  let s := on_list ListPanelState.cycle_sort_field s in
  s <| ms_current_sort ::= λ o, mkRecordSort (so_field (ls_sort (ms_list s))) (so_direction o) |>.

(** The keys of records that are not in the trash. *)
Definition record_key (event : KeyEvent) (s : MainScreenState) : Routed :=
  let key := ke_code event in
  let visual := ListPanelState.is_visual (ms_list s) in
  let normal := negb visual && negb (ListPanelState.is_searching (ms_list s)) in
  let selected := ListPanelState.selected_record (ms_list s) in
  if is_key "d" key && visual then
    (s, opens_if (visual_dialog ConfirmVariant.BatchSoftDelete ConfirmButton.Confirm s))
  else if is_key "t" key && visual then (s, opens_if (batch_tag_dialog s))
  else if is_search_shortcut event && normal then (on_list ListPanelState.enter_search s, nothing)
  else if bool_decide (key = KeyCode.Enter) && normal then
    let s := focus PanelId.Detail s in
    (s, mkMainKeyResult None (selected_detail s) (Some PanelId.Detail))
  else if is_key "d" key && normal then
    (s, opens_if (record_dialog (λ id name,
      ConfirmVariant.SoftDelete id name (Some (ms_trash_retention_days s))) s))
  else if is_key "f" key && normal then
    (s, sends_if ((λ r, Command.ToggleFavorite (tr_id r) (negb (tr_is_favorite r))) <$> selected))
  else if is_key "c" key && normal then
    (s, sends_if ((λ r, Command.CopyToClipboard (tr_id r) FieldSelector.Password) <$> selected))
  else if is_key "u" key && normal then
    (s, sends_if ((λ r, Command.CopyToClipboard (tr_id r) FieldSelector.Username) <$> selected))
  else if is_down key then (on_list ListPanelState.move_down s, nothing)
  else if is_up key then (on_list ListPanelState.move_up s, nothing)
  else if is_key "s" key && normal then resorted (sort_direction s)
  else if is_key "S" key && normal then resorted (sort_field s)
  else (s, nothing).

Definition list_escape (s : MainScreenState) : Routed :=
  if ListPanelState.is_visual (ms_list s) then (on_list ListPanelState.exit_visual s, nothing)
  else if ListPanelState.is_searching (ms_list s) then
    (on_list (λ l, (ListPanelState.cancel_search_restore l).1) s, nothing)
  else
    let '(l, id) := ListPanelState.restore_committed_search (ms_list s) in
    (s <| ms_list := l |>, sends_if (Command.LoadRecordDetail <$> id)).

Definition list_panel_key (event : KeyEvent) (s : MainScreenState) : Routed :=
  let key := ke_code event in
  let visual := ListPanelState.is_visual (ms_list s) in
  if is_key "v" key then
    (if visual then on_list ListPanelState.exit_visual s
     else if ListPanelState.is_searching (ms_list s) then s
     else on_list ListPanelState.enter_visual s, nothing)
  else if bool_decide (key = KeyCode.Esc) then list_escape s
  else if visual && is_key " " key then (on_list ListPanelState.toggle_select_current s, nothing)
  else if visual && is_key "a" key then
    (if length (ListPanelState.visual_selected_ids (ms_list s)) =? length (ls_records (ms_list s))
     then on_list ListPanelState.deselect_all s
     else on_list ListPanelState.select_all s, nothing)
  else if bool_decide (ms_current_filter s = RecordFilter.Trash) then handle_trash_keys key s
  else record_key event s.

(** *** The sidebar and the details *)

Definition sidebar_panel_key (key : KeyCode.t) (s : MainScreenState) : Routed :=
  let sb := ms_sidebar s in
  let item := SidebarState.item sb (sb_selected_index sb) in
  let managing := sb_tag_management_mode sb in
  let on_header := bool_decide (item = Some SidebarItem.TagHeader) in
  let on_tag := from_option SidebarItem.is_tag false item in
  if bool_decide (key = KeyCode.Enter) then
    (if on_header then on_sidebar SidebarState.toggle_tags s else s, nothing)
  else if is_key "m" key then
    (if managing then on_sidebar SidebarState.exit_tag_management s
     else if (on_tag || on_header) && sb_tags_expanded sb
     then on_sidebar SidebarState.enter_tag_management s else s, nothing)
  else if is_key "r" key && managing then
    (match SidebarState.selected_tag_name sb with
     | Some name =>
         on_sidebar (λ sb, sb <| sb_tag_management ::= TagManagementState.start_rename name |>) s
     | None => s
     end, nothing)
  else if is_key "d" key && managing then
    (s, opens_if (name ← SidebarState.selected_tag_name sb;
      let affected_count := length (filter (λ r, name ∈ tr_tags r) (ls_records (ms_list s))) in
      Some (confirm_dialog (ConfirmVariant.TagDelete name affected_count) ConfirmButton.Cancel)))
  else if is_key "s" key && managing then
    (on_sidebar (λ sb, SidebarState.sort_tags_by_current_order
      (sb <| sb_tag_management ::= λ m, m <| tg_sort_order ::= TagSortOrder.cycle |> |>)) s,
     nothing)
  else if bool_decide (key = KeyCode.Esc) && managing then
    (on_sidebar SidebarState.exit_tag_management s, nothing)
  else (s, nothing).

Definition detail_panel_key (key : KeyCode.t) (s : MainScreenState) : Routed :=
  if bool_decide (key = KeyCode.Esc) && ListPanelState.is_visual (ms_list s) then
    (focus PanelId.List (on_list ListPanelState.exit_visual s),
     mkMainKeyResult None None (Some PanelId.List))
  else if (is_key "r" key || is_key "D" key || is_key "a" key)
          && bool_decide (ms_current_filter s = RecordFilter.Trash)
  then handle_trash_keys key s
  else (s, nothing).

Definition handle_key_event (key : KeyEvent) (s : MainScreenState) (focused_panel : PanelId.t)
  : Routed :=
  if bool_decide (ke_code key = KeyCode.F 1) then (s, opens Overlay.Help)
  else if is_renaming s then rename_key (ke_code key) s
  else
    match focused_panel with
    | PanelId.List => list_panel_key key s
    | PanelId.Sidebar => sidebar_panel_key (ke_code key) s
    | PanelId.Detail => detail_panel_key (ke_code key) s
    end.

End s.
End MainScreen.

(** ** All keys *)

Section all_keys.
Context {W : Type} `{CommandQueue W} `{Rng W} `{System W} `{Translations} `{Lowercase}.

Definition edit_selected (s : MainScreenState) : io W Step :=
  let edit (id : option Uuid) :=
    match id with Some id => navigate (Screen.EditRecord id) s | None => continue_ s end in
  match ms_focused_panel s with
  | PanelId.Detail => edit (dv_id <$> dp_record (ms_detail s))
  | PanelId.List => edit (selected_id s)
  | PanelId.Sidebar => continue_ s
  end.

(** Layer 3: what the panel's keys ask for. *)
Definition panel_routing (key : KeyEvent) (s : MainScreenState) : io W Step :=
  let '(s, result) := MainScreen.handle_key_event key s (ms_focused_panel s) in
  let* s :=
    match mk_overlay result with
    | Some overlay => let* r := open_overlay overlay s in io_ret r.1
    | None => io_ret s
    end in
  match mk_command result with
  | Some cmd => command_ cmd s
  | None =>
      continue_ (match mk_focused_panel result with Some panel => focus panel s | None => s end)
  end.

(** Layer 2. *)
Definition global_key (event : KeyEvent) (s : MainScreenState) : io W Step :=
  let key := ke_code event in
  let control := held_control event in
  let in_trash := bool_decide (ms_current_filter s = RecordFilter.Trash) in
  if is_key "g" key && control then open_generator s
  else if is_key "p" key && control then navigate Screen.Config s
  else if is_key "g" key then navigate Screen.Config s
  else if is_key "l" key then navigate Screen.AuditLog s
  else if bool_decide (key = KeyCode.F 1) then open_overlay Overlay.Help s
  else if is_key "q" key && unmodified (ke_modifiers event) then
    open_overlay (confirm_dialog ConfirmVariant.QuitApp ConfirmButton.Cancel) s
  else if is_key "?" key then open_overlay Overlay.Help s
  else if is_key "p" key then open_generator s
  else if is_key "r" key && control then command_ Command.TriggerSync s
  else if is_key "n" key && negb in_trash then navigate Screen.CreateRecord s
  else if is_key "e" key && negb in_trash then edit_selected s
  else panel_routing event s.

(** The shortcuts that sidebar entries have by Enter. *)
Definition sidebar_enter (key : KeyCode.t) (s : MainScreenState) : option (io W Step) :=
  if bool_decide (key = KeyCode.Enter) then
    match SidebarState.item (ms_sidebar s) (sb_selected_index (ms_sidebar s)) with
    | Some SidebarItem.Generator => Some (open_generator s)
    | Some SidebarItem.Config => Some (navigate Screen.Config s)
    | _ => None
    end
  else None.

Definition panel_key (key : KeyCode.t) (s : MainScreenState) : option (io W Step) :=
  match ms_focused_panel s with
  | PanelId.Sidebar => sidebar_key key s
  | PanelId.List => list_key key s
  | PanelId.Detail => detail_key key s
  end.

Definition or_else {A} (o : option A) (a : A) : A := default a o.

Definition handle_key (key : KeyEvent) (s : MainScreenState) : io W Step :=
  let searching := ListPanelState.is_searching (ms_list s) in
  let on p := bool_decide (ms_focused_panel s = p) in
  if OverlayManager.is_active (ms_overlay_manager s) then overlay_key (ke_code key) s
  else if on PanelId.List && searching then search_key key s
  else if is_search_shortcut key && negb searching && negb (ListPanelState.is_visual (ms_list s))
  then continue_ (on_list ListPanelState.enter_search (focus PanelId.List s))
  else
    or_else (if on PanelId.Sidebar then sidebar_enter (ke_code key) s else None)
      (or_else (handle_global_navigation_key key s)
        (or_else (panel_key (ke_code key) s) (global_key key s))).

End all_keys.

(** ** The mouse *)

Definition contains_rect (r : Rect) (column row : Z) : bool :=
  ((re_x r <=? column) && (column <? saturating_add (re_x r) (re_width r))
   && (re_y r <=? row) && (row <? saturating_add (re_y r) (re_height r)))%Z.

(** The list draws from this record on ([rendered_list_offset]). *)
Definition rendered_list_offset (l : ListPanelState) (list_rect : Rect) : nat :=
  let body_height := saturating_sub (re_height list_rect) 2 in
  let visible := Z.to_nat (Z.max (body_height / item_height (re_width list_rect)) 1) in
  Nat.min (ls_scroll_offset l) (length (ls_records l) - visible).

(** *** The buttons of the details (screens/main/detail.rs) *)

Record TableColumns : Set := mkTableColumns { tc_label : Z; tc_value : Z; tc_action : Z }.

Definition table_columns (width : Z) : option TableColumns :=
  if (width <? 42)%Z then None
  else
    let label := if (82 <=? width)%Z then 18%Z else if (52 <=? width)%Z then 14%Z else 12%Z in
    let action := if (80 <=? width)%Z then 26%Z else if (60 <=? width)%Z then 22%Z else 14%Z in
    let value := saturating_sub width (label + action + 10) in
    if (8 <=? value)%Z then Some (mkTableColumns label value action) else None.

(** [Block::inner] with all borders, then [Rect::inner] with a margin. *)
Definition inset (horizontal vertical : Z) (r : Rect) : Rect :=
  mkRect (re_x r + horizontal) (re_y r + vertical) (saturating_sub (re_width r) (2 * horizontal))
    (saturating_sub (re_height r) (2 * vertical)).

Definition action_hit_for_field (inner : Rect) (cols : TableColumns) (field_idx : nat)
    (field : DetailField) (column : Z) : option DetailActionFocus :=
  if negb (df_copyable field) && negb (df_toggleable field) then None
  else
    let action_start := (re_x inner + (tc_label cols + tc_value cols + 8))%Z in
    let action_end := (action_start + tc_action cols)%Z in
    if (column <? action_start)%Z || (action_end <=? column)%Z then None
    else
      let toggles :=
        df_toggleable field
        && (negb (df_copyable field) || (column <? action_start + tc_action cols / 2)%Z) in
      Some (mkDetailActionFocus field_idx
              (if toggles then DetailActionKind.ToggleSecret else DetailActionKind.Copy)).

(** The rows of the fields from [current_y] on; a strength has rows of its own. *)
Fixpoint action_at (inner : Rect) (cols : TableColumns) (rated : bool) (column row : Z)
    (current_y : Z) (fields : list (nat * DetailField)) : option DetailActionFocus :=
  match fields with
  | [] => None
  | (field_idx, field) :: fields =>
      if bool_decide (df_kind field = DetailFieldKind.Notes)
      then action_at inner cols rated column row current_y fields
      else if (row =? current_y)%Z then action_hit_for_field inner cols field_idx field column
      else
        let next := saturating_add current_y 2 in
        action_at inner cols rated column row
          (if is_secret (df_kind field) && rated then saturating_add next 2 else next) fields
  end.

Definition detail_action_at (area : Rect) (d : DetailPanelState) (column row : Z)
  : option DetailActionFocus :=
  if (re_width area <? 50)%Z || negb (contains_rect area column row) then None
  else
    let inner := inset 2 1 (inset 1 1 area) in
    if negb (contains_rect inner column row) then None
    else
      cols ← table_columns (re_width inner);
      record ← dp_record d;
      action_at inner cols (bool_decide (is_Some (dv_password_strength record))) column row
        (re_y inner + 8) (imap pair (dv_fields record)).

Section mouse.
Context {W : Type} `{CommandQueue W} `{Rng W} `{System W} `{Translations} `{Lowercase}.

Definition repeat3 {A} (f : A → A) (a : A) : A := f (f (f a)).

Definition scroll_sidebar (up : bool) (sidebar : Rect) (row : Z) (s : MainScreenState)
  : MainScreenState :=
  let sb := ms_sidebar s in
  if sb_tags_expanded sb && negb (bool_decide (sb_tags sb = []))
     && SidebarState.tag_scroll_region_contains sb sidebar row
  then
    let visible := SidebarState.nav_visible_items_for_height sb (re_height sidebar) in
    on_sidebar (SidebarState.scroll_tags_by (if up then -3 else 3) visible)
      (focus PanelId.Sidebar s)
  else s.

Definition scroll_list (up : bool) (s : MainScreenState) : io W Step :=
  let s := on_list (repeat3 (if up then ListPanelState.move_up else ListPanelState.move_down))
             (focus PanelId.List s) in
  match (if up then None else maybe_load_more_records_command s) with
  | Some (s, cmd) => command_ cmd s
  | None => detail_or_continue (selected_id s) s
  end.

Definition handle_scroll (up : bool) (column row : Z) (area : Rect) (s : MainScreenState)
  : io W Step :=
  let layout := calculate_layout area (re_width area) in
  if contains_rect (la_sidebar layout) column row then
    continue_ (scroll_sidebar up (la_sidebar layout) row s)
  else if contains_rect (top_padded (la_list layout) 1) column row then scroll_list up s
  else if contains_rect (top_padded (la_detail layout) 1) column row then
    continue_ (focus PanelId.Detail s)
  else continue_ s.

Definition click_sidebar (sidebar : Rect) (row : Z) (s : MainScreenState) : io W Step :=
  match SidebarState.item_index_at (ms_sidebar s) sidebar row with
  | Some index =>
      if SidebarState.selectable_at (ms_sidebar s) index then
        sidebar_move (λ sb, sb <| sb_selected_index := index |>) s
      else continue_ s
  | None => continue_ s
  end.

Definition click_list (list_rect : Rect) (is_click : bool) (column row : Z)
    (s : MainScreenState) : io W Step :=
  let row_in_list := saturating_sub row (re_y list_rect) in
  if (row_in_list =? 0)%Z then
    if is_click && negb (ListPanelState.is_searching (ms_list s))
       && negb (ListPanelState.is_visual (ms_list s)) then
      let col_in_list := saturating_sub column (re_x list_rect) in
      let s := if (col_in_list <? re_width list_rect / 2)%Z then MainScreen.sort_field s
               else MainScreen.sort_direction s in
      let '(s, cmd) := reload_record_list_command s in command_ cmd s
    else continue_ s
  else if (row_in_list =? 1)%Z then continue_ s
  else
    let index := Z.to_nat ((row_in_list - 2) / item_height (re_width list_rect))
                 + rendered_list_offset (ms_list s) list_rect in
    match ls_records (ms_list s) !! index with
    | Some record =>
        if bool_decide (ls_selected_index (ms_list s) = Some index) then continue_ s
        else
          command_ (Command.LoadRecordDetail (tr_id record))
            (on_list (λ l, ListPanelState.adjust_scroll (l <| ls_selected_index := Some index |>))
               s)
    | None => continue_ s
    end.

Definition click_detail (detail_rect : Rect) (is_click : bool) (column row : Z)
    (s : MainScreenState) : io W Step :=
  match detail_action_at detail_rect (ms_detail s) column row with
  | Some action =>
      let s := on_detail (λ d, (DetailPanelState.set_action_focus action d).1) s in
      match dp_record (ms_detail s), is_click with
      | Some record, true => execute_detail_action (dv_id record) action s
      | _, _ => continue_ s
      end
  | None => continue_ s
  end.

Definition handle_pointer (is_click : bool) (column row : Z) (area : Rect)
    (s : MainScreenState) : io W Step :=
  let layout := calculate_layout area (re_width area) in
  let list_rect := top_padded (la_list layout) 1 in
  let detail_rect := top_padded (la_detail layout) 1 in
  if contains_rect (la_sidebar layout) column row then
    let s := focus PanelId.Sidebar s in
    if is_click then click_sidebar (la_sidebar layout) row s else continue_ s
  else if contains_rect list_rect column row then
    let s := focus PanelId.List s in
    if is_click then click_list list_rect is_click column row s else continue_ s
  else if contains_rect detail_rect column row then
    click_detail detail_rect is_click column row (focus PanelId.Detail s)
  else continue_ s.

Definition handle_mouse (event : MouseEvent) (area : Rect) (s : MainScreenState) : io W Step :=
  let column := me_column event in
  let row := me_row event in
  match me_kind event with
  | MouseEventKind.Other => continue_ s
  | MouseEventKind.ScrollUp => handle_scroll true column row area s
  | MouseEventKind.ScrollDown => handle_scroll false column row area s
  | MouseEventKind.Moved => handle_pointer false column row area s
  | MouseEventKind.DownLeft => handle_pointer true column row area s
  end.

(** ** The screen ([Screen::update]) *)

Definition update (config : AppConfig) (msg : Message.t) (s : MainScreenState) : io W Step :=
  match msg with
  | Message.KeyEvent key => handle_key key s
  | Message.MouseEvent event => handle_mouse event (ms_terminal_area s) s
  | Message.Resize width height =>
      continue_ (s <| ms_terminal_area := mkRect 0 0 width height |>)
  | Message.HealthCheckProgress current total =>
      continue_ (s <| ms_status_bar ::= λ b,
        b <| bar_health_check_progress := Some (current, total) |> |>)
  | Message.CommandCompleted (AppResult.Command result) => on_result result s
  | Message.CommandCompleted _ => continue_ s
  | Message.ShowOverlay overlay => show_overlay config overlay s
  | Message.CloseOverlay =>
      continue_ (s <| ms_overlay_manager ::= OverlayManager.close |>)
  | Message.Tick | Message.Other => continue_ s
  end.

(** What follows when messages come one after the other. *)
Fixpoint updates (config : AppConfig) (msgs : list Message.t) (s : MainScreenState)
  : io W MainScreenState :=
  match msgs with
  | [] => io_ret s
  | msg :: msgs =>
      let* r := update config msg s in updates config msgs r.1
  end.

End mouse.
