(* ===== verification/MainSafety.v ===== *)
(** * What the main screen never does

    No secret is on the screen that is not marked as shown; nothing is deleted without a
    dialog that was confirmed; a dialog for what cannot be taken back opens with the focus on
    its way out.  And what it does do: the box for a new name of a tag misses letters. *)

From stdpp Require Import sorting.
From S2P Require Import Prelude Text Errors Env Types Payload Queries Vault Records Tags Listing.
From S2P Require Import Health Password Executor Generator Config ConfigExec Dispatch.
From S2P Require Import ListPanel Sidebar DetailPanel Overlays MainScreen.
Import MainScreenState.

(** ** Effects with a fact about their result

    [P] is kept of the world, and [Q] holds of what is returned. *)
Definition ensures {W A} (P : W → Prop) (m : io W A) (Q : A → Prop) : Prop :=
  ∀ w a w', P w → m w = (a, w') → P w' ∧ Q a.

Section ensures.
Context {W : Type} (P : W → Prop).

Lemma ensures_ret {A} (a : A) (Q : A → Prop) : Q a → ensures P (io_ret a) Q.
Proof. by intros HQ w a' w' Hw [= <- <-]. Qed.

Lemma ensures_bind {A B} (m : io W A) (k : A → io W B) Q R :
  ensures P m Q → (∀ a, Q a → ensures P (k a) R) → ensures P (io_bind m k) R.
Proof.
  intros Hm Hk w b w' Hw (a & w1 & E1 & E2)%io_bind_eq.
  destruct (Hm _ _ _ Hw E1) as [Hw1 Ha]. by eapply Hk.
Qed.

Lemma ensures_weaken {A} (m : io W A) (Q R : A → Prop) :
  ensures P m Q → (∀ a, Q a → R a) → ensures P m R.
Proof. intros Hm HR w a w' Hw E. destruct (Hm _ _ _ Hw E). auto. Qed.

Lemma ensures_preserves {A} (m : io W A) : preserves P m → ensures P m (λ _, True).
Proof. intros Hm w a w' Hw E. split; [by eapply Hm|done]. Qed.

End ensures.

(** ** States that a step may lead to *)

(** While they are marked as hidden, the secrets of the details are masked. *)
Definition details_ok (d : DetailPanelState) : Prop :=
  Forall field_ok (DetailPanelState.fields d) ∧
  (dp_password_visible d = false → Forall hidden (DetailPanelState.fields d)).

(** A confirmation that was not open before has the focus that it opens with. *)
Definition dialogs (m m' : OverlayManager) : Prop :=
  ∀ v b, om_active m' = Some (ActiveOverlay.ConfirmDialog v b) →
    om_active m = Some (ActiveOverlay.ConfirmDialog v b) ∨ b = default_confirm_button v.

Record stable (s s' : MainScreenState) : Prop := {
  st_details : details_ok (ms_detail s) → details_ok (ms_detail s');
  st_dialogs : dialogs (ms_overlay_manager s) (ms_overlay_manager s');
}.

#[export] Instance stable_preorder : PreOrder stable.
Proof.
  split; [by split; [|left]|]. intros s1 s2 s3 [H1 D1] [H2 D2]. split; [auto|].
  intros v b E. destruct (D2 v b E) as [E'|]; [by apply D1|by right].
Qed.

(** The commands that delete. *)
Definition deletes (c : Command.t) : bool :=
  match c with
  | Command.SoftDeleteRecord _ | Command.HardDeleteRecord _ | Command.BatchSoftDelete _
  | Command.BatchHardDelete _ | Command.EmptyTrash | Command.DeleteTag _ => true
  | _ => false
  end.

Definition calm (r : ScreenResult.t) : Prop :=
  match r with ScreenResult.Command c => deletes c = false | _ => True end.

Definition good (s : MainScreenState) (r : Step) : Prop := stable s r.1 ∧ calm r.2.

Lemma good_after s s' r : stable s s' → good s' r → good s r.
Proof. intros H [H1 H2]. split; [by etransitivity|done]. Qed.

(** *** The details *)

Lemma details_initial : details_ok DetailPanelState.initial.
Proof. by split. Qed.

Lemma details_hidden_fields d : Forall hidden (DetailPanelState.fields d) → details_ok d.
Proof. intros H. split; [|done]. eapply Forall_impl; [exact H|]. apply hidden_ok. Qed.

(** What leaves the fields and the mark alone. *)
Lemma details_same d d' : DetailPanelState.fields d' = DetailPanelState.fields d →
  dp_password_visible d' = dp_password_visible d → details_ok d → details_ok d'.
Proof. unfold details_ok. by intros -> ->. Qed.

Lemma focus_on_details a d : details_ok d → details_ok (DetailPanelState.focus_on a d).
Proof. apply details_same; by destruct d. Qed.

Lemma focus_first_details d : details_ok d → details_ok (DetailPanelState.focus_first_action d).1.
Proof.
  intros H. unfold DetailPanelState.focus_first_action. case_match; [done|by apply focus_on_details].
Qed.

Lemma vertical_details down d :
  details_ok d → details_ok (DetailPanelState.move_action_vertical down d).1.
Proof.
  intros H. unfold DetailPanelState.move_action_vertical. case_match; [|by apply focus_first_details].
  case_match; [by apply focus_on_details|done].
Qed.

Lemma horizontal_details right d :
  details_ok d → details_ok (DetailPanelState.move_action_horizontal right d).1.
Proof.
  intros H. unfold DetailPanelState.move_action_horizontal.
  case_match; [|by apply focus_first_details].
  destruct (list_find _ _) as [[i x]|]; [|done].
  destruct (if right then _ else _) as [n|]; [|by apply (details_same d); [destruct d..|]].
  destruct (DetailPanelState.actions_for_field _ _ !! n); [by apply focus_on_details|done].
Qed.

Lemma set_action_details a d : details_ok d → details_ok (DetailPanelState.set_action_focus a d).1.
Proof.
  intros H. unfold DetailPanelState.set_action_focus. case_match; [by apply focus_on_details|done].
Qed.

Lemma focus_field_details i d : details_ok d → details_ok (DetailPanelState.focus_field i d).1.
Proof. intros H. destruct i; [|done]. by apply (details_same d); [destruct d..|]. Qed.

Lemma field_up_details d : details_ok d → details_ok (field_up d).
Proof.
  intros H. unfold field_up, DetailPanelState.move_field_up. destruct (dp_record d); [|done].
  destruct (dp_focused_field d =? 0); [done|]. destruct (_ <? _); [done|].
  pose proof (focus_field_details (DetailPanelState.interactive_in d
    (rev (seq 0 (dp_focused_field d)))) d H) as Hf.
  by destruct (DetailPanelState.focus_field (DetailPanelState.interactive_in _ _) d).
Qed.

Lemma toggle_details d : details_ok d → details_ok (DetailPanelState.toggle_password d).1.
Proof.
  intros [H1 H2]. unfold DetailPanelState.toggle_password.
  destruct (dp_password_visible d) eqn:Ev.
  - apply details_hidden_fields. destruct d as [[r|] ? ? ? ? ? ?]; cbn in *; [|constructor].
    destruct r; cbn in *. apply Forall_fmap. eapply Forall_impl; [exact H1|].
    intros f. apply mask_hidden.
  - split; [|by destruct d]. by destruct d as [[r|] ? ? ? ? ? ?].
Qed.

Lemma reveal_field_ok kind value fs : Forall field_ok fs → Forall field_ok (reveal kind value fs).
Proof.
  induction 1 as [|f fs Hf Hfs IH]; cbn; [constructor|].
  destruct (bool_decide (df_kind f = kind)); cbn; [|by constructor].
  destruct (df_toggleable f) eqn:Et; cbn; [|by constructor].
  constructor; [|done]. destruct Hf as [Ht _]. rewrite Et in Ht. destruct f; cbn in *.
  split; cbn; [congruence|]. rewrite <-Ht. right. by eexists.
Qed.

Lemma reveal_details id field value d : details_ok d → details_ok (reveal_field id field value d).
Proof.
  intros [H1 H2]. unfold reveal_field. split; [|by destruct d].
  destruct d as [[r|] ? ? ? ? ? ?]; cbn in *; [|done].
  case_bool_decide; [|done]. destruct (target_kind _ _); [|done]. destruct r; cbn in *.
  by apply reveal_field_ok.
Qed.

(** *** Steps that lead to stable states *)

Lemma stable_same s s' : ms_detail s' = ms_detail s →
  ms_overlay_manager s' = ms_overlay_manager s → stable s s'.
Proof. intros E1 E2. split; rewrite ?E1, ?E2; [done|by left]. Qed.

Lemma stable_detail f s : (∀ d, details_ok d → details_ok (f d)) → stable s (on_detail f s).
Proof. intros Hf. destruct s; split; cbn; [apply Hf|by left]. Qed.

Lemma stable_clear s : stable s (clear_detail s).
Proof. destruct s; split; cbn; [intros _; apply details_initial|by left]. Qed.

Lemma stable_list f s : stable s (on_list f s).
Proof. apply stable_same; by destruct s. Qed.

Lemma stable_sidebar f s : stable s (on_sidebar f s).
Proof. apply stable_same; by destruct s. Qed.

Lemma stable_focus p s : stable s (focus p s).
Proof. apply stable_same; by destruct s. Qed.

Lemma stable_overlay s m : dialogs (ms_overlay_manager s) m →
  stable s (s <| ms_overlay_manager := m |>).
Proof. intros H. by destruct s; split. Qed.

Create HintDb steps.
#[export] Hint Resolve stable_clear stable_list stable_sidebar stable_focus : steps.
#[export] Hint Extern 2 (stable ?s _) => (by apply stable_same; destruct s) : steps.

(** ** The world

    A property of it that random numbers, the clock and the commands that delete nothing
    keep; a log of the commands that were sent has such properties. *)
Class Undisturbed {W} `{CommandQueue W} `{Rng W} `{System W} (P : W → Prop) : Prop := {
  und_send c : deletes c = false → preserves P (command_tx_try_send c);
  und_next : preserves P next_u32;
  und_shuffle l : preserves P (shuffle l);
  und_now : preserves P now;
}.

(** *** The generator only draws *)

Section drawing.
Context {W : Type} `{Rng W} (P : W → Prop).
Context (Hnext : preserves P next_u32) (Hshuffle : ∀ l, preserves P (shuffle l)).

#[local] Hint Resolve Hnext Hshuffle : preserves.

Lemma draw_preserves n choices : preserves P (draw n choices).
Proof.
  induction n; cbn; unfold random_from_slice, random_index; [apply preserves_ret|].
  repeat step_preserves; done.
Qed.

Lemma draw_words_preserves n c : preserves P (draw_words n c).
Proof.
  induction n; cbn; unfold random_index; [apply preserves_ret|]. repeat step_preserves; done.
Qed.

#[local] Hint Resolve draw_preserves draw_words_preserves : preserves.

Lemma regenerate_preserves s : preserves P (GeneratorState.regenerate s).
Proof.
  unfold GeneratorState.regenerate, GeneratorState.generate,
    generate_random_password_with_char_types, generate_memorable_password_with_options,
    generate_pin, require, shuffled, random_from_slice, random_index.
  solve_preserves.
Qed.

End drawing.

Section walk.
Context {W : Type} `{CommandQueue W} `{Rng W} `{System W} `{Translations} `{Lowercase}.
Context (P : W → Prop) `{!Undisturbed P}.

Lemma next_kept : preserves P next_u32.
Proof. apply und_next. Qed.

Lemma shuffle_kept l : preserves P (shuffle l).
Proof. apply und_shuffle. Qed.

#[local] Hint Resolve next_kept shuffle_kept : preserves.

(** *** The generator *)

Lemma regenerate_und s : preserves P (GeneratorState.regenerate s).
Proof. by apply regenerate_preserves; [apply und_next|apply und_shuffle]. Qed.

#[local] Hint Resolve regenerate_und : preserves.

Lemma new_und : preserves P GeneratorState.new.
Proof. apply regenerate_und. Qed.

Lemma from_config_und c : preserves P (GeneratorState.from_config c).
Proof. apply regenerate_und. Qed.

#[local] Hint Resolve new_und from_config_und : preserves.

Lemma generator_key_und key s : preserves P (generator_handle_key key s).
Proof.
  unfold generator_handle_key, press_key, then_regenerated, focused_key, set_separator,
    toggle_focused_option, GeneratorState.set_style, GeneratorState.increment_length,
    GeneratorState.decrement_length, GeneratorState.toggle_char_type, then_none.
  solve_preserves.
Qed.

(** *** Opening dialogs *)

Lemma open_ensures overlay m :
  ensures P (OverlayManager.open overlay m) (λ r, dialogs m r.1).
Proof.
  unfold OverlayManager.open. destruct (OverlayManager.is_active m); [by apply ensures_ret; left|].
  apply ensures_bind with (Q := λ a, ∀ v b, a = ActiveOverlay.ConfirmDialog v b →
    b = default_confirm_button v).
  - destruct overlay; cbn; try by (apply ensures_ret; intros ?? [= <- <-]).
    apply ensures_bind with (Q := λ _, True); [apply ensures_preserves, new_und|].
    intros g _. by apply ensures_ret.
  - intros a Ha. apply ensures_ret. intros v b [= E]. right. by apply Ha.
Qed.

Lemma open_generator_ensures config m :
  ensures P (OverlayManager.open_password_generator config m) (λ r, dialogs m r.1).
Proof.
  unfold OverlayManager.open_password_generator.
  destruct (OverlayManager.is_active m); [by apply ensures_ret; left|].
  apply ensures_bind with (Q := λ _, True); [apply ensures_preserves, from_config_und|].
  intros g _. apply ensures_ret. by intros v b [= ].
Qed.

(** *** Steps *)

Lemma ens_continue s0 s : stable s0 s → ensures P (continue_ (W := W) s) (good s0).
Proof. intros Hs. by apply ensures_ret. Qed.

Lemma ens_command c s0 s : deletes c = false → stable s0 s →
  ensures P (command_ (W := W) c s) (good s0).
Proof. intros Hc Hs. by apply ensures_ret. Qed.

Lemma ens_navigate screen s0 s : stable s0 s → ensures P (navigate (W := W) screen s) (good s0).
Proof. intros Hs. by apply ensures_ret. Qed.

Lemma ens_detail_or_continue id s0 s : stable s0 s →
  ensures P (detail_or_continue (W := W) id s) (good s0).
Proof. destruct id; [by apply ens_command|by apply ens_continue]. Qed.

Lemma ens_detail_or_clear id s0 s : stable s0 s →
  ensures P (detail_or_clear (W := W) id s) (good s0).
Proof.
  intros Hs. destruct id; [by apply ens_command|]. apply ens_continue.
  etransitivity; [done|apply stable_clear].
Qed.

Lemma ens_send c : deletes c = false → ensures P (send_system_command c) (λ _, True).
Proof.
  intros Hc. apply ensures_bind with (Q := λ _, True).
  - by apply ensures_preserves, und_send.
  - intros ? _. by apply ensures_ret.
Qed.

Lemma ens_then_send {A} c (m : io W A) Q : deletes c = false → ensures P m Q →
  ensures P (io_bind (send_system_command c) (λ _, m)) Q.
Proof.
  intros Hc Hm. apply ensures_bind with (Q := λ _, True); [by apply ens_send|]. by intros.
Qed.

Lemma reload_stable s0 s : stable s0 s → ensures P (reload (W := W) s) (stable s0).
Proof.
  intros Hs. unfold reload, reload_record_list_command, load_record_list_command.
  apply ens_then_send; [done|]. apply ensures_ret. etransitivity; [exact Hs|].
  apply stable_same; by destruct s.
Qed.

Lemma reload_with_tags_stable s0 s : stable s0 s →
  ensures P (reload_with_tags (W := W) s) (stable s0).
Proof. intros Hs. by apply ens_then_send, reload_stable. Qed.

Lemma ens_reload_then s0 s (k : MainScreenState → io W Step) :
  stable s0 s → (∀ s', stable s0 s' → ensures P (k s') (good s0)) →
  ensures P (io_bind (reload s) k) (good s0).
Proof. intros Hs Hk. eapply ensures_bind; [by apply reload_stable|done]. Qed.

Lemma ens_reload_tags_then s0 s (k : MainScreenState → io W Step) :
  stable s0 s → (∀ s', stable s0 s' → ensures P (k s') (good s0)) →
  ensures P (io_bind (reload_with_tags s) k) (good s0).
Proof. intros Hs Hk. eapply ensures_bind; [by apply reload_with_tags_stable|done]. Qed.

Lemma ens_open_overlay overlay s0 s : stable s0 s →
  ensures P (open_overlay (W := W) overlay s) (good s0).
Proof.
  intros Hs. eapply ensures_bind; [apply open_ensures|]. intros r Hr. apply ens_continue.
  etransitivity; [exact Hs|]. etransitivity; [by apply (stable_overlay s r.1)|].
  apply stable_same; by destruct s.
Qed.

Lemma ens_open_generator s0 s : stable s0 s →
  ensures P (open_generator (W := W) s) (good s0).
Proof.
  intros Hs. eapply ensures_bind; [apply open_generator_ensures|]. intros r Hr.
  apply ens_continue. etransitivity; [exact Hs|].
  etransitivity; [by apply (stable_overlay s r.1)|]. apply stable_same; by destruct s.
Qed.

(** *** Results of the executor *)

Lemma stable_closed s0 s : ms_detail s0 = ms_detail s ∨ ms_detail s = DetailPanelState.initial →
  ms_overlay_manager s = ms_overlay_manager s0 ∨ om_active (ms_overlay_manager s) = None →
  stable s0 s.
Proof.
  intros Hd Ho. split.
  - destruct Hd as [<-| ->]; [done|intros _; apply details_initial].
  - intros v b E. destruct Ho as [Ho|Ho]; rewrite Ho in E; [by left|done].
Qed.

Lemma on_record_list_loaded_good records total counts s :
  ensures P (on_record_list_loaded (W := W) records total counts s) (good s).
Proof.
  unfold on_record_list_loaded.
  destruct (0 <? _); [apply ens_continue, stable_same; by destruct s|].
  apply ensures_bind with (Q := stable s).
  - destruct records as [|r records].
    + apply ensures_ret, stable_closed; [right|left]; by destruct s.
    + case_match.
      * apply ens_then_send; [done|]. apply ensures_ret, stable_same; by destruct s.
      * case_match; [apply ensures_ret, stable_same; by destruct s|]. case_match.
        -- apply ens_then_send; [done|]. apply ensures_ret, stable_same; by destruct s.
        -- apply ensures_ret, stable_closed; [right|left]; by destruct s.
  - intros s1 Hs1. apply ensures_bind with (Q := stable s).
    + unfold refresh_detail. case_match; [|by apply ensures_ret]. case_match.
      * apply ens_then_send; [done|]. apply ensures_ret. etransitivity; [exact Hs1|].
        apply stable_same; by destruct s1.
      * apply ensures_ret. etransitivity; [exact Hs1|].
        apply stable_closed; [right|left]; by destruct s1.
    + intros s2 Hs2. by apply ens_continue.
Qed.

Lemma on_field_decrypted_good id field value s :
  ensures P (on_field_decrypted (W := W) id field value s) (good s).
Proof.
  unfold on_field_decrypted.
  assert (stable s (s <| ms_detail ::= reveal_field id field value |>)) as Hs.
  { destruct s; split; cbn; [apply reveal_details|by left]. }
  case_match; [|by apply ens_continue]. destruct p as [pos [i f]]. apply ens_then_send; [done|].
  apply ens_continue. etransitivity; [exact Hs|]. apply stable_same; by destruct s.
Qed.

Lemma on_detail_loaded_good record strength issue s :
  ensures P (on_detail_loaded (W := W) record strength issue s) (good s).
Proof.
  unfold on_detail_loaded. apply ensures_bind with (Q := λ _, True);
    [apply ensures_preserves, und_now|]. intros time _. apply ens_continue.
  destruct s; split; cbn; [|by left]. intros _. apply details_hidden_fields.
  apply build_fields_hidden.
Qed.

Lemma on_favorite_toggled_stable id f s : stable s (on_favorite_toggled id f s).
Proof.
  unfold on_favorite_toggled. set (s1 := s <| ms_list ::= _ |> <| ms_detail ::= _ |>).
  assert (stable s s1) as Hs1.
  { subst s1. destruct s as [sb l d]; split; cbn; [|by left]. apply details_same.
    - destruct d as [[r|] ? ? ? ? ? ?]; cbn; [|done]. case_bool_decide; [by destruct r|done].
    - by destruct d. }
  case_match; [|done]. etransitivity; [exact Hs1|]. apply stable_same; by destruct s1.
Qed.

Lemma on_history_loaded_good history s : ensures P (on_history_loaded (W := W) history s) (good s).
Proof.
  unfold on_history_loaded. case_match; [|by apply ens_continue].
  eapply ensures_bind; [apply open_ensures|]. intros r Hr. apply ens_continue, stable_overlay.
  intros v b E. apply (Hr v b). cbn in E. by destruct (om_active r.1) as [[]|].
Qed.

Lemma clear_detail_of_stable id s : stable s (clear_detail_of id s).
Proof. unfold clear_detail_of. destruct (shows_detail id s); [apply stable_clear|done]. Qed.

Lemma removed_stable id s : stable s (without_record id (clear_detail_of id s)).
Proof.
  etransitivity; [apply (clear_detail_of_stable id s)|]. unfold without_record.
  generalize (clear_detail_of id s). intros s1. apply stable_same; by destruct s1.
Qed.

Lemma ens_removed id s : ensures P (on_removed (W := W) id s) (good s).
Proof. apply ens_reload_then; [apply removed_stable|]. intros. by apply ens_continue. Qed.

Lemma ens_reloaded_tags s0 s : stable s0 s →
  ensures P (let* s := reload_with_tags (W := W) s in continue_ s) (good s0).
Proof. intros Hs. apply ens_reload_tags_then; [done|]. intros. by apply ens_continue. Qed.

Lemma cleaned_up_stable s : stable s (cleaned_up s).
Proof.
  unfold cleaned_up. etransitivity; [apply (stable_list (ListPanelState.cleanup_after_batch
    (ListPanelState.visual_selected_ids (ms_list s))))|]. apply stable_clear.
Qed.

Lemma on_batch_tagged_good s : ensures P (on_batch_tagged (W := W) s) (good s).
Proof.
  unfold on_batch_tagged. apply ens_reload_tags_then.
  - case_match; [apply (stable_list ListPanelState.exit_visual)|done].
  - intros s' Hs'. apply ens_continue. case_match; [done|].
    etransitivity; [exact Hs'|apply stable_clear].
Qed.

Lemma on_health_check_completed_good report s :
  ensures P (on_health_check_completed (W := W) report s) (good s).
Proof.
  unfold on_health_check_completed. apply ens_reload_then; [apply stable_same; by destruct s|].
  intros s' Hs'. destruct (selected_id s'); [apply ens_then_send; [done|]|]; by apply ens_continue.
Qed.

Lemma on_result_good r s : ensures P (on_result (W := W) r s) (good s).
Proof.
  destruct r; unfold on_result; try (by apply ens_continue);
    try by (apply ens_continue, stable_same; destruct s).
  - apply ens_reload_then; [apply stable_same; by destruct s|]. intros. by apply ens_continue.
  - apply ens_reload_then; [done|]. intros s' Hs'. apply ens_continue. case_match; [|done].
    etransitivity; [exact Hs'|]. apply stable_same; by destruct s'.
  - apply ens_reload_then; [|intros; by apply ens_continue].
    etransitivity; [apply (removed_stable id s)|]. apply stable_list.
  - apply ens_removed.
  - apply ens_removed.
  - apply ens_continue, on_favorite_toggled_stable.
  - apply on_record_list_loaded_good.
  - apply on_detail_loaded_good.
  - apply on_field_decrypted_good.
  - apply on_history_loaded_good.
  - by apply ens_reloaded_tags.
  - by apply ens_reloaded_tags.
  - apply on_batch_tagged_good.
  - apply on_batch_tagged_good.
  - apply ens_reloaded_tags, cleaned_up_stable.
  - apply ens_reloaded_tags, cleaned_up_stable.
  - apply ens_reload_then; [apply cleaned_up_stable|]. intros. by apply ens_continue.
  - apply ens_reload_then; [|intros; by apply ens_continue].
    apply stable_closed; [right|left]; by destruct s.
  - apply on_health_check_completed_good.
  - apply ensures_ret. split; [|done]. apply stable_closed; right; by destruct s.
Qed.

(** *** Keys *)

Lemma search_for_good query s : ensures P (search_for (W := W) query s) (good s).
Proof.
  unfold search_for. destruct (ListPanelState.apply_search_filter_to_records _) as [l id].
  apply ens_detail_or_clear, stable_same; by destruct s.
Qed.

Lemma search_key_good key s : ensures P (search_key (W := W) key s) (good s).
Proof.
  unfold search_key. destruct (ke_code key); try by apply ens_continue.
  - apply search_for_good.
  - apply ens_detail_or_continue, stable_list.
  - apply ens_detail_or_clear, stable_list.
  - apply ens_detail_or_clear, stable_list.
  - destruct (ListPanelState.cancel_search_restore _) as [l id].
    apply ens_detail_or_continue, stable_same; by destruct s.
  - case_match; [by apply ens_continue|apply search_for_good].
Qed.

Lemma set_filter_good f s0 s : stable s0 s → ensures P (set_filter (W := W) f s) (good s0).
Proof.
  intros Hs. unfold set_filter. cbn. apply ens_command; [done|].
  etransitivity; [exact Hs|]. apply stable_closed; [right|left]; by destruct s.
Qed.

Lemma navigate_left_good s : ensures P (navigate_left (W := W) s) (good s).
Proof.
  unfold navigate_left. case_match; apply ens_continue; [|apply stable_focus].
  apply stable_detail, horizontal_details.
Qed.

Lemma navigate_right_good s : ensures P (navigate_right (W := W) s) (good s).
Proof.
  unfold navigate_right. case_match.
  - case_match; [|apply ens_continue, stable_focus]. apply ens_detail_or_continue.
    etransitivity; [apply (stable_focus PanelId.List)|apply stable_list].
  - apply ens_continue, stable_focus.
  - case_match; apply ens_continue, stable_detail.
    + apply horizontal_details.
    + apply focus_first_details.
Qed.

Lemma at_sidebar f s : stable s (on_sidebar f (focus PanelId.Sidebar s)).
Proof. etransitivity; [apply (stable_focus PanelId.Sidebar)|apply stable_sidebar]. Qed.

Lemma global_navigation_good key s m :
  handle_global_navigation_key (W := W) key s = Some m → ensures P m (good s).
Proof.
  unfold handle_global_navigation_key. destruct (is_renaming s), (unmodified (ke_modifiers key)); try done.
  cbn [negb]. destruct (ke_code key); try done.
  - intros [= <-]. apply navigate_left_good.
  - intros [= <-]. apply navigate_right_good.
  - destruct (_ =? ch "0")%Z; [intros [= <-]; apply ens_continue, at_sidebar|].
    destruct (_ =? ch "6")%Z; [intros [= <-]; by apply ens_open_generator|].
    destruct (_ =? ch "7")%Z; [intros [= <-]; by apply ens_navigate|].
    destruct (category_key c) as [category|]; cbn; [|done]. intros [= <-].
    case_match; [apply ens_continue, at_sidebar|apply set_filter_good, at_sidebar].
Qed.

Lemma sidebar_move_good f s0 s : stable s0 s → ensures P (sidebar_move (W := W) f s) (good s0).
Proof.
  intros Hs. unfold sidebar_move. set (s1 := leave_visual _).
  assert (stable s0 s1) as Hs1; [|case_match; [by apply ens_continue|by apply set_filter_good]].
  etransitivity; [exact Hs|]. etransitivity; [apply (stable_sidebar f)|].
  etransitivity; [apply stable_sidebar|]. subst s1. unfold leave_visual.
  case_match; [apply stable_list|done].
Qed.

Lemma ens_then_detail f s :
  ensures P (let s' := on_list f s in detail_or_continue (W := W) (selected_id s') s') (good s).
Proof. apply ens_detail_or_continue, stable_list. Qed.

Lemma load_more_good s s' cmd : maybe_load_more_records_command s = Some (s', cmd) →
  stable s s' ∧ deletes cmd = false.
Proof.
  unfold maybe_load_more_records_command. case_match; [done|].
  destruct (ls_selected_index (ms_list s)); cbn; [|done]. case_match; [|done].
  intros [= <- <-]. split; [|done]. apply stable_same; by destruct s.
Qed.

Lemma list_key_good key s m : list_key (W := W) key s = Some m → ensures P m (good s).
Proof.
  unfold list_key. case_match; [done|]. case_match; [|case_match; [|done]]; intros [= <-].
  - destruct (maybe_load_more_records_command _) as [[s' cmd]|] eqn:E; [|apply ens_then_detail].
    apply load_more_good in E as [Hs Hc]. apply ens_command; [done|].
    etransitivity; [apply (stable_list ListPanelState.move_down)|done].
  - apply ens_then_detail.
Qed.

Lemma toggled_stable s0 s d needs : stable s0 s →
  DetailPanelState.toggle_password (ms_detail s) = (d, needs) → stable s0 (s <| ms_detail := d |>).
Proof.
  intros Hs Hd. etransitivity; [exact Hs|]. apply (f_equal fst) in Hd. cbn in Hd. subst d.
  apply (stable_detail (λ d, (DetailPanelState.toggle_password d).1)), toggle_details.
Qed.

Lemma execute_detail_action_good id action s0 s : stable s0 s →
  ensures P (execute_detail_action (W := W) id action s) (good s0).
Proof.
  intros Hs. unfold execute_detail_action. case_match; [|by apply ens_continue].
  case_match; [by apply ens_command|]. case_match; [|by apply ens_continue].
  destruct (DetailPanelState.toggle_password _) as [d' needs] eqn:E.
  apply (toggled_stable s0) in E; [|done].
  destruct needs; [by apply ens_command|by apply ens_continue].
Qed.

Lemma toggle_all_good id s : ensures P (toggle_all (W := W) id s) (good s).
Proof.
  unfold toggle_all. case_match; [by apply ens_continue|].
  destruct (DetailPanelState.toggle_password _) as [d needs] eqn:E.
  apply (toggled_stable s) in E; [|done].
  destruct needs; [apply ens_command; [done|]|apply ens_continue];
    (etransitivity; [exact E|]); apply stable_same; by destruct s.
Qed.

Lemma copy_field_good id field s : ensures P (copy_field (W := W) id field s) (good s).
Proof. destruct field; [by apply ens_command|by apply ens_continue]. Qed.

Lemma up_details s : stable s (on_detail (λ d,
  if bool_decide (is_Some (dp_focused_action (ms_detail s)))
  then (DetailPanelState.move_action_up d).1 else field_up d) s).
Proof.
  apply stable_detail. intros d Hd. case_match; [by apply vertical_details|by apply field_up_details].
Qed.

Lemma down_details s : stable s (on_detail (λ d,
  if bool_decide (is_Some (dp_focused_action (ms_detail s)))
  then (DetailPanelState.move_action_down d).1 else (DetailPanelState.move_field_down d).1) s).
Proof.
  apply stable_detail. intros d Hd.
  case_match; [by apply vertical_details|by apply focus_field_details].
Qed.

Lemma letters_good id record key s m :
  (if is_key "p" key then Some (toggle_all (W := W) id s)
   else if is_key "c" key then
     Some (copy_field id (DetailPanelState.password_field (ms_detail s)) s)
   else if is_key "u" key then
     Some (copy_field id (DetailPanelState.username_field (ms_detail s)) s)
   else if is_key "f" key then
     Some (command_ (Command.ToggleFavorite id (negb (dv_is_favorite record))) s)
   else if is_key "d" key then
     Some (open_overlay (confirm_dialog (ConfirmVariant.SoftDelete id (dv_name record) None)
                           ConfirmButton.Cancel) s)
   else if is_key "H" key then Some (command_ (Command.LoadPasswordHistory id) s)
   else if is_up key then
     Some (continue_ (on_detail (λ d,
       if bool_decide (is_Some (dp_focused_action (ms_detail s)))
       then (DetailPanelState.move_action_up d).1 else field_up d) s))
   else if is_down key then
     Some (continue_ (on_detail (λ d,
       if bool_decide (is_Some (dp_focused_action (ms_detail s)))
       then (DetailPanelState.move_action_down d).1
       else (DetailPanelState.move_field_down d).1) s))
   else None) = Some m → ensures P m (good s).
Proof.
  repeat (case_match; [intros [= <-]|]); [..|done].
  - apply toggle_all_good.
  - apply copy_field_good.
  - apply copy_field_good.
  - by apply ens_command.
  - by apply ens_open_overlay.
  - by apply ens_command.
  - apply ens_continue, up_details.
  - apply ens_continue, down_details.
Qed.

Lemma detail_key_good key s m : detail_key (W := W) key s = Some m → ensures P m (good s).
Proof.
  unfold detail_key. destruct (dp_record (ms_detail s)) as [r|]; cbn [mbind option_bind]; [|done].
  destruct (bool_decide (key = KeyCode.Enter)) eqn:E.
  - apply bool_decide_eq_true in E as ->. case_match; intros [= <-].
    + by apply execute_detail_action_good.
    + apply copy_field_good.
  - apply bool_decide_eq_false in E. destruct key; try done; apply letters_good.
Qed.

(** *** The keys of the panels *)

Definition routed_good (s : MainScreenState) (r : MainScreen.Routed) : Prop :=
  stable s r.1 ∧ from_option (λ c, deletes c = false) True (mk_command r.2).

Lemma routed_quiet s s' o p : stable s s' → routed_good s (s', mkMainKeyResult o None p).
Proof. by split. Qed.

Lemma routed_detail s s' o p : stable s s' →
  routed_good s (s', mkMainKeyResult o (MainScreen.selected_detail s') p).
Proof. intros Hs. split; [done|]. unfold MainScreen.selected_detail. by destruct (selected_id _). Qed.

Lemma rename_key_good key s : routed_good s (MainScreen.rename_key key s).
Proof.
  destruct key; try (apply routed_quiet, stable_sidebar); try by apply routed_quiet.
  unfold MainScreen.rename_key, MainScreen.confirm_rename.
  set (s1 := MainScreen.on_box _ s). assert (stable s s1) by apply stable_sidebar.
  case_match; [|by apply routed_quiet]. case_match; [|by apply routed_quiet].
  split; [|done]. cbn. etransitivity; [done|apply stable_sidebar].
Qed.

Lemma handle_trash_keys_good key s : routed_good s (MainScreen.handle_trash_keys key s).
Proof.
  unfold MainScreen.handle_trash_keys. case_match; [by apply routed_quiet|].
  case_match; [by apply routed_quiet|]. case_match; [case_match; by apply routed_quiet|].
  case_match; [apply routed_detail, stable_list|].
  case_match; [apply routed_detail, stable_list|by apply routed_quiet].
Qed.

Lemma sort_direction_stable s : stable s (MainScreen.sort_direction s).
Proof. apply stable_same; by destruct s. Qed.

Lemma sort_field_stable s : stable s (MainScreen.sort_field s).
Proof. apply stable_same; by destruct s. Qed.

Lemma resorted_good s0 s : stable s0 s → routed_good s0 (MainScreen.resorted s).
Proof.
  intros Hs. split; [|done]. etransitivity; [exact Hs|]. apply stable_same; by destruct s.
Qed.

Lemma record_key_good key s : routed_good s (MainScreen.record_key key s).
Proof.
  unfold MainScreen.record_key. set (selected := ListPanelState.selected_record _).
  repeat (case_match; [try (by apply routed_quiet)|]).
  - apply routed_quiet, stable_list.
  - apply routed_detail, stable_focus.
  - split; [done|]. by destruct selected.
  - split; [done|]. by destruct selected.
  - split; [done|]. by destruct selected.
  - apply routed_quiet, stable_list.
  - apply routed_quiet, stable_list.
  - apply resorted_good, sort_direction_stable.
  - apply resorted_good, sort_field_stable.
  - by apply routed_quiet.
Qed.

Lemma list_escape_good s : routed_good s (MainScreen.list_escape s).
Proof.
  unfold MainScreen.list_escape. case_match; [apply routed_quiet, stable_list|].
  case_match; [apply routed_quiet, stable_list|].
  destruct (ListPanelState.restore_committed_search _) as [l id].
  split; [apply stable_same; by destruct s|]. by destruct id.
Qed.

Lemma list_panel_key_good key s : routed_good s (MainScreen.list_panel_key key s).
Proof.
  unfold MainScreen.list_panel_key.
  case_match; [apply routed_quiet; repeat case_match; (done || apply stable_list)|].
  case_match; [apply list_escape_good|].
  case_match; [apply routed_quiet, stable_list|].
  case_match; [apply routed_quiet; case_match; apply stable_list|].
  case_match; [apply handle_trash_keys_good|apply record_key_good].
Qed.

Lemma sidebar_panel_key_good key s : routed_good s (MainScreen.sidebar_panel_key key s).
Proof.
  unfold MainScreen.sidebar_panel_key.
  repeat (case_match; [apply routed_quiet; repeat case_match; (done || apply stable_sidebar)|]).
  by apply routed_quiet.
Qed.

Lemma detail_panel_key_good key s : routed_good s (MainScreen.detail_panel_key key s).
Proof.
  unfold MainScreen.detail_panel_key. case_match.
  - apply routed_quiet. etransitivity; [apply (stable_list ListPanelState.exit_visual)|].
    apply stable_focus.
  - case_match; [apply handle_trash_keys_good|by apply routed_quiet].
Qed.

Lemma handle_key_event_good key s p : routed_good s (MainScreen.handle_key_event key s p).
Proof.
  unfold MainScreen.handle_key_event. case_match; [by apply routed_quiet|].
  case_match; [apply rename_key_good|]. destruct p;
    auto using sidebar_panel_key_good, list_panel_key_good, detail_panel_key_good.
Qed.

(** *** All keys *)

Lemma panel_routing_good key s : ensures P (panel_routing (W := W) key s) (good s).
Proof.
  unfold panel_routing. pose proof (handle_key_event_good key s (ms_focused_panel s)) as [Hs Hc].
  destruct (MainScreen.handle_key_event _ _ _) as [s1 result]; cbn in Hs, Hc.
  apply ensures_bind with (Q := stable s).
  - destruct (mk_overlay result) as [overlay|]; [|by apply ensures_ret].
    eapply ensures_bind; [by apply (ens_open_overlay overlay s)|].
    intros r [Hr _]. by apply ensures_ret.
  - intros s2 Hs2. destruct (mk_command result); [by apply ens_command|].
    apply ens_continue. case_match; [|done]. etransitivity; [exact Hs2|apply stable_focus].
Qed.

Lemma edit_selected_good s : ensures P (edit_selected (W := W) s) (good s).
Proof.
  unfold edit_selected. case_match; try by apply ens_continue.
  - destruct (selected_id s); [by apply ens_navigate|by apply ens_continue].
  - destruct (dp_record (ms_detail s)); [by apply ens_navigate|by apply ens_continue].
Qed.

Lemma global_key_good key s : ensures P (global_key (W := W) key s) (good s).
Proof.
  unfold global_key.
  repeat (case_match; [solve [by apply ens_open_generator|by apply ens_navigate
    |by apply ens_open_overlay|by apply ens_command|apply edit_selected_good]|]).
  apply panel_routing_good.
Qed.

Lemma sidebar_enter_good key s m : sidebar_enter (W := W) key s = Some m → ensures P m (good s).
Proof.
  unfold sidebar_enter. repeat case_match; try done; intros [= <-];
    [by apply ens_open_generator|by apply ens_navigate].
Qed.

Lemma sidebar_key_good key s m : sidebar_key (W := W) key s = Some m → ensures P m (good s).
Proof.
  unfold sidebar_key. repeat case_match; try done; intros [= <-]; by apply sidebar_move_good.
Qed.

Lemma panel_key_good key s m : panel_key (W := W) key s = Some m → ensures P m (good s).
Proof.
  unfold panel_key. case_match; [apply sidebar_key_good|apply list_key_good|apply detail_key_good].
Qed.

Lemma or_else_good (o : option (io W Step)) m Q : (∀ m', o = Some m' → ensures P m' Q) →
  ensures P m Q → ensures P (or_else o m) Q.
Proof. intros Ho Hm. destruct o; [by apply Ho|done]. Qed.

(** The only command that deletes is that of a dialog which the key confirms. *)
Definition confirms (key : KeyCode.t) (s : MainScreenState) (c : Command.t) : Prop :=
  ∃ v b, om_active (ms_overlay_manager s) = Some (ActiveOverlay.ConfirmDialog v b) ∧
    confirmed_action v = ScreenResult.Command c ∧
    (key = KeyCode.Char (ch "y") ∨ key = KeyCode.Enter ∧ b = ConfirmButton.Confirm).

Definition asked (key : KeyCode.t) (s : MainScreenState) (r : Step) : Prop :=
  (details_ok (ms_detail s) → details_ok (ms_detail r.1)) ∧
  (∀ c, r.2 = ScreenResult.Command c → deletes c = true → confirms key s c).

Lemma good_asked key s r : good s r → asked key s r.
Proof.
  intros [Hs Hr]. split; [by apply st_details|]. intros c E. rewrite E in Hr. cbn in Hr. congruence.
Qed.

(** A confirmation that a step opens has the focus that it opens with. *)
Definition opens_default (s : MainScreenState) (r : Step) : Prop :=
  om_active (ms_overlay_manager s) = None → ∀ v b,
  om_active (ms_overlay_manager r.1) = Some (ActiveOverlay.ConfirmDialog v b) →
  b = default_confirm_button v.

Definition safe (key : KeyCode.t) (s : MainScreenState) (r : Step) : Prop :=
  asked key s r ∧ opens_default s r.

Lemma good_safe key s r : good s r → safe key s r.
Proof.
  intros Hg. split; [by apply good_asked|]. destruct Hg as [[_ Hd] _]. intros Hn v b E.
  destruct (Hd v b E) as [E'|]; [by rewrite Hn in E'|done].
Qed.

Lemma ens_safe key s m : ensures P m (good s) → ensures P m (safe key s).
Proof. intros Hm. eapply ensures_weaken; [exact Hm|apply good_safe]. Qed.

Lemma manager_key_und key m : preserves P (OverlayManager.handle_key key m).
Proof.
  unfold OverlayManager.handle_key, OverlayManager.handle_active.
  pose proof generator_key_und. solve_preserves.
Qed.

Lemma dismissed_detail s : ms_detail (dismissed s) = ms_detail s.
Proof. by destruct s. Qed.

Lemma result_detail result s : ms_detail (handle_overlay_result result s).1 = ms_detail s.
Proof. destruct result; cbn [handle_overlay_result fst]; by rewrite ?dismissed_detail. Qed.

Lemma overlay_key_safe key s : OverlayManager.is_active (ms_overlay_manager s) = true →
  ensures P (overlay_key (W := W) key s) (safe key s).
Proof.
  intros Ha w r w' Hw (r1 & w1 & E1 & [= <- <-])%io_bind_eq.
  split; [by eapply manager_key_und|]. split; [split|].
  - apply details_same; rewrite result_detail; by destruct s.
  - intros c Hc Hd. destruct r1 as [m result]. destruct result; cbn in Hc; simplify_eq; try done.
    destruct (confirmed_from _ _ _ _ _ _ E1) as (b & Hb & Hk). by exists variant, b.
  - intros Hn. unfold OverlayManager.is_active in Ha. by rewrite Hn in Ha.
Qed.

Lemma handle_key_safe key s : ensures P (handle_key (W := W) key s) (safe (ke_code key) s).
Proof.
  unfold handle_key. case_match; [by apply overlay_key_safe|]. apply ens_safe.
  case_match; [apply search_key_good|]. case_match.
  { apply ens_continue. etransitivity; [apply (stable_focus PanelId.List)|apply stable_list]. }
  apply or_else_good; [intros m; case_match; [apply sidebar_enter_good|done]|].
  apply or_else_good; [apply global_navigation_good|].
  apply or_else_good; [apply panel_key_good|apply global_key_good].
Qed.

(** *** The mouse *)

Lemma scroll_sidebar_stable up r row s : stable s (scroll_sidebar up r row s).
Proof. unfold scroll_sidebar. case_match; [apply at_sidebar|done]. Qed.

Lemma scroll_list_good up s : ensures P (scroll_list (W := W) up s) (good s).
Proof.
  unfold scroll_list. set (s1 := on_list _ _). assert (stable s s1) as Hs.
  { etransitivity; [apply (stable_focus PanelId.List)|apply stable_list]. }
  destruct (if up then None else _) as [[s2 cmd]|] eqn:E; [|by apply ens_detail_or_continue].
  destruct up; [done|]. apply load_more_good in E as [Hs2 Hc]. apply ens_command; [done|].
  by etransitivity.
Qed.

Lemma handle_scroll_good up column row area s :
  ensures P (handle_scroll (W := W) up column row area s) (good s).
Proof.
  unfold handle_scroll. case_match; [apply ens_continue, scroll_sidebar_stable|].
  case_match; [apply scroll_list_good|].
  case_match; apply ens_continue; [apply stable_focus|done].
Qed.

Lemma click_sidebar_good r row s0 s : stable s0 s →
  ensures P (click_sidebar (W := W) r row s) (good s0).
Proof.
  intros Hs. unfold click_sidebar. case_match; [|by apply ens_continue].
  case_match; [by apply sidebar_move_good|by apply ens_continue].
Qed.

Lemma sorted_good s0 s : stable s0 s →
  ensures P (let '(s, cmd) := reload_record_list_command s in command_ (W := W) cmd s) (good s0).
Proof.
  intros Hs. apply ens_command; [done|]. etransitivity; [exact Hs|].
  apply stable_same; by destruct s.
Qed.

Lemma click_list_good r is_click column row s0 s : stable s0 s →
  ensures P (click_list (W := W) r is_click column row s) (good s0).
Proof.
  intros Hs. unfold click_list. case_match.
  - case_match; [|by apply ens_continue]. apply sorted_good. etransitivity; [exact Hs|].
    case_match; [apply sort_field_stable|apply sort_direction_stable].
  - case_match; [by apply ens_continue|]. case_match; [|by apply ens_continue].
    case_match; [by apply ens_continue|]. apply ens_command; [done|].
    etransitivity; [exact Hs|apply stable_list].
Qed.

Lemma click_detail_good r is_click column row s0 s : stable s0 s →
  ensures P (click_detail (W := W) r is_click column row s) (good s0).
Proof.
  intros Hs. unfold click_detail. case_match; [|by apply ens_continue].
  set (s1 := on_detail _ s). assert (stable s0 s1) as Hs1.
  { etransitivity; [exact Hs|]. apply stable_detail. intros ?. apply set_action_details. }
  repeat case_match; try by apply ens_continue. by apply execute_detail_action_good.
Qed.

Lemma handle_pointer_good is_click column row area s :
  ensures P (handle_pointer (W := W) is_click column row area s) (good s).
Proof.
  pose proof (λ p, stable_focus p s) as Hf. unfold handle_pointer.
  case_match; [case_match; [by apply click_sidebar_good|by apply ens_continue]|].
  case_match; [case_match; [by apply click_list_good|by apply ens_continue]|].
  case_match; [by apply click_detail_good|by apply ens_continue].
Qed.

Lemma handle_mouse_good event area s : ensures P (handle_mouse (W := W) event area s) (good s).
Proof.
  unfold handle_mouse. case_match; auto using handle_pointer_good, handle_scroll_good.
  by apply ens_continue.
Qed.

Lemma show_overlay_good config overlay s :
  ensures P (show_overlay (W := W) config overlay s) (good s).
Proof.
  unfold show_overlay. apply ensures_bind with (Q := λ r, dialogs (ms_overlay_manager s) r.1).
  - destruct overlay; try apply open_ensures. apply open_generator_ensures.
  - intros r Hr. by apply ens_continue, stable_overlay.
Qed.

(** The key of a message. *)
Definition message_key (msg : Message.t) : KeyCode.t :=
  match msg with Message.KeyEvent key => ke_code key | _ => KeyCode.Other end.

Lemma update_safe config msg s :
  ensures P (update (W := W) config msg s) (safe (message_key msg) s).
Proof.
  destruct msg as [result| | | | | | | |]; unfold update; [|apply handle_key_safe|apply ens_safe..];
    [apply ens_safe; destruct result; try (by apply ens_continue); apply on_result_good|..].
  - apply handle_mouse_good.
  - apply ens_continue, stable_same; by destruct s.
  - apply show_overlay_good.
  - apply ens_continue, stable_closed; [left|right]; by destruct s.
  - apply ens_continue, stable_same; by destruct s.
  - by apply ens_continue.
  - by apply ens_continue.
Qed.

End walk.

(** ** Sessions *)

Section sessions.
Context {W : Type} `{CommandQueue W} `{Rng W} `{System W} `{Translations} `{Lowercase}.

(** The screen from the moment that it is shown on, with the messages it gets. *)
Definition session (config : AppConfig) (msgs : list Message.t) : io W MainScreenState :=
  let* s := on_mount config MainScreenState.new in updates config msgs s.

#[local] Instance undisturbed_any : Undisturbed (λ _ : W, True).
Proof. by split. Qed.

Lemma updates_details config msgs s : details_ok (ms_detail s) →
  ensures (W := W) (λ _, True) (updates config msgs s) (λ s', details_ok (ms_detail s')).
Proof.
  revert s. induction msgs as [|msg msgs IH]; intros s Hs; [by apply ensures_ret|].
  eapply ensures_bind; [apply (update_safe _ config msg s)|]. intros r [[Hr _] _].
  apply IH. by apply Hr.
Qed.

Lemma on_mount_details config s : details_ok (ms_detail s) →
  ensures (W := W) (λ _, True) (on_mount config s) (λ s', details_ok (ms_detail s')).
Proof.
  intros Hs. unfold on_mount. set (s1 := if sc_health_check_enabled _ then _ else _).
  assert (details_ok (ms_detail s1)) as Hs1.
  { subst s1. destruct s as [? ? d]. case_match; cbn in *; by destruct d. }
  eapply ensures_bind; [by apply (reload_stable _ s1 s1)|]. intros s2 Hs2.
  apply (ens_then_send _ Command.LoadTags); [done|]. apply ensures_ret. by apply Hs2.
Qed.

(** C30: Whatever messages the main screen gets, in which order ever, while the secrets of the
    details are marked as hidden every password, key and passphrase among their fields has a
    mask for a value, and while they are marked as shown every field other than those shows
    its own text. *)
Theorem secrets_stay_masked config msgs w s w' : session config msgs w = (s, w') →
  let d := ms_detail s in
  (∀ f, f ∈ DetailPanelState.fields d → is_secret (df_kind f) = true →
     df_value f = FieldValue.Masked ∨
     (dp_password_visible d = true ∧ ∃ v, df_value f = FieldValue.Revealed v)) ∧
  (∀ f, f ∈ DetailPanelState.fields d → is_secret (df_kind f) = false →
     ∃ v, df_value f = FieldValue.Plain v).
Proof.
  intros E d.
  assert (ensures (W := W) (λ _, True) (session config msgs) (λ s', details_ok (ms_detail s')))
    as Hok.
  { eapply ensures_bind; [apply on_mount_details, details_initial|]. intros. by apply updates_details. }
  destruct (Hok w s w' I E) as [_ [Hf Hh]].
  split; intros f Hin Hk; pose proof (proj1 (Forall_forall _ _) Hf f Hin) as [_ Hv];
    rewrite Hk in Hv; [|done].
  destruct (dp_password_visible d) eqn:Ed; [intuition|left].
  pose proof (proj1 (Forall_forall _ _) (Hh Ed) f Hin) as [_ Hm]. by rewrite Hk in Hm.
Qed.

(** C29: A command that deletes comes from the main screen only as the answer to a key, the one
    for yes or that which presses the button to confirm, in an open dialog that asks for
    exactly this; nothing that deletes goes to the executor besides ([P] of the world is any
    property that commands that do not delete keep); and a dialog that asks for what cannot
    be undone is open with the focus on the way out. *)
Theorem deletion_confirmed (P : W → Prop) `{!Undisturbed P} config msg s w s' r w' :
  P w → update config msg s w = ((s', r), w') →
  P w' ∧
  (∀ c, r = ScreenResult.Command c → deletes c = true →
     ∃ key, msg = Message.KeyEvent key ∧ confirms (ke_code key) s c) ∧
  (∀ v b, om_active (ms_overlay_manager s) = None →
     om_active (ms_overlay_manager s') = Some (ActiveOverlay.ConfirmDialog v b) →
     irreversible v = true → b = ConfirmButton.Cancel).
Proof.
  intros Hw E. destruct (update_safe P config msg s w _ _ Hw E) as (Hw' & [_ Ha] & Ho).
  split; [done|]. split.
  - intros c Hr Hc. pose proof (Ha c Hr Hc) as Hk. destruct msg; try by eexists.
    all: by destruct Hk as (v & b & _ & _ & [|[]]).
  - intros v b Hn Hs Hv. rewrite (Ho Hn v b Hs). by destruct v.
Qed.

(** The retention that [on_mount] puts into the details is lost with the first record. *)
Lemma retention_forgotten record strength issue s w r w' :
  on_detail_loaded record strength issue s w = (r, w') →
  dp_trash_retention_days (ms_detail r.1) = 30%Z.
Proof. intros (time & w1 & _ & [= <- _])%io_bind_eq. by destruct s. Qed.

(** ** The box for a new name *)

Definition box (s : MainScreenState) : option InlineEditState :=
  tg_inline_edit (sb_tag_management (ms_sidebar s)).

Definition no_modifiers : KeyModifiers := mkKeyModifiers false false false false false.

Definition typed (c : Z) : Message.t :=
  Message.KeyEvent (mkKeyEvent (KeyCode.Char c) no_modifiers).

(** The letters that are shortcuts of the screen. *)
Definition taken (c : Z) (s : MainScreenState) : bool :=
  bool_decide (c ∈ [ch "g"; ch "l"; ch "q"; ch "?"; ch "p"])
  || (negb (bool_decide (ms_current_filter s = RecordFilter.Trash))
      && bool_decide (c ∈ [ch "n"; ch "e"])).

(** Dialogs open beside the sidebar. *)
Lemma open_overlay_sidebar overlay s w r w' :
  open_overlay overlay s w = (r, w') → ms_sidebar r.1 = ms_sidebar s.
Proof. intros (o & w1 & _ & [= <- _])%io_bind_eq. by destruct s. Qed.

Lemma open_generator_sidebar s w r w' :
  open_generator s w = (r, w') → ms_sidebar r.1 = ms_sidebar s.
Proof. intros (o & w1 & _ & [= <- _])%io_bind_eq. by destruct s. Qed.

Lemma routed_sidebar key s w r w' : panel_routing key s w = (r, w') →
  ms_sidebar r.1 = ms_sidebar (MainScreen.handle_key_event key s (ms_focused_panel s)).1.
Proof.
  unfold panel_routing. destruct (MainScreen.handle_key_event _ _ _) as [s1 result]; cbn [fst].
  intros (s2 & w1 & E1 & E2)%io_bind_eq.
  assert (ms_sidebar s2 = ms_sidebar s1) as <-.
  { destruct (mk_overlay result); [|by injection E1 as <- _].
    apply io_bind_eq in E1 as (r1 & w2 & E1 & [= <- _]). by eapply open_overlay_sidebar. }
  destruct (mk_command result); [by injection E2 as <- _|].
  destruct (mk_focused_panel result); injection E2 as <- _; by destruct s2.
Qed.

Lemma char_key c d : is_key d (KeyCode.Char c) = bool_decide (c = ch d).
Proof. apply bool_decide_ext. split; [by intros [= ->]|by intros ->]. Qed.

Lemma edit_selected_sidebar s w r w' :
  edit_selected (W := W) s w = (r, w') → ms_sidebar r.1 = ms_sidebar s.
Proof. unfold edit_selected. repeat case_match; by intros [= <- _]. Qed.

(** What the box gets when its panel is asked. *)
Lemma routed_box c s w r w' : is_renaming s = true →
  panel_routing (mkKeyEvent (KeyCode.Char c) no_modifiers) s w = (r, w') →
  box r.1 = InlineEditState.insert_char c <$> box s.
Proof.
  intros Hr E%routed_sidebar. unfold box. rewrite E. unfold MainScreen.handle_key_event.
  rewrite Hr. cbn. by destruct s as [[? ? ? ? ? ? ? ? []]].
Qed.

(** While a tag is renamed a letter that is typed is not put into the box for the new name
    if it is a shortcut of the screen, which opens a dialog or another screen instead: g, l, q,
    p and the question mark anywhere, and n and e but in the trash.  Every other character
    gets to the box. *)
Theorem rename_box_misses_letters config c s w s' r w' :
  is_renaming s = true → ms_focused_panel s = PanelId.Sidebar →
  om_active (ms_overlay_manager s) = None →
  update config (typed c) s w = ((s', r), w') →
  box s' = (if taken c s then box s else InlineEditState.insert_char c <$> box s).
Proof.
  intros Hr Hp Hn E.
  assert (handle_key (mkKeyEvent (KeyCode.Char c) no_modifiers) s
    = global_key (mkKeyEvent (KeyCode.Char c) no_modifiers) s) as Hk.
  { unfold handle_key, OverlayManager.is_active, is_search_shortcut, panel_key, sidebar_key,
      sidebar_enter, handle_global_navigation_key. rewrite Hn, Hp, Hr. cbn.
    by rewrite andb_false_r. }
  cbn in E. rewrite Hk in E. clear Hk. unfold global_key, held_control, unmodified in E. revert E.
  cbn [ke_code ke_modifiers km_shift km_control km_alt km_super km_meta no_modifiers orb negb].
  rewrite !andb_false_r, !andb_true_r, !char_key. unfold taken, box.
  destruct (bool_decide (c ∈ _)) eqn:Eg.
  - (* shortcuts anywhere *)
    apply bool_decide_eq_true in Eg. intros E. f_equal. f_equal.
    rewrite !elem_of_cons, elem_of_nil in Eg.
    destruct Eg as [->|[->|[->|[->|[->|[]]]]]]; revert E; cbn -[open_overlay open_generator];
      first [by intros [= <- _]|by intros ?%open_overlay_sidebar|by intros ?%open_generator_sidebar].
  - apply bool_decide_eq_false in Eg. rewrite !not_elem_of_cons in Eg. destruct_and! Eg.
    rewrite !bool_decide_false by done. cbn [orb]. intros E.
    destruct (bool_decide (ms_current_filter s = RecordFilter.Trash)); cbn [negb andb] in *.
    + rewrite !andb_false_r in E. by apply routed_box in E.
    + rewrite !andb_true_r in E. destruct (bool_decide (c ∈ _)) eqn:Ec.
      * apply bool_decide_eq_true in Ec. rewrite !elem_of_cons, elem_of_nil in Ec.
        destruct Ec as [->|[->|[]]]; revert E; cbn -[edit_selected];
          [by intros [= <- _]|intros E%edit_selected_sidebar; cbn in E; by rewrite E].
      * apply bool_decide_eq_false in Ec. rewrite !not_elem_of_cons in Ec. destruct_and! Ec.
        rewrite !bool_decide_false in E by done. by apply routed_box in E.
Qed.

End sessions.
