(* ===== verification/FormState.v ===== *)
(** * The record form (src/tui/state/form_state.rs, src/tui/components/textarea.rs,
    src/tui/screens/form/validation.rs)

    The fields of a record while it is created or edited, the focus among them, their
    limits, what is checked before they are saved, and the payload they make.  The crate
    [tui_textarea] and the calendar of [chrono] are interfaces; [tag_autocomplete] and
    [generator_expanded] are never set by the code, and left out. *)

From Stdlib Require Import Ascii.
From S2P Require Import Prelude Text Env Types Payload Password Opening Backup Formats.
From S2P Require Import DetailPanel Overlays.

(** ** The notes ([tui_textarea::TextArea]) *)

Module CursorMove.
Inductive t : Set := Forward | Back | Up | Down.
End CursorMove.

Class TextAreaLib : Type := {
  TextArea : Type;
  ta_default : TextArea;
  ta_lines : TextArea → list string;
  ta_cursor : TextArea → nat * nat;
  ta_move_cursor : CursorMove.t → TextArea → TextArea;
  ta_insert_char : Z → TextArea → TextArea;
  ta_insert_newline : TextArea → TextArea;
  ta_insert_str : string → TextArea → TextArea;
  ta_delete_char : TextArea → TextArea;
  ta_delete_next_char : TextArea → TextArea;
  ta_select_all : TextArea → TextArea;
}.

(** An area starts with one empty line and is left with it when all of it is deleted; a
    text without carriage returns that is inserted there is its whole content. *)
Class TextAreaLaws `{TextAreaLib} : Prop := {
  ta_default_lines : ta_lines ta_default = [""];
  ta_delete_all t : ta_lines (ta_delete_char (ta_select_all t)) = [""];
  ta_insert_into_empty t s :
    ta_lines t = [""] → 13%Z ∉ chars s → join newline (ta_lines (ta_insert_str s t)) = s;
}.

Section textarea.
Context `{TextAreaLib}.

Definition cursor_has_line_above (t : TextArea) : bool := 0 <? (ta_cursor t).1.
Definition cursor_has_line_below (t : TextArea) : bool :=
  (ta_cursor t).1 + 1 <? length (ta_lines t).

Definition textarea_text (t : TextArea) : string := join newline (ta_lines t).

Definition set_textarea_text (text : string) (t : TextArea) : TextArea :=
  let t := ta_delete_char (ta_select_all t) in
  if bool_decide (text = "") then t else ta_insert_str text t.

Definition TEXTAREA_MIN_VISIBLE_LINES : Z := 3.
Definition TEXTAREA_MAX_VISIBLE_LINES : Z := 8.

Definition visible_rows (t : TextArea) : Z :=
  Z.max TEXTAREA_MIN_VISIBLE_LINES (Z.min TEXTAREA_MAX_VISIBLE_LINES
    (Z.of_nat (Nat.max 1 (length (ta_lines t))) mod 2 ^ 16)).

End textarea.

(** ** Dates ([chrono::NaiveDate])

    A date is its number of days from 1970-01-01. *)

Class Calendar (W : Type) : Type := {
  from_ymd_opt : Z → Z → Z → option Z;
  parse_ymd : string → option Z;
  local_today : io W Z;
}.

(** [and_hms_opt(0, 0, 0)] in UTC. *)
Definition midnight (day : Z) : Instant := day * 86400 * nanos_per_sec.

Definition days (n : Z) : Duration := n * 86400 * nanos_per_sec.

(** ** The parts of a form *)

Module FormMode.
Inductive t : Set := Create | Edit (record_id : Uuid).
End FormMode.

Module PasswordFieldFocus.
Inductive t : Set := Input | Show | Copy | Generate | Paste.
#[global] Instance t_eq_dec : EqDecision t.
Proof. solve_decision. Defined.
End PasswordFieldFocus.

Module FormFooterButton.
Inductive t : Set := Save | Cancel.
End FormFooterButton.

Module ExpiryOption.
Inductive t : Set := Never | Days30 | Days90 | Year1 | Custom.
#[global] Instance t_eq_dec : EqDecision t.
Proof. solve_decision. Defined.

(** Without the labels. *)
Definition all_options : list t := [Never; Days30; Days90; Year1; Custom].

Definition to_datetime {W} `{System W} (o : t) : io W (option Instant) :=
  match o with
  | Never | Custom => io_ret None
  | Days30 => let* n := now in io_ret (Some (n + days 30)%Z)
  | Days90 => let* n := now in io_ret (Some (n + days 90)%Z)
  | Year1 => let* n := now in io_ret (Some (n + days 365)%Z)
  end.
End ExpiryOption.

Record DropdownState : Set := mkDropdownState { dd_expanded : bool; dd_selected_index : nat }.

#[export] Instance eta_DropdownState : Eta DropdownState := λ d,
  mkDropdownState (dd_expanded d) (dd_selected_index d).

Record ValidationError : Set := mkValidationError { ve_field_index : nat; ve_message : string }.

(** [t!] with numbers for the placeholders of the text. *)
Class Messages : Type := message : string → list (string * N) → string.

(** A [SensitiveInput] is its text. *)
Record FormFields `{TextAreaLib} : Type := mkFormFields {
  fd_name : string;
  fd_url : string;
  fd_username : option string;
  fd_password : option string;
  fd_password_visible : bool;
  fd_strength : option PasswordStrength;
  fd_app_id : option string;
  fd_secret_key : option string;
  fd_secret_visible : bool;
  fd_public_key : option string;
  fd_private_key : option string;
  fd_private_visible : bool;
  fd_passphrase : option string;
  fd_passphrase_visible : bool;
  fd_expires_at : ExpiryOption.t;
  fd_custom_date : option string;
  fd_tags : list string;
  fd_tag_input : string;
  fd_tag_focus : option nat;
  fd_notes : TextArea;
}.

#[export] Instance eta_FormFields `{TextAreaLib} : Eta FormFields := λ f,
  mkFormFields _ (fd_name f) (fd_url f) (fd_username f) (fd_password f) (fd_password_visible f)
    (fd_strength f) (fd_app_id f) (fd_secret_key f) (fd_secret_visible f) (fd_public_key f)
    (fd_private_key f) (fd_private_visible f) (fd_passphrase f) (fd_passphrase_visible f)
    (fd_expires_at f) (fd_custom_date f) (fd_tags f) (fd_tag_input f) (fd_tag_focus f)
    (fd_notes f).

(** Where the fields that a type may have are among its fields. *)
Definition expiry_field_index (ct : CredentialType.t) : nat :=
  match ct with
  | CredentialType.Login | CredentialType.Api => 5
  | CredentialType.Ssh => 6
  | CredentialType.SecureNote => 3
  end.

Definition tags_field_index (ct : CredentialType.t) : nat :=
  match ct with
  | CredentialType.Login | CredentialType.Api => 6
  | CredentialType.Ssh => 7
  | CredentialType.SecureNote => 4
  end.

Definition notes_field_index (ct : CredentialType.t) : nat :=
  match ct with
  | CredentialType.Login | CredentialType.Api => 7
  | CredentialType.Ssh => 8
  | CredentialType.SecureNote => 2
  end.

(** The number of fields, with the type itself. *)
Definition field_count (ct : CredentialType.t) : nat :=
  match ct with
  | CredentialType.Login | CredentialType.Api => 8
  | CredentialType.Ssh => 9
  | CredentialType.SecureNote => 5
  end.

Module FormFields.
Section s.
Context `{TextAreaLib}.

Definition init_for_type (ct : CredentialType.t) (f : FormFields) : FormFields :=
  match ct with
  | CredentialType.Login =>
      f <| fd_username := Some "" |> <| fd_password := Some "" |> <| fd_password_visible := false |>
  | CredentialType.Api =>
      f <| fd_app_id := Some "" |> <| fd_secret_key := Some "" |> <| fd_secret_visible := false |>
  | CredentialType.Ssh =>
      f <| fd_public_key := Some "" |> <| fd_private_key := Some "" |>
        <| fd_private_visible := false |> <| fd_passphrase := Some "" |>
        <| fd_passphrase_visible := false |>
  | CredentialType.SecureNote => f
  end.

Definition new (ct : CredentialType.t) : FormFields :=
  init_for_type ct
    (mkFormFields _ "" "" None None false None None None false None None false None false
       ExpiryOption.Never None [] "" None ta_default).

Definition update_strength (f : FormFields) : FormFields :=
  match fd_password f with
  | Some pw =>
      f <| fd_strength := if bool_decide (pw = "") then None else Some (evaluate_strength pw) |>
  | None => f
  end.

Definition fields_contains_tag (tag : string) (f : FormFields) : bool :=
  bool_decide (tag ∈ fd_tags f).

(** Whether a tag was added. *)
Definition commit_tag_input (f : FormFields) : bool * FormFields :=
  let tag := trim (fd_tag_input f) in
  let f := f <| fd_tag_input := "" |> in
  if bool_decide (tag = "") || (MAX_TAGS_PER_RECORD <=? N.of_nat (length (fd_tags f)))%N
     || (MAX_TAG_CHARS <? char_count tag)%N || fields_contains_tag tag f
  then (false, f)
  else (true, f <| fd_tags ::= λ l, l ++ [tag] |> <| fd_tag_focus := None |>).

Definition focus_tag (index : nat) (f : FormFields) : bool * FormFields :=
  match fd_tags f with
  | [] => (false, f <| fd_tag_focus := None |>)
  | tags =>
      (true, f <| fd_tag_input := "" |> <| fd_tag_focus := Some (Nat.min index (length tags - 1)) |>)
  end.

Definition tags_navigable (f : FormFields) : bool :=
  negb (bool_decide (fd_tags f = [])) && bool_decide (fd_tag_input f = "").

Definition focus_prev_tag (f : FormFields) : bool * FormFields :=
  if tags_navigable f
  then (true, f <| fd_tag_focus ::= λ focus,
                   Some (from_option pred (length (fd_tags f) - 1) focus) |>)
  else (false, f <| fd_tag_focus := None |>).

Definition focus_next_tag (f : FormFields) : bool * FormFields :=
  if tags_navigable f
  then (true, f <| fd_tag_focus ::= λ focus,
                   Some (from_option (λ i, Nat.min (i + 1) (length (fd_tags f) - 1)) 0 focus) |>)
  else (false, f <| fd_tag_focus := None |>).

Definition remove_focused_tag (f : FormFields) : bool * FormFields :=
  match fd_tag_focus f with
  | None => (false, f)
  | Some index =>
      if length (fd_tags f) <=? index then (false, f <| fd_tag_focus := None |>)
      else
        let tags := delete index (fd_tags f) in
        (true, f <| fd_tags := tags |>
                 <| fd_tag_focus := if bool_decide (tags = []) then None
                                    else Some (Nat.min index (length tags - 1)) |>)
  end.

Definition notes_text (f : FormFields) : string := textarea_text (fd_notes f).

Definition set_notes_text (text : string) (f : FormFields) : FormFields :=
  f <| fd_notes ::= set_textarea_text text |>.

Definition is_textarea_field (field_idx : nat) (ct : CredentialType.t) : bool :=
  field_idx =? notes_field_index ct.

End s.
End FormFields.

(** ** The form *)

Record FormState `{TextAreaLib} : Type := mkFormState {
  fm_mode : FormMode.t;
  fm_credential_type : CredentialType.t;
  fm_fields : FormFields;
  fm_focused_field : nat;
  fm_has_changes : bool;
  fm_validation_errors : list ValidationError;
  fm_expiry_dropdown : DropdownState;
  fm_credential_dropdown : DropdownState;
  fm_show_weak_password_dialog : bool;
  fm_weak_dialog_focus : nat;
  fm_show_unsaved_dialog : bool;
  fm_unsaved_dialog_focus : nat;
  fm_password_sub_focus : PasswordFieldFocus.t;
  fm_footer_focus : option FormFooterButton.t;
  fm_saving : bool;
  fm_saving_tick : Z;
}.

#[export] Instance eta_FormState `{TextAreaLib} : Eta FormState := λ s,
  mkFormState _ (fm_mode s) (fm_credential_type s) (fm_fields s) (fm_focused_field s)
    (fm_has_changes s) (fm_validation_errors s) (fm_expiry_dropdown s)
    (fm_credential_dropdown s) (fm_show_weak_password_dialog s) (fm_weak_dialog_focus s)
    (fm_show_unsaved_dialog s) (fm_unsaved_dialog_focus s) (fm_password_sub_focus s)
    (fm_footer_focus s) (fm_saving s) (fm_saving_tick s).

Module FormState.
Section s.
Context `{TextAreaLib}.
Import PasswordFieldFocus.

Definition first_field (mode : FormMode.t) : nat :=
  match mode with FormMode.Create => 0 | FormMode.Edit _ => 1 end.

Definition new (mode : FormMode.t) (ct : CredentialType.t) : FormState :=
  mkFormState _ mode ct (FormFields.new ct) (first_field mode) false []
    (mkDropdownState false 0) (mkDropdownState false 0) false 0 false 0 Input None false 0.

Definition new_create : FormState := new FormMode.Create CredentialType.Login.

Definition new_edit (record_id : Uuid) (ct : CredentialType.t) : FormState :=
  new (FormMode.Edit record_id) ct.

Definition first_focusable_field (s : FormState) : nat := first_field (fm_mode s).

Definition start_saving (s : FormState) : FormState :=
  s <| fm_saving := true |> <| fm_saving_tick := 0%Z |> <| fm_footer_focus := None |>
    <| fm_credential_dropdown ::= λ d, d <| dd_expanded := false |> |>
    <| fm_expiry_dropdown ::= λ d, d <| dd_expanded := false |> |>
    <| fm_show_weak_password_dialog := false |> <| fm_show_unsaved_dialog := false |>.

Definition finish_saving (s : FormState) : FormState :=
  s <| fm_saving := false |> <| fm_saving_tick := 0%Z |>.

Definition tick_saving (s : FormState) : FormState :=
  if fm_saving s then s <| fm_saving_tick ::= λ n, ((n + 1) mod 2 ^ 64)%Z |> else s.

Definition is_credential_type_editable (s : FormState) : bool :=
  match fm_mode s with FormMode.Create => true | FormMode.Edit _ => false end.

(** What the types share is kept. *)
Definition switch_credential_type (ct : CredentialType.t) (s : FormState) : FormState :=
  if is_credential_type_editable s then
    let old := fm_fields s in
    s <| fm_credential_type := ct |>
      <| fm_fields := FormFields.set_notes_text (FormFields.notes_text old)
           ((FormFields.new ct) <| fd_name := fd_name old |> <| fd_url := fd_url old |>
              <| fd_expires_at := fd_expires_at old |> <| fd_tags := fd_tags old |>) |>
      <| fm_focused_field := 0 |> <| fm_footer_focus := None |> <| fm_has_changes := true |>
  else s.

Definition inline_buttons (s : FormState) : option (list PasswordFieldFocus.t) :=
  match fm_footer_focus s with
  | Some _ => None
  | None =>
      match fm_credential_type s, fm_focused_field s with
      | CredentialType.Login, 4 => Some [Generate; Show; Copy]
      | CredentialType.Api, 4 => Some [Show; Copy]
      | CredentialType.Ssh, 3 => Some [Paste; Copy]
      | CredentialType.Ssh, (4 | 5) => Some [Show; Paste; Copy]
      | _, _ => None
      end
  end.

(** The place of a button among those of the field. *)
Definition button_position (button : PasswordFieldFocus.t) (buttons : list PasswordFieldFocus.t)
  : option nat := fst <$> list_find (λ b, b = button) buttons.

(** The form after the focus moved, when it could. *)
Definition sub_focus_next (s : FormState) : option FormState :=
  let moved button := s <| fm_password_sub_focus := button |> in
  match inline_buttons s with
  | Some buttons =>
      if bool_decide (fm_password_sub_focus s = Input) then moved <$> head buttons
      else
        match button_position (fm_password_sub_focus s) buttons with
        | Some idx => moved <$> buttons !! (idx + 1)
        | None => None
        end
  | None => None
  end.

Definition sub_focus_prev (s : FormState) : option FormState :=
  let moved button := s <| fm_password_sub_focus := button |> in
  match inline_buttons s with
  | Some buttons =>
      match button_position (fm_password_sub_focus s) buttons with
      | Some (S idx) => moved <$> buttons !! idx
      | Some O => Some (moved Input)
      | None => None
      end
  | None => None
  end.

Definition current_field_visible (s : FormState) : bool :=
  let f := fm_fields s in
  match fm_credential_type s, fm_focused_field s with
  | CredentialType.Login, 4 => fd_password_visible f
  | CredentialType.Api, 4 => fd_secret_visible f
  | CredentialType.Ssh, 4 => fd_private_visible f
  | CredentialType.Ssh, 5 => fd_passphrase_visible f
  | _, _ => false
  end.

Definition toggle_current_visibility (s : FormState) : FormState :=
  s <| fm_fields ::= λ f,
    match fm_credential_type s, fm_focused_field s with
    | CredentialType.Login, 4 => f <| fd_password_visible ::= negb |>
    | CredentialType.Api, 4 => f <| fd_secret_visible ::= negb |>
    | CredentialType.Ssh, 4 => f <| fd_private_visible ::= negb |>
    | CredentialType.Ssh, 5 => f <| fd_passphrase_visible ::= negb |>
    | _, _ => f
    end |>.

Definition current_secret_value (s : FormState) : option string :=
  let f := fm_fields s in
  match fm_credential_type s, fm_focused_field s with
  | CredentialType.Login, 4 => fd_password f
  | CredentialType.Api, 4 => fd_secret_key f
  | CredentialType.Ssh, 3 => fd_public_key f
  | CredentialType.Ssh, 4 => fd_private_key f
  | CredentialType.Ssh, 5 => fd_passphrase f
  | _, _ => None
  end.

(** What every move of the focus to another field resets. *)
Definition leave_field (s : FormState) : FormState :=
  s <| fm_password_sub_focus := Input |> <| fm_fields ::= λ f, f <| fd_tag_focus := None |> |>.

Definition focus_next (s : FormState) : FormState :=
  match fm_footer_focus s with
  | Some _ => leave_field (s <| fm_footer_focus := Some FormFooterButton.Cancel |>)
  | None =>
      if fm_focused_field s <? field_count (fm_credential_type s) - 1
      then leave_field (s <| fm_focused_field ::= S |>)
      else leave_field (s <| fm_footer_focus := Some FormFooterButton.Save |>)
  end.

Definition focus_prev (s : FormState) : FormState :=
  match fm_footer_focus s with
  | Some FormFooterButton.Cancel =>
      leave_field (s <| fm_footer_focus := Some FormFooterButton.Save |>)
  | Some FormFooterButton.Save =>
      leave_field (s <| fm_footer_focus := None |>
                     <| fm_focused_field := field_count (fm_credential_type s) - 1 |>)
  | None =>
      if first_focusable_field s <? fm_focused_field s
      then leave_field (s <| fm_focused_field ::= pred |>) else s
  end.

Definition focus_field (field_index : nat) (s : FormState) : FormState :=
  let field := Nat.min (Nat.max field_index (first_focusable_field s))
                 (field_count (fm_credential_type s) - 1) in
  let s := s <| fm_focused_field := field |> <| fm_footer_focus := None |>
             <| fm_password_sub_focus := Input |> in
  if field =? tags_field_index (fm_credential_type s) then s
  else s <| fm_fields ::= λ f, f <| fd_tag_focus := None |> |>.

(** Without the name of the field. *)
Definition current_field_char_limit (s : FormState) : option N :=
  let ct := fm_credential_type s in
  match fm_footer_focus s with
  | Some _ => None
  | None =>
      match fm_focused_field s, ct with
      | 1, _ => Some MAX_RECORD_NAME_CHARS
      | 2, CredentialType.SecureNote => Some MAX_SECURE_NOTE_CHARS
      | 2, _ => Some MAX_URL_CHARS
      | 3, CredentialType.Login => Some MAX_LOGIN_USERNAME_CHARS
      | 3, CredentialType.Api => Some MAX_API_APP_ID_CHARS
      | 3, CredentialType.Ssh => Some MAX_SSH_PUBLIC_KEY_CHARS
      | 3, CredentialType.SecureNote => None
      | 4, CredentialType.Login => Some MAX_LOGIN_PASSWORD_CHARS
      | 4, CredentialType.Api => Some MAX_API_SECRET_CHARS
      | 4, CredentialType.Ssh => Some MAX_SSH_PRIVATE_KEY_CHARS
      | 4, CredentialType.SecureNote => Some MAX_TAG_CHARS
      | 5, CredentialType.Ssh => Some MAX_SSH_PASSPHRASE_CHARS
      | focused, _ =>
          if focused =? tags_field_index ct then Some MAX_TAG_CHARS
          else if FormFields.is_textarea_field focused ct then Some MAX_NOTES_CHARS
          else None
      end
  end.

Definition current_field_char_count (s : FormState) : N :=
  let ct := fm_credential_type s in
  let f := fm_fields s in
  match fm_focused_field s, ct with
  | 1, _ => char_count (fd_name f)
  | 2, CredentialType.SecureNote => char_count (FormFields.notes_text f)
  | 2, _ => char_count (fd_url f)
  | 3, CredentialType.Login => from_option char_count 0%N (fd_username f)
  | 3, CredentialType.Api => from_option char_count 0%N (fd_app_id f)
  | 3, CredentialType.Ssh => from_option char_count 0%N (fd_public_key f)
  | 3, CredentialType.SecureNote => 0%N
  | 4, CredentialType.Login => from_option char_count 0%N (fd_password f)
  | 4, CredentialType.Api => from_option char_count 0%N (fd_secret_key f)
  | 4, CredentialType.Ssh => from_option char_count 0%N (fd_private_key f)
  | 4, CredentialType.SecureNote => char_count (fd_tag_input f)
  | 5, CredentialType.Ssh => from_option char_count 0%N (fd_passphrase f)
  | focused, _ =>
      if focused =? tags_field_index ct then char_count (fd_tag_input f)
      else if FormFields.is_textarea_field focused ct then char_count (FormFields.notes_text f)
      else 0%N
  end.

(** A comma, of ASCII or of full width. *)
Definition is_comma (c : Z) : bool := (c =? ch ",")%Z || (c =? 65292)%Z.

(** The tag field is focused, holds no text, and no tag can be added. *)
Definition tags_full (s : FormState) : bool :=
  (fm_focused_field s =? tags_field_index (fm_credential_type s))
  && bool_decide (fd_tag_input (fm_fields s) = "")
  && (MAX_TAGS_PER_RECORD <=? N.of_nat (length (fd_tags (fm_fields s))))%N.

Definition can_insert_char_into_current_field (c : Z) (s : FormState) : bool :=
  if (fm_focused_field s =? tags_field_index (fm_credential_type s)) && is_comma c then true
  else if tags_full s && negb (is_comma c) then false
  else
    match current_field_char_limit s with
    | Some max => (current_field_char_count s <? max)%N
    | None => true
    end.

Definition clear_current_limit_error (s : FormState) : FormState :=
  s <| fm_validation_errors ::= filter (λ e, ve_field_index e ≠ fm_focused_field s) |>.

Definition set_current_limit_error `{Messages} (s : FormState) : FormState :=
  let s := clear_current_limit_error s in
  let report text :=
    s <| fm_validation_errors ::= λ l, l ++ [mkValidationError (fm_focused_field s) text] |> in
  if tags_full s then
    report (message "tui.form.validation_too_many_tags"
              [("max", MAX_TAGS_PER_RECORD);
               ("actual", N.of_nat (length (fd_tags (fm_fields s))))])
  else
    match current_field_char_limit s with
    | Some max =>
        report (message "tui.form.validation_too_long"
                  [("max", max); ("actual", current_field_char_count s)])
    | None => s
    end.

Definition is_password_weak (s : FormState) : bool :=
  match fd_strength (fm_fields s) with
  | Some strength =>
      bool_decide (ps_level strength = StrengthLevel.VeryWeak)
      || bool_decide (ps_level strength = StrengthLevel.Weak)
  | None => false
  end.

Definition expiry_datetime {W} `{Calendar W} `{System W} (s : FormState)
  : io W (option Instant) :=
  let f := fm_fields s in
  if bool_decide (fd_expires_at f = ExpiryOption.Custom)
  then io_ret (fd_custom_date f ≫= λ date, midnight <$> parse_ymd date)
  else ExpiryOption.to_datetime (fd_expires_at f).

Definition optional_notes (text : string) : option string :=
  if bool_decide (text = "") then None else Some text.

Definition build_payload_snapshot (s : FormState) : EncryptedPayload.t :=
  let f := fm_fields s in
  let notes := optional_notes (FormFields.notes_text f) in
  match fm_credential_type s with
  | CredentialType.Login =>
      EncryptedPayload.Login (fd_name f) (default "" (fd_username f))
        (default "" (fd_password f)) (Some (fd_url f)) notes
  | CredentialType.Api =>
      EncryptedPayload.Api (fd_name f) (default "" (fd_app_id f))
        (default "" (fd_secret_key f)) (Some (fd_url f)) notes
  | CredentialType.Ssh =>
      EncryptedPayload.Ssh (fd_name f) (default "" (fd_public_key f)) (fd_private_key f)
        (fd_passphrase f) notes
  | CredentialType.SecureNote => EncryptedPayload.SecureNote (fd_name f) notes
  end.

(** The payload, and the form from which the text was moved: an input that was moved is
    empty, an option that was taken is none. *)
Definition build_payload (s : FormState) : EncryptedPayload.t * FormState :=
  let moved (f : FormFields) :=
    match fm_credential_type s with
    | CredentialType.Login =>
        f <| fd_name := "" |> <| fd_username := None |>
          <| fd_password ::= fmap (λ _, "") |> <| fd_url := "" |>
    | CredentialType.Api =>
        f <| fd_name := "" |> <| fd_app_id := None |>
          <| fd_secret_key ::= fmap (λ _, "") |> <| fd_url := "" |>
    | CredentialType.Ssh =>
        f <| fd_name := "" |> <| fd_public_key := None |>
          <| fd_private_key ::= fmap (λ _, "") |> <| fd_passphrase ::= fmap (λ _, "") |>
    | CredentialType.SecureNote => f <| fd_name := "" |>
    end in
  (build_payload_snapshot s, s <| fm_fields ::= moved |>).

Definition clear_sensitive_fields (s : FormState) : FormState :=
  s <| fm_fields ::= λ f,
    f <| fd_password := None |> <| fd_secret_key := None |> <| fd_private_key := None |>
      <| fd_passphrase := None |> <| fd_strength := None |> |>.

Definition textarea_captures_vertical (s : FormState) : bool :=
  match fm_footer_focus s with
  | Some _ => false
  | None =>
      if dd_expanded (fm_expiry_dropdown s) || dd_expanded (fm_credential_dropdown s) then false
      else FormFields.is_textarea_field (fm_focused_field s) (fm_credential_type s)
  end.

End s.
End FormState.

(** ** Validation (tui/screens/form/validation.rs) *)

Module Validation.

(** [s.parse::<i32>()] of a text without a minus sign. *)
Definition parse_i32 (s : string) : option Z :=
  match parse_i64 s with
  | Some z => if within (- 2 ^ 31) (2 ^ 31 - 1) z then Some z else None
  | None => None
  end.

Definition is_leap (year : Z) : bool :=
  ((Z.rem year 4 =? 0) && negb (Z.rem year 100 =? 0) || (Z.rem year 400 =? 0))%Z.

(** The last day of a month from 1 to 12. *)
Definition max_day (year month : Z) : Z :=
  if existsb (Z.eqb month) [4; 6; 9; 11]%Z then 30
  else if (month =? 2)%Z then (if is_leap year then 29 else 28)
  else 31.

Section s.
Context {W : Type} `{TextAreaLib} `{Translations} `{Messages} `{Calendar W}.

Definition date_format : string := translate "tui.form.validation_date_format".
Definition invalid_month : string := translate "tui.form.validation_invalid_month".
Definition invalid_day : string := translate "tui.form.validation_invalid_day".

Definition validate_date (date : string) : io W (result () string) :=
  if negb (String.length date =? 10) then io_ret (Err date_format)
  else
    match split_at "-" date with
    | [year; month; day] =>
        match parse_i32 year, parse_u32 month, parse_u32 day with
        | None, _, _ => io_ret (Err date_format)
        | Some _, None, _ => io_ret (Err invalid_month)
        | Some _, Some _, None => io_ret (Err invalid_day)
        | Some year, Some month, Some day =>
            if (month =? 0)%Z || (12 <? month)%Z then io_ret (Err invalid_month)
            else if (day =? 0)%Z || (31 <? day)%Z then io_ret (Err invalid_day)
            else if (max_day year month <? day)%Z then io_ret (Err invalid_day)
            else
              match from_ymd_opt year month day with
              | Some parsed =>
                  let* today := local_today in
                  io_ret (if (parsed <? today)%Z
                          then Err (translate "tui.form.validation_past_date") else Ok ())
              | None => io_ret (Ok ())
              end
        end
    | _ => io_ret (Err date_format)
    end.

Definition validate_month_partial (month_str : string) : option string :=
  if String.length month_str =? 2 then
    match parse_u32 month_str with
    | Some m => if (12 <? m)%Z then Some invalid_month else None
    | None => None
    end
  else None.

Definition validate_day_partial (year_str month_str day_str : string) : option string :=
  if String.length day_str =? 2 then
    match parse_u32 year_str, parse_u32 month_str, parse_u32 day_str with
    | Some year, Some month, Some day =>
        if (month =? 0)%Z || (12 <? month)%Z then None
        else if (max_day year month <? day)%Z then Some invalid_day else None
    | _, _, _ => None
    end
  else None.

Definition required (field_index : nat) : list ValidationError :=
  [mkValidationError field_index (translate "tui.form.validation_required")].

(** A missing field, or one of white space. *)
Definition blank (s : option string) : bool := from_option (λ s, bool_decide (trim s = "")) true s.

Definition push_len_error (field_index : nat) (value : string) (max : N) : list ValidationError :=
  let actual := char_count value in
  if (max <? actual)%N
  then [mkValidationError field_index
          (message "tui.form.validation_too_long" [("max", max); ("actual", actual)])]
  else [].

Definition len_error (field_index : nat) (value : option string) (max : N)
  : list ValidationError :=
  from_option (λ s, push_len_error field_index s max) [] value.

Definition required_text (field_index : nat) (value : option string) (max : N)
  : list ValidationError :=
  (if blank value then required field_index else []) ++ len_error field_index value max.

Definition type_errors (f : FormFields) (ct : CredentialType.t) : list ValidationError :=
  match ct with
  | CredentialType.Login =>
      required_text 3 (fd_username f) MAX_LOGIN_USERNAME_CHARS
      ++ required_text 4 (fd_password f) MAX_LOGIN_PASSWORD_CHARS
  | CredentialType.Api =>
      required_text 3 (fd_app_id f) MAX_API_APP_ID_CHARS
      ++ required_text 4 (fd_secret_key f) MAX_API_SECRET_CHARS
  | CredentialType.Ssh =>
      required_text 3 (fd_public_key f) MAX_SSH_PUBLIC_KEY_CHARS
      ++ len_error 4 (fd_private_key f) MAX_SSH_PRIVATE_KEY_CHARS
      ++ len_error 5 (fd_passphrase f) MAX_SSH_PASSPHRASE_CHARS
  | CredentialType.SecureNote => []
  end.

Definition notes_limit (ct : CredentialType.t) : N :=
  match ct with CredentialType.SecureNote => MAX_SECURE_NOTE_CHARS | _ => MAX_NOTES_CHARS end.

Definition tag_errors (f : FormFields) (ct : CredentialType.t) : list ValidationError :=
  let i := tags_field_index ct in
  let n := N.of_nat (length (fd_tags f)) in
  (if (MAX_TAGS_PER_RECORD <? n)%N
   then [mkValidationError i (message "tui.form.validation_too_many_tags"
           [("max", MAX_TAGS_PER_RECORD); ("actual", n)])]
   else [])
  ++ concat ((λ tag, push_len_error i tag MAX_TAG_CHARS) <$> fd_tags f)
  ++ (if bool_decide (fd_tag_input f = "") then []
      else push_len_error i (fd_tag_input f) MAX_TAG_CHARS).

Definition date_errors (f : FormFields) (ct : CredentialType.t) : io W (list ValidationError) :=
  if bool_decide (fd_expires_at f = ExpiryOption.Custom) then
    match fd_custom_date f with
    | Some date =>
        let* r := validate_date date in
        io_ret match r with
               | Ok _ => []
               | Err msg => [mkValidationError (expiry_field_index ct) msg]
               end
    | None => io_ret [mkValidationError (expiry_field_index ct) date_format]
    end
  else io_ret [].

Definition validate (f : FormFields) (ct : CredentialType.t) : io W (list ValidationError) :=
  let* date := date_errors f ct in
  io_ret (required_text 1 (Some (fd_name f)) MAX_RECORD_NAME_CHARS
          ++ type_errors f ct
          ++ (if bool_decide (ct = CredentialType.SecureNote) then []
              else push_len_error 2 (fd_url f) MAX_URL_CHARS)
          ++ push_len_error (notes_field_index ct) (FormFields.notes_text f) (notes_limit ct)
          ++ tag_errors f ct ++ date).

End s.
End Validation.
