(* ===== verification/FormScreens.v ===== *)
(** * Creating and editing records (src/tui/screens/create_record.rs,
    src/tui/screens/edit_record.rs)

    The two screens with a record form: their keys, the mouse on the first, their dialogs and
    drop-down lists, the generator of passwords inside, and what they send.  Their code is
    the same in most handlers; what they share is the module [RecordForm], and the modules
    of the screens hold the rest.  Drawing is left out, and with it the size of the
    terminal is set where the screen is drawn. *)

From S2P Require Import Prelude Text Errors Env Types Payload Vault Records Tags Password.
From S2P Require Import Listing Executor Generator Health Config ConfigExec Dispatch ListPanel.
From S2P Require Import DetailPanel Overlays MainScreen FormState.

(** The columns a text takes (crate [unicode_width]). *)
Class TextWidth : Type := display_width : string → nat.

Record RecordForm `{TextAreaLib} : Type := mkRecordForm {
  rf_form : FormState;
  rf_generator : EmbeddedGeneratorState;
}.

#[export] Instance eta_RecordForm `{TextAreaLib} : Eta RecordForm := λ p,
  mkRecordForm _ (rf_form p) (rf_generator p).

#[export] Instance eta_EmbeddedGeneratorState : Eta EmbeddedGeneratorState := λ e,
  mkEmbeddedGeneratorState (eg_expanded e) (eg_generator e).

Module RecordForm.
Section s.
Context {W : Type} `{TextAreaLib} `{Translations} `{Messages} `{Rng W} `{CommandQueue W}.
Context `{System W} `{Calendar W}.
Import FormState PasswordFieldFocus.

Definition Step : Type := RecordForm * ScreenResult.t.

Definition stay (p : RecordForm) : io W Step := io_ret (p, ScreenResult.Continue).

Definition on_form (f : FormState → FormState) (p : RecordForm) : RecordForm :=
  p <| rf_form ::= f |>.

Definition on_fields (f : FormFields → FormFields) (p : RecordForm) : RecordForm :=
  on_form (λ s, s <| fm_fields ::= f |>) p.

Definition ct (p : RecordForm) : CredentialType.t := fm_credential_type (rf_form p).
Definition focused (p : RecordForm) : nat := fm_focused_field (rf_form p).
Definition in_footer (p : RecordForm) : bool := bool_decide (is_Some (fm_footer_focus (rf_form p))).

(** ** Typing *)

(** [get_or_insert_with(String::new).push(c)] *)
Definition push_into (c : Z) (s : option string) : option string := Some (push (default "" s) c).

(** The fields with a character more, and whether that is a change. *)
Definition insert_char (focused : nat) (ct : CredentialType.t) (c : Z) (f : FormFields)
  : bool * FormFields :=
  match focused, ct with
  | 1, _ => (true, f <| fd_name ::= λ s, push s c |>)
  | 2, CredentialType.SecureNote => (true, f <| fd_notes ::= ta_insert_char c |>)
  | 2, _ => (true, f <| fd_url ::= λ s, push s c |>)
  | 3, CredentialType.Login => (true, f <| fd_username ::= push_into c |>)
  | 3, CredentialType.Api => (true, f <| fd_app_id ::= push_into c |>)
  | 3, CredentialType.Ssh => (true, f <| fd_public_key ::= push_into c |>)
  | 3, CredentialType.SecureNote => (true, f)
  | 4, CredentialType.Login =>
      (true, FormFields.update_strength (f <| fd_password ::= push_into c |>))
  | 4, CredentialType.Api => (true, f <| fd_secret_key ::= push_into c |>)
  | 4, CredentialType.Ssh => (true, f <| fd_private_key ::= push_into c |>)
  | 4, CredentialType.SecureNote => (true, f)
  | 5, CredentialType.Ssh => (true, f <| fd_passphrase ::= push_into c |>)
  | _, _ =>
      if focused =? tags_field_index ct then
        if is_comma c then FormFields.commit_tag_input f
        else (true, f <| fd_tag_focus := None |> <| fd_tag_input ::= λ s, push s c |>)
      else if focused =? notes_field_index ct
      then (true, f <| fd_notes ::= ta_insert_char c |>)
      else (false, f)
  end.

Definition handle_char_input (c : Z) (p : RecordForm) : io W Step :=
  let s := rf_form p in
  if in_footer p || negb (bool_decide (fm_password_sub_focus s = Input)) then stay p
  else if negb (can_insert_char_into_current_field c s) then
    stay (on_form set_current_limit_error p)
  else
    let '(changed, f) := insert_char (focused p) (ct p) c (fm_fields s) in
    stay (on_form (λ s, clear_current_limit_error
                          (s <| fm_fields := f |> <| fm_has_changes ::= orb changed |>)) p).

(** The fields with a character less, and whether a tag went at once. *)
Definition delete_char (focused : nat) (ct : CredentialType.t) (f : FormFields)
  : bool * FormFields :=
  match focused, ct with
  | 1, _ => (false, f <| fd_name ::= pop |>)
  | 2, CredentialType.SecureNote => (false, f <| fd_notes ::= ta_delete_char |>)
  | 2, _ => (false, f <| fd_url ::= pop |>)
  | 3, CredentialType.Login => (false, f <| fd_username ::= fmap pop |>)
  | 3, CredentialType.Api => (false, f <| fd_app_id ::= fmap pop |>)
  | 3, CredentialType.Ssh => (false, f <| fd_public_key ::= fmap pop |>)
  | 3, CredentialType.SecureNote => (false, f)
  | 4, CredentialType.Login =>
      (false, FormFields.update_strength (f <| fd_password ::= fmap pop |>))
  | 4, CredentialType.Api => (false, f <| fd_secret_key ::= fmap pop |>)
  | 4, CredentialType.Ssh => (false, f <| fd_private_key ::= fmap pop |>)
  | 4, CredentialType.SecureNote => (false, f)
  | 5, CredentialType.Ssh => (false, f <| fd_passphrase ::= fmap pop |>)
  | _, _ =>
      if focused =? tags_field_index ct then
        if bool_decide (fd_tag_input f = "") then FormFields.remove_focused_tag f
        else (false, f <| fd_tag_input ::= pop |>)
      else if focused =? notes_field_index ct then (false, f <| fd_notes ::= ta_delete_char |>)
      else (false, f)
  end.

Definition handle_backspace (p : RecordForm) : io W Step :=
  let s := rf_form p in
  if in_footer p || negb (bool_decide (fm_password_sub_focus s = Input)) then stay p
  else
    let '(removed, f) := delete_char (focused p) (ct p) (fm_fields s) in
    let s := s <| fm_fields := f |> <| fm_has_changes := true |> in
    stay (p <| rf_form := if removed then s else clear_current_limit_error s |>).

Definition is_tags_focused (p : RecordForm) : bool :=
  negb (in_footer p) && (focused p =? tags_field_index (ct p)).

Definition handle_delete (p : RecordForm) : io W Step :=
  let change f := on_form (λ s, s <| fm_fields := f |> <| fm_has_changes := true |>) p in
  let '(removed, f) := if is_tags_focused p
                       then FormFields.remove_focused_tag (fm_fields (rf_form p))
                       else (false, fm_fields (rf_form p)) in
  if removed then stay (change f)
  else if textarea_captures_vertical (rf_form p)
  then stay (change (f <| fd_notes ::= ta_delete_next_char |>))
  else stay (on_fields (λ _, f) p).

(** ** The custom date *)

Definition is_custom_date_focused (p : RecordForm) : bool :=
  (focused p =? expiry_field_index (ct p))
  && bool_decide (fd_expires_at (fm_fields (rf_form p)) = ExpiryOption.Custom).

Definition ends_with_dash (s : string) : bool := bool_decide (last (chars s) = Some (ch "-")).

Definition shorter_date (date : string) : string :=
  if bool_decide (date = "") then date
  else
    let date := pop date in
    if ends_with_dash date then pop date else date.

Definition handle_date_backspace (p : RecordForm) : io W Step :=
  stay (on_form (λ s, s <| fm_fields ::= λ f, f <| fd_custom_date ::= fmap shorter_date |> |>
                        <| fm_has_changes := true |>) p).

Definition date_template : string := "    -  -  ".

(** The digit takes the place of the first space. *)
Definition with_digit (c : Z) (date : string) : string :=
  match list_find (λ x, x = 32%Z) (chars date) with
  | Some (pos, _) => of_chars (<[pos := c]> (chars date))
  | None => date
  end.

Definition handle_date_char (c : Z) (p : RecordForm) : io W Step :=
  if negb (is_ascii_digit c) then stay p
  else
    stay (on_form (λ s,
      s <| fm_fields ::= λ f,
             f <| fd_custom_date ::= λ d, Some (with_digit c (default date_template d)) |> |>
        <| fm_has_changes := true |>) p).

(** ** Leaving and saving *)

Definition cancel_form (p : RecordForm) : io W Step :=
  if fm_has_changes (rf_form p)
  then stay (on_form (λ s, s <| fm_show_unsaved_dialog := true |>
                             <| fm_unsaved_dialog_focus := 0 |>) p)
  else io_ret (p, ScreenResult.NavigateTo Screen.Main).

(** A form with errors points at the first of them; a weak password is asked about. *)
Definition attempt_save (submit : RecordForm → io W Step) (p : RecordForm) : io W Step :=
  let* errors := Validation.validate (fm_fields (rf_form p)) (ct p) in
  match errors with
  | e :: _ =>
      stay (on_form (λ s, s <| fm_validation_errors := errors |>
                            <| fm_focused_field := ve_field_index e |>) p)
  | [] =>
      if bool_decide (ct p = CredentialType.Login) && is_password_weak (rf_form p)
      then stay (on_form (λ s, s <| fm_show_weak_password_dialog := true |>) p)
      else submit p
  end.

(** A command that is on its way, or could not be sent. *)
Definition submit (command : FormState → io W Dispatch.Command.t) (p : RecordForm) : io W Step :=
  let* c := command (rf_form p) in
  let* failed := send_user_command c in
  stay (on_form (λ s,
    if failed : bool then
      s <| fm_validation_errors :=
             [mkValidationError 1 "Action failed: command queue full"] |>
        <| fm_focused_field := 1 |>
    else start_saving s) p).

Definition activate_footer_button (submit : RecordForm → io W Step)
    (button : FormFooterButton.t) (p : RecordForm) : io W Step :=
  match button with
  | FormFooterButton.Save => attempt_save submit p
  | FormFooterButton.Cancel => cancel_form p
  end.

Definition close_weak_dialog (s : FormState) : FormState :=
  s <| fm_show_weak_password_dialog := false |> <| fm_weak_dialog_focus := 0 |>.

Definition handle_weak_password_dialog (submit : RecordForm → io W Step) (key : KeyCode.t)
    (p : RecordForm) : io W Step :=
  match key with
  | KeyCode.Esc => stay (on_form close_weak_dialog p)
  | KeyCode.Left | KeyCode.Tab => stay (on_form (λ s, s <| fm_weak_dialog_focus := 0 |>) p)
  | KeyCode.Right => stay (on_form (λ s, s <| fm_weak_dialog_focus := 1 |>) p)
  | KeyCode.Enter =>
      let p' := on_form close_weak_dialog p in
      if fm_weak_dialog_focus (rf_form p) =? 0 then stay p' else submit p'
  | _ => stay p
  end.

Definition handle_unsaved_dialog (key : KeyCode.t) (p : RecordForm) : io W Step :=
  let leave p := io_ret (p, ScreenResult.NavigateTo Screen.Main) in
  match key with
  | KeyCode.Tab | KeyCode.Right | KeyCode.Left =>
      stay (on_form (λ s, s <| fm_unsaved_dialog_focus ::= λ n, 1 - n |>) p)
  | KeyCode.Enter =>
      if fm_unsaved_dialog_focus (rf_form p) =? 0
      then stay (on_form (λ s, s <| fm_show_unsaved_dialog := false |>) p)
      else leave p
  | _ =>
      if bool_decide (key = KeyCode.Esc) || is_key "n" key then
        stay (on_form (λ s, s <| fm_show_unsaved_dialog := false |>
                              <| fm_unsaved_dialog_focus := 0 |>) p)
      else if is_key "y" key then leave (on_form (λ s, s <| fm_unsaved_dialog_focus := 1 |>) p)
      else stay p
  end.

(** ** The generator *)

Definition on_generator (f : GeneratorState → GeneratorState) (p : RecordForm) : RecordForm :=
  p <| rf_generator ::= λ e, e <| eg_generator ::= f |> |>.

Definition generate_with (f : GeneratorState → io W GeneratorState) (p : RecordForm)
  : io W Step :=
  let* g := f (eg_generator (rf_generator p)) in
  stay (on_generator (λ _, g) p).

Definition expand_from_config (config : AppConfig) (p : RecordForm) : io W Step :=
  let* e := EmbeddedGeneratorState.expand_from_config (generator_defaults (ac_password config)) in
  stay (p <| rf_generator := e |>).

(** The password shown goes into the form. *)
Definition use_password (p : RecordForm) : io W Step :=
  let '(pw, e) := EmbeddedGeneratorState.use_password (rf_generator p) in
  stay (on_form (λ s, s <| fm_fields ::= λ f,
                             FormFields.update_strength (f <| fd_password := Some pw |>) |>
                        <| fm_has_changes := true |>) (p <| rf_generator := e |>)).

Definition toggle_generator_option (idx : nat) (p : RecordForm) : io W Step :=
  match gs_style (eg_generator (rf_generator p)) with
  | GenerationStyle.Random => generate_with (GeneratorState.toggle_char_type idx) p
  | GenerationStyle.Memorable =>
      if idx =? 0 then
        generate_with (λ g, GeneratorState.regenerate
          (g <| gs_memorable_config ::= λ c, c <| mc_capitalize ::= negb |> |>)) p
      else stay p
  | GenerationStyle.Pin => stay p
  end.

Definition generator_focus (p : RecordForm) : GeneratorFocus.t :=
  gs_focus (eg_generator (rf_generator p)).

Definition activate_generator_focus (p : RecordForm) : io W Step :=
  match generator_focus p with
  | GeneratorFocus.ActionButton => use_password p
  | GeneratorFocus.RegenerateButton => generate_with GeneratorState.regenerate p
  | GeneratorFocus.Toggle idx => toggle_generator_option idx p
  | _ => stay p
  end.

Definition embedded_generator_focus_order (g : GeneratorState) : list GeneratorFocus.t :=
  filter (λ f, f ≠ GeneratorFocus.StyleSelector) (GeneratorState.focus_order g).

Definition generator_focus_next (g : GeneratorState) : GeneratorState :=
  g <| gs_focus ::= GeneratorState.cycle (embedded_generator_focus_order g) 1 |>.

Definition generator_focus_prev (g : GeneratorState) : GeneratorState :=
  let order := embedded_generator_focus_order g in
  g <| gs_focus ::= GeneratorState.cycle order (length order - 1) |>.

Definition set_separator (separator : string) (p : RecordForm) : io W Step :=
  generate_with (λ g, GeneratorState.regenerate
    (g <| gs_memorable_config ::= λ c, c <| mc_separator := separator |> |>)) p.

Definition handle_generator_focus_key (key : KeyCode.t) (p : RecordForm) : io W Step :=
  let focus f := stay (on_generator (λ g, g <| gs_focus := f |>) p) in
  match generator_focus p, key with
  | GeneratorFocus.LengthSlider, KeyCode.Left => generate_with GeneratorState.decrement_length p
  | GeneratorFocus.LengthSlider, KeyCode.Right => generate_with GeneratorState.increment_length p
  | (GeneratorFocus.Toggle _ | GeneratorFocus.SeparatorInput), KeyCode.Left =>
      stay (on_generator GeneratorState.focus_prev_toggle p)
  | (GeneratorFocus.Toggle _ | GeneratorFocus.SeparatorInput), KeyCode.Right =>
      stay (on_generator GeneratorState.focus_next_toggle p)
  | GeneratorFocus.SeparatorInput, KeyCode.Char c => set_separator (encode_char c) p
  | GeneratorFocus.SeparatorInput, KeyCode.Backspace => set_separator "-" p
  | GeneratorFocus.RegenerateButton, KeyCode.Right => focus GeneratorFocus.ActionButton
  | GeneratorFocus.ActionButton, KeyCode.Left => focus GeneratorFocus.RegenerateButton
  | _, _ => stay p
  end.

Definition handle_generator_key (key : KeyCode.t) (p : RecordForm) : io W Step :=
  let types_separator := bool_decide (generator_focus p = GeneratorFocus.SeparatorInput) in
  match key with
  | KeyCode.Esc => stay (p <| rf_generator ::= EmbeddedGeneratorState.collapse |>)
  | KeyCode.Down => stay (on_generator GeneratorState.focus_section_down p)
  | KeyCode.Up => stay (on_generator GeneratorState.focus_section_up p)
  | KeyCode.Tab => stay (on_generator generator_focus_next p)
  | KeyCode.BackTab => stay (on_generator generator_focus_prev p)
  | KeyCode.Enter => activate_generator_focus p
  | _ =>
      if is_key "r" key then generate_with GeneratorState.regenerate p
      else if is_key "y" key then
        if types_separator then set_separator "y" p else use_password p
      else if is_key "+" key || is_key "=" key then
        if types_separator then set_separator "+" p
        else generate_with GeneratorState.increment_length p
      else if is_key "-" key then
        if types_separator then set_separator "-" p
        else generate_with GeneratorState.decrement_length p
      else if is_key " " key then activate_generator_focus p
      else handle_generator_focus_key key p
  end.

(** ** Drop-down lists *)

Definition credential_option (index : nat) : CredentialType.t :=
  match index with
  | 0 => CredentialType.Login
  | 1 => CredentialType.Api
  | 2 => CredentialType.Ssh
  | _ => CredentialType.SecureNote
  end.

Definition picks (key : KeyCode.t) : bool :=
  bool_decide (key = KeyCode.Enter) || bool_decide (key = KeyCode.Right) || is_key " " key.

Definition closes (key : KeyCode.t) : bool :=
  bool_decide (key = KeyCode.Esc) || bool_decide (key = KeyCode.Left).

Definition dropdown_up (d : DropdownState) : DropdownState := d <| dd_selected_index ::= pred |>.

Definition dropdown_down (options : nat) (d : DropdownState) : DropdownState :=
  if dd_selected_index d <? options - 1 then d <| dd_selected_index ::= S |> else d.

Definition closed (d : DropdownState) : DropdownState := d <| dd_expanded := false |>.
Definition opened (d : DropdownState) : DropdownState := d <| dd_expanded := true |>.

Definition handle_credential_dropdown (key : KeyCode.t) (p : RecordForm) : io W Step :=
  let on_list f := stay (on_form (λ s, s <| fm_credential_dropdown ::= f |>) p) in
  match key with
  | KeyCode.Up => on_list dropdown_up
  | KeyCode.Down => on_list (dropdown_down 4)
  | _ =>
      if picks key then
        let ct := credential_option (dd_selected_index (fm_credential_dropdown (rf_form p))) in
        stay (on_form (λ s, (switch_credential_type ct s) <| fm_credential_dropdown ::= closed |>) p)
      else if closes key then on_list closed
      else stay p
  end.

(** The index is always one of the options. *)
Definition handle_expiry_dropdown (key : KeyCode.t) (p : RecordForm) : io W Step :=
  let on_list f := stay (on_form (λ s, s <| fm_expiry_dropdown ::= f |>) p) in
  match key with
  | KeyCode.Up => on_list dropdown_up
  | KeyCode.Down => on_list (dropdown_down (length ExpiryOption.all_options))
  | _ =>
      if picks key then
        let index := dd_selected_index (fm_expiry_dropdown (rf_form p)) in
        stay (on_form (λ s,
          s <| fm_fields ::= λ f, f <| fd_expires_at ::= λ o,
                                     default o (ExpiryOption.all_options !! index) |> |>
            <| fm_expiry_dropdown ::= closed |> <| fm_has_changes := true |>) p)
      else if closes key then on_list closed
      else stay p
  end.

(** ** Moving *)

Definition move_cursor (m : CursorMove.t) (p : RecordForm) : RecordForm :=
  on_fields (λ f, f <| fd_notes ::= ta_move_cursor m |>) p.

Definition in_notes (p : RecordForm) : bool := textarea_captures_vertical (rf_form p).
Definition notes (p : RecordForm) : TextArea := fd_notes (fm_fields (rf_form p)).

Definition key_down (p : RecordForm) : io W Step :=
  stay (if in_notes p && cursor_has_line_below (notes p) then move_cursor CursorMove.Down p
        else on_form focus_next p).

Definition key_up (p : RecordForm) : io W Step :=
  stay (if in_notes p && cursor_has_line_above (notes p) then move_cursor CursorMove.Up p
        else on_form focus_prev p).

(** The column counts characters, the length of the line bytes. *)
Definition before_line_end (t : TextArea) : bool :=
  match ta_lines t !! (ta_cursor t).1 with
  | Some line => (ta_cursor t).2 <? String.length line
  | None => false
  end.

(** The tags, if they are focused and the focus can move among them, and else the rest. *)
Definition tags_first (nav : FormFields → bool * FormFields) (rest : RecordForm → io W Step)
    (p : RecordForm) : io W Step :=
  let '(moved, f) := if is_tags_focused p then nav (fm_fields (rf_form p))
                     else (false, fm_fields (rf_form p)) in
  let p := on_fields (λ _, f) p in
  if moved : bool then stay p else rest p.

(** [open] is the form with the focused list opened, if a list is focused. *)
Definition key_right (open : RecordForm → option RecordForm) (p : RecordForm) : io W Step :=
  tags_first FormFields.focus_next_tag (λ p,
    match open p with
    | Some p => stay p
    | None =>
        if in_notes p && before_line_end (notes p) then stay (move_cursor CursorMove.Forward p)
        else stay (on_form (λ s, default (focus_next s) (sub_focus_next s)) p)
    end) p.

Definition key_left (p : RecordForm) : io W Step :=
  tags_first FormFields.focus_prev_tag (λ p,
    if in_notes p && (0 <? (ta_cursor (notes p)).2) then stay (move_cursor CursorMove.Back p)
    else stay (on_form (λ s, default (focus_prev s) (sub_focus_prev s)) p)) p.

(** ** Shortcuts *)

Definition shortcut_secret_field_index (ct : CredentialType.t) : nat :=
  match ct with
  | CredentialType.SecureNote => 2
  | _ => 4
  end.

Definition focus_secret (p : RecordForm) : RecordForm :=
  on_form (focus_field (shortcut_secret_field_index (ct p))) p.

Definition activate_generate_shortcut (config : AppConfig) (p : RecordForm) : io W Step :=
  if bool_decide (ct p = CredentialType.Login)
  then expand_from_config config (on_form (focus_field 4) p) else stay p.

Definition activate_visibility_shortcut (p : RecordForm) : io W Step :=
  stay (on_form toggle_current_visibility (focus_secret p)).

Definition copy_current (p : RecordForm) : io W Step :=
  match current_secret_value (rf_form p) with
  | Some value =>
      if bool_decide (value = "") then stay p
      else io_ret (p, ScreenResult.Command (Dispatch.Command.CopyRawToClipboard value))
  | None => stay p
  end.

Definition activate_copy_shortcut (p : RecordForm) : io W Step := copy_current (focus_secret p).

(** ** Enter *)

Definition enter_notes (p : RecordForm) : io W Step :=
  if negb (can_insert_char_into_current_field 10 (rf_form p))
  then stay (on_form set_current_limit_error p)
  else
    stay (on_form (λ s, clear_current_limit_error
                          (s <| fm_fields ::= λ f, f <| fd_notes ::= ta_insert_newline |> |>)
                        <| fm_has_changes := true |>) p).

Definition enter_tag (p : RecordForm) : io W Step :=
  let '(added, f) := FormFields.commit_tag_input (fm_fields (rf_form p)) in
  let s := (rf_form p) <| fm_fields := f |> in
  stay (p <| rf_form := if added : bool
                        then (clear_current_limit_error s) <| fm_has_changes := true |> else s |>).

(** Below the buttons: the lists and the tags.  [open] is as for [key_right]. *)
Definition enter_field (open : RecordForm → option RecordForm) (p : RecordForm) : io W Step :=
  match open p with
  | Some p => stay p
  | None =>
      if (focused p =? tags_field_index (ct p))
         && negb (bool_decide (fd_tag_input (fm_fields (rf_form p)) = ""))
      then enter_tag p else stay p
  end.

(** [generate] expands the generator. *)
Definition enter_buttons (generate : RecordForm → io W Step)
    (open : RecordForm → option RecordForm) (p : RecordForm) : io W Step :=
  if focused p =? notes_field_index (ct p) then enter_notes p
  else
    match fm_password_sub_focus (rf_form p) with
    | Show => stay (on_form toggle_current_visibility p)
    | Copy => copy_current p
    | Generate =>
        if bool_decide (ct p = CredentialType.Login) && (focused p =? 4) then generate p
        else enter_field open p
    | Paste => stay p
    | Input => enter_field open p
    end.

(** The list of expiries, opened where it is focused. *)
Definition open_expiry (p : RecordForm) : option RecordForm :=
  if focused p =? expiry_field_index (ct p)
  then Some (on_form (λ s, s <| fm_expiry_dropdown ::= opened |>) p) else None.

(** Both lists, where the type can be chosen. *)
Definition open_list (p : RecordForm) : option RecordForm :=
  if (focused p =? 0) && is_credential_type_editable (rf_form p)
  then Some (on_form (λ s, s <| fm_credential_dropdown ::= opened |>) p) else open_expiry p.

(** Only outside of the footer. *)
Definition outside_footer (open : RecordForm → option RecordForm) (p : RecordForm)
  : option RecordForm := if in_footer p then None else open p.

(** A character with a text field focused, and the keys that take characters away. *)
Definition type_char (c : Z) (p : RecordForm) : io W Step :=
  if is_custom_date_focused p then handle_date_char c p else handle_char_input c p.

Definition type_backspace (p : RecordForm) : io W Step :=
  if is_custom_date_focused p then handle_date_backspace p else handle_backspace p.

End s.
End RecordForm.

(** ** The keys of both screens

    [keys] are the handlers in which the screens differ: the answer to the commands that
    save, the lists that can be opened, the keys of the lists, and the keys besides Enter
    that activate what is focused. *)

Record FormKeys (W : Type) `{TextAreaLib} : Type := mkFormKeys {
  fk_submit : RecordForm → io W RecordForm.Step;
  fk_open : RecordForm → option RecordForm;
  fk_lists : KeyCode.t → RecordForm → option (io W RecordForm.Step);
  fk_space : RecordForm → bool;
}.
Arguments fk_submit {W _}.
Arguments fk_open {W _}.
Arguments fk_lists {W _}.
Arguments fk_space {W _}.

Section form_key.
Context {W : Type} `{TextAreaLib} `{Translations} `{Messages} `{Rng W} `{CommandQueue W}.
Context `{System W} `{Calendar W}.
Import FormState RecordForm.

Definition form_enter (keys : FormKeys W) (generate : RecordForm → io W Step) (p : RecordForm)
  : io W Step :=
  match fm_footer_focus (rf_form p) with
  | Some button => activate_footer_button (fk_submit keys) button p
  | None => enter_buttons generate (fk_open keys) p
  end.

Definition shortcut_key (keys : FormKeys W) (config : AppConfig) (key : KeyEvent) (p : RecordForm)
  : option (io W Step) :=
  if negb (held_control key) then None
  else if is_key "g" (ke_code key) then Some (activate_generate_shortcut config p)
  else if is_key "v" (ke_code key) then Some (activate_visibility_shortcut p)
  else if is_key "c" (ke_code key) then Some (activate_copy_shortcut p)
  else if is_key "s" (ke_code key) then Some (attempt_save (fk_submit keys) p)
  else None.

Definition field_key (keys : FormKeys W) (config : AppConfig) (event : KeyEvent) (p : RecordForm)
  : io W Step :=
  match ke_code event with
  | KeyCode.Tab => stay (on_form focus_next p)
  | KeyCode.BackTab => stay (on_form focus_prev p)
  | KeyCode.Down => key_down p
  | KeyCode.Up => key_up p
  | KeyCode.Right => key_right (outside_footer (fk_open keys)) p
  | KeyCode.Left => key_left p
  | KeyCode.Esc => cancel_form p
  | KeyCode.Enter => form_enter keys (expand_from_config config) p
  | KeyCode.Char c =>
      match shortcut_key keys config event p with
      | Some action => action
      | None =>
          if is_key " " (KeyCode.Char c) && fk_space keys p
          then form_enter keys (expand_from_config config) p else type_char c p
      end
  | KeyCode.Backspace => type_backspace p
  | KeyCode.Delete => handle_delete p
  | _ => stay p
  end.

(** While a command saves, keys do nothing; dialogs, the generator and the lists come first. *)
Definition form_key (keys : FormKeys W) (config : AppConfig) (event : KeyEvent) (p : RecordForm)
  : io W Step :=
  let key := ke_code event in
  if fm_saving (rf_form p) then stay p
  else if fm_show_weak_password_dialog (rf_form p)
  then handle_weak_password_dialog (fk_submit keys) key p
  else if fm_show_unsaved_dialog (rf_form p) then handle_unsaved_dialog key p
  else if eg_expanded (rf_generator p) then handle_generator_key key p
  else
    match fk_lists keys key p with
    | Some action => action
    | None => field_key keys config event p
    end.

(** What ends the saving without a record; a [FatalError] is never made. *)
Definition ends_saving (r : CommandResult.t) : bool :=
  match r with CommandResult.Error _ _ _ _ | CommandResult.Cancelled _ _ => true | _ => false end.

End form_key.

(** ** The screen of a new record *)

Record CreateRecordScreen `{TextAreaLib} : Type := mkCreateRecordScreen {
  cr_panel : RecordForm;
  cr_all_tags : list string;
  cr_last_area : Rect;
}.

#[export] Instance eta_CreateRecordScreen `{TextAreaLib} : Eta CreateRecordScreen := λ s,
  mkCreateRecordScreen _ (cr_panel s) (cr_all_tags s) (cr_last_area s).

Module FormMouseTarget.
Inductive generator : Set :=
| LengthSlider | LengthMinus | LengthPlus | Toggle (index : nat) | Regenerate | Action.

Inductive t : Set :=
| Field (index : nat)
| CredentialDropdown
| CredentialOption (index : nat)
| ExpiryDropdown
| ExpiryOption (index : nat)
| PasswordButton (button : PasswordFieldFocus.t)
| Generator (target : generator)
| TagChip (index : nat)
| Footer (button : FormFooterButton.t).
End FormMouseTarget.

(** The rows of the form inside its border; the lists with the number of their options. *)
Record FormRowMap : Set := mkFormRowMap {
  rw_credential : Z;
  rw_credential_options : option (Z * Z);
  rw_name : Z;
  rw_url : Z;
  rw_account : Z;
  rw_secret : Z;
  rw_passphrase : option Z;
  rw_expiry : Z;
  rw_expiry_options : option (Z * Z);
  rw_tags : Z;
  rw_notes : Z;
  rw_footer : Z;
}.

Module CreateRecordScreen.
Section s.
Context {W : Type} `{TextAreaLib} `{Translations} `{Messages} `{Rng W} `{CommandQueue W}.
Context `{System W} `{Calendar W} `{TextWidth}.
Import FormState RecordForm.

Definition new : io W CreateRecordScreen :=
  let* g := EmbeddedGeneratorState.new in
  io_ret (mkCreateRecordScreen _ (mkRecordForm _ new_create g) [] (mkRect 0 0 0 0)).

Definition create_command (s : FormState) : io W Dispatch.Command.t :=
  let* expires_at := expiry_datetime s in
  io_ret (Dispatch.Command.CreateRecord (fm_credential_type s) (build_payload_snapshot s)
            (fd_tags (fm_fields s)) false expires_at).

Definition submit_create_record (p : RecordForm) : io W Step := submit create_command p.

Definition is_dropdown_focused (p : RecordForm) : bool :=
  negb (in_footer p) && bool_decide (is_Some (open_list p)).

Definition dropdown_key (key : KeyCode.t) (p : RecordForm) : option (io W Step) :=
  if dd_expanded (fm_credential_dropdown (rf_form p))
  then Some (handle_credential_dropdown key p)
  else if dd_expanded (fm_expiry_dropdown (rf_form p)) then Some (handle_expiry_dropdown key p)
  else None.

Definition keys : FormKeys W := {|
  fk_submit := submit_create_record;
  fk_open := open_list;
  fk_lists := dropdown_key;
  fk_space p := is_dropdown_focused p || in_footer p;
|}.

Definition handle_key (config : AppConfig) (event : KeyEvent) (p : RecordForm) : io W Step :=
  form_key keys config event p.

(** *** Where the mouse is *)

Definition contains (area : Rect) (col row : Z) : bool :=
  (re_x area <=? col)%Z && (col <? saturating_add (re_x area) (re_width area))%Z
  && (re_y area <=? row)%Z && (row <? saturating_add (re_y area) (re_height area))%Z.

(** A row for the error of a field, unless it says that the field is required. *)
Definition error_rows_for (field_index : nat) (p : RecordForm) : Z :=
  Z.b2z (existsb (λ e,
    (ve_field_index e =? field_index)
    && negb (bool_decide (ve_message e = translate "tui.form.validation_required")))
    (fm_validation_errors (rf_form p))).

Definition options_len (o : option (Z * Z)) : Z := from_option snd 0%Z o.

Definition form_row_map (last_area : Rect) (p : RecordForm) : FormRowMap :=
  let s := rf_form p in
  let f := fm_fields s in
  let credential := 3%Z in
  let credential_options :=
    if dd_expanded (fm_credential_dropdown s) then Some (credential + 1, 4)%Z else None in
  let name := (credential + 1 + options_len credential_options + 1)%Z in
  let url := (name + 1 + error_rows_for 1 p + 1)%Z in
  let account := (url + 1 + 1)%Z in
  let secret := (account + 1 + error_rows_for 3 p + 1)%Z in
  let row := (secret + 1 + error_rows_for 4 p)%Z in
  let '(row, passphrase) :=
    match fm_credential_type s with
    | CredentialType.Login => ((row + 1 + 1)%Z, None)
    | CredentialType.Ssh => ((row + 2 + 2)%Z, Some (row + 2)%Z)
    | CredentialType.Api | CredentialType.SecureNote => (row, None)
    end in
  let expiry := (row + 1)%Z in
  let expiry_options :=
    if dd_expanded (fm_expiry_dropdown s)
    then Some ((expiry + 1)%Z, Z.of_nat (length ExpiryOption.all_options)) else None in
  let tags :=
    (expiry + 1 + options_len expiry_options
     + (if bool_decide (fd_expires_at f = ExpiryOption.Custom) then 2 else 0) + 1)%Z in
  let notes := (tags + 1 + (if bool_decide (fd_tags f = []) then 0 else 1) + 1)%Z in
  let row := (notes + 1 + visible_rows (fd_notes f))%Z in
  let inner_height := saturating_sub (re_height last_area) 2 in
  let row :=
    if (saturating_add row 3 <? inner_height)%Z then saturating_sub inner_height 3 else row in
  mkFormRowMap credential credential_options name url account secret passphrase expiry
    expiry_options tags notes (row + 1)%Z.

(** SecureNote has no secret field. *)
Definition secret_field_index (ct : CredentialType.t) : nat :=
  match ct with CredentialType.SecureNote => 0 | _ => 4 end.

Definition secret_row_buttons (ct : CredentialType.t) : option (list PasswordFieldFocus.t) :=
  match ct with
  | CredentialType.Login =>
      Some [PasswordFieldFocus.Generate; PasswordFieldFocus.Show; PasswordFieldFocus.Copy]
  | CredentialType.Api => Some [PasswordFieldFocus.Show; PasswordFieldFocus.Copy]
  | CredentialType.Ssh =>
      Some [PasswordFieldFocus.Show; PasswordFieldFocus.Paste; PasswordFieldFocus.Copy]
  | CredentialType.SecureNote => None
  end.

Definition button_label (button : PasswordFieldFocus.t) : string :=
  match button with
  | PasswordFieldFocus.Generate => translate "tui.form.generate_button"
  | PasswordFieldFocus.Show => translate "tui.form.show_button"
  | PasswordFieldFocus.Copy => translate "tui.form.copy_button"
  | PasswordFieldFocus.Paste => translate "tui.form.paste_button"
  | PasswordFieldFocus.Input => ""
  end.

Definition in_brackets (label : string) : string := "[ " +:+ label +:+ " ]".

(** The first of the parts under a column: each part with the columns it takes, laid out
    from [start] with [gap] columns before it. *)
Fixpoint part_at {A} (gap start col : nat) (parts : list (A * nat)) : option A :=
  match parts with
  | [] => None
  | (a, width) :: parts =>
      let start := start + gap in
      if (start <=? col) && (col <? start + width) then Some a
      else part_at gap (start + width) col parts
  end.

Definition FORM_LABEL_WIDTH : nat := 13.

Definition password_button_at (content_col width : Z) (p : RecordForm)
  : option PasswordFieldFocus.t :=
  buttons ← secret_row_buttons (ct p);
  let labels := button_label <$> buttons in
  let button_width :=
    sum_list ((λ label, display_width (" " +:+ in_brackets label)) <$> labels) + length labels in
  let content_width := Z.to_nat (saturating_sub width 2) in
  let input_width := Nat.max 1 (content_width - FORM_LABEL_WIDTH - button_width - 2) in
  part_at 1 (13 + input_width + 2) (Z.to_nat content_col)
    ((λ button, (button, display_width (in_brackets (button_label button)))) <$> buttons).

Definition tag_chip_at (content_col : Z) (p : RecordForm) : option nat :=
  part_at 0 FORM_LABEL_WIDTH (Z.to_nat content_col)
    (imap (λ i tag, (i, display_width ("[ " +:+ tag +:+ " " +:+ of_chars [215%Z] +:+ "] ")))
       (fd_tags (fm_fields (rf_form p)))).

Definition footer_button_at (content_col : Z) : option FormFooterButton.t :=
  part_at 2 0 (Z.to_nat content_col)
    [(FormFooterButton.Save, display_width (in_brackets (translate "tui.form.save_button")));
     (FormFooterButton.Cancel, display_width (in_brackets (translate "tui.form.cancel_button")))].

(** *** The dialog of the generator *)

(** The number of lines that [render_generator_panel] draws inside a form. *)
Definition generator_panel_len (g : GeneratorState) : Z :=
  match gs_style g with GenerationStyle.Pin => 11 | _ => 12 end.

Definition generator_dialog_area (area : Rect) (g : GeneratorState) : Rect :=
  let width := if (68 <? re_width area)%Z then 64%Z
               else Z.max 24 (saturating_sub (re_width area) 4) in
  let height := Z.min (saturating_add (generator_panel_len g) 5)
                  (saturating_sub (re_height area) 2) in
  mkRect (re_x area + saturating_sub (re_width area) width / 2)
    (re_y area + saturating_sub (re_height area) height / 2) width height.

Definition SLIDER_BAR_WIDTH : nat := 20.

Definition generator_length_target (col : nat) (g : GeneratorState)
  : option FormMouseTarget.generator :=
  let label := match gs_style g with
               | GenerationStyle.Memorable => translate "tui.generator.word_count"
               | _ => translate "tui.generator.length"
               end in
  let label_width := display_width ("  " +:+ label +:+ " ") in
  let value_width := display_width (in_brackets (pretty (GeneratorState.current_length g))) in
  let minus_start := label_width + value_width + 2 in
  let minus_end := minus_start + 3 in
  let bar_start := minus_end + 1 in
  let plus_start := bar_start + SLIDER_BAR_WIDTH + 1 in
  let plus_end := plus_start + 3 in
  if (minus_start <=? col) && (col <? minus_end) then Some FormMouseTarget.LengthMinus
  else if (plus_start <=? col) && (col <? plus_end) then Some FormMouseTarget.LengthPlus
  else if (label_width <=? col) && (col <? plus_end) then Some FormMouseTarget.LengthSlider
  else None.

Definition check_mark (enabled : bool) : string := if enabled then of_chars [10003%Z] else " ".

Definition generator_options_target (col : nat) (g : GeneratorState)
  : option FormMouseTarget.generator :=
  match gs_style g with
  | GenerationStyle.Random =>
      part_at 0 2 col
        (imap (λ idx label,
           (FormMouseTarget.Toggle idx,
            display_width ("[" +:+ check_mark (GeneratorState.is_toggle_enabled g idx) +:+ "] "
                             +:+ translate label +:+ "  ")))
           ["tui.generator.uppercase"; "tui.generator.lowercase"; "tui.generator.digits";
            "tui.generator.symbols"])
  | GenerationStyle.Memorable =>
      part_at 0 2 col
        [(FormMouseTarget.Toggle 0,
          display_width ("[" +:+ check_mark true +:+ "] " +:+ translate "tui.generator.capitalize"))]
  | GenerationStyle.Pin => None
  end.

Definition generator_button_target (col : nat) : option FormMouseTarget.generator :=
  let width key := display_width (" " +:+ in_brackets (translate key) +:+ " ") in
  match part_at 0 5 col [(FormMouseTarget.Regenerate, width "tui.generator.regenerate")] with
  | Some target => Some target
  | None =>
      part_at 8 (5 + width "tui.generator.regenerate") col
        [(FormMouseTarget.Action, width "tui.generator.use_password")]
  end.

Definition generator_mouse_target (content_col panel_row panel_len : Z) (g : GeneratorState)
  : option FormMouseTarget.generator :=
  let col := Z.to_nat content_col in
  if (panel_row =? 0)%Z then generator_length_target col g
  else if (panel_row =? 2)%Z then generator_options_target col g
  else if (panel_row + 1 =? panel_len)%Z then generator_button_target col
  else None.

Definition hit_test_generator_dialog (last_area : Rect) (column row : Z) (g : GeneratorState)
  : option FormMouseTarget.generator :=
  let dialog := generator_dialog_area last_area g in
  let content_col := (column - (re_x dialog + 1))%Z in
  let content_row := (row - (re_y dialog + 1))%Z in
  let panel_len := generator_panel_len g in
  let panel_row := (content_row - 3)%Z in
  if contains dialog column row && (0 <=? content_col)%Z && (3 <=? content_row)%Z
     && (panel_row <? panel_len)%Z
  then generator_mouse_target content_col panel_row panel_len g else None.

(** *** The mouse *)

(** The option of a list under a row. *)
Definition option_at (row : Z) (options : option (Z * Z)) : option nat :=
  '(start, len) ← options;
  if (start <=? row)%Z && (row <? start + len)%Z then Some (Z.to_nat (row - start)) else None.

(** The first of the targets whose row it is. *)
Fixpoint first_target (l : list (bool * option FormMouseTarget.t)) : option FormMouseTarget.t :=
  match l with
  | (true, Some target) :: _ => Some target
  | _ :: l => first_target l
  | [] => None
  end.

Definition form_target (last_area : Rect) (column row : Z) (p : RecordForm)
  : option FormMouseTarget.t :=
  let r := (row - (re_y last_area + 1))%Z in
  let col := (column - (re_x last_area + 1))%Z in
  let rows := form_row_map last_area p in
  let at_ x := (r =? x)%Z in
  if (r <? 0)%Z || (col <? 0)%Z then None
  else first_target
    [(at_ (rw_credential rows), Some FormMouseTarget.CredentialDropdown);
     (true, FormMouseTarget.CredentialOption <$> option_at r (rw_credential_options rows));
     (at_ (rw_name rows), Some (FormMouseTarget.Field 1));
     (at_ (rw_url rows), Some (FormMouseTarget.Field 2));
     (at_ (rw_account rows), Some (FormMouseTarget.Field 3));
     (at_ (rw_secret rows),
      Some match password_button_at col (re_width last_area) p with
           | Some button => FormMouseTarget.PasswordButton button
           | None => FormMouseTarget.Field (secret_field_index (ct p))
           end);
     (from_option at_ false (rw_passphrase rows), Some (FormMouseTarget.Field 5));
     (at_ (rw_expiry rows), Some FormMouseTarget.ExpiryDropdown);
     (true, FormMouseTarget.ExpiryOption <$> option_at r (rw_expiry_options rows));
     (at_ (rw_tags rows), Some (FormMouseTarget.Field (tags_field_index (ct p))));
     (negb (bool_decide (fd_tags (fm_fields (rf_form p)) = [])) && at_ (rw_tags rows + 1)%Z,
      FormMouseTarget.TagChip <$> tag_chip_at col p);
     (at_ (rw_notes rows), Some (FormMouseTarget.Field (notes_field_index (ct p))));
     (at_ (rw_footer rows), FormMouseTarget.Footer <$> footer_button_at col)].

Definition hit_test (last_area : Rect) (column row : Z) (p : RecordForm)
  : option FormMouseTarget.t :=
  if (re_width last_area =? 0)%Z || (re_height last_area =? 0)%Z
     || negb (contains last_area column row)
  then None
  else if eg_expanded (rf_generator p) then
    FormMouseTarget.Generator
      <$> hit_test_generator_dialog last_area column row (eg_generator (rf_generator p))
  else form_target last_area column row p.

Definition handle_generator_mouse_target (target : FormMouseTarget.generator) (is_click : bool)
    (p : RecordForm) : io W Step :=
  let p := on_form (λ s, s <| fm_password_sub_focus := PasswordFieldFocus.Input |>
                           <| fm_footer_focus := None |>) p in
  let focus f := on_generator (λ g, g <| gs_focus := f |>) p in
  let click (action : RecordForm → io W Step) p := if is_click then action p else stay p in
  match target with
  | FormMouseTarget.LengthSlider => stay (focus GeneratorFocus.LengthSlider)
  | FormMouseTarget.LengthMinus =>
      click (generate_with GeneratorState.decrement_length) (focus GeneratorFocus.LengthSlider)
  | FormMouseTarget.LengthPlus =>
      click (generate_with GeneratorState.increment_length) (focus GeneratorFocus.LengthSlider)
  | FormMouseTarget.Toggle idx =>
      click (toggle_generator_option idx) (focus (GeneratorFocus.Toggle idx))
  | FormMouseTarget.Regenerate =>
      click (generate_with GeneratorState.regenerate) (focus GeneratorFocus.RegenerateButton)
  | FormMouseTarget.Action => click activate_generator_focus (focus GeneratorFocus.ActionButton)
  end.

Definition flip_list (d : DropdownState) : DropdownState := d <| dd_expanded ::= negb |>.

(** [handle_enter(None)]: without a configuration the generator has its defaults. *)
Definition enter_without_context (p : RecordForm) : io W Step :=
  if in_footer p then stay p
  else
    enter_buttons
      (λ p, let* e := EmbeddedGeneratorState.expand in stay (p <| rf_generator := e |>))
      open_list p.

Definition on_target (target : FormMouseTarget.t) (is_click : bool) (p : RecordForm)
  : io W Step :=
  let click (action : RecordForm → io W Step) p := if is_click then action p else stay p in
  match target with
  | FormMouseTarget.Field index => stay (on_form (focus_field index) p)
  | FormMouseTarget.CredentialDropdown =>
      click (λ p, stay (on_form (λ s, s <| fm_credential_dropdown ::= flip_list |>) p))
        (on_form (focus_field 0) p)
  | FormMouseTarget.CredentialOption index =>
      click (handle_credential_dropdown KeyCode.Enter)
        (on_form (λ s, (focus_field 0 s) <| fm_credential_dropdown ::= λ d,
                         d <| dd_selected_index := Nat.min index 3 |> |>) p)
  | FormMouseTarget.ExpiryDropdown =>
      click (λ p, stay (on_form (λ s, s <| fm_expiry_dropdown ::= flip_list |>) p))
        (on_form (focus_field (expiry_field_index (ct p))) p)
  | FormMouseTarget.ExpiryOption index =>
      click (handle_expiry_dropdown KeyCode.Enter)
        (on_form (λ s, (focus_field (expiry_field_index (ct p)) s)
            <| fm_expiry_dropdown ::= λ d,
                 d <| dd_selected_index :=
                        Nat.min index (length ExpiryOption.all_options - 1) |> |>) p)
  | FormMouseTarget.PasswordButton button =>
      click enter_without_context
        (on_form (λ s, (focus_field (secret_field_index (ct p)) s)
                         <| fm_password_sub_focus := button |>) p)
  | FormMouseTarget.Generator target => handle_generator_mouse_target target is_click p
  | FormMouseTarget.TagChip index =>
      stay (on_fields (λ f, (FormFields.focus_tag index f).2)
              (on_form (focus_field (tags_field_index (ct p))) p))
  | FormMouseTarget.Footer button =>
      click (activate_footer_button submit_create_record button)
        (on_form (λ s, s <| fm_footer_focus := Some button |>
                         <| fm_password_sub_focus := PasswordFieldFocus.Input |>) p)
  end.

(** The dialogs do not keep the mouse from the form behind them. *)
Definition handle_mouse (last_area : Rect) (event : MouseEvent) (p : RecordForm) : io W Step :=
  let pointed is_click :=
    match hit_test last_area (me_column event) (me_row event) p with
    | Some target => on_target target is_click p
    | None => stay p
    end in
  if fm_saving (rf_form p) then stay p
  else
    match me_kind event with
    | MouseEventKind.DownLeft => pointed true
    | MouseEventKind.Moved => pointed false
    | _ => stay p
    end.

(** *** The screen *)

Definition in_panel (step : RecordForm → io W Step) (s : CreateRecordScreen)
  : io W (CreateRecordScreen * ScreenResult.t) :=
  let* r := step (cr_panel s) in
  io_ret (s <| cr_panel := r.1 |>, r.2).

Definition on_result (r : CommandResult.t) (s : CreateRecordScreen)
  : CreateRecordScreen * ScreenResult.t :=
  match r with
  | CommandResult.TagsLoaded tags _ =>
      (s <| cr_all_tags := tag_name <$> tags |>, ScreenResult.Continue)
  | CommandResult.RecordCreated _ => (s, ScreenResult.PopScreen)
  | _ =>
      if ends_saving r then (s <| cr_panel ::= on_form finish_saving |>, ScreenResult.Continue)
      else (s, ScreenResult.Continue)
  end.

Definition update (config : AppConfig) (msg : Message.t) (s : CreateRecordScreen)
  : io W (CreateRecordScreen * ScreenResult.t) :=
  match msg with
  | Message.KeyEvent key => in_panel (handle_key config key) s
  | Message.MouseEvent event => in_panel (handle_mouse (cr_last_area s) event) s
  | Message.CommandCompleted (AppResult.Command r) => io_ret (on_result r s)
  | Message.Tick => io_ret (s <| cr_panel ::= on_form tick_saving |>, ScreenResult.Continue)
  | _ => io_ret (s, ScreenResult.Continue)
  end.

(** What follows when messages come one after the other. *)
Fixpoint updates (config : AppConfig) (msgs : list Message.t) (s : CreateRecordScreen)
  : io W CreateRecordScreen :=
  match msgs with
  | [] => io_ret s
  | msg :: msgs => let* r := update config msg s in updates config msgs r.1
  end.

(** The generator stays as it was. *)
Definition on_mount (s : CreateRecordScreen) : io W CreateRecordScreen :=
  let* _ := send_system_command Dispatch.Command.LoadTags in
  io_ret (s <| cr_panel ::= on_form (λ _, new_create) |> <| cr_all_tags := [] |>).

Definition on_unmount (s : CreateRecordScreen) : CreateRecordScreen :=
  s <| cr_panel ::= on_form clear_sensitive_fields |>.

End s.
End CreateRecordScreen.

(** ** The screen of a record that is edited *)

Record EditRecordScreen `{TextAreaLib} : Type := mkEditRecordScreen {
  ed_panel : RecordForm;
  ed_all_tags : list string;
  ed_record_id : option Uuid;
  ed_record_version : option Z;
}.

#[export] Instance eta_EditRecordScreen `{TextAreaLib} : Eta EditRecordScreen := λ s,
  mkEditRecordScreen _ (ed_panel s) (ed_all_tags s) (ed_record_id s) (ed_record_version s).

Module EditRecordScreen.
Section s.
Context {W : Type} `{TextAreaLib} `{Translations} `{Messages} `{Rng W} `{CommandQueue W}.
Context `{System W} `{Calendar W}.
Import FormState RecordForm.

Definition new (record_id : Uuid) (ct : CredentialType.t) : io W EditRecordScreen :=
  let* g := EmbeddedGeneratorState.new in
  io_ret (mkEditRecordScreen _ (mkRecordForm _ (new_edit record_id ct) g) [] (Some record_id) None).

Definition update_command (record_id : option Uuid) (record_version : option Z) (s : FormState)
  : io W Dispatch.Command.t :=
  let* expires_at := expiry_datetime s in
  io_ret (Dispatch.Command.UpdateRecord (default 0%N record_id) (build_payload_snapshot s)
            (fd_tags (fm_fields s)) false expires_at (default 0%Z record_version)).

Definition submit_update_record (s : EditRecordScreen) (p : RecordForm) : io W Step :=
  submit (update_command (ed_record_id s) (ed_record_version s)) p.

(** The type cannot be chosen. *)
Definition open_focused_dropdown (p : RecordForm) : option RecordForm := open_expiry p.

Definition dropdown_key (key : KeyCode.t) (p : RecordForm) : option (io W Step) :=
  if dd_expanded (fm_expiry_dropdown (rf_form p)) then Some (handle_expiry_dropdown key p)
  else None.

Definition keys (s : EditRecordScreen) : FormKeys W := {|
  fk_submit := submit_update_record s;
  fk_open := open_focused_dropdown;
  fk_lists := dropdown_key;
  fk_space := in_footer;
|}.

Definition in_panel (step : RecordForm → io W Step) (s : EditRecordScreen)
  : io W (EditRecordScreen * ScreenResult.t) :=
  let* r := step (ed_panel s) in
  io_ret (s <| ed_panel := r.1 |>, r.2).

Definition handle_key (config : AppConfig) (event : KeyEvent) (s : EditRecordScreen)
  : io W (EditRecordScreen * ScreenResult.t) :=
  in_panel (form_key (keys s) config event) s.

(** The expiry and the mark of favourites are not among what is loaded. *)
Definition load_record_data (name url : string) (username password app_id secret_key public_key
    private_key passphrase : option string) (tags : list string) (notes : string)
    (s : FormState) : FormState :=
  s <| fm_fields ::= λ f,
         (FormFields.set_notes_text notes
           (FormFields.update_strength
             (f <| fd_name := name |> <| fd_url := url |> <| fd_username := username |>
                <| fd_password := password |> <| fd_app_id := app_id |>
                <| fd_secret_key := secret_key |> <| fd_public_key := public_key |>
                <| fd_private_key := private_key |> <| fd_passphrase := passphrase |>)))
         <| fd_tags := tags |> |>
    <| fm_has_changes := false |>.

Definition load_payload (payload : EncryptedPayload.t) (tags : list string) (s : FormState)
  : FormState :=
  match payload with
  | EncryptedPayload.Login name username password url notes =>
      load_record_data name (default "" url) (Some username) (Some password) None None None
        None None tags (default "" notes) s
  | EncryptedPayload.Api name app_id secret_key url notes =>
      load_record_data name (default "" url) None None (Some app_id) (Some secret_key) None
        None None tags (default "" notes) s
  | EncryptedPayload.Ssh name public_key private_key passphrase notes =>
      load_record_data name "" None None None None (Some public_key) private_key passphrase
        tags (default "" notes) s
  | EncryptedPayload.SecureNote name notes =>
      load_record_data name "" None None None None None None None tags (default "" notes) s
  end.

Definition load_record (record : DecryptedRecord) (s : EditRecordScreen) : EditRecordScreen :=
  let payload := dr_payload record in
  s <| ed_panel ::= on_form (λ _,
         load_payload payload (dr_tags record)
           (new_edit (dr_id record) (EncryptedPayload.credential_type payload))) |>
    <| ed_record_version := Some (dr_version record) |>
    <| ed_record_id := Some (dr_id record) |>.

Definition on_result (r : CommandResult.t) (s : EditRecordScreen)
  : EditRecordScreen * ScreenResult.t :=
  match r with
  | CommandResult.TagsLoaded tags _ =>
      (s <| ed_all_tags := tag_name <$> tags |>, ScreenResult.Continue)
  | CommandResult.RecordForEditLoaded record => (load_record record s, ScreenResult.Continue)
  | CommandResult.RecordUpdated _ => (s, ScreenResult.PopScreen)
  | _ =>
      if ends_saving r then (s <| ed_panel ::= on_form finish_saving |>, ScreenResult.Continue)
      else (s, ScreenResult.Continue)
  end.

Definition update (config : AppConfig) (msg : Message.t) (s : EditRecordScreen)
  : io W (EditRecordScreen * ScreenResult.t) :=
  match msg with
  | Message.KeyEvent key => handle_key config key s
  | Message.CommandCompleted (AppResult.Command r) => io_ret (on_result r s)
  | Message.Tick => io_ret (s <| ed_panel ::= on_form tick_saving |>, ScreenResult.Continue)
  | _ => io_ret (s, ScreenResult.Continue)
  end.

Definition on_mount (s : EditRecordScreen) : io W EditRecordScreen :=
  let* s :=
    match ed_record_id s with
    | Some id =>
        let* _ := send_system_command (Dispatch.Command.LoadRecordForEdit id) in
        io_ret (s <| ed_panel ::= λ p, on_form (λ _, new_edit id (ct p)) p |>
                  <| ed_all_tags := [] |>)
    | None => io_ret s
    end in
  let* _ := send_system_command Dispatch.Command.LoadTags in
  io_ret s.

Definition on_unmount (s : EditRecordScreen) : EditRecordScreen :=
  s <| ed_panel ::= on_form clear_sensitive_fields |>.

End s.
End EditRecordScreen.
