(* ===== verification/FormSafety.v ===== *)
(** * What the record forms guarantee

    What is typed is what is saved; what is saved from the keyboard passes the limits of the
    vault; a form is saved once.  And what they do not: an edited record loses its expiry and
    its mark, a custom date cannot be corrected, and the mouse reaches behind the dialogs. *)

From Stdlib Require Import Ascii.
From S2P Require Import Prelude Text Errors Env Types Payload Vault Records Tags Password.
From S2P Require Import Listing Executor Generator Health Config ConfigExec Dispatch ListPanel.
From S2P Require Import Formats Backup Opening DetailPanel Overlays MainScreen MainSafety.
From S2P Require Import FormState FormScreens.
Import FormState RecordForm.

(** ** Text *)

#[local] Ltac Zify.zify_post_hook ::= Z.to_euclidean_division_equations.

Lemma byte_of_range c : (0 ≤ byte_of c < 256)%Z.
Proof. unfold byte_of. pose proof (N_ascii_bounded c). lia. Qed.

Lemma second_range_bounds b :
  (128 ≤ (second_range b).1 ∧ (second_range b).2 ≤ 191)%Z ∧
  (b = 224 → (second_range b).1 = 160)%Z ∧ (b = 237 → (second_range b).2 = 159)%Z ∧
  (b = 240 → (second_range b).1 = 144)%Z ∧ (b = 244 → (second_range b).2 = 143)%Z.
Proof.
  unfold second_range. repeat case_match; cbn; repeat (reflect_bools; simplify_eq); lia.
Qed.

(** The decoder gives scalar values only. *)
Lemma next_char_valid s c rest : next_char s = Utf8Char c rest → is_char c.
Proof.
  unfold next_char, next2, next3, next4, continuation, is_char. destruct s as [|a s]; [done|].
  pose proof (byte_of_range a). pose proof (second_range_bounds (byte_of a)) as (?&?&?&?&?).
  intros E. repeat case_match; simplify_eq;
    repeat match goal with
    | H : within _ _ _ = true |- _ => apply within_spec in H
    | H : (_ <? _)%Z = _ |- _ => first [apply Z.ltb_lt in H | apply Z.ltb_ge in H]
    end; lia.
Qed.

Lemma chars_valid s : Forall is_char (chars s).
Proof.
  unfold chars. generalize (S (String.length s)) as n. intros n. revert s.
  induction n as [|n IH]; intros s; cbn; [constructor|].
  destruct (next_char s) eqn:E; try constructor; [by eapply next_char_valid|done].
Qed.

Lemma of_chars_nil l : of_chars l = "" → l = [].
Proof.
  destruct l as [|c l]; [done|]. intros E. apply (f_equal String.length) in E.
  pose proof (of_chars_length (c :: l)) as Hl. rewrite E in Hl. cbn in Hl. lia.
Qed.

Lemma trim_start_suffix l : ∃ k, l = k ++ trim_start l ∧ Forall (λ c, is_whitespace c = true) k.
Proof.
  induction l as [|c l (k & E & Hk)]; cbn; [by exists []|].
  destruct (is_whitespace c) eqn:Hc; [|by exists []].
  exists (c :: k). cbn. rewrite <- E. by split; [|constructor].
Qed.

Lemma trim_start_head l c r : trim_start l = c :: r → is_whitespace c = false.
Proof.
  induction l as [|d l IH]; cbn; [done|]. destruct (is_whitespace d) eqn:E; [done|].
  by intros [= <- _].
Qed.

Definition trimmed (l : list Z) : list Z := rev (trim_start (rev (trim_start l))).

Lemma trimmed_infix l : ∃ a b, l = a ++ trimmed l ++ b ∧
  Forall (λ c, is_whitespace c = true) (a ++ b).
Proof.
  destruct (trim_start_suffix l) as (a & Ea & Ha).
  destruct (trim_start_suffix (rev (trim_start l))) as (b & Eb & Hb).
  exists a, (rev b). unfold trimmed. rewrite <- rev_app_distr, <- Eb, rev_involutive.
  split; [done|]. apply Forall_app. split; [done|]. by apply Forall_rev.
Qed.

Lemma chars_trim s : chars (trim s) = trimmed (chars s).
Proof.
  apply chars_of_chars. destruct (trimmed_infix (chars s)) as (a & b & E & _).
  pose proof (chars_valid s) as H. rewrite E in H. by apply Forall_app in H as [_ [? _]%Forall_app].
Qed.

Lemma char_count_trim s : (char_count (trim s) ≤ char_count s)%N.
Proof.
  unfold char_count. rewrite chars_trim. destruct (trimmed_infix (chars s)) as (a & b & E & _).
  apply (f_equal length) in E. rewrite !length_app in E. lia.
Qed.

(** What is trimmed is blank only if it was. *)
Lemma trim_blank s : trim s = "" ↔ Forall (λ c, is_whitespace c = true) (chars s).
Proof.
  split.
  - intros E%(f_equal chars). rewrite chars_trim in E. change (chars "") with (@nil Z) in E.
    destruct (trimmed_infix (chars s)) as (a & b & E' & Hab). rewrite E in E'. by rewrite E'.
  - intros H. change (of_chars (trimmed (chars s)) = "").
    assert (trimmed (chars s) = []) as ->; [|done].
    unfold trimmed. destruct (trim_start (rev (trim_start (chars s)))) as [|c r] eqn:Ec; [done|].
    exfalso. pose proof (trim_start_head _ _ _ Ec) as Hc.
    destruct (trim_start_suffix (rev (trim_start (chars s)))) as (k & Ek & _).
    destruct (trim_start_suffix (chars s)) as (k' & Ek' & _).
    rewrite Forall_forall in H. rewrite (H c) in Hc; [done|].
    rewrite Ek'. apply elem_of_app. right. apply list_elem_of_In, in_rev, list_elem_of_In.
    rewrite Ek, Ec. apply elem_of_app. right. left.
Qed.

Lemma trim_trim s : trim s ≠ "" → trim (trim s) ≠ "".
Proof.
  rewrite (trim_blank (trim s)), chars_trim. intros Hs Hw. apply Hs, trim_blank.
  destruct (trimmed_infix (chars s)) as (a & b & E & [Ha Hb]%Forall_app).
  rewrite E. by rewrite !Forall_app.
Qed.


(** ** The worlds of a form

    [sent] are the commands that were taken; clocks and random numbers do not add to them. *)
Class QueueLaws (W : Type) `{CommandQueue W} `{Rng W} `{System W} `{Calendar W} : Type := {
  sent : W → list Dispatch.Command.t;
  try_send_sent c w b w' :
    command_tx_try_send c w = (b, w') → sent w' = if b then sent w ++ [c] else sent w;
  next_sent : keeps sent next_u32;
  shuffle_sent l : keeps sent (shuffle l);
  now_sent : keeps sent now;
  today_sent : keeps sent local_today;
}.

(** ** Steps that send nothing *)

Section quiet.
Context `{TextAreaLib} `{Messages}.

Definition ok_tags (f : FormFields) : Prop := Forall (λ t, trim t ≠ "") (fd_tags f).

(** The form goes on as it was: it does not start or end to save, and no tag is blank. *)
Record quiet (s s' : FormState) : Prop := {
  q_saving : fm_saving s' = fm_saving s;
  q_weak : fm_show_weak_password_dialog s' = fm_show_weak_password_dialog s;
  q_tags : ok_tags (fm_fields s) → ok_tags (fm_fields s');
}.

#[export] Instance quiet_preorder : PreOrder quiet.
Proof. split; [done|]. intros s1 s2 s3 [] []. split; [congruence|congruence|auto]. Qed.

Lemma quiet_fields (f : FormFields → FormFields) s :
  (ok_tags (fm_fields s) → ok_tags (f (fm_fields s))) → quiet s (s <| fm_fields ::= f |>).
Proof. by split. Qed.

Lemma ok_tags_same f f' : fd_tags f' = fd_tags f → ok_tags f → ok_tags f'.
Proof. unfold ok_tags. by intros ->. Qed.

Lemma commit_ok f : ok_tags f → ok_tags (FormFields.commit_tag_input f).2.
Proof.
  intros Hf. unfold FormFields.commit_tag_input.
  destruct (bool_decide (trim (fd_tag_input f) = "")) eqn:Et; [done|]. cbn.
  case_match; [done|]. apply bool_decide_eq_false in Et.
  apply Forall_app. split; [done|]. constructor; [by apply trim_trim|constructor].
Qed.

Lemma remove_ok f : ok_tags f → ok_tags (FormFields.remove_focused_tag f).2.
Proof.
  intros Hf. unfold FormFields.remove_focused_tag. destruct (fd_tag_focus f); [|done].
  destruct (_ <=? _); [done|]. by apply Forall_delete.
Qed.

Lemma update_strength_tags f : fd_tags (FormFields.update_strength f) = fd_tags f.
Proof. unfold FormFields.update_strength. by case_match. Qed.

Lemma insert_char_ok i ct c f : ok_tags f → ok_tags (insert_char i ct c f).2.
Proof.
  intros Hf. unfold insert_char.
  repeat case_match; try done; try (by apply commit_ok).
Qed.

Lemma delete_char_ok i ct f : ok_tags f → ok_tags (delete_char i ct f).2.
Proof.
  intros Hf. unfold delete_char.
  repeat case_match; try done; try (by apply remove_ok).
  all: by eapply ok_tags_same; [apply update_strength_tags|].
Qed.

Lemma focus_tag_ok i f : ok_tags f → ok_tags (FormFields.focus_tag i f).2.
Proof. unfold FormFields.focus_tag. by case_match. Qed.

Lemma focus_next_tag_ok f : ok_tags f → ok_tags (FormFields.focus_next_tag f).2.
Proof. unfold FormFields.focus_next_tag. by case_match. Qed.

Lemma focus_prev_tag_ok f : ok_tags f → ok_tags (FormFields.focus_prev_tag f).2.
Proof. unfold FormFields.focus_prev_tag. by case_match. Qed.

Lemma switch_quiet ct s : quiet s (switch_credential_type ct s).
Proof.
  unfold switch_credential_type. case_match; [|done]. split; try done.
Qed.

Lemma focus_next_quiet s : quiet s (focus_next s).
Proof. unfold focus_next, leave_field. by repeat case_match; split. Qed.

Lemma focus_prev_quiet s : quiet s (focus_prev s).
Proof. unfold focus_prev, leave_field. by repeat case_match; split. Qed.

Lemma focus_field_quiet i s : quiet s (focus_field i s).
Proof. unfold focus_field. by case_match; split. Qed.

Lemma sub_focus_next_quiet s s' : sub_focus_next s = Some s' → quiet s s'.
Proof.
  unfold sub_focus_next. repeat case_match; try done.
  - destruct (head _); intros [= <-]. by split.
  - destruct (_ !! _); intros [= <-]. by split.
Qed.

Lemma sub_focus_prev_quiet s s' : sub_focus_prev s = Some s' → quiet s s'.
Proof.
  unfold sub_focus_prev. repeat case_match; try done.
  - intros [= <-]. by split.
  - destruct (_ !! _); intros [= <-]. by split.
Qed.

Lemma clear_error_quiet s : quiet s (clear_current_limit_error s).
Proof. by split. Qed.

Lemma set_error_quiet s : quiet s (set_current_limit_error s).
Proof. unfold set_current_limit_error, clear_current_limit_error. by repeat case_match; split. Qed.

Lemma toggle_quiet s : quiet s (toggle_current_visibility s).
Proof. unfold toggle_current_visibility. apply quiet_fields. by repeat case_match. Qed.

End quiet.

Create HintDb form.
#[export] Hint Resolve switch_quiet focus_next_quiet focus_prev_quiet focus_field_quiet
  clear_error_quiet set_error_quiet toggle_quiet commit_ok remove_ok insert_char_ok delete_char_ok
  focus_tag_ok focus_next_tag_ok focus_prev_tag_ok : form.

Section steps.
Context {W : Type} `{TextAreaLib} `{Translations} `{Messages} `{Rng W} `{CommandQueue W}.
Context `{System W} `{Calendar W} `{!QueueLaws W} `{TextWidth}.

Definition sends_nothing (p : RecordForm) (m : io W Step) : Prop :=
  ∀ w r w', m w = (r, w') → sent w' = sent w ∧ quiet (rf_form p) (rf_form r.1).

Lemma sn_ret p p' r : quiet (rf_form p) (rf_form p') → sends_nothing p (io_ret (p', r)).
Proof. by intros Hq w r' w' [= <- <-]. Qed.

Lemma sn_stay p p' : quiet (rf_form p) (rf_form p') → sends_nothing p (stay p').
Proof. apply sn_ret. Qed.

Lemma sn_form p f : quiet (rf_form p) (f (rf_form p)) → sends_nothing p (stay (on_form f p)).
Proof. intros Hf. by apply sn_stay. Qed.

Lemma sn_fields p (f : FormFields → FormFields) :
  (ok_tags (fm_fields (rf_form p)) → ok_tags (f (fm_fields (rf_form p)))) →
  sends_nothing p (stay (on_fields f p)).
Proof. intros Hf. apply sn_stay. by split. Qed.

Lemma sn_from p p' m :
  quiet (rf_form p) (rf_form p') → sends_nothing p' m → sends_nothing p m.
Proof. intros Hq Hm w r w' E. destruct (Hm _ _ _ E). split; [done|by etrans]. Qed.

Lemma regenerate_sent s : keeps sent (GeneratorState.regenerate s).
Proof.
  intros w r w' E. eapply (regenerate_preserves (λ w', sent w' = sent w)); [..|exact E|done].
  - intros w1 a w2 E' <-. by eapply next_sent.
  - intros l w1 a w2 E' <-. by eapply shuffle_sent.
Qed.

Lemma sn_generate p f : (∀ g, keeps sent (f g)) → sends_nothing p (generate_with f p).
Proof.
  intros Hf w r w' (g & w1 & E1 & [= <- <-])%io_bind_eq. split; [by eapply Hf|done].
Qed.

Lemma sn_expand p (g : io W GeneratorState) :
  keeps sent g →
  sends_nothing p (let* e := EmbeddedGeneratorState.expanded g in stay (p <| rf_generator := e |>)).
Proof.
  intros Hg w r w' (e & w1 & E1 & [= <- <-])%io_bind_eq.
  apply io_bind_eq in E1 as (g' & w2 & E2 & [= <- <-]). split; [by eapply Hg|done].
Qed.

#[local] Hint Resolve regenerate_sent : form.

Lemma toggle_char_type_sent i s : keeps sent (GeneratorState.toggle_char_type i s).
Proof. unfold GeneratorState.toggle_char_type. case_match; [apply regenerate_sent|apply keeps_ret]. Qed.

#[local] Hint Resolve toggle_char_type_sent : form.

(** One step of a handler: a branch, a change of the form, a new password. *)
Ltac quietly :=
  repeat first
    [ progress intros
    | case_match
    | match goal with
      | |- sends_nothing _ (stay (on_form _ _)) => apply sn_form
      | |- sends_nothing _ (stay (on_fields _ _)) => apply sn_fields; cbn
      | |- sends_nothing _ (stay _) => apply sn_stay
      | |- sends_nothing _ (io_ret _) => apply sn_ret
      | |- sends_nothing _ (generate_with _ _) => apply sn_generate; intros ?
      | |- quiet _ _ => solve [auto with form | by split]
      | |- keeps _ _ => solve [auto with form | apply regenerate_sent]
      end ].

Lemma char_input_quiet c p : sends_nothing p (handle_char_input c p).
Proof.
  unfold handle_char_input. destruct (_ || _); [quietly|]. destruct (negb _); [quietly|].
  destruct (insert_char _ _ _ _) as [changed f] eqn:E. apply sn_form. split; try done.
  cbn. intros Hp. apply (insert_char_ok (focused p) (ct p) c) in Hp. by rewrite E in Hp.
Qed.

Lemma backspace_quiet p : sends_nothing p (handle_backspace p).
Proof.
  unfold handle_backspace. destruct (_ || _); [quietly|].
  destruct (delete_char _ _ _) as [removed f] eqn:E. apply sn_stay.
  destruct removed; split; try done; cbn; intros Hp;
    apply (delete_char_ok (focused p) (ct p)) in Hp; by rewrite E in Hp.
Qed.

Lemma delete_quiet p : sends_nothing p (handle_delete p).
Proof.
  unfold handle_delete. destruct (if is_tags_focused p then _ else _) as [removed f] eqn:E.
  assert (ok_tags (fm_fields (rf_form p)) → ok_tags f) as Hf.
  { destruct (is_tags_focused p); [|by injection E as _ <-].
    intros Hp. apply remove_ok in Hp. by rewrite E in Hp. }
  destruct removed; [|destruct (textarea_captures_vertical _)]; apply sn_stay; split; auto.
Qed.

Lemma date_char_quiet c p : sends_nothing p (handle_date_char c p).
Proof. unfold handle_date_char. quietly. Qed.

Lemma date_backspace_quiet p : sends_nothing p (handle_date_backspace p).
Proof. unfold handle_date_backspace. quietly. Qed.

Lemma cancel_quiet p : sends_nothing p (cancel_form p).
Proof. unfold cancel_form. quietly. Qed.

Lemma unsaved_dialog_quiet key p : sends_nothing p (handle_unsaved_dialog key p).
Proof. unfold handle_unsaved_dialog. quietly. Qed.

Lemma use_password_quiet p : sends_nothing p (use_password p).
Proof.
  unfold use_password. destruct (EmbeddedGeneratorState.use_password _) as [pw e].
  apply sn_stay. by split.
Qed.

Lemma set_separator_quiet s p : sends_nothing p (set_separator s p).
Proof. unfold set_separator. quietly. Qed.

Lemma toggle_option_quiet i p : sends_nothing p (toggle_generator_option i p).
Proof. unfold toggle_generator_option. quietly. Qed.

#[local] Hint Resolve use_password_quiet set_separator_quiet toggle_option_quiet : form.

Lemma activate_generator_quiet p : sends_nothing p (activate_generator_focus p).
Proof. unfold activate_generator_focus. repeat case_match; auto with form; quietly. Qed.

#[local] Hint Resolve activate_generator_quiet : form.

Lemma generator_focus_key_quiet key p : sends_nothing p (handle_generator_focus_key key p).
Proof. unfold handle_generator_focus_key. repeat case_match; auto with form; quietly. Qed.

#[local] Hint Resolve generator_focus_key_quiet : form.

Lemma generator_key_quiet key p : sends_nothing p (handle_generator_key key p).
Proof. unfold handle_generator_key. repeat case_match; auto with form; quietly. Qed.

Lemma credential_dropdown_quiet key p : sends_nothing p (handle_credential_dropdown key p).
Proof.
  unfold handle_credential_dropdown. repeat case_match; quietly.
  all: by etrans; [apply switch_quiet|split].
Qed.

Lemma expiry_dropdown_quiet key p : sends_nothing p (handle_expiry_dropdown key p).
Proof. unfold handle_expiry_dropdown. repeat case_match; quietly. Qed.

Lemma key_down_quiet p : sends_nothing p (key_down p).
Proof. unfold key_down. quietly. Qed.

Lemma key_up_quiet p : sends_nothing p (key_up p).
Proof. unfold key_up. quietly. Qed.

(** Lists that open change nothing else. *)
Definition opens_quietly (open : RecordForm → option RecordForm) : Prop :=
  ∀ p p', open p = Some p' → quiet (rf_form p) (rf_form p').

Lemma open_expiry_quiet : opens_quietly open_expiry.
Proof. intros p p'. unfold open_expiry. case_match; [|done]. intros [= <-]. by split. Qed.

Lemma open_list_quiet : opens_quietly open_list.
Proof.
  intros p p'. unfold open_list. case_match; [|apply open_expiry_quiet]. intros [= <-]. by split.
Qed.

Lemma outside_footer_quiet open : opens_quietly open → opens_quietly (outside_footer open).
Proof. intros Ho p p'. unfold outside_footer. case_match; [done|apply Ho]. Qed.

Lemma sub_focus_or_quiet s (f : FormState → FormState) o :
  (∀ s', o = Some s' → quiet s s') → quiet s (f s) → quiet s (default (f s) o).
Proof. destruct o; cbn; auto. Qed.

Lemma tags_first_quiet nav rest p :
  (∀ f, ok_tags f → ok_tags (nav f).2) → (∀ p, sends_nothing p (rest p)) →
  sends_nothing p (tags_first nav rest p).
Proof.
  intros Hnav Hk. unfold tags_first. destruct (if is_tags_focused p then _ else _) as [moved f] eqn:E.
  assert (ok_tags (fm_fields (rf_form p)) → ok_tags f) as Hf.
  { destruct (is_tags_focused p); [|by injection E as _ <-].
    intros Hp. apply Hnav in Hp. by rewrite E in Hp. }
  destruct moved; [apply sn_stay; by split|]. eapply sn_from; [|apply Hk]. by split.
Qed.

Lemma key_right_quiet open p : opens_quietly open → sends_nothing p (key_right open p).
Proof.
  intros Ho. unfold key_right. apply tags_first_quiet; [auto with form|]. clear p. intros p.
  destruct (open p) eqn:E; [by apply sn_stay, Ho|]. case_match; [quietly|].
  apply sn_form, sub_focus_or_quiet; [apply sub_focus_next_quiet|auto with form].
Qed.

Lemma key_left_quiet p : sends_nothing p (key_left p).
Proof.
  unfold key_left. apply tags_first_quiet; [auto with form|]. clear p. intros p.
  case_match; [quietly|].
  apply sn_form, sub_focus_or_quiet; [apply sub_focus_prev_quiet|auto with form].
Qed.

Lemma expand_quiet config p : sends_nothing p (expand_from_config config p).
Proof. apply sn_expand. intros w r w'. apply regenerate_sent. Qed.

Lemma generate_shortcut_quiet config p : sends_nothing p (activate_generate_shortcut config p).
Proof.
  unfold activate_generate_shortcut. case_match; [|quietly].
  eapply sn_from; [|apply expand_quiet]. apply focus_field_quiet.
Qed.

Lemma visibility_quiet p : sends_nothing p (activate_visibility_shortcut p).
Proof.
  unfold activate_visibility_shortcut, focus_secret. apply sn_stay. cbn.
  etrans; [apply focus_field_quiet|apply toggle_quiet].
Qed.

Lemma copy_quiet p : sends_nothing p (copy_current p).
Proof. unfold copy_current. quietly. Qed.

Lemma copy_shortcut_quiet p : sends_nothing p (activate_copy_shortcut p).
Proof. eapply sn_from; [|apply copy_quiet]. apply focus_field_quiet. Qed.

Lemma enter_notes_quiet p : sends_nothing p (enter_notes p).
Proof. unfold enter_notes. quietly. Qed.

Lemma enter_tag_quiet p : sends_nothing p (enter_tag p).
Proof.
  unfold enter_tag. destruct (FormFields.commit_tag_input _) as [added f] eqn:E.
  apply sn_stay. destruct added; split; try done; cbn; intros Hp%commit_ok; by rewrite E in Hp.
Qed.

#[local] Hint Resolve enter_notes_quiet enter_tag_quiet copy_quiet : form.

Lemma enter_field_quiet open p : opens_quietly open → sends_nothing p (enter_field open p).
Proof.
  intros Ho. unfold enter_field. destruct (open p) eqn:E; [by apply sn_stay, Ho|].
  case_match; [auto with form|quietly].
Qed.

#[local] Hint Resolve enter_field_quiet : form.

Lemma enter_buttons_quiet generate open p :
  (∀ p, sends_nothing p (generate p)) → opens_quietly open →
  sends_nothing p (enter_buttons generate open p).
Proof.
  intros Hg Ho. unfold enter_buttons. repeat case_match; auto with form; quietly.
Qed.

Lemma type_char_quiet c p : sends_nothing p (type_char c p).
Proof. unfold type_char. case_match; [apply date_char_quiet|apply char_input_quiet]. Qed.

Lemma type_backspace_quiet p : sends_nothing p (type_backspace p).
Proof. unfold type_backspace. case_match; [apply date_backspace_quiet|apply backspace_quiet]. Qed.

(** *** Saving *)

(** What the vault checks of a new record. *)
Definition valid (s : FormState) : Prop :=
  validate_payload (build_payload_snapshot s) = Ok () ∧ validate_tags (fd_tags (fm_fields s)) = Ok ().

Definition same_content (s s' : FormState) : Prop :=
  fm_fields s' = fm_fields s ∧ fm_credential_type s' = fm_credential_type s.

Lemma same_valid s s' : same_content s s' → valid s → valid s'.
Proof. unfold valid, build_payload_snapshot. by intros [-> ->]. Qed.

Lemma same_tags s s' : same_content s s' → ok_tags (fm_fields s) → ok_tags (fm_fields s').
Proof. by intros [-> _]. Qed.

Lemma len_ok field i v max : Validation.push_len_error i v max = [] → validate_len field v max = Ok ().
Proof. unfold Validation.push_len_error, validate_len. by case_match. Qed.

Lemma optional_len_ok field i v max :
  Validation.push_len_error i v max = [] → validate_optional_len field (optional_notes v) max = Ok ().
Proof.
  unfold optional_notes. intros E%(len_ok field). by case_match.
Qed.

Lemma option_len_ok field i v max :
  Validation.len_error i v max = [] → validate_len field (default "" v) max = Ok ().
Proof.
  destruct v; [apply len_ok|]. intros _. unfold validate_len. cbn. by destruct max.
Qed.

Lemma optional_secret_ok field i v max :
  Validation.len_error i v max = [] →
  match v with Some s => validate_len field s max | None => Ok () end = Ok ().
Proof. destruct v; [apply len_ok|done]. Qed.

Lemma tags_valid f ct :
  Validation.tag_errors f ct = [] → ok_tags f → validate_tags (fd_tags f) = Ok ().
Proof.
  unfold Validation.tag_errors, validate_tags.
  destruct (MAX_TAGS_PER_RECORD <? N.of_nat (length (fd_tags f)))%N; [done|].
  intros [_ [E _]%app_eq_nil]%app_eq_nil. unfold ok_tags. revert E. induction (fd_tags f) as [|t l IH]; [done|].
  cbn [validate_each_tag]. intros [Et El]%app_eq_nil [Ht Hl]%Forall_cons.
  rewrite bool_decide_eq_false_2 by done. unfold validate_len. rewrite (proj2 (N.ltb_ge _ _)).
  - by apply IH.
  - unfold Validation.push_len_error in Et. destruct (_ <? _)%N eqn:Elen; [done|].
    apply N.ltb_ge in Elen. pose proof (char_count_trim t). lia.
Qed.

Lemma form_validate_valid s w w' :
  Validation.validate (fm_fields s) (fm_credential_type s) w = ([], w') →
  ok_tags (fm_fields s) → valid s.
Proof.
  intros (date & w1 & _ & [= E _])%io_bind_eq Ht.
  apply app_eq_nil in E as [Hname E]. apply app_eq_nil in Hname as [_ Hname].
  apply app_eq_nil in E as [Htype E]. apply app_eq_nil in E as [Hurl E].
  apply app_eq_nil in E as [Hnotes E]. apply app_eq_nil in E as [Htags _].
  split; [|by eapply tags_valid].
  unfold Validation.required_text in *. cbn in Hname.
  unfold build_payload_snapshot. destruct (fm_credential_type s); cbn in Htype, Hnotes, Hurl |- *.
  - apply app_eq_nil in Htype as [[_ H1']%app_eq_nil [_ H2']%app_eq_nil].
    rewrite (len_ok "name" _ _ _ Hname), (option_len_ok "username" _ _ _ H1'). cbn.
    rewrite (option_len_ok "password" _ _ _ H2'), (len_ok "url" _ _ _ Hurl). cbn.
    by eapply optional_len_ok.
  - apply app_eq_nil in Htype as [[_ H1']%app_eq_nil [_ H2']%app_eq_nil].
    rewrite (len_ok "name" _ _ _ Hname), (option_len_ok "app_id" _ _ _ H1'). cbn.
    rewrite (option_len_ok "secret_key" _ _ _ H2'), (len_ok "url" _ _ _ Hurl). cbn.
    by eapply optional_len_ok.
  - apply app_eq_nil in Htype as [[_ H1']%app_eq_nil H2'].
    apply app_eq_nil in H2' as [H2' H3'].
    rewrite (len_ok "name" _ _ _ Hname), (option_len_ok "public_key" _ _ _ H1'). cbn.
    rewrite (optional_secret_ok "private_key" _ _ _ H2'). cbn.
    rewrite (optional_secret_ok "passphrase" _ _ _ H3'). cbn.
    by eapply optional_len_ok.
  - rewrite (len_ok "name" _ _ _ Hname). cbn. by eapply optional_len_ok.
Qed.

Lemma validate_date_sent d : keeps sent (Validation.validate_date d).
Proof.
  pose proof today_sent as Ht. unfold Validation.validate_date.
  repeat case_match; try apply keeps_ret. apply keeps_bind; [done|intros; apply keeps_ret].
Qed.

Lemma validate_sent f ct : keeps sent (Validation.validate f ct).
Proof.
  unfold Validation.validate, Validation.date_errors. apply keeps_bind; [|intros; apply keeps_ret].
  repeat case_match; try apply keeps_ret.
  apply keeps_bind; [apply validate_date_sent|intros; apply keeps_ret].
Qed.

Lemma expiry_sent s : keeps sent (expiry_datetime s).
Proof.
  pose proof now_sent as Hn. unfold expiry_datetime, ExpiryOption.to_datetime.
  repeat case_match; try apply keeps_ret; (apply keeps_bind; [done|intros; apply keeps_ret]).
Qed.

(** The command that saves the form. *)
Definition saves (s : FormState) (c : Dispatch.Command.t) : Prop :=
  ∃ expires_at, c = Dispatch.Command.CreateRecord (fm_credential_type s)
    (build_payload_snapshot s) (fd_tags (fm_fields s)) false expires_at.

Lemma same_saves s s' c : same_content s s' → saves s c → saves s' c.
Proof. unfold saves, build_payload_snapshot. by intros [-> ->]. Qed.

(** What one step of the screen of a new record does: it goes on; or it asks about a weak
    password of a valid form; or it closes that question; or it sends what is in the form,
    which was found valid in this step or is what was asked about. *)
Inductive effect (s : FormState) (w : W) (s' : FormState) (w' : W) : Prop :=
| Goes_on : sent w' = sent w → quiet s s' → effect s w s' w'
| Asks : sent w' = sent w → fm_saving s' = fm_saving s → same_content s s' →
    (ok_tags (fm_fields s) → valid s) → effect s w s' w'
| Closes : sent w' = sent w → fm_saving s' = fm_saving s → same_content s s' →
    fm_show_weak_password_dialog s' = false → effect s w s' w'
| Saves c : sent w' = sent w ++ [c] → saves s c → fm_saving s' = true → same_content s s' →
    fm_show_weak_password_dialog s' = false →
    fm_show_weak_password_dialog s = true ∨ (ok_tags (fm_fields s) → valid s) →
    effect s w s' w'.

Lemma sn_effect p m w r w' :
  sends_nothing p m → m w = (r, w') → effect (rf_form p) w (rf_form r.1) w'.
Proof. intros Hm E. destruct (Hm _ _ _ E). by apply Goes_on. Qed.

Import CreateRecordScreen.

Lemma submit_effect p w r w' :
  submit_create_record p w = (r, w') →
  (sent w' = sent w ∧ same_content (rf_form p) (rf_form r.1) ∧ quiet (rf_form p) (rf_form r.1)) ∨
  ∃ c, sent w' = sent w ++ [c] ∧ saves (rf_form p) c ∧ fm_saving (rf_form r.1) = true ∧
    same_content (rf_form p) (rf_form r.1) ∧
    fm_show_weak_password_dialog (rf_form r.1) = false.
Proof.
  intros (c & w1 & Ec & E)%io_bind_eq.
  apply io_bind_eq in Ec as (e & w2 & Ee & [= <- <-]).
  apply io_bind_eq in E as (failed & w3 & Ef & [= <- <-]).
  apply io_bind_eq in Ef as (taken & w4 & Et & [= <- <-]).
  apply try_send_sent in Et. apply expiry_sent in Ee. rewrite Ee in Et.
  destruct taken; [right|by left]. eexists. split; [exact Et|]. by split; [eexists|].
Qed.

Lemma attempt_effect p w r w' :
  attempt_save submit_create_record p w = (r, w') → effect (rf_form p) w (rf_form r.1) w'.
Proof.
  intros (errors & w1 & Ev & E)%io_bind_eq. pose proof (validate_sent _ _ _ _ _ Ev) as Hs.
  destruct errors as [|e errors]; [|injection E as <- <-; by apply Goes_on].
  pose proof (form_validate_valid (rf_form p) w w1 Ev) as Hv.
  destruct (bool_decide _ && _); [injection E as <- <-; by apply Asks|].
  apply submit_effect in E as [(E & Hc & Hq)|(c & E & Hsave & Hsv & Hc & Hw)]; rewrite Hs in E.
  - by apply Goes_on.
  - eapply Saves; eauto.
Qed.

Lemma weak_dialog_effect key p w r w' :
  fm_show_weak_password_dialog (rf_form p) = true →
  handle_weak_password_dialog submit_create_record key p w = (r, w') →
  effect (rf_form p) w (rf_form r.1) w' ∧ same_content (rf_form p) (rf_form r.1).
Proof.
  intros Hweak E. unfold handle_weak_password_dialog in E.
  destruct key; try (injection E as <- <-; split; [by apply Goes_on|done]);
    [|injection E as <- <-; split; [by apply Closes|done]].
  destruct (_ =? 0); [injection E as <- <-; split; [by apply Closes|done]|].
  apply submit_effect in E as [(E & Hc & Hq)|(c & E & Hsave & Hsv & Hc & Hw)]; split; try done.
  - apply Closes; [done|apply (q_saving _ _ Hq)|done|]. by rewrite (q_weak _ _ Hq).
  - eapply Saves; eauto.
Qed.

(** *** The keys *)

Lemma footer_effect button p w r w' :
  activate_footer_button submit_create_record button p w = (r, w') →
  effect (rf_form p) w (rf_form r.1) w'.
Proof. destruct button; [apply attempt_effect|]. apply sn_effect, cancel_quiet. Qed.

Lemma form_enter_effect generate p w r w' :
  (∀ p, sends_nothing p (generate p)) →
  form_enter keys generate p w = (r, w') → effect (rf_form p) w (rf_form r.1) w'.
Proof.
  intros Hg. unfold form_enter. destruct (fm_footer_focus _); [apply footer_effect|].
  apply sn_effect, enter_buttons_quiet; [done|apply open_list_quiet].
Qed.

Lemma char_key_effect config event c p w r w' :
  match shortcut_key keys config event p with
  | Some action => action
  | None => if is_key " " (KeyCode.Char c) && fk_space keys p
            then form_enter keys (expand_from_config config) p else type_char c p
  end w = (r, w') → effect (rf_form p) w (rf_form r.1) w'.
Proof.
  unfold shortcut_key.
  destruct (negb _); [|destruct (is_key "g" _); [|destruct (is_key "v" _);
    [|destruct (is_key "c" _); [|destruct (is_key "s" _)]]]];
    try (apply sn_effect; first [apply generate_shortcut_quiet | apply visibility_quiet
                                | apply copy_shortcut_quiet]);
    try apply attempt_effect;
    (destruct (_ && _); [apply form_enter_effect, expand_quiet|apply sn_effect, type_char_quiet]).
Qed.

Lemma field_key_effect config event p w r w' :
  field_key keys config event p w = (r, w') → effect (rf_form p) w (rf_form r.1) w'.
Proof.
  unfold field_key. destruct (ke_code event);
    first [apply char_key_effect
      |apply form_enter_effect, expand_quiet
      |apply sn_effect; first
        [apply type_backspace_quiet|apply key_left_quiet
        |apply key_right_quiet, outside_footer_quiet, open_list_quiet
        |apply key_up_quiet|apply key_down_quiet|apply cancel_quiet|apply delete_quiet
        |apply sn_form; auto with form|by apply sn_stay]].
Qed.

(** While it saves, and while the weak password is asked about, the content stays. *)
Lemma key_effect config event p w r w' :
  handle_key config event p w = (r, w') →
  (fm_saving (rf_form p) = true → r.1 = p ∧ w' = w) ∧
  effect (rf_form p) w (rf_form r.1) w' ∧
  (fm_show_weak_password_dialog (rf_form p) = true → same_content (rf_form p) (rf_form r.1)).
Proof.
  unfold handle_key, form_key. destruct (fm_saving (rf_form p)) eqn:Hsv.
  { intros [= <- <-]. split_and!; [done|by apply Goes_on|done]. }
  intros E. split; [done|]. revert E.
  destruct (fm_show_weak_password_dialog _) eqn:Hweak.
  { by intros [He Hc]%weak_dialog_effect. }
  intros E. split; [|done]. revert E.
  destruct (fm_show_unsaved_dialog _); [apply sn_effect, unsaved_dialog_quiet|].
  destruct (eg_expanded _); [apply sn_effect, generator_key_quiet|].
  cbn [fk_lists keys]. unfold dropdown_key.
  destruct (dd_expanded _); [apply sn_effect, credential_dropdown_quiet|].
  destruct (dd_expanded _); [apply sn_effect, expiry_dropdown_quiet|apply field_key_effect].
Qed.

(** *** The mouse *)

Lemma generator_mouse_quiet target is_click p :
  sends_nothing p (handle_generator_mouse_target target is_click p).
Proof.
  unfold handle_generator_mouse_target. cbv zeta.
  destruct target; [apply sn_stay; by split|..];
    (destruct is_click; [|apply sn_stay; by split]);
    (eapply sn_from; [|first [apply sn_generate; intros g w r w'; apply regenerate_sent
                             |apply toggle_option_quiet|apply activate_generator_quiet]]);
    by split.
Qed.

Lemma enter_without_context_quiet p : sends_nothing p (enter_without_context p).
Proof.
  unfold enter_without_context. case_match; [quietly|].
  apply enter_buttons_quiet; [|apply open_list_quiet]. intros p'.
  apply sn_expand. intros w r w'. apply regenerate_sent.
Qed.

Lemma effect_from s0 s w s' w' :
  quiet s0 s → fm_fields s = fm_fields s0 → fm_credential_type s = fm_credential_type s0 →
  effect s w s' w' → effect s0 w s' w'.
Proof.
  intros Hq Hf Hct He. assert (same_content s0 s) as Hc by done.
  assert (same_content s s0) as Hc' by (by split; symmetry).
  assert (∀ s', same_content s s' → same_content s0 s') as Ht.
  { intros s1 [E1 E2]. split; congruence. }
  destruct He as [Es Hq'|Es Hsv Hs Hv|Es Hsv Hs Hw|c Es Hs Hsv Hsm Hw Hv].
  - apply Goes_on; [done|by etrans].
  - apply Asks; [done|by rewrite Hsv, (q_saving _ _ Hq)|auto|]. rewrite <- Hf. intros Ht'.
    by eapply same_valid, Hv.
  - apply Closes; [done|by rewrite Hsv, (q_saving _ _ Hq)|auto|done].
  - eapply Saves; [done|by eapply same_saves|done|auto|done|].
    destruct Hv as [Hv|Hv]; [left; by rewrite <- (q_weak _ _ Hq)|right].
    rewrite <- Hf. intros Ht'. by eapply same_valid, Hv.
Qed.

Lemma target_effect target is_click p w r w' :
  on_target target is_click p w = (r, w') → effect (rf_form p) w (rf_form r.1) w'.
Proof.
  assert (∀ i, quiet (rf_form p) (rf_form (on_form (focus_field i) p))) as Hfocus.
  { intros i. apply focus_field_quiet. }
  destruct target as [i| |i| |i|b|t|i|b]; cbn [on_target].
  - apply sn_effect. quietly.
  - destruct is_click; [|apply sn_effect, sn_stay, Hfocus].
    apply sn_effect. eapply sn_from; [apply (Hfocus 0)|]. by apply sn_form.
  - destruct is_click; [|apply sn_effect, sn_form; by etrans; [apply (focus_field_quiet 0)|split]].
    apply sn_effect. eapply sn_from; [|apply credential_dropdown_quiet].
    by etrans; [apply (focus_field_quiet 0)|split].
  - destruct is_click; [|apply sn_effect, sn_stay, Hfocus].
    apply sn_effect. eapply sn_from; [apply Hfocus|]. by apply sn_form.
  - destruct is_click;
      [|apply sn_effect, sn_form; by etrans; [apply (focus_field_quiet (expiry_field_index (ct p)))|split]].
    apply sn_effect. eapply sn_from; [|apply expiry_dropdown_quiet].
    by etrans; [apply (focus_field_quiet (expiry_field_index (ct p)))|split].
  - destruct is_click;
      [|apply sn_effect, sn_form; by etrans; [apply (focus_field_quiet (secret_field_index (ct p)))|split]].
    apply sn_effect. eapply sn_from; [|apply enter_without_context_quiet].
    by etrans; [apply (focus_field_quiet (secret_field_index (ct p)))|split].
  - apply sn_effect, generator_mouse_quiet.
  - apply sn_effect. eapply sn_from; [apply (Hfocus (tags_field_index (ct p)))|].
    apply sn_fields, focus_tag_ok.
  - destruct is_click; [|apply sn_effect; quietly].
    intros E%footer_effect. by eapply effect_from; [..|exact E].
Qed.

Lemma mouse_effect area event p w r w' :
  handle_mouse area event p w = (r, w') →
  (fm_saving (rf_form p) = true → r.1 = p ∧ w' = w) ∧ effect (rf_form p) w (rf_form r.1) w'.
Proof.
  unfold handle_mouse. destruct (fm_saving (rf_form p)) eqn:Hsv.
  { intros [= <- <-]. split; [done|by apply Goes_on]. }
  intros E. split; [done|]. revert E.
  destruct (me_kind event); try (by apply sn_effect, sn_stay);
    (destruct (hit_test _ _ _ _); [apply target_effect|by apply sn_effect, sn_stay]).
Qed.

(** ** Sessions *)

Definition is_mouse (msg : Message.t) : bool :=
  match msg with Message.MouseEvent _ => true | _ => false end.

Definition is_result (msg : Message.t) : bool :=
  match msg with Message.CommandCompleted _ => true | _ => false end.

Definition form_of (s : CreateRecordScreen) : FormState := rf_form (cr_panel s).

(** A message that is neither a key nor of the mouse sends nothing and leaves the content; it
    ends the saving only when it is a result. *)
Lemma other_effect config msg s w r w' :
  is_mouse msg = false → (∀ event, msg ≠ Message.KeyEvent event) →
  update config msg s w = (r, w') →
  w' = w ∧ same_content (form_of s) (form_of r.1) ∧
  fm_show_weak_password_dialog (form_of r.1) = fm_show_weak_password_dialog (form_of s) ∧
  (is_result msg = false → fm_saving (form_of r.1) = fm_saving (form_of s)).
Proof.
  intros Hm Hk. unfold update.
  destruct msg as [result| | | | | | | |]; try done; try (by intros [= <- <-]).
  - destruct result as [result|?|?|?|?|?]; try (by intros [= <- <-]).
    intros [= <- <-]. unfold on_result. split; [done|].
    destruct result; cbn; try done; by repeat case_match.
  - by destruct (Hk key).
  - intros [= <- <-]. unfold tick_saving, form_of. cbn. split; [done|]. by case_match.
Qed.

Lemma in_panel_eq (step : RecordForm → io W Step) s w r w' :
  in_panel step s w = (r, w') →
  ∃ q, step (cr_panel s) w = (q, w') ∧ cr_panel r.1 = q.1.
Proof. intros (q & w1 & E & [= <- <-])%io_bind_eq. by exists q. Qed.

(** *** What is sent passes the checks of the vault *)

Definition accepted (c : Dispatch.Command.t) : Prop :=
  match c with
  | Dispatch.Command.CreateRecord _ payload tags _ _ =>
      ∀ w : W, Records.check_limits payload tags w = (Ok (), w)
  | _ => False
  end.

Lemma valid_accepted s c : valid s → saves s c → accepted c.
Proof.
  intros [Hp Ht] (e & ->) w. unfold Records.check_limits. by rewrite Hp, Ht.
Qed.

(** The content is valid while the weak password is asked about. *)
Definition checked (s : FormState) : Prop :=
  ok_tags (fm_fields s) ∧ (fm_show_weak_password_dialog s = true → valid s).

Lemma key_checked config event p w r w' :
  handle_key config event p w = (r, w') → checked (rf_form p) →
  checked (rf_form r.1) ∧ ∃ cs, sent w' = sent w ++ cs ∧ Forall accepted cs.
Proof.
  intros (_ & He & Hweak)%key_effect [Ht Hv].
  assert (sent w' = sent w → ∃ cs, sent w' = sent w ++ cs ∧ Forall accepted cs) as Hnone.
  { intros ->. exists []. by rewrite app_nil_r. }
  destruct He as [Es Hq|Es Hsv Hs Hok|Es Hsv Hs Hw|c Es Hs Hsv Hsm Hw Hok].
  - split; [|auto]. split; [by apply (q_tags _ _ Hq)|]. rewrite (q_weak _ _ Hq). intros E.
    eapply same_valid; [by apply Hweak|auto].
  - split; [|auto]. split; [by eapply same_tags|]. intros _. eapply same_valid; [done|auto].
  - split; [|auto]. split; [by eapply same_tags|]. by rewrite Hw.
  - split; [split; [by eapply same_tags|by rewrite Hw]|]. exists [c]. split; [done|].
    repeat constructor. eapply valid_accepted; [|done]. destruct Hok; auto.
Qed.

Lemma update_checked config msg s w r w' :
  is_mouse msg = false → update config msg s w = (r, w') → checked (form_of s) →
  checked (form_of r.1) ∧ ∃ cs, sent w' = sent w ++ cs ∧ Forall accepted cs.
Proof.
  intros Hm E [Ht Hv].
  assert ((∃ event, msg = Message.KeyEvent event) ∨ (∀ event, msg ≠ Message.KeyEvent event))
    as [[event ->]|Hn] by (destruct msg; eauto).
  - apply in_panel_eq in E as (q & E & Hq). unfold form_of. rewrite Hq. by eapply key_checked.
  - apply other_effect in E as (-> & Hs & Hw & _); [|done..].
    split; [split; [by eapply same_tags|]|exists []; by rewrite app_nil_r].
    rewrite Hw. intros E. eapply same_valid; [done|auto].
Qed.


(** *** What is saved is saved once *)

Lemma effect_once s w s' w' :
  effect s w s' w' → fm_saving s = false →
  (sent w' = sent w ∧ fm_saving s' = false) ∨
  ∃ c, sent w' = sent w ++ [c] ∧ fm_saving s' = true.
Proof.
  intros [Es Hq|Es Hsv _ _|Es Hsv _ _|c Es _ Hsv _ _ _] Hf.
  - left. split; [done|]. by rewrite (q_saving _ _ Hq).
  - left. by rewrite Hsv.
  - left. by rewrite Hsv.
  - right. by exists c.
Qed.

Lemma update_once config msg s w r w' :
  is_result msg = false → update config msg s w = (r, w') →
  (fm_saving (form_of s) = true → w' = w ∧ fm_saving (form_of r.1) = true) ∧
  (fm_saving (form_of s) = false →
   (sent w' = sent w ∧ fm_saving (form_of r.1) = false) ∨
   ∃ c, sent w' = sent w ++ [c] ∧ fm_saving (form_of r.1) = true).
Proof.
  intros Hr E.
  assert ((∃ q, cr_panel r.1 = q ∧
            (fm_saving (form_of s) = true → q = cr_panel s ∧ w' = w) ∧
            effect (form_of s) w (rf_form q) w') ∨
          (w' = w ∧ fm_saving (form_of r.1) = fm_saving (form_of s))) as [(q & Hq & Hsv & He)|[-> ->]].
  { destruct msg; [right|left|left|right..]; try (by injection E as <- <-).
    - done.
    - apply in_panel_eq in E as (q & E & Hq). apply key_effect in E as (Hk & He & _).
      exists q.1. by split_and!.
    - apply in_panel_eq in E as (q & E & Hq). apply mouse_effect in E as (Hk & He).
      exists q.1. by split_and!.
    - apply other_effect in E as (-> & _ & _ & Hsv); [|done..]. split; [done|by apply Hsv]. }
  - unfold form_of at 2 4 5. rewrite Hq. split; [|by apply effect_once].
    intros Hs. destruct (Hsv Hs) as [-> ->]. done.
  - split; [done|]. intros ->. by left.
Qed.

Lemma waits config msgs s w s' w' :
  Forall (λ msg, is_result msg = false) msgs → fm_saving (form_of s) = true →
  updates config msgs s w = (s', w') → w' = w ∧ fm_saving (form_of s') = true.
Proof.
  intros Hm. revert s w.
  induction Hm as [|msg msgs Hm _ IH]; intros s w Hs E; [by injection E as <- <-|].
  apply io_bind_eq in E as (r & w1 & E1 & E2).
  apply update_once in E1 as [E1 _]; [|done]. destruct (E1 Hs) as [-> Hr]. by eapply IH.
Qed.

(** Until the result of a command comes, at most one command is sent, whatever keys are
    pressed and wherever the mouse is clicked; and when one was sent the screen is waiting. *)
Theorem saved_once config msgs s w s' w' :
  Forall (λ msg, is_result msg = false) msgs → fm_saving (form_of s) = false →
  updates config msgs s w = (s', w') →
  sent w' = sent w ∨ ∃ c, sent w' = sent w ++ [c] ∧ fm_saving (form_of s') = true.
Proof.
  intros Hm. revert s w.
  induction Hm as [|msg msgs Hm Hms IH]; intros s w Hs E; [injection E as <- <-; by left|].
  apply io_bind_eq in E as (r & w1 & E1 & E2).
  apply update_once in E1 as [_ E1]; [|done].
  destruct (E1 Hs) as [[Es Hr]|(c & Es & Hr)].
  - rewrite <- Es. by eapply IH.
  - eapply waits in E2 as [-> Hs']; [|done..]. right. by exists c.
Qed.

(** ** What is typed is saved *)

Definition pressed (code : KeyCode.t) : Message.t := Message.KeyEvent (mkKeyEvent code no_modifiers).

Definition with_control (c : Z) : Message.t :=
  Message.KeyEvent (mkKeyEvent (KeyCode.Char c) (mkKeyModifiers false true false false false)).

Definition typing (l : list Z) : list Message.t := typed <$> l.

(** The keys that fill in the form of a login and save it. *)
Definition login_session (name url username password : list Z) : list Message.t :=
  pressed KeyCode.Tab :: typing name ++ pressed KeyCode.Tab :: typing url
  ++ pressed KeyCode.Tab :: typing username ++ pressed KeyCode.Tab :: typing password
  ++ [with_control (ch "s")].

(** The form of a login in which nothing but these texts was entered. *)
Definition login_form (focused : nat) (name url username password : string) (changed : bool)
  : FormState :=
  mkFormState _ FormMode.Create CredentialType.Login
    (mkFormFields _ name url (Some username) (Some password) false
       (if bool_decide (password = "") then None else Some (evaluate_strength password))
       None None false None None false None false ExpiryOption.Never None [] "" None ta_default)
    focused changed [] (mkDropdownState false 0) (mkDropdownState false 0) false 0 false 0
    PasswordFieldFocus.Input None false 0.

Definition with_form (s : CreateRecordScreen) (f : FormState) : CreateRecordScreen :=
  s <| cr_panel ::= on_form (λ _, f) |>.

Lemma with_form_eq s : with_form s (form_of s) = s.
Proof. by destruct s as [[]]. Qed.

Definition closed_generator (s : CreateRecordScreen) : Prop :=
  eg_expanded (rf_generator (cr_panel s)) = false.

Lemma update_tab config s w i name url username password changed :
  closed_generator s → i < 4 →
  update config (pressed KeyCode.Tab)
    (with_form s (login_form i name url username password changed)) w =
  ((with_form s (login_form (S i) name url username password changed), ScreenResult.Continue), w).
Proof.
  intros Hg Hi. destruct s as [[f [e g]] tags area]. unfold closed_generator in Hg. cbn in Hg. subst e.
  destruct i as [|[|[|[|]]]]; [reflexivity..|lia].
Qed.

(** The text of the field that is focused. *)
Definition with_text (i : nat) (text name url username password : string) (changed : bool)
  : FormState :=
  match i with
  | 1 => login_form 1 text url username password changed
  | 2 => login_form 2 name text username password changed
  | 3 => login_form 3 name url text password changed
  | _ => login_form 4 name url username text changed
  end.

Definition text_limit (i : nat) : N :=
  match i with
  | 1 => MAX_RECORD_NAME_CHARS
  | 2 => MAX_URL_CHARS
  | 3 => MAX_LOGIN_USERNAME_CHARS
  | _ => MAX_LOGIN_PASSWORD_CHARS
  end.

(** No dialog, no list and no generator is open, and nothing is being saved. *)
Record calm_form (p : RecordForm) : Prop := {
  cf_saving : fm_saving (rf_form p) = false;
  cf_weak : fm_show_weak_password_dialog (rf_form p) = false;
  cf_unsaved : fm_show_unsaved_dialog (rf_form p) = false;
  cf_generator : eg_expanded (rf_generator p) = false;
  cf_credentials : dd_expanded (fm_credential_dropdown (rf_form p)) = false;
  cf_expiries : dd_expanded (fm_expiry_dropdown (rf_form p)) = false;
}.

Lemma calm_key config event p :
  calm_form p → handle_key config event p = field_key keys config event p.
Proof.
  intros []. unfold handle_key, form_key. cbn [fk_lists keys]. unfold dropdown_key.
  by rewrite cf_saving0, cf_weak0, cf_unsaved0, cf_generator0, cf_credentials0, cf_expiries0.
Qed.

(** A character with no modifier is typed, except a space on what opens. *)
Lemma calm_char config c p :
  calm_form p → (c ≠ 32%Z ∨ is_dropdown_focused p || in_footer p = false) →
  handle_key config (mkKeyEvent (KeyCode.Char c) no_modifiers) p = type_char c p.
Proof.
  intros Hp Hc. rewrite calm_key by done. unfold field_key, shortcut_key. cbn [ke_code].
  cbn [held_control ke_modifiers no_modifiers km_control negb fk_space keys].
  destruct Hc as [Hc| ->]; [|by rewrite andb_false_r].
  unfold is_key. rewrite bool_decide_eq_false_2; [done|]. intros [= E]. by apply Hc.
Qed.

Lemma type_char_eq c p :
  is_custom_date_focused p = false → in_footer p = false →
  fm_password_sub_focus (rf_form p) = PasswordFieldFocus.Input →
  can_insert_char_into_current_field c (rf_form p) = true →
  type_char c p =
    let '(changed, f) := insert_char (focused p) (ct p) c (fm_fields (rf_form p)) in
    stay (W := W) (on_form (λ s, clear_current_limit_error
                           (s <| fm_fields := f |> <| fm_has_changes ::= orb changed |>)) p).
Proof.
  intros Hd Hf Hs Hc. unfold type_char, handle_char_input. by rewrite Hd, Hf, Hs, Hc.
Qed.

Lemma update_typed config s w i text name url username password changed c :
  closed_generator s → 1 ≤ i ≤ 4 → (char_count text < text_limit i)%N →
  update config (typed c) (with_form s (with_text i text name url username password changed)) w =
  ((with_form s (with_text i (push text c) name url username password true),
    ScreenResult.Continue), w).
Proof.
  intros Hg Hi Hlen. destruct s as [[f [e g]] tags area].
  unfold closed_generator in Hg. cbn in Hg. subst e.
  assert (can_insert_char_into_current_field c (with_text i text name url username password changed)
    = true) as Hcan.
  { destruct i as [|[|[|[|[|]]]]]; try lia; by apply N.ltb_lt. }
  unfold update, typed, in_panel.
  destruct i as [|[|[|[|[|]]]]]; try lia; unfold io_bind, io_ret;
    (rewrite calm_char; [|by split|by right]);
    (rewrite type_char_eq; [reflexivity|done|done|done|exact Hcan]).
Qed.

Lemma updates_app config msgs1 msgs2 s w :
  updates config (msgs1 ++ msgs2) s w =
  let '(s1, w1) := updates config msgs1 s w in updates config msgs2 s1 w1.
Proof.
  revert s w. induction msgs1 as [|msg msgs1 IH]; intros s w; [done|]. cbn. unfold io_bind.
  destruct (update config msg s w) as [r w1]. by rewrite IH.
Qed.

Lemma push_of_chars l c : push (of_chars l) c = of_chars (l ++ [c]).
Proof. unfold push. rewrite of_chars_app. cbn. by rewrite string_app_nil_r. Qed.

Lemma type_text config s w i k l name url username password changed :
  closed_generator s → 1 ≤ i ≤ 4 → Forall is_char (k ++ l) →
  (N.of_nat (length (k ++ l)) ≤ text_limit i)%N →
  ∃ changed', updates config (typing l)
    (with_form s (with_text i (of_chars k) name url username password changed)) w =
    (with_form s (with_text i (of_chars (k ++ l)) name url username password changed'), w).
Proof.
  intros Hg Hi. revert k changed. induction l as [|c l IH]; intros k changed Hc Hlen.
  { exists changed. by rewrite app_nil_r. }
  replace (k ++ c :: l) with ((k ++ [c]) ++ l) in * by by rewrite <- app_assoc.
  pose proof Hc as Hc'. apply Forall_app in Hc' as [[Hk _]%Forall_app _].
  destruct (IH (k ++ [c]) true Hc Hlen) as (changed' & E). exists changed'.
  cbn [updates typing fmap list_fmap]. unfold io_bind. rewrite update_typed; try done.
  - by rewrite push_of_chars.
  - unfold char_count. rewrite chars_of_chars by done. rewrite !length_app in Hlen. cbn in Hlen. lia.
Qed.

(** To the next field, which is empty, and the text into it. *)
Lemma fill_field config s w i l name url username password changed rest :
  closed_generator s → i < 4 → Forall is_char l → (N.of_nat (length l) ≤ text_limit (S i))%N →
  login_form (S i) name url username password changed =
    with_text (S i) "" name url username password changed →
  ∃ changed', updates config (pressed KeyCode.Tab :: typing l ++ rest)
    (with_form s (login_form i name url username password changed)) w =
    updates config rest
      (with_form s (with_text (S i) (of_chars l) name url username password changed')) w.
Proof.
  intros Hg Hi Hl Hlen E.
  destruct (type_text config s w (S i) [] l name url username password changed)
    as (changed' & Et); [done|lia|done|done|].
  exists changed'. cbn [updates]. unfold io_bind at 1. rewrite update_tab by done. cbn [fst].
  rewrite updates_app, E. change (of_chars []) with "" in Et. by rewrite Et.
Qed.

(** A text within a limit. *)
Definition fits (l : list Z) (max : N) : Prop :=
  Forall is_char l ∧ (N.of_nat (length l) ≤ max)%N.

Lemma fits_error i l max : fits l max → Validation.push_len_error i (of_chars l) max = [].
Proof.
  intros [Hl Hlen]. unfold Validation.push_len_error, char_count. rewrite chars_of_chars by done.
  by rewrite (proj2 (N.ltb_ge _ _)).
Qed.

Lemma required_error i l max :
  fits l max → trim (of_chars l) ≠ "" → Validation.required_text i (Some (of_chars l)) max = [].
Proof.
  intros Hl Ht. unfold Validation.required_text. cbn [Validation.len_error from_option].
  rewrite fits_error by done. unfold Validation.blank. cbn [from_option].
  by rewrite bool_decide_eq_false_2.
Qed.

Lemma login_valid `{!TextAreaLaws} i name url username password changed w :
  fits name MAX_RECORD_NAME_CHARS → fits url MAX_URL_CHARS →
  fits username MAX_LOGIN_USERNAME_CHARS → fits password MAX_LOGIN_PASSWORD_CHARS →
  trim (of_chars name) ≠ "" → trim (of_chars username) ≠ "" → trim (of_chars password) ≠ "" →
  Validation.validate (fm_fields (login_form i (of_chars name) (of_chars url) (of_chars username)
    (of_chars password) changed)) CredentialType.Login w = ([], w).
Proof.
  intros Hn Hu Hus Hp Hn' Hus' Hp'.
  unfold Validation.validate, Validation.date_errors, io_bind. cbn [fm_fields login_form].
  cbn [fd_expires_at fd_name fd_url bool_decide decide_rel].
  unfold Validation.type_errors. cbn [fd_username fd_password].
  rewrite !required_error by done. rewrite fits_error by done. unfold io_ret.
  unfold FormFields.notes_text, textarea_text. cbn [fd_notes]. rewrite ta_default_lines.
  reflexivity.
Qed.

Definition weak (s : PasswordStrength) : bool :=
  bool_decide (ps_level s = StrengthLevel.VeryWeak) || bool_decide (ps_level s = StrengthLevel.Weak).

Lemma save_login `{!TextAreaLaws} config name url username password changed s w w' :
  fits name MAX_RECORD_NAME_CHARS → fits url MAX_URL_CHARS →
  fits username MAX_LOGIN_USERNAME_CHARS → fits password MAX_LOGIN_PASSWORD_CHARS →
  trim (of_chars name) ≠ "" → trim (of_chars username) ≠ "" → trim (of_chars password) ≠ "" →
  weak (evaluate_strength (of_chars password)) = false → closed_generator s →
  command_tx_try_send
    (Dispatch.Command.CreateRecord CredentialType.Login
       (EncryptedPayload.Login (of_chars name) (of_chars username) (of_chars password)
          (Some (of_chars url)) None) [] false None) w = (true, w') →
  ∃ s', updates config [with_control (ch "s")]
    (with_form s (login_form 4 (of_chars name) (of_chars url) (of_chars username)
       (of_chars password) changed)) w = (s', w') ∧ fm_saving (form_of s') = true.
Proof.
  intros Hn Hu Hus Hp Hn' Hus' Hp' Hstrong Hg Hsend.
  destruct s as [[f [e g]] tags area]. unfold closed_generator in Hg. cbn in Hg. subst e.
  cbn [updates]. unfold io_bind, update, with_control, in_panel.
  set (p := cr_panel _).
  assert (handle_key config (mkKeyEvent (KeyCode.Char (ch "s"))
    (mkKeyModifiers false true false false false)) p = attempt_save submit_create_record p) as ->.
  { by rewrite calm_key by by split. }
  unfold attempt_save, io_bind.
  assert (Validation.validate (fm_fields (rf_form p)) (ct p) w = ([], w)) as ->
    by by apply login_valid.
  assert (bool_decide (ct p = CredentialType.Login) && is_password_weak (rf_form p) = false) as ->.
  { apply andb_false_intro2. unfold is_password_weak.
    change (fd_strength (fm_fields (rf_form p))) with
      (if bool_decide (of_chars password = "") then None
       else Some (evaluate_strength (of_chars password))).
    rewrite bool_decide_eq_false_2; [exact Hstrong|]. intros E. by rewrite E in Hp'. }
  assert (create_command (rf_form p) w = (Dispatch.Command.CreateRecord CredentialType.Login
    (EncryptedPayload.Login (of_chars name) (of_chars username) (of_chars password)
       (Some (of_chars url)) None) [] false None, w)) as Hc.
  { unfold create_command, build_payload_snapshot, FormFields.notes_text, textarea_text, io_bind.
    cbn [rf_form]. change (fd_notes (fm_fields (rf_form p))) with ta_default.
    by rewrite ta_default_lines. }
  unfold submit_create_record, submit, io_bind. rewrite Hc.
  unfold send_user_command, io_bind. rewrite Hsend. by eexists.
Qed.

(** The queue of commands has room. *)
Definition takes_commands : Prop := ∀ c w, (command_tx_try_send (W := W) c w).1 = true.

Lemma taken c w : takes_commands → ∃ w', command_tx_try_send c w = (true, w') ∧ sent w' = sent w ++ [c].
Proof.
  intros Hq. destruct (command_tx_try_send c w) as [b w'] eqn:E.
  specialize (Hq c w). rewrite E in Hq. cbn in Hq. subst b. exists w'. split; [done|].
  by apply try_send_sent in E.
Qed.

(** C34: What is typed is what is saved.  On a fresh form of a login, the keys that fill in its
    fields with texts within their limits, with a password that is not weak, and Ctrl+S send,
    where the queue has room, one command: the creation of a login with exactly these texts,
    without notes, tags, favourite mark and expiry; and the form then waits for the result. *)
Theorem typed_record_is_saved `{!TextAreaLaws} config name url username password s w :
  fits name MAX_RECORD_NAME_CHARS → fits url MAX_URL_CHARS →
  fits username MAX_LOGIN_USERNAME_CHARS → fits password MAX_LOGIN_PASSWORD_CHARS →
  trim (of_chars name) ≠ "" → trim (of_chars username) ≠ "" → trim (of_chars password) ≠ "" →
  weak (evaluate_strength (of_chars password)) = false →
  form_of s = new_create → closed_generator s → takes_commands →
  ∃ s' w', updates config (login_session name url username password) s w = (s', w') ∧
    sent w' = sent w ++
      [Dispatch.Command.CreateRecord CredentialType.Login
         (EncryptedPayload.Login (of_chars name) (of_chars username) (of_chars password)
            (Some (of_chars url)) None) [] false None] ∧
    fm_saving (form_of s') = true.
Proof.
  intros Hn Hu Hus Hp Hn' Hus' Hp' Hstrong Hs Hg Hq.
  destruct (taken (Dispatch.Command.CreateRecord CredentialType.Login
    (EncryptedPayload.Login (of_chars name) (of_chars username) (of_chars password)
       (Some (of_chars url)) None) [] false None) w Hq) as (w' & Hsend & Hsent).
  rewrite <- (with_form_eq s), Hs. pose proof Hn as [Hn1 Hn2]. pose proof Hu as [Hu1 Hu2].
  pose proof Hus as [Hus1 Hus2]. pose proof Hp as [Hp1 Hp2].
  change new_create with (login_form 0 "" "" "" "" false). unfold login_session.
  edestruct (fill_field config s w 0 name) as (ch1 & ->); [done|lia|done..|]. cbn [with_text].
  edestruct (fill_field config s w 1 url) as (ch2 & ->); [done|lia|done..|]. cbn [with_text].
  edestruct (fill_field config s w 2 username) as (ch3 & ->); [done|lia|done..|]. cbn [with_text].
  edestruct (fill_field config s w 3 password) as (ch4 & ->); [done|lia|done..|]. cbn [with_text].
  edestruct (save_login config name url username password ch4 s w w') as (s' & E & Hw);
    [done..|]. exists s', w'. done.
Qed.

(** ** A custom date cannot be corrected *)

Definition ascii_char (c : Z) : Prop := (0 ≤ c < 128)%Z.

(** The date field is focused, with a date that is too short. *)
Record short_date (t : CredentialType.t) (p : RecordForm) : Prop := {
  sd_type : ct p = t;
  sd_calm : calm_form p;
  sd_focused : is_custom_date_focused p = true;
  sd_date : ∃ l, fd_custom_date (fm_fields (rf_form p)) = Some (of_chars l) ∧
    Forall ascii_char l ∧ length l < 10;
}.

Lemma ascii_is_char l : Forall ascii_char l → Forall is_char l.
Proof.
  intros Hl. eapply Forall_impl; [exact Hl|]. unfold ascii_char, is_char. intros; lia.
Qed.

Lemma ascii_bytes l : Forall ascii_char l → String.length (of_chars l) = length l.
Proof.
  induction 1 as [|c l Hc _ IH]; [done|]. cbn. rewrite string_length_append, IH.
  unfold encode_char. by rewrite (proj2 (Z.ltb_lt _ _)) by apply Hc.
Qed.

Lemma pop_of_chars l : Forall is_char l → pop (of_chars l) = of_chars (take (length l - 1) l).
Proof. intros Hl. unfold pop. by rewrite chars_of_chars. Qed.

(** What remains after a backspace. *)
Lemma shorter_eq l :
  Forall ascii_char l →
  ∃ k, shorter_date (of_chars l) = of_chars k ∧ Forall ascii_char k ∧ length k ≤ length l - 1.
Proof.
  intros Hl. pose proof (ascii_is_char _ Hl) as Hc. unfold shorter_date.
  case_bool_decide as E; [exists []; rewrite E; split_and!; [done|constructor|cbn; lia]|].
  rewrite pop_of_chars by done. set (k := take (length l - 1) l).
  assert (Forall ascii_char k) as Hk by by apply Forall_take.
  assert (length k = length l - 1) as Hlk by (unfold k; rewrite length_take; lia).
  case_match; [|by exists k; split_and!; [|..|lia]].
  rewrite pop_of_chars by by apply ascii_is_char.
  exists (take (length k - 1) k). split_and!; [done|by apply Forall_take|rewrite length_take; lia].
Qed.

Lemma with_digit_eq c l :
  Forall ascii_char l → is_ascii_digit c = true →
  ∃ k, with_digit c (of_chars l) = of_chars k ∧ Forall ascii_char k ∧ length k = length l.
Proof.
  intros Hl Hc. unfold with_digit. rewrite chars_of_chars by by apply ascii_is_char.
  destruct (list_find _ _) as [[pos x]|]; [|by exists l].
  exists (<[pos := c]> l). split_and!; [done| |apply length_insert].
  apply Forall_insert; [done|]. unfold is_ascii_digit in Hc. apply within_spec in Hc.
  unfold ascii_char. lia.
Qed.

(** The keys that write a date. *)
Definition date_key (o : option Z) : KeyCode.t :=
  match o with Some c => KeyCode.Char c | None => KeyCode.Backspace end.

Definition digits_only (keys : list (option Z)) : Prop :=
  Forall (λ o, match o with Some c => is_ascii_digit c = true | None => True end) keys.

Lemma date_key_step config o p :
  calm_form p → is_custom_date_focused p = true →
  match o with Some c => is_ascii_digit c = true | None => True end →
  handle_key config (mkKeyEvent (date_key o) no_modifiers) p =
    match o with Some c => handle_date_char c p | None => handle_date_backspace p end.
Proof.
  intros Hp Hd Ho. destruct o as [c|]; cbn [date_key].
  - rewrite calm_char; [|done|].
    + unfold type_char. by rewrite Hd.
    + left. intros ->. done.
  - rewrite calm_key by done. unfold field_key. cbn [ke_code]. unfold type_backspace. by rewrite Hd.
Qed.

Lemma short_date_step config t o p w :
  short_date t p → match o with Some c => is_ascii_digit c = true | None => True end →
  ∃ p', handle_key config (mkKeyEvent (date_key o) no_modifiers) p w =
    ((p', ScreenResult.Continue), w) ∧ short_date t p'.
Proof.
  intros [Ht Hc Hd (l & El & Hl & Hlen)] Ho. rewrite date_key_step by done.
  destruct o as [c|].
  - unfold handle_date_char. rewrite Ho. cbn [negb]. eexists. split; [done|].
    destruct (with_digit_eq c l Hl Ho) as (k & Ek & Hk & Hlk).
    split; [done|by destruct Hc|done|]. exists k. cbn. rewrite El. cbn. rewrite Ek.
    split_and!; [done|done|lia].
  - unfold handle_date_backspace. eexists. split; [done|].
    destruct (shorter_eq l Hl) as (k & Ek & Hk & Hlk).
    split; [done|by destruct Hc|done|]. exists k. cbn. rewrite El. cbn. rewrite Ek.
    split_and!; [done|done|lia].
Qed.

(** The first backspace makes the date short. *)
Lemma backspace_short config l p w :
  calm_form p → is_custom_date_focused p = true →
  fd_custom_date (fm_fields (rf_form p)) = Some (of_chars l) → Forall ascii_char l →
  length l ≤ 10 →
  ∃ p', handle_key config (mkKeyEvent KeyCode.Backspace no_modifiers) p w =
    ((p', ScreenResult.Continue), w) ∧ short_date (ct p) p'.
Proof.
  intros Hc Hd El Hl Hlen. rewrite (date_key_step config None) by done.
  eexists. split; [done|]. destruct (shorter_eq l Hl) as (k & Ek & Hk & Hlk).
  split; [done|by destruct Hc|done|]. exists k. cbn. rewrite El. cbn. rewrite Ek.
  split_and!; [done|done|lia].
Qed.

Lemma short_date_invalid l w :
  Forall ascii_char l → length l < 10 →
  Validation.validate_date (of_chars l) w = (Err Validation.date_format, w).
Proof.
  intros Hl Hlen. unfold Validation.validate_date. rewrite ascii_bytes by done.
  by rewrite (proj2 (Nat.eqb_neq _ _)) by lia.
Qed.

(** The form was refused for the format of its date. *)
Definition date_refused (t : CredentialType.t) (s : FormState) : Prop :=
  fm_saving s = false ∧
  mkValidationError (expiry_field_index t) Validation.date_format ∈ fm_validation_errors s.

Lemma short_date_unsaved config t p w :
  short_date t p →
  ∃ p', handle_key config (mkKeyEvent (KeyCode.Char (ch "s"))
          (mkKeyModifiers false true false false false)) p w = ((p', ScreenResult.Continue), w) ∧
    date_refused t (rf_form p').
Proof.
  intros [Ht Hc Hd (l & El & Hl & Hlen)].
  assert (fd_expires_at (fm_fields (rf_form p)) = ExpiryOption.Custom) as Ee.
  { unfold is_custom_date_focused in Hd. apply andb_true_iff in Hd as [_ Hd].
    by apply bool_decide_eq_true in Hd. }
  assert (∃ errors, Validation.validate (fm_fields (rf_form p)) (ct p) w = (errors, w) ∧
    mkValidationError (expiry_field_index t) Validation.date_format ∈ errors)
    as (errors & Ev & Hin).
  { unfold Validation.validate, Validation.date_errors, io_bind. rewrite Ee, El, Ht.
    rewrite bool_decide_eq_true_2 by done. unfold io_bind.
    rewrite short_date_invalid by done. eexists. split; [done|].
    rewrite !elem_of_app. do 5 right. by apply list_elem_of_singleton. }
  assert (handle_key config (mkKeyEvent (KeyCode.Char (ch "s"))
    (mkKeyModifiers false true false false false)) p = attempt_save submit_create_record p) as ->.
  { by rewrite calm_key. }
  unfold attempt_save, io_bind. rewrite Ev. destruct errors as [|e errors]; [set_solver|].
  eexists. split; [done|]. split; [apply Hc|done].
Qed.

Lemma update_key config event s w p r :
  handle_key config event (cr_panel s) w = ((p, r), w) →
  update config (Message.KeyEvent event) s w = ((s <| cr_panel := p |>, r), w).
Proof. intros E. unfold update, in_panel, io_bind. by rewrite E. Qed.

Lemma update_mouse config event s w p r :
  handle_mouse (cr_last_area s) event (cr_panel s) w = ((p, r), w) →
  update config (Message.MouseEvent event) s w = ((s <| cr_panel := p |>, r), w).
Proof. intros E. unfold update, in_panel, io_bind. by rewrite E. Qed.

Lemma short_date_session config t keys s w :
  short_date t (cr_panel s) → digits_only keys →
  ∃ s', updates config (((λ o, pressed (date_key o)) <$> keys) ++ [with_control (ch "s")]) s w
      = (s', w) ∧ date_refused t (form_of s').
Proof.
  intros Hs Hk. revert s Hs. induction Hk as [|o keys Ho _ IH]; intros s Hs.
  - destruct (short_date_unsaved config t (cr_panel s) w Hs) as (p' & E & Hr).
    cbn [fmap list_fmap app updates]. unfold io_bind, with_control.
    rewrite (update_key _ _ _ _ _ _ E). by eexists.
  - destruct (short_date_step config t o (cr_panel s) w Hs Ho) as (p' & E & Hs').
    cbn [fmap list_fmap app updates]. unfold io_bind, pressed.
    rewrite (update_key _ _ _ _ _ _ E). cbn [fst]. by apply IH.
Qed.

(** A custom date that was edited with Backspace is lost.  Once Backspace was pressed in the
    date field, no digits and backspaces that follow make a date that can be saved: Ctrl+S sends
    nothing and reports the format of the date. *)
Theorem corrected_date_refused config keys l s w :
  calm_form (cr_panel s) → is_custom_date_focused (cr_panel s) = true →
  fd_custom_date (fm_fields (form_of s)) = Some (of_chars l) → Forall ascii_char l →
  length l ≤ 10 → digits_only keys →
  ∃ s', updates config (pressed KeyCode.Backspace :: ((λ o, pressed (date_key o)) <$> keys)
                          ++ [with_control (ch "s")]) s w = (s', w) ∧
    date_refused (fm_credential_type (form_of s)) (form_of s').
Proof.
  intros Hc Hd El Hl Hlen Hk.
  destruct (backspace_short config l (cr_panel s) w) as (p' & E & Hs); try done.
  cbn [updates]. unfold io_bind at 1. unfold pressed at 1.
  rewrite (update_key _ _ _ _ _ _ E). cbn [fst]. by apply short_date_session.
Qed.

(** ** No tag can be added to a note *)

(** The tags of a note are focused, and no tag is being typed. *)
Record at_note_tags (tags : list string) (p : RecordForm) : Prop := {
  nt_calm : calm_form p;
  nt_type : ct p = CredentialType.SecureNote;
  nt_focused : focused p = 4;
  nt_footer : fm_footer_focus (rf_form p) = None;
  nt_sub : fm_password_sub_focus (rf_form p) = PasswordFieldFocus.Input;
  nt_input : fd_tag_input (fm_fields (rf_form p)) = "";
  nt_tags : fd_tags (fm_fields (rf_form p)) = tags;
}.

(** The keys that write a tag. *)
Definition tag_key (key : KeyCode.t) : bool :=
  match key with KeyCode.Char _ | KeyCode.Backspace | KeyCode.Enter => true | _ => false end.

Lemma set_error_only s :
  ∃ errors, set_current_limit_error s = s <| fm_validation_errors := errors |>.
Proof. unfold set_current_limit_error. repeat case_match; by eexists. Qed.

Lemma note_tags_step config tags key p w :
  at_note_tags tags p → tag_key key = true →
  ∃ p', handle_key config (mkKeyEvent key no_modifiers) p w = ((p', ScreenResult.Continue), w) ∧
    at_note_tags tags p'.
Proof.
  intros [Hc Ht Hf Hfo Hs Hi Htg] Hk.
  assert (in_footer p = false) as Hif by (unfold in_footer; by rewrite Hfo).
  assert (is_custom_date_focused p = false) as Hd.
  { unfold is_custom_date_focused. by rewrite Ht, Hf. }
  destruct key; try done.
  - rewrite calm_key by done. unfold field_key. cbn [ke_code]. unfold type_backspace.
    rewrite Hd. unfold handle_backspace. rewrite Hif, Hs, Hf, Ht. cbn. eexists. split; [done|].
    split; try done; by destruct Hc.
  - rewrite calm_key by done. unfold field_key. cbn [ke_code]. unfold form_enter. rewrite Hfo.
    unfold enter_buttons. rewrite Hf, Ht, Hs. cbn. unfold enter_field. cbn [fk_open keys].
    unfold open_list, open_expiry. rewrite Hf, Ht, Hi. cbn. by eexists.
  - rewrite calm_char; [|done|].
    + unfold type_char, handle_char_input. rewrite Hd, Hif, Hs. cbn [negb orb].
      destruct (can_insert_char_into_current_field _ _); cbn [negb];
        (eexists; split; [by rewrite ?Hf, ?Ht|]).
      * split; try done; by destruct Hc.
      * destruct (set_error_only (rf_form p)) as (errors & E). 
        change (on_form set_current_limit_error p)
          with (p <| rf_form := set_current_limit_error (rf_form p) |>). rewrite E.
        split; try done; by destruct Hc.
    + right. unfold is_dropdown_focused, open_list, open_expiry. by rewrite Hif, Hf, Ht.
Qed.

(** No tag can be typed for a secure note: with its tags focused, letters, Backspace and
    Enter leave the tags as they were, and nothing is typed. *)
Theorem note_takes_no_tags config codes s w tags :
  at_note_tags tags (cr_panel s) → Forall (λ code, tag_key code = true) codes →
  ∃ s', updates config (pressed <$> codes) s w = (s', w) ∧ at_note_tags tags (cr_panel s').
Proof.
  intros Hs Hk. revert s Hs. induction Hk as [|code codes Hc _ IH]; intros s Hs.
  - by exists s.
  - destruct (note_tags_step config tags code (cr_panel s) w Hs Hc) as (p' & E & Hs').
    cbn [fmap list_fmap updates]. unfold io_bind, pressed.
    rewrite (update_key _ _ _ _ _ _ E). by apply IH.
Qed.

(** ** The mouse behind the dialog *)

(** A question about a weak password is open, with the answer to save. *)
Record asking_to_save (p : RecordForm) : Prop := {
  as_saving : fm_saving (rf_form p) = false;
  as_mode : fm_mode (rf_form p) = FormMode.Create;
  as_dialog : fm_show_weak_password_dialog (rf_form p) = true;
  as_generator : eg_expanded (rf_generator p) = false;
  as_list : dd_expanded (fm_credential_dropdown (rf_form p)) = false;
}.

(** A click on a row of the form. *)
Definition click_row (area : Rect) (row : Z) : Message.t :=
  Message.MouseEvent (mkMouseEvent MouseEventKind.DownLeft (re_x area + 1) (re_y area + 1 + row)).

(** On the type, on the second of its options, and the answer. *)
Definition behind_session (area : Rect) : list Message.t :=
  [click_row area 3; click_row area 5; pressed KeyCode.Right; pressed KeyCode.Enter].

Definition on_screen (area : Rect) : Prop :=
  (0 ≤ re_x area)%Z ∧ (0 ≤ re_y area)%Z ∧ (2 ≤ re_width area)%Z ∧ (7 ≤ re_height area)%Z ∧
  (re_x area + re_width area < 2 ^ 16)%Z ∧ (re_y area + re_height area < 2 ^ 16)%Z.

Lemma in_area area row :
  on_screen area → (0 ≤ row ≤ 5)%Z →
  (re_width area =? 0)%Z || (re_height area =? 0)%Z
    || negb (contains area (re_x area + 1) (re_y area + 1 + row)) = false.
Proof.
  intros (?&?&?&?&?&?) ?. unfold contains, saturating_add. repeat rewrite orb_false_iff.
  rewrite negb_false_iff, !andb_true_iff, !Z.leb_le, !Z.ltb_lt, !Z.eqb_neq. lia.
Qed.

Lemma hit_row area p row :
  on_screen area → (0 ≤ row ≤ 5)%Z → eg_expanded (rf_generator p) = false →
  hit_test area (re_x area + 1) (re_y area + 1 + row) p =
    form_target area (re_x area + 1) (re_y area + 1 + row) p.
Proof. intros Ha Hr Hg. unfold hit_test. by rewrite in_area, Hg. Qed.

Lemma credential_rows area p :
  rw_credential (form_row_map area p) = 3%Z ∧
  rw_credential_options (form_row_map area p) =
    if dd_expanded (fm_credential_dropdown (rf_form p)) then Some (4, 4)%Z else None.
Proof. unfold form_row_map. cbv zeta. by destruct (fm_credential_type (rf_form p)). Qed.

Lemma form_target_row area p row :
  (0 ≤ row)%Z → ∃ rest,
  form_target area (re_x area + 1) (re_y area + 1 + row) p =
    first_target ((row =? 3, Some FormMouseTarget.CredentialDropdown)%Z
      :: (true, FormMouseTarget.CredentialOption <$>
            option_at row (if dd_expanded (fm_credential_dropdown (rf_form p))
                           then Some (4, 4)%Z else None)) :: rest).
Proof.
  intros Hr. destruct (credential_rows area p) as [E1 E2]. unfold form_target. cbv zeta.
  replace (re_y area + 1 + row - (re_y area + 1))%Z with row by lia.
  replace (re_x area + 1 - (re_x area + 1))%Z with 0%Z by lia.
  rewrite (proj2 (Z.ltb_ge row 0)) by done. cbn [orb Z.ltb Z.compare].
  rewrite E1, E2. by eexists.
Qed.

Lemma click_type area p w :
  on_screen area → fm_saving (rf_form p) = false → eg_expanded (rf_generator p) = false →
  handle_mouse area (mkMouseEvent MouseEventKind.DownLeft (re_x area + 1) (re_y area + 1 + 3)) p w =
  stay (on_form (λ s, s <| fm_credential_dropdown ::= flip_list |>) (on_form (focus_field 0) p)) w.
Proof.
  intros Ha Hs Hg. unfold handle_mouse. cbn [me_kind me_column me_row]. rewrite Hs.
  rewrite hit_row by (done || lia). by destruct (form_target_row area p 3) as (rest & ->).
Qed.

Lemma click_option area p w :
  on_screen area → fm_saving (rf_form p) = false → eg_expanded (rf_generator p) = false →
  dd_expanded (fm_credential_dropdown (rf_form p)) = true →
  handle_mouse area (mkMouseEvent MouseEventKind.DownLeft (re_x area + 1) (re_y area + 1 + 5)) p w =
  handle_credential_dropdown KeyCode.Enter
    (on_form (λ s, (focus_field 0 s) <| fm_credential_dropdown ::= λ d,
                     d <| dd_selected_index := 1 |> |>) p) w.
Proof.
  intros Ha Hs Hg Hd. unfold handle_mouse. cbn [me_kind me_column me_row]. rewrite Hs.
  rewrite hit_row by (done || lia). destruct (form_target_row area p 5) as (rest & E); [lia|].
  rewrite Hd in E. by rewrite E.
Qed.

(** The form after the clicks: that of an API key without its key, with the question open. *)
Record turned (f : FormFields) (p : RecordForm) : Prop := {
  tn_saving : fm_saving (rf_form p) = false;
  tn_dialog : fm_show_weak_password_dialog (rf_form p) = true;
  tn_type : fm_credential_type (rf_form p) = CredentialType.Api;
  tn_name : fd_name (fm_fields (rf_form p)) = fd_name f;
  tn_url : fd_url (fm_fields (rf_form p)) = fd_url f;
  tn_tags : fd_tags (fm_fields (rf_form p)) = fd_tags f;
  tn_app_id : fd_app_id (fm_fields (rf_form p)) = Some "";
  tn_secret_key : fd_secret_key (fm_fields (rf_form p)) = Some "";
}.

Lemma clicks_turn config s w :
  on_screen (cr_last_area s) → asking_to_save (cr_panel s) →
  ∃ p, updates config [click_row (cr_last_area s) 3; click_row (cr_last_area s) 5] s w =
      (s <| cr_panel := p |>, w) ∧ turned (fm_fields (form_of s)) p.
Proof.
  intros Ha [Hs Hm Hd Hg Hl].
  destruct s as [[fm [e g]] tags area]. cbn in Hg, Hs, Hm, Hd, Hl, Ha. subst e.
  destruct fm as [mode ct fields i ch errors expiries [ex sel] weak wf uns uf sub foot saving tick].
  cbn in Hs, Hm, Hd, Hl. subst mode weak saving ex.
  cbn [updates]. unfold io_bind, click_row. cbn [cr_last_area].
  erewrite update_mouse; [|cbn [cr_panel cr_last_area]; rewrite click_type by done; reflexivity].
  erewrite update_mouse; [|cbn [fst cr_panel cr_last_area];
    rewrite click_option by (done || by destruct ct); reflexivity].
  eexists. split; [reflexivity|]. by destruct ct; split.
Qed.

Lemma submit_sends p w :
  (∀ c w, (command_tx_try_send c w).1 = true) →
  ∃ r w' c, submit_create_record p w = (r, w') ∧ sent w' = sent w ++ [c] ∧
    saves (rf_form p) c ∧ same_content (rf_form p) (rf_form r.1).
Proof.
  intros Hq. unfold submit_create_record, submit, create_command, send_user_command, io_bind.
  destruct (expiry_datetime (rf_form p) w) as [e w1] eqn:Ee. unfold io_ret at 1.
  destruct (command_tx_try_send _ w1) as [b w2] eqn:Et. 
  pose proof (f_equal fst Et) as Hb. rewrite Hq in Hb. cbn in Hb. subst b.
  apply try_send_sent in Et. apply expiry_sent in Ee. rewrite Ee in Et.
  eexists _, w2, _. split; [reflexivity|]. split; [exact Et|]. by split; [eexists|].
Qed.

Lemma turned_saved config f s w :
  (∀ c w, (command_tx_try_send c w).1 = true) → turned f (cr_panel s) →
  ∃ s' w' notes expires_at,
    updates config [pressed KeyCode.Right; pressed KeyCode.Enter] s w = (s', w') ∧
    sent w' = sent w ++ [Dispatch.Command.CreateRecord CredentialType.Api
      (EncryptedPayload.Api (fd_name f) "" "" (Some (fd_url f)) notes) (fd_tags f) false
      expires_at] ∧
    Validation.type_errors (fm_fields (form_of s')) CredentialType.Api ≠ [].
Proof.
  intros Hq [Hs Hd Ht Hn Hu Htg Ha Hk].
  set (p1 := on_form (λ s, s <| fm_weak_dialog_focus := 1 |>) (cr_panel s)).
  assert (∀ w, handle_key config (mkKeyEvent KeyCode.Right no_modifiers) (cr_panel s) w
    = ((p1, ScreenResult.Continue), w)) as E1.
  { intros w0. unfold handle_key, form_key. by rewrite Hs, Hd. }
  assert (handle_key config (mkKeyEvent KeyCode.Enter no_modifiers) p1
    = submit_create_record (on_form close_weak_dialog p1)) as E2.
  { unfold handle_key, form_key. cbn. by rewrite Hs, Hd. }
  cbn [updates]. unfold io_bind, pressed. rewrite (update_key _ _ _ _ _ _ (E1 w)). cbn [fst].
  change (update config (Message.KeyEvent (mkKeyEvent KeyCode.Enter no_modifiers))
            (s <| cr_panel := p1 |>) w)
    with (in_panel (handle_key config (mkKeyEvent KeyCode.Enter no_modifiers))
            (s <| cr_panel := p1 |>) w).
  unfold in_panel. change (cr_panel (s <| cr_panel := p1 |>)) with p1. rewrite E2. unfold io_bind.
  destruct (submit_sends (on_form close_weak_dialog p1) w Hq) as (r & w' & c & E & Es & (e & ->) & Hf & _).
  unfold submit_create_record in *.
  rewrite E. eexists _, w', _, e. split; [reflexivity|].
  rewrite Es. unfold form_of. cbn [fst cr_panel]. cbn in Hf |- *. rewrite Hf. unfold build_payload_snapshot. cbn.
  rewrite Ht, Hn, Hu, Htg, Ha, Hk. by split.
Qed.

(** The mouse reaches the form behind the question about a weak password, and what the
    answer saves is not checked again: two clicks make it an API key without its key. *)
Theorem mouse_saves_unchecked config s w :
  takes_commands → on_screen (cr_last_area s) →
  asking_to_save (cr_panel s) →
  let f := fm_fields (form_of s) in
  ∃ s' w' notes expires_at,
    updates config (behind_session (cr_last_area s)) s w = (s', w') ∧
    sent w' = sent w ++ [Dispatch.Command.CreateRecord CredentialType.Api
      (EncryptedPayload.Api (fd_name f) "" "" (Some (fd_url f)) notes) (fd_tags f) false
      expires_at] ∧
    Validation.type_errors (fm_fields (form_of s')) CredentialType.Api ≠ [].
Proof.
  intros Hq Ha Hs f. destruct (clicks_turn config s w Ha Hs) as (p & E & Ht).
  change (behind_session (cr_last_area s)) with
    ([click_row (cr_last_area s) 3; click_row (cr_last_area s) 5]
     ++ [pressed KeyCode.Right; pressed KeyCode.Enter]).
  rewrite updates_app, E. by apply turned_saved.
Qed.

End steps.

(** ** Editing *)

Section editing.
Context {W : Type} `{TextAreaLib} `{!TextAreaLaws} `{Translations} `{Messages} `{Rng W}.
Context `{CommandQueue W} `{System W} `{Calendar W} `{!QueueLaws W}.
Import EditRecordScreen.

Definition payload_notes (p : EncryptedPayload.t) : option string :=
  match p with
  | EncryptedPayload.Login _ _ _ _ notes | EncryptedPayload.Api _ _ _ _ notes
  | EncryptedPayload.Ssh _ _ _ _ notes | EncryptedPayload.SecureNote _ notes => notes
  end.

(** A payload as the form returns it: with an address, and without empty notes. *)
Definition as_edited (p : EncryptedPayload.t) : EncryptedPayload.t :=
  let notes := optional_notes (default "" (payload_notes p)) in
  match p with
  | EncryptedPayload.Login name username password url _ =>
      EncryptedPayload.Login name username password (Some (default "" url)) notes
  | EncryptedPayload.Api name app_id secret_key url _ =>
      EncryptedPayload.Api name app_id secret_key (Some (default "" url)) notes
  | EncryptedPayload.Ssh name public_key private_key passphrase _ =>
      EncryptedPayload.Ssh name public_key private_key passphrase notes
  | EncryptedPayload.SecureNote name _ => EncryptedPayload.SecureNote name notes
  end.

Lemma set_text_eq s t : 13%Z ∉ chars s → textarea_text (set_textarea_text s t) = s.
Proof.
  intros Hs. unfold textarea_text, set_textarea_text. case_bool_decide as E.
  - rewrite ta_delete_all, E. done.
  - apply ta_insert_into_empty; [apply ta_delete_all|done].
Qed.

Lemma loaded_eq record s :
  13%Z ∉ chars (default "" (payload_notes (dr_payload record))) →
  let f := rf_form (ed_panel (load_record record s)) in
  build_payload_snapshot f = as_edited (dr_payload record) ∧
  fd_tags (fm_fields f) = dr_tags record ∧
  fd_expires_at (fm_fields f) = ExpiryOption.Never.
Proof.
  intros Hn. destruct record as [? ? ? ? ? ? ? ? tags payload]. cbn in Hn.
  unfold load_record, build_payload_snapshot, FormFields.notes_text. cbn [dr_payload].
  destruct payload as [? ? ? ? notes|? ? ? ? notes|? ? ? ? notes|? notes]; cbn in Hn |- *;
    (rewrite set_text_eq by done; split_and!; done).
Qed.

Lemma save_key config s :
  calm_form (ed_panel s) →
  handle_key config (mkKeyEvent (KeyCode.Char (ch "s")) (mkKeyModifiers false true false false false)) s
  = in_panel (attempt_save (submit_update_record s)) s.
Proof.
  intros []. unfold handle_key, in_panel, form_key. cbn [fk_lists keys]. unfold dropdown_key.
  by rewrite cf_saving0, cf_weak0, cf_unsaved0, cf_generator0, cf_expiries0.
Qed.

Lemma loaded_calm record s :
  eg_expanded (rf_generator (ed_panel s)) = false → calm_form (ed_panel (load_record record s)).
Proof. intros Hg. destruct record as [? ? ? ? ? ? ? ? ? []]; by split. Qed.


End editing.
