(* ===== verification/UnlockScreen.v ===== *)
(** * The unlock screen and the notifications (src/tui/screens/unlock.rs,
    src/tui/state/notification.rs)

    The screen on which the vault is unlocked, with its password or its recovery words, and
    the lockout after failures; and the message in the status bar with the one that waits
    behind it.  What the screen guarantees is at the end. *)

From S2P Require Import Prelude Text Errors Env Types Payload Vault Records Tags Password Listing.
From S2P Require Import Executor Generator Config ConfigExec Recovery Dispatch DetailPanel.
From S2P Require Import Overlays MainScreen MainSafety FormState.

(** ** The screen (unlock.rs) *)

Module UnlockPhase.
Inductive t : Set := Idle | Verifying | Failed | LockedOut (locked_until : Instant) | Success.
End UnlockPhase.

Module UnlockMode.
Inductive t : Set := Password | RecoveryKey.
End UnlockMode.

(** Seconds. *)
Definition lockout_duration (attempts : Z) : Z :=
  if (attempts <=? 4)%Z then 0
  else if (attempts =? 5)%Z then 30
  else if (attempts =? 6)%Z then 60
  else if (attempts =? 7)%Z then 300
  else 900.

Record UnlockScreen : Set := mkUnlockScreen {
  un_state : UnlockPhase.t;
  un_mode : UnlockMode.t;
  un_password_input : string;
  un_failed_attempts : Z;
  un_error_message : option string;
}.

#[export] Instance eta_UnlockScreen : Eta UnlockScreen := λ s,
  mkUnlockScreen (un_state s) (un_mode s) (un_password_input s) (un_failed_attempts s)
    (un_error_message s).

Module UnlockScreen.

Definition new : UnlockScreen := mkUnlockScreen UnlockPhase.Idle UnlockMode.Password "" 0 None.

(** A bullet for each character. *)
Definition masked_input (s : UnlockScreen) : string :=
  of_chars (replicate (length (chars (un_password_input s))) 8226%Z).

Definition on_mount (s : UnlockScreen) : UnlockScreen := new.

Definition on_unmount (s : UnlockScreen) : UnlockScreen :=
  s <| un_password_input := "" |> <| un_error_message := None |>.

Definition handle_tick {W} `{System W} (s : UnlockScreen) : io W UnlockScreen :=
  match un_state s with
  | UnlockPhase.LockedOut locked_until =>
      let* now := monotonic_now in
      io_ret (if (locked_until <=? now)%Z
              then s <| un_state := UnlockPhase.Idle |> <| un_error_message := None |> else s)
  | _ => io_ret s
  end.

Section s.
Context {W : Type} `{Translations} `{Messages} `{CommandQueue W} `{System W}.

Definition Step : Type := UnlockScreen * ScreenResult.t.

Definition stay (s : UnlockScreen) : io W Step := io_ret (s, ScreenResult.Continue).

Definition failed (message_key : string) (s : UnlockScreen) : UnlockScreen :=
  s <| un_state := UnlockPhase.Failed |> <| un_error_message := Some (translate message_key) |>.

Definition send (cmd : Dispatch.Command.t) (s : UnlockScreen) : io W Step :=
  let* sent := command_tx_try_send cmd in
  stay (if sent : bool then s else failed "tui.error.command_dispatch_failed" s).

(** The input is taken out of the field, whatever follows. *)
Definition submit (s : UnlockScreen) : io W Step :=
  let input := un_password_input s in
  if bool_decide (input = "") then stay s
  else
    let s := s <| un_state := UnlockPhase.Verifying |> <| un_error_message := None |>
               <| un_password_input := "" |> in
    match un_mode s with
    | UnlockMode.Password => send (Dispatch.Command.UnlockVault input) s
    | UnlockMode.RecoveryKey =>
        match RecoveryWords.new (split_whitespace input) with
        | Ok words => send (Dispatch.Command.UnlockWithRecoveryKey words) s
        | Err _ => stay (failed "tui.entry.key_recovery_empty_error" s)
        end
    end.

Definition type_char (c : Z) (s : UnlockScreen) : UnlockScreen :=
  let s := s <| un_password_input ::= λ t, push t c |> in
  match un_state s with
  | UnlockPhase.Failed => s <| un_state := UnlockPhase.Idle |> <| un_error_message := None |>
  | _ => s
  end.

Definition handle_key (key : KeyCode.t) (s : UnlockScreen) : io W Step :=
  match un_state s with
  | UnlockPhase.LockedOut _ | UnlockPhase.Verifying | UnlockPhase.Success =>
      io_ret (s, match key with KeyCode.Esc => ScreenResult.ExitApp | _ => ScreenResult.Continue end)
  | UnlockPhase.Idle | UnlockPhase.Failed =>
      match key with
      | KeyCode.Enter => submit s
      | KeyCode.Esc => io_ret (s, ScreenResult.ExitApp)
      | KeyCode.Tab =>
          stay (s <| un_mode ::= λ m, match m with
                                      | UnlockMode.Password => UnlockMode.RecoveryKey
                                      | UnlockMode.RecoveryKey => UnlockMode.Password
                                      end |>)
      | KeyCode.Backspace => stay (s <| un_password_input ::= pop |>)
      | KeyCode.Char c => stay (type_char c s)
      | _ => stay s
      end
  end.

Definition on_failure (s : UnlockScreen) : io W Step :=
  let s := s <| un_failed_attempts ::= λ n, wrap32 (n + 1) |> in
  let duration := lockout_duration (un_failed_attempts s) in
  if (0 <? duration)%Z then
    let* now := monotonic_now in
    stay (s <| un_state := UnlockPhase.LockedOut (now + seconds duration) |>
            <| un_error_message := None |>)
  else
    stay (s <| un_state := UnlockPhase.Failed |>
            <| un_error_message :=
                 Some (message "tui.entry.password_error_count"
                         [("n", Z.to_N (un_failed_attempts s))]) |>).

Definition handle_command_result (result : CommandResult.t) (s : UnlockScreen) : io W Step :=
  let succeeded screen :=
    io_ret (s <| un_state := UnlockPhase.Success |>, ScreenResult.NavigateTo screen) in
  match result with
  | CommandResult.VaultUnlocked => succeeded Screen.Main
  | CommandResult.RecoveryKeyUnlocked => succeeded Screen.SetNewMasterPassword
  | CommandResult.VaultUnlockFailed _ => on_failure s
  | _ => stay s
  end.

Definition update (msg : Message.t) (s : UnlockScreen) : io W Step :=
  match msg with
  | Message.KeyEvent key => handle_key (ke_code key) s
  | Message.Tick => let* s := handle_tick s in stay s
  | Message.CommandCompleted (AppResult.Command result) => handle_command_result result s
  | _ => stay s
  end.

(** What follows when messages come one after the other. *)
Fixpoint updates (msgs : list Message.t) (s : UnlockScreen) : io W UnlockScreen :=
  match msgs with
  | [] => io_ret s
  | msg :: msgs => let* r := update msg s in updates msgs r.1
  end.

End s.
End UnlockScreen.

(** ** Notifications (notification.rs) *)

Module Notification.

Definition SUCCESS_TTL : Z := 40.
Definition ERROR_TTL : Z := 300.
Definition WARNING_TTL : Z := 300.
Definition OPERATION_TTL : Z := 0.

Inductive style : Set := Success | Error | Warning | Operation.

(** Of the priorities only the order matters; the icon goes with the style. *)
Record StatusMessage : Set := mkStatusMessage {
  sm_text : string;
  sm_style : style;
  sm_ttl : Z;
  sm_priority : nat;
}.

#[export] Instance eta_StatusMessage : Eta StatusMessage := λ m,
  mkStatusMessage (sm_text m) (sm_style m) (sm_ttl m) (sm_priority m).

Definition success (text : string) : StatusMessage := mkStatusMessage text Success SUCCESS_TTL 0.
Definition error (text : string) : StatusMessage := mkStatusMessage text Error ERROR_TTL 2.
Definition warning (text : string) : StatusMessage := mkStatusMessage text Warning WARNING_TTL 1.
Definition operation (text : string) : StatusMessage :=
  mkStatusMessage text Operation OPERATION_TTL 1.

(** The default text, which nothing changes, is left out. *)
Record NotificationState : Set := mkNotificationState {
  nf_current : option StatusMessage;
  nf_pending : option StatusMessage;
}.

Definition enqueue (msg : StatusMessage) (s : NotificationState) : NotificationState :=
  match nf_current s with
  | None => mkNotificationState (Some msg) (nf_pending s)
  | Some current =>
      if sm_priority msg <=? sm_priority current
      then mkNotificationState (Some current) (Some msg)
      else mkNotificationState (Some msg) (Some current)
  end.

Definition tick (s : NotificationState) : NotificationState :=
  match nf_current s with
  | Some msg =>
      if (0 <? sm_ttl msg)%Z then
        if (sm_ttl msg - 1 =? 0)%Z then mkNotificationState (nf_pending s) None
        else mkNotificationState (Some (msg <| sm_ttl ::= Z.pred |>)) (nf_pending s)
      else s
  | None => mkNotificationState (nf_pending s) None
  end.

Definition clear (s : NotificationState) : NotificationState := mkNotificationState None None.

End Notification.

(** ** Properties *)

Import UnlockScreen.

(** The clock of a world, which only goes forward, and the commands that were taken. *)
Class UnlockLaws (W : Type) `{CommandQueue W} `{System W} : Type := {
  instant : W → Instant;
  commands : W → list Dispatch.Command.t;
  monotonic_reads w t w' :
    monotonic_now w = (t, w') → t = instant w' ∧ (instant w ≤ instant w')%Z ∧ commands w' = commands w;
  send_time cmd w sent w' : command_tx_try_send cmd w = (sent, w') → (instant w ≤ instant w')%Z;
}.

Section lockout.
Context {W : Type} `{Translations} `{Messages} `{CommandQueue W} `{System W} `{!UnlockLaws W}.

(** The results that the screen looks at. *)
Definition answers (msg : Message.t) : bool :=
  match msg with
  | Message.CommandCompleted (AppResult.Command result) =>
      match result with
      | CommandResult.VaultUnlocked | CommandResult.RecoveryKeyUnlocked
      | CommandResult.VaultUnlockFailed _ => true
      | _ => false
      end
  | _ => false
  end.

(** A message that is no answer, while the screen is locked. *)
Lemma locked_step msg s until w r w' :
  answers msg = false → un_state s = UnlockPhase.LockedOut until → update msg s w = (r, w') →
  (instant w ≤ instant w')%Z ∧ commands w' = commands w ∧
  ((instant w' < until)%Z → r.1 = s).
Proof.
  intros Ha Hs.
  assert (Hret : ∀ v : Step, v.1 = s → io_ret v w = (r, w') →
    (instant w ≤ instant w')%Z ∧ commands w' = commands w ∧ ((instant w' < until)%Z → r.1 = s)).
  { intros v Hv [= <- <-]. split; [lia|]. split; [done|]. by intros. }
  unfold update. destruct msg as [result| | | | | | | |];
    try (apply Hret; reflexivity).
  - destruct result as [result|?|?|?|?|?]; try (apply Hret; reflexivity).
    unfold handle_command_result. destruct result; try done; apply Hret; reflexivity.
  - unfold handle_key. rewrite Hs. apply Hret; reflexivity.
  - unfold handle_tick. rewrite Hs. unfold stay, io_bind, io_ret.
    destruct (monotonic_now w) as [now w1] eqn:E. intros [= <- <-].
    apply monotonic_reads in E as (-> & Hle & Hc). split; [done|]. split; [done|].
    intros Hlt. cbn. by rewrite (proj2 (Z.leb_gt _ _)).
Qed.

Lemma send_forward cmd s w r w' : send cmd s w = (r, w') → (instant w ≤ instant w')%Z.
Proof.
  unfold send, io_bind. destruct (command_tx_try_send cmd w) as [sent w1] eqn:E.
  apply send_time in E. intros [= _ <-]. done.
Qed.

Lemma now_forward {A} (k : Instant → io W A) w r w' :
  (∀ now w r w', k now w = (r, w') → (instant w ≤ instant w')%Z) →
  io_bind monotonic_now k w = (r, w') → (instant w ≤ instant w')%Z.
Proof.
  intros Hk. unfold io_bind. destruct (monotonic_now w) as [now w1] eqn:E.
  apply monotonic_reads in E as (_ & Hle & _). intros Hr%Hk. lia.
Qed.

Lemma update_forward msg s w r w' : update msg s w = (r, w') → (instant w ≤ instant w')%Z.
Proof.
  assert (Hret : ∀ v, io_ret v w = (r, w') → (instant w ≤ instant w')%Z)
    by (intros v [= _ <-]; lia).
  unfold update. destruct msg as [result|key| | | | | | |]; try apply Hret.
  - destruct result as [result|?|?|?|?|?]; try apply Hret.
    unfold handle_command_result. destruct result; try apply Hret.
    unfold on_failure. case_match; [|apply Hret]. apply now_forward.
    intros ???? [= _ <-]. lia.
  - unfold handle_key, submit. repeat case_match; try apply Hret; apply send_forward.
  - unfold io_bind. destruct (handle_tick s w) as [s1 w1] eqn:E. intros [= _ <-].
    revert E. unfold handle_tick. case_match; try (intros [= _ <-]; lia).
    apply now_forward. intros ???? [= _ <-]. lia.
Qed.

Lemma updates_forward msgs s w s' w' : updates msgs s w = (s', w') → (instant w ≤ instant w')%Z.
Proof.
  revert s w. induction msgs as [|msg msgs IH]; intros s w; [intros [= _ <-]; lia|].
  cbn [updates]. unfold io_bind. destruct (update msg s w) as [r w1] eqn:E.
  apply update_forward in E. intros Hr%IH. lia.
Qed.

Lemma locked_session msgs s until w s' w' :
  Forall (λ msg, answers msg = false) msgs → un_state s = UnlockPhase.LockedOut until →
  updates msgs s w = (s', w') → (instant w' < until)%Z → s' = s ∧ commands w' = commands w.
Proof.
  intros Hms Hs. revert w. induction Hms as [|msg msgs Ha Hms IH]; intros w.
  { by intros [= <- <-]. }
  cbn [updates]. unfold io_bind. destruct (update msg s w) as [r w1] eqn:E.
  destruct (locked_step _ _ _ _ _ _ Ha Hs E) as (_ & Hc & Hr). intros Hrest Hlt.
  pose proof (updates_forward _ _ _ _ _ Hrest). rewrite Hr in Hrest by lia.
  destruct (IH _ Hrest Hlt) as [-> Hc']. split; congruence.
Qed.

Lemma failure_locks s e w r w1 :
  (4 ≤ un_failed_attempts s < u32_max)%Z →
  update (Message.CommandCompleted (AppResult.Command (CommandResult.VaultUnlockFailed e))) s w
    = (r, w1) →
  let n := (un_failed_attempts s + 1)%Z in
  un_state r.1 = UnlockPhase.LockedOut (instant w1 + seconds (lockout_duration n))%Z ∧
  commands w1 = commands w ∧ un_failed_attempts r.1 = n ∧
  un_password_input r.1 = un_password_input s ∧ (30 ≤ lockout_duration n)%Z.
Proof.
  intros Hn. cbn [update handle_command_result]. unfold on_failure.
  assert (Hw : wrap32 (un_failed_attempts s + 1) = (un_failed_attempts s + 1)%Z)
    by (apply Z.mod_small; unfold u32_max in Hn; lia).
  assert (Hd : (30 ≤ lockout_duration (un_failed_attempts s + 1))%Z).
  { unfold lockout_duration. repeat case_match; try lia; rewrite Z.leb_le in *; lia. }
  change (un_failed_attempts (s <| un_failed_attempts ::= _ |>)) with (wrap32 (un_failed_attempts s + 1)).
  rewrite Hw. rewrite (proj2 (Z.ltb_lt 0 _)) by lia.
  unfold io_bind. destruct (monotonic_now w) as [now w2] eqn:E. intros [= <- <-].
  apply monotonic_reads in E as (-> & _ & Hc). done.
Qed.

(** The fifth wrong password in a row, and each one after it, locks the screen: whatever
    keys and other messages come before the duration of the lockout is over, no command is
    sent, nothing is typed, and the screen is as the failure left it. *)
Theorem lockout_holds s e w r w1 msgs s' w' :
  (4 ≤ un_failed_attempts s < u32_max)%Z →
  update (Message.CommandCompleted (AppResult.Command (CommandResult.VaultUnlockFailed e))) s w
    = (r, w1) →
  Forall (λ msg, answers msg = false) msgs →
  updates msgs r.1 w1 = (s', w') →
  (instant w' < instant w1 + seconds (lockout_duration (un_failed_attempts s + 1)))%Z →
  s' = r.1 ∧ commands w' = commands w ∧
  un_failed_attempts s' = (un_failed_attempts s + 1)%Z ∧
  (30 ≤ lockout_duration (un_failed_attempts s'))%Z ∧
  un_password_input s' = un_password_input s.
Proof.
  intros Hn E Hms Hrest Hlt.
  destruct (failure_locks _ _ _ _ _ Hn E) as (Hph & Hc & Hf & Hi & Hd).
  destruct (locked_session _ _ _ _ _ _ Hms Hph Hrest Hlt) as [-> Hc'].
  rewrite Hf. split_and!; congruence || done.
Qed.

End lockout.
