(* ===== verification/DemoVault.v ===== *)
(** * A concrete device

    The interfaces of the vault in an environment that runs: a database in memory, a disk
    that does not fail, a clock within chrono's range, a cipher whose text names its key,
    and JSON as the bits of an encoding.  The theorems are applied to it in
    [WitnessVault]. *)

From Stdlib Require Import Ascii.
From stdpp Require Import countable.
From S2P Require Import Prelude Text Errors Env Types CloudRecord CloudMetadata Storage.
From S2P Require Import Checkpoint Crypto Keystore Payload Database Queries Integrity Records.
From S2P Require Import VaultSync Pipeline Conflict SyncTask Executor Rotation Demo.

(** ** The cipher *)

Fixpoint pad (n : nat) (s : string) : string :=
  match n with
  | O => ""
  | S n =>
      match s with
      | EmptyString => String "."%char (pad n "")
      | String c s => String c (pad n s)
      end
  end.

Lemma pad_length n s : String.length (pad n s) = n.
Proof. revert s. induction n as [|n IH]; intros [|c s]; cbn; by rewrite ?IH. Qed.

Fixpoint drop_string (n : nat) (s : string) : string :=
  match n, s with
  | O, _ => s
  | S n, String _ s => drop_string n s
  | S _, EmptyString => EmptyString
  end.

Lemma drop_app s t : drop_string (String.length s) (s +:+ t) = t.
Proof. by induction s as [|c s IH]. Qed.

Lemma prefix_app s t : String.prefix s (s +:+ t) = true.
Proof.
  induction s as [|c s IH]; [by destruct t|].
  change (String.prefix (String c s) (String c (s +:+ t)) = true). cbn.
  destruct (ascii_dec c c); [exact IH|done].
Qed.

(** A ciphertext is the text after a header made of the key, the nonce, the data that go
    with it and sixteen more bytes, and opens under the same header only. *)
Definition seal_header (key nonce aad : bytes) : bytes := key +:+ nonce +:+ aad +:+ "|tag-of-16-bytes".

#[export] Instance demo_crypto : CryptoLibs := {
  hkdf_expand salt key info := Some (pad 32 (info +:+ key));
  aead_seal key nonce aad m := Ok (seal_header key nonce aad +:+ m);
  aead_open key nonce aad c :=
    let h := seal_header key nonce aad in
    if String.prefix h c then Ok (drop_string (String.length h) c) else Err "aead::Error";
  argon2_params p :=
    if (8 * p_cost p <=? m_cost p)%Z then Ok () else Err "memory cost is too small";
  argon2id p password salt := Ok (pad 32 (password +:+ salt));
}.

#[export] Instance demo_crypto_laws : CryptoLibLaws.
Proof. intros key nonce aad m c. cbn. intros [= <-]. by rewrite prefix_app, drop_app. Qed.

(** ** JSON *)

Definition JsonLeaf : Type := bool + Z + string.

Fixpoint json_tree (v : Json) : gen_tree JsonLeaf :=
  match v with
  | JNull => GenNode 0 []
  | JBool b => GenLeaf (inl (inl b))
  | JNumber n => GenLeaf (inl (inr n))
  | JFloat text => GenNode 1 [GenLeaf (inr text)]
  | JString s => GenLeaf (inr s)
  | JArray l => GenNode 2 (map json_tree l)
  | JObject ms => GenNode 3 (map (λ m, GenNode 4 [GenLeaf (inr m.1); json_tree m.2]) ms)
  end.

Fixpoint tree_json (t : gen_tree JsonLeaf) : Json :=
  match t with
  | GenLeaf (inl (inl b)) => JBool b
  | GenLeaf (inl (inr n)) => JNumber n
  | GenLeaf (inr s) => JString s
  | GenNode 1 [GenLeaf (inr text)] => JFloat text
  | GenNode 2 l => JArray (map tree_json l)
  | GenNode 3 ms =>
      JObject (map (λ m,
        match m with
        | GenNode _ [GenLeaf (inr k); v] => (k, tree_json v)
        | _ => ("", JNull)
        end) ms)
  | _ => JNull
  end.

Lemma tree_json_tree : ∀ v, tree_json (json_tree v) = v.
Proof.
  fix IH 1. intros [| | | | |l|ms]; try reflexivity; cbn; f_equal.
  - induction l as [|v l IHl]; [reflexivity|]. cbn. by rewrite IH, IHl.
  - induction ms as [|[k v] ms IHl]; [reflexivity|]. cbn. by rewrite IH, IHl.
Qed.

#[export] Instance demo_serde_json : Serde Json := {|
  to_json v := Ok (print_bits (encode (json_tree v)));
  from_json s :=
    match parse_bits s ≫= decode with
    | Some t => Ok (tree_json t)
    | None => Err "invalid value"
    end;
|}.

Lemma json_roundtrips v s : to_json v = Ok s → from_json s = Ok v.
Proof.
  cbn. intros [= <-]. rewrite parse_print_bits. cbn. by rewrite decode_encode, tree_json_tree.
Qed.

#[export] Instance demo_json_laws : JsonLaws.
Proof. intros v s _. apply json_roundtrips. Qed.

(** The plaintext of a record, by the fields of its object. *)
Definition value_dto (v : Json) : option PayloadPlaintextDto.t :=
  match v with
  | JObject [(tag, fields)] =>
      let get k := as_str (json_get fields k) in
      if String.eqb tag "Login" then
        name ← get "name"; username ← get "username"; password ← get "password";
        Some (PayloadPlaintextDto.Login name username password (get "url") (get "notes"))
      else if String.eqb tag "Api" then
        name ← get "name"; app_id ← get "app_id"; secret_key ← get "secret_key";
        Some (PayloadPlaintextDto.Api name app_id secret_key (get "url") (get "notes"))
      else if String.eqb tag "Ssh" then
        name ← get "name"; public_key ← get "public_key";
        Some (PayloadPlaintextDto.Ssh name public_key (get "private_key") (get "passphrase")
                (get "notes"))
      else name ← get "name"; Some (PayloadPlaintextDto.SecureNote name (get "notes"))
  | _ => None
  end.

Lemma value_dto_value d : value_dto (dto_value d) = Some d.
Proof. destruct d as [? ? ? [] []|? ? ? [] []|? ? [] [] []|? []]; reflexivity. Qed.

#[export] Instance demo_serde_dto : Serde PayloadPlaintextDto.t := {|
  to_json d := to_json (dto_value d);
  from_json s :=
    let? v := from_json s in
    ok_or "unknown variant" (value_dto v);
|}.

#[export] Instance demo_dto_laws : SerdeLaws PayloadPlaintextDto.t.
Proof.
  intros d s Hs. unfold from_json, demo_serde_dto, to_json in *.
  change (to_json (dto_value d) = Ok s) in Hs. apply json_roundtrips in Hs.
  change (match @from_json _ demo_serde_json s with Ok v => ok_or "unknown variant" (value_dto v)
          | Err e => Err e end = Ok d).
  rewrite Hs. by rewrite value_dto_value.
Qed.

#[export] Instance demo_dto_text : JsonText PayloadPlaintextDto.t.
Proof. intros d s. cbn. intros [= <-]. apply utf8_print_bits. Qed.

#[export] Instance demo_payload_json : PayloadJson.
Proof. intros d s Hs. by apply json_roundtrips. Qed.

#[export] Instance CloudPrivateMetadata_eq_dec : EqDecision CloudPrivateMetadata.
Proof. solve_decision. Defined.
#[export] Instance CloudPrivateMetadata_countable : Countable CloudPrivateMetadata.
Proof.
  refine (inj_countable (λ p, [encode (pm_name p); encode (pm_tags p);
      encode (pm_credential_type p); encode (pm_is_favorite p); encode (pm_expires_at p);
      encode (pm_updated_by p); encode (pm_health p)])
    (λ l, match l with
          | [p1; p2; p3; p4; p5; p6; p7] =>
              a ← decode p1; b ← decode p2; c ← decode p3; d ← decode p4; e ← decode p5;
              f ← decode p6; g ← decode p7; Some (mkCloudPrivateMetadata a b c d e f g)
          | _ => None
          end) _).
  intros []; cbn. by rewrite !decode_encode.
Defined.

#[export] Instance RotationTrigger_eq_dec : EqDecision RotationTrigger.t.
Proof. solve_decision. Defined.
#[export] Instance RotationTrigger_countable : Countable RotationTrigger.t.
Proof.
  refine (inj_countable (λ x, match x with
      | RotationTrigger.AutoTime n => (0%nat, n)
      | RotationTrigger.AutoCount n => (1%nat, n)
      | RotationTrigger.PostRecovery => (2%nat, 0%Z)
      | RotationTrigger.Manual => (3%nat, 0%Z)
      end)
    (λ p, match p.1 with
          | 0 => Some (RotationTrigger.AutoTime p.2)
          | 1 => Some (RotationTrigger.AutoCount p.2)
          | 2 => Some RotationTrigger.PostRecovery
          | _ => Some RotationTrigger.Manual
          end) _).
  by intros [].
Defined.

#[export] Instance RotationCheckpoint_eq_dec : EqDecision RotationCheckpoint.
Proof. solve_decision. Defined.
#[export] Instance RotationCheckpoint_countable : Countable RotationCheckpoint.
Proof.
  refine (inj_countable (λ c, [encode (rc_trigger c); encode (rc_old_dek_version c);
      encode (rc_new_dek_version c); encode (rc_total_records c);
      encode (rc_migrated_records c); encode (rc_last_migrated_record_id c);
      encode (rc_started_at c); encode (rc_cloud_metadata_revision c)])
    (λ l, match l with
          | [p1; p2; p3; p4; p5; p6; p7; p8] =>
              a ← decode p1; b ← decode p2; c ← decode p3; d ← decode p4; e ← decode p5;
              f ← decode p6; g ← decode p7; h ← decode p8;
              Some (mkRotationCheckpoint a b c d e f g h)
          | _ => None
          end) _).
  intros []; cbn. by rewrite !decode_encode.
Defined.

#[export] Instance RotationConfig_eq_dec : EqDecision RotationConfig.
Proof. solve_decision. Defined.
#[export] Instance RotationConfig_countable : Countable RotationConfig.
Proof.
  refine (inj_countable (λ c, [encode (rt_auto_rotate c); encode (rt_rotate_after_days c);
      encode (rt_rotate_after_records c); encode (rt_last_rotation_at c);
      encode (rt_current_dek_record_count c)])
    (λ l, match l with
          | [p1; p2; p3; p4; p5] =>
              a ← decode p1; b ← decode p2; c ← decode p3; d ← decode p4; e ← decode p5;
              Some (mkRotationConfig a b c d e)
          | _ => None
          end) _).
  intros []; cbn. by rewrite !decode_encode.
Defined.

#[export] Instance demo_serde_cloud_private : Serde CloudPrivateMetadata := serde_of.
#[export] Instance demo_serde_trigger : Serde RotationTrigger.t := serde_of.
#[export] Instance demo_serde_rotation : Serde RotationCheckpoint := serde_of.
#[export] Instance demo_serde_config : Serde RotationConfig := serde_of.
#[export] Instance demo_cloud_private_laws : SerdeLaws CloudPrivateMetadata := serde_of_laws.

(** ** Texts *)

Fixpoint ascii_lowercase (s : string) : string :=
  match s with
  | EmptyString => EmptyString
  | String c s =>
      let n := N_of_ascii c in
      String (if (65 <=? n)%N && (n <=? 90)%N then ascii_of_N (n + 32) else c)
        (ascii_lowercase s)
  end.

#[export] Instance demo_lowercase : Lowercase := ascii_lowercase.
#[export] Instance demo_uuid_errors : UuidErrors := λ s, "invalid UUID: " +:+ s.
#[export] Instance demo_conversion_errors : ConversionErrors := λ column kind text,
  mkSqlError ("conversion error at column " +:+ pretty column +:+ ": " +:+ text) false.
#[export] Instance demo_datetime_parse : DateTimeParse := λ s,
  ok_or "premature end of input" (rfc3339_parse s).

(** ** A device: a database, a disk, a clock and a generator *)

Record Device : Type := mkDevice {
  d_tables : Tables;
  d_disk : gmap string bytes;
  d_clock : Instant;
  d_random : N;
}.

#[export] Instance eta_Device : Eta Device := λ d,
  mkDevice (d_tables d) (d_disk d) (d_clock d) (d_random d).

Definition new_device : Device := mkDevice no_tables ∅ start_time 1.

(** What the clock can show. *)
Definition clamp (t : Instant) : Instant :=
  Z.max (seconds min_timestamp) (Z.min t (seconds max_timestamp)).

Lemma clamp_range t : chrono_range (clamp t).
Proof.
  unfold chrono_range, clamp, datetime_to_timestamp, seconds, nanos_per_sec.
  split.
  - apply Z.div_le_lower_bound; [done|]. lia.
  - apply Z.div_le_upper_bound; [done|]. unfold min_timestamp, max_timestamp. lia.
Qed.

#[export] Instance device_system : System Device := {
  now w := (clamp (d_clock w), w <| d_clock ::= Z.succ |>);
  new_v4 w := ((d_random w mod 2 ^ 128)%N, w <| d_random ::= N.succ |>);
  sleep d w := ((), w <| d_clock ::= λ t, (t + Z.max 0 d)%Z |>);
  monotonic_now w := (d_clock w, w);
  random_range lo hi w := (lo, w);
  try_send w := (true, w);
}.

#[export] Instance device_secure : Secure Device := {
  os_random n w := (pad n (hex 16 (d_random w)), w <| d_random ::= N.succ |>);
  lock_pages w := (Ok (), w);
}.

#[export] Instance device_secure_laws : SecureLaws Device.
Proof. intros n w b w'. cbn. intros [= <- <-]. apply pad_length. Qed.

#[export] Instance device_fs : Fs Device := {
  fs_write p b w := (Ok (), w <| d_disk ::= insert p b |>);
  fs_rename p q w :=
    match d_disk w !! p with
    | Some b => (Ok (), w <| d_disk ::= λ fs, <[q := b]> (delete p fs) |>)
    | None => (Err "no such file", w)
    end;
  fs_read_to_string p w :=
    (match d_disk w !! p with Some b => Ok b | None => Err "no such file" end, w);
  fs_exists p w := (bool_decide (is_Some (d_disk w !! p)), w);
  fs_remove_file p w := (Ok (), w <| d_disk ::= delete p |>);
}.

#[export] Instance device_fs_laws : FsLaws Device.
Proof.
  refine {| fs_files := d_disk |}; cbn; intros; repeat case_match; simplify_eq/=; try done; auto.
  - by rewrite lookup_insert_ne.
  - reflect_bools. by apply eq_None_not_Some.
  - by rewrite lookup_delete_ne.
Defined.

#[export] Instance device_dir_fs : DirFs Device := {
  fs_create_dir_all p w := (Ok (), w);
  fs_set_mode p m w := (Ok (), w);
  fs_sync p w := (Ok (), w);
}.

#[export] Instance device_dir_laws : DirFsLaws Device.
Proof. split; cbn; intros; by simplify_eq/=. Qed.

(** The database never fails, and a query returns its rows in the order of the tables. *)
#[export] Instance device_sqlite : Sqlite Device := {
  sql_query A f w := (Ok (f (d_tables w)), w);
  sql_select A f w := (Ok (f (d_tables w)), w);
  sql_execute A f w :=
    match f (d_tables w) with
    | Ok (a, t) => (Ok a, w <| d_tables := t |>)
    | Err e => (Err e, w)
    end;
  sql_some_rows A f w := (f (d_tables w), w);
  sql_choose A l := head l;
}.

#[export] Instance device_sqlite_laws : SqliteLaws Device.
Proof.
  refine {| tables := d_tables |}; cbn; intros; repeat case_match; simplify_eq/=; try done.
  - destruct l; [done|]. simplify_eq/=. left.
  - by destruct l.
Defined.

#[export] Instance device_range_laws : RangeLaws Device.
Proof.
  split; cbn; intros; simplify_eq/=; [done|by apply N.mod_lt|apply clamp_range].
Qed.

(** A sync service that is paused and resumed but has nothing to sync. *)
#[export] Instance device_sync : SyncService Device := {
  ss_sync _ w := (Err (SyncError.NetworkTimeout "no storage"), w);
  ss_resolve_conflict _ _ w := (Ok (), w);
  ss_resolve_all_conflicts _ w := (Ok 0%nat, w);
  ss_pause w := (Ok (), w);
  ss_resume w := (Ok (), w);
  ss_download_metadata w := (Ok None, w);
  ss_push_metadata_atomic m v w := (Ok (), w);
}.

#[export] Instance device_token : CancelToken Device := λ w, (false, w).
