(* ===== verification/Witness.v ===== *)
(** * The theorems at concrete inputs

    For each theorem with hypotheses, one run of the model in the environment of [Demo]
    in which the hypotheses hold. *)

From S2P Require Import Prelude Text Errors StateMachine Env Types CloudRecord CloudMetadata.
From S2P Require Import Storage Conflict Checkpoint Retry Lock Pipeline Push SyncTask Demo.

(** A decidable proposition that evaluates to true. *)
Ltac by_decide :=
  match goal with |- ?P => apply (bool_decide_unpack P); vm_compute; exact I end.

Lemma pair2 {A B} (x : A * B) : x = (x.1, x.2).
Proof. by destruct x. Qed.

Lemma pair2_ok {A B} (x : A * B) a : x.1 = a → x = (a, x.2).
Proof. intros <-. apply pair2. Qed.

Lemma pair3 {A B C} (x : A * B * C) : x = ((x.1.1, x.1.2), x.2).
Proof. by destruct x as [[]]. Qed.

(** ** Two devices and a vault

    The laptop has one pending record and syncs first; the phone has an older synced
    version of it. *)

Definition laptop_record : CloudRecord := sample_record sample_uuid 2 "secret".

Definition context (locals : list LocalRecordInfo) (uploads : list CloudRecord) (version : Z)
  : PipelineContext :=
  PipelineContext.set_uploads uploads (PipelineContext.set_local_records locals
    (PipelineContext.new storage (SyncCheckpoint.new "/tmp") version token)).

Definition laptop : PipelineContext :=
  context [mkLocalRecordInfo sample_uuid SyncStatus.Pending 2] [laptop_record] 0.

Definition first_sync := execute laptop empty_world.

(** What the phone has: version 1, and it last saw metadata version 1. *)
Definition phone : PipelineContext :=
  context [mkLocalRecordInfo sample_uuid SyncStatus.Synced 1] [] 1.

(** The phone with a pending change of its own. *)
Definition phone_pending : PipelineContext :=
  context [mkLocalRecordInfo sample_uuid SyncStatus.Pending 1] [] 1.

Definition phone_sync := execute phone first_sync.2.

Lemma laptop_fresh : fresh_context laptop.
Proof. repeat split; by_decide. Qed.

Lemma phone_fresh : fresh_context phone.
Proof. repeat split; by_decide. Qed.

Lemma phone_pending_fresh : fresh_context phone_pending.
Proof. repeat split; by_decide. Qed.

Lemma completed_sync_publishes_witness :
  first_sync.1.1 = PipelineResult.Completed ∧ verified (files first_sync.2) laptop_record.
Proof.
  split; [vm_compute; reflexivity|].
  destruct (completed_sync_publishes laptop empty_world first_sync.1.1 first_sync.1.2 first_sync.2)
    with (u := laptop_record) as [Hf|[Hv _]].
  - apply pair3.
  - apply laptop_fresh.
  - left. vm_compute. reflexivity.
  - by_decide.
  - by_decide.
  - exfalso. revert Hf. by_decide.
  - exact Hv.
Defined.

(** The metadata that the laptop published. *)
Definition published : CloudMetadata :=
  default (CloudMetadata.new token empty_world).1 (stored_metadata (files first_sync.2)).

Definition published_info : RecordVersionInfo :=
  default (mkRecordVersionInfo 0 "" "" "" None false) (cm_records published !! sample_uuid).

Lemma newer_remote_untouched_witness :
  let run := execute phone_pending first_sync.2 in
  run.1.1 = PipelineResult.ConflictsDetected [sample_uuid] ∧
  files run.2 !! record_path sample_uuid = files first_sync.2 !! record_path sample_uuid.
Proof.
  split; [vm_compute; reflexivity|].
  apply (newer_remote_untouched phone_pending first_sync.2
    (execute phone_pending first_sync.2).1.1 (execute phone_pending first_sync.2).1.2
    (execute phone_pending first_sync.2).2 published sample_uuid published_info).
  - apply pair3.
  - apply phone_pending_fresh.
  - by_decide.
  - by_decide.
  - intros l ->%list_elem_of_singleton _. vm_compute. reflexivity.
Defined.

(** The laptop's context and store when it publishes. *)
Definition laptop_pushing : PipelineContext :=
  (push_records ((detect (pull_metadata laptop empty_world).1.2).2)
     (pull_metadata laptop empty_world).2).1.

Definition pushing_world : World :=
  (push_records ((detect (pull_metadata laptop empty_world).1.2).2)
     (pull_metadata laptop empty_world).2).2.

Definition publication := push_updated_metadata laptop_pushing pushing_world.

Definition publication_metadata : CloudMetadata :=
  match publication.1 with Ok m => m | Err _ => published end.

Lemma publication_ok : publication = (Ok publication_metadata, publication.2).
Proof.
  unfold publication_metadata. destruct publication as [[m|e] w] eqn:E; [done|]. exfalso.
  apply (f_equal (λ p, is_ok p.1)) in E. revert E. vm_compute. discriminate.
Qed.

Lemma published_change_propagates_witness :
  cr_id laptop_record ∈ pl_to_download (detect (pull_metadata phone publication.2).1.2).2.
Proof.
  destruct (published_change_propagates laptop_pushing pushing_world publication_metadata
      publication.2 laptop_record phone (mkLocalRecordInfo sample_uuid SyncStatus.Synced 1)
      (pull_metadata phone publication.2).1.1 (pull_metadata phone publication.2).1.2
      (pull_metadata phone publication.2).2) as [(e & He & _)|[(Ho & _)|[_ Hd]]].
  - apply publication_ok.
  - vm_compute. reflexivity.
  - by_decide.
  - by_decide.
  - apply phone_fresh.
  - by_decide.
  - by apply list_elem_of_singleton.
  - reflexivity.
  - reflexivity.
  - by_decide.
  - apply pair3.
  - exfalso. revert He. vm_compute. discriminate.
  - exfalso. revert Ho. vm_compute. discriminate.
  - apply (Hd _ _ (pair2 _)).
Defined.

Lemma published_metadata_verified_witness :
  cm_metadata_version publication_metadata = 2%Z ∧
  verified (files publication.2) laptop_record.
Proof.
  destruct (published_metadata_verified laptop_pushing pushing_world publication_metadata
    publication.2 publication_ok) as (_ & Hv & _ & Hu & _).
  split; [rewrite Hv; vm_compute; reflexivity|]. apply Hu; by_decide.
Defined.

(** A store that lost the upload. *)
Definition lossy_world : World :=
  pushing_world <| w_files ::= delete (record_path sample_uuid) |>.

Lemma unverified_not_published_witness :
  is_ok (push_updated_metadata laptop_pushing lossy_world).1 = false ∧
  files (push_updated_metadata laptop_pushing lossy_world).2 = files lossy_world.
Proof.
  apply (unverified_not_published laptop_pushing lossy_world
    (push_updated_metadata laptop_pushing lossy_world).1
    (push_updated_metadata laptop_pushing lossy_world).2 laptop_record).
  - apply pair2.
  - by_decide.
  - by_decide.
  - intros (b & r & Hb & _). revert Hb. vm_compute. discriminate.
Defined.

(** The phone after its pull and detection. *)
Definition phone_detected : PipelineContext := (detect (pull_metadata phone first_sync.2).1.2).2.

Lemma downloads_checked_witness :
  CloudRecord.validate laptop_record = Ok () ∧
  pl_downloads (download_all phone_detected first_sync.2).1 !! sample_uuid = Some laptop_record.
Proof.
  assert (pl_downloads (download_all phone_detected first_sync.2).1 !! sample_uuid
    = Some laptop_record) as Hd by by_decide.
  split; [|exact Hd].
  destruct (downloads_checked phone_detected first_sync.2
    (download_all phone_detected first_sync.2).1 (download_all phone_detected first_sync.2).2)
    as [Hall _]; [apply pair2|by_decide|].
  destruct (Hall sample_uuid laptop_record Hd) as (_ & _ & Hv & _). exact Hv.
Defined.

Lemma detect_partition_witness :
  let c := (pull_metadata phone first_sync.2).1.2 in
  sample_uuid ∈ pl_to_download (detect c).2.
Proof.
  intros c. destruct (detect_partition c published (detect c).1 (detect c).2)
    as (_ & _ & _ & Hd & _).
  - by_decide.
  - repeat split; by_decide.
  - by_decide.
  - apply pair2.
  - apply Hd. left. exists (mkLocalRecordInfo sample_uuid SyncStatus.Synced 1).
    split; [apply (list_elem_of_lookup_2 _ 0); vm_compute; reflexivity|].
    split; [reflexivity|]. split; [reflexivity|].
    exists published_info. split; [by_decide|]. left. vm_compute. reflexivity.
Defined.

Lemma pull_metadata_spec_witness :
  files (pull_metadata phone first_sync.2).2 = files first_sync.2.
Proof.
  apply (pull_metadata_spec phone first_sync.2 (pull_metadata phone first_sync.2).1.1
    (pull_metadata phone first_sync.2).1.2 (pull_metadata phone first_sync.2).2).
  apply pair3.
Defined.

(** The laptop again, with nothing pending and the metadata it published. *)
Definition laptop_synced : PipelineContext :=
  context [mkLocalRecordInfo sample_uuid SyncStatus.Synced 2] [] 2.

Lemma no_changes_reads_only_witness :
  files (execute laptop_synced first_sync.2).2 = files first_sync.2.
Proof.
  apply (no_changes_reads_only laptop_synced first_sync.2
    (execute laptop_synced first_sync.2).1.2).
  etransitivity; [apply pair3|].
  replace (execute laptop_synced first_sync.2).1.1 with PipelineResult.NoChanges; [reflexivity|].
  vm_compute. reflexivity.
Defined.

(** ** The store *)

(** Another device that pushes between the two steps. *)
Definition in_between : io World () := λ w,
  ((), (upload_metadata storage (published <| cm_metadata_version := 9%Z |>) w).2).

Lemma push_metadata_cas_witness :
  let run := push_around in_between storage published (cm_metadata_version published)
               first_sync.2 in
  cm_metadata_version <$> stored_metadata (files (in_between first_sync.2).2) = Some 9%Z ∧
  ∃ json, to_json published = Ok json ∧ files run.2 !! METADATA_FILENAME = Some json.
Proof.
  intros run. split; [vm_compute; reflexivity|].
  destruct (push_metadata_cas in_between storage published (cm_metadata_version published))
    as [_ Hpush].
  destruct (Hpush first_sync.2 run.1 run.2 (pair2 _)) as [[Hf _]|(_ & _ & _ & _ & _ & Hr & _)].
  - exfalso. revert Hf. vm_compute. discriminate.
  - apply Hr. vm_compute. reflexivity.
Defined.

Lemma upload_record_atomic_witness :
  let run := upload_record storage sample_uuid laptop_record empty_world in
  (∃ json, to_json laptop_record = Ok json ∧
     files run.2 !! record_path sample_uuid = Some json) ∧
  files run.2 !! METADATA_FILENAME = None.
Proof.
  intros run.
  destruct (upload_record_atomic storage sample_uuid laptop_record empty_world run.1 run.2)
    as (_ & Hok & Ho); [apply pair2|].
  split; [apply Hok; vm_compute; reflexivity|].
  rewrite Ho; [reflexivity|apply metadata_not_temp|discriminate].
Defined.

Lemma upload_download_roundtrip_witness :
  let w := (upload_record storage sample_uuid laptop_record empty_world).2 in
  (download_record storage sample_uuid w).1 = Ok (Some laptop_record).
Proof.
  intros w.
  destruct (upload_download_roundtrip storage sample_uuid laptop_record empty_world () w
    (download_record storage sample_uuid w).1 (download_record storage sample_uuid w).2)
    as [Hr|[e He]].
  - apply pair2_ok. vm_compute. reflexivity.
  - apply pair2.
  - exact Hr.
  - exfalso. apply (f_equal is_ok) in He. revert He. vm_compute. discriminate.
Defined.

Lemma batch_download_complete_witness :
  let run := batch_download_records (@rev string) (λ id, bool_decide (id = other_uuid)) "panicked"
    storage [other_uuid; sample_uuid; "missing"] first_sync.2 in
  run.1.*1 = [other_uuid; sample_uuid; "missing"] ∧ files run.2 = files first_sync.2.
Proof.
  intros run.
  destruct (batch_download_complete (@rev string) (λ id, bool_decide (id = other_uuid)) "panicked"
    storage [other_uuid; sample_uuid; "missing"] first_sync.2 run.1 run.2) as (Hids & _ & Hf);
    [apply pair2|]. split; [exact Hids|exact Hf].
Defined.

(** ** The lock *)

Definition lock_a : SyncLock := SyncLock.new storage "laptop".
Definition lock_b : SyncLock := SyncLock.new storage "phone".
Definition locked := SyncLock.acquire 1 lock_a empty_world.
Definition contended := SyncLock.acquire 40 lock_b locked.2.

Lemma lock_mutual_exclusion_witness :
  contended.1 ≠ Some (Ok ()) ∧ files contended.2 = files locked.2.
Proof.
  apply (lock_mutual_exclusion lock_a lock_b 1 40 empty_world locked.2 contended.1 contended.2).
  - apply pair2_ok. vm_compute. reflexivity.
  - unfold contended. apply pair2.
  - discriminate.
  - vm_compute. intuition congruence.
  - vm_compute. discriminate.
  - vm_compute. reflexivity.
Defined.

(** A second of rounds, even if each were as short as one request. *)
Definition hasty : SyncLock :=
  SyncLock.with_timeouts lock_b (seconds 300) (seconds 1) (seconds 5).

Lemma acquire_terminates_witness :
  ∃ r w, SyncLock.acquire (S 1000) hasty locked.2 = (Some r, w).
Proof. apply (acquire_terminates hasty 1000 locked.2). vm_compute. discriminate. Defined.

Lemma release_own_lock_witness :
  files (SyncLock.release lock_b locked.2).2 = files locked.2 ∧
  ¬ owns lock_a (files (SyncLock.release lock_a locked.2).2).
Proof.
  split.
  - destruct (release_own_lock lock_b locked.2 (SyncLock.release lock_b locked.2).1
      (SyncLock.release lock_b locked.2).2) as (_ & Hother & _); [apply pair2|].
    apply (Hother "laptop" (start_time + sl_lock_ttl lock_a + request_time)%Z); [|discriminate].
    eexists _, (SyncLock.create_lock_data lock_a
      (empty_world <| w_clock ::= λ t, (t + request_time)%Z |>)).1.
    split_and!; [vm_compute; reflexivity|vm_compute; reflexivity|reflexivity|by_decide].
  - destruct (release_own_lock lock_a locked.2 (SyncLock.release lock_a locked.2).1
      (SyncLock.release lock_a locked.2).2) as (Hok & _); [apply pair2|].
    apply Hok. vm_compute. reflexivity.
Defined.

(** ** The task *)

Import SyncTask.

Definition task : SyncTask := SyncTask.new storage (SyncStateMachine.new 5).

(** The commands and ticks of a session. *)
Definition session : list input :=
  [Command (SyncCommand.TriggerSync None); Timer; Command SyncCommand.Pause;
   Command SyncCommand.PullOnly; Command SyncCommand.Resume; Command SyncCommand.PullOnly].

Definition offline_world : World := empty_world <| w_offline := true |>.

Lemma task_states_witness :
  current_state (run session task offline_world).1 = SyncState.Error ∧
  tk_panicked (run session task offline_world).1 = false.
Proof.
  split; [vm_compute; reflexivity|].
  apply (task_states storage 5 session offline_world (run session task offline_world).1
    (run session task offline_world).2). apply pair2.
Defined.

(** A task in the middle of a cycle, with its back-off where the retries are used up. *)
Definition running_task (attempt : Z) : SyncTask :=
  task <| tk_state_machine := mkSyncStateMachine SyncState.Pulling attempt 5 None |>
       <| tk_backoff_timer := mkBackoffTimer RetryPolicy.default attempt |>.

Lemma running_task_running n : running (running_task n).
Proof. by split. Qed.

Definition timeout : SyncError.t := SyncError.NetworkTimeout "offline".

Lemma handle_error_outcome_witness :
  current_state (handle_error timeout (running_task 2) empty_world).1 = SyncState.Error ∧
  dead (handle_error timeout (running_task 5) empty_world).1.
Proof.
  split.
  - apply (handle_error_outcome timeout (running_task 2) empty_world
      (handle_error timeout (running_task 2) empty_world).1
      (handle_error timeout (running_task 2) empty_world).2);
      [apply running_task_running|apply pair2].
  - apply (handle_error_outcome timeout (running_task 5) empty_world
      (handle_error timeout (running_task 5) empty_world).1
      (handle_error timeout (running_task 5) empty_world).2);
      [apply running_task_running|apply pair2].
Defined.

(** Six timeouts in a row, a retry after each of the first five: the task is dead, and the
    network coming back does not revive it. *)
Definition wait (w : World) : World := w <| w_clock ::= λ t, (t + MAX_BACKOFF)%Z |>.

Definition retry_later (p : SyncTask * World) : SyncTask * World :=
  SyncTask.run [Timer] p.1 (wait p.2).

Definition six_failures : SyncTask * World :=
  Nat.iter 5 retry_later
    (SyncTask.run [Command (SyncCommand.TriggerSync None)] task offline_world).

Definition back_online : World := six_failures.2 <| w_offline := false |>.

Lemma dead_task_stays_dead_witness :
  current_state six_failures.1 = SyncState.Pulling ∧
  dead (run session six_failures.1 back_online).1.
Proof.
  split; [vm_compute; reflexivity|].
  apply (dead_task_stays_dead session six_failures.1 back_online
    (run session six_failures.1 back_online).1 (run session six_failures.1 back_online).2).
  - split; [|left]; vm_compute; reflexivity.
  - unfold session. rewrite !not_elem_of_cons. repeat split; try discriminate.
    apply not_elem_of_nil.
  - apply pair2.
Defined.

(** A task in the error state with a retry that is due, then paused. *)
Definition paused_task : SyncTask :=
  task <| tk_state_machine := mkSyncStateMachine SyncState.Error 1 5 None |>
       <| tk_next_retry := Some start_time |> <| tk_paused := true |>.

Lemma pause_ignored_by_retry_witness :
  current_state paused_task = SyncState.Error ∧
  SyncEvent.StateChanged SyncState.Error SyncState.Pulling ∈
    tk_events (handle_timer paused_task offline_world).1.
Proof.
  split; [reflexivity|].
  destruct (pause_ignored_by_retry paused_task offline_world eq_refl) as (_ & _ & Hretry).
  rewrite (Hretry start_time start_time offline_world);
    [|reflexivity|reflexivity|reflexivity|reflexivity|lia].
  apply (list_elem_of_lookup_2 _ 0). vm_compute. reflexivity.
Defined.

(** The laptop's cycle. *)
Definition laptop_task : SyncTask :=
  (running_task 1) <| tk_vault_data := Some (mkSyncVaultData
    [mkLocalRecordInfo sample_uuid SyncStatus.Pending 2] [laptop_record] 0 None token) |>.

Definition laptop_cycle := run_cycle laptop_task empty_world.

Lemma cycle_reports_once_witness :
  current_state laptop_cycle.1 = SyncState.Idle ∧
  bt_attempt (tk_backoff_timer laptop_cycle.1) = 0%Z.
Proof.
  destruct (cycle_reports_once laptop_task empty_world laptop_cycle.1 laptop_cycle.2)
    as [(r & hs & hd & dl & up & cd & fm & _ & Hs & Hb & _)|Hs].
  - by split.
  - unfold laptop_cycle. apply pair2.
  - split; [exact Hs|exact Hb].
  - destruct Hs. vm_compute. reflexivity.
Defined.

Lemma shutdown_stops_witness :
  current_state (run [Command SyncCommand.Shutdown; Timer] paused_task empty_world).1
    = SyncState.ShuttingDown.
Proof.
  apply (shutdown_stops [Timer] paused_task empty_world
    (run [Command SyncCommand.Shutdown; Timer] paused_task empty_world).1
    (run [Command SyncCommand.Shutdown; Timer] paused_task empty_world).2).
  apply pair2.
Defined.

(** The phone's conflict: its pending version 1 against the laptop's version 2. *)
Definition conflict_data : bytes :=
  match ConflictManager.store_conflict laptop_record "secret" with Ok d => d | Err _ => "" end.

Definition conflicted_task (data : bytes) : SyncTask :=
  task <| tk_pending_conflicts := [mkConflictItem sample_id data 2] |>
       <| tk_vault_data := Some (mkSyncVaultData [] [sample_record sample_uuid 1 "mine"] 1 None
            token) |>.

Lemma resolve_conflict_outcome_witness :
  let kept := handle_resolve_conflict sample_uuid ResolutionStrategy.KeepLocal
    (conflicted_task conflict_data) empty_world in
  tk_pending_conflicts kept.1 = [] ∧
  ∃ json, to_json (sample_record sample_uuid 3 "mine") = Ok json ∧
    files kept.2 !! record_path sample_uuid = Some json.
Proof.
  intros kept. split; [vm_compute; reflexivity|].
  destruct (resolve_conflict_outcome sample_uuid ResolutionStrategy.KeepLocal
    (conflicted_task conflict_data) empty_world kept.1 kept.2) as (e & He & Hspec);
    [apply pair2|].
  assert (e = SyncEvent.ConflictResolved sample_uuid) as ->.
  { apply (f_equal head) in He. vm_compute in He. vm_compute. congruence. }
  destruct Hspec as (_ & u & item & _ & Hin & _ & _ & Hkeep).
  apply list_elem_of_singleton in Hin as ->. 
  apply (Hkeep eq_refl (sample_record sample_uuid 1 "mine")). vm_compute. reflexivity.
Defined.

Lemma resolve_all_accounts_witness :
  let kept := handle_resolve_all ResolutionStrategy.KeepRemote (conflicted_task "damaged")
    empty_world in
  mkConflictItem sample_id "damaged" 2 ∈ tk_pending_conflicts kept.1.
Proof.
  intros kept.
  destruct (resolve_all_accounts ResolutionStrategy.KeepRemote (conflicted_task "damaged")
    empty_world kept.1 kept.2) as (n & _ & _ & _ & Hstay); [apply pair2|].
  apply (Hstay eq_refl); [by apply list_elem_of_singleton|]. vm_compute. reflexivity.
Defined.

(** ** Conflicts, records and metadata *)

Lemma stored_conflict_resolves_witness :
  is_ok (ConflictManager.resolve_keep_remote conflict_data) = true.
Proof.
  destruct (to_json (cr_aad laptop_record)) as [aad|] eqn:Ha; [|discriminate].
  rewrite (stored_conflict_resolves laptop_record "secret" conflict_data aad);
    [reflexivity|vm_compute; reflexivity|exact Ha].
Defined.

Lemma keep_remote_checked_witness :
  CloudRecord.validate laptop_record = Ok ().
Proof.
  destruct (ConflictManager.resolve_keep_remote conflict_data) as [kr|e] eqn:E.
  - assert (kr_cloud_record kr = laptop_record) as <-.
    { apply (f_equal (λ r, kr_cloud_record <$> ok r)) in E. cbn in E.
      assert (kr_cloud_record <$> ok (ConflictManager.resolve_keep_remote conflict_data)
        = Some laptop_record) as E' by by_decide. congruence. }
    apply (keep_remote_checked conflict_data kr E).
  - exfalso. apply (f_equal is_ok) in E. revert E. vm_compute. discriminate.
Defined.

Lemma validate_iff_valid_witness : valid_record laptop_record.
Proof. apply (validate_iff_valid laptop_record). vm_compute. reflexivity. Defined.

Definition stored_record : StoredRecord :=
  mkStoredRecord sample_id CredentialType.Login "cipher" sample_nonce 1 "aad" false None
    start_time start_time "laptop" 1 false None [].

Lemma built_record_valid_witness :
  CloudRecord.validate
    (CloudRecord.build_cloud_record stored_record "mail" "cipher" (base64_encode sample_nonce)
       (mkAadFields (uuid_to_string (st_id stored_record)) (st_dek_version stored_record)) None)
    = Ok ().
Proof.
  apply (built_record_valid stored_record "mail" "cipher" sample_nonce None);
    try discriminate; try reflexivity; vm_compute; intuition congruence.
Defined.

Definition sample_health : RecordHealthState :=
  mkRecordHealthState sample_id 1 (Some start_time) (Some true) (Some 3%Z) (Some false) None.

Lemma health_state_roundtrip_witness :
  RecordHealthMetadata.to_state (RecordHealthMetadata.from_state sample_health) sample_id 1
    = sample_health.
Proof.
  apply (health_state_roundtrip sample_health).
  - intros t [= <-]. vm_compute. intuition congruence.
  - intros n [= <-]. vm_compute. intuition congruence.
Defined.

Lemma metadata_operations_valid_witness :
  valid_metadata (CloudMetadata.new token empty_world).1 ∧
  cm_metadata_version (CloudMetadata.increment_version published empty_world).1 = 3%Z.
Proof.
  split.
  - destruct (metadata_operations_valid token published
      (mkDeviceInfo "d" "linux" "laptop" "" 0) sample_uuid published_info empty_world
      (CloudMetadata.new token empty_world).2 (CloudMetadata.new token empty_world).1)
      as [Hnew _].
    apply Hnew; [discriminate|vm_compute; intuition congruence|apply pair2].
  - destruct (metadata_operations_valid token published (mkDeviceInfo "d" "linux" "laptop" "" 0)
      sample_uuid published_info empty_world
      (CloudMetadata.increment_version published empty_world).2
      (CloudMetadata.increment_version published empty_world).1) as [_ Hops].
    destruct Hops as (_ & _ & _ & Hinc).
    + apply metadata_validate_valid. vm_compute. reflexivity.
    + by_decide.
    + destruct Hinc as (_ & _ & Hv & _); [vm_compute; intuition congruence
        |vm_compute; reflexivity|apply pair2|].
      rewrite Hv. vm_compute. reflexivity.
Defined.

(** ** Checkpoints and back-off *)

Definition checkpoint : SyncCheckpoint :=
  SyncCheckpoint.record_push_done sample_id (SyncCheckpoint.new "/vault").

Definition saved := SyncCheckpoint.save checkpoint empty_world.

Lemma checkpoint_save_atomic_witness :
  ∃ json, to_json checkpoint = Ok json ∧
    fs_files saved.2 !! SyncCheckpoint.checkpoint_path "/vault" = Some json.
Proof.
  destruct (checkpoint_save_atomic checkpoint empty_world saved.1 saved.2) as (_ & Hok & _);
    [unfold saved; apply pair2|].
  destruct Hok as (json & Hj & Hf & _); [vm_compute; reflexivity|]. exists json. by split.
Defined.

Lemma checkpoint_save_load_witness :
  (SyncCheckpoint.load "/vault" saved.2).1 = Ok checkpoint.
Proof.
  destruct (checkpoint_save_load checkpoint empty_world saved.2
    (SyncCheckpoint.load "/vault" saved.2).1 (SyncCheckpoint.load "/vault" saved.2).2)
    as [Hr|[e He]].
  - unfold saved. apply pair2_ok. vm_compute. reflexivity.
  - apply pair2.
  - exact Hr.
  - exfalso. apply (f_equal is_ok) in He. revert He. vm_compute. discriminate.
Defined.

Lemma default_delay_witness :
  ∃ d, (RetryPolicy.delay_for_attempt RetryPolicy.default 3 empty_world).1 = Some d ∧
    (seconds 32 ≤ d ≤ seconds 48)%Z.
Proof.
  destruct (default_delay 3 empty_world
    (RetryPolicy.delay_for_attempt RetryPolicy.default 3 empty_world).1
    (RetryPolicy.delay_for_attempt RetryPolicy.default 3 empty_world).2) as (d & Hd & Hr);
    [lia|apply pair2|].
  exists d. split; [exact Hd|exact Hr].
Defined.

Lemma backoff_timer_counts_witness :
  let t := BackoffTimer.new RetryPolicy.default in
  ∃ d t', (BackoffTimer.next_delay t empty_world).1 = Some (d, t') ∧
    bt_attempt t' = 1%Z ∧ (d ≤ seconds 300)%Z.
Proof.
  intros t. destruct (BackoffTimer.next_delay t empty_world) as [[[d t']|] w] eqn:E.
  - exists d, t'. destruct (backoff_timer_counts t empty_world d t' w) as (Hd & _ & Ha & _);
      [vm_compute; discriminate|exact E|].
    split; [reflexivity|]. split; [exact Ha|apply Hd].
  - exfalso. apply (f_equal fst) in E. revert E. vm_compute. discriminate.
Defined.
