(* ===== verification/WitnessVault.v ===== *)
(** * The theorems of the vault at concrete inputs

    For each theorem about the key store, the vault and its executor that has hypotheses,
    one run of the model on the device of [DemoVault] in which the hypotheses hold. *)

From S2P Require Import Prelude Text Errors Env Types CloudRecord CloudMetadata Storage.
From S2P Require Import Conflict Checkpoint Pipeline SyncTask Crypto Keystore Payload Database.
From S2P Require Import Queries Vault Logic Records Tags Integrity Executor Rotation.
From S2P Require Import Listing VaultSync VaultOps Lifecycle CloudTrip ExecSync Demo DemoVault Witness.

(** The value of a result, or else a given one. *)
Definition value_or {A E} (d : A) (r : result A E) : A := match r with Ok a => a | Err _ => d end.

(** ** A vault that was just made *)

Definition secret_key : bytes := pad 32 "secret key".
Definition password : string := "correct horse".

Definition new_vault :=
  KeyStore.initialize "/vault" secret_key password Argon2Params.medium
    MnemonicLanguage.English new_device.

Definition new_keystore : KeyStore :=
  value_or (mkKeyStore None None 1 "" MnemonicLanguage.English) new_vault.1.

Lemma new_vault_ok : new_vault = (Ok new_keystore, new_vault.2).
Proof. apply pair2_ok. vm_compute. reflexivity. Qed.

Lemma initialize_unlock_witness :
  is_ok new_vault.1 = true ∧
  match (KeyStore.unlock "/vault" password new_vault.2).1 with
  | Ok ks => ks_sk ks = Some secret_key
  | Err e => ∃ t, e = Fault.Failed t ∧ system_error (W := Device) "/vault" t
  end.
Proof.
  split; [vm_compute; reflexivity|].
  destruct (initialize_unlock "/vault" secret_key password Argon2Params.medium
    MnemonicLanguage.English new_device new_keystore new_vault.2
    (KeyStore.unlock "/vault" password new_vault.2).1
    (KeyStore.unlock "/vault" password new_vault.2).2) as [(e & -> & He)|(ks & -> & Hs & _)].
  - apply new_vault_ok.
  - repeat split; by_decide.
  - vm_compute. reflexivity.
  - apply pair2.
  - by exists e.
  - rewrite Hs. vm_compute. reflexivity.
Defined.

(** The key file, which opens under the password. *)
Definition key_file : bytes := default "" (fs_files new_vault.2 !! KeyStore.file_path "/vault").

Definition key_data : Json := value_or JNull (from_json key_file).
Definition key_header : bytes * Argon2Params :=
  value_or ("", Argon2Params.low) (KeyStore.read_header key_data).
Definition key_wrapped : bytes * bytes := value_or ("", "") (KeyStore.read_wrapped key_data).
Definition key_password : bytes :=
  value_or "" (derive_key_with_params password key_header.1 key_header.2).

Lemma key_file_opens : opens key_file password secret_key "en".
Proof.
  exists key_data, key_header.1, key_header.2, key_password, key_wrapped.1, key_wrapped.2.
  split_and!; vm_compute; reflexivity.
Qed.

Lemma change_cmk_safe_witness :
  let run := KeyStore.change_cmk "/vault" password "battery staple" new_vault.2 in
  run.1 = Ok () ∧
  ((fs_files run.2 !! KeyStore.file_path "/vault" = Some key_file ∧ run.1 ≠ Ok ()) ∨
   ∃ content, fs_files run.2 !! KeyStore.file_path "/vault" = Some content ∧
     opens content "battery staple" secret_key "en").
Proof.
  split; [vm_compute; reflexivity|].
  eapply (change_cmk_safe "/vault" password "battery staple" new_vault.2).
  - apply pair2.
  - vm_compute. reflexivity.
  - apply key_file_opens.
Defined.

(** ** A record *)

Definition manager : CryptoManager := mkCryptoManager (Some new_keystore) 1.
Definition vault : VaultServiceImpl := mkVaultServiceImpl manager "laptop".
Definition login : EncryptedPayload.t :=
  EncryptedPayload.Login "mail" "ann" "pw1" (Some "https://mail.example") None.

Definition sealed := encrypt_payload manager login "record:1" new_device.
Definition sealed_text : bytes * bytes := value_or ("", "") sealed.1.

Lemma payload_roundtrip_witness :
  is_ok sealed.1 = true ∧
  yields (W := Device)
    (decrypt_payload manager sealed_text.1 sealed_text.2 "record:1" CredentialType.Login 1
       new_device).1 login.
Proof.
  split; [vm_compute; reflexivity|].
  apply (payload_roundtrip manager login "record:1" new_device sealed_text.1 sealed_text.2
    sealed.2 new_device).
  apply pair2_ok. vm_compute. reflexivity.
Defined.

Definition creation : CreateRecordParams :=
  mkCreateRecordParams CredentialType.Login login ["work"] true (Some start_time).

Definition created := Records.create_record vault creation new_device.
Definition created_id : Uuid := value_or 0%N created.1.

Lemma created_ok : created = (Ok created_id, created.2).
Proof. apply pair2_ok. vm_compute. reflexivity. Qed.

Lemma new_device_wf : vault_wf (tables new_device).
Proof.
  split; [apply no_tables_wf|]. intros id. apply Nat.leb_le. vm_compute. reflexivity.
Qed.

Lemma created_wf : vault_wf (tables created.2).
Proof.
  apply (run_op_sound vault (VaultOp.CreateRecord creation) new_device (Ok ())).
  - vm_compute. reflexivity.
  - apply new_device_wf.
Qed.

Definition no_row : RecordRow := mkRecordRow "" "" "" "" 0 None 0 None 0 0 "" 0 0 None.
Definition created_text : string := uuid_to_string created_id.
Definition created_row : RecordRow := default no_row (records created.2 !! created_text).

Lemma created_records : records created.2 = {[ created_text := created_row ]}.
Proof. vm_compute. reflexivity. Qed.

Lemma created_rows : map_Forall row_wf (records created.2).
Proof.
  rewrite created_records. apply map_Forall_singleton. split_and!; try by_decide.
  exists created_id. split; by_decide.
Qed.

Lemma current_u32 : is_u32 (cm_current manager).
Proof. by_decide. Qed.

(** ** Rotation *)

Definition rotated := rotate manager RotationState.Idle RotationTrigger.Manual 1 created.2.
Definition no_rotation : RotationResult := mkRotationResult 0 0 0 0 RotationTrigger.Manual.

Lemma rotation_keeps_records_witness :
  size (records created.2) = 1 ∧ records_kept manager (records created.2) (records rotated.2).
Proof.
  split; [vm_compute; reflexivity|].
  exact (proj1 (rotation_keeps_records manager RotationState.Idle RotationTrigger.Manual 1
    created.2 current_u32 created_rows)).
Defined.

Lemma rotation_stays_on_old_key_witness :
  let res := value_or no_rotation rotated.1.1 in
  rr_new_dek_version res = 2%Z ∧ rr_old_dek_version res = 1%Z ∧
  map_Forall (λ _ row, row_dek_version row = 1%Z) (records rotated.2).
Proof.
  destruct (rotation_stays_on_old_key manager RotationState.Idle RotationTrigger.Manual 1
    created.2 (value_or no_rotation rotated.1.1) rotated.1.2 rotated.2) as (Hn & _ & Hr).
  - vm_compute. reflexivity.
  - apply current_u32.
  - apply created_rows.
  - by_decide.
  - split; [exact Hn|]. split; [vm_compute; reflexivity|]. exact Hr.
Defined.

(** The record with a text that the key does not open. *)
Definition damaged : Device :=
  created.2 <| d_tables ::= λ t, t <| t_records := {[ created_text :=
    created_row <| row_encrypted_data := "x" |> <| row_dek_version := 0%Z |> ]} |> |>.

Definition interrupted := rotate manager RotationState.Idle RotationTrigger.Manual 1 damaged.

Lemma interrupted_rotation_resumable_witness :
  (∃ reason, interrupted.1.1 = Err (RotationError.RecordMigrationFailed created_text reason)) ∧
  ∃ c, interrupted.1.2 = RotationState.Rotating c ∧ rc_new_dek_version c = 2%Z ∧
    ∃ c', checkpoint_stored c' interrupted.2 ∧ same_rotation c c'.
Proof.
  assert (∃ reason, interrupted.1.1 = Err (RotationError.RecordMigrationFailed created_text reason))
    as [reason E] by (eexists; vm_compute; reflexivity).
  split; [by exists reason|].
  destruct (interrupted_rotation_resumable manager RotationState.Idle RotationTrigger.Manual 1
    damaged created_text reason interrupted.1.2 interrupted.2)
    as (c & c' & Hs & Hc & Hsame & _ & _ & Hn).
  - unfold interrupted in *. rewrite <- E. apply pair3.
  - eauto 10.
Defined.

Definition executor : CommandExecutor :=
  mkCommandExecutor false (VaultRuntime.Open vault) true true "" None None None.

Definition protocol := execute_rotation_protocol executor "rotation" "error.rotation_failed"
  (λ m version, with_service (λ s, trigger_rotation m s version)) created.2.

Lemma rotation_resumes_sync_witness :
  (∃ e, ss_pause created.2 = (Err e, protocol.2) ∧
     ∃ text, protocol.1 = service_error e "error.sync_pause_failed" text) ∨
  (∃ w0, protocol.2 = (ss_resume w0).2).
Proof.
  eapply (rotation_resumes_sync executor "rotation" "error.rotation_failed"
    (λ m version, with_service (λ s, trigger_rotation m s version)) created.2).
  - reflexivity.
  - reflexivity.
  - apply pair2.
Defined.

(** ** The life of a record *)

Definition operations : list (VaultServiceImpl * VaultOp.t) :=
  [(vault, VaultOp.CreateRecord creation); (vault, VaultOp.SoftDeleteRecord 1);
   (vault, VaultOp.ToggleFavorite 7 true); (vault, VaultOp.RestoreRecord 1);
   (vault, VaultOp.ListRecordsPage RecordFilter.All (mkRecordSort SortField.Name SortDirection.Asc) 10 0);
   (vault, VaultOp.RenameTag "work" "office"); (vault, VaultOp.HardDeleteRecord 1)].

Lemma vault_invariant_witness : vault_wf (tables (run_ops operations new_device).2).
Proof.
  apply (vault_invariant operations new_device); [apply new_device_wf|].
  by destruct (run_ops operations new_device) as [[] w].
Defined.

Definition read := Records.get_decrypted_record vault created_id created.2.

Lemma create_then_read_witness :
  match read.1 with
  | Err e => vault_env (W := Device) e
  | Ok d => dr_payload d = login ∧ dr_version d = 1%Z ∧ "work" ∈ dr_tags d
  end.
Proof.
  pose proof (create_then_read vault creation new_device created_id created.2 created.2 read.1
    read.2) as Hc.
  destruct read.1 as [d|e] eqn:E.
  - destruct Hc as (_ & Hp & _ & _ & Hv & _ & _ & Ht).
    + apply new_device_wf.
    + apply current_u32.
    + reflexivity.
    + intros t [= <-]. split; by_decide.
    + apply created_ok.
    + reflexivity.
    + unfold read in *. rewrite <- E. apply pair2.
    + split; [exact Hp|]. split; [exact Hv|]. apply Ht. by_decide.
  - apply Hc.
    + apply new_device_wf.
    + apply current_u32.
    + reflexivity.
    + intros t [= <-]. split; by_decide.
    + apply created_ok.
    + reflexivity.
    + unfold read in *. rewrite <- E. apply pair2.
Defined.

Definition change : UpdateRecordParams :=
  mkUpdateRecordParams created_id (EncryptedPayload.Login "mail" "ann" "pw2" None None) [] false
    None 1.

Definition updated := Records.update_record vault change created.2.

Lemma update_all_or_nothing_witness :
  (records updated.2 = records created.2 ∧ is_ok updated.1 = false) ∨
  ∃ row row', records created.2 !! created_text = Some row ∧
    records updated.2 = <[created_text := row']> (records created.2) ∧
    row_version row' = 2%Z.
Proof.
  destruct (update_all_or_nothing vault change created.2 updated.1 updated.2)
    as [?|(row & row' & Hl & _ & Hr & Hu)].
  - apply created_rows.
  - apply pair2.
  - by left.
  - right. exists row, row'. split; [exact Hl|]. split; [exact Hr|].
    destruct Hu as (_ & _ & _ & _ & _ & Hv & _).
    exact Hv.
Defined.

Definition trashing := Records.soft_delete_record vault created_id created.2.
Definition restoring := Records.restore_record vault created_id trashing.2.

Lemma trash_then_restore_witness :
  ((records trashing.2 = records created.2 ∧ is_ok trashing.1 = false) ∨
   ∃ t, records trashing.2 = <[created_text := trashed t created_row]> (records created.2)) ∧
  (records restoring.2 = records created.2 ∨
   records restoring.2 = records trashing.2 ∧ is_ok restoring.1 = false).
Proof.
  apply (trash_then_restore vault created_id created.2 created_row trashing.1 trashing.2
    restoring.1 restoring.2).
  - vm_compute. reflexivity.
  - vm_compute. reflexivity.
  - vm_compute. reflexivity.
  - apply pair2.
  - apply pair2.
Defined.

Definition destroying := Records.hard_delete_record vault created_id created.2.

Lemma destroying_ok : destroying = (Ok (), destroying.2).
Proof. apply pair2_ok. vm_compute. reflexivity. Qed.


(** ** The cloud *)

Definition no_record : StoredRecord :=
  mkStoredRecord 0 CredentialType.Login "" "" 0 "" false None 0 0 "" 0 false None [].

Definition stored : StoredRecord :=
  default no_record (value_or None (get_record created_id created.2).1).

Definition sent := VaultSync.build_cloud_record_for_sync vault stored None created.2.
Definition sent_record : CloudRecord := value_or (sample_record "" 0 "") sent.1.

Lemma sent_ok : sent = (Ok sent_record, sent.2).
Proof. apply pair2_ok. vm_compute. reflexivity. Qed.

Lemma stored_sendable : sendable manager stored.
Proof.
  assert (st_expires_at stored = Some start_time ∧ st_deleted_at stored = None) as [He Hd]
    by (split; vm_compute; reflexivity).
  split; rewrite ?He, ?Hd; try by_decide.
  - intros e [= <-]. split; by_decide.
  - intros e [=].
  - vm_compute. reflexivity.
  - intros _. exists login. split; [vm_compute; reflexivity|].
    exists (default "" (dek_of manager 1)),
      (value_or "" (to_json (PayloadPlaintextDto.from_payload login))).
    split_and!; vm_compute; reflexivity.
Qed.

Definition received_by_phone :=
  VaultSync.apply_downloaded_cloud_record (mkVaultServiceImpl manager "phone") sent_record
    new_device.

Lemma cloud_roundtrip_witness :
  match received_by_phone.1 with
  | Err e => vault_env (W := Device) e
  | Ok is_new =>
      is_new = true ∧
      ∃ row, records received_by_phone.2 !! created_text = Some row ∧ received stored None row
  end.
Proof.
  pose proof (cloud_roundtrip vault (mkVaultServiceImpl manager "phone") stored None created.2
    sent_record sent.2 new_device received_by_phone.1 received_by_phone.2) as Hc.
  assert (received_by_phone.1 = Ok true) as E by (vm_compute; reflexivity).
  rewrite E in *. destruct Hc as (Hn & row & Hrow & Hr & _).
  - apply stored_sendable.
  - intros ver. reflexivity.
  - exact sent_ok.
  - exact (proj1 new_device_wf).
  - vm_compute. exact I.
  - apply pair2_ok. exact E.
  - split; [exact Hn|]. exists row. split; [exact Hrow|exact Hr].
Defined.

(** A record whose nonce is too short arrives. *)
Definition bad_record : CloudRecord := sent_record <| cr_nonce := "short" |>.
Definition failing := VaultSync.apply_downloaded_cloud_record vault bad_record created.2.
Definition marking := VaultSync.mark_record_synced created_id failing.2.

Definition failure : VaultError.t :=
  match failing.1 with Err e => e | Ok _ => VaultError.NotUnlocked end.

Lemma failed_download_forgotten_witness :
  ExecSync.apply_downloads vault [bad_record] created.2 = ((), marking.2) ∧
  (sr_sync_status <$> t_sync_state (tables marking.2) !! created_text) =
    Some (SyncStatus.discriminant SyncStatus.Synced).
Proof.
  destruct (failed_download_forgotten vault bad_record created_id created.2 failure failing.2
    marking.2) as (Ha & _ & Hs & _).
  - vm_compute. reflexivity.
  - apply pair2_ok. vm_compute. reflexivity.
  - vm_compute. reflexivity.
  - apply pair2_ok. vm_compute. reflexivity.
  - split; [exact Ha|exact Hs].
Defined.

(** The destroyed record is still in the cloud. *)
Definition remaining_info : RecordVersionInfo := mkRecordVersionInfo 1 "" "" "" None false.
Definition cloud_copy : CloudMetadata :=
  (CloudMetadata.new token new_device).1 <| cm_records := {[ created_text := remaining_info ]} |>.

Definition next_data := ExecSync.vault_data vault destroying.2.
Definition no_data : SyncVaultData := mkSyncVaultData [] [] 0 None "".
Definition next_context : PipelineContext :=
  PipelineContext.set_local_records (vd_local_records (default no_data next_data.1))
    (PipelineContext.new storage (SyncCheckpoint.new "/tmp") 0 token)
  <| pl_remote_metadata := Some cloud_copy |>.

Lemma destroyed_record_returns_witness :
  created_text ∈ pl_to_download (detect next_context).2.
Proof.
  destruct (destroyed_record_returns vault created_id created.2 destroying.2
    (default no_data next_data.1) next_data.2 next_context cloud_copy remaining_info
    (detect next_context).1 (detect next_context).2) as [_ Hd].
  - exact created_rows.
  - exact destroying_ok.
  - apply pair2_ok. vm_compute. reflexivity.
  - reflexivity.
  - split_and!; reflexivity.
  - reflexivity.
  - vm_compute. reflexivity.
  - reflexivity.
  - apply pair2.
  - exact Hd.
Defined.
