(* ===== verification/WitnessImport.v ===== *)
(** * The theorems of passwords, health checks, import and export at concrete inputs

    One run of the model for each of these theorems that has hypotheses, with a constant
    generator and on the device of [DemoVault]; the second half has the interfaces of
    files, of the database library and of backups. *)

From Stdlib Require Import Ascii.
From stdpp Require Import countable.
From S2P Require Import Prelude Text Errors Env Types CloudRecord Storage Checkpoint Pipeline.
From S2P Require Import Crypto Keystore Payload Database Queries Vault Records Integrity Password.
From S2P Require Import Files Formats Backup ImportService Listing Executor Opening ImportExec.
From S2P Require Import Generator Rotation ExecSync Transfer Health HealthExec Demo DemoVault.
From S2P Require Import Witness WitnessVault.

(** ** Generators *)

#[local] Instance draws : Rng () := constant_rng 5.
#[local] Instance draws_laws : RngLaws () := constant_rng_laws 5.

Lemma policy_password_witness :
  ∃ cs, (generate_random_password_with_policy 8 2 1 1 1 ()).1 = Ok (to_text cs) ∧
    length cs = 8 ∧ 2 ≤ Password.among DIGITS cs.
Proof.
  destruct (policy_password 8 2 1 1 1 () (generate_random_password_with_policy 8 2 1 1 1 ()).1
    (generate_random_password_with_policy 8 2 1 1 1 ()).2) as (cs & Hr & Hl & _ & Hd & _).
  - apply pair2.
  - exists cs. split; [exact Hr|]. split; [exact Hl|exact Hd].
Defined.

Definition opened := GeneratorState.from_config default_password_config ().
Definition clicks : list GeneratorOp.t :=
  [GeneratorOp.ToggleCharType 3; GeneratorOp.DecrementLength; GeneratorOp.FocusNext;
   GeneratorOp.SetStyle GenerationStyle.Memorable; GeneratorOp.FocusSectionUp].
Definition used := perform_all clicks opened.1 opened.2.

Lemma dialog_always_offers_witness :
  gs_style used.1 = GenerationStyle.Memorable ∧ dialog_ok used.1.
Proof.
  split; [vm_compute; reflexivity|].
  apply (dialog_always_offers default_password_config clicks () opened.1 opened.2 used.1 used.2).
  - reflexivity.
  - unfold opened. apply pair2.
  - unfold used. apply pair2.
Defined.

(** Letters and digits, twenty of them. *)
Definition plain : GeneratorState :=
  opened.1 <| gs_random_config := mkRandomConfig 20 true true true false |>.
Definition regenerated := GeneratorState.regenerate plain ().

Lemma generator_overrates_witness :
  evaluate_strength (gs_preview regenerated.1) = mkPasswordStrength StrengthLevel.Weak 3 6 ∧
  ∃ shown, gs_strength regenerated.1 = Some shown ∧
    ps_level shown ∈ [StrengthLevel.Strong; StrengthLevel.VeryStrong].
Proof.
  destruct (generator_overrates plain () regenerated.1 regenerated.2) as [He Hs].
  - reflexivity.
  - reflexivity.
  - split; apply Nat.leb_le; reflexivity.
  - unfold regenerated. apply pair2.
  - split; [exact He|]. apply Hs. apply Nat.leb_le. reflexivity.
Defined.

Lemma excluded_types_generated_witness :
  ∃ (R : Rng ()) pw, @RngLaws () R ∧ "!"%char ∈ literal pw ∧
    handle_generate_password 8 true true false () =
      (CommandResult.PasswordGenerated pw (evaluate_strength pw), ()).
Proof.
  apply (excluded_types_generated "!"%char 8 true true false).
  - apply list_elem_of_In. vm_compute. tauto.
  - split; apply Nat.leb_le; reflexivity.
  - reflexivity.
Defined.

(** ** Duplicates *)

Definition reused : list PasswordEntry :=
  [mkPasswordEntry 1 "hunter2"; mkPasswordEntry 2 "swordfish"; mkPasswordEntry 3 "hunter2"].

Lemma duplicate_groups_witness :
  ([1; 3]%N : list Uuid) ∈ detect_duplicate_passwords reused.
Proof.
  apply (duplicate_groups reused [1; 3]%N).
  - intros e1 e2 H1 H2 He.
    repeat (apply elem_of_cons in H1 as [->|H1]); try (by apply elem_of_nil in H1);
      repeat (apply elem_of_cons in H2 as [->|H2]); try (by apply elem_of_nil in H2);
      vm_compute in He |- *; congruence.
  - exists "hunter2". split; [vm_compute; reflexivity|]. apply Nat.leb_le. reflexivity.
Defined.

(** ** A check of the vault of [WitnessVault] *)

#[local] Instance device_health_libs : HealthLibs := {
  sha1 s := s;
  hex_encode_upper s := s;
}.

(** A device without a connection. *)
#[local] Instance device_http : Http Device := λ url w, (Err "no connection", w).
#[local] Instance device_progress : ProgressChannel Device := λ i n w, (true, w).

Definition finding : HealthReport :=
  mkHealthReport [created_id] [[created_id; 7%N]] [created_id] [] 1.

Lemma finding_groups : groups_ok finding.
Proof.
  intros g Hg. apply list_elem_of_singleton in Hg as ->. split; by_decide.
Qed.

Definition persisted_states := HealthExec.persist_health_report executor finding start_time created.2.
Definition deltas : list HealthStateDelta := value_or [] persisted_states.1.

Lemma persisted_states_ok :
  HealthExec.persist_health_report executor finding start_time created.2 =
    (Ok deltas, persisted_states.2).
Proof. apply pair2_ok. vm_compute. reflexivity. Qed.

Definition loaded := ExecSync.load_cached_health_report executor persisted_states.2.
Definition loaded_report : HealthReport := default HealthReport.empty (value_or None loaded.1).

Lemma created_active : active created.2 created_id 1.
Proof.
  split; [by_decide|]. exists created_row. split_and!; vm_compute; reflexivity.
Qed.

Lemma report_survives_restart_witness :
  loaded.1 = Ok (Some loaded_report) ∧ created_id ∈ hp_compromised loaded_report.
Proof.
  assert (ExecSync.load_cached_health_report executor persisted_states.2 =
    (Ok (Some loaded_report), loaded.2)) as E by (apply pair2_ok; vm_compute; reflexivity).
  split; [unfold loaded; rewrite E; reflexivity|].
  apply (proj1 (proj2 (report_survives_restart executor finding start_time created.2 deltas
    persisted_states.2 (Some loaded_report) loaded.2 created_rows finding_groups persisted_states_ok E))).
  split; [apply list_elem_of_singleton; reflexivity|]. exists 1%Z. exact created_active.
Defined.

Definition stored_states := VaultService.db list_record_health_states persisted_states.2.
Definition states : list RecordHealthState := value_or [] stored_states.1.

Lemma states_ok :
  VaultService.db list_record_health_states persisted_states.2 = (Ok states, stored_states.2).
Proof. apply pair2_ok. vm_compute. reflexivity. Qed.

(** The next check, of another password. *)
Definition new_entry : PasswordEntry := mkPasswordEntry created_id "a new and better password".
Definition parted :=
  partition_entries_for_hibp [new_entry] {[ created_id := 1%Z ]}
    (ExecSync.health_map (Ok states)).
Definition next_task : HealthTask := mkHealthTask [] [] [] 1 parted.1 parted.2.
Definition online : HealthServiceImpl := mkHealthServiceImpl true.
Definition next_run := HealthExec.run_task online next_task persisted_states.2.
Definition next_report : HealthReport :=
  match next_run.1 with TaskReported r => r | _ => HealthReport.empty end.

Lemma stale_verdict_sticks_witness :
  next_run.1 = TaskReported next_report ∧ created_id ∈ hp_compromised next_report.
Proof.
  assert (next_run.1 = TaskReported next_report) as E by (vm_compute; reflexivity).
  split; [exact E|].
  destruct (stale_verdict_sticks executor finding start_time created.2 deltas persisted_states.2 states
    stored_states.2 created_id 1 created_rows finding_groups persisted_states_ok states_ok)
    with (entries := [new_entry]) (e := new_entry) (versions := {[ created_id := 1%Z ]} : gmap N Z)
      (skipped := parted.1) (to_check := parted.2) (service := online) (task := next_task)
      (w3 := persisted_states.2) (r := next_report) (w4 := next_run.2) as [Hin _].
  - apply list_elem_of_singleton. reflexivity.
  - exact created_active.
  - apply list_elem_of_singleton. reflexivity.
  - reflexivity.
  - apply lookup_insert_eq.
  - unfold parted. apply pair2.
  - reflexivity.
  - reflexivity.
  - rewrite <- E. unfold next_run. apply pair2.
  - exact Hin.
Defined.

(** The first check of the record, whose one call fails. *)
Definition first_task : HealthTask :=
  mkHealthTask [created_id] [] [] 1 [] [mkPasswordEntry created_id "pw1"].
Definition first_run := HealthExec.run_task online first_task created.2.
Definition first_report : HealthReport :=
  match first_run.1 with TaskReported r => r | _ => finding end.
Definition first_stored :=
  HealthExec.persist_health_report executor first_report start_time created.2.
Definition first_listed := VaultService.db list_record_health_states first_stored.2.
Definition first_states : list RecordHealthState := value_or [] first_listed.1.
Definition no_state : RecordHealthState := mkRecordHealthState 0 0 None None None None None.
Definition first_state : RecordHealthState := default no_state (head first_states).

Lemma failed_call_stored_clean_witness :
  hs_record_id first_state = created_id ∧ hs_compromised first_state = Some false.
Proof.
  assert (first_run.1 = TaskReported first_report) as E by (vm_compute; reflexivity).
  split; [vm_compute; reflexivity|].
  apply (failed_call_stored_clean online first_task created.2 first_report created.2 executor
    start_time (value_or [] first_stored.1) first_run.2 first_stored.2 first_states
    first_listed.2 first_state).
  - intros url w. exists "no connection", w. reflexivity.
  - rewrite <- E. unfold first_run. apply pair2.
  - exact created_rows.
  - intros g Hg. vm_compute in Hg. apply elem_of_nil in Hg. contradiction.
  - apply pair2_ok. vm_compute. reflexivity.
  - apply pair2_ok. vm_compute. reflexivity.
  - apply list_elem_of_lookup. exists 0%nat. vm_compute. reflexivity.
  - intros Hs. apply elem_of_nil in Hs. contradiction.
Defined.

(** * The theorems of import and export at concrete inputs

    The interfaces of files, of the database library and of backups on the device of
    [DemoVault], and one run for each of the theorems that has hypotheses: a vault of two
    records is written to a backup, read, imported and restored. *)

(** ** Instances *)

#[export] Instance demo_aead_tag : AeadTag.
Proof.
  intros key nonce aad m c. cbn. intros [= <-]. unfold seal_header.
  rewrite !string_length_append.
  change (String.length "|tag-of-16-bytes") with 16. lia.
Qed.

#[export] Instance device_fs_bytes : FsBytes Device := {
  fs_read p w := (match d_disk w !! p with Some b => Ok b | None => Err "no such file" end, w);
  fs_metadata_len p w :=
    (match d_disk w !! p with
     | Some b => Ok (Z.of_nat (String.length b))
     | None => Err "no such file"
     end, w);
  fs_is_dir p w := (false, w);
}.

#[export] Instance device_fs_bytes_laws : FsBytesLaws Device.
Proof. split; cbn; intros; repeat case_match; by simplify_eq/=. Qed.

#[export] Instance OkbRecord_eq_dec : EqDecision OkbRecord.
Proof. solve_decision. Defined.
#[export] Instance OkbRecord_countable : Countable OkbRecord.
Proof.
  refine (inj_countable (λ r,
      [encode (ob_id r); encode (ob_credential_type r); encode (ob_name r);
       encode (ob_username r); encode (ob_password r); encode (ob_url r); encode (ob_notes r);
       encode (ob_tags r); encode (ob_is_favorite r); encode (ob_expires_at r);
       encode (ob_public_key r); encode (ob_private_key r); encode (ob_passphrase r);
       encode (ob_app_id r); encode (ob_secret_key r)])
    (λ l, match l with
          | [p1; p2; p3; p4; p5; p6; p7; p8; p9; p10; p11; p12; p13; p14; p15] =>
              a ← decode p1; b ← decode p2; c ← decode p3; d ← decode p4; e ← decode p5;
              f ← decode p6; g ← decode p7; h ← decode p8; i ← decode p9; j ← decode p10;
              k ← decode p11; l ← decode p12; m ← decode p13; n ← decode p14; o ← decode p15;
              Some (mkOkbRecord a b c d e f g h i j k l m n o)
          | _ => None
          end) _).
  intros []; cbn. by rewrite !decode_encode.
Defined.

#[export] Instance OkbPayload_eq_dec : EqDecision OkbPayload.
Proof. solve_decision. Defined.
#[export] Instance OkbPayload_countable : Countable OkbPayload.
Proof.
  refine (inj_countable (λ p, (op_version p, op_vault_id p, op_exported_at p, op_records p))
    (λ e, let '(a, b, c, d) := e in Some (mkOkbPayload a b c d)) _).
  by intros [].
Defined.

#[export] Instance demo_serde_okb : Serde OkbPayload := serde_of.

(** Both sides write the same text; nothing reads a payload back for another export. *)
#[export] Instance demo_serde_export : Serde ExportPayload := {|
  to_json p := to_json (as_okb_payload p);
  from_json s := Err "not read";
|}.

#[export] Instance demo_okb_json : OkbJson.
Proof. intros p s Hs. by apply serde_of_laws. Qed.

#[export] Instance demo_csv : Csv := {
  csv_row l := Ok (join "," l +:+ newline);
  csv_flush := Ok ();
  csv_records b := [];
}.
#[export] Instance demo_uppercase : Uppercase := λ s, s.
#[export] Instance demo_chrono : Chrono := {
  naive_parse s f := None;
  naive_format f t := "";
  naive_from_timestamp t := Some t;
}.
#[export] Instance demo_regex : Regex := λ p, None.
#[export] Instance demo_migrations : MigrationSql := mi_name.
#[export] Instance device_symlinks : SymlinkMetadata Device := fs_exists.

(** A new database file is an empty database of the current schema. *)
#[export] Instance device_connections : Connections Device () := {
  conn_open p w := (Ok (), w <| d_disk ::= insert p "" |>);
  conn_batch c sql w := (Ok (), w);
  conn_master c w := (Ok 0%Z, w);
  conn_quick_check c w := (Ok "ok", w);
  conn_foreign_key_check c w := (Ok None, w);
  conn_get_version c w := (Err (mkSqlError "no such table: metadata" false), w);
  conn_set_version c v w := (Ok (), w);
  conn_use c w := ((), w <| d_tables := no_tables |>);
  dir_create_all p w := (Ok (), w);
}.

#[export] Instance device_opening_laws : OpeningLaws Device ().
Proof.
  split.
  - intros c w u w'. cbn. intros [= _ <-].
    exact new_device_wf.
  - cbn. intros. by simplify_eq/=.
Qed.

#[export] Instance device_sql_files : SqlFiles Device.
Proof. split; unfold file_at; cbn; intros; repeat case_match; by simplify_eq/=. Qed.

#[export] Instance device_conn_files : ConnFiles Device ().
Proof.
  split; unfold file_at; cbn; intros; simplify_eq/=; try done.
  apply lookup_insert_ne. intros <-. match goal with Hq : ¬ database_file _ |- _ => apply Hq end.
  exists p. set_solver.
Qed.

#[export] Instance device_removal : FsRemoval Device.
Proof. split; cbn; intros; [by eexists|done]. Qed.

(** ** A backup *)

Definition note : EncryptedPayload.t := EncryptedPayload.SecureNote "door" (Some "4711").

Definition exported : list DecryptedRecord :=
  [mkDecryptedRecord 1 true None start_time start_time 1 false None ["work"] login;
   mkDecryptedRecord 2 false (Some start_time) start_time start_time 3 false None [] note].

Definition export_payload : ExportPayload :=
  mkExportPayload "1.0" "/vault" "2026-04-12T12:00:00Z" (decrypted_record_to_export <$> exported).

Definition backup_path : string := "/backup.okb".
Definition written := encrypt_and_write_okb export_payload "12345678" backup_path new_vault.2.
Definition written_size : nat := value_or 0 written.1.
Definition parsed := parse_okb backup_path (Some "12345678") written.2.
Definition parsed_items : list ParsedItem := value_or [] parsed.1.

Lemma written_ok : written = (Ok written_size, written.2).
Proof. apply pair2_ok. vm_compute. reflexivity. Qed.

Lemma parsed_ok : parsed = (Ok parsed_items, parsed.2).
Proof. apply pair2_ok. vm_compute. reflexivity. Qed.

Lemma backup_restores_records_witness :
  item_params <$> parsed_items = restored_params <$> exported.
Proof.
  apply (backup_restores_records exported export_payload "12345678" backup_path new_vault.2
    written_size written.2 written.2 (Ok parsed_items) parsed.2).
  - reflexivity.
  - exact written_ok.
  - reflexivity.
  - exact parsed_ok.
Defined.

(** ** Its import *)

Definition session_of_backup : ImportSession :=
  mkImportSession ImportSource.OpenKeyringBackup backup_path (Some "12345678") None false
    ImportSessionStatus.Created None [] [] start_time.

Definition service : ImportExportService Device ExportScope.t :=
  mkImportExportService {[ 7%N := session_of_backup ]} ∅ (register OkbParser ∅).

Definition validated := ImportExport.validate_import_file 7 (service, written.2).
Definition import_preview : ImportPreview :=
  value_or (mkImportPreview 0 0 0 [] [] []) validated.1.
Definition import_params : ImportParams Device := mkImportParams 7 ∅ true None.
Definition executed := ImportExport.execute_import import_params (validated.2.1, validated.2.2).

Lemma validated_ok : validated = (Ok import_preview, validated.2).
Proof. apply pair2_ok. vm_compute. reflexivity. Qed.

Lemma result_state {A B C} (x : A * (B * C)) : x = (x.1, (x.2.1, x.2.2)).
Proof. by destruct x as [a [b c]]. Qed.

(** The login is taken; the note lacks the user name and the password that the rules of a
    backup ask for. *)
Lemma import_takes_valid_items_witness :
  length parsed_items = 2 ∧
  ∃ res recs, executed.1 = Ok (res, recs) ∧
    ir_imported res + ir_skipped res + ir_validation_failed res = length parsed_items.
Proof.
  split; [vm_compute; reflexivity|].
  destruct (import_takes_valid_items 7 session_of_backup OkbParser parsed_items parsed.2 service
    written.2 import_preview validated.2.1 validated.2.2 ∅ true None validated.2.2
    executed.1 executed.2.1 executed.2.2) as ((res & Hr & _ & _ & _ & _ & _ & Ht) & _).
  - reflexivity.
  - reflexivity.
  - exact parsed_ok.
  - exact (eq_trans validated_ok (f_equal (pair _) (surjective_pairing _))).
  - exact (result_state executed).
  - exact (ex_intro _ res (ex_intro _ _ (conj Hr Ht))).
Defined.

(** ** Its restoration *)

Definition fresh_executor : CommandExecutor :=
  mkCommandExecutor false VaultRuntime.Locked false false "/vault" None None None.

Definition restored_run :=
  ImportExec.handle_restore_database_from_okb (Conn := ()) fresh_executor backup_path "12345678"
    (Some password) written.2.
Definition restored_result : CommandResult.t * CommandExecutor :=
  value_or (CommandResult.Void, fresh_executor) restored_run.1.

Lemma restored_run_ok : restored_run = (Ok restored_result, restored_run.2).
Proof. apply pair2_ok. vm_compute. reflexivity. Qed.

Lemma restore_all_or_nothing_witness :
  restored_result.1 = CommandResult.DatabaseRestored DatabaseRecoverySource.Okb ∧
  ∃ items, committed items restored_result.2 restored_run.2.
Proof.
  assert (restored_result.1 = CommandResult.DatabaseRestored DatabaseRecoverySource.Okb) as Hr
    by (vm_compute; reflexivity).
  split; [exact Hr|].
  destruct (restore_all_or_nothing (Conn := ()) fresh_executor backup_path "12345678"
    (Some password) written.2 restored_result.1 restored_result.2 restored_run.2)
    as [(_ & items & _ & _ & _ & Hc)|[Hn _]].
  - rewrite <- surjective_pairing. exact restored_run_ok.
  - exists items. exact Hc.
  - contradiction (Hn Hr).
Defined.
