(* ===== verification/WitnessCloud.v ===== *)
(** * The theorems about the configuration, the authorization, the clipboard and the
    restoration from the cloud at concrete inputs

    A library of TOML that knows the text of one document, a provider whose settings hold
    secrets, and a browser that is sent back with a code. *)

From stdpp Require Import countable.
From S2P Require Import Prelude Text Errors Env Types CloudRecord CloudMetadata Storage.
From S2P Require Import Checkpoint Pipeline SyncTask Crypto Keystore Payload Database Queries.
From S2P Require Import Vault Records Files Backup ImportService Executor Opening ImportExec.
From S2P Require Import Rotation VaultSync Health Demo Clipboard Config Providers OAuth.
From S2P Require Import ConfigExec CloudRestore SyncActor DemoVault Witness WitnessVault.
From S2P Require Import WitnessImport.

Lemma Toml_eq_dec : ∀ t1 t2 : Toml, Decision (t1 = t2).
Proof.
  refine (fix go t1 t2 := let dec_toml : EqDecision Toml := go in
    match t1, t2 with
    | TString a, TString b => cast_if (decide (a = b))
    | TInteger a, TInteger b => cast_if (decide (a = b))
    | TBoolean a, TBoolean b => cast_if (decide (a = b))
    | TOther a, TOther b => cast_if (decide (a = b))
    | TArray a, TArray b => cast_if (decide (a = b))
    | TTable a, TTable b => cast_if (decide (a = b))
    | _, _ => right _
    end); clear dec_toml go; abstract congruence.
Defined.

#[export] Instance Toml_eq : EqDecision Toml := Toml_eq_dec.

Definition drive : GoogleDriveConfig :=
  mkGoogleDriveConfig "ya29" "1//refresh" default_gdrive_root "" "".

Definition demo_app_config : AppConfig :=
  default_app_config <| ac_sync := mkSyncConfig SyncProvider.GoogleDrive SyncMode.Manual 600
    (Some (ProviderConfig.GoogleDrive drive)) |>.

(** The document that the library knows. *)
Definition demo_document : Toml :=
  @app_ser {| toml_print _ := Err ""; toml_parse _ := Err ""; toml_rejected s := s;
              datetime_ser := demo_print; datetime_de := demo_parse |} demo_app_config.

#[export] Instance demo_toml : TomlLib := {
  toml_print v := if decide (v = demo_document) then Ok "[general] ..." else Err "unknown document";
  toml_parse s := if String.eqb s "[general] ..." then Ok demo_document else Err "unknown text";
  toml_rejected s := "invalid type in " +:+ s;
  datetime_ser := demo_print;
  datetime_de := demo_parse;
}.

#[export] Instance demo_toml_laws : TomlLaws.
Proof.
  split.
  - intros v s. cbn. destruct (decide (v = demo_document)) as [->|]; [|done]. by intros [= <-].
  - exact (rfc3339_roundtrip (LibLaws := demo_lib_laws)).
Qed.

Definition saved := save_config demo_app_config "/config" new_device.
Definition loaded := load_config "/config" saved.2.

Lemma saved_config_loads_witness :
  saved.1 = Ok () ∧
  (loaded.1 = Ok (persisted demo_app_config) ∨ ∃ m, loaded.1 = Err (ConfigError.Io m)).
Proof.
  split; [vm_compute; reflexivity|].
  assert (Hfit : config_fits demo_app_config).
  { split; cbn; unfold u64, u32, rotation_fits; cbn; try lia.
    split_and!; try (intros n E); simplify_eq; unfold u32; lia. }
  assert (Hs : save_config demo_app_config "/config" new_device = (Ok (), saved.2)).
  { vm_compute. reflexivity. }
  exact (proj2 (saved_config_loads demo_app_config "/config" new_device (Ok ()) saved.2 loaded.1
    loaded.2 Hfit Hs (surjective_pairing _))).
Defined.

(** Two accounts of the same provider *)
#[local] Instance quoted : DebugText := λ s,
  String (Ascii.ascii_of_nat 34) (s +:+ String (Ascii.ascii_of_nat 34) "").

Lemma debug_hides_secrets_witness :
  provider_config_debug (ProviderConfig.GoogleDrive drive) =
  provider_config_debug (ProviderConfig.GoogleDrive
    (mkGoogleDriveConfig "ya30" "2//other" default_gdrive_root "" "")).
Proof. apply debug_hides_secrets. reflexivity. Defined.

(** ** An authorization *)

#[export] Instance OAuth2Token_eq_dec : EqDecision OAuth2Token.
Proof. solve_decision. Defined.
#[export] Instance OAuth2Token_countable : Countable OAuth2Token.
Proof.
  refine (inj_countable
    (λ t, (tk_access_token t, tk_refresh_token t, tk_expires_at t, tk_token_type t))
    (λ '(a, r, e, k), Some (mkOAuth2Token a r e k)) _).
  by intros [].
Defined.

#[export] Instance demo_serde_token : Serde OAuth2Token := serde_of.
#[export] Instance demo_token_laws : SerdeLaws OAuth2Token := serde_of_laws.

#[export] Instance demo_opendal : Opendal := {
  operator_new c := Ok ();
  home_dir := Some "/home/user";
  google_client_id := "oak.apps.example";
  google_client_secret := "not so secret";
}.

#[export] Instance demo_url : UrlLib := {
  query_pairs url := Some [("state", "oak-state"); ("code", "4/0AX4")];
  utf8_lossy b := b;
  base64_url b := b;
}.

(** The server grants the tokens to whoever asks. *)
#[export] Instance device_oauth : OAuthWorld Device := {
  open_url url w := (Ok (), w);
  wait_callback w := (Callback.Request "GET /?state=oak-state&code=4%2F0AX4 HTTP/1.1", w);
  respond n w := ((), w);
  post_form url body w :=
    (match to_json (JObject [("access_token", JString "ya29"); ("refresh_token", JString "1//r")]) with
     | Ok s => PostResult.Body s
     | Err e => PostResult.Failed e
     end, w);
  random_bytes_32 w := ("verifier", w);
}.

Definition granted := authorize GoogleDriveProvider (tokens_dir "/config") new_device.
Definition granted_token : OAuth2Token :=
  match granted.1 with Ok t => t | Err _ => mkOAuth2Token "" None None "" end.

(** A configuration as the file gives it, without tokens *)
Definition started :=
  load_oauth2_tokens_into_config (persisted demo_app_config) "/config" granted.2.

Lemma authorization_enables_storage_witness :
  tk_refresh_token granted_token = Some "1//r" ∧
  create_cloud_storage (ac_sync started.1) =
    Ok (mkCloudStorage "google_drive",
        google_drive_operator (mkGoogleDriveConfig "" "1//r" default_gdrive_root "" "")).
Proof.
  split; [vm_compute; reflexivity|].
  assert (Hg : granted = (Ok granted_token, granted.2)).
  { vm_compute. reflexivity. }
  destruct (authorization_enables_storage "/config" (persisted demo_app_config)
    (mkGoogleDriveConfig "" "" default_gdrive_root "" "") new_device granted_token granted.2
    started.1 started.2 Hg (surjective_pairing _) eq_refl eq_refl eq_refl)
    as [[e E]|(g & Eg & Hr)].
  - exfalso. vm_compute in E. discriminate E.
  - assert (Et : tk_refresh_token granted_token = Some "1//r") by (vm_compute; reflexivity).
    rewrite Et in Hr. destruct Hr as [Er Hs].
    assert (Eg' : g = mkGoogleDriveConfig "" "1//r" default_gdrive_root "" "").
    { vm_compute in Eg. injection Eg as <-. reflexivity. }
    rewrite Eg' in Hs. apply Hs; reflexivity.
Defined.

(** * The theorems about the clipboard at concrete inputs

    A clipboard that is a string beside a clock, and the secrets of one session. *)

(** What the clipboard holds, and the monotonic clock. *)
Definition Desk : Type := string * Instant.

#[export] Instance desk_system : System Desk := {
  now w := (w.2, w);
  new_v4 w := (0%N, w);
  sleep d w := ((), (w.1, (w.2 + d)%Z));
  monotonic_now w := (w.2, w);
  random_range lo hi w := (lo, w);
  try_send w := (true, w);
}.

#[export] Instance desk_clipboard : ClipboardBackend Desk := {
  set_text t w := (Ok (), (t, w.2));
  get_text w := (Ok w.1, w);
  is_available w := (true, w);
}.

#[export] Program Instance desk_laws : ClipboardLaws Desk := {
  clip w := w.1;
  paste t w := ((), (t, w.2));
}.
Solve All Obligations with by intros; simplify_eq/=.

Definition desk : Desk := ("a poem", 5%Z).

Definition copied := Clipboard.copy "hunter2" (Clipboard.with_backend 30, desk).

Lemma copied_secret_cleared_witness :
  copied = (Ok 30%Z, copied.2) ∧
  clip copied.2.2 = "hunter2" ∧
  ∃ t, cl_active_timer copied.2.1 = Some t ∧
    clip (Clipboard.timer_wakes t ("hunter2", 40%Z)).2 = "" ∧
    clip (Clipboard.timer_wakes t ("a poem", 40%Z)).2 = "a poem".
Proof.
  destruct (copied_secret_cleared "hunter2" (Clipboard.with_backend 30) desk 30
    copied.2.1 copied.2.2) as (Hc & t & Et & Hw); [reflexivity|reflexivity|].
  split; [reflexivity|]. split; [exact Hc|]. exists t. split; [exact Et|]. split.
  - destruct (Hw ("hunter2", 40%Z) (Clipboard.timer_wakes t ("hunter2", 40%Z)).1
      (Clipboard.timer_wakes t ("hunter2", 40%Z)).2 (surjective_pairing _)) as [H1 _].
    destruct (H1 eq_refl) as [E|[e [E|E]]]; [exact E|discriminate E|discriminate E].
  - destruct (Hw ("a poem", 40%Z) (Clipboard.timer_wakes t ("a poem", 40%Z)).1
      (Clipboard.timer_wakes t ("a poem", 40%Z)).2 (surjective_pairing _)) as [_ H2].
    apply H2. discriminate.
Defined.

(** A session in which another program copies something between two secrets. *)
Definition session : list ClipOp :=
  [Copy "hunter2"; Paste "a poem"; Copy "correct horse"; SetTimeout 60].

Definition after_session := run_ops session (Clipboard.with_backend 30, desk).

Lemma tracked_content_has_timer_witness :
  after_session.1 = Ok () ∧ clip after_session.2.2 = "correct horse" ∧
  guarded after_session.2.1 after_session.2.2.
Proof.
  split; [reflexivity|]. split; [reflexivity|].
  apply (tracked_content_has_timer 30 session desk () after_session.2.1 after_session.2.2).
  - intros text Ht (t & Ht' & Eh). unfold session in *.
    rewrite !elem_of_cons, elem_of_nil in Ht, Ht'. cbn in Eh.
    intuition (simplify_eq).
  - reflexivity.
Defined.

(** * The restoration from the cloud and the settings at concrete inputs

    A laptop uploads a record; its vault is restored on a device that has the key file, and
    whose sync service downloads that record. *)

(** ** The pull *)

Definition pulled := Restore.restore_pull_only storage first_sync.2.
Definition pull_result : SyncResult :=
  value_or (mkSyncResult (mkSyncReport 0 0 0 0 0) [] [] [] [] ∅ None) pulled.1.

Lemma restored_records_verified_witness :
  sy_downloaded_records pull_result = [laptop_record] ∧ files pulled.2 = files first_sync.2 ∧
  ∃ m, sy_remote_metadata pull_result = Some m ∧
    Forall (CloudRestore.verified (files first_sync.2) m) (sy_downloaded_records pull_result).
Proof.
  split; [vm_compute; reflexivity|].
  assert (pulled = (Ok pull_result, pulled.2)) as E by (apply pair2_ok; vm_compute; reflexivity).
  destruct (restored_records_verified storage first_sync.2 pull_result pulled.2 E)
    as (Hf & _ & m & _ & Hm & _ & Hv).
  split; [exact Hf|]. exists m. split; [exact Hm|exact Hv].
Defined.

(** ** The restoration *)

Definition restored_params : CreateRecordParams :=
  mkCreateRecordParams CredentialType.Login login ["work"] true None.

Definition no_keystore : KeyStore := mkKeyStore None None 1 "" MnemonicLanguage.English.

(** The laptop: it opens the same key file, makes a record and builds its upload. *)
Definition opened := KeyStore.unlock "/vault" password new_vault.2.
Definition laptop_vault : VaultServiceImpl :=
  mkVaultServiceImpl (CryptoManager.from_unlocked_keystore (value_or no_keystore opened.1)) "laptop".
Definition made := Records.create_record laptop_vault restored_params opened.2.
Definition made_id : Uuid := value_or 0%N made.1.
Definition made_record : StoredRecord :=
  default no_record (value_or None (get_record made_id made.2).1).
Definition uploaded := VaultSync.build_cloud_record_for_sync laptop_vault made_record None made.2.
Definition uploaded_record : CloudRecord := value_or laptop_record uploaded.1.

(** A service that finds that record and the metadata of [Witness]. *)
#[local] Instance cloud_sync : SyncService Device := {
  ss_sync _ w := (Err (SyncError.NetworkTimeout "no storage"), w);
  ss_resolve_conflict _ _ w := (Ok (), w);
  ss_resolve_all_conflicts _ w := (Ok 0%nat, w);
  ss_pause w := (Ok (), w);
  ss_resume w := (Ok (), w);
  ss_download_metadata w := (Ok (Some published), w);
  ss_push_metadata_atomic m v w := (Ok (), w);
}.

#[local] Instance cloud_pull : CloudPull Device := λ w,
  (Ok (mkSyncResult (mkSyncReport 0 1 0 0 0) [] [] [uploaded_record] [] ∅ (Some published)), w).

#[export] Instance device_slot : SyncSlot Device := λ _ w, ((), w).
#[local] Instance debug_text : DebugText := λ s, s.

Definition recovering : CommandExecutor :=
  mkCommandExecutor false VaultRuntime.Locked false true "/vault" None None None.

Definition recovering_app : App Device :=
  mkApp recovering demo_app_config "/config" [] (Clipboard.with_backend 30) false None.

Definition cloud_run :=
  CloudExec.handle_restore_database_from_cloud (Conn := ()) (Some password)
    (recovering_app, new_vault.2).

Lemma cloud_restore_all_or_nothing_witness :
  cloud_run.1 = Ok restored ∧
  ∃ x1 w1, CloudExec.ensure_cloud_restore_sync_service (recovering_app, new_vault.2)
      = (Ok (), (x1, w1)) ∧
    filled (Conn := ()) (ap_executor x1) (Some password) w1 (ap_executor cloud_run.2.1)
      cloud_run.2.2.
Proof.
  assert (cloud_run.1 = Ok restored) as E by (vm_compute; reflexivity).
  split; [exact E|].
  assert (cloud_run = (Ok restored, (cloud_run.2.1, cloud_run.2.2))) as Hr.
  { rewrite <- E. apply result_state. }
  destruct (cloud_restore_all_or_nothing (Conn := ()) (Some password) recovering_app new_vault.2
    restored cloud_run.2.1 cloud_run.2.2 Hr) as [[_ Hf]|[Hn _]]; [exact Hf|].
  contradiction (Hn eq_refl).
Defined.

(** ** Settings *)

#[export] Instance device_clipboard : ClipboardBackend Device := {
  set_text t w := (Ok (), w);
  get_text w := (Err (ClipboardError.Io "empty"), w);
  is_available w := (true, w);
}.

(** The settings above, before the user switches to manual mode. *)
Definition automatic : AppConfig :=
  demo_app_config <| ac_sync ::= λ s, s <| yc_sync_mode := SyncMode.Auto |> |>.

Definition syncing_app : App Device :=
  mkApp (recovering <| ex_sync := true |>) automatic "/config" [ClipboardConfigAdapter]
    (Clipboard.with_backend 30) false None.

Definition switching := ConfigExec.handle_save_config demo_app_config (syncing_app, new_device).

Lemma manual_mode_keeps_syncing_witness :
  let timers := timers_new automatic true in
  tm_sync_active timers = true ∧ yc_sync_mode (ac_sync (ap_config switching.2.1)) = SyncMode.Manual ∧
  (ConfigExec.settle_timers timers switching.2.1).1 = timers.
Proof.
  intros timers. split; [reflexivity|].
  assert (save_config demo_app_config "/config" new_device = (Ok (), saved.2)) as Hs
    by (vm_compute; reflexivity).
  destruct (manual_mode_keeps_syncing timers syncing_app new_device saved.2 switching.1
    switching.2.1 switching.2.2 eq_refl eq_refl Hs (result_state switching)) as (_ & Hc & Ht & _).
  rewrite Hc, Ht. split; reflexivity.
Defined.

(** Another time for the clipboard, and no synchronization. *)
Definition changed_app : App Device :=
  mkApp recovering default_app_config "/config" [ClipboardConfigAdapter]
    (Clipboard.with_backend 45) false None.
Definition changing := ConfigExec.handle_save_config demo_app_config (changed_app, new_device).

Lemma settings_saved_witness :
  (∃ ws, changing.1 = AppResult.ConfigSaved demo_app_config ws) ∧
  ap_timer_rebuild_pending changing.2.1 = true ∧ ex_sync (ap_executor changing.2.1) = true ∧
  cl_clear_timeout (ap_clipboard changing.2.1) = 30%Z.
Proof.
  assert (∃ ws, changing.1 = AppResult.ConfigSaved demo_app_config ws) as [ws Hr]
    by (eexists; vm_compute; reflexivity).
  split; [by exists ws|].
  pose proof (settings_saved demo_app_config changed_app new_device changing.1 changing.2.1
    changing.2.2 eq_refl (result_state changing)) as H. rewrite Hr in H.
  destruct H as (_ & _ & _ & Hc & Ht & Hs). rewrite Hc, Ht, Hs. vm_compute. repeat split.
Defined.

(** ** The sync service *)

(** The task gets to each request at once, and nothing is cancelled. *)
#[local] Instance prompt_task : Waiting World := λ _ w, ([Turn.Command], w).
#[local] Instance not_cancelled : CancelToken World := λ w, (false, w).

(** The first sync of the laptop, as its executor asks for it. *)
Definition laptop_data : SyncVaultData :=
  mkSyncVaultData [mkLocalRecordInfo sample_uuid SyncStatus.Pending 2] [laptop_record] 0 None token.

Definition service : SyncServiceImpl := SyncServiceImpl.new storage.
Definition asked := SyncServiceImpl.sync_with_cancel (Some laptop_data) (service, empty_world).

Lemma request_answered_witness :
  sy_uploaded_ids (value_or pull_result asked.1) = [sample_uuid] ∧
  agrees (work (Sync (Some laptop_data)) (sv_task service) empty_world).1 asked.1 ∧
  at_rest asked.2.1.
Proof.
  split; [vm_compute; reflexivity|].
  assert (at_rest service) as Hr by (by repeat split).
  destruct (request_answered (Sync (Some laptop_data)) service empty_world [] empty_world
    _ _ Hr eq_refl eq_refl (conj eq_refl eq_refl)
    (surjective_pairing (SyncTask.handle_command (SyncCommand.TriggerSync (Some laptop_data))
       (sv_task service) empty_world)))
    as (reply & s' & E & Ha & Hr' & _).
  change (asked = (reply, (s',
    (SyncTask.handle_command (SyncCommand.TriggerSync (Some laptop_data))
       (sv_task service) empty_world).2))) in E.
  rewrite E. split; [exact Ha|exact Hr'].
Defined.
