(* ===== verification/WitnessExec.v ===== *)
(** * The theorems of the SSH agent, of unlocking and of the dispatch at concrete inputs

    Keys that are their own text, sockets and processes on the device of [DemoVault], and
    one run for each of the theorems that has hypotheses: a vault with an SSH record is
    offered, asked for a signature, and its server comes to its end. *)

From S2P Require Import Prelude Text Errors Env Types CloudRecord CloudMetadata Storage.
From S2P Require Import Checkpoint Pipeline SyncTask Crypto Keystore Payload Database Queries.
From S2P Require Import Vault Records Integrity Password Files Formats Backup Foreign.
From S2P Require Import ImportService Listing Executor Opening ImportExec Generator Rotation.
From S2P Require Import VaultSync ExecSync Health HealthExec AgentKeys Agent Demo Clipboard.
From S2P Require Import RecordExec Config Providers OAuth ConfigExec CloudRestore Recovery.
From S2P Require Import VaultExec Dispatch DemoVault Witness WitnessVault WitnessImport.
From S2P Require Import WitnessCloud.

(** ** Instances *)

#[export] Instance demo_keys : SshKeyLib string string := {
  key_from_openssh s := if String.eqb s "" then Err "no key" else Ok s;
  key_is_encrypted key := false;
  key_decrypt key passphrase := Ok key;
  key_data key := KeypairData.Ed25519 key;
  key_public_openssh key := Ok ("public of " +:+ key);
  public_from_openssh s := if String.eqb s "" then Err "no key" else Ok s;
  public_algorithm s := Ok SshAlgo.Ed25519;
  public_to_bytes s := Ok s;
  biguint_try_from m := Ok (Z.of_nat (String.length m));
  rsa_valid key := true;
  crypto_error := "crypto";
  ed25519_sign seed data := data +:+ "|" +:+ seed;
  rsa_sign d key data := data;
  ecdsa_valid curve scalar := true;
  ecdsa_sign curve scalar data := Some data;
}.

#[export] Instance device_agent : AgentSystem Device := {
  stream_write b w := (Ok (), w);
  listener_bind p w := (Ok (), w <| d_disk ::= insert p "" |>);
  process_id w := (4711%Z, w);
  print_line s w := ((), w);
  lock_file_open p w := (Ok (), w <| d_disk ::= insert p "" |>);
  try_lock_exclusive p w := (Ok true, w);
}.

#[export] Instance device_agent_laws : AgentLaws Device.
Proof.
  split; cbn; intros; repeat case_match; simplify_eq/=; eauto.
Qed.

(** ** A vault with a key *)

Definition ssh_payload : EncryptedPayload.t :=
  EncryptedPayload.Ssh "server" "ssh-ed25519 AAAA" (Some "private") None None.

Definition ssh_created :=
  Records.create_record vault
    (mkCreateRecordParams CredentialType.Ssh ssh_payload [] false None) new_device.

Definition ssh_id : Uuid := value_or 0%N ssh_created.1.
Definition ssh_text : string := uuid_to_string ssh_id.

Lemma ssh_records_eq :
  records ssh_created.2 = {[ ssh_text := default no_row (records ssh_created.2 !! ssh_text) ]}.
Proof. vm_compute. reflexivity. Qed.

Lemma ssh_rows : map_Forall row_wf (records ssh_created.2).
Proof.
  rewrite ssh_records_eq. apply map_Forall_singleton. split_and!; try by_decide.
  exists ssh_id. split; by_decide.
Qed.

Definition everyone : IdentityFilter := mkIdentityFilter [] None.
Definition loaded := load_ssh_identities vault everyone ssh_created.2.
Definition identities : list LoadedIdentity := value_or [] loaded.1.

Lemma identities_ok :
  map li_name identities = ["server"] ∧ map li_public_blob identities = ["ssh-ed25519 AAAA"].
Proof. split; vm_compute; reflexivity. Qed.

Lemma identities_roundtrip_witness :
  read_answer (answer_identities identities)
  = Some ((λ i, (li_public_blob i, li_name i)) <$> identities).
Proof.
  apply (identities_roundtrip identities).
  - by_decide.
  - apply (bool_decide_unpack _). vm_compute. exact I.
Defined.

Definition started := Agent.start vault everyone "/run/agent.sock" ssh_created.2.
Definition no_server : AgentServer := mkAgentServer vault [] ∅ "".
Definition server : AgentServer := value_or no_server started.1.

Lemma offers_allowed_identities_witness :
  as_identities server = identities ∧
  Forall (λ i, ssh_row ssh_created.2 (li_record_id i)) (as_identities server).
Proof.
  split; [vm_compute; reflexivity|].
  destruct (offers_allowed_identities vault everyone "/run/agent.sock" ssh_created.2 server
    started.2) as [Hi _].
  - exact ssh_rows.
  - apply pair2_ok. vm_compute. reflexivity.
  - eapply Forall_impl; [exact Hi|]. intros i [Hr _]. exact Hr.
Defined.

(** ** Requests *)

Definition sign_request : bytes :=
  of_bytes [SSH_AGENTC_SIGN_REQUEST] +:+ write_string "ssh-ed25519 AAAA"
    +:+ write_string "challenge" +:+ be32 0.

Definition reply := Agent.dispatch vault identities (blob_index identities) sign_request loaded.2.

Lemma dispatch_safe_witness :
  reply.1 ≠ Agent.failure ∧
  ((reply.1 = Agent.failure ∧ tables reply.2 = tables loaded.2) ∨
   ((∃ body, sign_request = of_bytes [SSH_AGENTC_REQUEST_IDENTITIES] +:+ body) ∧
      reply.1 = answer_identities identities ∧ reply.2 = loaded.2) ∨
   signed vault identities sign_request loaded.2 reply.1 reply.2).
Proof.
  split; [intros E; vm_compute in E; discriminate E|].
  exact (dispatch_safe vault identities sign_request loaded.2 reply.1 reply.2 (pair2 _)).
Defined.

Definition half_frame : bytes := of_bytes [0%Z; 0%Z; 0%Z; 9%Z] +:+ "half".

Lemma connection_answers_requests_witness :
  Agent.serve_connection server (frames [sign_request; "nonsense"] +:+ half_frame) loaded.2
  = answer_all server [sign_request; "nonsense"] loaded.2.
Proof.
  apply (connection_answers_requests server [sign_request; "nonsense"] half_frame loaded.2).
  - apply (bool_decide_unpack _). vm_compute. exact I.
  - intros request rest E. vm_compute in E. discriminate E.
Defined.

(** ** The end of the server *)

Definition accepted : list Accepted.t :=
  [Accepted.Connection (frames [sign_request]); Accepted.Failed "no more files"].
Definition serving := Agent.serve server accepted loaded.2.

Lemma serve_cleans_up_witness :
  serving.1 = Err (AgentServerError.Accept "no more files") ∧
  fs_files serving.2 !! "/run/agent.sock" = None ∧ fs_files serving.2 !! "/run/agent.pid" = None.
Proof.
  assert (serving.1 = Err (AgentServerError.Accept "no more files")) as E
    by (vm_compute; reflexivity).
  split; [exact E|].
  destruct (serve_cleans_up server accepted loaded.2
    (Err (AgentServerError.Accept "no more files")) serving.2) as [_ Hg].
  - apply pair2_ok. exact E.
  - exact Hg.
Defined.

(** * The theorems about unlocking and the dispatch of commands at concrete inputs

    A crate of mnemonics whose seed is the phrase itself, and one run for each of the
    theorems about making and unlocking a vault. *)

(** ** Instances *)

Definition fixed_words : list string := replicate 24 "abandon".

#[export] Instance demo_bip39 : Bip39 Device string := {
  mnemonic_generate_in l n w := (Ok "abandon", w);
  mnemonic_parse_in l phrase :=
    match l with
    | MnemonicLanguage.English => Ok phrase
    | MnemonicLanguage.ChineseSimplified => Err "unknown word (word 0)"
    end;
  mnemonic_words m := fixed_words;
  mnemonic_to_seed m p := pad 64 (m +:+ p);
  find_word l w := if String.eqb w "abandon" then Some 0 else None;
}.

#[export] Instance demo_bip39_laws : Bip39Laws Device string.
Proof. intros m p. apply pad_length. Qed.

(** A database library that finds every file corrupt. *)
#[local] Instance broken_connections : Connections Device bool := {
  conn_open p w := (Ok true, w <| d_disk ::= insert p "" |>);
  conn_batch c sql w := (Ok (), w);
  conn_master c w := (Ok 0%Z, w);
  conn_quick_check c w := (Ok "malformed", w);
  conn_foreign_key_check c w := (Ok None, w);
  conn_get_version c w := (Err (mkSqlError "no such table: metadata" false), w);
  conn_set_version c v w := (Ok (), w);
  conn_use c w := ((), w);
  dir_create_all p w := (Ok (), w);
}.

#[local] Instance broken_conn_files : ConnFiles Device bool.
Proof.
  split; unfold file_at; cbn; intros; simplify_eq/=; try done.
  apply lookup_insert_ne. intros <-. match goal with Hq : ¬ database_file _ |- _ => apply Hq end.
  exists p. set_solver.
Qed.

(** ** A new vault *)

Definition words : RecoveryWords := mkRecoveryWords fixed_words.

Definition initialized :=
  VaultExec.handle_initialize_vault (Conn := ()) (Mnemonic := string) "en" fresh_executor password
    (Some words) new_device.
Definition initialized_result : CommandResult.t * CommandExecutor :=
  value_or (CommandResult.Void, fresh_executor) initialized.1.

Lemma initialized_ok :
  initialized = (Ok (CommandResult.VaultInitialized, initialized_result.2), initialized.2).
Proof. apply pair2_ok. vm_compute. reflexivity. Qed.

Lemma words_and_password_agree_witness :
  initialized_result.1 = CommandResult.VaultInitialized ∧
  ∃ sk kek, words_key (W := Device) (Mnemonic := string) words sk ∧
    open_with initialized_result.2 sk kek.
Proof.
  split; [vm_compute; reflexivity|].
  destruct (words_and_password_agree (Conn := ()) (Mnemonic := string) "en" fresh_executor password
    words new_device initialized_result.2 initialized.2 initialized_ok)
    as (sk & kek & content & Hw & Ho & _).
  exists sk, kek. split; [exact Hw|exact Ho].
Defined.

(** ** An initialisation that fails *)

Definition failing :=
  VaultExec.initialize_with_key (Conn := bool) fresh_executor secret_key MnemonicLanguage.English
    password new_device.
Definition failing_result : CommandResult.t * CommandExecutor :=
  value_or (CommandResult.Void, fresh_executor) failing.1.

Lemma device_empty : no_vault "/vault" new_device.
Proof.
  intros p w Hp Hw. cbn in *. apply bool_decide_eq_false. rewrite Hw. by intros [? ?].
Qed.

Definition corrupt : CommandResult.t :=
  vault_error ErrorCode.VaultDatabaseIoError "error.db_reopen_failed"
    "Failed to create vault database: database is corrupt: malformed".

Lemma failing_ok : failing = (Ok (corrupt, failing_result.2), failing.2).
Proof. apply pair2_ok. vm_compute. reflexivity. Qed.

Lemma failed_initialization_cleaned_up_witness : nothing_left "/vault" failing.2.
Proof.
  destruct (failed_initialization_cleaned_up (Conn := bool) fresh_executor secret_key
    MnemonicLanguage.English password new_device corrupt failing_result.2 failing.2 device_empty
    failing_ok) as [E|[Hn|[e E]]].
  - discriminate E.
  - exact Hn.
  - discriminate E.
Defined.

(** * The dispatch of commands at concrete inputs

    The laptop of WitnessCloud.v, with its vault open: a command is answered, the vault is
    locked, and what comes then is refused. *)

#[local] Instance plain_text : DebugText := λ s, s.
#[local] Instance plain_hash : HealthLibs := {
  sha1 s := s;
  hex_encode_upper s := s;
}.
#[local] Instance device_rng : Rng Device := {
  next_u32 w := (5%Z, w);
  shuffle l w := (l, w);
}.
#[local] Instance offline : Http Device := λ url w, (Err "no connection", w).
#[local] Instance no_progress : ProgressChannel Device := λ i n w, (true, w).
#[local] Instance nothing_to_pull : CloudPull Device := λ w,
  (Err (SyncError.NetworkTimeout "no storage"), w).
#[local] Instance untested : ConnectionTest Device := {
  test_current w := (None, w);
  test_storage _ w := (None, w);
}.

Definition laptop_executor : CommandExecutor :=
  mkCommandExecutor false (VaultRuntime.Open laptop_vault) true false "/vault" (Some password)
    None None.

Definition session : Session Device :=
  mkSession (mkApp laptop_executor default_app_config "/config" [ClipboardConfigAdapter]
    (Clipboard.with_backend 30) false None) (ImportExport.new ∅) (mkHealthServiceImpl true) false [].

Definition execute_on := Dispatch.execute (W := Device) (Conn := ()) (Mnemonic := string).

(** Locking, and a command after it *)
Definition locking := execute_on Command.LockVault (session, opened.2).

Lemma locked_vault_refuses_witness :
  se_log locking.2.1 = [Output.OperationsCancelled;
    Output.Completed (AppResult.Command CommandResult.VaultLocked)] ∧
  execute_on (Command.DecryptField made_id FieldSelector.Password) locking.2 =
    (Ok (), (refused locking.2.1, locking.2.2)).
Proof.
  split; [vm_compute; reflexivity|].
  assert (locking.1 = Ok ()) as E by (vm_compute; reflexivity).
  pose proof (result_state locking) as Hr. rewrite E in Hr.
  destruct (locked_vault_refuses (Conn := ()) (Mnemonic := string) session opened.2 ()
    locking.2.1 locking.2.2 Hr) as [Hs H].
  destruct (H locking.2.1 (Command.DecryptField made_id FieldSelector.Password) locking.2.2 Hs
    eq_refl) as [Hx _].
  rewrite <- Hx. unfold execute_on. by rewrite <- surjective_pairing.
Defined.

(** A command on the open vault *)
Definition creation : Command.t :=
  Command.CreateRecord CredentialType.Login login ["work"] true None.
Definition creating := execute_on creation (session, opened.2).

Lemma command_answered_once_witness :
  ∃ tasks r, se_log creating.2.1 = tasks ++ [Output.Completed r] ∧ Forall spawned tasks ∧
    r = AppResult.Command (CommandResult.RecordCreated made_id).
Proof.
  assert (creating.1 = Ok ()) as E by (vm_compute; reflexivity).
  pose proof (result_state creating) as Hr. rewrite E in Hr.
  destruct (command_answered_once (Conn := ()) (Mnemonic := string) creation session opened.2 ()
    creating.2.1 creating.2.2 Hr) as (tasks & r & Hl & Ht).
  exists tasks, r. split; [exact Hl|]. split; [exact Ht|].
  assert (last (se_log creating.2.1) =
    Some (Output.Completed (AppResult.Command (CommandResult.RecordCreated made_id)))) as Hlast
    by (vm_compute; reflexivity).
  rewrite Hl, app_assoc, last_snoc in Hlast. by injection Hlast.
Defined.
