(* ===== verification/WitnessUi.v ===== *)
(** * The main screen, the forms and the watcher at concrete inputs

    A list of ten records, a terminal in which it is used, and what a session with them
    shows; a form that is filled in, and one that is saved as it was loaded; the world is
    the list of the commands that the executor got. *)

From S2P Require Import Prelude Text Errors Env Types Payload Queries Vault Records Tags Listing.
From S2P Require Import Conflict SyncTask Health Password Executor Generator Config ConfigExec.
From S2P Require Import Dispatch Watcher ListPanel Sidebar DetailPanel Overlays MainScreen.
From S2P Require Import Formats Backup MainSafety FormState FormScreens FormSafety Demo.
From S2P Require Import DemoVault.

#[local] Instance sent_commands : CommandQueue (list Command.t) := λ c w, (true, w ++ [c]).
#[local] Instance sent_rng : Rng (list Command.t) := {
  next_u32 w := (5%Z, w);
  shuffle l w := (l, w);
}.
#[local] Instance sent_system : System (list Command.t) := {
  now w := (start_time, w);
  new_v4 w := (1%N, w);
  sleep _ w := (tt, w);
  monotonic_now w := (start_time, w);
  random_range lo _ w := (lo, w);
  try_send w := (true, w);
}.
#[local] Instance plain_words : Translations := λ s, s.

Definition entry (n : N) (name : string) : TuiRecord :=
  mkTuiRecord n CredentialType.Login name "" false false None false false None start_time
    start_time false None [] None.

Definition entries : list TuiRecord :=
  imap (λ i name, entry (N.of_nat i) name)
    ["bank"; "mail"; "shop"; "blog"; "news"; "work"; "home"; "club"; "game"; "cloud"].

(** ** The list *)

Definition steps_down : list ListOp.t := repeat ListOp.MoveDown 9.

Lemma selection_stays_visible_witness :
  selected_in_view 8 (run_ops steps_down (ListPanelState.with_records entries)) = Some 7 ∧
  rendered_records 8 (run_ops steps_down (ListPanelState.with_records entries)) !! 7 = Some (entry 9 "cloud").
Proof.
  destruct (selection_stays_visible entries steps_down 8 9) as (row & Hr & Hs & _);
    [lia|vm_compute; reflexivity|].
  assert (row = 7) as -> by (revert Hr; vm_compute; congruence).
  split; [exact Hr|]. rewrite Hs. vm_compute. reflexivity.
Defined.

Definition searching_b : list ListOp.t :=
  [ListOp.UpdateSearchQuery "b"; ListOp.ApplySearchFilter; ListOp.MoveDown].
Definition third : ListPanelState := run_ops [ListOp.MoveDown; ListOp.MoveDown] (ListPanelState.with_records entries).

Lemma escape_restores_list_witness :
  tr_name <$> ls_records (run_ops searching_b (ListPanelState.enter_search third))
    = ["bank"; "blog"; "club"] ∧
  shows_again third
    (ListPanelState.cancel_search_restore
       (run_ops searching_b (ListPanelState.enter_search third))).1.
Proof.
  split; [vm_compute; reflexivity|]. apply (escape_restores_list searching_b third).
  repeat constructor.
Defined.

(** ** The sidebar *)

(** A letter of two bytes, taken back from the middle of the name *)
Definition keys_typed : list EditKey.t :=
  [EditKey.Left; EditKey.Char 233; EditKey.Left; EditKey.Right; EditKey.Backspace].

Lemma rename_box_edits_chars_witness :
  shows [ch "a"] [ch "b"]
    (foldl (λ e k, edit k e) (InlineEditState.new (of_chars [ch "a"; ch "b"])) keys_typed).
Proof.
  apply (rename_box_edits_chars keys_typed _ [ch "a"; ch "b"] []).
  - repeat constructor; vm_compute; intuition congruence.
  - split_and!; [repeat constructor; vm_compute; intuition congruence|constructor
      |vm_compute; reflexivity..].
Defined.

(** ** The screen *)

Definition screen : MainScreenState := MainScreenState.new <| ms_list := ListPanelState.with_records entries |>.

Definition login_shown : DecryptedRecord :=
  mkDecryptedRecord 1 false None start_time start_time 1 false None []
    (EncryptedPayload.Login "mail" "bob" "secret" None None).

Definition key (code : KeyCode.t) : Message.t := Message.KeyEvent (mkKeyEvent code no_modifiers).

Definition completed (r : CommandResult.t) : Message.t :=
  Message.CommandCompleted (AppResult.Command r).

(** The details are shown, their secrets and no longer. *)
Definition messages : list Message.t :=
  [completed (CommandResult.RecordDetailLoaded login_shown None None);
   key KeyCode.Right; key KeyCode.Right; typed (ch "p");
   completed (CommandResult.FieldDecrypted 1 FieldSelector.Password "secret");
   typed (ch "p")].

Definition shown : MainScreenState := (session default_app_config messages []).1.

Lemma secrets_stay_masked_witness :
  df_value <$> DetailPanelState.fields (ms_detail shown) !! 1 = Some FieldValue.Masked ∧
  ∀ f, f ∈ DetailPanelState.fields (ms_detail shown) → is_secret (df_kind f) = true →
    df_value f = FieldValue.Masked.
Proof.
  split; [vm_compute; reflexivity|]. intros f Hin Hk.
  destruct (secrets_stay_masked default_app_config messages [] shown
    (session default_app_config messages []).2) as [H _]; [apply surjective_pairing|].
  destruct (H f Hin Hk) as [Hm|[Hv _]]; [exact Hm|]. exfalso. revert Hv. vm_compute. discriminate.
Defined.

(** Nothing that deletes is sent. *)
Definition harmless (w : list Command.t) : Prop := Forall (λ c, deletes c = false) w.

#[local] Instance harmless_kept : Undisturbed harmless.
Proof.
  split.
  - intros c Hc w a w' E Hw. unfold command_tx_try_send, sent_commands in E. injection E as <- <-.
    apply Forall_app. split; [exact Hw|by repeat constructor].
  - intros w a w' E Hw. cbn in E. by injection E as <- <-.
  - intros l w a w' E Hw. cbn in E. by injection E as <- <-.
  - intros w a w' E Hw. cbn in E. by injection E as <- <-.
Defined.

Definition asking : MainScreenState :=
  screen <| ms_overlay_manager := mkOverlayManager (Some (ActiveOverlay.ConfirmDialog
    (ConfirmVariant.HardDelete 3 "blog") ConfirmButton.Cancel)) |>.

Definition answer := update default_app_config (typed (ch "y")) asking [].

Lemma deletion_confirmed_witness :
  answer.1.2 = ScreenResult.Command (Command.HardDeleteRecord 3) ∧ harmless answer.2 ∧
  ∃ key, typed (ch "y") = Message.KeyEvent key ∧
    confirms (ke_code key) asking (Command.HardDeleteRecord 3).
Proof.
  assert (answer.1.2 = ScreenResult.Command (Command.HardDeleteRecord 3)) as E
    by (vm_compute; reflexivity).
  split; [exact E|].
  destruct (deletion_confirmed harmless default_app_config (typed (ch "y")) asking []
    answer.1.1 answer.1.2 answer.2) as (Hw & Hc & _).
  - constructor.
  - unfold answer. by rewrite <- !surjective_pairing.
  - split; [exact Hw|]. by apply Hc.
Defined.

(** A tag is renamed, to a name with a p. *)
Definition renaming : MainScreenState :=
  screen <| ms_sidebar ::= λ sb, sb <| sb_tag_management_mode := true |>
    <| sb_tag_management ::= TagManagementState.start_rename "work" |> |>.

Definition after (s : string) := update default_app_config (typed (ch s)) renaming [].

Lemma rename_box_misses_letters_witness :
  (ie_text <$> box (after "p").1.1) = Some "work" ∧
  (ie_text <$> box (after "s").1.1) = Some "works".
Proof.
  split.
  - erewrite (rename_box_misses_letters default_app_config (ch "p") renaming []
      (after "p").1.1 (after "p").1.2 (after "p").2); [vm_compute; reflexivity..|].
    unfold after. by rewrite <- !surjective_pairing.
  - erewrite (rename_box_misses_letters default_app_config (ch "s") renaming []
      (after "s").1.1 (after "s").1.2 (after "s").2); [vm_compute; reflexivity..|].
    unfold after. by rewrite <- !surjective_pairing.
Defined.

(** ** The watcher *)

(** Two changes come close together and one later: two pulls. *)
Definition changes : list Z := [0; 100; 2000]%Z.

Lemma changes_pulled_once_witness :
  (debounce_loop 500 (λ t, t) (λ _, true) None changes).*1 = [600; 2500]%Z ∧
  Forall (λ t, ∃ p, p ∈ (debounce_loop 500 (λ t, t) (λ _, true) None changes).*1 ∧ (t ≤ p)%Z)
    changes.
Proof.
  split; [vm_compute; reflexivity|].
  apply (changes_pulled_once 500 (λ t, t) (λ _, true) changes); [lia|lia|].
  repeat constructor; lia.
Defined.

(** ** The forms *)

Definition newline_char : Ascii.ascii := Ascii.ascii_of_nat 10.

(** A text area without a cursor: its lines, and whether all of it is selected. *)
Definition on_last_line (f : string → string) (lines : list string) : list string :=
  match reverse lines with
  | line :: above => reverse (f line :: above)
  | [] => [f ""]
  end.

#[local] Instance plain_area : TextAreaLib := {
  TextArea := list string * bool;
  ta_default := ([""], false);
  ta_lines := fst;
  ta_cursor _ := (0, 0);
  ta_move_cursor _ t := (t.1, false);
  ta_insert_char c t := (on_last_line (λ line, push line c) t.1, false);
  ta_insert_newline t := (t.1 ++ [""], false);
  ta_insert_str s t :=
    (if bool_decide (t.1 = [""]) then split_at newline_char s else t.1 ++ split_at newline_char s,
     false);
  ta_delete_char t := (if t.2 then [""] else on_last_line pop t.1, false);
  ta_delete_next_char t := t;
  ta_select_all t := (t.1, true);
}.

Lemma split_at_nonempty c s : split_at c s ≠ [].
Proof. destruct s; cbn; [done|]. case_bool_decide; [done|]. by destruct (split_at c s). Qed.

Lemma join_split c s : join (String c "") (split_at c s) = s.
Proof.
  induction s as [|d s IH]; [done|]. cbn [split_at]. pose proof (split_at_nonempty c s) as Hne.
  case_bool_decide as E.
  - subst d. destruct (split_at c s) as [|part parts] eqn:Es; [done|].
    change (join (String c "") ("" :: part :: parts)) with
      (String c (join (String c "") (part :: parts))). by rewrite IH.
  - destruct (split_at c s) as [|part parts]; [done|].
    rewrite <- IH. by destruct parts.
Qed.

#[local] Instance plain_area_laws : TextAreaLaws.
Proof.
  split; [done|done|]. intros [lines sel] s Hl _. cbn in *. rewrite Hl.
  apply (join_split newline_char).
Qed.

#[local] Instance one_calendar : Calendar (list Command.t) := {
  from_ymd_opt y m d := Some (y * 400 + m * 31 + d)%Z;
  parse_ymd _ := None;
  local_today w := (0%Z, w);
}.
#[local] Instance plain_messages : Messages := λ key _, key.
#[local] Instance plain_width : TextWidth := λ s, length (chars s).

#[local] Instance sent_queue : QueueLaws (list Command.t).
Proof.
  refine {| FormSafety.sent := λ w, w |}.
  - intros c w b w' [= <- <-]. reflexivity.
  - intros w r w' [= _ <-]. reflexivity.
  - intros l w r w' [= _ <-]. reflexivity.
  - intros w r w' [= _ <-]. reflexivity.
  - intros w r w' [= _ <-]. reflexivity.
Defined.

Lemma room : takes_commands (W := list Command.t).
Proof. intros c w. reflexivity. Qed.

Definition blank_form : CreateRecordScreen := (CreateRecordScreen.new (W := list Command.t) []).1.

Definition code (s : string) : list Z := chars s.

Definition filling : list Message.t :=
  login_session (code "mail") (code "mail.org") (code "bob") (code "Kx7!vQ2#mZ9$").

Lemma typed_record_is_saved_witness :
  (CreateRecordScreen.updates default_app_config filling blank_form []).2 =
  [Command.CreateRecord CredentialType.Login
     (EncryptedPayload.Login "mail" "bob" "Kx7!vQ2#mZ9$" (Some "mail.org") None) [] false None].
Proof.
  destruct (typed_record_is_saved default_app_config (code "mail") (code "mail.org") (code "bob")
    (code "Kx7!vQ2#mZ9$") blank_form ([] : list Command.t)) as (s' & w' & E & Hw & _).
  1-4: split; [repeat constructor; vm_compute; intuition congruence|vm_compute; intuition congruence].
  1-4: vm_compute; congruence.
  - reflexivity.
  - reflexivity.
  - apply room.
  - unfold filling. rewrite E. exact Hw.
Defined.

Lemma only_sent (w cs : list Command.t) : FormSafety.sent w = FormSafety.sent [] ++ cs → w = cs.
Proof. done. Qed.


(** A favourite that expires, loaded into the form and saved as it is. *)
Definition kept : DecryptedRecord :=
  mkDecryptedRecord 7 true (Some start_time) start_time start_time 3 false None ["work"]
    (EncryptedPayload.Login "mail" "bob" "Kx7!vQ2#mZ9$" (Some "mail.org") (Some "hello")).

Definition editor : EditRecordScreen :=
  (EditRecordScreen.new (W := list Command.t) 7 CredentialType.Login []).1.

